(* ===== verification/_CoqProject ===== *)
-Q . S2P
Prelude.v
GoStr.v
Ast.v
GoNet.v
GoTime.v
GoCrypto.v
Canonical.v
Intent.v
PoLines.v
DecimalFacts.v
Delegation.v
DelegationFacts.v
Revocation.v
Approval.v
Lexer.v
Parser.v
ParserFacts.v
Dag.v
DagFacts.v
Trie.v
TrieFacts.v
Compiler.v
Evaluator.v
Decision.v
DecisionFacts.v
EvaluatorFacts.v
EvalScratch.v
CompilerFacts.v
FoldFacts.v
Engine.v
EngineFacts.v
CacheCollector.v
Roles.v
Badger.v
Sync.v
SyncFacts.v
Simulate.v
Jwt.v
Identity.v
DelegationAuth.v
IntText.v
DelegationAuthFacts.v
Server.v
ServerFacts.v
Storage.v
StorageFacts.v
HttpServer.v
ServerSamples.v
GoJson.v
GoJsonFacts.v
GoDuration.v
Config.v
ConfigFacts.v
ReplayBuffer.v
GoAes.v
AuditCrypto.v
Redaction.v
AuditRecord.v
AuditRecordFacts.v
Archive.v
Spill.v
AuditQueue.v
AuditQueueFacts.v
AuditWriters.v
AuditSamples.v
GoUrl.v
Routes.v
PectlClient.v
PectlCommands.v
PectlPrinter.v
PectlFacts.v
PectlSession.v
PectlMain.v
SyncWorkers.v
SyncWorkersFacts.v
EmbeddedWorkers.v
SyncWorkersSamples.v
RevocationSync.v
Startup.v
Shutdown.v
