(* ===== verification/Prelude.v ===== *)
(** * Standalone policy engine: verification library

    The program is a policy decision point.  Tenants write policies in a small
    text language; the engine compiles a tenant's set, indexes it and answers
    permission requests from memory.  A synchroniser keeps the in-memory state
    at the revision of the database, snapshots let an edge node start without
    it, a security layer binds agents' requests to delegations and approvals by
    HMAC over canonical encodings, gRPC and HTTP services put identity,
    revocation and fences around the decision, and an audit pipeline seals and
    stores a record of every answer.  A command-line client, pectl, calls the
    HTTP service.

    ** Files and what they model

    The Go standard library, as far as the program uses it:
    - [Prelude]: results, fixed-width integers, automation shared by all files;
    - [GoStr], [IntText]: strings as bytes, UTF-8,
      packages strings, strconv, sort, unicode, fmt of integers;
    - [GoNet], [GoTime], [GoDuration]: net.ParseIP and ParseCIDR, time.Parse,
      fmt.Sscanf, time.ParseDuration with its float fractions;
    - [GoJson]: encoding/json on the values the program reads and writes;
    - [GoUrl]: the paths of net/url, path and the mux of net/http;
    - [GoCrypto], [GoAes]: big-endian integers, hexadecimal, base64,
      SHA-256, HMAC, MD5, AES and GCM, each checked on published vectors.

    The policy language (internal/parser):
    - [Ast] (ast.go), [Lexer] (lexer.go), [Parser] (parser.go, obligation.go);
    - [Compiler] (compiler.go, obligation.go, policy_set.go): literal typing,
      constant folding, limits, atomic compilation of a set.

    The engine (internal/engine):
    - [Dag] (dag.go): role hierarchy with its transitive closure;
    - [Trie] (trie.go): the three-level hash index of the policies;
    - [Evaluator] (evaluator.go): attributes and conditions, [None] and errors
      as in the code; [EvalScratch] (evaluator.go): the same on the memory the
      code uses, a pooled array of nodes with an overflow and one IP slot;
    - [Decision] (decision.go): lookup, evaluation loop, truth table;
    - [Engine] (engine.go, engine_gc.go, state_writer.go): copy-on-write tenant
      state, revisions, publication, lazy loading, cache collection, and what
      a simulation answers and leaves in the live index;
    - [CacheCollector] (engine_gc.go): the goroutine that collects idle
      tenants, its visit of each record and each unloading a step;
    - [Simulate] (SimulateDecision): the index with shared nodes, on a heap,
      from which the simulations of [Engine] are justified;
    - [Sync] (sync.go, edge_restore.go, pkg/pdp/embedded.go): synchronisation,
      readiness, edge restore, the embedded decision point;
    - [SyncWorkers] (sync.go, ListenPolicyEvents of postgres.go) and
      [EmbeddedWorkers] (pkg/pdp/embedded.go): the goroutines that drive them,
      as state machines that interleave with the writers of the database; a
      readiness probe is one of them and asks tenant by tenant.

    Storage (internal/storage):
    - [Roles] (policy_bundle.go): role-graph validation; [Badger] (badger.go):
      durable snapshots and the directories they are in; [Storage]
      (postgres.go, policy_bundle.go, revocation.go, erp_policy_fence.go,
      erp_revocation_fence.go): the rows,
      the transactions and the notifications of the two databases, and how
      the first is opened, with the search for its migrations.

    The security layer (internal/security):
    - [Canonical] (canonical_encoding.go): prefix-free encoders, validators;
    - [Intent], [PoLines] (canonical_business_intent.go,
      canonical_purchase_order_lines.go): the bound business command;
    - [Delegation] (delegation.go, delegation_proof.go, delegation_proof_v2.go):
      key ring, V1 and V2 proofs;
    - [Revocation] (delegation.go) and [RevocationSync] (revocation_sync.go):
      the revocation list, and the goroutine that feeds it;
    - [Approval] (approval_capability.go): approval capabilities;
    - [Jwt] (jwt.go): tokens; [AuditCrypto] (crypto.go): envelopes and tags.

    The services (internal/server) and the processes (cmd):
    - [Identity] (grpc_auth.go, middleware.go, grpc_transport.go):
      authentication on both transports and the trusted context;
    - [DelegationAuth] (delegation_auth.go, delegation_auth_v2.go): proofs in
      front of a decision and the binding to the signed command;
    - [Server] (grpc_server.go, grpc_revoke.go, grpc_approval.go,
      grpc_explain.go) and [HttpServer] (http_server.go, handlers_*.go,
      health.go): every handler;
    - [Routes] (http_server.go, health.go): the table of the mux;
    - [ReplayBuffer] (replay_buffer.go): the ring of policy events;
    - [Config] (internal/config): the environment, its checks and key rings;
    - [Startup] (cmd/pdp-server, cmd/control-plane): the wiring, and
      [Shutdown] (main of cmd/pdp-server): the decision point from its signal to
      its exit, main, the calls in flight, the logger, the list of revocations
      and the node as one process.

    The audit pipeline (internal/audit):
    - [Redaction] (redaction.go); [AuditRecord] (logger.go, secure.go,
      stream_codec.go): the record, its text, sealing, the stream line;
    - [Spill] (spill.go): the directory of files that are replayed;
    - [Archive] (archive.go): immutable segments in an object store;
    - [AuditQueue] (batch.go, logger.go, archive.go, postgres.go): the queue,
      its worker and the writers, as a state machine.

    The command line (internal/pectl):
    - [PectlClient] (client.go, config.go): requests, retries, configuration;
    - [PectlCommands] (types.go, commands/*.go, and the request types and
      answers of internal/server/handlers_*.go): what each command sends and
      reads, and what the handlers decode and answer;
    - [PectlSession]: a command against the handlers of the plane, through the
      network, the mux and both encodings;
    - [PectlPrinter] (printer/table.go): every table, through the layout of
      text/tabwriter, and the formats of times and numbers;
    - [PectlMain] (printer/json.go, commands/*.go, root.go): indented JSON, and
      a run of each command from its arguments to its output, error and exit
      code.

    A file ending in [Facts] holds the theorems about the file it is named
    after, a file without one holds its own; [AuditWriters] has theorems about [AuditQueue] too,
    and the files ending in [Samples] hold concrete inputs.  Definitions keep
    the names of the Go functions; a method that changes its receiver returns
    the new one; an error is a constructor whose message text is dropped; a
    clock reading, a random read, the outcome of a call of a database, a file
    system or an object store, and the iteration order of a Go map are
    arguments.

    ** How the parts fit

    [Parse] gives policies to [Compile]; [CompilePolicySet] gives a set to
    [buildTenantTrie], which fills a [TrieRoot] and its [RoleDAG];
    publication installs it in the map of tenants; [CheckPermission] looks the
    policies up and evaluates their conditions.  [Sync] drives publication from
    the bundles of [Storage] and [Badger].  [CheckAccess] of [Server] puts
    [Identity], the revocation gate, [DelegationAuth] and the fence around
    [CheckPermission] and logs the answer; the logger is the state machine of
    [AuditQueue].  [Load] of [Config] gives the configuration from which
    [start_pdp] of [Startup] builds these parts.  A [Node] of [SyncWorkers] is
    a syncer, a database and the goroutines between them; its atomic steps are
    the operations of [Sync] and [Storage] cut where a goroutine can wait.
    [Request] of [PectlClient] sends what [command_target] and
    [command_payload] name, [dispatch] of [GoUrl] brings it to a handler of
    [HttpServer], and [run] of [PectlMain] prints what comes back.
    A [Process] of [Shutdown] holds the state machines of [AuditQueue],
    [RevocationSync] and [SyncWorkers] and advances them in the order of main.

    The interfaces are: the relation [represents] between a tenant's index and
    a bundle, through which [Sync] and everything above it sees an engine,
    with the ledger of what was published and what simulations tried;
    [PrefixFree], of the encoders to the formats of the security layer; the
    class [RevocationStore] with its laws, which [Server] uses and [Storage]
    implements; [BatchWriter] with its laws, which [Spill] and [AuditQueue]
    use and both writers of [AuditWriters] satisfy; [ObjectStore] with its
    laws, a create-only store. [UnicodeTable], [LowerTable], [RangeOrder],
    [RowOrder], [Normalizer], [JwtLibrary], [AuditColumns] and [UrlAuthority]
    are classes for what the source does not fix.

    ** What the theorems show

    - decisions: [decision_refines_pdp] (the answer is that of the abstract
      decision point: some applicable permit holds and no applicable forbid
      does), [decision_reason_justified], [lookup_is_flat_scan], for an action
      whose hash is not that of the wildcard, where a policy open in principal
      and resource covers every action; conditions fail closed and identity
      attributes are isolated from the context; evaluation on pooled memory
      gives the values of the evaluator, whatever an earlier request left
      there;
    - compilation: well-formed and atomic sets, the optimiser preserves the
      value of every condition in the cases its hypotheses name (and the
      examples next to it show where it does not), parsing terminates;
    - state: under any interleaving, simulations included, a tenant is
      answered from one published bundle at the revision reported, and from
      policies that simulations tried for it; revisions are monotone;
      publications commute; roles accepted by storage load and are the
      reflexive-transitive closure; a collection cycle takes exactly the
      tenants that were idle;
    - storage: a revision determines the bundle and every step is announced
      once in order, a ready fence is current whatever fails or dies, save the
      row that a decision on an old revision creates, a replica that listens
      before it reads misses no revocation, storage opens exactly with its
      schema, and a snapshot survives a restart;
    - synchronisation: all or nothing, snapshots restore the same bundle,
      reconciliation reaches readiness, tenant scoping; under every
      interleaving of the goroutines a node serves committed states, a probe
      that ends healthy found each tenant current when it asked for it, a
      round catches up with the state it began with unless the collector
      unloads, and a stop of a started syncer ends the goroutines;
    - security: encodings determine what they encode, a proof is accepted
      exactly when a retained key signed that tuple and time allows it,
      revocation is exact under any delivery order, approvals separate duties.
      Statements about hashes name the two inputs that would have to collide;
    - services: an answer rests on a verified token, the delegation checks and
      the policies of the tenant; [CheckAccess] denies a revoked grant; an
      approval that is issued verifies; an accepted confirmation under a grant
      that needs the second proof is the signed command; a control-plane route
      needs a token of the tenant with the permission;
    - audit: no record vanishes, a shutdown leaves none in memory, the sizes
      are bounded and the counters add up, sealed records open and bind their
      clear fields, an acknowledged batch is stored column by column and
      archived and giving it again changes nothing, keys with sensitive names
      are redacted, a stream record is one line;
    - configuration and startup: loaded numbers are in range, production keys
      are long, explicit and different and no issuer, audience or database is
      the built-in local one, a node serves with exactly its configuration, a
      loaded configuration starts, [CheckAccess] of an edge node refuses
      delegated requests; the syncer reports once and is ready only while it
      watches; a shutdown comes to an end in every run in which what main
      waits for moves some time and no further round begins, serves the calls
      in flight and leaves no call, no record in memory and no goroutine;
    - command line: a command reaches its handler with its identifiers and its
      body is read back, a request is repeated a bounded number of times and
      only when that may help; and what goes wrong: a lost answer duplicates a
      draft, a simulated draft is ignored, some answers are misread, and what
      its user then sees; the columns of its tables align when the fields have
      no tabs and line breaks, and its indented JSON is read back.

    ** Bounds

    The parser runs with fuel [parse_fuel], computed from the text, and
    [Parse_total] shows that it is enough; graph searches use [graph_size];
    the JSON reader uses the nesting limit of the library and the length of the
    text; the drain of the audit queue uses the length of the queue; every
    other recursion is structural.  Integers are [Z] with the wrap-around
    of the code's int64, uint64 and uint32 written where it can happen; the
    counters of the audit logger are taken not to reach 2^64.

    ** Not modelled

    Locks and atomics make their critical sections one step; goroutines are
    state machines whose steps come in any order.  Database drivers, the
    migration tool, the value log of Badger, HTTP and gRPC transport below the
    mux, TLS and its files, the overlay network, cobra, viper, the encoder of
    YAML and generated code are calls whose answers are arguments; golang-jwt
    and Unicode normalisation are parameters.  Left out are the Prometheus
    counters and the log lines, which nothing reads back; the debug texts
    of the syntax tree; the construction of loggers over a socket or a stream,
    whose line format is modelled; the shutdown of the control plane, whose
    parts are those of the decision point without its gRPC server; and the
    tools that make test certificates and start a test database. *)

From stdpp Require Export base gmap strings list numbers sorting.
From Stdlib Require Export Lia Ascii.
From stdpp Require Import options.

Declare Scope pdp_scope.
Delimit Scope pdp_scope with pdp.
Global Open Scope pdp_scope.

(** ** Results of fallible Go functions, [(value, error)] *)

Inductive result (E A : Type) : Type :=
| Ok (a : A)
| Err (e : E).
Arguments Ok {E A} a.
Arguments Err {E A} e.

Definition rbind {E A B} (m : result E A) (k : A -> result E B) : result E B :=
  match m with
  | Ok a => k a
  | Err e => Err e
  end.

Notation "'let?' x := m 'in' k" := (rbind m (fun x => k))
  (at level 10, x pattern, m at level 100, k at level 200) : pdp_scope.

(** [if cond { return err }] in front of the rest of a Go function. *)
Notation "'guard?' c 'else' e ; k" := (if c then Err e else k)
  (at level 10, c at level 100, e at level 100, k at level 200) : pdp_scope.

Definition is_ok {E A} (m : result E A) : bool :=
  match m with Ok _ => true | Err _ => false end.

(** The result with its error forgotten, for code that only tests [err != nil]. *)
Definition to_option {E A} (m : result E A) : option A :=
  match m with Ok a => Some a | Err _ => None end.

(** [for _, x := range xs { y, err := f(x); if err != nil { return err } }] *)
Fixpoint rmapM {E A B} (f : A -> result E B) (xs : list A) : result E (list B) :=
  match xs with
  | [] => Ok []
  | x :: xs' => let? y := f x in let? ys := rmapM f xs' in Ok (y :: ys)
  end.

(** ** Fixed-width integers, kept as [Z] with their wrap-around *)

Definition to_int64 (z : Z) : Z := ((z + 2 ^ 63) mod 2 ^ 64 - 2 ^ 63)%Z.
Definition to_uint64 (z : Z) : Z := (z mod 2 ^ 64)%Z.
Definition to_uint32 (z : Z) : Z := (z mod 2 ^ 32)%Z.
Definition to_byte (z : Z) : Z := (z mod 256)%Z.

Definition min_int64 : Z := (- 2 ^ 63)%Z.
Definition max_int64 : Z := (2 ^ 63 - 1)%Z.
Definition max_uint32 : Z := (2 ^ 32 - 1)%Z.

Definition is_int64 (z : Z) : Prop := (min_int64 <= z <= max_int64)%Z.
Definition is_uint64 (z : Z) : Prop := (0 <= z < 2 ^ 64)%Z.

Global Instance is_int64_dec z : Decision (is_int64 z).
Proof. unfold is_int64. apply _. Defined.
Global Instance is_uint64_dec z : Decision (is_uint64 z).
Proof. unfold is_uint64. apply _. Defined.

(** ** Automation *)

Create HintDb pdp.

(** Case analysis on the binds and guards of a hypothesis about a result. *)
Ltac inv_result_step :=
  match goal with
  | H : Ok _ = Ok _ |- _ => injection H; clear H; intros; subst
  | H : Err _ = Err _ |- _ => injection H; clear H; intros; subst
  | H : Ok _ = Err _ |- _ => discriminate H
  | H : Err _ = Ok _ |- _ => discriminate H
  | H : Some _ = Some _ |- _ => injection H; clear H; intros; subst
  | H : Some _ = None |- _ => discriminate H
  | H : None = Some _ |- _ => discriminate H
  | H : rbind ?m _ = _ |- _ =>
      let E := fresh "E" in destruct m eqn:E; simpl in H
  | H : (if ?c then _ else _) = _ |- _ =>
      let E := fresh "E" in destruct c eqn:E
  | H : match ?o with Some _ => _ | None => _ end = _ |- _ =>
      let E := fresh "E" in destruct o eqn:E
  end.
Ltac inv_result := repeat inv_result_step.

(** Boolean tests of the code as propositions. *)
Ltac bool_to_prop :=
  repeat match goal with
  | H : negb _ = true |- _ => apply negb_true_iff in H
  | H : negb _ = false |- _ => apply negb_false_iff in H
  | H : (_ && _) = true |- _ => apply andb_true_iff in H; destruct H
  | H : (_ || _) = false |- _ => apply orb_false_iff in H; destruct H
  | H : bool_decide _ = true |- _ => apply bool_decide_eq_true in H
  | H : bool_decide _ = false |- _ => apply bool_decide_eq_false in H
  | H : (_ <? _)%Z = true |- _ => apply Z.ltb_lt in H
  | H : (_ <? _)%Z = false |- _ => apply Z.ltb_ge in H
  | H : (_ <=? _)%Z = true |- _ => apply Z.leb_le in H
  | H : (_ <=? _)%Z = false |- _ => apply Z.leb_gt in H
  | H : (_ =? _)%Z = true |- _ => apply Z.eqb_eq in H
  | H : (_ =? _)%Z = false |- _ => apply Z.eqb_neq in H
  | H : Nat.ltb _ _ = true |- _ => apply Nat.ltb_lt in H
  | H : Nat.ltb _ _ = false |- _ => apply Nat.ltb_ge in H
  | H : Nat.leb _ _ = true |- _ => apply Nat.leb_le in H
  | H : Nat.leb _ _ = false |- _ => apply Nat.leb_gt in H
  | H : Nat.eqb _ _ = true |- _ => apply Nat.eqb_eq in H
  | H : Nat.eqb _ _ = false |- _ => apply Nat.eqb_neq in H
  end.

(** ** Lemmas on results *)

Lemma Ok_inj {E A} (a b : A) : @Ok E A a = Ok b -> a = b.
Proof. by intros [= ->]. Qed.

Lemma rbind_ok {E A B} (m : result E A) (k : A -> result E B) b :
  rbind m k = Ok b <-> exists a, m = Ok a /\ k a = Ok b.
Proof.
  destruct m as [a|e]; simpl; split; intros H; [by exists a | | done |].
  - by destruct H as (a' & [= ->] & H).
  - by destruct H as (a' & [=] & _).
Qed.

Lemma rmapM_ok {E A B} (f : A -> result E B) xs ys :
  rmapM f xs = Ok ys <-> Forall2 (fun x y => f x = Ok y) xs ys.
Proof.
  revert ys. induction xs as [|x xs IH]; intros ys; simpl.
  - split; [intros H; inv_result; constructor | inversion 1; done].
  - split.
    + intros H. inv_result. constructor; [done|]. by apply IH.
    + inversion 1 as [|? y ? ys' Hx Hxs]; subst. rewrite Hx. simpl.
      by rewrite (proj2 (IH ys') Hxs).
Qed.

Lemma rmapM_length {E A B} (f : A -> result E B) xs ys :
  rmapM f xs = Ok ys -> length ys = length xs.
Proof. rewrite rmapM_ok. intros H. symmetry. by eapply Forall2_length. Qed.

(** One choice for every element of a list. *)
Lemma list_choice {A B} (l : list A) (P : A -> B -> Prop) :
  (forall x, x ∈ l -> exists y, P x y) -> exists ys : list B, forall x, x ∈ l -> exists y, y ∈ ys /\ P x y.
Proof.
  induction l as [|x l IH]; intros Hl; [exists []; by intros x ?%not_elem_of_nil|].
  destruct (Hl x ltac:(by left)) as [y Hy]. destruct IH as [ys Hys]; [intros z ?; apply Hl; by right|].
  exists (y :: ys). intros z [->|Hz]%elem_of_cons; [exists y; split; [by left|done]|].
  destruct (Hys z Hz) as (y' & ? & ?). exists y'. split; [by right|done].
Qed.

(** ** Lemmas on fixed-width integers *)

Lemma to_int64_id z : is_int64 z -> to_int64 z = z.
Proof.
  unfold is_int64, min_int64, max_int64, to_int64. intros H.
  rewrite Z.mod_small; lia.
Qed.

Lemma to_int64_range z : is_int64 (to_int64 z).
Proof.
  unfold is_int64, min_int64, max_int64, to_int64.
  pose proof (Z.mod_pos_bound (z + 2 ^ 63) (2 ^ 64) ltac:(lia)). lia.
Qed.

Lemma to_uint64_id z : is_uint64 z -> to_uint64 z = z.
Proof. unfold is_uint64, to_uint64. intros H. by rewrite Z.mod_small. Qed.

Lemma to_uint64_range z : is_uint64 (to_uint64 z).
Proof. unfold is_uint64, to_uint64. apply Z.mod_pos_bound. lia. Qed.

(** The two's-complement reading of a 64-bit word determines the [int64]. *)
Lemma to_uint64_inj_int64 a b :
  is_int64 a -> is_int64 b -> to_uint64 a = to_uint64 b -> a = b.
Proof.
  unfold is_int64, min_int64, max_int64, to_uint64. intros Ha Hb H.
  pose proof (Z.div_mod a (2 ^ 64) ltac:(lia)).
  pose proof (Z.div_mod b (2 ^ 64) ltac:(lia)).
  assert (-1 <= a / 2 ^ 64 <= 0)%Z by
    (split; [apply Z.div_le_lower_bound | apply Z.lt_succ_r, Z.div_lt_upper_bound]; lia).
  assert (-1 <= b / 2 ^ 64 <= 0)%Z by
    (split; [apply Z.div_le_lower_bound | apply Z.lt_succ_r, Z.div_lt_upper_bound]; lia).
  rewrite H in *.
  pose proof (Z.mod_pos_bound b (2 ^ 64) ltac:(lia)). nia.
Qed.

#[export] Hint Resolve to_int64_range to_uint64_range : pdp.
