(* ===== verification/GoStr.v ===== *)
(** * Go strings and the [strings], [strconv] and [utf8] functions the engine calls

    A Go string is a sequence of bytes: Rocq's [string], one [ascii] per byte.
    [[]rune(s)] and [string(runes)] are the UTF-8 decoder and encoder of the
    language (an invalid byte decodes to U+FFFD).  The functions of the
    packages [strings], [strconv] and [unicode/utf8] that the engine uses are
    defined on that representation. *)

From S2P Require Import Prelude.
From stdpp Require Import options.
Local Open Scope Z_scope.

(** ** Bytes *)

Definition byte_of (a : ascii) : Z := Z.of_N (Ascii.N_of_ascii a).
Definition ascii_of (b : Z) : ascii := Ascii.ascii_of_N (Z.to_N b).

Definition chars (s : string) : list ascii := String.list_ascii_of_string s.
Definition of_chars (l : list ascii) : string := String.string_of_list_ascii l.

(** [[]byte(s)] and [string(bytes)]. *)
Definition go_bytes (s : string) : list Z := byte_of <$> chars s.
Definition of_bytes (l : list Z) : string := of_chars (ascii_of <$> l).

(** [len(s)]. *)
Definition go_len (s : string) : Z := Z.of_nat (String.length s).

Definition is_byte (b : Z) : Prop := 0 <= b < 256.

(** ** UTF-8 *)

Definition rune_error : Z := 65533.

Definition is_cont (b : Z) : bool := (128 <=? b) && (b <=? 191).

(** Accept ranges of the second byte, as in the table of [unicode/utf8]. *)
Definition second_ok (b0 b1 : Z) : bool :=
  if b0 =? 224 then (160 <=? b1) && (b1 <=? 191)
  else if b0 =? 237 then (128 <=? b1) && (b1 <=? 159)
  else if b0 =? 240 then (144 <=? b1) && (b1 <=? 191)
  else if b0 =? 244 then (128 <=? b1) && (b1 <=? 143)
  else is_cont b1.

Definition lead2 (b0 : Z) : bool := (194 <=? b0) && (b0 <=? 223).
Definition lead3 (b0 : Z) : bool := (224 <=? b0) && (b0 <=? 239).
Definition lead4 (b0 : Z) : bool := (240 <=? b0) && (b0 <=? 244).

Definition rune2 (b0 b1 : Z) : Z := (b0 - 192) * 64 + (b1 - 128).
Definition rune3 (b0 b1 b2 : Z) : Z := (b0 - 224) * 4096 + (b1 - 128) * 64 + (b2 - 128).
Definition rune4 (b0 b1 b2 b3 : Z) : Z :=
  (b0 - 240) * 262144 + (b1 - 128) * 4096 + (b2 - 128) * 64 + (b3 - 128).

(** The runes of a byte sequence, each with the bytes it was read from. *)
Fixpoint utf8_chunks (bs : list Z) : list (Z * list Z) :=
  match bs with
  | [] => []
  | b0 :: r0 =>
      if b0 <? 128 then (b0, [b0]) :: utf8_chunks r0
      else match r0 with
      | [] => (rune_error, [b0]) :: utf8_chunks r0
      | b1 :: r1 =>
          if lead2 b0 && second_ok b0 b1 then (rune2 b0 b1, [b0; b1]) :: utf8_chunks r1
          else match r1 with
          | [] => (rune_error, [b0]) :: utf8_chunks r0
          | b2 :: r2 =>
              if lead3 b0 && second_ok b0 b1 && is_cont b2
              then (rune3 b0 b1 b2, [b0; b1; b2]) :: utf8_chunks r2
              else match r2 with
              | [] => (rune_error, [b0]) :: utf8_chunks r0
              | b3 :: r3 =>
                  if lead4 b0 && second_ok b0 b1 && is_cont b2 && is_cont b3
                  then (rune4 b0 b1 b2 b3, [b0; b1; b2; b3]) :: utf8_chunks r3
                  else (rune_error, [b0]) :: utf8_chunks r0
              end
          end
      end
  end.

(** [[]rune(s)]. *)
Definition runes_of (s : string) : list Z := (utf8_chunks (go_bytes s)).*1.

(** The UTF-8 encoding of one rune; surrogates and out-of-range values become U+FFFD. *)
Definition encode_rune (r : Z) : list Z :=
  if (0 <=? r) && (r <? 128) then [r]
  else if (0 <=? r) && (r <? 2048) then [192 + r / 64; 128 + r mod 64]
  else if (r <? 0) || ((55296 <=? r) && (r <=? 57343)) || (1114111 <? r) then [239; 191; 189]
  else if r <? 65536 then [224 + r / 4096; 128 + (r / 64) mod 64; 128 + r mod 64]
  else [240 + r / 262144; 128 + (r / 4096) mod 64; 128 + (r / 64) mod 64; 128 + r mod 64].

(** [string(runes)]. *)
Definition string_of_runes (rs : list Z) : string := of_bytes (mjoin (encode_rune <$> rs)).

(** [utf8.ValidString]: no byte had to be replaced. *)
Definition utf8_valid (s : string) : bool :=
  forallb (fun c => negb ((c.1 =? rune_error) && (length c.2 =? 1)%nat)) (utf8_chunks (go_bytes s)).

(** [unicode.IsSpace]. *)
Definition unicode_is_space (r : Z) : bool :=
  ((9 <=? r) && (r <=? 13)) || (r =? 32) || (r =? 133) || (r =? 160) || (r =? 5760)
  || ((8192 <=? r) && (r <=? 8202)) || (r =? 8232) || (r =? 8233) || (r =? 8239)
  || (r =? 8287) || (r =? 12288).

(** ** Package [strings] *)

Fixpoint drop_while {A} (f : A -> bool) (l : list A) : list A :=
  match l with
  | [] => []
  | x :: l' => if f x then drop_while f l' else l
  end.

Definition trim_by {A} (f : A -> bool) (l : list A) : list A :=
  reverse (drop_while f (reverse (drop_while f l))).

(** [strings.TrimSpace]. *)
Definition trim_space (s : string) : string :=
  of_bytes (mjoin ((trim_by (fun c : Z * list Z => unicode_is_space c.1) (utf8_chunks (go_bytes s))).*2)).

(** [strings.HasPrefix], [strings.HasSuffix], [strings.TrimPrefix], [strings.TrimSuffix]. *)
Definition has_prefix (s p : string) : bool := String.prefix p s.

Definition drop_bytes (n : nat) (s : string) : string := of_chars (drop n (chars s)).
Definition take_bytes (n : nat) (s : string) : string := of_chars (take n (chars s)).

Definition trim_prefix (s p : string) : string :=
  if has_prefix s p then drop_bytes (String.length p) s else s.

Definition has_suffix (s p : string) : bool :=
  (String.length p <=? String.length s)%nat
  && bool_decide (drop_bytes (String.length s - String.length p) s = p).

Definition trim_suffix (s p : string) : string :=
  if has_suffix s p then take_bytes (String.length s - String.length p) s else s.

(** [strings.Split] with a one-byte separator. *)
Fixpoint split_chars (sep : ascii) (l : list ascii) : list (list ascii) :=
  match l with
  | [] => [[]]
  | a :: l' =>
      if bool_decide (a = sep) then [] :: split_chars sep l'
      else match split_chars sep l' with
           | [] => [[a]]
           | p :: ps => (a :: p) :: ps
           end
  end.
Definition split (s : string) (sep : ascii) : list string := of_chars <$> split_chars sep (chars s).

(** [strings.Join]. *)
Fixpoint join (parts : list string) (sep : string) : string :=
  match parts with
  | [] => ""
  | [p] => p
  | p :: ps => p +:+ sep +:+ join ps sep
  end.

(** [strings.Contains]. *)
Fixpoint contains (s sub : string) : bool :=
  has_prefix s sub || match s with
  | EmptyString => false
  | String _ s' => contains s' sub
  end.

(** [strings.TrimRight(s, "0")] style trimming of one byte. *)
Definition trim_right_char (s : string) (c : ascii) : string :=
  of_chars (reverse (drop_while (fun a => bool_decide (a = c)) (reverse (chars s)))).

(** [strings.Compare]: the sign of the bytewise lexicographic order. *)
Definition string_cmp (a b : string) : Z :=
  match String.compare a b with Lt => -1 | Eq => 0 | Gt => 1 end.

(** ASCII letters of [strings.ToLower]. *)
Definition lower_byte (b : Z) : Z := if (65 <=? b) && (b <=? 90) then b + 32 else b.
Definition to_lower_ascii (s : string) : string := of_bytes (lower_byte <$> go_bytes s).

(** ** Package [strconv] *)

Definition is_digit_byte (b : Z) : bool := (48 <=? b) && (b <=? 57).

(** The value of a sequence of decimal digits; [None] when a byte is no digit. *)
Fixpoint digits_value (acc : Z) (bs : list Z) : option Z :=
  match bs with
  | [] => Some acc
  | b :: bs' => if is_digit_byte b then digits_value (acc * 10 + (b - 48)) bs' else None
  end.

(** An unsigned decimal number: at least one digit. *)
Definition parse_digits (bs : list Z) : option Z :=
  match bs with [] => None | _ => digits_value 0 bs end.

(** [strconv.ParseInt(s, 10, 64)]: [None] stands for a syntax or a range error. *)
Definition parse_int_bytes (bs : list Z) : option Z :=
  let '(neg, ds) := match bs with
    | 43 :: r => (false, r)
    | 45 :: r => (true, r)
    | _ => (false, bs)
    end in
  match parse_digits ds with
  | None => None
  | Some n => let v := if neg : bool then - n else n in
              if bool_decide (is_int64 v) then Some v else None
  end.
Definition ParseInt (s : string) : option Z := parse_int_bytes (go_bytes s).

(** The decimal digits of [n], in front of [acc]; 20 digits hold every 64-bit value. *)
Fixpoint dec_digits (fuel : nat) (n : Z) (acc : list Z) : list Z :=
  match fuel with
  | O => acc
  | S f => let acc' := (48 + n mod 10) :: acc in
           if n <? 10 then acc' else dec_digits f (n / 10) acc'
  end.

(** [strconv.FormatInt(n, 10)] and [strconv.FormatUint(n, 10)]. *)
Definition format_int_bytes (n : Z) : list Z :=
  if n <? 0 then 45 :: dec_digits 20 (- n) [] else dec_digits 20 n [].
Definition FormatInt (n : Z) : string := of_bytes (format_int_bytes n).

(** [strconv.ParseBool]. *)
Definition ParseBool (s : string) : option bool :=
  if bool_decide (s ∈ ["1"; "t"; "T"; "TRUE"; "true"; "True"]%string) then Some true
  else if bool_decide (s ∈ ["0"; "f"; "F"; "FALSE"; "false"; "False"]%string) then Some false
  else None.

(** ** Package [sort] *)

(** [sort.Strings]: bytewise order. *)
Definition string_le (a b : string) : Prop := String.leb a b = true.
Global Instance string_le_dec a b : Decision (string_le a b).
Proof. unfold string_le. apply _. Defined.
Definition sort_strings (l : list string) : list string := merge_sort string_le l.

Global Instance string_le_total : Total string_le.
Proof. intros a b. unfold string_le, String.leb. rewrite String.compare_antisym. destruct (String.compare b a); auto. Qed.

(** ** Package [unicode] *)

(** The category table of [unicode.IsLetter] above Latin-1 depends on the
    Unicode version of the Go release; the library is generic in it.  No
    claim depends on its contents. *)
Class UnicodeTable := letter_above_latin1 : Z -> bool.

(** [unicode.IsLetter]. *)
Definition unicode_is_letter `{UnicodeTable} (r : Z) : bool :=
  if r <=? 255 then
    ((65 <=? r) && (r <=? 90)) || ((97 <=? r) && (r <=? 122))
    || (r =? 170) || (r =? 181) || (r =? 186)
    || ((192 <=? r) && (r <=? 214)) || ((216 <=? r) && (r <=? 246)) || ((248 <=? r) && (r <=? 255))
  else letter_above_latin1 r.

(** ** Strings and their bytes *)

Lemma byte_of_range a : is_byte (byte_of a).
Proof. unfold is_byte, byte_of. pose proof (Ascii.N_ascii_bounded a). lia. Qed.

Lemma byte_of_ascii_of b : is_byte b -> byte_of (ascii_of b) = b.
Proof.
  unfold is_byte, byte_of, ascii_of. intros H.
  rewrite Ascii.N_ascii_embedding by lia. lia.
Qed.

Lemma ascii_of_byte_of a : ascii_of (byte_of a) = a.
Proof. unfold byte_of, ascii_of. by rewrite N2Z.id, Ascii.ascii_N_embedding. Qed.

Lemma chars_of_chars l : chars (of_chars l) = l.
Proof. apply String.list_ascii_of_string_of_list_ascii. Qed.

Lemma of_chars_chars s : of_chars (chars s) = s.
Proof. apply String.string_of_list_ascii_of_string. Qed.

Lemma go_bytes_is_byte s : Forall is_byte (go_bytes s).
Proof. unfold go_bytes. apply Forall_fmap, Forall_true. intros a. apply byte_of_range. Qed.

Lemma go_bytes_of_bytes l : Forall is_byte l -> go_bytes (of_bytes l) = l.
Proof.
  intros Hl. unfold go_bytes, of_bytes. rewrite chars_of_chars, <- list_fmap_compose.
  induction Hl as [|b l Hb Hl IH]; csimpl; [done|].
  f_equal; [by apply byte_of_ascii_of|done].
Qed.

Lemma of_bytes_go_bytes s : of_bytes (go_bytes s) = s.
Proof.
  unfold go_bytes, of_bytes. rewrite <- list_fmap_compose. transitivity (of_chars (chars s));
    [f_equal|apply of_chars_chars]. induction (chars s) as [|a l IH]; csimpl; [done|].
  f_equal; [apply ascii_of_byte_of|done].
Qed.

Lemma go_bytes_inj s t : go_bytes s = go_bytes t -> s = t.
Proof. intros H. by rewrite <- (of_bytes_go_bytes s), H, of_bytes_go_bytes. Qed.

Lemma chars_app s t : chars (s +:+ t) = chars s ++ chars t.
Proof. unfold chars. induction s as [|a s IH]; simpl; [done|]. by rewrite IH. Qed.

Lemma go_bytes_app s t : go_bytes (s +:+ t) = go_bytes s ++ go_bytes t.
Proof. unfold go_bytes. by rewrite chars_app, fmap_app. Qed.

Lemma has_prefix_app p s : has_prefix (p +:+ s) p = true.
Proof.
  unfold has_prefix. induction p as [|a p IH]; simpl; [by destruct s|].
  by destruct (ascii_dec a a).
Qed.

Lemma length_go_bytes s : length (go_bytes s) = String.length s.
Proof.
  unfold go_bytes, chars. rewrite length_fmap. induction s as [|a s IH]; simpl; [done|]. by rewrite IH.
Qed.

Lemma length_of_bytes l : String.length (of_bytes l) = length l.
Proof.
  rewrite <- length_go_bytes. unfold go_bytes, of_bytes. by rewrite chars_of_chars, !length_fmap.
Qed.

(** ** UTF-8 round trip *)

Ltac utf8_range :=
  repeat match goal with
  | H : (_ && _)%bool = true |- _ => apply andb_true_iff in H; destruct H
  | H : (_ <=? _) = true |- _ => apply Z.leb_le in H
  | H : (_ <? _) = true |- _ => apply Z.ltb_lt in H
  | H : (_ =? _) = true |- _ => apply Z.eqb_eq in H
  | H : (_ =? _) = false |- _ => apply Z.eqb_neq in H
  | H : (_ <? _) = false |- _ => apply Z.ltb_ge in H
  | H : is_cont _ = true |- _ => unfold is_cont in H
  | H : lead2 _ = true |- _ => unfold lead2 in H
  | H : lead3 _ = true |- _ => unfold lead3 in H
  | H : lead4 _ = true |- _ => unfold lead4 in H
  end.

Ltac second_range b :=
  match goal with
  | H : second_ok _ b = true |- _ => unfold second_ok in H; repeat case_match; utf8_range
  end.

Lemma encode_rune1 b : 0 <= b < 128 -> encode_rune b = [b].
Proof. intros H. unfold encode_rune. by replace ((0 <=? b) && (b <? 128)) with true by lia. Qed.

Lemma encode_rune2 b0 b1 : lead2 b0 = true -> second_ok b0 b1 = true -> encode_rune (rune2 b0 b1) = [b0; b1].
Proof.
  intros H0 H1. utf8_range. assert (128 <= b1 <= 191) by (second_range b1; lia).
  unfold rune2. set (r := (b0 - 192) * 64 + (b1 - 128)).
  assert (r / 64 = b0 - 192) by (symmetry; apply (Z.div_unique _ _ _ (b1 - 128)); lia).
  assert (r mod 64 = b1 - 128) by (symmetry; apply (Z.mod_unique _ _ (b0 - 192)); lia).
  unfold encode_rune.
  replace ((0 <=? r) && (r <? 128)) with false by lia. replace ((0 <=? r) && (r <? 2048)) with true by lia.
  repeat f_equal; lia.
Qed.

Lemma encode_rune3 b0 b1 b2 :
  lead3 b0 = true -> second_ok b0 b1 = true -> is_cont b2 = true ->
  encode_rune (rune3 b0 b1 b2) = [b0; b1; b2].
Proof.
  intros H0 H1 H2. utf8_range.
  assert (128 <= b1 <= 191 /\ (b0 = 224 -> 160 <= b1) /\ (b0 = 237 -> b1 <= 159)) as (? & ? & ?)
    by (second_range b1; lia).
  unfold rune3. set (q := (b0 - 224) * 64 + (b1 - 128)).
  set (r := (b0 - 224) * 4096 + (b1 - 128) * 64 + (b2 - 128)).
  assert (r / 64 = q) as Eq by (symmetry; apply (Z.div_unique _ _ _ (b2 - 128)); lia).
  assert (r mod 64 = b2 - 128) by (symmetry; apply (Z.mod_unique _ _ q); lia).
  assert (q mod 64 = b1 - 128) by (symmetry; apply (Z.mod_unique _ _ (b0 - 224)); lia).
  assert (r / 4096 = b0 - 224)
    by (symmetry; apply (Z.div_unique _ _ _ ((b1 - 128) * 64 + (b2 - 128))); lia).
  unfold encode_rune.
  replace ((0 <=? r) && (r <? 128)) with false by lia. replace ((0 <=? r) && (r <? 2048)) with false by lia.
  replace ((r <? 0) || ((55296 <=? r) && (r <=? 57343)) || (1114111 <? r)) with false by lia.
  replace (r <? 65536) with true by lia. rewrite Eq. repeat f_equal; lia.
Qed.

Lemma encode_rune4 b0 b1 b2 b3 :
  lead4 b0 = true -> second_ok b0 b1 = true -> is_cont b2 = true -> is_cont b3 = true ->
  encode_rune (rune4 b0 b1 b2 b3) = [b0; b1; b2; b3].
Proof.
  intros H0 H1 H2 H3. utf8_range.
  assert (128 <= b1 <= 191 /\ (b0 = 240 -> 144 <= b1) /\ (b0 = 244 -> b1 <= 143)) as (? & ? & ?)
    by (second_range b1; lia).
  unfold rune4. set (q := (b0 - 240) * 64 + (b1 - 128)). set (p := q * 64 + (b2 - 128)).
  set (r := (b0 - 240) * 262144 + (b1 - 128) * 4096 + (b2 - 128) * 64 + (b3 - 128)).
  assert (r / 64 = p) as Ep by (symmetry; apply (Z.div_unique _ _ _ (b3 - 128)); lia).
  assert (r mod 64 = b3 - 128) by (symmetry; apply (Z.mod_unique _ _ p); lia).
  assert (p mod 64 = b2 - 128) by (symmetry; apply (Z.mod_unique _ _ q); lia).
  assert (r / 4096 = q) as Eq
    by (symmetry; apply (Z.div_unique _ _ _ ((b2 - 128) * 64 + (b3 - 128))); lia).
  assert (q mod 64 = b1 - 128) by (symmetry; apply (Z.mod_unique _ _ (b0 - 240)); lia).
  assert (r / 262144 = b0 - 240)
    by (symmetry; apply (Z.div_unique _ _ _ ((b1 - 128) * 4096 + (b2 - 128) * 64 + (b3 - 128))); lia).
  unfold encode_rune.
  replace ((0 <=? r) && (r <? 128)) with false by lia. replace ((0 <=? r) && (r <? 2048)) with false by lia.
  replace ((r <? 0) || ((55296 <=? r) && (r <=? 57343)) || (1114111 <? r)) with false by lia.
  replace (r <? 65536) with false by lia. rewrite Ep, Eq. repeat f_equal; lia.
Qed.

(** A chunk that is no replacement is the encoding of its rune. *)
Definition chunk_ok (c : Z * list Z) : bool := negb ((c.1 =? rune_error) && (length c.2 =? 1)%nat).

Lemma utf8_chunks_encode bs :
  Forall is_byte bs -> forallb chunk_ok (utf8_chunks bs) = true ->
  mjoin (encode_rune <$> (utf8_chunks bs).*1) = bs.
Proof.
  remember (length bs) as n eqn:En. assert (length bs <= n)%nat as Hn by lia. clear En.
  revert bs Hn. induction n as [|n IH]; intros bs Hn Hb; [by destruct bs; simpl in *; [|lia]|].
  destruct bs as [|b0 r0]; [done|]. apply Forall_cons in Hb as [Hb0 Hr0]. unfold is_byte in Hb0.
  cbn [utf8_chunks]. destruct (Z.ltb_spec b0 128) as [Hlt|Hge].
  { intros [_ Hok]%andb_true_iff. csimpl. rewrite encode_rune1 by lia.
    simpl in *. by rewrite IH by (done || lia). }
  assert (forall l, forallb chunk_ok ((rune_error, [b0]) :: l) = true -> False) as Hbad by done.
  destruct r0 as [|b1 r1]; [by intros ?%Hbad|]. apply Forall_cons in Hr0 as [Hb1 Hr1].
  destruct (lead2 b0 && second_ok b0 b1) eqn:E2.
  { apply andb_true_iff in E2 as [? ?]. intros [_ Hok]%andb_true_iff. csimpl.
    rewrite encode_rune2 by done. simpl in *. by rewrite IH by (done || lia). }
  destruct r1 as [|b2 r2]; [by intros ?%Hbad|]. apply Forall_cons in Hr1 as [Hb2 Hr2].
  destruct (lead3 b0 && second_ok b0 b1 && is_cont b2) eqn:E3.
  { apply andb_true_iff in E3 as [[? ?]%andb_true_iff ?]. intros [_ Hok]%andb_true_iff. csimpl.
    rewrite encode_rune3 by done. simpl in *. by rewrite IH by (done || lia). }
  destruct r2 as [|b3 r3]; [by intros ?%Hbad|]. apply Forall_cons in Hr2 as [Hb3 Hr3].
  destruct (lead4 b0 && second_ok b0 b1 && is_cont b2 && is_cont b3) eqn:E4; [|by intros ?%Hbad].
  apply andb_true_iff in E4 as [[[? ?]%andb_true_iff ?]%andb_true_iff ?].
  intros [_ Hok]%andb_true_iff. csimpl.
  rewrite encode_rune4 by done. simpl in *. by rewrite IH by (done || lia).
Qed.

(** Valid UTF-8 survives [string([]rune(s))]. *)
Lemma utf8_roundtrip s : utf8_valid s = true -> string_of_runes (runes_of s) = s.
Proof.
  intros Hv. unfold string_of_runes, runes_of. rewrite utf8_chunks_encode; [|apply go_bytes_is_byte|done].
  apply of_bytes_go_bytes.
Qed.

(** ** Splitting *)

Lemma split_chars_cons sep l : exists p ps, split_chars sep l = p :: ps.
Proof.
  induction l as [|a l (p & ps & IH)]; simpl; [eauto|]. case_bool_decide; [eauto|]. rewrite IH. eauto.
Qed.

Lemma split_chars_none sep l : sep ∉ l -> split_chars sep l = [l].
Proof.
  induction l as [|a l IH]; simpl; [done|]. intros [Ha Hl]%not_elem_of_cons.
  rewrite bool_decide_false, IH by done. done.
Qed.

Lemma split_chars_app sep l r : sep ∉ l -> split_chars sep (l ++ sep :: r) = l :: split_chars sep r.
Proof.
  induction l as [|a l IH]; simpl; [by rewrite bool_decide_true|]. intros [Ha Hl]%not_elem_of_cons.
  rewrite bool_decide_false, IH by done. done.
Qed.

Lemma split_chars_inv sep l p ps :
  split_chars sep l = p :: ps -> l = p ++ (ps ≫= fun q => sep :: q).
Proof.
  revert p ps. induction l as [|a l IH]; intros p ps; simpl; [by intros [= <- <-]|].
  destruct (split_chars_cons sep l) as (p' & ps' & Hs). rewrite Hs. case_bool_decide as Ha.
  - intros [= <- <-]. csimpl. by rewrite Ha, <- (IH p' ps' Hs).
  - intros [= <- <-]. simpl. by rewrite <- (IH p' ps' Hs).
Qed.

Lemma of_chars_app l r : of_chars (l ++ r) = of_chars l +:+ of_chars r.
Proof. unfold of_chars. induction l as [|a l IH]; simpl; [done|]. by rewrite IH. Qed.

Definition char_string (a : ascii) : string := of_chars [a].

(** Splitting what was joined from three parts without the separator, and conversely. *)
Lemma split_three sep a b c :
  sep ∉ chars a -> sep ∉ chars b -> sep ∉ chars c ->
  split (a +:+ char_string sep +:+ b +:+ char_string sep +:+ c) sep = [a; b; c].
Proof.
  intros Ha Hb Hc. unfold split, char_string. rewrite !chars_app, !chars_of_chars. cbn [app].
  rewrite split_chars_app, split_chars_app, split_chars_none by done. csimpl. by rewrite !of_chars_chars.
Qed.

Lemma split_three_inv s sep a b c :
  split s sep = [a; b; c] -> s = a +:+ char_string sep +:+ b +:+ char_string sep +:+ c.
Proof.
  unfold split. intros Hs. destruct (split_chars sep (chars s)) as [|p ps] eqn:E; [done|].
  destruct ps as [|q [|r [|]]]; try done. injection Hs as <- <- <-. apply split_chars_inv in E.
  rewrite <- (of_chars_chars s), E. csimpl. rewrite app_nil_r.
  change (sep :: q ++ sep :: r) with ([sep] ++ q ++ [sep] ++ r). by rewrite !of_chars_app.
Qed.

(** A string whose runes are ASCII has those runes as bytes. *)
Lemma ascii_runes_bytes s : Forall (fun r => 0 <= r < 128) (runes_of s) -> go_bytes s = runes_of s.
Proof.
  unfold runes_of. intros Hr. rewrite <- (utf8_chunks_encode (go_bytes s)) at 1.
  - induction Hr as [|r rs Hr _ IH]; csimpl; [done|]. by rewrite encode_rune1, IH.
  - apply go_bytes_is_byte.
  - rewrite Forall_fmap in Hr. induction Hr as [|c cs Hc _ IH]; simpl; [done|]. rewrite IH, andb_true_r.
    unfold chunk_ok, rune_error. unfold compose in Hc. destruct (Z.eqb_spec c.1 65533); [lia|done].
Qed.

Lemma not_elem_chars (a : ascii) s : byte_of a ∉ go_bytes s -> a ∉ chars s.
Proof. intros Hb Ha. apply Hb. unfold go_bytes. by apply list_elem_of_fmap_2. Qed.

(** ** More of the packages strings, strconv, fmt and errors

    What the server, the audit pipeline and the configuration use on top of
    [GoStr].  Separators that are ASCII never occur inside a UTF-8 sequence,
    so splitting at runes is splitting the list of chunks. *)

(** [strings.FieldsFunc]: the maximal runs of runes that are not separators;
    [cur] is the run being read, with its original bytes. *)
Fixpoint fields_chunks (f : Z -> bool) (cs : list (Z * list Z)) (cur : list Z) : list (list Z) :=
  match cs with
  | [] => match cur with [] => [] | _ => [cur] end
  | (r, bs) :: cs' =>
      if f r then match cur with [] => [] | _ => [cur] end ++ fields_chunks f cs' []
      else fields_chunks f cs' (cur ++ bs)
  end.
Definition FieldsFunc (s : string) (f : Z -> bool) : list string :=
  of_bytes <$> fields_chunks f (utf8_chunks (go_bytes s)) [].

(** [strings.Fields]. *)
Definition Fields (s : string) : list string := FieldsFunc s unicode_is_space.

(** [strings.EqualFold] against an ASCII text without k and s, the two letters
    that have a fold outside ASCII. *)
Definition equal_fold (s t : string) : bool := bool_decide (to_lower_ascii s = to_lower_ascii t).

(** [strings.ToUpper], for a comparison with ASCII texts: the runes whose upper
    case is an ASCII letter are the small letters, the dotless i and the long
    s; the others are left alone. *)
Definition upper_chunk (c : Z * list Z) : list Z :=
  if (97 <=? c.1) && (c.1 <=? 122) then [c.1 - 32]
  else if c.1 =? 305 then [73] else if c.1 =? 383 then [83] else c.2.
Definition to_upper (s : string) : string := of_bytes (utf8_chunks (go_bytes s) ≫= upper_chunk).

(** [strings.ReplaceAll(s, c, "")] for one byte. *)
Definition remove_char (c : ascii) (s : string) : string :=
  of_chars (base.filter (fun a => a <> c) (chars s)).

(** [fmt.Sprintf] with the verb [%0*d]: [width] digits of a non-negative number at least. *)
Definition pad_zeros (width : nat) (ds : list Z) : list Z := replicate (width - length ds) 48 ++ ds.
Definition sprintf_0d (width : nat) (n : Z) : string := of_bytes (pad_zeros width (format_int_bytes n)).

(** [fmt.Sprintf] of a boolean with [%t]. *)
Definition format_bool (b : bool) : string := if b then "true" else "false".

Example fields_ex : Fields " Bearer  abc " = ["Bearer"; "abc"]%string.
Proof. reflexivity. Qed.
Example fold_ex : equal_fold "bEARER" "Bearer" = true.
Proof. reflexivity. Qed.
Example pad_ex : sprintf_0d 3 7 = "007"%string.
Proof. reflexivity. Qed.

(** ** [strings.TrimSpace] leaves nothing to trim

    A piece cut out of the runes of a text is read back as the same runes, so
    a trimmed text that is not empty is not blank. *)

(** *** Pieces of a text *)

(** The first rune, whatever is cut off the end of the bytes after it. *)
Lemma chunk_cut bs c cs : utf8_chunks bs = c :: cs -> exists rest, bs = c.2 ++ rest /\ cs = utf8_chunks rest /\ c.2 <> []
  /\ forall rest', rest' `prefix_of` rest -> utf8_chunks (c.2 ++ rest') = c :: utf8_chunks rest'.
Proof.
  assert (forall b0 r0, utf8_chunks (b0 :: r0) = (rune_error, [b0]) :: utf8_chunks r0 -> (b0 <? 128) = false ->
    match r0 with [] => True | b1 :: _ => lead2 b0 && second_ok b0 b1 = false end ->
    match r0 with b1 :: b2 :: _ => lead3 b0 && second_ok b0 b1 && is_cont b2 = false | _ => True end ->
    match r0 with b1 :: b2 :: b3 :: _ => lead4 b0 && second_ok b0 b1 && is_cont b2 && is_cont b3 = false | _ => True end ->
    forall rest', rest' `prefix_of` r0 -> utf8_chunks (b0 :: rest') = (rune_error, [b0]) :: utf8_chunks rest') as Herr.
  { intros b0 r0 _ H0 H1 H2 H3 rest' [tail ->]. cbn [utf8_chunks]. rewrite H0.
    destruct rest' as [|b1 [|b2 [|b3 rest']]]; cbn [app] in *; [done| | |]; rewrite H1; [done| |]; rewrite H2; [done|]; by rewrite H3. }
  destruct bs as [|b0 r0]; [done|]. cbn [utf8_chunks]. destruct (b0 <? 128) eqn:E0.
  { intros [= <- <-]. exists r0. split_and!; try done. intros rest' _. cbn [snd app utf8_chunks]. by rewrite E0. }
  destruct r0 as [|b1 r1].
  { intros [= <- <-]. exists []. split_and!; try done. by apply (Herr b0 []); [cbn; rewrite E0|..]. }
  destruct (lead2 b0 && second_ok b0 b1) eqn:E2.
  { intros [= <- <-]. exists r1. split_and!; try done. intros rest' _. cbn [snd app utf8_chunks]. by rewrite E0, E2. }
  destruct r1 as [|b2 r2].
  { intros [= <- <-]. exists [b1]. split_and!; try done. by apply (Herr b0 [b1]); [cbn; rewrite E0, E2|..]. }
  destruct (lead3 b0 && second_ok b0 b1 && is_cont b2) eqn:E3.
  { intros [= <- <-]. exists r2. split_and!; try done. intros rest' _. cbn [snd app utf8_chunks]. by rewrite E0, E2, E3. }
  destruct r2 as [|b3 r3].
  { intros [= <- <-]. exists [b1; b2]. split_and!; try done. by apply (Herr b0 [b1; b2]); [cbn; rewrite E0, E2, E3|..]. }
  destruct (lead4 b0 && second_ok b0 b1 && is_cont b2 && is_cont b3) eqn:E4; intros [= <- <-].
  - exists r3. split_and!; try done. intros rest' _. cbn [snd app utf8_chunks]. by rewrite E0, E2, E3, E4.
  - exists (b1 :: b2 :: b3 :: r3). split_and!; try done. apply (Herr b0 (b1 :: b2 :: b3 :: r3)); [cbn; by rewrite E0, E2, E3, E4|done..].
Qed.

Lemma chunks_bytes cs : forall bs, utf8_chunks bs = cs -> mjoin cs.*2 = bs /\ Forall (fun c => c.2 <> []) cs.
Proof.
  induction cs as [|c cs IH]; intros bs Hbs.
  - destruct bs as [|b0 r0]; [by split|]. exfalso. cbn [utf8_chunks] in Hbs. repeat case_match; done.
  - apply chunk_cut in Hbs as (rest & -> & Hcs & Hne & _). destruct (IH rest (eq_sym Hcs)) as [Hj Hf].
    split; [change (c.2 ++ mjoin cs.*2 = c.2 ++ rest); by rewrite Hj|by constructor].
Qed.

Lemma chunks_drop cs1 : forall bs cs2, utf8_chunks bs = cs1 ++ cs2 -> exists rest, utf8_chunks rest = cs2.
Proof.
  induction cs1 as [|c cs1 IH]; intros bs cs2 Hbs; [by exists bs|].
  pose proof (chunk_cut _ c (cs1 ++ cs2) Hbs) as (rest & _ & Hcs & _). by apply (IH rest).
Qed.

Lemma chunks_take cs1 : forall bs cs2, utf8_chunks bs = cs1 ++ cs2 -> utf8_chunks (mjoin cs1.*2) = cs1.
Proof.
  induction cs1 as [|c cs1 IH]; intros bs cs2 Hbs; [done|].
  pose proof (chunk_cut _ c (cs1 ++ cs2) Hbs) as (rest & -> & Hcs & _ & Hcut).
  change (utf8_chunks (c.2 ++ mjoin cs1.*2) = c :: cs1). rewrite Hcut.
  - f_equal. by apply (IH rest cs2).
  - destruct (chunks_bytes _ rest (eq_sym Hcs)) as [Hj _]. rewrite <- Hj, fmap_app, join_app. by apply prefix_app_r.
Qed.

(** *** Trimming *)

Section Trim.
Context {A : Type} (f : A -> bool).

Lemma drop_while_split l : exists a, l = a ++ drop_while f l.
Proof. induction l as [|x l [a IH]]; [by exists []|]. cbn. destruct (f x); [exists (x :: a); cbn; by f_equal|by exists []]. Qed.
Lemma drop_while_head l x m : drop_while f l = x :: m -> f x = false.
Proof. induction l as [|y l IH]; [done|]. cbn. destruct (f y) eqn:E; [done|by intros [= -> ->]]. Qed.
Lemma drop_while_all l : drop_while f l = [] -> Forall (fun x => f x = true) l.
Proof. induction l as [|y l IH]; cbn; [by constructor|]. destruct (f y) eqn:E; [constructor; auto|done]. Qed.

Lemma trim_by_split l : exists a b, l = a ++ trim_by f l ++ b.
Proof.
  destruct (drop_while_split l) as [a Ha]. destruct (drop_while_split (reverse (drop_while f l))) as [b Hb].
  exists a, (reverse b). rewrite Ha at 1. f_equal. unfold trim_by. rewrite <- reverse_app, <- Hb. by rewrite reverse_involutive.
Qed.
Lemma trim_by_all l : trim_by f l = [] -> Forall (fun x => f x = true) l.
Proof.
  unfold trim_by. intros H%(f_equal reverse). rewrite reverse_involutive in H. cbn in H. apply drop_while_all in H. rewrite Forall_reverse in H.
  destruct (drop_while f l) as [|x m] eqn:E; [by apply drop_while_all|]. apply drop_while_head in E as Hx.
  apply Forall_cons in H as [? _]. congruence.
Qed.
(** What is trimmed does not end in what is trimmed away. *)
Lemma trim_by_again l : trim_by f l <> [] -> trim_by f (trim_by f l) <> [].
Proof.
  intros Hl Hall%trim_by_all. unfold trim_by in Hl, Hall. destruct (drop_while f (reverse (drop_while f l))) as [|x m] eqn:E.
  - by apply Hl.
  - apply drop_while_head in E. rewrite Forall_reverse in Hall.
    apply Forall_cons in Hall as [? _]. congruence.
Qed.
End Trim.

Lemma trim_space_not_blank s : trim_space s <> ""%string -> trim_space (trim_space s) <> ""%string.
Proof.
  set (f := fun c : Z * list Z => unicode_is_space c.1). set (cs := utf8_chunks (go_bytes s)).
  destruct (trim_by_split f cs) as (a & b & Hcs). set (m := trim_by f cs) in *.
  destruct (chunks_drop a (go_bytes s) (m ++ b)) as [rest Hrest]; [exact Hcs|].
  pose proof (chunks_take m rest b Hrest) as Hm. destruct (chunks_bytes _ rest Hrest) as [_ Hne]. apply Forall_app in Hne as [Hne _].
  assert (Forall is_byte (mjoin m.*2)) as Hb.
  { assert (Forall is_byte (mjoin cs.*2)) as Hall by (destruct (chunks_bytes cs (go_bytes s) eq_refl) as [-> _]; apply go_bytes_is_byte).
    rewrite Hcs, !fmap_app, !join_app in Hall. by apply Forall_app in Hall as [_ [? _]%Forall_app]. }
  assert (trim_space s = of_bytes (mjoin m.*2)) as -> by done.
  intros Hs. unfold trim_space. rewrite go_bytes_of_bytes by done. rewrite Hm. fold f.
  assert (m <> []) as Hm0 by (intros ->; by apply Hs). pose proof (trim_by_again f cs Hm0) as Hm1. fold m in Hm1.
  destruct (trim_by_split f m) as (a' & b' & Hsplit). destruct (trim_by f m) as [|c m'] eqn:E; [done|].
  intros H%(f_equal go_bytes). rewrite go_bytes_of_bytes in H.
  - rewrite Hsplit in Hne. apply Forall_app in Hne as [_ Hne]. apply Forall_cons in Hne as [Hc _].
    change (c.2 ++ mjoin m'.*2 = []) in H. by apply app_eq_nil in H as [H _].
  - rewrite Hsplit, !fmap_app, !join_app in Hb. by apply Forall_app in Hb as [_ [? _]%Forall_app].
Qed.
