(* ===== verification/Ast.v ===== *)
(** * The syntax tree of the policy language ([internal/parser/ast.go])

    Data types only: [Position], the enumerations, scopes, expression nodes,
    obligations and policies.  A [nil] interface or pointer is a constructor
    ([NodeNil]) or [None]; a literal keeps every field of the Go struct,
    because the compiler retypes a literal in place and leaves its old fields
    set. *)

From S2P Require Import Prelude GoStr.
From stdpp Require Import options.
Local Open Scope Z_scope.

Record Position := mkPosition { Line : Z; Column : Z; Offset : nat }.
Definition no_pos : Position := mkPosition 0 0 0.

Inductive Effect := EffectPermit | EffectForbid.
Inductive ScopeOp := ScopeOpEq | ScopeOpIn | ScopeOpAny.

Record ScopeNode := mkScope {
  Operator : ScopeOp;
  EntityType : string;
  EntityID : string;
  scope_pos : Position
}.

Inductive BinaryOp :=
| BinOpAnd | BinOpOr | BinOpEq | BinOpNe | BinOpGt | BinOpLt | BinOpGe | BinOpLe
| BinOpIn | BinOpContains.

Inductive UnaryOp := UnaryOpNot | UnaryOpNeg.

Inductive VarScope := VarScopePrincipal | VarScopeResource | VarScopeContext.

Inductive ValueType :=
| ValueTypeString | ValueTypeInt | ValueTypeBool | ValueTypeIP | ValueTypeIPNet
| ValueTypeDateTime.

Global Instance Effect_eq_dec : EqDecision Effect.
Proof. solve_decision. Defined.
Global Instance ScopeOp_eq_dec : EqDecision ScopeOp.
Proof. solve_decision. Defined.
Global Instance BinaryOp_eq_dec : EqDecision BinaryOp.
Proof. solve_decision. Defined.
Global Instance UnaryOp_eq_dec : EqDecision UnaryOp.
Proof. solve_decision. Defined.
Global Instance VarScope_eq_dec : EqDecision VarScope.
Proof. solve_decision. Defined.
Global Instance ValueType_eq_dec : EqDecision ValueType.
Proof. solve_decision. Defined.

(** [net.IP] is a byte slice ([[]] for nil) and [net.IPNet] an address with a mask. *)
Abbreviation IP := (list Z).
Record IPNet := mkIPNet { net_ip : IP; net_mask : IP }.

Record Value := mkValue {
  ValType : ValueType;
  StrVal : string;
  IntVal : Z;
  BoolVal : bool;
  IPVal : IP;
  IPNetVal : IPNet;
  value_pos : Position
}.

Definition nil_net : IPNet := mkIPNet [] [].

(** Struct literals with one field set. *)
Definition string_value (s : string) (p : Position) : Value :=
  mkValue ValueTypeString s 0 false [] nil_net p.
Definition int_value (n : Z) (p : Position) : Value :=
  mkValue ValueTypeInt "" n false [] nil_net p.
Definition bool_value (b : bool) (p : Position) : Value :=
  mkValue ValueTypeBool "" 0 b [] nil_net p.
Definition ip_value (ip : IP) (p : Position) : Value :=
  mkValue ValueTypeIP "" 0 false ip nil_net p.
Definition ipnet_value (n : IPNet) (p : Position) : Value :=
  mkValue ValueTypeIPNet "" 0 false [] n p.

(** The interface [Node]; [NodeNil] is the nil interface. *)
Inductive Node :=
| NodeNil
| BinaryExprNode (Op : BinaryOp) (Left Right : Node) (pos : Position)
| UnaryExprNode (Op : UnaryOp) (Child : Node) (pos : Position)
| VariableNode (Scope : VarScope) (Field : string) (pos : Position)
| ValueNode (v : Value).

Definition node_is_nil (n : Node) : bool :=
  match n with NodeNil => true | _ => false end.

Record ObligationNode := mkObligation {
  ObType : string;
  ObMessage : string;
  ObPayload : gmap string string;
  ob_pos : Position
}.

Definition ObligationRequireHumanApproval : string := "REQUIRE_HUMAN_APPROVAL".
Definition ObligationAuditSensitive : string := "AUDIT_SENSITIVE_TOOL_CALL".
Definition ObligationMaskAttributes : string := "MASK_ATTRIBUTES".

Record PolicyNode := mkPolicy {
  ID : string;
  TenantID : string;
  PEffect : Effect;
  Principal : option ScopeNode;
  Action : option ScopeNode;
  Resource : option ScopeNode;
  Condition : Node;
  IsUnless : bool;
  ExplanationList : list string;
  RequiredAttributes : list string;
  Obligations : list ObligationNode;
  policy_pos : Position
}.

(** The depth of a tree as [checkDepth] counts it: a leaf has depth 1. *)
Fixpoint node_depth (n : Node) : nat :=
  match n with
  | BinaryExprNode _ l r _ => S (node_depth l `max` node_depth r)
  | UnaryExprNode _ c _ => S (node_depth c)
  | _ => 1
  end.

(** No child is the nil interface. *)
Fixpoint node_complete (n : Node) : bool :=
  match n with
  | NodeNil => false
  | BinaryExprNode _ l r _ => node_complete l && node_complete r
  | UnaryExprNode _ c _ => node_complete c
  | VariableNode _ _ _ | ValueNode _ => true
  end.
