(* ===== verification/GoNet.v ===== *)
(** * IP addresses: the functions of package [net] the engine calls

    [ParseIP], [ParseCIDR], [IP.Equal] and [IPNet.Contains], on byte lists.
    An address is the byte slice of the source: 16 bytes from [ParseIP], 4 or
    16 from a masked network. *)

From S2P Require Import Prelude GoStr Ast.
From stdpp Require Import options.
Local Open Scope Z_scope.

Definition v4_prefix : IP := [0; 0; 0; 0; 0; 0; 0; 0; 0; 0; 255; 255].

(** Four dotted decimal octets, no leading zeros ([netip.parseIPv4Fields]):
    [val] and [dig] are the value and the digit count of the current octet. *)
Fixpoint parse_v4_fields (val : Z) (dig : nat) (acc : list Z) (bs : list Z) : option (list Z) :=
  match bs with
  | [] => if (length acc =? 3)%nat && negb (dig =? 0)%nat then Some (acc ++ [val]) else None
  | b :: bs' =>
      if is_digit_byte b then
        if (dig =? 1)%nat && (val =? 0) then None
        else let val' := val * 10 + (b - 48) in
             if 255 <? val' then None else parse_v4_fields val' (S dig) acc bs'
      else if b =? 46 then
        if (dig =? 0)%nat || (length acc =? 3)%nat then None
        else parse_v4_fields 0 0 (acc ++ [val]) bs'
      else None
  end.
Definition parse_v4 (bs : list Z) : option (list Z) := parse_v4_fields 0 0 [] bs.

Definition hex_digit (b : Z) : option Z :=
  if is_digit_byte b then Some (b - 48)
  else if (97 <=? b) && (b <=? 102) then Some (b - 87)
  else if (65 <=? b) && (b <=? 70) then Some (b - 55)
  else None.

(** The leading hexadecimal group: its value, its digit count and the rest;
    [None] when it has more than four digits. *)
Fixpoint hex_group (acc : Z) (off : nat) (bs : list Z) : option (Z * nat * list Z) :=
  match bs with
  | [] => Some (acc, off, [])
  | b :: bs' =>
      match hex_digit b with
      | None => Some (acc, off, bs)
      | Some d => if (3 <? off)%nat then None else hex_group (acc * 16 + d) (S off) bs'
      end
  end.

(** The loop of [netip.parseIPv6]: [ip] are the bytes stored so far (its length
    is [i]) and [ell] the position of the ellipsis; the result holds the bytes,
    the ellipsis and the text left over. *)
Fixpoint v6_loop (fuel : nat) (ip : list Z) (ell : option nat) (s : list Z) :
    option (list Z * option nat * list Z) :=
  match fuel with
  | O => Some (ip, ell, s)
  | S f =>
      match hex_group 0 0 s with
      | None => None
      | Some (_, O, _) => None
      | Some (acc, _, rest) =>
          match rest with
          | 46 :: _ =>
              if match ell with None => negb (length ip =? 12)%nat | Some _ => false end then None
              else if (16 <? length ip + 4)%nat then None
              else match parse_v4 s with
                   | None => None
                   | Some v4 => Some (ip ++ v4, ell, [])
                   end
          | _ =>
              let ip' := ip ++ [acc / 256; acc mod 256] in
              match rest with
              | [] => Some (ip', ell, [])
              | c :: rest' =>
                  if negb (c =? 58) then None
                  else match rest' with
                  | [] => None
                  | 58 :: rest'' =>
                      match ell with
                      | Some _ => None
                      | None => match rest'' with
                                | [] => Some (ip', Some (length ip'), [])
                                | _ => v6_loop f ip' (Some (length ip')) rest''
                                end
                      end
                  | _ => v6_loop f ip' ell rest'
                  end
              end
          end
      end
  end.

Definition parse_v6 (bs : list Z) : option (list Z) :=
  let '(ell, s) := match bs with
    | 58 :: 58 :: r => (Some 0%nat, r)
    | _ => (None, bs)
    end in
  match ell, s with
  | Some _, [] => Some (replicate 16 0)
  | _, _ =>
      match v6_loop 8 [] ell s with
      | None => None
      | Some (_, _, _ :: _) => None
      | Some (ip, ell', []) =>
          if (length ip <? 16)%nat then
            match ell' with
            | None => None
            | Some e => Some (take e ip ++ replicate (16 - length ip) 0 ++ drop e ip)
            end
          else match ell' with None => Some ip | Some _ => None end
      end
  end.

Inductive Addr := AddrV4 (bs : list Z) | AddrV6 (bs : list Z).

(** [netip.ParseAddr]; an address with a zone is refused by both callers. *)
Fixpoint parse_addr_scan (bs rest : list Z) : option Addr :=
  match rest with
  | [] => None
  | c :: rest' =>
      if c =? 46 then AddrV4 <$> parse_v4 bs
      else if c =? 58 then
        if bool_decide (37 ∈ bs) then None else AddrV6 <$> parse_v6 bs
      else if c =? 37 then None
      else parse_addr_scan bs rest'
  end.
Definition parse_addr (s : string) : option Addr :=
  let bs := go_bytes s in parse_addr_scan bs bs.

Definition as16 (a : Addr) : IP :=
  match a with AddrV4 bs => v4_prefix ++ bs | AddrV6 bs => bs end.
Definition bit_len (a : Addr) : Z := match a with AddrV4 _ => 32 | AddrV6 _ => 128 end.

(** [net.ParseIP]; [None] is the nil result. *)
Definition ParseIP (s : string) : option IP := as16 <$> parse_addr s.

(** [IP.To4]; [None] is nil. *)
Definition to4 (ip : IP) : option IP :=
  if (length ip =? 4)%nat then Some ip
  else if (length ip =? 16)%nat && bool_decide (take 12 ip = v4_prefix) then Some (drop 12 ip)
  else None.

(** [net.CIDRMask(ones, bits)]. *)
Fixpoint cidr_mask (n : nat) (ones : Z) : IP :=
  match n with
  | O => []
  | S n' => (if 8 <=? ones then 255 else if ones <=? 0 then 0 else 256 - 2 ^ (8 - ones))
            :: cidr_mask n' (ones - 8)
  end.

Definition land_bytes (a b : IP) : IP := zip_with Z.land a b.

(** [net.ParseCIDR]: the network of the address. *)
Definition ParseCIDR (s : string) : option IPNet :=
  match split_chars "/" (chars s) with
  | a :: m :: ms =>
      let mask := m ++ mjoin ((fun x => "/"%char :: x) <$> ms) in
      match parse_addr (of_chars a), parse_digits (byte_of <$> mask) with
      | Some addr, Some n =>
          if bit_len addr <? n then None
          else match addr with
               | AddrV4 bs => let mk := cidr_mask 4 n in Some (mkIPNet (land_bytes bs mk) mk)
               | AddrV6 bs => let mk := cidr_mask 16 n in Some (mkIPNet (land_bytes bs mk) mk)
               end
      | _, _ => None
      end
  | _ => None
  end.

(** [IP.Equal]: an IPv4 address equals its IPv4-mapped form. *)
Definition ip_equal (a b : IP) : bool :=
  if (length a =? length b)%nat then bool_decide (a = b)
  else if (length a =? 4)%nat && (length b =? 16)%nat then
    bool_decide (take 12 b = v4_prefix /\ a = drop 12 b)
  else if (length a =? 16)%nat && (length b =? 4)%nat then
    bool_decide (take 12 a = v4_prefix /\ drop 12 a = b)
  else false.

(** [IPNet.Contains]. *)
Definition ipnet_contains (n : IPNet) (ip : IP) : bool :=
  let nn := match to4 (net_ip n) with
            | Some x => Some x
            | None => if (length (net_ip n) =? 16)%nat then Some (net_ip n) else None
            end in
  match nn with
  | None => false
  | Some nn =>
      let m := if (length (net_mask n) =? 4)%nat
               then (if (length nn =? 4)%nat then Some (net_mask n) else None)
               else if (length (net_mask n) =? 16)%nat
               then Some (if (length nn =? 4)%nat then drop 12 (net_mask n) else net_mask n)
               else None in
      match m with
      | None => false
      | Some m =>
          let x := default ip (to4 ip) in
          (length x =? length nn)%nat && bool_decide (land_bytes nn m = land_bytes x m)
      end
  end.

(** Spot checks against the documented behaviour of the package. *)
Example ParseIP_v4 : ParseIP "192.168.1.10" = Some (v4_prefix ++ [192; 168; 1; 10]).
Proof. reflexivity. Qed.
Example ParseIP_leading_zero : ParseIP "192.168.01.10" = None.
Proof. reflexivity. Qed.
Example ParseIP_v6 :
  ParseIP "2001:db8::1" = Some [32; 1; 13; 184; 0; 0; 0; 0; 0; 0; 0; 0; 0; 0; 0; 1].
Proof. reflexivity. Qed.
Example ParseIP_mapped : ParseIP "::ffff:1.2.3.4" = ParseIP "1.2.3.4".
Proof. reflexivity. Qed.
Example ParseCIDR_v4 :
  ParseCIDR "192.168.1.77/20" = Some (mkIPNet [192; 168; 0; 0] [255; 255; 240; 0]).
Proof. reflexivity. Qed.
Example contains_v4 :
  match ParseCIDR "10.0.0.0/8", ParseIP "10.200.3.4" with
  | Some n, Some ip => ipnet_contains n ip
  | _, _ => false
  end = true.
Proof. reflexivity. Qed.
