(* ===== verification/GoTime.v ===== *)
(** * Times: [time.Parse] and [fmt.Sscanf] as the engine uses them

    [time.Parse(time.RFC3339, s)] followed by [UnixNano], the fixed layout of
    the canonical timestamps, and the [%d] scanning of [fmt.Sscanf]. *)

From S2P Require Import Prelude GoStr.
From stdpp Require Import options.
Local Open Scope Z_scope.

(** ** Calendar *)

Definition is_leap (y : Z) : bool :=
  (y mod 4 =? 0) && (negb (y mod 100 =? 0) || (y mod 400 =? 0)).

Definition days_in (m y : Z) : Z :=
  if m =? 2 then (if is_leap y then 29 else 28)
  else if (m =? 4) || (m =? 6) || (m =? 9) || (m =? 11) then 30 else 31.

(** Days since 1970-01-01 of a date of the proleptic Gregorian calendar. *)
Definition days_from_civil (y m d : Z) : Z :=
  let y' := if m <=? 2 then y - 1 else y in
  let era := y' / 400 in
  let yoe := y' - era * 400 in
  let doy := (153 * (if 2 <? m then m - 3 else m + 9) + 2) / 5 + d - 1 in
  let doe := yoe * 365 + yoe / 4 - yoe / 100 + doy in
  era * 146097 + doe - 719468.

Record civil := mkCivil {
  year : Z; month : Z; day : Z; hour : Z; minute : Z; second : Z; nsec : Z; offset : Z
}.

Definition unix_seconds (t : civil) : Z :=
  days_from_civil (year t) (month t) (day t) * 86400
  + hour t * 3600 + minute t * 60 + second t - offset t.

(** [Time.UnixNano]: an [int64], wrapping outside the years 1678 to 2262. *)
Definition unix_nano (t : civil) : Z := to_int64 (unix_seconds t * 1000000000 + nsec t).

(** ** The pieces of [time.Parse] *)

Definition digit_at (bs : list Z) (i : nat) : option Z :=
  match bs !! i with
  | Some b => if is_digit_byte b then Some (b - 48) else None
  | None => None
  end.

(** [getnum(s, fixed)]. *)
Definition getnum (fixed : bool) (bs : list Z) : option (Z * list Z) :=
  match digit_at bs 0 with
  | None => None
  | Some d0 =>
      match digit_at bs 1 with
      | None => if fixed then None else Some (d0, drop 1 bs)
      | Some d1 => Some (d0 * 10 + d1, drop 2 bs)
      end
  end.

Definition skip_byte (c : Z) (bs : list Z) : option (list Z) :=
  match bs with b :: r => if b =? c then Some r else None | [] => None end.

Definition in_range (lo hi n : Z) : bool := (lo <=? n) && (n <=? hi).

(** [getnum] with a range check. *)
Definition getnum_in (fixed : bool) (lo hi : Z) (bs : list Z) : option (Z * list Z) :=
  match getnum fixed bs with
  | Some (n, r) => if in_range lo hi n then Some (n, r) else None
  | None => None
  end.

Definition parse_year (bs : list Z) : option (Z * list Z) :=
  if (length bs <? 4)%nat then None
  else match digits_value 0 (take 4 bs) with
       | Some y => Some (y, drop 4 bs)
       | None => None
       end.

Fixpoint span_digits (bs : list Z) : list Z * list Z :=
  match bs with
  | b :: r => if is_digit_byte b then let '(ds, r') := span_digits r in (b :: ds, r') else ([], bs)
  | [] => ([], [])
  end.

Definition comma_or_period (b : Z) : bool := (b =? 46) || (b =? 44).

(** [parseNanoseconds] of the digits after the separator: at most nine count. *)
Definition nanoseconds (ds : list Z) : Z :=
  let ds := take 9 ds in
  default 0 (digits_value 0 ds) * 10 ^ (9 - Z.of_nat (length ds)).

Definition parse_fraction (bs : list Z) : Z * list Z :=
  match bs with
  | c :: r =>
      if comma_or_period c then
        match span_digits r with
        | ([], _) => (0, bs)
        | (ds, r') => (nanoseconds ds, r')
        end
      else (0, bs)
  | [] => (0, bs)
  end.

(** The zone [Z07:00]. *)
Definition parse_zone (bs : list Z) : option (Z * list Z) :=
  match bs with
  | 90 :: r => Some (0, r)
  | s :: h0 :: h1 :: c :: m0 :: m1 :: r =>
      if negb (c =? 58) then None
      else match getnum true [h0; h1], getnum true [m0; m1] with
           | Some (hr, _), Some (mm, _) =>
               if (24 <? hr) || (60 <? mm) then None
               else let off := (hr * 60 + mm) * 60 in
                    if s =? 43 then Some (off, r)
                    else if s =? 45 then Some (- off, r)
                    else None
           | _, _ => None
           end
  | _ => None
  end.

Notation "'let*' x := m 'in' k" := (mbind (M := option) (fun x => k) m)
  (at level 10, x pattern, m at level 100, k at level 200).

(** The date and time up to the seconds, common to both layouts. *)
Definition parse_date_time (bs : list Z) :
    option (Z * Z * Z * Z * Z * Z * list Z) :=
  let* (y, r) := parse_year bs in
  let* r := skip_byte 45 r in
  let* (mo, r) := getnum_in true 1 12 r in
  let* r := skip_byte 45 r in
  let* (d, r) := getnum true r in
  let* r := skip_byte 84 r in
  let* (h, r) := getnum_in false 0 23 r in
  let* r := skip_byte 58 r in
  let* (mi, r) := getnum_in true 0 59 r in
  let* r := skip_byte 58 r in
  let* (s, r) := getnum_in true 0 59 r in
  Some (y, mo, d, h, mi, s, r).

(** [time.Parse(time.RFC3339, s)]. *)
Definition ParseRFC3339 (s : string) : option civil :=
  let* (y, mo, d, h, mi, sec, r) := parse_date_time (go_bytes s) in
  let '(ns, r) := parse_fraction r in
  let* (off, r) := parse_zone r in
  match r with
  | [] => if in_range 1 (days_in mo y) d then Some (mkCivil y mo d h mi sec ns off) else None
  | _ => None
  end.

(** [n] printed with [w] digits at least. *)
Fixpoint fixed_digits (w : nat) (n : Z) (acc : list Z) : list Z :=
  match w with
  | O => acc
  | S w' => fixed_digits w' (n / 10) ((48 + n mod 10) :: acc)
  end.

(** [t.Format("2006-01-02T15:04:05.000000Z")]. *)
Definition format_micro (t : civil) : list Z :=
  fixed_digits 4 (year t) [] ++ [45] ++ fixed_digits 2 (month t) [] ++ [45]
  ++ fixed_digits 2 (day t) [] ++ [84] ++ fixed_digits 2 (hour t) [] ++ [58]
  ++ fixed_digits 2 (minute t) [] ++ [58] ++ fixed_digits 2 (second t) [] ++ [46]
  ++ fixed_digits 6 (nsec t / 1000) [] ++ [90].

(** [time.Parse("2006-01-02T15:04:05.000000Z", s)]. *)
Definition ParseMicro (s : string) : option civil :=
  let* (y, mo, d, h, mi, sec, r) := parse_date_time (go_bytes s) in
  match r with
  | c :: r' =>
      if negb (comma_or_period c) || (length r' <? 6)%nat then None
      else let* us := parse_int_bytes (take 6 r') in
           if us <? 0 then None
           else let* r'' := skip_byte 90 (drop 6 r') in
                match r'' with
                | [] => if in_range 1 (days_in mo y) d
                        then Some (mkCivil y mo d h mi sec (us * 1000) 0) else None
                | _ => None
                end
  | [] => None
  end.

(** ** [fmt.Sscanf] with the verb [%d] and literal bytes *)

(** [SkipSpace]: [None] is the error on a newline. *)
Fixpoint skip_space (rs : list Z) : option (list Z) :=
  match rs with
  | [] => Some []
  | r :: rs' =>
      if r =? 10 then None
      else if unicode_is_space r then skip_space rs'
      else Some rs
  end.

Definition accept_sign (rs : list Z) : bool * list Z :=
  match rs with
  | 43 :: r => (false, r)
  | 45 :: r => (true, r)
  | _ => (false, rs)
  end.

Definition scan_int (rs : list Z) : option (Z * list Z) :=
  let* r := skip_space rs in
  let '(neg, r) := accept_sign r in
  let '(ds, r') := span_digits r in
  let* n := parse_digits ds in
  let v := if neg : bool then - n else n in
  if bool_decide (is_int64 v) then Some (v, r') else None.

(** [Sscanf(s, "%d:%d", &a, &b)] and the three-number format, with the optional
    literal [Z]; what follows the format in [s] is ignored. *)
Definition Sscanf_hm (s : string) : option (Z * Z) :=
  let* (h, r) := scan_int (runes_of s) in
  let* r := skip_byte 58 r in
  let* (m, _) := scan_int r in
  Some (h, m).

Definition Sscanf_hms (z : bool) (s : string) : option (Z * Z * Z) :=
  let* (h, r) := scan_int (runes_of s) in
  let* r := skip_byte 58 r in
  let* (m, r) := scan_int r in
  let* r := skip_byte 58 r in
  let* (sec, r) := scan_int r in
  if z then let* _ := skip_byte 90 r in Some (h, m, sec) else Some (h, m, sec).

Example rfc3339_epoch : unix_nano <$> ParseRFC3339 "1970-01-01T00:00:01Z" = Some 1000000000.
Proof. reflexivity. Qed.
Example rfc3339_zone :
  unix_seconds <$> ParseRFC3339 "2026-09-28T10:30:00.5+07:00" = Some 1790566200.
Proof. reflexivity. Qed.
Example micro_roundtrip :
  format_micro <$> ParseMicro "2026-09-28T10:30:00.000001Z"
  = Some (go_bytes "2026-09-28T10:30:00.000001Z").
Proof. reflexivity. Qed.
Example sscanf_trailing : Sscanf_hm "3:04-report" = Some (3, 4).
Proof. reflexivity. Qed.
