(* ===== verification/GoCrypto.v ===== *)
(** * The standard library's byte encodings and hashes

    [encoding/binary] (big endian), [encoding/hex], [encoding/base64]
    (URL alphabet, no padding), [crypto/sha256] and [crypto/hmac], as
    executable functions on lists of bytes. *)

From S2P Require Import Prelude GoStr.
From stdpp Require Import options.
Local Open Scope Z_scope.

Abbreviation Bytes := (list Z).

(** ** Big-endian integers *)

(** The [n] low bytes of [v], the most significant first. *)
Fixpoint be_bytes (n : nat) (v : Z) : Bytes :=
  match n with
  | O => []
  | S n' => be_bytes n' (v / 256) ++ [v mod 256]
  end.

Lemma length_be_bytes n v : length (be_bytes n v) = n.
Proof. revert v. induction n as [|n IH]; intros v; simpl; [done|]. rewrite length_app, IH. simpl. lia. Qed.

Lemma be_bytes_is_byte n v : Forall is_byte (be_bytes n v).
Proof.
  revert v. induction n as [|n IH]; intros v; simpl; [constructor|].
  apply Forall_app; split; [apply IH|]. constructor; [|constructor]. apply Z.mod_pos_bound. lia.
Qed.

Lemma be_bytes_inj n a b :
  0 <= a < 256 ^ Z.of_nat n -> 0 <= b < 256 ^ Z.of_nat n -> be_bytes n a = be_bytes n b -> a = b.
Proof.
  revert a b. induction n as [|n IH]; intros a b Ha Hb; [simpl in *; lia|].
  rewrite Nat2Z.inj_succ, Z.pow_succ_r in Ha, Hb by lia. simpl. intros [Hq [= Hr]]%app_inj_tail.
  assert (a / 256 = b / 256) as Hd.
  { apply IH; [| |done]; (split; [apply Z.div_pos; lia|apply Z.div_lt_upper_bound; lia]). }
  rewrite (Z.div_mod a 256), (Z.div_mod b 256), Hd by lia. lia.
Qed.

(** ** Hexadecimal *)

Definition hex_char (d : Z) : Z := if d <? 10 then 48 + d else 87 + d.
Definition hex_value (b : Z) : option Z :=
  if (48 <=? b) && (b <=? 57) then Some (b - 48)
  else if (97 <=? b) && (b <=? 102) then Some (b - 87)
  else if (65 <=? b) && (b <=? 70) then Some (b - 55)
  else None.

(** [hex.EncodeToString], [hex.DecodeString]. *)
Definition hex_encode_bytes (bs : Bytes) : Bytes := bs ≫= fun b => [hex_char (b / 16); hex_char (b mod 16)].
Definition hex_encode (bs : Bytes) : string := of_bytes (hex_encode_bytes bs).
Fixpoint hex_decode_bytes (cs : Bytes) : option Bytes :=
  match cs with
  | [] => Some []
  | [_] => None
  | c1 :: c2 :: cs' =>
      h ← hex_value c1; l ← hex_value c2; r ← hex_decode_bytes cs'; Some (h * 16 + l :: r)
  end.
Definition hex_decode (s : string) : option Bytes := hex_decode_bytes (go_bytes s).

(** ** Base64, URL alphabet, no padding ([base64.RawURLEncoding]) *)

Definition b64_char (d : Z) : Z :=
  if d <? 26 then 65 + d else if d <? 52 then 71 + d else if d <? 62 then d - 4
  else if d =? 62 then 45 else 95.
Definition b64_value (b : Z) : option Z :=
  if (65 <=? b) && (b <=? 90) then Some (b - 65)
  else if (97 <=? b) && (b <=? 122) then Some (b - 71)
  else if (48 <=? b) && (b <=? 57) then Some (b + 4)
  else if b =? 45 then Some 62 else if b =? 95 then Some 63 else None.

Fixpoint b64_groups (bs : Bytes) : list Z :=
  match bs with
  | [] => []
  | [a] => [a / 4; a mod 4 * 16]
  | [a; b] => [a / 4; a mod 4 * 16 + b / 16; b mod 16 * 4]
  | a :: b :: c :: bs' =>
      a / 4 :: a mod 4 * 16 + b / 16 :: b mod 16 * 4 + c / 64 :: c mod 64 :: b64_groups bs'
  end.
Fixpoint b64_ungroup (ds : list Z) : option Bytes :=
  match ds with
  | [] => Some []
  | [_] => None
  | [p; q] => Some [p * 4 + q / 16]
  | [p; q; r] => Some [p * 4 + q / 16; q mod 16 * 16 + r / 4]
  | p :: q :: r :: s :: ds' =>
      bs ← b64_ungroup ds'; Some (p * 4 + q / 16 :: q mod 16 * 16 + r / 4 :: r mod 4 * 64 + s :: bs)
  end.
Definition base64url_encode (bs : Bytes) : string := of_bytes (b64_char <$> b64_groups bs).

(** [DecodeString] skips line breaks and ignores the unused bits of the last character. *)
Definition base64url_decode (s : string) : option Bytes :=
  mapM b64_value (filter (fun b => b <> 10 /\ b <> 13) (go_bytes s)) ≫= b64_ungroup.

(** ** SHA-256 *)

Definition add32 (a b : Z) : Z := to_uint32 (a + b).
Definition rotr (n x : Z) : Z := Z.lor (Z.shiftr x n) (to_uint32 (Z.shiftl x (32 - n))).
Definition not32 (x : Z) : Z := 4294967295 - x.

Definition sha_k : list Z :=
  [1116352408; 1899447441; 3049323471; 3921009573; 961987163; 1508970993; 2453635748; 2870763221;
   3624381080; 310598401; 607225278; 1426881987; 1925078388; 2162078206; 2614888103; 3248222580;
   3835390401; 4022224774; 264347078; 604807628; 770255983; 1249150122; 1555081692; 1996064986;
   2554220882; 2821834349; 2952996808; 3210313671; 3336571891; 3584528711; 113926993; 338241895;
   666307205; 773529912; 1294757372; 1396182291; 1695183700; 1986661051; 2177026350; 2456956037;
   2730485921; 2820302411; 3259730800; 3345764771; 3516065817; 3600352804; 4094571909; 275423344;
   430227734; 506948616; 659060556; 883997877; 958139571; 1322822218; 1537002063; 1747873779;
   1955562222; 2024104815; 2227730452; 2361852424; 2428436474; 2756734187; 3204031479; 3329325298].
Definition sha_init : list Z :=
  [1779033703; 3144134277; 1013904242; 2773480762; 1359893119; 2600822924; 528734635; 1541459225].

(** The message with its padding, a multiple of 64 bytes. *)
Definition sha_pad (m : Bytes) : Bytes :=
  let len := Z.of_nat (length m) in
  m ++ [128] ++ replicate (Z.to_nat ((55 - len) mod 64)) 0 ++ be_bytes 8 (to_uint64 (8 * len)).

Fixpoint be_words (bs : Bytes) : list Z :=
  match bs with
  | a :: b :: c :: d :: bs' => (((a * 256 + b) * 256 + c) * 256 + d) :: be_words bs'
  | _ => []
  end.

Definition word (ws : list Z) (i : nat) : Z := default 0 (ws !! i).

(** The message schedule, latest word first. *)
Fixpoint sha_schedule (n : nat) (ws : list Z) : list Z :=
  match n with
  | O => ws
  | S n' =>
      let w2 := word ws 1 in let w15 := word ws 14 in
      let s1 := Z.lxor (Z.lxor (rotr 17 w2) (rotr 19 w2)) (Z.shiftr w2 10) in
      let s0 := Z.lxor (Z.lxor (rotr 7 w15) (rotr 18 w15)) (Z.shiftr w15 3) in
      sha_schedule n' (add32 (add32 s1 (word ws 6)) (add32 s0 (word ws 15)) :: ws)
  end.

Definition sha_round (h : list Z) (kw : Z * Z) : list Z :=
  match h with
  | [a; b; c; d; e; f; g; i] =>
      let s1 := Z.lxor (Z.lxor (rotr 6 e) (rotr 11 e)) (rotr 25 e) in
      let ch := Z.lxor (Z.land e f) (Z.land (not32 e) g) in
      let t1 := add32 (add32 (add32 i s1) (add32 ch kw.1)) kw.2 in
      let s0 := Z.lxor (Z.lxor (rotr 2 a) (rotr 13 a)) (rotr 22 a) in
      let maj := Z.lxor (Z.lxor (Z.land a b) (Z.land a c)) (Z.land b c) in
      [add32 t1 (add32 s0 maj); a; b; c; add32 d t1; e; f; g]
  | _ => h
  end.

Definition sha_block (h block : list Z) : list Z :=
  let w := reverse (sha_schedule 48 (reverse block)) in
  zip_with add32 h (foldl sha_round h (zip sha_k w)).

Fixpoint sha_blocks (n : nat) (h ws : list Z) : list Z :=
  match n with
  | O => h
  | S n' => sha_blocks n' (sha_block h (take 16 ws)) (drop 16 ws)
  end.

(** [sha256.Sum256]. *)
Definition sha256_size : nat := 32.
Definition sha256 (m : Bytes) : Bytes :=
  let p := sha_pad m in
  sha_blocks (length p / 64) sha_init (be_words p) ≫= be_bytes 4.

(** ** HMAC ([hmac.New(sha256.New, key)], one message) *)

Definition hmac_key (key : Bytes) : Bytes :=
  let k := if (64 <? length key)%nat then sha256 key else key in
  k ++ replicate (64 - length k) 0.
Definition hmac_sha256 (key m : Bytes) : Bytes :=
  let k := hmac_key key in
  sha256 ((Z.lxor 92 <$> k) ++ sha256 ((Z.lxor 54 <$> k) ++ m)).

Example sha256_empty :
  hex_encode (sha256 []) = "e3b0c44298fc1c149afbf4c8996fb92427ae41e4649b934ca495991b7852b855"%string.
Proof. vm_compute. reflexivity. Qed.
Example sha256_abc :
  hex_encode (sha256 (go_bytes "abc")) = "ba7816bf8f01cfea414140de5dae2223b00361a396177a9cb410ff61f20015ad"%string.
Proof. vm_compute. reflexivity. Qed.
Example sha256_two_blocks :
  hex_encode (sha256 (go_bytes "abcdbcdecdefdefgefghfghighijhijkijkljklmklmnlmnomnopnopq"))
  = "248d6a61d20638b8e5c026930c3e6039a33ce45964ff2167f6ecedd419db06c1"%string.
Proof. vm_compute. reflexivity. Qed.
Example hmac_rfc4231_2 :
  hex_encode (hmac_sha256 (go_bytes "Jefe") (go_bytes "what do ya want for nothing?"))
  = "5bdcc146bf60754e6a042426089575c75a003f089d2739839dec58b964ec3843"%string.
Proof. vm_compute. reflexivity. Qed.

(** ** Lengths *)

Lemma length_concat_const {A B} (f : A -> list B) n l :
  (forall x, length (f x) = n) -> length (l ≫= f) = (length l * n)%nat.
Proof. intros Hf. induction l as [|x l IH]; csimpl; [done|]. by rewrite length_app, Hf, IH. Qed.

Lemma length_sha_rounds h kws : length h = 8%nat -> length (foldl sha_round h kws) = 8%nat.
Proof.
  revert h. induction kws as [|kw kws IH]; intros h Hh; [done|]. simpl. apply IH.
  do 8 (destruct h as [|? h]; [done|]). by destruct h.
Qed.

Lemma length_sha_blocks n h ws : length h = 8%nat -> length (sha_blocks n h ws) = 8%nat.
Proof.
  revert h ws. induction n as [|n IH]; intros h ws Hh; [done|]. simpl. apply IH.
  unfold sha_block. rewrite length_zip_with, length_sha_rounds by done. lia.
Qed.

Lemma length_sha256 m : length (sha256 m) = sha256_size.
Proof.
  unfold sha256. rewrite (length_concat_const _ 4) by (intros; apply length_be_bytes).
  by rewrite length_sha_blocks.
Qed.

Lemma sha256_is_byte m : Forall is_byte (sha256 m).
Proof.
  unfold sha256. apply Forall_bind, Forall_true. intros x. apply be_bytes_is_byte.
Qed.

Lemma length_hmac_sha256 k m : length (hmac_sha256 k m) = sha256_size.
Proof. apply length_sha256. Qed.

Lemma hmac_sha256_is_byte k m : Forall is_byte (hmac_sha256 k m).
Proof. apply sha256_is_byte. Qed.

(** ** Hexadecimal facts *)

Lemma list_pair_ind {A} (P : list A -> Prop) :
  P [] -> (forall x, P [x]) -> (forall x y l, P l -> P (x :: y :: l)) -> forall l, P l.
Proof.
  intros H0 H1 H2 l. enough (P l /\ forall x, P (x :: l)) by tauto.
  induction l as [|y l [IH1 IH2]]; split; auto.
Qed.

(** A fact on all bytes, by evaluation. *)
Lemma byte_cases (P : Z -> bool) : forallb P (seqZ 0 256) = true -> forall b, is_byte b -> P b = true.
Proof.
  intros HP b Hb. apply Is_true_true in HP. rewrite forallb_True, Forall_forall in HP.
  apply Is_true_true, HP, elem_of_seqZ. unfold is_byte in Hb. lia.
Qed.

Lemma hex_char_value b : is_byte b ->
  hex_value (hex_char (b / 16)) = Some (b / 16) /\ hex_value (hex_char (b mod 16)) = Some (b mod 16)
  /\ is_byte (hex_char (b / 16)) /\ is_byte (hex_char (b mod 16)).
Proof.
  intros Hb. pose proof (byte_cases (fun b => bool_decide (
    hex_value (hex_char (b / 16)) = Some (b / 16) /\ hex_value (hex_char (b mod 16)) = Some (b mod 16)
    /\ 0 <= hex_char (b / 16) < 256 /\ 0 <= hex_char (b mod 16) < 256)) ltac:(by vm_compute) b Hb) as H.
  by apply bool_decide_eq_true in H.
Qed.

Lemma hex_encode_is_byte bs : Forall is_byte bs -> Forall is_byte (hex_encode_bytes bs).
Proof.
  unfold hex_encode_bytes. induction 1 as [|b bs Hb _ IH]; csimpl; [constructor|].
  destruct (hex_char_value b Hb) as (_ & _ & ? & ?). by rewrite !Forall_cons.
Qed.

Lemma hex_decode_encode bs : Forall is_byte bs -> hex_decode (hex_encode bs) = Some bs.
Proof.
  intros Hbs. unfold hex_decode, hex_encode. rewrite go_bytes_of_bytes by by apply hex_encode_is_byte.
  unfold hex_encode_bytes. induction Hbs as [|b bs Hb Hbs IH]; csimpl; [done|].
  destruct (hex_char_value b Hb) as (H1 & H2 & _). rewrite H1, H2. csimpl. rewrite IH. csimpl.
  do 2 f_equal. rewrite Z.mul_comm. symmetry. apply Z.div_mod. lia.
Qed.

Lemma hex_encode_lower bs : Forall is_byte bs -> to_lower_ascii (hex_encode bs) = hex_encode bs.
Proof.
  intros Hbs. unfold to_lower_ascii, hex_encode. rewrite go_bytes_of_bytes by by apply hex_encode_is_byte.
  f_equal. unfold hex_encode_bytes. induction Hbs as [|b bs Hb _ IH]; csimpl; [done|].
  pose proof (byte_cases (fun b => (lower_byte (hex_char (b / 16)) =? hex_char (b / 16))
    && (lower_byte (hex_char (b mod 16)) =? hex_char (b mod 16))) ltac:(by vm_compute) b Hb) as H.
  apply andb_true_iff in H as [H1%Z.eqb_eq H2%Z.eqb_eq]. by rewrite H1, H2, IH.
Qed.

Lemma length_hex_encode bs : go_len (hex_encode bs) = 2 * Z.of_nat (length bs).
Proof.
  unfold go_len, hex_encode, hex_encode_bytes. rewrite length_of_bytes, (length_concat_const _ 2) by done. lia.
Qed.

Lemma hex_decode_is_byte cs bs : hex_decode_bytes cs = Some bs -> Forall is_byte bs.
Proof.
  revert bs. induction cs as [| |c1 c2 cs IH] using list_pair_ind;
    intros bs; simpl; [by intros [= <-]|done|].
  destruct (hex_value c1) as [h|] eqn:E1; [|done]. destruct (hex_value c2) as [l|] eqn:E2; [|done].
  destruct (hex_decode_bytes cs) as [r|]; [|done]. intros [= <-]. constructor; [|by apply IH].
  unfold hex_value in E1, E2. unfold is_byte. repeat case_match; simplify_eq; bool_to_prop; lia.
Qed.

Lemma length_hex_decode cs bs : hex_decode_bytes cs = Some bs -> length cs = (2 * length bs)%nat.
Proof.
  revert bs. induction cs as [| |c1 c2 cs IH] using list_pair_ind;
    intros bs; simpl; [by intros [= <-]|done|].
  destruct (hex_value c1); [|done]. destruct (hex_value c2); [|done].
  destruct (hex_decode_bytes cs) as [r|]; [|done]. intros [= <-]. simpl. rewrite (IH r) by done. lia.
Qed.

(** Lower-case hexadecimal is canonical. *)
Lemma hex_value_lower c d : hex_value c = Some d -> lower_byte c = c -> hex_char d = c /\ 0 <= d < 16.
Proof.
  unfold hex_value, lower_byte, hex_char. intros Hv Hl.
  repeat case_match; simplify_eq; bool_to_prop; (split; lia).
Qed.

Lemma hex_encode_decode s bs : to_lower_ascii s = s -> hex_decode s = Some bs -> hex_encode bs = s.
Proof.
  intros Hl Hd. apply go_bytes_inj. unfold hex_encode.
  rewrite go_bytes_of_bytes by (by eapply hex_encode_is_byte, hex_decode_is_byte).
  assert (lower_byte <$> go_bytes s = go_bytes s) as Hl'.
  { rewrite <- Hl at 2. unfold to_lower_ascii. rewrite go_bytes_of_bytes; [done|].
    apply Forall_fmap. eapply Forall_impl; [apply go_bytes_is_byte|]. intros b. unfold compose, is_byte, lower_byte.
    case_match; bool_to_prop; lia. }
  unfold hex_decode in Hd. clear Hl. revert bs Hl' Hd. generalize (go_bytes s).
  intros cs. induction cs as [| |c1 c2 cs IH] using list_pair_ind;
    intros bs Hl; simpl; [by intros [= <-]|done|].
  destruct (hex_value c1) as [h|] eqn:E1; [|done]. destruct (hex_value c2) as [l|] eqn:E2; [|done].
  destruct (hex_decode_bytes cs) as [r|] eqn:Er; [|done]. intros [= <-]. injection Hl as Hl1 Hl2 Hl3.
  destruct (hex_value_lower c1 h E1 Hl1) as [Hc1 Hh]. destruct (hex_value_lower c2 l E2 Hl2) as [Hc2 Hr].
  unfold hex_encode_bytes. csimpl. rewrite Z.div_add_l, (Z.div_small l 16), Z.add_0_r by lia.
  rewrite Z.add_comm, Z.mod_add, Z.mod_small, Hc1, Hc2 by lia. do 2 f_equal. by apply IH.
Qed.

(** ** Base64 facts *)

Lemma list_triple_ind {A} (P : list A -> Prop) :
  P [] -> (forall x, P [x]) -> (forall x y, P [x; y]) ->
  (forall x y z l, P l -> P (x :: y :: z :: l)) -> forall l, P l.
Proof.
  intros H0 H1 H2 H3 l. enough (P l /\ (forall x, P (x :: l)) /\ forall x y, P (x :: y :: l)) by tauto.
  induction l as [|z l (IH1 & IH2 & IH3)]; split_and!; auto.
Qed.

Lemma b64_char_value d : 0 <= d < 64 ->
  b64_value (b64_char d) = Some d /\ is_byte (b64_char d) /\ b64_char d <> 10 /\ b64_char d <> 13.
Proof.
  intros Hd. unfold b64_value, b64_char, is_byte.
  repeat case_match; bool_to_prop; split_and!; try f_equal; lia.
Qed.

Lemma b64_groups_range bs : Forall is_byte bs -> Forall (fun d => 0 <= d < 64) (b64_groups bs).
Proof.
  induction bs as [|a|a b|a b c bs IH] using list_triple_ind; intros Hbs; simpl;
    repeat (apply Forall_cons in Hbs as [? Hbs]); unfold is_byte in *;
    rewrite ?Forall_cons; split_and?; try apply Forall_nil_2; try (apply IH; exact Hbs);
    Z.to_euclidean_division_equations; lia.
Qed.

Lemma b64_ungroup_groups bs : Forall is_byte bs -> b64_ungroup (b64_groups bs) = Some bs.
Proof.
  induction bs as [|a|a b|a b c bs IH] using list_triple_ind; intros Hbs; simpl;
    repeat (apply Forall_cons in Hbs as [? Hbs]); unfold is_byte in *; [done| | |].
  1, 2: repeat f_equal; Z.to_euclidean_division_equations; lia.
  rewrite IH by done. csimpl. repeat f_equal; Z.to_euclidean_division_equations; lia.
Qed.

Lemma b64_chars_value ds : Forall (fun d => 0 <= d < 64) ds ->
  mapM b64_value (b64_char <$> ds) = Some ds /\ Forall is_byte (b64_char <$> ds)
  /\ filter (fun b => b <> 10 /\ b <> 13) (b64_char <$> ds) = b64_char <$> ds.
Proof.
  intros Hds. split.
  - apply mapM_Some_2, Forall2_fmap_l, Forall_Forall2_diag. eapply Forall_impl; [exact Hds|].
    intros d Hd. by apply b64_char_value.
  - induction Hds as [|d ds Hd _ [IH1 IH2]]; csimpl; [done|].
    destruct (b64_char_value d Hd) as (_ & Hb & H10 & H13).
    rewrite filter_cons_True, IH2 by done. split; [by constructor|done].
Qed.

Lemma base64url_encode_bytes bs : Forall is_byte bs -> go_bytes (base64url_encode bs) = b64_char <$> b64_groups bs.
Proof. intros Hbs. apply go_bytes_of_bytes, b64_chars_value, b64_groups_range, Hbs. Qed.

Lemma base64url_decode_encode bs : Forall is_byte bs -> base64url_decode (base64url_encode bs) = Some bs.
Proof.
  intros Hbs. unfold base64url_decode. rewrite base64url_encode_bytes by done.
  destruct (b64_chars_value (b64_groups bs) (b64_groups_range bs Hbs)) as (Hv & _ & ->). rewrite Hv. csimpl.
  by apply b64_ungroup_groups.
Qed.

Lemma length_b64_groups bs : (length (b64_groups bs) <= 2 * length bs)%nat.
Proof. induction bs as [| | |a b c bs IH] using list_triple_ind; simpl in *; lia. Qed.

Lemma length_base64url_encode bs : go_len (base64url_encode bs) <= 2 * Z.of_nat (length bs).
Proof.
  unfold go_len, base64url_encode. rewrite length_of_bytes, length_fmap.
  pose proof (length_b64_groups bs). lia.
Qed.

(** ** MD5 ([crypto/md5])

    RFC 1321 on lists of bytes; the checksum of an archived object.  Checked
    against the test suite of the RFC. *)

Definition md5_k : list Z :=
  [3614090360; 3905402710; 606105819; 3250441966; 4118548399; 1200080426; 2821735955; 4249261313;
   1770035416; 2336552879; 4294925233; 2304563134; 1804603682; 4254626195; 2792965006; 1236535329;
   4129170786; 3225465664; 643717713; 3921069994; 3593408605; 38016083; 3634488961; 3889429448;
   568446438; 3275163606; 4107603335; 1163531501; 2850285829; 4243563512; 1735328473; 2368359562;
   4294588738; 2272392833; 1839030562; 4259657740; 2763975236; 1272893353; 4139469664; 3200236656;
   681279174; 3936430074; 3572445317; 76029189; 3654602809; 3873151461; 530742520; 3299628645;
   4096336452; 1126891415; 2878612391; 4237533241; 1700485571; 2399980690; 4293915773; 2240044497;
   1873313359; 4264355552; 2734768916; 1309151649; 4149444226; 3174756917; 718787259; 3951481745].
Definition md5_shift (i : nat) : Z :=
  let row := match (i / 16)%nat with
             | 0%nat => [7; 12; 17; 22]
             | 1%nat => [5; 9; 14; 20]
             | 2%nat => [4; 11; 16; 23]
             | _ => [6; 10; 15; 21]
             end in default 0 (row !! (i mod 4)%nat).

Fixpoint le_bytes (n : nat) (v : Z) : Bytes :=
  match n with O => [] | S n' => v mod 256 :: le_bytes n' (v / 256) end.
Fixpoint le_words (bs : Bytes) : list Z :=
  match bs with
  | a :: b :: c :: d :: bs' => (a + 256 * b + 65536 * c + 16777216 * d) :: le_words bs'
  | _ => []
  end.
Definition md5_pad (m : Bytes) : Bytes :=
  m ++ [128] ++ replicate ((119 - length m mod 64) mod 64) 0 ++ le_bytes 8 (8 * Z.of_nat (length m)).
Definition rotl (n x : Z) : Z := rotr (32 - n) x.

(** The function of a step and the index of its word. *)
Definition md5_mix (i : nat) (b c d : Z) : Z * nat :=
  match (i / 16)%nat with
  | 0%nat => (Z.lor (Z.land b c) (Z.land (not32 b) d), i)
  | 1%nat => (Z.lor (Z.land d b) (Z.land (not32 d) c), (5 * i + 1) mod 16)%nat
  | 2%nat => (Z.lxor b (Z.lxor c d), (3 * i + 5) mod 16)%nat
  | _ => (Z.lxor c (Z.lor b (not32 d)), (7 * i) mod 16)%nat
  end.
Definition md5_step (ws : list Z) (h : Z * Z * Z * Z) (i : nat) : Z * Z * Z * Z :=
  let '(a, b, c, d) := h in
  let '(f, g) := md5_mix i b c d in
  let t := add32 (add32 a f) (add32 (default 0 (md5_k !! i)) (default 0 (ws !! g))) in
  (d, add32 b (rotl (md5_shift i) t), b, c).
Definition md5_block (h : Z * Z * Z * Z) (ws : list Z) : Z * Z * Z * Z :=
  let '(a, b, c, d) := h in
  let '(a', b', c', d') := foldl (md5_step ws) h (seq 0 64) in
  (add32 a a', add32 b b', add32 c c', add32 d d').
Fixpoint md5_blocks (n : nat) (h : Z * Z * Z * Z) (ws : list Z) : Z * Z * Z * Z :=
  match n with O => h | S n' => md5_blocks n' (md5_block h (take 16 ws)) (drop 16 ws) end.
Definition md5 (m : Bytes) : Bytes :=
  let p := md5_pad m in
  let '(a, b, c, d) := md5_blocks (length p / 64) (1732584193, 4023233417, 2562383102, 271733878) (le_words p) in
  le_bytes 4 a ++ le_bytes 4 b ++ le_bytes 4 c ++ le_bytes 4 d.

Example md5_empty : hex_encode (md5 []) = "d41d8cd98f00b204e9800998ecf8427e"%string.
Proof. by vm_compute. Qed.
Example md5_abc : hex_encode (md5 (go_bytes "abc")) = "900150983cd24fb0d6963f7d28e17f72"%string.
Proof. by vm_compute. Qed.
Example md5_digits : hex_encode (md5 (go_bytes "12345678901234567890123456789012345678901234567890123456789012345678901234567890"))
  = "57edf4a22be3c955ac49da2e2107b67a"%string.
Proof. by vm_compute. Qed.
