(* ===== verification/Canonical.v ===== *)
(** * Canonical encodings ([internal/security/canonical_encoding.go])

    A [bytes.Buffer] is the list of bytes written to it; a write function is
    the bytes it appends.  [PrefixFree] is what the encoders promise to the
    formats built from them: an encoding followed by anything determines the
    value and the rest, so a sequence of fields is read back uniquely. *)

From S2P Require Import Prelude GoStr GoTime GoCrypto.
From stdpp Require Import options.
Local Open Scope Z_scope.

Definition writeCanonicalUint32 (v : Z) : Bytes := be_bytes 4 (to_uint32 v).
Definition writeCanonicalInt64 (v : Z) : Bytes := be_bytes 8 (to_uint64 v).
Definition writeCanonicalString (s : string) : Bytes := be_bytes 4 (to_uint32 (go_len s)) ++ go_bytes s.

Global Arguments writeCanonicalUint32 : simpl never.
Global Arguments writeCanonicalInt64 : simpl never.
Global Arguments writeCanonicalString : simpl never.

(** The errors of the validators, with the field of the message. *)
Inductive FieldError :=
| NotDigest (field : string) | NotCanonicalText (field : string)
| NotSubject (field prefix : string) | NotTimestamp (field : string)
| NotCommandID | NotOpaque (field : string) (size : nat).

(** [strings.ToLower] changes ASCII capitals; a string with any other
    character fails to decode with the same error. *)
Definition decodeCanonicalDigest (field value : string) : result FieldError Bytes :=
  guard? negb (go_len value =? Z.of_nat sha256_size * 2) || negb (bool_decide (value = to_lower_ascii value))
    else NotDigest field;
  match hex_decode value with
  | None => Err (NotDigest field)
  | Some decoded => Ok decoded
  end.

Definition validateCanonicalText (field value : string) : result FieldError unit :=
  guard? bool_decide (value = ""%string) || (max_uint32 <? go_len value) || negb (utf8_valid value)
         || negb (bool_decide (trim_space value = value)) else NotCanonicalText field;
  Ok tt.

Definition validateCanonicalSubject (field value prefix : string) : result FieldError unit :=
  let? _ := validateCanonicalText field value in
  guard? negb (has_prefix value prefix) || (go_len value =? go_len prefix) else NotSubject field prefix;
  Ok tt.

Definition validateCanonicalTimestamp (field value : string) : result FieldError unit :=
  match ParseMicro value with
  | None => Err (NotTimestamp field)
  | Some parsed => guard? negb (bool_decide (of_bytes (format_micro parsed) = value)) else NotTimestamp field; Ok tt
  end.

(** [decoded, err := DecodeString(value); err != nil || len(decoded) != size || EncodeToString(decoded) != value] *)
Definition canonical_base64 (size : nat) (value : string) : bool :=
  match base64url_decode value with
  | None => false
  | Some decoded => (length decoded =? size)%nat && bool_decide (base64url_encode decoded = value)
  end.

Definition validateCommandID (value : string) : result FieldError unit :=
  guard? negb (canonical_base64 32 value) else NotCommandID; Ok tt.

(** [approval_capability.go]. *)
Definition validateOpaqueBase64URL (field value : string) (size : nat) : result FieldError unit :=
  guard? negb (canonical_base64 size value) else NotOpaque field size; Ok tt.

(** ** Unique reading *)

Definition is_uint32 (z : Z) : Prop := 0 <= z <= max_uint32.
Definition short_string (s : string) : Prop := go_len s <= max_uint32.

Global Instance short_string_dec s : Decision (short_string s).
Proof. unfold short_string. apply _. Defined.

Class PrefixFree {A} (P : A -> Prop) (enc : A -> Bytes) :=
  prefix_free a b r r' : P a -> P b -> enc a ++ r = enc b ++ r' -> a = b /\ r = r'.

Global Instance prefix_free_digest n : PrefixFree (fun bs : Bytes => length bs = n) (fun bs => bs).
Proof. intros a b r r' Ha Hb H. apply app_inj_1 in H; [done|congruence]. Qed.

Lemma prefix_free_be n f (P : Z -> Prop) :
  (forall a, P a -> 0 <= f a < 256 ^ Z.of_nat n) -> (forall a b, P a -> P b -> f a = f b -> a = b) ->
  PrefixFree P (fun v => be_bytes n (f v)).
Proof.
  intros Hf Hinj a b r r' Ha Hb H. apply app_inj_1 in H as [He Hr]; [|by rewrite !length_be_bytes].
  split; [|done]. apply Hinj; [done..|]. apply be_bytes_inj in He; auto.
Qed.

Global Instance prefix_free_int64 : PrefixFree is_int64 writeCanonicalInt64.
Proof.
  apply prefix_free_be; [|by intros; apply to_uint64_inj_int64].
  intros a _. apply to_uint64_range.
Qed.

Lemma to_uint32_id v : is_uint32 v -> to_uint32 v = v.
Proof. unfold is_uint32, max_uint32, to_uint32. intros. apply Z.mod_small. lia. Qed.

Global Instance prefix_free_uint32 : PrefixFree is_uint32 writeCanonicalUint32.
Proof.
  apply prefix_free_be.
  - intros a Ha. rewrite to_uint32_id by done. unfold is_uint32, max_uint32 in Ha. lia.
  - intros a b Ha Hb. by rewrite !to_uint32_id.
Qed.

Global Instance prefix_free_string : PrefixFree short_string writeCanonicalString.
Proof.
  intros a b r r' Ha Hb. unfold writeCanonicalString. rewrite <- !app_assoc. intros H.
  assert (forall s, short_string s -> is_uint32 (go_len s)) as Hlen by (unfold short_string, is_uint32, go_len; lia).
  apply (prefix_free (enc := writeCanonicalUint32)) in H as [Hl H]; [|by apply Hlen..].
  apply app_inj_1 in H as [He Hr]; [|by rewrite !length_go_bytes; unfold go_len in Hl; lia].
  split; [by apply go_bytes_inj|done].
Qed.

Lemma prefix_free_last {A} {P : A -> Prop} {enc} `{!PrefixFree P enc} a b : P a -> P b -> enc a = enc b -> a = b.
Proof. intros Ha Hb Heq. apply (prefix_free a b [] []); [done..|]. by rewrite Heq. Qed.

Lemma app_digest (a b r r' : Bytes) :
  length a = sha256_size -> length b = sha256_size -> a ++ r = b ++ r' -> a = b /\ r = r'.
Proof. apply (prefix_free (P := fun bs => length bs = sha256_size) (enc := fun bs => bs)). Qed.

(** Reads one field off an equation between two encodings. *)
Ltac read_field H :=
  let E := fresh "Hf" in
  match type of H with
  | writeCanonicalString ?a ++ ?r = writeCanonicalString ?b ++ ?r' =>
      apply (prefix_free_string a b r r') in H; [destruct H as [E H]|done..]
  | writeCanonicalInt64 ?a ++ ?r = writeCanonicalInt64 ?b ++ ?r' =>
      apply (prefix_free_int64 a b r r') in H; [destruct H as [E H]|done..]
  | writeCanonicalUint32 ?a ++ ?r = writeCanonicalUint32 ?b ++ ?r' =>
      apply (prefix_free_uint32 a b r r') in H; [destruct H as [E H]|done..]
  | writeCanonicalString ?a = writeCanonicalString ?b =>
      apply (prefix_free_last (enc := writeCanonicalString) a b) in H; [|done..]
  | writeCanonicalInt64 ?a = writeCanonicalInt64 ?b =>
      apply (prefix_free_last (enc := writeCanonicalInt64) a b) in H; [|done..]
  | ?a ++ ?r = ?b ++ ?r' => is_var a; is_var b;
      apply (app_digest a b r r') in H; [destruct H as [E H]|assumption..]
  end.

(** ** What the validators accept *)

Lemma decodeCanonicalDigest_ok f v d :
  decodeCanonicalDigest f v = Ok d -> length d = sha256_size /\ Forall is_byte d /\ hex_encode d = v.
Proof.
  unfold decodeCanonicalDigest. intros H. inv_result. bool_to_prop. unfold hex_decode in *. split_and!.
  - apply length_hex_decode in E0. rewrite length_go_bytes in E0. unfold go_len, sha256_size in *. lia.
  - by eapply hex_decode_is_byte.
  - by apply hex_encode_decode.
Qed.

Lemma decodeCanonicalDigest_encode f d :
  length d = sha256_size -> Forall is_byte d -> decodeCanonicalDigest f (hex_encode d) = Ok d.
Proof.
  intros Hl Hd. unfold decodeCanonicalDigest. rewrite length_hex_encode, hex_encode_lower, Hl by done.
  rewrite bool_decide_true by done. by rewrite hex_decode_encode.
Qed.

Lemma validateCanonicalText_ok f v : validateCanonicalText f v = Ok tt -> v <> ""%string /\ short_string v.
Proof. unfold validateCanonicalText. intros H. inv_result. bool_to_prop. by split. Qed.

Lemma validateCanonicalSubject_ok f v p : validateCanonicalSubject f v p = Ok tt -> v <> ""%string /\ short_string v.
Proof. unfold validateCanonicalSubject. intros H. inv_result. destruct a. by eapply validateCanonicalText_ok. Qed.

Lemma length_fixed_digits w n acc : length (fixed_digits w n acc) = (w + length acc)%nat.
Proof. revert n acc. induction w as [|w IH]; intros n acc; simpl; [done|]. rewrite IH. simpl. lia. Qed.

Lemma validateCanonicalTimestamp_ok f v : validateCanonicalTimestamp f v = Ok tt -> short_string v.
Proof.
  unfold validateCanonicalTimestamp. intros H. inv_result. bool_to_prop.
  subst. unfold short_string, go_len, max_uint32. rewrite length_of_bytes.
  unfold format_micro. rewrite !length_app, !length_fixed_digits. simpl. lia.
Qed.

Lemma canonical_base64_short size v :
  2 * Z.of_nat size <= max_uint32 -> canonical_base64 size v = true -> short_string v.
Proof.
  unfold canonical_base64. intros Hs H. case_match; [|done]. bool_to_prop.
  subst. pose proof (length_base64url_encode l). unfold short_string. lia.
Qed.

Lemma canonical_base64_encode bs : Forall is_byte bs -> canonical_base64 (length bs) (base64url_encode bs) = true.
Proof.
  intros Hbs. unfold canonical_base64. rewrite base64url_decode_encode by done.
  by rewrite Nat.eqb_refl, bool_decide_true.
Qed.

Lemma validateCommandID_short v : validateCommandID v = Ok tt -> short_string v.
Proof. unfold validateCommandID. intros H. inv_result. bool_to_prop. by apply (canonical_base64_short 32). Qed.

#[export] Hint Resolve validateCommandID_short validateCanonicalTimestamp_ok : pdp.

(** The bounds of the fields whose validation succeeded. *)
Ltac inv_fields :=
  repeat match goal with
  | H : _ = Ok ?a |- _ => is_var a; match type of a with unit => destruct a end
  | H : validateCanonicalText _ _ = Ok tt |- _ => apply validateCanonicalText_ok in H as [_ H]
  | H : validateCanonicalSubject _ _ _ = Ok tt |- _ => apply validateCanonicalSubject_ok in H as [_ H]
  end.
