(* ===== verification/Intent.v ===== *)
(** * Canonical business intents ([internal/security/canonical_business_intent.go])

    The purchase-order command a V2 delegation proof binds: its validation,
    its state witness, its canonical bytes and its hash. *)

From S2P Require Import Prelude GoStr GoTime GoCrypto Canonical.
From stdpp Require Import options.
Local Open Scope Z_scope.

Definition CanonicalBusinessIntentVersion : string := "cbi.v1"%string.
Definition CanonicalIntentProofVersion : string := "v2"%string.
Definition PurchaseOrderResourceType : string := "purchase.order"%string.
Definition ConfirmPurchaseOrderAction : string := "action:CONFIRM_PURCHASE_ORDER"%string.
Definition canonicalIntentDomain : string := "PDP-CANONICAL-BUSINESS-INTENT"%string.
Definition stateWitnessDomain : string := "PDP-ODOO-PO-STATE-V1"%string.

Record CanonicalBusinessIntent := mkIntent {
  IntentVersion : string;
  TenantID : string;
  CompanyID : Z;
  ResourceType : string;
  ResourceID : Z;
  Action : string;
  VendorID : Z;
  CurrencyCode : string;
  CurrencyScale : Z;
  AmountMinor : Z;
  LineDigest : string;
  RecordState : string;
  RecordWriteVersion : string;
  StateWitness : string;
  CreatorSubject : string;
  DelegationGrantID : Z;
  DelegatorSubject : string;
  AgentSubject : string;
  CommandID : string;
  ProofVersion : string
}.

Inductive IntentError :=
| BadIntentVersion | BadIntentIDs | BadResourceType | BadAction | BadCurrencyCode | BadCurrencyScale
| BadAmount | BadProofVersion | WitnessMismatch | IntentField (e : FieldError).

Definition in_field {A} (m : result FieldError A) : result IntentError A :=
  match m with Ok a => Ok a | Err e => Err (IntentField e) end.

Definition upper_letter (r : Z) : bool := (65 <=? r) && (r <=? 90).

Definition validateFields (i : CanonicalBusinessIntent) : result IntentError unit :=
  guard? negb (bool_decide (IntentVersion i = CanonicalBusinessIntentVersion)) else BadIntentVersion;
  let? _ := in_field (validateCanonicalText "tenant_id" (TenantID i)) in
  guard? (CompanyID i <=? 0) || (ResourceID i <=? 0) || (VendorID i <=? 0) || (DelegationGrantID i <=? 0)
    else BadIntentIDs;
  guard? negb (bool_decide (ResourceType i = PurchaseOrderResourceType)) else BadResourceType;
  guard? negb (bool_decide (Action i = ConfirmPurchaseOrderAction)) else BadAction;
  guard? negb (go_len (CurrencyCode i) =? 3) else BadCurrencyCode;
  guard? negb (forallb upper_letter (runes_of (CurrencyCode i))) else BadCurrencyCode;
  guard? (CurrencyScale i <? 0) || (6 <? CurrencyScale i) else BadCurrencyScale;
  guard? (AmountMinor i <? 0) else BadAmount;
  let? _ := in_field (decodeCanonicalDigest "line_digest" (LineDigest i)) in
  let? _ := in_field (validateCanonicalText "record_state" (RecordState i)) in
  let? _ := in_field (validateCanonicalTimestamp "record_write_version" (RecordWriteVersion i)) in
  let? _ := in_field (validateCanonicalSubject "creator_subject" (CreatorSubject i) "user:") in
  let? _ := in_field (validateCanonicalSubject "delegator_subject" (DelegatorSubject i) "user:") in
  let? _ := in_field (validateCanonicalSubject "agent_subject" (AgentSubject i) "agent:") in
  let? _ := in_field (validateCommandID (CommandID i)) in
  guard? negb (bool_decide (ProofVersion i = CanonicalIntentProofVersion)) else BadProofVersion;
  Ok tt.

(** The bytes hashed by [computeStateWitness]. *)
Definition state_payload (i : CanonicalBusinessIntent) (lineDigest : Bytes) : Bytes :=
  go_bytes stateWitnessDomain ++ writeCanonicalString (TenantID i) ++ writeCanonicalInt64 (CompanyID i)
  ++ writeCanonicalString (ResourceType i) ++ writeCanonicalInt64 (ResourceID i)
  ++ writeCanonicalInt64 (VendorID i) ++ writeCanonicalString (CurrencyCode i)
  ++ writeCanonicalInt64 (CurrencyScale i) ++ writeCanonicalInt64 (AmountMinor i)
  ++ lineDigest ++ writeCanonicalString (RecordState i) ++ writeCanonicalString (RecordWriteVersion i)
  ++ writeCanonicalInt64 (DelegationGrantID i) ++ writeCanonicalString (CreatorSubject i).

Definition computeStateWitness (i : CanonicalBusinessIntent) : result IntentError Bytes :=
  let? lineDigest := in_field (decodeCanonicalDigest "line_digest" (LineDigest i)) in
  Ok (sha256 (state_payload i lineDigest)).

Definition Validate (i : CanonicalBusinessIntent) : result IntentError unit :=
  let? _ := validateFields i in
  let? provided := in_field (decodeCanonicalDigest "state_witness" (StateWitness i)) in
  let? expected := computeStateWitness i in
  guard? negb (bool_decide (provided = expected)) else WitnessMismatch;
  Ok tt.

Definition set_witness (i : CanonicalBusinessIntent) (w : string) : CanonicalBusinessIntent :=
  mkIntent (IntentVersion i) (TenantID i) (CompanyID i) (ResourceType i) (ResourceID i) (Action i)
    (VendorID i) (CurrencyCode i) (CurrencyScale i) (AmountMinor i) (LineDigest i) (RecordState i)
    (RecordWriteVersion i) w (CreatorSubject i) (DelegationGrantID i) (DelegatorSubject i)
    (AgentSubject i) (CommandID i) (ProofVersion i).

Definition RefreshStateWitness (i : CanonicalBusinessIntent) : result IntentError CanonicalBusinessIntent :=
  let? _ := validateFields i in
  let? witness := computeStateWitness i in
  Ok (set_witness i (hex_encode witness)).

(** The fields in their order, after validation. *)
Definition intent_payload (i : CanonicalBusinessIntent) (lineDigest stateWitness : Bytes) : Bytes :=
  go_bytes canonicalIntentDomain ++ writeCanonicalString (IntentVersion i) ++ writeCanonicalString (TenantID i)
  ++ writeCanonicalInt64 (CompanyID i) ++ writeCanonicalString (ResourceType i)
  ++ writeCanonicalInt64 (ResourceID i) ++ writeCanonicalString (Action i) ++ writeCanonicalInt64 (VendorID i)
  ++ writeCanonicalString (CurrencyCode i) ++ writeCanonicalInt64 (CurrencyScale i)
  ++ writeCanonicalInt64 (AmountMinor i) ++ lineDigest ++ writeCanonicalString (RecordState i)
  ++ writeCanonicalString (RecordWriteVersion i) ++ stateWitness ++ writeCanonicalString (CreatorSubject i)
  ++ writeCanonicalInt64 (DelegationGrantID i) ++ writeCanonicalString (DelegatorSubject i)
  ++ writeCanonicalString (AgentSubject i) ++ writeCanonicalString (CommandID i)
  ++ writeCanonicalString (ProofVersion i).

(** The digests of a valid intent decode; the code drops these errors. *)
Definition digest_or_nil (field value : string) : Bytes := default [] (to_option (decodeCanonicalDigest field value)).

Definition CanonicalBytes (i : CanonicalBusinessIntent) : result IntentError Bytes :=
  let? _ := Validate i in
  Ok (intent_payload i (digest_or_nil "line_digest" (LineDigest i)) (digest_or_nil "state_witness" (StateWitness i))).

Definition IntentHash (i : CanonicalBusinessIntent) : result IntentError Bytes :=
  let? payload := CanonicalBytes i in Ok (sha256 payload).

(** ** Facts *)

(** The integer fields are [int64] values of the program. *)
Definition intent_typed (i : CanonicalBusinessIntent) : Prop :=
  is_int64 (CompanyID i) /\ is_int64 (ResourceID i) /\ is_int64 (VendorID i) /\ is_int64 (CurrencyScale i)
  /\ is_int64 (AmountMinor i) /\ is_int64 (DelegationGrantID i).

Lemma in_field_ok {A} (m : result FieldError A) a : in_field m = Ok a -> m = Ok a.
Proof. by destruct m; [intros [= ->]|]. Qed.

(** What the validation of the fields gives to the encoders. *)
Lemma validateFields_ok i : validateFields i = Ok tt ->
  IntentVersion i = CanonicalBusinessIntentVersion /\ ResourceType i = PurchaseOrderResourceType
  /\ Action i = ConfirmPurchaseOrderAction /\ ProofVersion i = CanonicalIntentProofVersion
  /\ Forall short_string [TenantID i; CurrencyCode i; RecordState i; RecordWriteVersion i;
       CreatorSubject i; DelegatorSubject i; AgentSubject i; CommandID i]
  /\ exists d, decodeCanonicalDigest "line_digest" (LineDigest i) = Ok d.
Proof.
  unfold validateFields. intros H. inv_result.
  repeat match goal with H : in_field _ = Ok _ |- _ => apply in_field_ok in H end.
  bool_to_prop. split_and!; try done; [|by eauto].
  assert (short_string (CurrencyCode i)) by (unfold short_string, max_uint32; lia).
  inv_fields. rewrite !Forall_cons. split_and!; eauto with pdp.
Qed.

Lemma CanonicalBytes_ok i b : CanonicalBytes i = Ok b ->
  exists dl dw, validateFields i = Ok tt
    /\ decodeCanonicalDigest "line_digest" (LineDigest i) = Ok dl
    /\ decodeCanonicalDigest "state_witness" (StateWitness i) = Ok dw
    /\ dw = sha256 (state_payload i dl) /\ b = intent_payload i dl dw.
Proof.
  unfold CanonicalBytes, Validate, computeStateWitness. intros H.
  destruct (validateFields i) as [[]|] eqn:Ev; [|done]. cbn [rbind] in H.
  destruct (validateFields_ok i Ev) as (_ & _ & _ & _ & _ & dl & Hl).
  destruct (decodeCanonicalDigest "state_witness" (StateWitness i)) as [dw|] eqn:Ew; [|done].
  cbn [rbind in_field] in H. unfold digest_or_nil in H. rewrite Hl, Ew in H. cbn in H.
  case_bool_decide; [|done]. injection H as <-. eauto 10.
Qed.

(** The material state of the order, which the state witness is a hash of. *)
Definition material (i : CanonicalBusinessIntent) :=
  (TenantID i, CompanyID i, ResourceType i, ResourceID i, VendorID i, CurrencyCode i, CurrencyScale i,
   AmountMinor i, LineDigest i, RecordState i, RecordWriteVersion i, DelegationGrantID i, CreatorSubject i).

Ltac intent_fields i j :=
  destruct i, j; unfold material;
  cbn [IntentVersion TenantID CompanyID ResourceType ResourceID Action VendorID CurrencyCode
    CurrencyScale AmountMinor LineDigest RecordState RecordWriteVersion StateWitness CreatorSubject
    DelegationGrantID DelegatorSubject AgentSubject CommandID ProofVersion] in *; subst.

(** The canonical payload is read back uniquely. *)
Lemma intent_payload_inj i j dl dw dl' dw' :
  intent_typed i -> intent_typed j -> validateFields i = Ok tt -> validateFields j = Ok tt ->
  decodeCanonicalDigest "line_digest" (LineDigest i) = Ok dl ->
  decodeCanonicalDigest "line_digest" (LineDigest j) = Ok dl' ->
  decodeCanonicalDigest "state_witness" (StateWitness i) = Ok dw ->
  decodeCanonicalDigest "state_witness" (StateWitness j) = Ok dw' ->
  intent_payload i dl dw = intent_payload j dl' dw' -> i = j.
Proof.
  intros Hi Hj Hvi Hvj Hli Hlj Hwi Hwj Heq.
  apply validateFields_ok in Hvi as (Hi1 & Hi2 & Hi3 & Hi4 & Hsi & _).
  apply validateFields_ok in Hvj as (Hj1 & Hj2 & Hj3 & Hj4 & Hsj & _).
  apply decodeCanonicalDigest_ok in Hli as (Hli & _ & Hli'), Hlj as (Hlj & _ & Hlj'),
    Hwi as (Hwi & _ & Hwi'), Hwj as (Hwj & _ & Hwj').
  rewrite !Forall_cons in Hsi, Hsj. destruct_and!. unfold intent_typed in *. destruct_and!.
  unfold intent_payload in Heq. rewrite Hi1, Hi2, Hi3, Hi4, Hj1, Hj2, Hj3, Hj4 in Heq.
  apply app_inv_head in Heq.
  repeat read_field Heq.
  by intent_fields i j.
Qed.

Lemma CanonicalBytes_inj i j b : intent_typed i -> intent_typed j ->
  CanonicalBytes i = Ok b -> CanonicalBytes j = Ok b -> i = j.
Proof.
  intros Hi Hj Hbi Hbj. apply CanonicalBytes_ok in Hbi as (dl & dw & Hv & Hl & Hw & _ & Hb).
  apply CanonicalBytes_ok in Hbj as (dl' & dw' & Hv' & Hl' & Hw' & _ & Hb').
  eapply intent_payload_inj; try done. congruence.
Qed.

(** The canonical bytes of an intent bind every one of its fields: two
    valid intents with the same bytes are the same intent. *)
Theorem intent_bytes_injective (i j : CanonicalBusinessIntent) (b : Bytes)
    (Hi : intent_typed i) (Hj : intent_typed j)
    (Hbi : CanonicalBytes i = Ok b) (Hbj : CanonicalBytes j = Ok b) : i = j.
Proof. by eapply CanonicalBytes_inj. Qed.

Lemma state_payload_inj i j dl dl' :
  intent_typed i -> intent_typed j -> validateFields i = Ok tt -> validateFields j = Ok tt ->
  decodeCanonicalDigest "line_digest" (LineDigest i) = Ok dl ->
  decodeCanonicalDigest "line_digest" (LineDigest j) = Ok dl' ->
  state_payload i dl = state_payload j dl' -> material i = material j.
Proof.
  intros Hi Hj Hvi Hvj Hli Hlj Heq.
  apply validateFields_ok in Hvi as (_ & Hi2 & _ & _ & Hsi & _).
  apply validateFields_ok in Hvj as (_ & Hj2 & _ & _ & Hsj & _).
  apply decodeCanonicalDigest_ok in Hli as (Hli & _ & Hli'), Hlj as (Hlj & _ & Hlj').
  rewrite !Forall_cons in Hsi, Hsj. destruct_and!. unfold intent_typed in *. destruct_and!.
  unfold state_payload in Heq. rewrite Hi2, Hj2 in Heq. apply app_inv_head in Heq.
  repeat read_field Heq. by intent_fields i j.
Qed.

Lemma Validate_ok i : Validate i = Ok tt <->
  validateFields i = Ok tt /\ exists dl, decodeCanonicalDigest "line_digest" (LineDigest i) = Ok dl
    /\ decodeCanonicalDigest "state_witness" (StateWitness i) = Ok (sha256 (state_payload i dl)).
Proof.
  unfold Validate, computeStateWitness. split.
  - intros H. destruct (validateFields i) as [[]|] eqn:Ev; [|done]. split; [done|].
    destruct (validateFields_ok i Ev) as (_ & _ & _ & _ & _ & dl & Hl). exists dl. split; [done|].
    destruct (decodeCanonicalDigest "state_witness" (StateWitness i)) as [dw|]; [|done].
    cbn [rbind in_field] in H. rewrite Hl in H. cbn [rbind in_field] in H.
    by case_bool_decide as Hd; [rewrite Hd|].
  - intros (-> & dl & -> & ->). cbn [rbind in_field]. by rewrite bool_decide_true.
Qed.

(** The state witness binds the material state: two valid intents with
    the same witness agree on every material field, unless their two state
    payloads are a SHA-256 collision. *)
Theorem state_witness_binds (i j : CanonicalBusinessIntent)
    (Hi : intent_typed i) (Hj : intent_typed j)
    (Hvi : Validate i = Ok tt) (Hvj : Validate j = Ok tt) (Hw : StateWitness i = StateWitness j) :
  material i = material j
  \/ exists dl dl', decodeCanonicalDigest "line_digest" (LineDigest i) = Ok dl
       /\ decodeCanonicalDigest "line_digest" (LineDigest j) = Ok dl'
       /\ state_payload i dl <> state_payload j dl'
       /\ sha256 (state_payload i dl) = sha256 (state_payload j dl').
Proof.
  apply Validate_ok in Hvi as (Hfi & dl & Hli & Hwi). apply Validate_ok in Hvj as (Hfj & dl' & Hlj & Hwj).
  rewrite Hw, Hwj in Hwi. injection Hwi as Heq.
  destruct (decide (state_payload i dl = state_payload j dl')) as [Hp|Hp]; [left|right].
  - by eapply state_payload_inj.
  - by exists dl, dl'.
Qed.

Lemma validateFields_set_witness i w : validateFields (set_witness i w) = validateFields i.
Proof. reflexivity. Qed.

(** Refreshing the witness makes an intent valid exactly when its fields
    are, and changes no other field; validation then recomputes the same
    witness. *)
Theorem refresh_makes_valid (i : CanonicalBusinessIntent) :
  match RefreshStateWitness i with
  | Ok i' => Validate i' = Ok tt /\ material i' = material i /\ i' = set_witness i (StateWitness i')
             /\ exists b, CanonicalBytes i' = Ok b
  | Err e => validateFields i = Err e /\ forall w, Validate (set_witness i w) = Err e
  end.
Proof.
  unfold RefreshStateWitness. destruct (validateFields i) as [[]|e] eqn:Ev; cbn [rbind].
  - destruct (validateFields_ok i Ev) as (_ & _ & _ & _ & _ & dl & Hl).
    unfold computeStateWitness. rewrite Hl. cbn [rbind in_field].
    assert (Validate (set_witness i (hex_encode (sha256 (state_payload i dl)))) = Ok tt) as Hv.
    { apply Validate_ok. split; [done|]. exists dl. split; [done|].
      apply (decodeCanonicalDigest_encode "state_witness"); [apply length_sha256|apply sha256_is_byte]. }
    split_and!; [done..|]. unfold CanonicalBytes. rewrite Hv. by eexists.
  - split; [done|]. intros w. unfold Validate. by rewrite validateFields_set_witness, Ev.
Qed.

(** ** The vector the Go and Python implementations share ([testdata/cbi_v1_golden.json]) *)

Definition golden_fields : CanonicalBusinessIntent :=
  mkIntent "cbi.v1" "tenant-a" 7 "purchase.order" 42 "action:CONFIRM_PURCHASE_ORDER" 19 "USD" 2 123456
    "360cf5de0587cf0f0b8a73f6fd20f913e4e16f5f2efa40bea24d43868e3ab1e7" "to approve"
    "2026-09-20T10:11:12.123456Z" "" "user:alice" 81 "user:bob" "agent:procurement_copilot"
    "MVWzjbydBxQUvpx-QFT5dHISK0t95CznvTGPEEqnRDk" "v2".
Definition golden_intent : CanonicalBusinessIntent :=
  set_witness golden_fields "3a5ed9d8efb872f718fb26fe15dcfdfa825d934f74d8927ad49495d3333ac804".

Example golden_witness : RefreshStateWitness golden_fields = Ok golden_intent.
Proof. vm_compute. reflexivity. Qed.
Example golden_hash :
  hex_encode <$> to_option (IntentHash golden_intent)
  = Some "ea1481e884e77d05bf9b88848d7ee68d38654336c7720ed48f8a5abe937581c5"%string.
Proof. vm_compute. reflexivity. Qed.

Lemma golden_typed : intent_typed golden_intent.
Proof. by vm_compute. Qed.

Definition golden_bytes : Bytes := default [] (to_option (CanonicalBytes golden_intent)).

Lemma intent_bytes_injective_witness :
  CanonicalBytes golden_intent = Ok golden_bytes /\ golden_intent = set_witness golden_fields (StateWitness golden_intent).
Proof.
  assert (CanonicalBytes golden_intent = Ok golden_bytes) as Hb by (vm_compute; reflexivity).
  split; [exact Hb|]. apply (intent_bytes_injective golden_intent _ golden_bytes); [| |exact Hb|exact Hb];
    apply golden_typed.
Defined.

Lemma state_witness_binds_witness : material golden_intent = material golden_intent
  \/ exists dl dl', decodeCanonicalDigest "line_digest" (LineDigest golden_intent) = Ok dl
       /\ decodeCanonicalDigest "line_digest" (LineDigest golden_intent) = Ok dl'
       /\ state_payload golden_intent dl <> state_payload golden_intent dl'
       /\ sha256 (state_payload golden_intent dl) = sha256 (state_payload golden_intent dl').
Proof.
  apply (state_witness_binds golden_intent golden_intent golden_typed golden_typed); [..|reflexivity];
    vm_compute; reflexivity.
Defined.
