(* ===== verification/PoLines.v ===== *)
(** * Canonical purchase-order lines ([internal/security/canonical_purchase_order_lines.go])

    The line digest of an intent hashes these bytes.  Unicode normalisation is
    the function [norm.NFC.String] of golang.org/x/text, a parameter.  [sort.Slice]
    is a merge sort: it differs from the program's sort only on lines that
    compare equal, which are duplicates and refused. *)

From S2P Require Import Prelude GoStr GoTime GoCrypto Canonical.
From stdpp Require Import options.
Local Open Scope Z_scope.

(** [norm.NFC.String]. *)
Class Normalizer := nfc : string -> string.

Definition canonicalPurchaseOrderLinesDomain : string := "PDP-ODOO-PO-LINES-V1".

Record CanonicalPurchaseOrderLine := mkLine {
  LineID : Z;
  Sequence : Z;
  DisplayType : string;
  ProductID : Z;
  Description : string;
  UOMID : Z;
  Quantity : string;
  UnitPrice : string;
  TaxIDs : list Z;
  PlannedAt : string;
  LineWriteVersion : string
}.

Inductive LineError :=
| BadLineID | BadDisplayType | BadProduct | BadDescription | BadDecimal (field : string) | BadTaxes
| NoPlannedAt | LineField (e : FieldError) | DuplicateLine (id : Z) | TooManyLines.

(** ** Decimals

    [canonicalDecimalPattern]: an optional minus sign, an integer without
    leading zeros, and an optional fraction without trailing zeros. *)

Definition nonzero_digit (b : Z) : bool := (49 <=? b) && (b <=? 57).

(** Digits up to the end, the last one not zero. *)
Fixpoint fraction_digits (bs : Bytes) : bool :=
  match bs with
  | [] => false
  | [b] => nonzero_digit b
  | b :: bs' => is_digit_byte b && fraction_digits bs'
  end.
Definition decimal_rest (bs : Bytes) : bool :=
  match bs with
  | [] => true
  | c :: bs' => (c =? 46) && fraction_digits bs'
  end.
Fixpoint integer_digits (bs : Bytes) : bool :=
  match bs with
  | b :: bs' => if is_digit_byte b then integer_digits bs' else decimal_rest bs
  | [] => true
  end.
Definition unsigned_decimal (bs : Bytes) : bool :=
  match bs with
  | [] => false
  | b :: bs' => if b =? 48 then decimal_rest bs' else nonzero_digit b && integer_digits bs'
  end.
Definition canonicalDecimalPattern (s : string) : bool :=
  match go_bytes s with
  | 45 :: bs => unsigned_decimal bs
  | bs => unsigned_decimal bs
  end.

Definition validateCanonicalDecimal (field value : string) : result LineError unit :=
  guard? negb (canonicalDecimalPattern value) || bool_decide (value = "-0"%string) else BadDecimal field;
  Ok tt.

(** ** Lines *)

(** [strings.ReplaceAll] of carriage returns, pairs first. *)
Fixpoint replace_crlf (bs : Bytes) : Bytes :=
  match bs with
  | 13 :: bs' => match bs' with 10 :: bs'' => 10 :: replace_crlf bs'' | _ => 13 :: replace_crlf bs' end
  | b :: bs' => b :: replace_crlf bs'
  | [] => []
  end.
Definition unix_newlines (s : string) : string :=
  of_bytes ((fun b => if b =? 13 then 10 else b) <$> replace_crlf (go_bytes s)).

(** The loop over the sorted tax identifiers. *)
Fixpoint taxes_ok (previous : option Z) (ts : list Z) : bool :=
  match ts with
  | [] => true
  | t :: ts' => (0 <? t) && negb (bool_decide (previous = Some t)) && taxes_ok (Some t) ts'
  end.

Section Lines.
Context `{Normalizer}.

Definition validateCanonicalPurchaseOrderLine (l : CanonicalPurchaseOrderLine) :
    result LineError (string * list Z) :=
  guard? (LineID l <=? 0) else BadLineID;
  let displayLine := bool_decide (DisplayType l = "line_section"%string) || bool_decide (DisplayType l = "line_note"%string) in
  guard? negb (bool_decide (DisplayType l = ""%string)) && negb displayLine else BadDisplayType;
  guard? (negb displayLine && ((ProductID l <=? 0) || (UOMID l <=? 0)))
         || (displayLine && (negb (ProductID l =? 0) || negb (UOMID l =? 0))) else BadProduct;
  guard? negb (utf8_valid (Description l)) else BadDescription;
  let description := nfc (unix_newlines (Description l)) in
  guard? bool_decide (description = ""%string) || (max_uint32 <? go_len description) else BadDescription;
  let? _ := validateCanonicalDecimal "quantity" (Quantity l) in
  let? _ := validateCanonicalDecimal "unit_price" (UnitPrice l) in
  let taxes := merge_sort Z.le (TaxIDs l) in
  guard? negb (taxes_ok None taxes) else BadTaxes;
  let? _ := if bool_decide (PlannedAt l = ""%string)
            then guard? negb displayLine else NoPlannedAt; Ok tt
            else match validateCanonicalTimestamp "planned_at" (PlannedAt l) with Ok u => Ok u | Err e => Err (LineField e) end in
  match validateCanonicalTimestamp "line_write_version" (LineWriteVersion l) with
  | Err e => Err (LineField e)
  | Ok _ => Ok (description, taxes)
  end.

(** The fields of a line, its description normalised and its taxes sorted. *)
Definition line_payload (l : CanonicalPurchaseOrderLine) (description : string) (taxes : list Z) : Bytes :=
  writeCanonicalInt64 (LineID l) ++ writeCanonicalInt64 (Sequence l) ++ writeCanonicalString (DisplayType l)
  ++ writeCanonicalInt64 (ProductID l) ++ writeCanonicalString description ++ writeCanonicalInt64 (UOMID l)
  ++ writeCanonicalString (Quantity l) ++ writeCanonicalString (UnitPrice l)
  ++ writeCanonicalUint32 (Z.of_nat (length taxes)) ++ (taxes ≫= writeCanonicalInt64)
  ++ writeCanonicalString (PlannedAt l) ++ writeCanonicalString (LineWriteVersion l).

Definition writeCanonicalPurchaseOrderLine (l : CanonicalPurchaseOrderLine) : result LineError Bytes :=
  let? dt := validateCanonicalPurchaseOrderLine l in Ok (line_payload l dt.1 dt.2).

(** The order of [sort.Slice]: sequence, then identifier. *)
Definition line_le (a b : CanonicalPurchaseOrderLine) : Prop :=
  Sequence a < Sequence b \/ (Sequence a = Sequence b /\ LineID a <= LineID b).
#[global] Instance line_le_dec a b : Decision (line_le a b).
Proof. unfold line_le. apply _. Defined.

Fixpoint write_lines (seen : gset Z) (ls : list CanonicalPurchaseOrderLine) : result LineError Bytes :=
  match ls with
  | [] => Ok []
  | l :: ls' =>
      guard? bool_decide (LineID l ∈ seen) else DuplicateLine (LineID l);
      let? b := writeCanonicalPurchaseOrderLine l in
      let? r := write_lines ({[LineID l]} ∪ seen) ls' in
      Ok (b ++ r)
  end.

Definition CanonicalPurchaseOrderLinesBytes (lines : list CanonicalPurchaseOrderLine) : result LineError Bytes :=
  guard? (max_uint32 <? Z.of_nat (length lines)) else TooManyLines;
  let ordered := merge_sort line_le lines in
  let? b := write_lines ∅ ordered in
  Ok (go_bytes canonicalPurchaseOrderLinesDomain ++ writeCanonicalUint32 (Z.of_nat (length ordered)) ++ b).

Definition CanonicalPurchaseOrderLineDigest (lines : list CanonicalPurchaseOrderLine) : result LineError Bytes :=
  let? payload := CanonicalPurchaseOrderLinesBytes lines in Ok (sha256 payload).

End Lines.

Example decimals :
  canonicalDecimalPattern <$> ["0"; "-1.5"; "10"; "0.05"; "123.456"; "00"; "1.0"; "1."; ".5"; "+1"; ""; "-"; "1.5.5"]%string
  = [true; true; true; true; true; false; false; false; false; false; false; false; false].
Proof. reflexivity. Qed.

(** The shared vector; its descriptions are in normal form already. *)
Definition golden_lines : list CanonicalPurchaseOrderLine :=
  [mkLine 101 10 "" 501 (of_bytes (go_bytes "Caf" ++ [195; 169] ++ go_bytes " beans" ++ [13; 10] ++ go_bytes "Premium"))
     1 "2.5" "123.456" [9; 3] "2026-09-25T08:30:00.000000Z" "2026-09-20T10:10:00.000001Z";
   mkLine 102 5 "line_section" 0 "Procurement" 0 "0" "0" [] "" "2026-09-20T10:09:00.000001Z"].
Definition identity_nfc : Normalizer := fun s => s.
Example golden_line_digest :
  hex_encode <$> to_option (CanonicalPurchaseOrderLineDigest (H := identity_nfc) golden_lines)
  = Some "360cf5de0587cf0f0b8a73f6fd20f913e4e16f5f2efa40bea24d43868e3ab1e7"%string.
Proof. vm_compute. reflexivity. Qed.

(** ** Facts about canonical purchase-order lines

    The encoding of an order does not depend on the order in which its lines
    and their taxes are supplied, determines every field of every line, and
    accepts one notation per decimal number. *)

(** *** Sorting *)

Global Instance line_le_total : Total line_le.
Proof. intros a b. unfold line_le. lia. Qed.
Global Instance line_le_trans : Transitive line_le.
Proof. intros a b c. unfold line_le. lia. Qed.

Lemma sort_taxes_perm ts ts' : ts ≡ₚ ts' -> merge_sort Z.le ts = merge_sort Z.le ts'.
Proof.
  intros Hp. apply (Sorted_unique Z.le); [apply Sorted_merge_sort; apply _..|]. by rewrite !merge_sort_Permutation.
Qed.

(** A line with its taxes sorted. *)
Definition sort_line (l : CanonicalPurchaseOrderLine) : CanonicalPurchaseOrderLine :=
  mkLine (LineID l) (Sequence l) (DisplayType l) (ProductID l) (Description l) (UOMID l) (Quantity l)
    (UnitPrice l) (merge_sort Z.le (TaxIDs l)) (PlannedAt l) (LineWriteVersion l).

Section Facts.
Context `{Normalizer}.

Lemma write_sorted_line l : writeCanonicalPurchaseOrderLine (sort_line l) = writeCanonicalPurchaseOrderLine l.
Proof.
  unfold writeCanonicalPurchaseOrderLine, validateCanonicalPurchaseOrderLine, line_payload, sort_line.
  cbn [LineID Sequence DisplayType ProductID UOMID Description Quantity UnitPrice TaxIDs PlannedAt LineWriteVersion].
  by rewrite (sort_taxes_perm (merge_sort Z.le (TaxIDs l)) (TaxIDs l)) by apply merge_sort_Permutation.
Qed.

(** The loop accepts distinct identifiers and writes every line. *)
Lemma write_lines_ok seen ls b :
  write_lines seen ls = Ok b <->
  NoDup (LineID <$> ls) /\ (forall l, l ∈ ls -> LineID l ∉ seen)
  /\ exists bs, Forall2 (fun l b => writeCanonicalPurchaseOrderLine l = Ok b) ls bs /\ b = mjoin bs.
Proof.
  revert seen b. induction ls as [|l ls IH]; intros seen b; csimpl.
  - split; [intros [= <-]; split_and!; [constructor|by intros ? ?%elem_of_nil|by exists []]|].
    intros (_ & _ & bs & Hbs & ->). by inversion Hbs.
  - split.
    + intros Hw. case_bool_decide as Hin; [done|]. destruct (writeCanonicalPurchaseOrderLine l) as [b1|] eqn:E1; [|done].
      destruct (write_lines _ ls) as [r|] eqn:E2; [|done]. injection Hw as <-.
      apply IH in E2 as (Hnd & Hseen & bs & Hbs & ->). split_and!.
      * apply NoDup_cons. split; [|done]. intros (l' & Heq & Hl')%list_elem_of_fmap. apply (Hseen l' Hl'). set_solver.
      * intros l' [->|Hl']%elem_of_cons; [done|]. specialize (Hseen l' Hl'). set_solver.
      * exists (b1 :: bs). split; [by constructor|done].
    + intros ([Hl Hnd]%NoDup_cons & Hseen & bs & Hbs & ->). rewrite bool_decide_false by (apply Hseen; by left).
      apply Forall2_cons_inv_l in Hbs as (b1 & bs' & Hw & Hbs & ->). rewrite Hw. cbn [rbind].
      rewrite (proj2 (IH ({[LineID l]} ∪ seen) (mjoin bs'))); [done|]. split_and!; [done| |by eexists].
      intros l' Hl' [Heq%elem_of_singleton|Hin]%elem_of_union.
      * apply Hl. rewrite <- Heq. by apply list_elem_of_fmap_2.
      * by apply (Hseen l'); [right|].
Qed.

Lemma write_lines_sorted seen ls : write_lines seen (sort_line <$> ls) = write_lines seen ls.
Proof.
  revert seen. induction ls as [|l ls IH]; intros seen; csimpl; [done|]. by rewrite write_sorted_line, IH.
Qed.

Lemma sort_line_sorted ls : Sorted line_le ls -> Sorted line_le (sort_line <$> ls).
Proof.
  induction 1 as [|l ls _ IH Hhd]; csimpl; [constructor|]. constructor; [done|].
  destruct Hhd; csimpl; by constructor.
Qed.

(** Two orders with the same lines sort to the same list, when identifiers are distinct. *)
Lemma sorted_lines_eq ls ls' :
  NoDup (LineID <$> ls) -> sort_line <$> ls ≡ₚ sort_line <$> ls' ->
  sort_line <$> merge_sort line_le ls = sort_line <$> merge_sort line_le ls'.
Proof.
  intros Hnd Hp. apply (Sorted_unique_strong line_le); [| | |].
  - intros x1 x2 Hx1 Hx2 H12 H21. assert (LineID x1 = LineID x2) as Hid by (unfold line_le in *; lia).
    assert (x1 ∈ sort_line <$> ls) as (l1 & -> & Hl1)%list_elem_of_fmap by (by rewrite merge_sort_Permutation in Hx1).
    assert (x2 ∈ sort_line <$> ls) as (l2 & -> & Hl2)%list_elem_of_fmap
      by (by rewrite merge_sort_Permutation, <- Hp in Hx2).
    f_equal. simpl in Hid. apply list_elem_of_lookup in Hl1 as [i Hi], Hl2 as [j Hj].
    assert (i = j) as ->; [|congruence].
    eapply NoDup_lookup; [exact Hnd|by rewrite list_lookup_fmap, Hi|]. rewrite list_lookup_fmap, Hj; simpl; by rewrite Hid.
  - apply sort_line_sorted, Sorted_merge_sort, _.
  - apply sort_line_sorted, Sorted_merge_sort, _.
  - by rewrite !merge_sort_Permutation.
Qed.

Lemma length_sorted_lines ls : length (merge_sort line_le ls) = length ls.
Proof. apply Permutation_length, merge_sort_Permutation. Qed.

Lemma lines_bytes_transfer ls ls' b :
  sort_line <$> ls ≡ₚ sort_line <$> ls' ->
  CanonicalPurchaseOrderLinesBytes ls = Ok b -> CanonicalPurchaseOrderLinesBytes ls' = Ok b.
Proof.
  unfold CanonicalPurchaseOrderLinesBytes. intros Hp Hb.
  assert (length ls = length ls') as Hlen by (apply Permutation_length in Hp; by rewrite !length_fmap in Hp).
  rewrite length_sorted_lines, Hlen in Hb. rewrite length_sorted_lines.
  destruct (max_uint32 <? _); [done|].
  destruct (write_lines ∅ (merge_sort line_le ls)) as [p|] eqn:Ew; [|done].
  rewrite <- (write_lines_sorted ∅ (merge_sort line_le ls')), <- (sorted_lines_eq ls ls'), write_lines_sorted, Ew;
    [done| |done].
  apply write_lines_ok in Ew as (Hnd & _). by rewrite merge_sort_Permutation in Hnd.
Qed.

End Facts.

(** The canonical bytes of an order, and whether it is accepted, do not
    depend on the order of its lines nor on the order of a line's taxes. *)
Theorem lines_order_irrelevant `{Normalizer} (lines lines' : list CanonicalPurchaseOrderLine)
    (Hperm : sort_line <$> lines ≡ₚ sort_line <$> lines') :
  to_option (CanonicalPurchaseOrderLinesBytes lines) = to_option (CanonicalPurchaseOrderLinesBytes lines').
Proof.
  destruct (CanonicalPurchaseOrderLinesBytes lines) as [b|] eqn:E.
  - by rewrite (lines_bytes_transfer lines lines' b).
  - destruct (CanonicalPurchaseOrderLinesBytes lines') as [b'|] eqn:E'; [|done].
    by rewrite (lines_bytes_transfer lines' lines b') in E.
Qed.

(** *** The bytes determine the order *)

(** What the encoding keeps of a line. *)
Definition line_view `{Normalizer} (l : CanonicalPurchaseOrderLine) :=
  (LineID l, Sequence l, DisplayType l, ProductID l, nfc (unix_newlines (Description l)), UOMID l,
   Quantity l, UnitPrice l, merge_sort Z.le (TaxIDs l), PlannedAt l, LineWriteVersion l).

(** The integers are [int64] values, and the lengths the code does not check fit in 32 bits. *)
Definition line_typed (l : CanonicalPurchaseOrderLine) : Prop :=
  is_int64 (LineID l) /\ is_int64 (Sequence l) /\ is_int64 (ProductID l) /\ is_int64 (UOMID l)
  /\ Forall is_int64 (TaxIDs l) /\ Z.of_nat (length (TaxIDs l)) <= max_uint32
  /\ short_string (Quantity l) /\ short_string (UnitPrice l).

Lemma tax_bytes_inj ts ts' (r r' : Bytes) :
  Forall is_int64 ts -> Forall is_int64 ts' -> length ts = length ts' ->
  (ts ≫= writeCanonicalInt64) ++ r = (ts' ≫= writeCanonicalInt64) ++ r' -> ts = ts' /\ r = r'.
Proof.
  intros Hts. revert ts'. induction Hts as [|t ts Ht _ IH]; intros ts' Hts' Hlen; [by destruct ts'|].
  destruct ts' as [|t' ts']; [done|]. apply Forall_cons in Hts' as [Ht' Hts']. rewrite !bind_cons.
  rewrite <- !app_assoc. intros Heq. read_field Heq. injection Hlen as Hlen.
  destruct (IH ts' Hts' Hlen Heq) as [-> ->]. by subst.
Qed.

Lemma sorted_taxes_typed ts : Forall is_int64 ts -> Z.of_nat (length ts) <= max_uint32 ->
  Forall is_int64 (merge_sort Z.le ts) /\ is_uint32 (Z.of_nat (length (merge_sort Z.le ts))).
Proof.
  intros Hts Hlen. split; [by rewrite merge_sort_Permutation|].
  rewrite (Permutation_length (merge_sort_Permutation Z.le ts)). split; [apply Nat2Z.is_nonneg|exact Hlen].
Qed.

Section Injective.
Context `{Normalizer}.

Lemma validateLine_ok l d ts : validateCanonicalPurchaseOrderLine l = Ok (d, ts) ->
  d = nfc (unix_newlines (Description l)) /\ ts = merge_sort Z.le (TaxIDs l)
  /\ short_string (DisplayType l) /\ short_string d /\ short_string (PlannedAt l) /\ short_string (LineWriteVersion l).
Proof.
  unfold validateCanonicalPurchaseOrderLine. intros Hv.
  assert (short_string (DisplayType l)) as Hd.
  { destruct (decide (DisplayType l = "")) as [->|H0]; [done|].
    destruct (decide (DisplayType l = "line_section")) as [->|H1]; [done|].
    destruct (decide (DisplayType l = "line_note")) as [->|H2]; [done|].
    rewrite !bool_decide_false in Hv by done. by destruct (LineID l <=? 0). }
  assert (validateCanonicalTimestamp "line_write_version" (LineWriteVersion l) = Ok tt
    /\ short_string (nfc (unix_newlines (Description l))) /\ short_string (PlannedAt l)
    /\ (nfc (unix_newlines (Description l)), merge_sort Z.le (TaxIDs l)) = (d, ts)) as (Hw & Hn & Hp & [= <- <-]).
  { inv_result; bool_to_prop;
      (destruct (validateCanonicalTimestamp "line_write_version" _) as [[]|]; [|done]);
      (split_and!; [done|done| |congruence]).
    - by match goal with H : PlannedAt l = _ |- _ => rewrite H end.
    - destruct (validateCanonicalTimestamp "planned_at" _) as [[]|] eqn:Ep; [|done].
      by eapply validateCanonicalTimestamp_ok. }
  split_and!; try done. by eapply validateCanonicalTimestamp_ok.
Qed.

Lemma write_line_inj l l' b b' r r' :
  line_typed l -> line_typed l' -> writeCanonicalPurchaseOrderLine l = Ok b ->
  writeCanonicalPurchaseOrderLine l' = Ok b' -> b ++ r = b' ++ r' -> line_view l = line_view l' /\ r = r'.
Proof.
  unfold writeCanonicalPurchaseOrderLine. intros Hl Hl' Hb Hb' Heq.
  destruct (validateCanonicalPurchaseOrderLine l) as [[d ts]|] eqn:Ev; [|done].
  destruct (validateCanonicalPurchaseOrderLine l') as [[d' ts']|] eqn:Ev'; [|done].
  injection Hb as <-. injection Hb' as <-. cbn [fst snd] in Heq.
  apply validateLine_ok in Ev as (Hd & Hts & ? & ? & ? & ?), Ev' as (Hd' & Hts' & ? & ? & ? & ?).
  unfold line_typed in Hl, Hl'. destruct_and!.
  assert (Forall is_int64 ts /\ is_uint32 (Z.of_nat (length ts))) as [? ?].
  { subst ts. by apply sorted_taxes_typed. }
  assert (Forall is_int64 ts' /\ is_uint32 (Z.of_nat (length ts'))) as [? ?].
  { subst ts'. by apply sorted_taxes_typed. }
  unfold line_payload in Heq. rewrite <- !app_assoc in Heq. do 9 read_field Heq.
  apply tax_bytes_inj in Heq as [Hf8 Heq]; [|done|done|lia]. do 2 read_field Heq.
  split; [|done]. unfold line_view. rewrite <- Hd, <- Hd', <- Hts, <- Hts'.
  by rewrite Hf, Hf0, Hf1, Hf2, Hf3, Hf4, Hf5, Hf6, Hf8, Hf9, Hf10.
Qed.

Lemma lines_inj ls ls' bs bs' :
  Forall line_typed ls -> Forall line_typed ls' -> length ls = length ls' ->
  Forall2 (fun l b => writeCanonicalPurchaseOrderLine l = Ok b) ls bs ->
  Forall2 (fun l b => writeCanonicalPurchaseOrderLine l = Ok b) ls' bs' ->
  mjoin bs = mjoin bs' -> line_view <$> ls = line_view <$> ls'.
Proof.
  intros Hty. revert ls' bs bs'. induction Hty as [|l ls Hl _ IH]; intros ls' bs bs' Hty' Hlen Hbs Hbs' Heq;
    [by destruct ls'|]. destruct ls' as [|l' ls']; [done|]. apply Forall_cons in Hty' as [Hl' Hty'].
  apply Forall2_cons_inv_l in Hbs as (b & bs1 & Hb & Hbs & ->).
  apply Forall2_cons_inv_l in Hbs' as (b' & bs1' & Hb' & Hbs' & ->).
  simpl in Heq. apply (write_line_inj l l' b b') in Heq as [Hv Heq]; [|done..]. csimpl. f_equal; [done|].
  injection Hlen as Hlen. by eapply IH.
Qed.

End Injective.

(** The canonical bytes of an order determine its lines, up to their
    order: every field of every line, the description up to normalisation
    and the taxes as a set. *)
Theorem lines_bytes_injective `{Normalizer} (lines lines' : list CanonicalPurchaseOrderLine) (b : Bytes)
    (Hty : Forall line_typed lines) (Hty' : Forall line_typed lines')
    (Hb : CanonicalPurchaseOrderLinesBytes lines = Ok b)
    (Hb' : CanonicalPurchaseOrderLinesBytes lines' = Ok b) :
  line_view <$> lines ≡ₚ line_view <$> lines'.
Proof.
  unfold CanonicalPurchaseOrderLinesBytes in Hb, Hb'. rewrite length_sorted_lines in Hb, Hb'.
  destruct (max_uint32 <? Z.of_nat (length lines)) eqn:E; [done|].
  destruct (max_uint32 <? Z.of_nat (length lines')) eqn:E'; [done|]. bool_to_prop.
  destruct (write_lines ∅ (merge_sort line_le lines)) as [p|] eqn:Ew; [|done].
  destruct (write_lines ∅ (merge_sort line_le lines')) as [p'|] eqn:Ew'; [|done].
  apply Ok_inj in Hb as <-. apply Ok_inj in Hb' as Heq. apply app_inv_head in Heq.
  apply (prefix_free_uint32 (Z.of_nat (length lines')) (Z.of_nat (length lines))) in Heq as [Hlen Heq];
    [|unfold is_uint32; lia..].
  apply write_lines_ok in Ew as (_ & _ & bs & Hbs & ->), Ew' as (_ & _ & bs' & Hbs' & ->).
  rewrite <- (merge_sort_Permutation line_le lines), <- (merge_sort_Permutation line_le lines').
  apply reflexive_eq. eapply lines_inj; [..|symmetry; exact Heq]; try done.
  - by rewrite merge_sort_Permutation.
  - by rewrite merge_sort_Permutation.
  - rewrite !length_sorted_lines. lia.
Qed.

(** *** Witnesses *)

Definition golden_lines' : list CanonicalPurchaseOrderLine :=
  match golden_lines with
  | [a; b] => [b; mkLine (LineID a) (Sequence a) (DisplayType a) (ProductID a) (Description a) (UOMID a)
                    (Quantity a) (UnitPrice a) [3; 9] (PlannedAt a) (LineWriteVersion a)]
  | ls => ls
  end.

Definition golden_line_bytes : Bytes :=
  default [] (to_option (CanonicalPurchaseOrderLinesBytes (H := identity_nfc) golden_lines)).

Lemma lines_order_irrelevant_witness :
  golden_lines <> golden_lines'
  /\ to_option (CanonicalPurchaseOrderLinesBytes (H := identity_nfc) golden_lines)
     = to_option (CanonicalPurchaseOrderLinesBytes (H := identity_nfc) golden_lines').
Proof.
  split; [by vm_compute|]. apply (lines_order_irrelevant (H := identity_nfc) golden_lines golden_lines').
  apply perm_swap.
Defined.

Global Instance line_typed_dec l : Decision (line_typed l).
Proof. unfold line_typed. apply _. Defined.

Lemma lines_bytes_injective_witness :
  line_view (H := identity_nfc) <$> golden_lines ≡ₚ line_view (H := identity_nfc) <$> golden_lines'.
Proof.
  apply (lines_bytes_injective (H := identity_nfc) golden_lines golden_lines' golden_line_bytes);
    [ apply (bool_decide_unpack (Forall line_typed golden_lines)); vm_compute; exact I
    | apply (bool_decide_unpack (Forall line_typed golden_lines')); vm_compute; exact I
    | vm_compute; reflexivity | vm_compute; reflexivity ].
Defined.
