(* ===== verification/DecimalFacts.v ===== *)
(** * Canonical decimals

    The pattern of [canonicalDecimalPattern] with the exclusion of [-0] leaves
    one notation per number, so that equal quantities and prices of an order
    have equal bytes. *)

From S2P Require Import Prelude GoStr GoTime GoCrypto Canonical PoLines.
From stdpp Require Import options.
Local Open Scope Z_scope.

(** ** Reading a decimal *)

Definition decimal_negative (s : string) : bool := has_prefix s "-".
Definition decimal_unsigned (s : string) : Bytes :=
  match go_bytes s with 45 :: bs => bs | bs => bs end.
Definition decimal_integer (s : string) : Bytes := (span_digits (decimal_unsigned s)).1.
Definition decimal_fraction (s : string) : Bytes := tail (span_digits (decimal_unsigned s)).2.

(** The value of decimal digits. *)
Definition digits (l : Bytes) : Z := foldl (fun a b => a * 10 + (b - 48)) 0 l.

(** The number is the mantissa over ten to the scale. *)
Definition decimal_scale (s : string) : Z := Z.of_nat (length (decimal_fraction s)).
Definition decimal_mantissa (s : string) : Z :=
  let m := digits (decimal_integer s ++ decimal_fraction s) in
  if decimal_negative s then - m else m.

(** ** Digits *)

Definition all_digits (l : Bytes) : Prop := Forall (fun b => is_digit_byte b = true) l.

Lemma digits_snoc l b : digits (l ++ [b]) = digits l * 10 + (b - 48).
Proof. unfold digits. by rewrite foldl_snoc. Qed.

Lemma digits_range l : all_digits l -> 0 <= digits l < 10 ^ Z.of_nat (length l).
Proof.
  induction l as [|b l IH] using rev_ind; [done|]. unfold all_digits. rewrite Forall_app, Forall_singleton.
  intros [Hl Hb]. apply IH in Hl. rewrite digits_snoc, length_app, Nat2Z.inj_add, Z.pow_add_r by lia. simpl.
  unfold is_digit_byte in Hb. bool_to_prop. lia.
Qed.

Lemma digits_app l l' : digits (l ++ l') = digits l * 10 ^ Z.of_nat (length l') + digits l'.
Proof.
  induction l' as [|b l' IH] using rev_ind; [rewrite app_nil_r; simpl; change (digits []) with 0; lia|].
  rewrite app_assoc, !digits_snoc, IH, length_app, Nat2Z.inj_add, Z.pow_add_r by lia. simpl. lia.
Qed.

Lemma digits_inj l l' : all_digits l -> all_digits l' -> length l = length l' -> digits l = digits l' -> l = l'.
Proof.
  revert l'. induction l as [|b l IH] using rev_ind; intros l' Hl Hl' Hlen Heq; [by destruct l'|].
  destruct l' as [|b' l' _] using rev_ind; [rewrite length_app in Hlen; simpl in Hlen; lia|].
  unfold all_digits in Hl, Hl'. rewrite Forall_app, Forall_singleton in Hl, Hl'.
  destruct Hl as [Hl Hb], Hl' as [Hl' Hb']. rewrite !length_app in Hlen. rewrite !digits_snoc in Heq.
  unfold is_digit_byte in Hb, Hb'. bool_to_prop.
  assert (digits l = digits l' /\ b = b') as [Hd ->] by lia.
  f_equal. apply IH; [done|done|simpl in Hlen; lia|done].
Qed.

(** An integer part: one zero, or no leading zero. *)
Definition integer_part (l : Bytes) : Prop :=
  all_digits l /\ (l = [48] \/ exists b l', l = b :: l' /\ nonzero_digit b = true).

Lemma integer_part_inj l l' : integer_part l -> integer_part l' -> digits l = digits l' -> l = l'.
Proof.
  assert (forall b l, nonzero_digit b = true -> all_digits (b :: l) ->
    10 ^ Z.of_nat (length l) <= digits (b :: l) < 10 * 10 ^ Z.of_nat (length l)) as Hpos.
  { intros b k Hb [Hd Hk]%Forall_cons. change (b :: k) with ([b] ++ k). rewrite digits_app.
    pose proof (digits_range k Hk). unfold nonzero_digit in Hb. bool_to_prop.
    change (digits [b]) with (0 * 10 + (b - 48)). nia. }
  intros [Hl Hcl] [Hl' Hcl'] Heq. apply digits_inj; [done|done| |done].
  destruct Hcl as [->|(b & k & -> & Hb)], Hcl' as [->|(b' & k' & -> & Hb')]; [done|..];
    repeat match goal with
    | Hb : nonzero_digit ?b = true, Hl : all_digits (?b :: ?k) |- _ => pose proof (Hpos b k Hb Hl); clear Hb
    end; change (digits [48]) with 0 in *.
  - pose proof (Z.pow_pos_nonneg 10 (Z.of_nat (length k'))). lia.
  - pose proof (Z.pow_pos_nonneg 10 (Z.of_nat (length k))). lia.
  - simpl. f_equal. destruct (lt_eq_lt_dec (length k) (length k')) as [[Hlt|?]|Hlt]; [|done|].
    + pose proof (Z.pow_le_mono_r 10 (Z.of_nat (length k) + 1) (Z.of_nat (length k')) ltac:(lia) ltac:(lia)) as Hp.
      rewrite Z.pow_add_r in Hp by lia. lia.
    + pose proof (Z.pow_le_mono_r 10 (Z.of_nat (length k') + 1) (Z.of_nat (length k)) ltac:(lia) ltac:(lia)) as Hp.
      rewrite Z.pow_add_r in Hp by lia. lia.
Qed.

(** A fraction: empty, or ending in a digit that is not zero. *)
Definition fraction_part (l : Bytes) : Prop :=
  all_digits l /\ (l = [] \/ exists l' b, l = l' ++ [b] /\ nonzero_digit b = true).

Lemma fraction_digits_part l : fraction_digits l = true -> fraction_part l /\ l <> [].
Proof.
  induction l as [|b l IH]; [done|]. intros Hf. split; [|done]. destruct l as [|b' l].
  - simpl in Hf. split; [|right; by exists [], b]. constructor; [|constructor].
    unfold nonzero_digit in Hf. unfold is_digit_byte. bool_to_prop. lia.
  - apply andb_true_iff in Hf as [Hb Hf]. destruct (IH Hf) as [[Hl [|(k & c & Hk & Hc)]] _]; [done|].
    split; [by apply Forall_cons|]. right. exists (b :: k), c. by rewrite Hk.
Qed.

(** A fraction keeps the mantissa from being a multiple of ten. *)
Lemma mantissa_last i f : fraction_part f -> f <> [] -> digits (i ++ f) mod 10 <> 0.
Proof.
  intros [_ [->|(l & b & -> & Hb)]] Hne; [done|]. rewrite app_assoc, digits_snoc.
  unfold nonzero_digit in Hb. bool_to_prop. rewrite Z.add_comm, Z.mod_add, Z.mod_small by lia. lia.
Qed.

(** ** What the pattern accepts *)

Lemma span_digits_spec bs i r : span_digits bs = (i, r) ->
  bs = i ++ r /\ all_digits i /\ match r with [] => True | b :: _ => is_digit_byte b = false end.
Proof.
  revert i r. induction bs as [|b bs IH]; intros i r; simpl; [by intros [= <- <-]; split_and!; [|constructor|]|].
  destruct (is_digit_byte b) eqn:Hb.
  - destruct (span_digits bs) as [i' r']. intros [= <- <-]. destruct (IH i' r' eq_refl) as (-> & Hi & Hr).
    split_and!; [done|by constructor|done].
  - intros [= <- <-]. split_and!; [done|constructor|done].
Qed.

Lemma decimal_rest_spec r : decimal_rest r = true ->
  fraction_part (tail r) /\ (tail r = [] -> r = []).
Proof.
  destruct r as [|c f]; simpl; [by split; [split; [constructor|left]|]|].
  intros [Hc Hf]%andb_true_iff. apply fraction_digits_part in Hf as [Hf Hne]. by split.
Qed.

Lemma integer_digits_spec bs : integer_digits bs = true -> decimal_rest (span_digits bs).2 = true.
Proof.
  induction bs as [|b bs IH]; simpl; [done|]. destruct (is_digit_byte b); [|done].
  intros Hi. apply IH in Hi. by destruct (span_digits bs).
Qed.

Lemma unsigned_decimal_spec bs : unsigned_decimal bs = true ->
  integer_part (span_digits bs).1 /\ decimal_rest (span_digits bs).2 = true.
Proof.
  destruct bs as [|b bs]; [done|]. simpl. case_match eqn:Eb; bool_to_prop.
  - subst b. simpl. intros Hr. destruct (span_digits bs) as [i r] eqn:Es. simpl.
    apply span_digits_spec in Es as (-> & Hi & _). destruct i as [|c i].
    + split; [|done]. split; [by constructor|by left].
    + simpl in Hr. apply andb_true_iff in Hr as [Hc _]. apply Forall_cons in Hi as [Hi _].
      unfold is_digit_byte in Hi. bool_to_prop. lia.
  - intros [Hb Hi]%andb_true_iff. apply integer_digits_spec in Hi.
    assert (is_digit_byte b = true) as Hd by (unfold nonzero_digit, is_digit_byte in *; bool_to_prop; lia).
    rewrite Hd. destruct (span_digits bs) as [i r] eqn:Es. apply span_digits_spec in Es as (_ & Hd' & _). simpl in *.
    split; [|done]. split; [by constructor|right; by exists b, i].
Qed.

Lemma decimal_pattern_unsigned s : canonicalDecimalPattern s = unsigned_decimal (decimal_unsigned s).
Proof. unfold canonicalDecimalPattern, decimal_unsigned. by repeat case_match. Qed.

Lemma not_minus b (l : Bytes) : b <> 45 -> b :: l = match b :: l with 45 :: bs => bs | bs => bs end.
Proof. intros Hb. destruct b as [|p|p]; [done| |done]. by do 6 (destruct p as [p|p|]; [..|done]). Qed.

Lemma prefix_minus a s : String.prefix "-" (String.String a s) = bool_decide (byte_of a = 45).
Proof.
  transitivity (if Ascii.ascii_dec "-" a then true else false); [by destruct s|].
  destruct (Ascii.ascii_dec "-" a) as [<-|Hne]; [done|]. rewrite bool_decide_false; [done|].
  intros Hb. apply Hne. by rewrite <- (ascii_of_byte_of a), Hb.
Qed.

Lemma decimal_sign s :
  go_bytes s = (if decimal_negative s then [45] else []) ++ decimal_unsigned s.
Proof.
  unfold decimal_unsigned, decimal_negative, has_prefix. destruct s as [|a s]; [done|].
  rewrite prefix_minus. change (go_bytes (String.String a s)) with (byte_of a :: go_bytes s).
  case_bool_decide as Hb; [by rewrite Hb|]. by apply not_minus.
Qed.

(** An accepted decimal has the two parts, and is determined by them and its sign. *)
Lemma decimal_spec f s : validateCanonicalDecimal f s = Ok tt ->
  integer_part (decimal_integer s) /\ fraction_part (decimal_fraction s)
  /\ decimal_unsigned s = decimal_integer s ++ (if bool_decide (decimal_fraction s = []) then [] else 46 :: decimal_fraction s)
  /\ (decimal_negative s = true -> decimal_mantissa s <> 0).
Proof.
  unfold validateCanonicalDecimal. intros H. inv_result. apply orb_false_iff in E as [Ep%negb_false_iff Ez].
  rewrite decimal_pattern_unsigned in Ep. apply unsigned_decimal_spec in Ep as [Hi Hr].
  pose proof (decimal_rest_spec _ Hr) as [Hf Hnil]. pose proof (decimal_sign s) as Hs.
  assert (decimal_unsigned s = decimal_integer s ++ (if bool_decide (decimal_fraction s = []) then [] else 46 :: decimal_fraction s)) as Hu.
  { unfold decimal_integer, decimal_fraction in *. destruct (span_digits (decimal_unsigned s)) as [i r] eqn:Es.
    apply span_digits_spec in Es as (-> & _ & _). simpl in *. f_equal.
    destruct (decide (tail r = [])) as [Hn|Hn]; [rewrite bool_decide_true by done; by apply Hnil|].
    rewrite bool_decide_false by done. destruct r as [|c r]; [done|].
    apply andb_true_iff in Hr as [->%Z.eqb_eq _]. done. }
  split_and!; [done..|]. intros Hneg. unfold decimal_mantissa. rewrite Hneg. intros Hz.
  destruct (decide (decimal_fraction s = [])) as [Hn|Hn].
  - rewrite Hn, app_nil_r in Hz. rewrite Hn, bool_decide_true, app_nil_r in Hu by done.
    assert (decimal_integer s = [48]) as H48.
    { apply integer_part_inj; [done|split; [by constructor|by left]|]. change (digits [48]) with 0. lia. }
    rewrite Hneg, Hu, H48 in Hs. apply bool_decide_eq_false in Ez. apply Ez. by apply go_bytes_inj.
  - pose proof (mantissa_last (decimal_integer s) (decimal_fraction s) Hf Hn) as Hl.
    replace (digits (decimal_integer s ++ decimal_fraction s)) with 0 in Hl by lia. done.
Qed.

Lemma mantissa_mod s : fraction_part (decimal_fraction s) -> decimal_fraction s <> [] -> decimal_mantissa s mod 10 <> 0.
Proof.
  intros Hf Hn. pose proof (mantissa_last (decimal_integer s) _ Hf Hn) as Hl. unfold decimal_mantissa.
  destruct (decimal_negative s); [|done]. intros Hz. apply Hl. apply Z.mod_opp_l_z in Hz; [|lia].
  by rewrite Z.opp_involutive in Hz.
Qed.

(** The scale of a canonical decimal is the least that holds its value. *)
Lemma scale_le a b :
  fraction_part (decimal_fraction b) ->
  decimal_mantissa a * 10 ^ decimal_scale b = decimal_mantissa b * 10 ^ decimal_scale a ->
  decimal_scale b <= decimal_scale a.
Proof.
  intros Hb Heq. destruct (Z.le_gt_cases (decimal_scale b) (decimal_scale a)) as [|Hgt]; [done|]. exfalso.
  assert (0 <= decimal_scale a) by (unfold decimal_scale; lia).
  assert (decimal_mantissa b = decimal_mantissa a * 10 ^ (decimal_scale b - decimal_scale a - 1) * 10) as Hm.
  { replace (decimal_scale b) with (decimal_scale a + (1 + (decimal_scale b - decimal_scale a - 1))) in Heq at 1 by lia.
    rewrite !Z.pow_add_r in Heq by lia. pose proof (Z.pow_pos_nonneg 10 (decimal_scale a)). nia. }
  apply (mantissa_mod b Hb).
  - intros Hn. unfold decimal_scale in Hgt at 2. rewrite Hn in Hgt. simpl in Hgt. unfold decimal_scale in *. lia.
  - rewrite Hm. apply Z.mod_mul. lia.
Qed.

(** Accepted decimals are canonical: two accepted strings that denote the
    same number are the same string. *)
Theorem canonical_decimal_unique (fa fb a b : string)
    (Ha : validateCanonicalDecimal fa a = Ok tt) (Hb : validateCanonicalDecimal fb b = Ok tt)
    (Heq : decimal_mantissa a * 10 ^ decimal_scale b = decimal_mantissa b * 10 ^ decimal_scale a) : a = b.
Proof.
  apply decimal_spec in Ha as (Hia & Hfa & Hua & Hna), Hb as (Hib & Hfb & Hub & Hnb).
  assert (decimal_scale a = decimal_scale b) as Hs by (apply Z.le_antisymm; by apply scale_le).
  rewrite Hs in Heq. apply Z.mul_reg_r in Heq; [|by apply Z.pow_nonzero; unfold decimal_scale; lia].
  pose proof (digits_range (decimal_integer a ++ decimal_fraction a)) as Hra.
  pose proof (digits_range (decimal_integer b ++ decimal_fraction b)) as Hrb.
  destruct Hra as [Hra _]; [by apply Forall_app; split; [apply Hia|apply Hfa]|].
  destruct Hrb as [Hrb _]; [by apply Forall_app; split; [apply Hib|apply Hfb]|].
  assert (decimal_negative a = decimal_negative b
    /\ digits (decimal_integer a ++ decimal_fraction a) = digits (decimal_integer b ++ decimal_fraction b)) as [Hneg Hd].
  { unfold decimal_mantissa in *. destruct (decimal_negative a), (decimal_negative b); (split; [try done|]);
      (lia || (specialize (Hna eq_refl) || specialize (Hnb eq_refl); lia)). }
  unfold decimal_scale in Hs. apply Nat2Z.inj in Hs. rewrite !digits_app, Hs in Hd.
  pose proof (digits_range _ (proj1 Hfa)) as Hrfa. pose proof (digits_range _ (proj1 Hfb)) as Hrfb.
  rewrite Hs in Hrfa.
  assert (digits (decimal_integer a) = digits (decimal_integer b)
    /\ digits (decimal_fraction a) = digits (decimal_fraction b)) as [Hdi Hdf].
  { apply (Z.div_mod_unique (10 ^ Z.of_nat (length (decimal_fraction b)))); [by left|by left|lia]. }
  apply integer_part_inj in Hdi; [|done..]. apply digits_inj in Hdf; [|apply Hfa|apply Hfb|done].
  apply go_bytes_inj. by rewrite (decimal_sign a), (decimal_sign b), Hneg, Hua, Hub, Hdi, Hdf.
Qed.

Lemma canonical_decimal_unique_witness :
  validateCanonicalDecimal "quantity" "-12.05" = Ok tt /\ "-12.05"%string = of_bytes (go_bytes "-12.05").
Proof.
  split; [reflexivity|]. apply (canonical_decimal_unique "quantity" "unit_price"); reflexivity.
Defined.
