(* ===== verification/Delegation.v ===== *)
(** * Delegation proofs ([internal/security/delegation.go],
    [delegation_proof.go], [delegation_proof_v2.go])

    A time is its nanoseconds since the Unix epoch.  The methods' tests for a
    nil manager are not modelled.  The revocation list is in [Revocation]. *)

From S2P Require Import Prelude GoStr GoTime GoCrypto Canonical Intent.
From stdpp Require Import options.
Local Open Scope Z_scope.

(** ** Times *)

Definition nanosecond : Z := 1000000000.
Definition time_unix (t : Z) : Z := t / nanosecond.
Definition time_unix_nano (t : Z) : Z := to_int64 t.

Definition DelegationProofVersion : string := "v1"%string.
Definition MaxDelegationTTL : Z := 24 * 3600 * nanosecond.
Definition delegationClockSkew : Z := 30 * nanosecond.
Definition DelegationProofV2Version : string := "v2"%string.
Definition delegationProofV2Domain : string := "PDP-DELEGATION-PROOF-V2"%string.
Definition delegationProofDomain : string := "PDP-DELEGATION-PROOF"%string.
Definition DefaultMasterSecret : string := "pdp_master_secret_key_32bytes!"%string.

(** ** The manager and its key ring *)

Record revocationRecord := mkRevocation { revokedAt : Z; expiresAt : Z }.
Global Instance revocationRecord_eq_dec : EqDecision revocationRecord.
Proof. solve_decision. Defined.

Record DelegationManager := mkManager {
  activeKeyID : string;
  signingKeys : gmap string string;
  revocationTTL : Z;
  revocationMap : gmap (string * string) revocationRecord;
  revocationReady : bool
}.

Definition key_rune (r : Z) : bool :=
  ((97 <=? r) && (r <=? 122)) || ((65 <=? r) && (r <=? 90)) || ((48 <=? r) && (r <=? 57))
  || (r =? 45) || (r =? 95).
Definition validDelegationKeyID (keyID : string) : bool :=
  if (go_len keyID =? 0) || (64 <? go_len keyID) then false else forallb key_rune (runes_of keyID).

Definition NewDelegationManagerWithSecret (secret : string) : DelegationManager :=
  mkManager "legacy" {["legacy"%string := secret]} MaxDelegationTTL ∅ true.

(** [env] is the value of [PDP_SHARED_SECRET]. *)
Definition NewDelegationManager (env : string) : DelegationManager :=
  NewDelegationManagerWithSecret (if bool_decide (env = ""%string) then DefaultMasterSecret else env).

Inductive KeyringError := BadActiveKey | EmptyRing | BadRingKey | ActiveKeyMissing.

(** The entry named by [BadRingKey] is the first bad one the iteration meets. *)
Definition ring_entry_ok (keyID secret : string) : Prop :=
  validDelegationKeyID keyID = true /\ trim_space secret <> ""%string.
Global Instance ring_entry_ok_dec k s : Decision (ring_entry_ok k s).
Proof. unfold ring_entry_ok. apply _. Defined.

Definition NewDelegationManagerWithKeyring (active : string) (keys : gmap string string) :
    result KeyringError DelegationManager :=
  guard? negb (validDelegationKeyID active) else BadActiveKey;
  guard? bool_decide (keys = ∅) else EmptyRing;
  guard? negb (bool_decide (map_Forall ring_entry_ok keys)) else BadRingKey;
  guard? negb (bool_decide (is_Some (keys !! active))) else ActiveKeyMissing;
  Ok (mkManager active keys MaxDelegationTTL ∅ true).

(** ** V1 proofs *)

Record DelegationProofInput := mkProofInput {
  pi_TenantID : string;
  pi_GrantID : string;
  pi_Delegator : string;
  pi_Agent : string;
  pi_Action : string;
  pi_Resource : string;
  pi_Amount : string;
  pi_DelegationChain : string;
  pi_CreatorID : string;
  pi_ToolContext : string;
  pi_ExecutionMode : string;
  pi_Nonce : string;
  pi_IssuedAt : Z;
  pi_ValidUntil : Z
}.

Inductive ProofError :=
| MissingField | BadWindow | TTLExceeded | BadChain | BadIntent (e : IntentError)
| NotActiveYet | Expired
| SignerNotConfigured | VerifierNotConfigured | UnsupportedProof | UnknownKey
| MalformedSignature | SignatureMismatch.

Definition required_fields (i : DelegationProofInput) : list string :=
  [pi_TenantID i; pi_GrantID i; pi_Delegator i; pi_Agent i; pi_Action i; pi_Resource i;
   pi_DelegationChain i; pi_Nonce i].

(** The product with [time.Second] is an [int64] and wraps. *)
Definition validateStructure (i : DelegationProofInput) : result ProofError unit :=
  guard? existsb (fun v => bool_decide (trim_space v = ""%string)) (required_fields i) else MissingField;
  guard? (pi_IssuedAt i <=? 0) || (pi_ValidUntil i <=? 0) || (pi_ValidUntil i <=? pi_IssuedAt i) else BadWindow;
  guard? MaxDelegationTTL <? to_int64 (to_int64 (pi_ValidUntil i - pi_IssuedAt i) * nanosecond) else TTLExceeded;
  match split (pi_DelegationChain i) "," with
  | [d; a] =>
      guard? negb (bool_decide (d = pi_Delegator i)) || negb (bool_decide (a = pi_Agent i)) else BadChain;
      Ok tt
  | _ => Err BadChain
  end.

(** The window test of both versions. *)
Definition check_window (now issuedAt validUntil : Z) : result ProofError unit :=
  guard? time_unix (now + delegationClockSkew) <? issuedAt else NotActiveYet;
  guard? validUntil <? time_unix now else Expired;
  Ok tt.

Definition validateAt (now : Z) (i : DelegationProofInput) : result ProofError unit :=
  let? _ := validateStructure i in check_window now (pi_IssuedAt i) (pi_ValidUntil i).

(** [writeCanonicalField] writes what [writeCanonicalString] writes. *)
Definition canonicalBytes (i : DelegationProofInput) (keyID : string) : Bytes :=
  go_bytes delegationProofDomain
  ++ writeCanonicalString DelegationProofVersion ++ writeCanonicalString keyID
  ++ writeCanonicalString (pi_TenantID i) ++ writeCanonicalString (pi_GrantID i)
  ++ writeCanonicalString (pi_Delegator i) ++ writeCanonicalString (pi_Agent i)
  ++ writeCanonicalString (pi_Action i) ++ writeCanonicalString (pi_Resource i)
  ++ writeCanonicalString (pi_Amount i) ++ writeCanonicalString (pi_DelegationChain i)
  ++ writeCanonicalString (pi_CreatorID i) ++ writeCanonicalString (pi_ToolContext i)
  ++ writeCanonicalString (pi_ExecutionMode i) ++ writeCanonicalString (pi_Nonce i)
  ++ writeCanonicalInt64 (pi_IssuedAt i) ++ writeCanonicalInt64 (pi_ValidUntil i).

(** [version + "." + keyID + "." + hex.EncodeToString(mac)]. *)
Definition proof_string (version keyID : string) (mac : Bytes) : string :=
  version +:+ "." +:+ keyID +:+ "." +:+ hex_encode mac.

(** The key of the signer, [m.signingKeys[m.activeKeyID]]. *)
Definition active_secret (m : DelegationManager) : result ProofError string :=
  guard? negb (validDelegationKeyID (activeKeyID m)) else SignerNotConfigured;
  let secret := default ""%string (signingKeys m !! activeKeyID m) in
  guard? bool_decide (secret = ""%string) else SignerNotConfigured;
  Ok secret.

Definition GenerateProof (m : DelegationManager) (i : DelegationProofInput) : result ProofError string :=
  let? secret := active_secret m in
  let? _ := validateStructure i in
  Ok (proof_string DelegationProofVersion (activeKeyID m)
        (hmac_sha256 (go_bytes secret) (canonicalBytes i (activeKeyID m)))).

(** The three parts of a proof of this version, with the secret of its key. *)
Definition open_proof (m : DelegationManager) (version proof : string) : result ProofError (string * string * string) :=
  match split proof "." with
  | [v; keyID; signature] =>
      guard? negb (bool_decide (v = version)) || negb (validDelegationKeyID keyID) else UnsupportedProof;
      match signingKeys m !! keyID with
      | None => Err UnknownKey
      | Some secret => guard? bool_decide (secret = ""%string) else UnknownKey; Ok (keyID, secret, signature)
      end
  | _ => Err UnsupportedProof
  end.

Definition VerifyProof (now : Z) (m : DelegationManager) (i : DelegationProofInput) (proof : string) :
    result ProofError unit :=
  guard? bool_decide (signingKeys m = ∅) else VerifierNotConfigured;
  let? _ := validateAt now i in
  let? (keyID, secret, signature) := open_proof m DelegationProofVersion proof in
  match hex_decode signature with
  | None => Err MalformedSignature
  | Some provided =>
      guard? negb (bool_decide (hmac_sha256 (go_bytes secret) (canonicalBytes i keyID) = provided))
        else SignatureMismatch;
      Ok tt
  end.

(** ** V2 proofs *)

Record DelegationProofV2Input := mkProofV2 { v2_Intent : CanonicalBusinessIntent; v2_IssuedAt : Z; v2_ValidUntil : Z }.

Definition validateStructureV2 (i : DelegationProofV2Input) : result ProofError unit :=
  match Validate (v2_Intent i) with
  | Err e => Err (BadIntent e)
  | Ok _ =>
      guard? (v2_IssuedAt i <=? 0) || (v2_ValidUntil i <=? v2_IssuedAt i) else BadWindow;
      guard? MaxDelegationTTL / nanosecond <? to_int64 (v2_ValidUntil i - v2_IssuedAt i) else TTLExceeded;
      Ok tt
  end.

Definition validateAtV2 (now : Z) (i : DelegationProofV2Input) : result ProofError unit :=
  let? _ := validateStructureV2 i in check_window now (v2_IssuedAt i) (v2_ValidUntil i).

Definition proof_payload (i : DelegationProofV2Input) (keyID : string) (intentHash : Bytes) : Bytes :=
  go_bytes delegationProofV2Domain
  ++ writeCanonicalString DelegationProofV2Version ++ writeCanonicalString keyID
  ++ intentHash ++ writeCanonicalInt64 (DelegationGrantID (v2_Intent i))
  ++ writeCanonicalString (AgentSubject (v2_Intent i))
  ++ writeCanonicalInt64 (v2_IssuedAt i) ++ writeCanonicalInt64 (v2_ValidUntil i).

Definition canonicalBytesV2 (i : DelegationProofV2Input) (keyID : string) : result ProofError Bytes :=
  let? _ := validateStructureV2 i in
  match IntentHash (v2_Intent i) with
  | Err e => Err (BadIntent e)
  | Ok intentHash => Ok (proof_payload i keyID intentHash)
  end.

Definition GenerateProofV2 (m : DelegationManager) (i : DelegationProofV2Input) : result ProofError string :=
  let? secret := active_secret m in
  let? payload := canonicalBytesV2 i (activeKeyID m) in
  Ok (proof_string DelegationProofV2Version (activeKeyID m) (hmac_sha256 (go_bytes secret) payload)).

Definition VerifyProofV2 (now : Z) (m : DelegationManager) (i : DelegationProofV2Input) (proof : string) :
    result ProofError unit :=
  guard? bool_decide (signingKeys m = ∅) else VerifierNotConfigured;
  let? _ := validateAtV2 now i in
  let? (keyID, secret, signature) := open_proof m DelegationProofV2Version proof in
  guard? negb (go_len signature =? Z.of_nat sha256_size * 2)
         || negb (bool_decide (signature = to_lower_ascii signature)) else MalformedSignature;
  match hex_decode signature with
  | None => Err MalformedSignature
  | Some provided =>
      let? payload := canonicalBytesV2 i keyID in
      guard? negb (bool_decide (hmac_sha256 (go_bytes secret) payload = provided)) else SignatureMismatch;
      Ok tt
  end.

(** The vector shared with the Python implementation. *)
Definition golden_manager : DelegationManager :=
  mkManager "key-2026-09" {["key-2026-09"%string := "test-delegation-secret-at-least-32-characters"%string]} MaxDelegationTTL ∅ true.
Definition golden_input : DelegationProofV2Input := mkProofV2 golden_intent 1800000000 1800003600.
Example golden_proof :
  GenerateProofV2 golden_manager golden_input
  = Ok "v2.key-2026-09.a9d2469b65f88d64827299fee36c8bcbfb105c35d519a9d1d3f5dec586e65f3a"%string.
Proof. vm_compute. reflexivity. Qed.
Definition compat_input : DelegationProofInput :=
  mkProofInput "tenant-a" "grant-42" "user:bob" "agent:procurement_copilot" "action:APPROVE_PURCHASE_ORDER" "purchase_order:17"
    "2001" "user:bob,agent:procurement_copilot" "user:alice" "tool:auto_confirm_po" "autonomous_run" "nonce-0001"
    1800000000 1800003600.
Example compat_proof :
  GenerateProof golden_manager compat_input
  = Ok "v1.key-2026-09.c16450b09b9988d55e77d57915b055358e21e057e45ffe2d5474ac940a92faf3"%string.
Proof. vm_compute. reflexivity. Qed.
