(* ===== verification/DelegationFacts.v ===== *)
(** * Facts about delegation proofs

    Verification accepts exactly the strings that signing produces, within the
    validity window; what is signed determines the whole tuple; proofs live at
    most the TTL, except that the V1 TTL test overflows. *)

From S2P Require Import Prelude GoStr GoTime GoCrypto Canonical Intent Delegation.
From stdpp Require Import options.
Local Open Scope Z_scope.

(** ** The text of a proof *)

Definition dot : ascii := ".".

Lemma valid_key_no_dot kid : validDelegationKeyID kid = true -> dot ∉ chars kid /\ short_string kid.
Proof.
  unfold validDelegationKeyID. intros Hk. destruct (_ || _) eqn:El; [done|]. bool_to_prop.
  apply Is_true_true in Hk. rewrite forallb_True in Hk.
  assert (Forall (fun r => 0 <= r < 128 /\ r <> 46) (runes_of kid)) as Hr.
  { eapply Forall_impl; [exact Hk|]. intros r Hr%Is_true_true. unfold key_rune in Hr.
    rewrite !orb_true_iff, !andb_true_iff in Hr. lia. }
  split; [|unfold short_string, max_uint32; lia].
  apply not_elem_chars. rewrite ascii_runes_bytes by (eapply Forall_impl; [exact Hr|]; by intros ? []).
  intros Hin. rewrite Forall_forall in Hr. by apply Hr in Hin as [_ ?].
Qed.

Lemma hex_no_dot bs : Forall is_byte bs -> dot ∉ chars (hex_encode bs).
Proof.
  intros Hbs. apply not_elem_chars. unfold hex_encode. rewrite go_bytes_of_bytes by by apply hex_encode_is_byte.
  intros (b & Hin & Hb)%list_elem_of_bind. rewrite Forall_forall in Hbs. apply Hbs in Hb.
  pose proof (byte_cases (fun b => negb (bool_decide (46 ∈ [hex_char (b / 16); hex_char (b mod 16)])))
    ltac:(by vm_compute) b Hb) as Hc.
  apply negb_true_iff, bool_decide_eq_false in Hc. done.
Qed.

Lemma v1_no_dot : dot ∉ chars DelegationProofVersion.
Proof. by apply (bool_decide_unpack (dot ∉ chars DelegationProofVersion)). Qed.
Lemma v2_no_dot : dot ∉ chars DelegationProofV2Version.
Proof. by apply (bool_decide_unpack (dot ∉ chars DelegationProofV2Version)). Qed.

Lemma proof_string_eq v kid mac :
  proof_string v kid mac = v +:+ char_string dot +:+ kid +:+ char_string dot +:+ hex_encode mac.
Proof. reflexivity. Qed.

Lemma open_proof_string m v kid secret sig :
  dot ∉ chars v -> dot ∉ chars sig -> validDelegationKeyID kid = true ->
  signingKeys m !! kid = Some secret -> secret <> ""%string ->
  open_proof m v (v +:+ char_string dot +:+ kid +:+ char_string dot +:+ sig) = Ok (kid, secret, sig).
Proof.
  intros Hv Hsig Hk Hm Hs. unfold open_proof. change ("."%char) with dot.
  rewrite split_three by (try done; by apply valid_key_no_dot).
  rewrite bool_decide_true, Hk, Hm by done. simpl. by rewrite bool_decide_false.
Qed.

Lemma open_proof_ok m v proof kid secret sig : open_proof m v proof = Ok (kid, secret, sig) ->
  validDelegationKeyID kid = true /\ signingKeys m !! kid = Some secret /\ secret <> ""%string
  /\ proof = v +:+ char_string dot +:+ kid +:+ char_string dot +:+ sig.
Proof.
  unfold open_proof. intros H. destruct (split proof ".") as [|p0 [|p1 [|p2 [|]]]] eqn:Es; try done.
  apply split_three_inv in Es. inv_result. bool_to_prop. by subst.
Qed.

Lemma active_secret_ok m secret : active_secret m = Ok secret <->
  validDelegationKeyID (activeKeyID m) = true /\ signingKeys m !! activeKeyID m = Some secret /\ secret <> ""%string.
Proof.
  unfold active_secret. split.
  - intros H. inv_result. bool_to_prop. destruct (signingKeys m !! activeKeyID m); simpl in *; [|done]. done.
  - intros (-> & -> & Hs). simpl. by rewrite bool_decide_false.
Qed.

Lemma check_window_ok now ia vu : check_window now ia vu = Ok tt <->
  ia <= time_unix (now + delegationClockSkew) /\ time_unix now <= vu.
Proof. unfold check_window. repeat case_match; bool_to_prop; split; intros ?; try done; lia. Qed.

Lemma ring_nonempty m kid secret : signingKeys m !! kid = Some secret -> bool_decide (signingKeys m = ∅) = false.
Proof. intros Hk. apply bool_decide_eq_false. intros He. by rewrite He in Hk. Qed.

(** ** V2 *)

Lemma canonicalBytesV2_ok i kid p : canonicalBytesV2 i kid = Ok p <->
  validateStructureV2 i = Ok tt /\ exists b, CanonicalBytes (v2_Intent i) = Ok b /\ p = proof_payload i kid (sha256 b).
Proof.
  unfold canonicalBytesV2, IntentHash. destruct (validateStructureV2 i) as [[]|]; cbn [rbind]; [|by split; [|intros []]].
  destruct (CanonicalBytes (v2_Intent i)) as [b|]; cbn [rbind]; split.
  - intros [= <-]. eauto.
  - by intros (_ & ? & [= <-] & ->).
  - done.
  - by intros (_ & ? & ? & _).
Qed.

Lemma VerifyProofV2_ok now m i proof :
  VerifyProofV2 now m i proof = Ok tt <->
  check_window now (v2_IssuedAt i) (v2_ValidUntil i) = Ok tt
  /\ exists kid secret, signingKeys m !! kid = Some secret
       /\ GenerateProofV2 (mkManager kid (signingKeys m) (revocationTTL m) (revocationMap m) (revocationReady m)) i
          = Ok proof.
Proof.
  unfold VerifyProofV2, validateAtV2, GenerateProofV2. split.
  - intros H. destruct (bool_decide _); [done|].
    destruct (validateStructureV2 i) as [[]|] eqn:Ev; [|done]. cbn [rbind] in H.
    destruct (check_window now _ _) as [[]|]; [|done]. cbn [rbind] in H. split; [done|].
    destruct (open_proof m DelegationProofV2Version proof) as [[[kid secret] sig]|] eqn:Eo; [|done]. cbn [rbind] in H.
    apply open_proof_ok in Eo as (Hk & Hm & Hs & ->).
    destruct (_ || _) eqn:El; [done|]. apply orb_false_iff in El as [_ Hlow].
    apply negb_false_iff, bool_decide_eq_true in Hlow. destruct (hex_decode sig) as [prov|] eqn:Eh; [|done].
    destruct (canonicalBytesV2 i kid) as [p|] eqn:Ep; [|done]. cbn [rbind] in H.
    case_bool_decide as Hmac; [|done]. exists kid, secret. split; [done|].
    assert (active_secret (mkManager kid (signingKeys m) (revocationTTL m) (revocationMap m) (revocationReady m)) = Ok secret) as ->
      by (by apply active_secret_ok).
    cbn [rbind activeKeyID]. rewrite Ep. cbn [rbind]. f_equal. rewrite proof_string_eq, Hmac.
    by rewrite (hex_encode_decode sig prov).
  - intros (Hw & kid & secret & Hm & Hg).
    destruct (active_secret _) as [s|] eqn:Ea; [|done]. apply active_secret_ok in Ea as (Hk & Hm' & Hs).
    cbn [activeKeyID signingKeys] in *. rewrite Hm in Hm'. injection Hm' as <-. cbn [rbind] in Hg.
    destruct (canonicalBytesV2 i kid) as [p|] eqn:Ep; [|done]. apply Ok_inj in Hg as <-.
    rewrite (ring_nonempty m kid secret Hm). pose proof Ep as Ev. apply canonicalBytesV2_ok in Ev as [Ev _].
    rewrite Ev. cbn [rbind]. rewrite Hw. cbn [rbind]. rewrite proof_string_eq, (open_proof_string m _ kid secret);
      [|apply v2_no_dot|apply hex_no_dot, hmac_sha256_is_byte|done..].
    cbn [rbind]. rewrite length_hex_encode, length_hmac_sha256, hex_encode_lower by apply hmac_sha256_is_byte.
    rewrite bool_decide_true, hex_decode_encode by (done || apply hmac_sha256_is_byte).
    rewrite Ep. cbn [rbind]. by rewrite bool_decide_true.
Qed.

(** C18: a V2 proof is accepted for a tuple exactly when the tuple is valid,
    the time is within its window, and the proof is the one string that some
    retained key of the ring signs for it; so every proof signed with a key
    still in the ring verifies, and no other string does. *)
Theorem v2_accepts_exactly_signed (now : Z) (m : DelegationManager) (i : DelegationProofV2Input) (proof : string) :
  VerifyProofV2 now m i proof = Ok tt <->
  check_window now (v2_IssuedAt i) (v2_ValidUntil i) = Ok tt
  /\ exists kid secret, signingKeys m !! kid = Some secret
       /\ GenerateProofV2 (mkManager kid (signingKeys m) (revocationTTL m) (revocationMap m) (revocationReady m)) i
          = Ok proof.
Proof. apply VerifyProofV2_ok. Qed.

Definition v2_typed (i : DelegationProofV2Input) : Prop :=
  intent_typed (v2_Intent i) /\ is_int64 (v2_IssuedAt i) /\ is_int64 (v2_ValidUntil i).

Lemma valid_agent_short i b : CanonicalBytes i = Ok b -> short_string (AgentSubject i).
Proof.
  intros (? & ? & Hv & _)%CanonicalBytes_ok. apply validateFields_ok in Hv as (_ & _ & _ & _ & Hs & _).
  rewrite !Forall_cons in Hs. by destruct_and!.
Qed.

(** What a V2 signature covers determines the key, the intent hash and the window. *)
Lemma proof_payload_inj i j kid kid' h h' :
  v2_typed i -> v2_typed j -> short_string kid -> short_string kid' ->
  short_string (AgentSubject (v2_Intent i)) -> short_string (AgentSubject (v2_Intent j)) ->
  length h = sha256_size -> length h' = sha256_size ->
  proof_payload i kid h = proof_payload j kid' h' ->
  kid = kid' /\ h = h' /\ v2_IssuedAt i = v2_IssuedAt j /\ v2_ValidUntil i = v2_ValidUntil j.
Proof.
  unfold v2_typed, intent_typed. intros Hi Hj Hk Hk' Ha Ha' Hh Hh' Heq. destruct_and!.
  unfold proof_payload in Heq. apply app_inv_head in Heq.
  assert (short_string DelegationProofV2Version) by done. repeat read_field Heq. done.
Qed.

(** A V2 proof signed for one tuple is accepted for another only if the
    two are the same tuple, unless two distinct encodings named here collide
    under SHA-256 or under the HMAC of the signing key. *)
Theorem v2_proof_binds (now : Z) (m m' : DelegationManager) (i j : DelegationProofV2Input) (proof : string)
    (Hi : v2_typed i) (Hj : v2_typed j)
    (Hkeys : signingKeys m' !! activeKeyID m = signingKeys m !! activeKeyID m)
    (Hsign : GenerateProofV2 m i = Ok proof) (Hverify : VerifyProofV2 now m' j proof = Ok tt) :
  i = j
  \/ (exists bi bj, CanonicalBytes (v2_Intent i) = Ok bi /\ CanonicalBytes (v2_Intent j) = Ok bj
        /\ bi <> bj /\ sha256 bi = sha256 bj)
  \/ (exists secret pi pj, signingKeys m !! activeKeyID m = Some secret
        /\ canonicalBytesV2 i (activeKeyID m) = Ok pi /\ canonicalBytesV2 j (activeKeyID m) = Ok pj
        /\ pi <> pj /\ hmac_sha256 (go_bytes secret) pi = hmac_sha256 (go_bytes secret) pj).
Proof.
  apply VerifyProofV2_ok in Hverify as (_ & kid & secret' & Hm' & Hg').
  unfold GenerateProofV2 in Hsign, Hg'.
  destruct (active_secret m) as [secret|] eqn:Ea; [|done]. apply active_secret_ok in Ea as (Hk & Hm & _).
  destruct (active_secret (mkManager _ _ _ _ _)) as [s'|] eqn:Ea'; [|done].
  apply active_secret_ok in Ea' as (Hk' & Hms' & _). cbn [activeKeyID signingKeys rbind] in *.
  destruct (canonicalBytesV2 i (activeKeyID m)) as [p|] eqn:Ep; [|done].
  destruct (canonicalBytesV2 j kid) as [p'|] eqn:Ep'; [|done]. apply Ok_inj in Hsign as <-, Hg' as Hs.
  rewrite !proof_string_eq in Hs.
  apply (f_equal (fun s => split s dot)) in Hs.
  rewrite !split_three in Hs by (apply v2_no_dot || (by apply valid_key_no_dot) || apply hex_no_dot, hmac_sha256_is_byte).
  injection Hs as Hkid Hmac. subst kid. apply (f_equal hex_decode) in Hmac.
  rewrite !hex_decode_encode in Hmac by apply hmac_sha256_is_byte. injection Hmac as Hmac.
  assert (s' = secret) as -> by congruence.
  destruct (decide (p = p')) as [<-|Hne]; [|right; right; eauto 10].
  apply canonicalBytesV2_ok in Ep as (_ & bi & Hbi & Hp), Ep' as (_ & bj & Hbj & Hp'). rewrite Hp' in Hp.
  apply proof_payload_inj in Hp as (_ & Hh & Hia & Hvu); try done; try apply length_sha256;
    try (by apply valid_key_no_dot); try (by eapply valid_agent_short).
  destruct (decide (bi = bj)) as [<-|Hne]; [left|by right; left; exists bi, bj].
  assert (v2_Intent i = v2_Intent j) as Hint by (by eapply CanonicalBytes_inj; [apply Hi|apply Hj|..]).
  destruct i as [ii ai ui], j as [ij aj uj]. cbn in Hint, Hia, Hvu. by subst.
Qed.

(** A V2 proof lives at most the TTL and the clock skew: two acceptances
    of a tuple are at most 24 hours and 30 seconds apart. *)
Theorem v2_lifetime (now now' : Z) (m m' : DelegationManager) (i : DelegationProofV2Input) (proof proof' : string)
    (Hi : v2_typed i) (Hv : VerifyProofV2 now m i proof = Ok tt) (Hv' : VerifyProofV2 now' m' i proof' = Ok tt) :
  time_unix now' - time_unix now <= 24 * 3600 + 30.
Proof.
  apply VerifyProofV2_ok in Hv as (Hw & kid & secret & _ & Hg), Hv' as (Hw' & _).
  apply check_window_ok in Hw as [Hw _], Hw' as [_ Hw'].
  unfold GenerateProofV2 in Hg. destruct (active_secret _); [|done]. cbn [rbind] in Hg.
  destruct (canonicalBytesV2 i _) eqn:Ep; [|done]. apply canonicalBytesV2_ok in Ep as [Ev _].
  unfold validateStructureV2 in Ev. destruct (Validate _); [|done]. inv_result. bool_to_prop.
  destruct Hi as (_ & Hia & Hvu). unfold is_int64, min_int64, max_int64 in *.
  rewrite to_int64_id in E0 by (unfold is_int64, min_int64, max_int64; lia).
  unfold MaxDelegationTTL, delegationClockSkew, time_unix, nanosecond in *.
  rewrite Z.div_mul in E0 by lia. rewrite Z.div_add in Hw by lia. lia.
Qed.

(** ** V1 *)

Lemma hex_decode_no_dot sig d : hex_decode sig = Some d -> dot ∉ chars sig.
Proof.
  intros Hd. apply not_elem_chars. unfold hex_decode in Hd. revert d Hd.
  induction (go_bytes sig) as [| |c1 c2 cs IH] using list_pair_ind; intros d; simpl; [by intros _ ?%elem_of_nil|done|].
  destruct (hex_value c1) eqn:E1; [|done]. destruct (hex_value c2) eqn:E2; [|done].
  destruct (hex_decode_bytes cs) as [r|]; [|done]. intros _.
  rewrite !not_elem_of_cons. split_and!; [by intros <-|by intros <-|by eapply IH].
Qed.

Lemma VerifyProof_ok now m i proof :
  VerifyProof now m i proof = Ok tt <->
  validateStructure i = Ok tt /\ check_window now (pi_IssuedAt i) (pi_ValidUntil i) = Ok tt
  /\ exists kid secret sig, validDelegationKeyID kid = true /\ signingKeys m !! kid = Some secret /\ secret <> ""%string
       /\ proof = DelegationProofVersion +:+ char_string dot +:+ kid +:+ char_string dot +:+ sig
       /\ hex_decode sig = Some (hmac_sha256 (go_bytes secret) (canonicalBytes i kid)).
Proof.
  unfold VerifyProof, validateAt. split.
  - intros H. destruct (bool_decide _); [done|]. destruct (validateStructure i) as [[]|]; [|done]. cbn [rbind] in H.
    destruct (check_window now _ _) as [[]|]; [|done]. cbn [rbind] in H. split_and!; [done..|].
    destruct (open_proof m _ proof) as [[[kid secret] sig]|] eqn:Eo; [|done]. cbn [rbind] in H.
    apply open_proof_ok in Eo as (Hk & Hm & Hs & ->). destruct (hex_decode sig) as [prov|] eqn:Eh; [|done].
    case_bool_decide as Hmac; [|done]. exists kid, secret, sig. split_and!; try done. by rewrite Hmac.
  - intros (-> & Hw & kid & secret & sig & Hk & Hm & Hs & -> & Hd). rewrite (ring_nonempty m kid secret Hm).
    cbn [rbind]. rewrite Hw. cbn [rbind]. rewrite (open_proof_string m _ kid secret); [|apply v1_no_dot| |done..].
    + cbn [rbind]. rewrite Hd. by rewrite bool_decide_true.
    + by eapply hex_decode_no_dot.
Qed.

(** Proofs survive key rotation: a V1 proof signed by one manager is
    accepted by every manager that retains the signing key, at every time
    within its window. *)
Theorem v1_sign_verify (now : Z) (m m' : DelegationManager) (i : DelegationProofInput) (proof : string)
    (Hsign : GenerateProof m i = Ok proof)
    (Hkeys : signingKeys m' !! activeKeyID m = signingKeys m !! activeKeyID m)
    (Hstart : pi_IssuedAt i <= time_unix now + 30) (Hend : time_unix now <= pi_ValidUntil i) :
  VerifyProof now m' i proof = Ok tt.
Proof.
  unfold GenerateProof in Hsign. destruct (active_secret m) as [secret|] eqn:Ea; [|done].
  apply active_secret_ok in Ea as (Hk & Hm & Hs). cbn [rbind] in Hsign.
  destruct (validateStructure i) as [[]|] eqn:Ev; [|done]. apply Ok_inj in Hsign as <-.
  apply VerifyProof_ok. split_and!; [done| |].
  - apply check_window_ok. unfold time_unix, delegationClockSkew, nanosecond in *. rewrite Z.div_add by lia. lia.
  - exists (activeKeyID m), secret. eexists. split_and!; [done|by rewrite Hkeys|done|apply proof_string_eq|].
    apply hex_decode_encode, hmac_sha256_is_byte.
Qed.

(** The strings of a tuple fit the length prefixes and its times are [int64] values. *)
Definition v1_typed (i : DelegationProofInput) : Prop :=
  Forall short_string [pi_TenantID i; pi_GrantID i; pi_Delegator i; pi_Agent i; pi_Action i; pi_Resource i;
    pi_Amount i; pi_DelegationChain i; pi_CreatorID i; pi_ToolContext i; pi_ExecutionMode i; pi_Nonce i]
  /\ is_int64 (pi_IssuedAt i) /\ is_int64 (pi_ValidUntil i).

Ltac proof_fields i j :=
  destruct i, j; cbn [pi_TenantID pi_GrantID pi_Delegator pi_Agent pi_Action pi_Resource pi_Amount pi_DelegationChain
    pi_CreatorID pi_ToolContext pi_ExecutionMode pi_Nonce pi_IssuedAt pi_ValidUntil] in *; subst.

(** What a V1 signature covers determines the key and the whole tuple. *)
Lemma canonicalBytes_inj i j kid kid' :
  v1_typed i -> v1_typed j -> short_string kid -> short_string kid' ->
  canonicalBytes i kid = canonicalBytes j kid' -> i = j /\ kid = kid'.
Proof.
  unfold v1_typed. rewrite !Forall_cons. intros Hi Hj Hk Hk' Heq. destruct_and!.
  unfold canonicalBytes in Heq. apply app_inv_head in Heq.
  assert (short_string DelegationProofVersion) by done. repeat read_field Heq. split; [|done].
  by proof_fields i j.
Qed.

(** A V1 proof binds the whole tuple: signed for one and accepted for
    another, the two are the same, unless their encodings collide under the
    HMAC of the signing key.  In particular no optional field can be added,
    changed or moved into its neighbour. *)
Theorem v1_proof_binds (now : Z) (m m' : DelegationManager) (i j : DelegationProofInput) (proof : string)
    (Hi : v1_typed i) (Hj : v1_typed j)
    (Hkeys : signingKeys m' !! activeKeyID m = signingKeys m !! activeKeyID m)
    (Hsign : GenerateProof m i = Ok proof) (Hverify : VerifyProof now m' j proof = Ok tt) :
  i = j
  \/ exists secret, signingKeys m !! activeKeyID m = Some secret
       /\ canonicalBytes i (activeKeyID m) <> canonicalBytes j (activeKeyID m)
       /\ hmac_sha256 (go_bytes secret) (canonicalBytes i (activeKeyID m))
          = hmac_sha256 (go_bytes secret) (canonicalBytes j (activeKeyID m)).
Proof.
  apply VerifyProof_ok in Hverify as (_ & _ & kid & secret' & sig & Hk' & Hm' & _ & Hp & Hd).
  unfold GenerateProof in Hsign. destruct (active_secret m) as [secret|] eqn:Ea; [|done].
  apply active_secret_ok in Ea as (Hk & Hm & _). cbn [rbind] in Hsign.
  destruct (validateStructure i) as [[]|]; [|done]. apply Ok_inj in Hsign as <-.
  rewrite proof_string_eq in Hp. apply (f_equal (fun s => split s dot)) in Hp.
  rewrite !split_three in Hp by (apply v1_no_dot || (by apply valid_key_no_dot)
    || apply hex_no_dot, hmac_sha256_is_byte || by eapply hex_decode_no_dot).
  injection Hp as Hkid Hsig. subst kid sig. rewrite hex_decode_encode in Hd by apply hmac_sha256_is_byte.
  injection Hd as Hmac. assert (secret' = secret) as -> by congruence.
  destruct (decide (canonicalBytes i (activeKeyID m) = canonicalBytes j (activeKeyID m))) as [He|He]; [left|by right; exists secret].
  apply canonicalBytes_inj in He as [He _]; try done; by apply valid_key_no_dot.
Qed.

Definition unbounded_input : DelegationProofInput :=
  mkProofInput "tenant-a" "grant-42" "user:bob" "agent:copilot" "action:WRITE" "purchase_order:17"
    "" "user:bob,agent:copilot" "" "" "" "nonce-0001" 1800000000 11023372037.

(** The V1 limit on the lifetime of a grant overflows: a proof of more
    than 292 years is signed, and accepted 292 years later, while every
    shorter window over 24 hours is refused. *)
Theorem v1_ttl_overflows :
  (exists proof, GenerateProof golden_manager unbounded_input = Ok proof
     /\ VerifyProof (11023372037 * nanosecond) golden_manager unbounded_input proof = Ok tt
     /\ pi_ValidUntil unbounded_input - pi_IssuedAt unbounded_input > 292 * 365 * 24 * 3600)
  /\ forall i, validateStructure i = Ok tt -> pi_ValidUntil i - pi_IssuedAt i <= 9223372036 ->
       pi_ValidUntil i - pi_IssuedAt i <= 24 * 3600.
Proof.
  split.
  - eexists. split; [vm_compute; reflexivity|]. split; [vm_compute; reflexivity|]. done.
  - intros i Hv Hle. unfold validateStructure in Hv. inv_result. bool_to_prop.
    assert (is_int64 (pi_ValidUntil i - pi_IssuedAt i) /\ is_int64 ((pi_ValidUntil i - pi_IssuedAt i) * nanosecond)) as [Hd1 Hd2].
    { unfold is_int64, min_int64, max_int64, nanosecond. lia. }
    rewrite (to_int64_id _ Hd1), (to_int64_id _ Hd2) in E1. unfold MaxDelegationTTL, nanosecond in E1. lia.
Qed.

(** ** Witnesses *)

Definition rotated_manager : DelegationManager :=
  mkManager "key-2026-10" (<["key-2026-10"%string := "another-secret-of-at-least-32-characters"%string]> (signingKeys golden_manager))
    MaxDelegationTTL ∅ true.
Definition golden_time : Z := 1800000100 * nanosecond.
Definition golden_v2 : string := match GenerateProofV2 golden_manager golden_input with Ok p => p | Err _ => "" end.
Definition golden_v1 : string := match GenerateProof golden_manager compat_input with Ok p => p | Err _ => "" end.

Lemma golden_input_typed : v2_typed golden_input.
Proof. split; [apply golden_typed|by vm_compute]. Qed.

Lemma golden_v2_signed : GenerateProofV2 golden_manager golden_input = Ok golden_v2.
Proof. vm_compute. reflexivity. Qed.
Lemma golden_v2_verified : VerifyProofV2 golden_time rotated_manager golden_input golden_v2 = Ok tt.
Proof. vm_compute. reflexivity. Qed.

Lemma v2_proof_binds_witness :
  golden_input = golden_input
  \/ (exists bi bj, CanonicalBytes (v2_Intent golden_input) = Ok bi /\ CanonicalBytes (v2_Intent golden_input) = Ok bj
        /\ bi <> bj /\ sha256 bi = sha256 bj)
  \/ (exists secret pi pj, signingKeys golden_manager !! activeKeyID golden_manager = Some secret
        /\ canonicalBytesV2 golden_input (activeKeyID golden_manager) = Ok pi
        /\ canonicalBytesV2 golden_input (activeKeyID golden_manager) = Ok pj
        /\ pi <> pj /\ hmac_sha256 (go_bytes secret) pi = hmac_sha256 (go_bytes secret) pj).
Proof.
  apply (v2_proof_binds golden_time golden_manager rotated_manager golden_input golden_input golden_v2
    golden_input_typed golden_input_typed); [reflexivity|apply golden_v2_signed|apply golden_v2_verified].
Defined.

Lemma v2_lifetime_witness : time_unix golden_time - time_unix golden_time <= 24 * 3600 + 30.
Proof.
  apply (v2_lifetime golden_time golden_time rotated_manager rotated_manager golden_input golden_v2 golden_v2
    golden_input_typed golden_v2_verified golden_v2_verified).
Defined.

Lemma v1_sign_verify_witness : VerifyProof golden_time rotated_manager compat_input golden_v1 = Ok tt.
Proof.
  apply (v1_sign_verify golden_time golden_manager rotated_manager compat_input golden_v1);
    [vm_compute; reflexivity|reflexivity|by vm_compute|by vm_compute].
Defined.

Lemma v1_proof_binds_witness :
  compat_input = compat_input
  \/ exists secret, signingKeys golden_manager !! activeKeyID golden_manager = Some secret
       /\ canonicalBytes compat_input (activeKeyID golden_manager) <> canonicalBytes compat_input (activeKeyID golden_manager)
       /\ hmac_sha256 (go_bytes secret) (canonicalBytes compat_input (activeKeyID golden_manager))
          = hmac_sha256 (go_bytes secret) (canonicalBytes compat_input (activeKeyID golden_manager)).
Proof.
  assert (v1_typed compat_input) as Ht 
    by (split; [by apply (bool_decide_unpack _)|by vm_compute]).
  apply (v1_proof_binds golden_time golden_manager rotated_manager compat_input compat_input golden_v1 Ht Ht);
    [reflexivity|vm_compute; reflexivity|vm_compute; reflexivity].
Defined.
