(* ===== verification/Revocation.v ===== *)
(** * The revocation list ([internal/security/delegation.go], [revocation_sync.go])

    Each method on the concurrent map is one function; the compare-and-swap
    loop of [ApplyRevocation] retries until its update is atomic.  The readings
    of the clock are arguments.  A [RevEvent] is one atomic step of the process:
    a method call of a server goroutine, or what the syncer does on a callback. *)

From S2P Require Import Prelude GoStr GoCrypto Canonical Intent Delegation.
From stdpp Require Import options.
Local Open Scope Z_scope.

(** [security.RevocationRecord]; the times are in nanoseconds since the epoch. *)
Record RevocationRecord := mkRevRecord {
  rr_TenantID : string;
  rr_GrantID : string;
  rr_RevokedBy : string;
  rr_RevokedAt : Z;
  rr_ExpiresAt : Z
}.

(** The zero [time.Time], 1 January of year 1. *)
Definition zero_time : Z := - 62135596800 * nanosecond.

Definition with_revocations (m : DelegationManager) (r : gmap (string * string) revocationRecord) : DelegationManager :=
  mkManager (activeKeyID m) (signingKeys m) (revocationTTL m) r (revocationReady m).

Definition merge_revocation (current incoming : revocationRecord) : revocationRecord :=
  mkRevocation
    (if revokedAt incoming <? revokedAt current then revokedAt incoming else revokedAt current)
    (if expiresAt current <? expiresAt incoming then expiresAt incoming else expiresAt current).

Definition ApplyRevocation (now : Z) (m : DelegationManager) (r : RevocationRecord) : DelegationManager * bool :=
  if bool_decide (rr_TenantID r = ""%string) || bool_decide (rr_GrantID r = ""%string)
     || (rr_RevokedAt r =? zero_time) || negb (now <? rr_ExpiresAt r)
  then (m, false)
  else
    let key := (rr_TenantID r, rr_GrantID r) in
    let incoming := mkRevocation (time_unix (rr_RevokedAt r)) (time_unix_nano (rr_ExpiresAt r)) in
    let merged := match revocationMap m !! key with
                  | None => incoming
                  | Some current => merge_revocation current incoming
                  end in
    (with_revocations m (<[key := merged]> (revocationMap m)), true).

Definition cleanupExpired (nowUnixNano : Z) (m : DelegationManager) : DelegationManager :=
  with_revocations m (filter (fun kv => negb (expiresAt kv.2 <=? nowUnixNano) = true) (revocationMap m)).

(** The record [Revoke] applies; [ApplyRevocation] reads the clock again. *)
Definition own_record (now : Z) (m : DelegationManager) (tenantID grantID : string) : RevocationRecord :=
  mkRevRecord tenantID grantID "" now (now + revocationTTL m).
Definition Revoke (now now' : Z) (m : DelegationManager) (tenantID grantID : string) : DelegationManager * Z :=
  let m1 := cleanupExpired (time_unix_nano now) m in
  ((ApplyRevocation now' m1 (own_record now m tenantID grantID)).1, time_unix now).

Definition SetRevocationReady (m : DelegationManager) (ready : bool) : DelegationManager :=
  mkManager (activeKeyID m) (signingKeys m) (revocationTTL m) (revocationMap m) ready.
Definition RevocationReady (m : DelegationManager) : bool := revocationReady m.

Definition IsRevoked (now : Z) (m : DelegationManager) (tenantID grantID : string) : DelegationManager * bool :=
  if bool_decide (tenantID = ""%string) || bool_decide (grantID = ""%string) then (m, false)
  else match revocationMap m !! (tenantID, grantID) with
       | None => (m, false)
       | Some record =>
           if expiresAt record <=? time_unix_nano now
           then (with_revocations m (delete (tenantID, grantID) (revocationMap m)), false)
           else (m, true)
       end.

Definition ClearRevocations (m : DelegationManager) : DelegationManager := with_revocations m ∅.

(** The callbacks of [RevocationSyncer.run]. *)
Definition on_snapshot (now : Z) (m : DelegationManager) (records : list RevocationRecord) : DelegationManager :=
  SetRevocationReady (foldl (fun m r => (ApplyRevocation now m r).1) m records) true.
Definition on_revocation (now : Z) (m : DelegationManager) (r : RevocationRecord) : DelegationManager :=
  (ApplyRevocation now m r).1.

(** ** Histories *)

Inductive RevEvent :=
| EvRevoke (now now' : Z) (tenantID grantID : string)
| EvLookup (now : Z) (tenantID grantID : string)
| EvSnapshot (now : Z) (records : list RevocationRecord)
| EvNotified (now : Z) (r : RevocationRecord)
| EvWatch.   (** the syncer started, reconnects or lost its watch *)

Definition rev_event (m : DelegationManager) (e : RevEvent) : DelegationManager :=
  match e with
  | EvRevoke now now' t g => (Revoke now now' m t g).1
  | EvLookup now t g => (IsRevoked now m t g).1
  | EvSnapshot now rs => on_snapshot now m rs
  | EvNotified now r => on_revocation now m r
  | EvWatch => SetRevocationReady m false
  end.
Definition rev_run (m : DelegationManager) (es : list RevEvent) : DelegationManager := foldl rev_event m es.

(** The latest clock reading of an event, and the records it delivers with the
    clock at which they are applied. *)
Definition event_time (e : RevEvent) : option Z :=
  match e with
  | EvRevoke now now' _ _ => Some (Z.max now now')
  | EvLookup now _ _ | EvSnapshot now _ | EvNotified now _ => Some now
  | EvWatch => None
  end.
Definition event_records (m : DelegationManager) (e : RevEvent) : list (Z * RevocationRecord) :=
  match e with
  | EvRevoke now now' t g => [(now', own_record now m t g)]
  | EvSnapshot now rs => (fun r => (now, r)) <$> rs
  | EvNotified now r => [(now, r)]
  | EvLookup _ _ _ | EvWatch => []
  end.

(** [ApplyRevocation] takes the record: it names a grant and is in force. *)
Definition accepted (now : Z) (r : RevocationRecord) : bool :=
  negb (bool_decide (rr_TenantID r = ""%string)) && negb (bool_decide (rr_GrantID r = ""%string))
  && negb (rr_RevokedAt r =? zero_time) && (now <? rr_ExpiresAt r).

(** ** Facts about the revocation list

    Whatever the interleaving of revocations, lookups, clean-ups, snapshots and
    notifications, a grant is revoked at a time exactly when some accepted
    record of it is in force; readiness means a snapshot of the current watch. *)

Definition rr_key (r : RevocationRecord) : string * string := (rr_TenantID r, rr_GrantID r).

(** The list holds, for the records [P] applied so far and the times up to
    [now], at least the latest expiry of each grant and nothing else. *)
Record rev_inv (now : Z) (P : RevocationRecord -> Prop) (m : DelegationManager) : Prop := {
  rev_sound : forall k c, revocationMap m !! k = Some c -> exists r, P r /\ rr_key r = k /\ expiresAt c = rr_ExpiresAt r;
  rev_complete : forall r, P r -> now < rr_ExpiresAt r ->
    exists c, revocationMap m !! rr_key r = Some c /\ rr_ExpiresAt r <= expiresAt c
}.

Lemma apply_accepted at_ m r : ApplyRevocation at_ m r =
  if accepted at_ r then
    (with_revocations m (<[rr_key r := let incoming := mkRevocation (time_unix (rr_RevokedAt r)) (time_unix_nano (rr_ExpiresAt r)) in
       match revocationMap m !! rr_key r with None => incoming | Some c => merge_revocation c incoming end]> (revocationMap m)), true)
  else (m, false).
Proof.
  unfold ApplyRevocation, accepted, rr_key.
  destruct (bool_decide _), (bool_decide _), (_ =? zero_time), (at_ <? _); reflexivity.
Qed.

Lemma rev_inv_ext now P Q m : (forall r, P r <-> Q r) -> rev_inv now P m -> rev_inv now Q m.
Proof.
  intros HPQ [Hs Hc]. split.
  - intros k c Hk. destruct (Hs k c Hk) as (r & Hr & ?). exists r. by rewrite <- HPQ.
  - intros r Hr. by apply Hc, HPQ.
Qed.

Lemma rev_inv_apply now P m at_ r :
  is_int64 (rr_ExpiresAt r) -> rev_inv now P m ->
  rev_inv now (fun r' => P r' \/ (accepted at_ r = true /\ r' = r)) (ApplyRevocation at_ m r).1.
Proof.
  intros Hty Hinv. rewrite apply_accepted. destruct (accepted at_ r).
  2: { eapply rev_inv_ext; [|exact Hinv]. intros r'. simpl. split; [by left|by intros [?|[? _]]]. }
  destruct Hinv as [Hs Hc]. cbn [fst]. unfold time_unix_nano. rewrite to_int64_id by done. split; cbn [with_revocations revocationMap].
  - intros k c [(<- & <-)|(Hne & Hk)]%lookup_insert_Some.
    + destruct (revocationMap m !! rr_key r) as [c|] eqn:E; [|exists r; by split; [right|]].
      destruct (Hs _ _ E) as (r' & Hr' & Hk & He). unfold merge_revocation. cbn [expiresAt].
      case_match; [exists r; by split; [right|]|exists r'; by split; [left|]].
    + destruct (Hs _ _ Hk) as (r' & Hr' & ?). exists r'. by split; [left|].
  - intros r' Hr' Hnow. destruct (decide (rr_key r' = rr_key r)) as [Hk|Hk].
    + rewrite Hk, lookup_insert_eq. eexists. split; [done|].
      destruct Hr' as [Hr'|[_ ->]].
      * destruct (Hc r' Hr' Hnow) as (c & Hlk & Hle). rewrite Hk in Hlk. rewrite Hlk.
        unfold merge_revocation. cbn [expiresAt]. case_match; bool_to_prop; lia.
      * destruct (revocationMap m !! rr_key r); unfold merge_revocation; cbn [expiresAt]; [|lia].
        case_match; bool_to_prop; lia.
    + rewrite lookup_insert_ne by done. destruct Hr' as [Hr'|[_ ->]]; [by apply Hc|done].
Qed.

Lemma rev_inv_cleanup now P m t : t <= now -> rev_inv now P m -> rev_inv now P (cleanupExpired t m).
Proof.
  intros Ht [Hs Hc]. split; cbn.
  - intros k c [Hk _]%map_lookup_filter_Some. by apply Hs.
  - intros r Hr Hnow. destruct (Hc r Hr Hnow) as (c & Hk & Hle). exists c. split; [|done].
    apply map_lookup_filter_Some. split; [done|]. simpl. apply negb_true_iff, Z.leb_gt. lia.
Qed.

Lemma rev_inv_lookup now P m at_ t g :
  is_int64 at_ -> at_ <= now -> rev_inv now P m -> rev_inv now P (IsRevoked at_ m t g).1.
Proof.
  intros Hty Hat Hinv. unfold IsRevoked. destruct (_ || _); [done|].
  destruct (revocationMap m !! (t, g)) as [c|] eqn:Ek; [|done]. destruct (_ <=? _) eqn:El; [|done].
  destruct Hinv as [Hs Hc]. unfold time_unix_nano in El. rewrite to_int64_id in El by done. bool_to_prop.
  split; cbn.
  - intros k c' [_ Hk]%lookup_delete_Some. by apply Hs.
  - intros r Hr Hnow. destruct (Hc r Hr Hnow) as (c' & Hk & Hle). exists c'. split; [|done].
    rewrite lookup_delete_ne; [done|]. intros Heq. rewrite <- Heq, Ek in Hk. injection Hk as <-. lia.
Qed.

Lemma rev_inv_snapshot now at_ P m rs :
  Forall (fun r => is_int64 (rr_ExpiresAt r)) rs -> rev_inv now P m ->
  rev_inv now (fun r => P r \/ (r ∈ rs /\ accepted at_ r = true)) (foldl (fun m r => (ApplyRevocation at_ m r).1) m rs).
Proof.
  intros Hty. revert P m. induction Hty as [|r rs Hr _ IH]; intros P m Hinv; simpl.
  - eapply rev_inv_ext; [|exact Hinv]. intros r. simpl. split; [by left|]. by intros [?|[?%elem_of_nil _]].
  - eapply rev_inv_ext; [|apply IH, (rev_inv_apply now P m at_ r Hr Hinv)]. intros r'. simpl.
    rewrite elem_of_cons. split.
    + intros [[?|[? ->]]|[? ?]]; auto.
    + intros [?|[[->|?] ?]]; auto.
Qed.

Lemma rev_inv_ready now P m b : rev_inv now P m -> rev_inv now P (SetRevocationReady m b).
Proof. intros [Hs Hc]. by split. Qed.

Lemma ttl_apply at_ m r : revocationTTL (ApplyRevocation at_ m r).1 = revocationTTL m.
Proof. rewrite apply_accepted. by destruct (accepted at_ r). Qed.

Lemma ttl_event m e : revocationTTL (rev_event m e) = revocationTTL m.
Proof.
  destruct e as [now now' t g|now t g|now rs|now r|]; simpl; [by rewrite ttl_apply| | |apply ttl_apply|done].
  - unfold IsRevoked. destruct (_ || _); [done|]. destruct (_ !! _); [|done]. by destruct (_ <=? _).
  - revert m. induction rs as [|r rs IH]; intros m; [done|]. simpl in *. by rewrite IH, ttl_apply.
Qed.

(** The clock readings and expiries of an event are representable, and not later than [now]. *)
Definition event_ok (now : Z) (m : DelegationManager) (e : RevEvent) : Prop :=
  match e with
  | EvRevoke t t' _ _ => is_int64 t /\ is_int64 t' /\ t <= now /\ t' <= now
  | EvLookup t _ _ | EvSnapshot t _ | EvNotified t _ => is_int64 t /\ t <= now
  | EvWatch => True
  end
  /\ Forall (fun ar : Z * RevocationRecord => is_int64 (rr_ExpiresAt ar.2)) (event_records m e).

Global Instance event_ok_dec now m e : Decision (event_ok now m e).
Proof. unfold event_ok. destruct e; apply _. Defined.

(** The record reached the list in one of the events. *)
Definition delivered (m : DelegationManager) (es : list RevEvent) (r : RevocationRecord) : Prop :=
  exists e at_, e ∈ es /\ (at_, r) ∈ event_records m e /\ accepted at_ r = true.

Lemma rev_inv_event now P m e : event_ok now m e -> rev_inv now P m ->
  rev_inv now (fun r => P r \/ delivered m [e] r) (rev_event m e).
Proof.
  intros [Ht Hty] Hinv.
  assert (forall Q, (forall r, Q r <-> P r \/ delivered m [e] r) -> rev_inv now Q (rev_event m e) ->
    rev_inv now (fun r => P r \/ delivered m [e] r) (rev_event m e)) as Hext by (intros Q HQ; by apply rev_inv_ext).
  assert (forall r, delivered m [e] r <-> exists at_, (at_, r) ∈ event_records m e /\ accepted at_ r = true) as Hdel.
  { intros r. unfold delivered. split; [by intros (e' & at_ & ->%list_elem_of_singleton & ?); eauto|].
    intros (at_ & ? & ?). exists e, at_. by rewrite list_elem_of_singleton. }
  destruct e as [t t' tid g|t tid g|t rs|t r|]; simpl in *.
  - destruct Ht as (Ht & Ht' & Hle & Hle'). rewrite Forall_singleton in Hty.
    eapply Hext; [|apply rev_inv_apply; [exact Hty|apply rev_inv_cleanup; [|exact Hinv]]].
    + intros r. rewrite Hdel. split; [intros [?|[? ->]]; [by left|right; eexists; by rewrite list_elem_of_singleton]|].
      intros [?|(at_ & [= -> ->]%list_elem_of_singleton & ?)]; auto.
    + unfold time_unix_nano. by rewrite to_int64_id.
  - destruct Ht as [Ht Hle]. eapply Hext; [|by apply rev_inv_lookup; [exact Ht|exact Hle|exact Hinv]].
    intros r. rewrite Hdel. split; [by left|]. by intros [?|(at_ & ?%elem_of_nil & _)].
  - rewrite Forall_fmap in Hty. eapply Hext; [|apply rev_inv_ready, rev_inv_snapshot; [exact Hty|exact Hinv]].
    intros r. rewrite Hdel. split.
    + intros [?|[Hin Ha]]; [by left|]. right. exists t. split; [|exact Ha]. by apply (list_elem_of_fmap_2 (fun r => (t, r))).
    + intros [?|(at_ & (r' & [= -> ->] & Hin)%list_elem_of_fmap & Ha)]; [by left|by right].
  - destruct Ht as [Ht Hle]. rewrite Forall_singleton in Hty.
    eapply Hext; [|apply rev_inv_apply; [exact Hty|exact Hinv]].
    intros r'. rewrite Hdel. split; [intros [?|[? ->]]; [by left|right; eexists; by rewrite list_elem_of_singleton]|].
    intros [?|(at_ & [= -> ->]%list_elem_of_singleton & ?)]; auto.
  - eapply Hext; [|apply rev_inv_ready; exact Hinv]. intros r. rewrite Hdel. split; [by left|].
    by intros [?|(at_ & ?%elem_of_nil & _)].
Qed.

Lemma event_records_ttl m m' e : revocationTTL m = revocationTTL m' -> event_records m e = event_records m' e.
Proof. intros Ht. destruct e; simpl; [|done..]. unfold own_record. by rewrite Ht. Qed.

Lemma event_ok_ttl now m m' e : revocationTTL m = revocationTTL m' -> event_ok now m e -> event_ok now m' e.
Proof. unfold event_ok. intros Ht. by rewrite (event_records_ttl m m' e Ht). Qed.

Lemma delivered_cons m e es r : delivered m (e :: es) r <-> delivered m [e] r \/ delivered (rev_event m e) es r.
Proof.
  unfold delivered. split.
  - intros (e' & at_ & [->|Hin]%elem_of_cons & Hr & Ha); [left|right].
    + exists e, at_. by rewrite list_elem_of_singleton.
    + exists e', at_. by rewrite (event_records_ttl _ m) by apply ttl_event.
  - intros [(e' & at_ & ->%list_elem_of_singleton & ?)|(e' & at_ & Hin & Hr & Ha)].
    + exists e, at_. split; [by left|done].
    + rewrite (event_records_ttl _ m) in Hr by apply ttl_event. exists e', at_. split; [by right|done].
Qed.

Lemma rev_inv_run now P m es : Forall (event_ok now m) es -> rev_inv now P m ->
  rev_inv now (fun r => P r \/ delivered m es r) (rev_run m es).
Proof.
  revert P m. induction es as [|e es IH]; intros P m Hok Hinv.
  - eapply rev_inv_ext; [|exact Hinv]. intros r. simpl. split; [by left|]. by intros [?|(? & ? & ?%elem_of_nil & _)].
  - apply Forall_cons in Hok as [He Hok]. simpl.
    eapply rev_inv_ext; [|apply (IH (fun r => P r \/ delivered m [e] r))].
    + intros r. simpl. rewrite (delivered_cons m e es). tauto.
    + eapply Forall_impl; [exact Hok|]. intros e'. apply event_ok_ttl. by rewrite ttl_event.
    + by apply rev_inv_event.
Qed.

Lemma rev_run_inv now m es : revocationMap m = ∅ -> Forall (event_ok now m) es ->
  rev_inv now (delivered m es) (rev_run m es).
Proof.
  intros He Hok. eapply rev_inv_ext; [|apply (rev_inv_run now (fun _ => False) m es Hok)].
  - intros r. simpl. tauto.
  - split; [|done]. intros k c. by rewrite He.
Qed.

Lemma IsRevoked_spec now m t g : t <> ""%string -> g <> ""%string -> is_int64 now ->
  (IsRevoked now m t g).2 = true <-> exists c, revocationMap m !! (t, g) = Some c /\ now < expiresAt c.
Proof.
  intros Ht Hg Hnow. unfold IsRevoked. rewrite !bool_decide_false by done. simpl.
  destruct (revocationMap m !! (t, g)) as [c|]; [|by split; [|intros (? & ? & _)]].
  unfold time_unix_nano. rewrite to_int64_id by done. case_match; bool_to_prop; simpl; split; try done.
  - intros (c' & [= <-] & ?). lia.
  - eauto.
Qed.

Lemma revoked_when_delivered now m es t g :
  revocationMap m = ∅ -> Forall (event_ok now m) es -> is_int64 now -> t <> ""%string -> g <> ""%string ->
  (IsRevoked now (rev_run m es) t g).2 = true
  <-> exists r, delivered m es r /\ rr_key r = (t, g) /\ now < rr_ExpiresAt r.
Proof.
  intros He Hok Hnow Ht Hg. rewrite IsRevoked_spec by done. destruct (rev_run_inv now m es He Hok) as [Hs Hc]. split.
  - intros (c & Hk & Hlt). destruct (Hs _ _ Hk) as (r & Hr & Hkey & Hx). exists r. split_and!; [done..|lia].
  - intros (r & Hr & Hkey & Hlt). destruct (Hc r Hr Hlt) as (c & Hk & Hle). exists c. rewrite Hkey in Hk. split; [done|lia].
Qed.

(** C19: revocation is exact: after any interleaving of revocations, lookups,
    clean-ups, snapshots, notifications and reconnections, a grant is revoked
    at a time exactly when some accepted record of that tenant and grant is
    still in force; duplicates, reordering and older records change nothing. *)
Theorem revocation_exact (now : Z) (m : DelegationManager) (es : list RevEvent) (t g : string)
    (Hempty : revocationMap m = ∅) (Hevents : Forall (event_ok now m) es) (Hnow : is_int64 now)
    (Ht : t <> ""%string) (Hg : g <> ""%string) :
  (IsRevoked now (rev_run m es) t g).2 = true
  <-> exists r, delivered m es r /\ rr_key r = (t, g) /\ now < rr_ExpiresAt r.
Proof. by apply revoked_when_delivered. Qed.

(** *** Readiness *)

Definition is_watch (e : RevEvent) : bool := match e with EvWatch => true | _ => false end.

Lemma ready_event m e : revocationReady (rev_event m e)
  = match e with EvWatch => false | EvSnapshot _ _ => true | _ => revocationReady m end.
Proof.
  destruct e as [now now' t g|now t g|now rs|now r|]; simpl; [| |done| |done].
  - rewrite apply_accepted. by destruct (accepted _ _).
  - unfold IsRevoked. destruct (_ || _); [done|]. destruct (_ !! _); [|done]. by destruct (_ <=? _).
  - unfold on_revocation. rewrite apply_accepted. by destruct (accepted _ _).
Qed.

Lemma ready_run m es : RevocationReady (rev_run (SetRevocationReady m false) es) = true <->
  exists es1 at_ rs es2, es = es1 ++ EvSnapshot at_ rs :: es2 /\ forallb (fun e => negb (is_watch e)) es2 = true.
Proof.
  induction es as [|e es IH] using rev_ind; [split; [done|by intros ([] & ? & ? & ? & ? & _)]|].
  unfold rev_run, RevocationReady in *. rewrite foldl_snoc, ready_event. split.
  - destruct e as [a b c d|a b c|a rs|a r|]; intros Hr; try done.
    3: by exists es, a, rs, [].
    all: apply IH in Hr as (es1 & at_ & rs & es2 & -> & Hes); exists es1, at_, rs; eexists (es2 ++ [_]);
      rewrite <- app_assoc; split; [reflexivity|by rewrite forallb_app, Hes].
  - intros (es1 & at_ & rs & es2 & Heq & Hes). destruct es2 as [|e2 es2 _] using rev_ind.
    + apply app_inj_tail in Heq as [_ ->]. done.
    + rewrite app_comm_cons, app_assoc in Heq. apply app_inj_tail in Heq as [-> ->].
      rewrite forallb_app in Hes. apply andb_true_iff in Hes as [Hes He2]. simpl in He2.
      assert (revocationReady (foldl rev_event (SetRevocationReady m false) (es1 ++ EvSnapshot at_ rs :: es2)) = true) as Hr
        by (apply IH; eauto 10).
      by destruct e2.
Qed.

(** A replica is ready exactly when it installed a snapshot and did not
    lose its watch since; every record of that snapshot which is in force is
    then revoked on it. *)
Theorem ready_means_snapshot (now : Z) (m : DelegationManager) (es : list RevEvent)
    (Hempty : revocationMap m = ∅) (Hevents : Forall (event_ok now m) es) (Hnow : is_int64 now) :
  let m' := rev_run (SetRevocationReady m false) es in
  RevocationReady m' = true <->
  exists es1 at_ rs es2, es = es1 ++ EvSnapshot at_ rs :: es2 /\ forallb (fun e => negb (is_watch e)) es2 = true
    /\ forall r, r ∈ rs -> accepted at_ r = true -> now < rr_ExpiresAt r ->
         (IsRevoked now m' (rr_TenantID r) (rr_GrantID r)).2 = true.
Proof.
  cbv zeta. rewrite ready_run. split.
  - intros (es1 & at_ & rs & es2 & -> & Hes). exists es1, at_, rs, es2. split_and!; [done..|].
    intros r Hr Ha Hlt. assert (rr_TenantID r <> ""%string /\ rr_GrantID r <> ""%string) as [Ht Hg].
    { unfold accepted in Ha. rewrite !andb_true_iff, !negb_true_iff, !bool_decide_eq_false in Ha. tauto. }
    apply revoked_when_delivered; [done| |done..|].
    + eapply Forall_impl; [exact Hevents|]. intros e. by apply event_ok_ttl.
    + exists r. split_and!; [|done..]. exists (EvSnapshot at_ rs), at_. split_and!; [set_solver| |done].
      simpl. by apply (list_elem_of_fmap_2 (fun r => (at_, r))).
  - intros (es1 & at_ & rs & es2 & -> & Hes & _). eauto 10.
Qed.

(** A revocation that expires after the year 2262 is acknowledged but
    not enforced: [UnixNano] overflows and the list takes it for expired. *)
Theorem far_revocation_not_enforced :
  exists now r, accepted now r = true /\ now < rr_ExpiresAt r
    /\ (ApplyRevocation now golden_manager r).2 = true
    /\ (IsRevoked now (ApplyRevocation now golden_manager r).1 (rr_TenantID r) (rr_GrantID r)).2 = false.
Proof.
  exists (1800000000 * nanosecond), (mkRevRecord "tenant-a" "grant-42" "admin" (1800000000 * nanosecond) (9300000000 * nanosecond)).
  split_and!; by vm_compute.
Qed.

(** *** Witnesses *)

Definition sample_revocation : RevocationRecord :=
  mkRevRecord "tenant-a" "grant-42" "admin" (1800000000 * nanosecond) (1800086400 * nanosecond).
Definition sample_events : list RevEvent :=
  [EvWatch; EvSnapshot (1800000010 * nanosecond) [sample_revocation];
   EvLookup (1800000020 * nanosecond) "tenant-a" "grant-42";
   EvRevoke (1800000030 * nanosecond) (1800000030 * nanosecond) "tenant-b" "grant-7"].
Definition sample_now : Z := 1800000040 * nanosecond.

Lemma sample_events_ok : Forall (event_ok sample_now golden_manager) sample_events.
Proof. apply (bool_decide_unpack (Forall (event_ok sample_now golden_manager) sample_events)). vm_compute. exact I. Qed.

Lemma revocation_exact_witness :
  (IsRevoked sample_now (rev_run golden_manager sample_events) "tenant-a" "grant-42").2 = true
  <-> exists r, delivered golden_manager sample_events r /\ rr_key r = ("tenant-a", "grant-42")%string
        /\ sample_now < rr_ExpiresAt r.
Proof. apply (revocation_exact sample_now golden_manager sample_events); [done|apply sample_events_ok|by vm_compute|done|done]. Defined.

Lemma ready_means_snapshot_witness :
  RevocationReady (rev_run (SetRevocationReady golden_manager false) sample_events) = true
  /\ exists es1 at_ rs es2, sample_events = es1 ++ EvSnapshot at_ rs :: es2
       /\ forallb (fun e => negb (is_watch e)) es2 = true
       /\ forall r, r ∈ rs -> accepted at_ r = true -> sample_now < rr_ExpiresAt r ->
            (IsRevoked sample_now (rev_run (SetRevocationReady golden_manager false) sample_events)
               (rr_TenantID r) (rr_GrantID r)).2 = true.
Proof.
  split; [reflexivity|].
  apply (ready_means_snapshot sample_now golden_manager sample_events); [done|apply sample_events_ok|by vm_compute|reflexivity].
Defined.
