(* ===== verification/Approval.v ===== *)
(** * Approval capabilities ([internal/security/approval_capability.go])

    A capability is issued for one approved intent and verified against the
    intent the PEP reconstructs.  The clock and the random source of the
    manager are arguments: [now] in nanoseconds since the epoch, [random] the
    bytes read, or [None] when the source fails. *)

From S2P Require Import Prelude GoStr GoTime GoCrypto Canonical Intent Delegation.
From stdpp Require Import options.
Local Open Scope Z_scope.

Definition ApprovalCapabilityVersion : string := "ac.v1"%string.
Definition ApprovalCapabilityPurpose : string := "odoo.purchase_order.confirm"%string.
Definition ApprovalRequiredPermission : string := "approval:purchase_order.confirm"%string.
Definition ApprovalCapabilityAlgorithm : string := "HS256"%string.
Definition approvalCapabilityDomain : string := "PDP-APPROVAL-CAPABILITY-V1"%string.
Definition MaxApprovalCapabilityTTL : Z := 24 * 3600 * nanosecond.
Definition approvalCapabilityClockSkew : Z := 30 * nanosecond.

(** [approvalKeyIDPattern]: one to 64 letters, digits, underscores and hyphens. *)
Definition approvalKeyIDPattern (keyID : string) : bool :=
  (1 <=? length (runes_of keyID))%nat && (length (runes_of keyID) <=? 64)%nat
  && forallb key_rune (runes_of keyID).

Record ApprovalCapability := mkCapability {
  ac_CapabilityVersion : string;
  ac_Purpose : string;
  ac_ApprovalID : string;
  ac_TenantID : string;
  ac_CompanyID : Z;
  ac_IntentHash : string;
  ac_StateWitness : string;
  ac_CommandID : string;
  ac_DelegationGrantID : Z;
  ac_DelegatorSubject : string;
  ac_AgentSubject : string;
  ac_CreatorSubject : string;
  ac_ApproverUserID : Z;
  ac_ApproverSubject : string;
  ac_RequiredPermission : string;
  ac_IssuancePolicyRevision : Z;
  ac_IssuedAt : Z;
  ac_ExpiresAt : Z;
  ac_OneTimeID : string
}.

Record ApprovalCapabilityEnvelope := mkEnvelope {
  env_Algorithm : string;
  env_KeyID : string;
  env_Payload : Bytes;
  env_Signature : Bytes
}.

Record ApprovalCapabilityManager := mkApprovalManager {
  am_activeKeyID : string;
  am_keys : gmap string string;
  am_ttl : Z
}.

Inductive ApprovalError :=
| BadApprovalKeyID | BadApprovalTTL | BadApprovalKey | ApprovalKeyAbsent
| BadCapabilityKind | CapabilityField (e : FieldError) | BadCapabilityInteger | SeparationOfDuties
| BadCapabilityWindow | DelegationExpired | NoRandomness
| ApprovalVerifierNotConfigured | UnsupportedApproval | UnknownApprovalKey | PayloadMismatch
| MalformedApprovalSignature | ApprovalSignatureMismatch | ApprovalNotActiveYet | ApprovalExpired.

(** Every key of the ring has an identifier of the pattern and at least 32 bytes. *)
Definition approval_key_ok (keyID secret : string) : Prop :=
  approvalKeyIDPattern keyID = true /\ 32 <= go_len secret.
Global Instance approval_key_ok_dec k s : Decision (approval_key_ok k s).
Proof. unfold approval_key_ok. apply _. Defined.

Definition NewApprovalCapabilityManagerWithKeyring (active : string) (keys : gmap string string) (ttl : Z) :
    result ApprovalError ApprovalCapabilityManager :=
  guard? negb (approvalKeyIDPattern active) else BadApprovalKeyID;
  guard? (ttl <=? 0) || (MaxApprovalCapabilityTTL <? ttl) else BadApprovalTTL;
  guard? negb (bool_decide (map_Forall approval_key_ok keys)) else BadApprovalKey;
  guard? negb (bool_decide (is_Some (keys !! active))) else ApprovalKeyAbsent;
  Ok (mkApprovalManager active keys ttl).

Definition cap_field {A} (m : result FieldError A) : result ApprovalError A :=
  match m with Ok a => Ok a | Err e => Err (CapabilityField e) end.

(** [validate] returns the decoded intent hash. *)
Definition validate (c : ApprovalCapability) : result ApprovalError Bytes :=
  guard? negb (bool_decide (ac_CapabilityVersion c = ApprovalCapabilityVersion))
         || negb (bool_decide (ac_Purpose c = ApprovalCapabilityPurpose))
         || negb (bool_decide (ac_RequiredPermission c = ApprovalRequiredPermission)) else BadCapabilityKind;
  let? _ := cap_field (validateOpaqueBase64URL "approval_id" (ac_ApprovalID c) 16) in
  let? _ := cap_field (validateCanonicalText "tenant_id" (ac_TenantID c)) in
  guard? (ac_CompanyID c <=? 0) || (ac_DelegationGrantID c <=? 0) || (ac_ApproverUserID c <=? 0)
         || (ac_IssuancePolicyRevision c <? 0) else BadCapabilityInteger;
  let? intentHash := cap_field (decodeCanonicalDigest "intent_hash" (ac_IntentHash c)) in
  let? _ := cap_field (validateCommandID (ac_CommandID c)) in
  let? _ := cap_field (validateCanonicalSubject "delegator_subject" (ac_DelegatorSubject c) "user:") in
  let? _ := cap_field (validateCanonicalSubject "agent_subject" (ac_AgentSubject c) "agent:") in
  let? _ := cap_field (validateCanonicalSubject "creator_subject" (ac_CreatorSubject c) "user:") in
  let? _ := cap_field (validateCanonicalSubject "approver_subject" (ac_ApproverSubject c) "user:") in
  guard? bool_decide (ac_ApproverSubject c = ac_DelegatorSubject c)
         || bool_decide (ac_ApproverSubject c = ac_CreatorSubject c)
         || bool_decide (ac_ApproverSubject c = ac_AgentSubject c) else SeparationOfDuties;
  guard? (ac_IssuedAt c <=? 0) || (ac_ExpiresAt c <=? ac_IssuedAt c)
         || (MaxApprovalCapabilityTTL / nanosecond <? to_int64 (ac_ExpiresAt c - ac_IssuedAt c)) else BadCapabilityWindow;
  let? _ := cap_field (validateOpaqueBase64URL "one_time_id" (ac_OneTimeID c) 32) in
  Ok intentHash.

Definition capability_payload (c : ApprovalCapability) (intentHash stateWitness : Bytes) : Bytes :=
  go_bytes approvalCapabilityDomain
  ++ writeCanonicalString (ac_CapabilityVersion c) ++ writeCanonicalString (ac_Purpose c)
  ++ writeCanonicalString (ac_ApprovalID c) ++ writeCanonicalString (ac_TenantID c)
  ++ writeCanonicalInt64 (ac_CompanyID c) ++ intentHash ++ stateWitness
  ++ writeCanonicalString (ac_CommandID c) ++ writeCanonicalInt64 (ac_DelegationGrantID c)
  ++ writeCanonicalString (ac_DelegatorSubject c) ++ writeCanonicalString (ac_AgentSubject c)
  ++ writeCanonicalString (ac_CreatorSubject c) ++ writeCanonicalInt64 (ac_ApproverUserID c)
  ++ writeCanonicalString (ac_ApproverSubject c) ++ writeCanonicalString (ac_RequiredPermission c)
  ++ writeCanonicalInt64 (ac_IssuancePolicyRevision c) ++ writeCanonicalInt64 (ac_IssuedAt c)
  ++ writeCanonicalInt64 (ac_ExpiresAt c) ++ writeCanonicalString (ac_OneTimeID c).

Definition capability_CanonicalBytes (c : ApprovalCapability) : result ApprovalError Bytes :=
  let? intentHash := validate c in
  let? stateWitness := cap_field (decodeCanonicalDigest "state_witness" (ac_StateWitness c)) in
  Ok (capability_payload c intentHash stateWitness).

(** [randomBase64URL]: the bytes the source gave, or its failure. *)
Definition randomBase64URL (random : option Bytes) : option string := base64url_encode <$> random.

(** The fields [Issue] sets, whatever the caller put in them. *)
Definition stamp (c : ApprovalCapability) (issuedAt expires : Z) (oneTimeID : string) : ApprovalCapability :=
  mkCapability ApprovalCapabilityVersion ApprovalCapabilityPurpose (ac_ApprovalID c) (ac_TenantID c)
    (ac_CompanyID c) (ac_IntentHash c) (ac_StateWitness c) (ac_CommandID c) (ac_DelegationGrantID c)
    (ac_DelegatorSubject c) (ac_AgentSubject c) (ac_CreatorSubject c) (ac_ApproverUserID c)
    (ac_ApproverSubject c) ApprovalRequiredPermission (ac_IssuancePolicyRevision c)
    issuedAt expires oneTimeID.

Definition Issue (now : Z) (random : option Bytes) (m : ApprovalCapabilityManager) (c : ApprovalCapability)
    (delegationValidUntil : Z) : result ApprovalError (ApprovalCapability * ApprovalCapabilityEnvelope) :=
  let issued := time_unix now in
  let expires0 := to_int64 (issued + am_ttl m ÷ nanosecond) in
  let expires := if delegationValidUntil <? expires0 then delegationValidUntil else expires0 in
  guard? (expires <=? issued) else DelegationExpired;
  match randomBase64URL random with
  | None => Err NoRandomness
  | Some oneTimeID =>
      let c' := stamp c issued expires oneTimeID in
      let? payload := capability_CanonicalBytes c' in
      let secret := default ""%string (am_keys m !! am_activeKeyID m) in
      Ok (c', mkEnvelope ApprovalCapabilityAlgorithm (am_activeKeyID m) payload
                (hmac_sha256 (go_bytes secret) payload))
  end.

Definition Verify (now : Z) (m : ApprovalCapabilityManager) (c : ApprovalCapability)
    (e : ApprovalCapabilityEnvelope) : result ApprovalError unit :=
  guard? bool_decide (am_keys m = ∅) else ApprovalVerifierNotConfigured;
  guard? negb (bool_decide (env_Algorithm e = ApprovalCapabilityAlgorithm))
         || negb (approvalKeyIDPattern (env_KeyID e)) else UnsupportedApproval;
  match am_keys m !! env_KeyID e with
  | None => Err UnknownApprovalKey
  | Some secret =>
      let? expectedPayload := capability_CanonicalBytes c in
      guard? negb (bool_decide (expectedPayload = env_Payload e)) else PayloadMismatch;
      guard? negb (Nat.eqb (length (env_Signature e)) sha256_size) else MalformedApprovalSignature;
      guard? negb (bool_decide (hmac_sha256 (go_bytes secret) (env_Payload e) = env_Signature e))
        else ApprovalSignatureMismatch;
      guard? (time_unix (now + approvalCapabilityClockSkew) <? ac_IssuedAt c) else ApprovalNotActiveYet;
      guard? (ac_ExpiresAt c <? time_unix now) else ApprovalExpired;
      Ok tt
  end.

(** ** Facts about approval capabilities

    A verified capability separates the duties, is inside its window, and is
    the only capability its envelope verifies for; an issued one verifies
    until it expires and never outlives the delegation. *)

Lemma cap_field_ok {A} (m : result FieldError A) a : cap_field m = Ok a -> m = Ok a.
Proof. by destruct m; [intros [= ->]|]. Qed.

Lemma opaque_short f v size : 2 * Z.of_nat size <= max_uint32 -> validateOpaqueBase64URL f v size = Ok tt -> short_string v.
Proof. unfold validateOpaqueBase64URL. intros Hs H. inv_result. bool_to_prop. by eapply canonical_base64_short. Qed.

(** What a valid capability satisfies. *)
Lemma validate_ok c d : validate c = Ok d ->
  ac_CapabilityVersion c = ApprovalCapabilityVersion /\ ac_Purpose c = ApprovalCapabilityPurpose
  /\ ac_RequiredPermission c = ApprovalRequiredPermission
  /\ decodeCanonicalDigest "intent_hash" (ac_IntentHash c) = Ok d
  /\ Forall short_string [ac_ApprovalID c; ac_TenantID c; ac_CommandID c; ac_DelegatorSubject c; ac_AgentSubject c;
       ac_CreatorSubject c; ac_ApproverSubject c; ac_OneTimeID c]
  /\ (ac_ApproverSubject c <> ac_DelegatorSubject c /\ ac_ApproverSubject c <> ac_CreatorSubject c
      /\ ac_ApproverSubject c <> ac_AgentSubject c)
  /\ (0 < ac_IssuedAt c < ac_ExpiresAt c /\ to_int64 (ac_ExpiresAt c - ac_IssuedAt c) <= 24 * 3600).
Proof.
  unfold validate. intros H. inv_result.
  repeat match goal with H : cap_field _ = Ok _ |- _ => apply cap_field_ok in H end.
  unfold MaxApprovalCapabilityTTL, nanosecond in *. rewrite Z.div_mul in * by lia.
  bool_to_prop. inv_fields. split_and!; try done; try lia.
  assert (2 * Z.of_nat 32 <= max_uint32 /\ 2 * Z.of_nat 16 <= max_uint32) as [? ?] by done.
  rewrite !Forall_cons. split_and!; eauto using opaque_short, validateCommandID_short.
Qed.

Lemma capability_bytes_ok c p : capability_CanonicalBytes c = Ok p <->
  exists dh dw, validate c = Ok dh /\ decodeCanonicalDigest "state_witness" (ac_StateWitness c) = Ok dw
    /\ p = capability_payload c dh dw.
Proof.
  unfold capability_CanonicalBytes. split.
  - intros H. inv_result. apply cap_field_ok in E0. eauto.
  - intros (dh & dw & -> & -> & ->). done.
Qed.

Definition capability_typed (c : ApprovalCapability) : Prop :=
  is_int64 (ac_CompanyID c) /\ is_int64 (ac_DelegationGrantID c) /\ is_int64 (ac_ApproverUserID c)
  /\ is_int64 (ac_IssuancePolicyRevision c) /\ is_int64 (ac_IssuedAt c) /\ is_int64 (ac_ExpiresAt c).

Ltac capability_fields c c' :=
  destruct c, c'; cbn [ac_CapabilityVersion ac_Purpose ac_ApprovalID ac_TenantID ac_CompanyID ac_IntentHash
    ac_StateWitness ac_CommandID ac_DelegationGrantID ac_DelegatorSubject ac_AgentSubject ac_CreatorSubject
    ac_ApproverUserID ac_ApproverSubject ac_RequiredPermission ac_IssuancePolicyRevision ac_IssuedAt
    ac_ExpiresAt ac_OneTimeID] in *; subst.

(** The canonical bytes of a capability are read back uniquely. *)
Lemma capability_bytes_inj c c' p :
  capability_typed c -> capability_typed c' ->
  capability_CanonicalBytes c = Ok p -> capability_CanonicalBytes c' = Ok p -> c = c'.
Proof.
  intros Hty Hty' (dh & dw & Hv & Hw & ->)%capability_bytes_ok (dh' & dw' & Hv' & Hw' & Heq)%capability_bytes_ok.
  apply validate_ok in Hv as (Hc1 & Hc2 & Hc3 & Hh & Hs & _ & _), Hv' as (Hd1 & Hd2 & Hd3 & Hh' & Hs' & _ & _).
  apply decodeCanonicalDigest_ok in Hw as (Hw & _ & Ew), Hw' as (Hw' & _ & Ew'),
    Hh as (Hh & _ & Eh), Hh' as (Hh' & _ & Eh').
  rewrite !Forall_cons in Hs, Hs'. unfold capability_typed in *. destruct_and!.
  unfold capability_payload in Heq. rewrite Hc1, Hc2, Hc3, Hd1, Hd2, Hd3 in Heq. apply app_inv_head in Heq.
  repeat read_field Heq. by capability_fields c c'.
Qed.

Lemma skewed_time now : time_unix (now + approvalCapabilityClockSkew) = time_unix now + 30.
Proof. unfold time_unix, approvalCapabilityClockSkew, nanosecond. by rewrite Z.div_add by lia. Qed.

Lemma Verify_ok now m c e : Verify now m c e = Ok tt <->
  ac_IssuedAt c <= time_unix now + 30 /\ time_unix now <= ac_ExpiresAt c
  /\ approvalKeyIDPattern (env_KeyID e) = true
  /\ exists secret p, am_keys m !! env_KeyID e = Some secret /\ capability_CanonicalBytes c = Ok p
       /\ e = mkEnvelope ApprovalCapabilityAlgorithm (env_KeyID e) p (hmac_sha256 (go_bytes secret) p).
Proof.
  unfold Verify. rewrite skewed_time. split.
  - intros H. destruct (bool_decide (am_keys m = ∅)); [done|]. destruct (_ || _) eqn:Ea; [done|].
    destruct (am_keys m !! env_KeyID e) as [secret|] eqn:Ek; [|done].
    destruct (capability_CanonicalBytes c) as [p|]; [|done]. cbn [rbind] in H. inv_result. bool_to_prop.
    split_and!; [done..|]. exists secret, p. split_and!; [done..|]. destruct e. cbn in *. by subst.
  - intros (Hi & Hx & Hp & secret & p & Hk & Hc & He). destruct e as [alg kid pl sg].
    cbn [env_Algorithm env_KeyID env_Payload env_Signature] in *. injection He as -> -> ->.
    rewrite bool_decide_false by (intros Hn; by rewrite Hn in Hk).
    rewrite bool_decide_true, Hp, Hk, Hc by done. cbn [negb orb rbind].
    rewrite bool_decide_true, length_hmac_sha256, bool_decide_true by done.
    cbn [negb]. rewrite Nat.eqb_refl. cbn [negb]. by rewrite (proj2 (Z.ltb_ge _ _) Hi), (proj2 (Z.ltb_ge _ _) Hx).
Qed.

(** C26: a verified capability is a genuine approval: its envelope carries the
    HMAC of its canonical bytes under a key of the ring, the approver is none
    of the delegator, the creator and the agent, and the time is inside a
    window of at most 24 hours. *)
Theorem verified_capability_genuine (now : Z) (m : ApprovalCapabilityManager) (c : ApprovalCapability)
    (e : ApprovalCapabilityEnvelope) (Hty : capability_typed c) (Hv : Verify now m c e = Ok tt) :
  (exists secret p, am_keys m !! env_KeyID e = Some secret /\ capability_CanonicalBytes c = Ok p
     /\ env_Payload e = p /\ env_Signature e = hmac_sha256 (go_bytes secret) p)
  /\ ac_ApproverSubject c ∉ [ac_DelegatorSubject c; ac_CreatorSubject c; ac_AgentSubject c]
  /\ ac_IssuedAt c - 30 <= time_unix now <= ac_ExpiresAt c
  /\ ac_ExpiresAt c <= ac_IssuedAt c + 24 * 3600.
Proof.
  apply Verify_ok in Hv as (Hi & Hx & _ & secret & p & Hk & Hc & He).
  pose proof Hc as (dh & dw & Hv & _)%capability_bytes_ok.
  apply validate_ok in Hv as (_ & _ & _ & _ & _ & Hsod & Hw & Httl). split_and!.
  - exists secret, p. split_and!; [done|done|by rewrite He|by rewrite He].
  - rewrite !not_elem_of_cons. split_and!; [apply Hsod..|by apply not_elem_of_nil].
  - lia.
  - lia.
  - destruct Hty as (_ & _ & _ & _ & Ht1 & Ht2). unfold is_int64, min_int64, max_int64 in *.
    rewrite to_int64_id in Httl by (unfold is_int64, min_int64, max_int64; lia). lia.
Qed.

(** An envelope is bound to one capability: whatever managers, keys and
    times verified it, two capabilities verified with the same envelope are
    the same. *)
Theorem envelope_binds_capability (now now' : Z) (m m' : ApprovalCapabilityManager) (c c' : ApprovalCapability)
    (e : ApprovalCapabilityEnvelope) (Hty : capability_typed c) (Hty' : capability_typed c')
    (Hv : Verify now m c e = Ok tt) (Hv' : Verify now' m' c' e = Ok tt) : c = c'.
Proof.
  apply Verify_ok in Hv as (_ & _ & _ & s & p & _ & Hc & He), Hv' as (_ & _ & _ & s' & p' & _ & Hc' & He').
  apply (capability_bytes_inj c c' p); [done..|]. rewrite Hc'. f_equal.
  by rewrite He' in He; injection He.
Qed.

Lemma new_manager_ok active keys ttl m : NewApprovalCapabilityManagerWithKeyring active keys ttl = Ok m ->
  m = mkApprovalManager active keys ttl /\ approvalKeyIDPattern active = true
  /\ 0 < ttl <= MaxApprovalCapabilityTTL /\ exists secret, keys !! active = Some secret.
Proof.
  unfold NewApprovalCapabilityManagerWithKeyring. intros H. inv_result. bool_to_prop. split_and!; try done; lia.
Qed.

Lemma Issue_verifies (active : string) (keys : gmap string string) (ttl now : Z)
    (random : option Bytes) (m m' : ApprovalCapabilityManager) (c c' : ApprovalCapability)
    (e : ApprovalCapabilityEnvelope) (delegationValidUntil : Z)
    (Hm : NewApprovalCapabilityManagerWithKeyring active keys ttl = Ok m)
    (Hissue : Issue now random m c delegationValidUntil = Ok (c', e))
    (Hkeys : am_keys m' !! active = keys !! active) :
  c' = stamp c (time_unix now) (ac_ExpiresAt c') (ac_OneTimeID c')
  /\ ac_ExpiresAt c' <= delegationValidUntil
  /\ forall now', time_unix now - 30 <= time_unix now' <= ac_ExpiresAt c' -> Verify now' m' c' e = Ok tt.
Proof.
  apply new_manager_ok in Hm as (-> & Hpat & _ & secret & Hk). unfold Issue in Hissue. cbn [am_keys am_activeKeyID am_ttl] in Hissue.
  destruct (_ <=? time_unix now); [done|]. destruct (randomBase64URL random) as [otid|]; [|done].
  destruct (capability_CanonicalBytes _) as [p|] eqn:Ec; [|done]. cbn [rbind] in Hissue.
  apply Ok_inj in Hissue. injection Hissue as <- <-. split_and!; [done| |].
  - cbn [stamp ac_ExpiresAt]. case_match eqn:El; bool_to_prop; lia.
  - intros now' [Hlo Hhi]. apply Verify_ok. split_and!; [cbn [stamp ac_IssuedAt]; lia|done|done|].
    exists secret, p. split_and!; [cbn [env_KeyID]; by rewrite Hkeys|done|]. cbn [env_KeyID]. by rewrite Hk.
Qed.

(** An issued capability is for the request it was issued for, never
    outlives the delegation or 24 hours, and verifies, under any ring that
    retains the signing key, from 30 seconds before its issue until it
    expires. *)
Theorem issued_capability_verifies (active : string) (keys : gmap string string) (ttl now : Z)
    (random : option Bytes) (m m' : ApprovalCapabilityManager) (c c' : ApprovalCapability)
    (e : ApprovalCapabilityEnvelope) (delegationValidUntil : Z)
    (Hm : NewApprovalCapabilityManagerWithKeyring active keys ttl = Ok m)
    (Hissue : Issue now random m c delegationValidUntil = Ok (c', e))
    (Hkeys : am_keys m' !! active = keys !! active) :
  c' = stamp c (time_unix now) (ac_ExpiresAt c') (ac_OneTimeID c')
  /\ ac_ExpiresAt c' <= delegationValidUntil
  /\ forall now', time_unix now - 30 <= time_unix now' <= ac_ExpiresAt c' -> Verify now' m' c' e = Ok tt.
Proof. by eapply Issue_verifies. Qed.

(** *** Witnesses *)

Definition sample_keys : gmap string string := {["approval-1"%string := "an-approval-secret-of-32-characters!"%string]}.
Definition sample_approvals : ApprovalCapabilityManager := mkApprovalManager "approval-1" sample_keys (3600 * nanosecond).
Definition sample_capability : ApprovalCapability :=
  mkCapability "" "" (base64url_encode (replicate 16 7)) "tenant-a" 7
    "ea1481e884e77d05bf9b88848d7ee68d38654336c7720ed48f8a5abe937581c5"
    "3a5ed9d8efb872f718fb26fe15dcfdfa825d934f74d8927ad49495d3333ac804"
    "MVWzjbydBxQUvpx-QFT5dHISK0t95CznvTGPEEqnRDk" 81 "user:bob" "agent:procurement_copilot" "user:alice"
    9 "user:carol" "" 3 0 0 "".
Definition approval_time : Z := 1800000000 * nanosecond.
Definition issued : ApprovalCapability * ApprovalCapabilityEnvelope :=
  match Issue approval_time (Some (replicate 32 5)) sample_approvals sample_capability 1800003000 with
  | Ok r => r
  | Err _ => (sample_capability, mkEnvelope "" "" [] [])
  end.

Lemma issued_ok : Issue approval_time (Some (replicate 32 5)) sample_approvals sample_capability 1800003000 = Ok issued.
Proof. vm_compute. reflexivity. Qed.
Lemma issued_verified : Verify approval_time sample_approvals issued.1 issued.2 = Ok tt.
Proof. vm_compute. reflexivity. Qed.
Global Instance capability_typed_dec c : Decision (capability_typed c).
Proof. unfold capability_typed. apply _. Defined.
Lemma issued_typed : capability_typed issued.1.
Proof. apply (bool_decide_unpack (capability_typed issued.1)). vm_compute. exact I. Qed.

Lemma verified_capability_genuine_witness :
  (exists secret p, am_keys sample_approvals !! env_KeyID issued.2 = Some secret
     /\ capability_CanonicalBytes issued.1 = Ok p
     /\ env_Payload issued.2 = p /\ env_Signature issued.2 = hmac_sha256 (go_bytes secret) p)
  /\ ac_ApproverSubject issued.1 ∉ [ac_DelegatorSubject issued.1; ac_CreatorSubject issued.1; ac_AgentSubject issued.1]
  /\ ac_IssuedAt issued.1 - 30 <= time_unix approval_time <= ac_ExpiresAt issued.1
  /\ ac_ExpiresAt issued.1 <= ac_IssuedAt issued.1 + 24 * 3600.
Proof. apply (verified_capability_genuine approval_time sample_approvals issued.1 issued.2 issued_typed issued_verified). Defined.

Lemma envelope_binds_capability_witness : issued.1 = issued.1.
Proof.
  apply (envelope_binds_capability approval_time approval_time sample_approvals sample_approvals issued.1 issued.1
    issued.2 issued_typed issued_typed issued_verified issued_verified).
Defined.

Lemma issued_capability_verifies_witness : Verify approval_time sample_approvals issued.1 issued.2 = Ok tt.
Proof.
  destruct (issued_capability_verifies "approval-1" sample_keys (3600 * nanosecond) approval_time (Some (replicate 32 5))
    sample_approvals sample_approvals sample_capability issued.1 issued.2 1800003000) as (_ & _ & Hv).
  - vm_compute. reflexivity.
  - rewrite issued_ok. by destruct issued.
  - reflexivity.
  - apply Hv. by vm_compute.
Defined.
