(* ===== verification/Lexer.v ===== *)
(** * The lexer of the policy language ([internal/parser/lexer.go])

    A [Lexer] is the struct of the source; every method is a function from
    the lexer to the lexer it leaves behind.  The scanning loops take their
    iteration bound from the input left ([remaining]); the lemmas below show
    that each loop stops because its condition fails. *)

From S2P Require Import Prelude GoStr Ast.
From stdpp Require Import options.
Local Open Scope Z_scope.

Inductive TokenType :=
| TokEOF | TokIllegal
| TokIdent | TokInt | TokString | TokIP
| TokPermit | TokForbid | TokPrincipal | TokAction | TokResource | TokAny
| TokWhen | TokUnless | TokIn | TokContains | TokObligation | TokTrue | TokFalse
| TokEq | TokNe | TokGt | TokLt | TokGe | TokLe | TokAnd | TokOr | TokNot | TokDot
| TokComma | TokColon | TokSemicolon | TokLParen | TokRParen | TokLBrace | TokRBrace.

Global Instance TokenType_eq_dec : EqDecision TokenType.
Proof. solve_decision. Defined.

Record Token := mkToken { Type_ : TokenType; Literal : string; TPos : Position }.

Record Lexer := mkLexer {
  input : list Z;
  position : nat;
  readPosition : nat;
  ch : Z;
  line : Z;
  col : Z;
  inCondition : bool;
  braceCount : Z
}.

(** [input[i]], and the NUL rune past the end. *)
Definition rune_at (rs : list Z) (i : nat) : Z := default 0 (rs !! i).

Definition readChar (l : Lexer) : Lexer :=
  let c := rune_at (input l) (readPosition l) in
  mkLexer (input l) (readPosition l) (S (readPosition l)) c
    (if c =? 10 then line l + 1 else line l)
    (if c =? 10 then 0 else col l + 1)
    (inCondition l) (braceCount l).

Definition NewLexerRunes (rs : list Z) : Lexer :=
  readChar (mkLexer rs 0 0 0 1 0 false 0).
Definition NewLexer (src : string) : Lexer := NewLexerRunes (runes_of src).

Definition peekChar (l : Lexer) : Z := rune_at (input l) (readPosition l).

(** The number of runes from the current one to the end. *)
Definition remaining (l : Lexer) : nat := length (input l) - position l.

(** [for cond(l.ch) { l.readChar() }]. *)
Fixpoint read_while (fuel : nat) (cond : Z -> bool) (l : Lexer) : Lexer :=
  match fuel with
  | O => l
  | S f => if cond (ch l) then read_while f cond (readChar l) else l
  end.
Definition scan (cond : Z -> bool) (l : Lexer) : Lexer := read_while (S (remaining l)) cond l.

Definition is_blank (c : Z) : bool := (c =? 32) || (c =? 9) || (c =? 10) || (c =? 13).
Definition skipWhitespace (l : Lexer) : Lexer := scan is_blank l.

Definition isDigit (c : Z) : bool := (48 <=? c) && (c <=? 57).

(** [string(l.input[start:l.position])]. *)
Definition slice_from (start : nat) (l : Lexer) : string :=
  string_of_runes (take (position l - start) (drop start (input l))).

Definition lookupIdent (ident : string) : TokenType :=
  if decide (ident = "permit") then TokPermit
  else if decide (ident = "forbid") then TokForbid
  else if decide (ident = "principal") then TokPrincipal
  else if decide (ident = "action") then TokAction
  else if decide (ident = "resource") then TokResource
  else if decide (ident = "any") then TokAny
  else if decide (ident = "when") then TokWhen
  else if decide (ident = "unless") then TokUnless
  else if decide (ident = "in") then TokIn
  else if decide (ident = "contains") then TokContains
  else if decide (ident = "obligation") then TokObligation
  else if decide (ident = "true") then TokTrue
  else if decide (ident = "false") then TokFalse
  else TokIdent.

Definition string_body (c : Z) : bool := negb (c =? 34) && negb (c =? 0).

Definition readString (l : Lexer) : string * Lexer :=
  let l1 := readChar l in
  let start := position l1 in
  let l2 := scan string_body l1 in
  (slice_from start l2, readChar l2).

(** The loop [for i := 0; i < 3; i++] over the dotted parts of an IP literal;
    [None] is the early return of an illegal token. *)
Fixpoint read_ip_parts (n : nat) (l : Lexer) : option Lexer * Lexer :=
  match n with
  | O => (Some l, l)
  | S n' =>
      if negb (ch l =? 46) then (None, l)
      else let l1 := readChar l in
           if negb (isDigit (ch l1)) then (None, l1)
           else read_ip_parts n' (scan isDigit l1)
  end.

Definition readNumberOrIP (l : Lexer) : string * TokenType * Lexer :=
  let start := position l in
  let l1 := scan isDigit l in
  if ch l1 =? 46 then
    match read_ip_parts 3 l1 with
    | (None, l2) => (slice_from start l2, TokIllegal, l2)
    | (Some l2, _) =>
        if ch l2 =? 47 then
          let l3 := readChar l2 in
          if negb (isDigit (ch l3)) then (slice_from start l3, TokIllegal, l3)
          else let l4 := scan isDigit l3 in (slice_from start l4, TokIP, l4)
        else (slice_from start l2, TokIP, l2)
    end
  else (slice_from start l1, TokInt, l1).

Section Letters.
Context `{UnicodeTable}.

Definition isLetter (c : Z) : bool := unicode_is_letter c || (c =? 95).

Definition readIdentifier (l : Lexer) : string * Lexer :=
  let start := position l in
  let l1 := scan (fun c => isLetter c || isDigit c) l in
  (slice_from start l1, l1).

Definition set_condition (l : Lexer) (cond : bool) (braces : Z) : Lexer :=
  mkLexer (input l) (position l) (readPosition l) (ch l) (line l) (col l) cond braces.

(** A one-rune token; the caller's final [l.readChar()] consumes it. *)
Definition single (t : TokenType) (pos : Position) (l : Lexer) : Token * Lexer :=
  (mkToken t (string_of_runes [ch l]) pos, readChar l).

(** A two-rune operator when the next rune is [second], else [other]. *)
Definition pair_or (second : Z) (t other : TokenType) (pos : Position) (l : Lexer) : Token * Lexer :=
  if peekChar l =? second then
    let l1 := readChar l in
    (mkToken t (string_of_runes [ch l] +:+ string_of_runes [ch l1]) pos, readChar l1)
  else single other pos l.

Definition NextToken (l0 : Lexer) : Token * Lexer :=
  let l := skipWhitespace l0 in
  let pos := mkPosition (line l) (col l) (position l) in
  let c := ch l in
  if c =? 61 then pair_or 61 TokEq TokIllegal pos l
  else if c =? 33 then pair_or 61 TokNe TokNot pos l
  else if c =? 62 then pair_or 61 TokGe TokGt pos l
  else if c =? 60 then pair_or 61 TokLe TokLt pos l
  else if c =? 38 then pair_or 38 TokAnd TokIllegal pos l
  else if c =? 124 then pair_or 124 TokOr TokIllegal pos l
  else if c =? 46 then single TokDot pos l
  else if c =? 44 then single TokComma pos l
  else if c =? 58 then single TokColon pos l
  else if c =? 59 then single TokSemicolon pos l
  else if c =? 40 then single TokLParen pos l
  else if c =? 41 then single TokRParen pos l
  else if c =? 123 then single TokLBrace pos (set_condition l true (braceCount l + 1))
  else if c =? 125 then
    let b := braceCount l - 1 in
    single TokRBrace pos (if b <=? 0 then set_condition l false 0 else set_condition l (inCondition l) b)
  else if c =? 34 then let '(s, l1) := readString l in (mkToken TokString s pos, l1)
  else if c =? 0 then (mkToken TokEOF "" pos, readChar l)
  else if isLetter c then
    let '(s, l1) := readIdentifier l in (mkToken (lookupIdent s) s pos, l1)
  else if isDigit c then
    let '(s, t, l1) := readNumberOrIP l in (mkToken t s pos, l1)
  else single TokIllegal pos l.

End Letters.

(** ** Every method keeps the cursor consistent and never moves backwards *)

(** [ch] is the rune under the cursor and [readPosition] is one past it. *)
Definition lex_ok (l : Lexer) : Prop :=
  ch l = rune_at (input l) (position l) /\ readPosition l = S (position l).

(** [l'] is a consistent lexer over the same text, at least as far as [l]. *)
Definition advances (l l' : Lexer) : Prop :=
  lex_ok l' /\ input l' = input l /\ (position l <= position l')%nat.

Lemma advances_refl l : lex_ok l -> advances l l.
Proof. unfold advances. auto. Qed.

Lemma advances_trans l1 l2 l3 : advances l1 l2 -> advances l2 l3 -> advances l1 l3.
Proof. unfold advances. intros (?&?&?) (?&?&?). split_and!; [done|congruence|lia]. Qed.

Lemma advances_ok l l' : advances l l' -> lex_ok l'.
Proof. by intros []. Qed.

Lemma readChar_advances l : lex_ok l -> advances l (readChar l).
Proof. intros [_ Hr]. unfold advances, lex_ok; simpl. rewrite Hr. auto. Qed.

Lemma readChar_position l : lex_ok l -> position (readChar l) = S (position l).
Proof. by intros [_ Hr]; simpl; rewrite Hr. Qed.

Lemma NewLexerRunes_ok rs : lex_ok (NewLexerRunes rs).
Proof. done. Qed.

Lemma rune_at_lt rs i : rune_at rs i <> 0 -> (i < length rs)%nat.
Proof.
  unfold rune_at. intros H. apply lookup_lt_is_Some.
  destruct (rs !! i); [eauto | done].
Qed.

Lemma read_while_advances fuel cond l : lex_ok l -> advances l (read_while fuel cond l).
Proof.
  revert l. induction fuel as [|f IH]; intros l Hl; simpl; [by apply advances_refl|].
  destruct (cond (ch l)); [|by apply advances_refl].
  eapply advances_trans; [by apply readChar_advances|].
  apply IH. by eapply advances_ok, readChar_advances.
Qed.

Lemma scan_advances cond l : lex_ok l -> advances l (scan cond l).
Proof. apply read_while_advances. Qed.

(** The scanning loops end because their condition fails, not for lack of fuel. *)
Lemma read_while_stops fuel cond l :
  lex_ok l -> cond 0 = false -> (remaining l < fuel)%nat ->
  cond (ch (read_while fuel cond l)) = false.
Proof.
  revert l. induction fuel as [|f IH]; intros l Hl H0 Hf; simpl; [lia|].
  destruct (cond (ch l)) eqn:E; [|done].
  assert (position l < length (input l))%nat.
  { apply rune_at_lt. destruct Hl as [<- _]. intros Hz. by rewrite Hz, H0 in E. }
  apply IH; [by eapply advances_ok, readChar_advances | done |].
  unfold remaining in *. rewrite readChar_position by done. simpl. lia.
Qed.

Lemma scan_stops cond l :
  lex_ok l -> cond 0 = false -> cond (ch (scan cond l)) = false.
Proof. intros. apply read_while_stops; auto. Qed.

#[export] Hint Resolve advances_refl readChar_advances scan_advances NewLexerRunes_ok : pdp.

(** One step of a chain of [advances]. *)
Ltac adv_step := eapply advances_trans; [solve [eauto with pdp] |].

Lemma read_ip_parts_advances n l :
  lex_ok l -> match read_ip_parts n l with
              | (Some l', _) => advances l l'
              | (None, l') => advances l l'
              end.
Proof.
  revert l. induction n as [|n IH]; intros l Hl; cbn [read_ip_parts];
    [by apply advances_refl|].
  destruct (negb (ch l =? 46)); [by apply advances_refl|].
  pose proof (readChar_advances l Hl) as H1.
  destruct (negb (isDigit (ch (readChar l)))); [done|].
  pose proof (scan_advances isDigit _ (advances_ok _ _ H1)) as H2.
  specialize (IH _ (advances_ok _ _ H2)).
  destruct (read_ip_parts n _) as [[l'|] l'']; eauto using advances_trans.
Qed.

(** A digit under the cursor is consumed. *)
Lemma scan_consumes cond l :
  lex_ok l -> cond 0 = false -> cond (ch l) = true ->
  (position l < position (scan cond l))%nat.
Proof.
  intros Hl H0 Hc. unfold scan. simpl. rewrite Hc.
  pose proof (readChar_advances l Hl) as H1.
  destruct (read_while_advances (remaining l) cond _ (advances_ok _ _ H1)) as (_&_&H2).
  rewrite readChar_position in H2 by done. lia.
Qed.

Lemma readNumberOrIP_advances l s t l' :
  lex_ok l -> isDigit (ch l) = true -> readNumberOrIP l = (s, t, l') ->
  advances l l' /\ (position l < position l')%nat.
Proof.
  intros Hl Hd. unfold readNumberOrIP.
  pose proof (scan_advances isDigit l Hl) as H1.
  pose proof (scan_consumes isDigit l Hl eq_refl Hd) as Hlt.
  assert (forall l2, advances (scan isDigit l) l2 ->
            advances l l2 /\ (position l < position l2)%nat) as Hfin.
  { intros l2 H2. split; [by eapply advances_trans|]. destruct H2 as (_&_&?). lia. }
  pose proof (read_ip_parts_advances 3 _ (advances_ok _ _ H1)) as H2.
  destruct (ch (scan isDigit l) =? 46); [|intros [= <- <- <-]; apply Hfin; auto with pdp].
  - destruct (read_ip_parts 3 _) as [[l2|] l2']; [|by intros [= <- <- <-]; apply Hfin].
    destruct (ch l2 =? 47); [|by intros [= <- <- <-]; apply Hfin].
    pose proof (readChar_advances l2 (advances_ok _ _ H2)) as H3.
    destruct (negb _); intros [= <- <- <-]; apply Hfin; eapply advances_trans; eauto.
    eapply advances_trans; [done|]. apply scan_advances. by eapply advances_ok.
  - apply advances_refl. by eapply advances_ok.
Qed.

Lemma readString_advances l s l' :
  lex_ok l -> readString l = (s, l') ->
  advances l l' /\ (position l < position l')%nat.
Proof.
  intros Hl. unfold readString. intros [= _ <-].
  pose proof (readChar_advances l Hl) as H1.
  pose proof (scan_advances string_body _ (advances_ok _ _ H1)) as H2.
  pose proof (readChar_advances _ (advances_ok _ _ H2)) as H3.
  split; [by do 2 (eapply advances_trans; [done|])|].
  destruct H2 as (_&_&H2), H3 as (_&_&H3). rewrite readChar_position in H2 by done. lia.
Qed.

Section LetterLemmas.
Context `{UnicodeTable}.

(** What one token means for the cursor. *)
Definition token_step (l : Lexer) (tok : Token) (l' : Lexer) : Prop :=
  advances l l' /\ (position l <= Offset (TPos tok) < position l')%nat
  /\ (Type_ tok <> TokEOF -> (Offset (TPos tok) < length (input l))%nat).

Lemma single_step t pos l :
  lex_ok l -> Offset pos = position l -> (ch l <> 0) ->
  token_step l (single t pos l).1 (single t pos l).2.
Proof.
  intros Hl Hp Hc. unfold token_step, single; simpl. rewrite Hp.
  split; [by apply readChar_advances|]. destruct Hl as [Hch ->]. split; [lia|].
  intros _. apply rune_at_lt. by rewrite <- Hch.
Qed.

Lemma pair_or_step second t other pos l :
  lex_ok l -> Offset pos = position l -> ch l <> 0 ->
  token_step l (pair_or second t other pos l).1 (pair_or second t other pos l).2.
Proof.
  intros Hl Hp Hc. unfold pair_or.
  destruct (peekChar l =? second); [|by apply single_step].
  unfold token_step; simpl Type_; simpl TPos; rewrite Hp.
  pose proof (readChar_advances l Hl) as H1.
  split; [eapply advances_trans; [done|]; by apply readChar_advances, (advances_ok l)|].
  simpl. rewrite (proj2 Hl). split; [lia|].
  intros _. apply rune_at_lt. by rewrite <- (proj1 Hl).
Qed.

Lemma set_condition_ok l b n : lex_ok l -> lex_ok (set_condition l b n).
Proof. done. Qed.

Lemma NextToken_step l tok l' :
  lex_ok l -> NextToken l = (tok, l') -> token_step l tok l'.
Proof.
  intros Hl. pose proof (scan_advances is_blank l Hl) as Hs.
  pose proof (advances_ok _ _ Hs) as Ho.
  set (m := skipWhitespace l). fold (skipWhitespace l) in Hs, Ho. fold m in Hs, Ho.
  intros Hn. cut (token_step m tok l').
  { intros (H1 & H2 & H3). destruct Hs as (_ & Hi & Hle). rewrite Hi in H3.
    unfold token_step. split_and!; [by eapply advances_trans; [|done]; repeat split; try apply Ho | lia | lia | done]. }
  revert Hn. unfold NextToken. fold m.
  set (pos := mkPosition (line m) (col m) (position m)).
  assert (Offset pos = position m) as Hp by done. clearbody pos.
  assert (forall t, ch m <> 0 -> token_step m (single t pos m).1 (single t pos m).2) as Hsingle
    by (intros; by apply single_step).
  assert (forall s t o, ch m <> 0 -> token_step m (pair_or s t o pos m).1 (pair_or s t o pos m).2) as Hpair
    by (intros; by apply pair_or_step).
  assert (forall b n t, ch m <> 0 ->
    token_step m (single t pos (set_condition m b n)).1 (single t pos (set_condition m b n)).2) as Hset.
  { intros b n t Hc.
    exact (single_step t pos (set_condition m b n) (set_condition_ok _ b n Ho) Hp Hc). }
  clearbody m. clear Hs Hl.
  repeat match goal with
  | |- context [if ch m =? ?z then _ else _] =>
      let E := fresh "E" in destruct (ch m =? z) eqn:E; bool_to_prop;
      [solve [let Heq := fresh in intros Heq;
        match type of Heq with ?a = _ =>
          replace tok with a.1 by (by rewrite Heq); replace l' with a.2 by (by rewrite Heq)
        end; first [apply Hpair | apply Hsingle | apply Hset | destruct (_ <=? 0); apply Hset]; lia] |] end.
  destruct (ch m =? 34) eqn:E34; [|destruct (ch m =? 0) eqn:E0']; bool_to_prop.
  - destruct (readString m) as [s l1] eqn:Es. intros [= <- <-].
    destruct (readString_advances _ _ _ Ho Es) as [H1 H2].
    unfold token_step; simpl. rewrite Hp. split_and!; [done|lia|done|].
    intros _. apply rune_at_lt. rewrite <- (proj1 Ho). lia.
  - intros [= <- <-]. unfold token_step; simpl. rewrite Hp, (proj2 Ho).
    split_and!; [by apply readChar_advances|lia|lia|done].
  - destruct (isLetter (ch m)) eqn:El.
    + destruct (readIdentifier m) as [s l1] eqn:Es. intros [= <- <-].
      unfold readIdentifier in Es. injection Es as Es1 Es2.
      assert ((fun c => isLetter c || isDigit c) 0 = false) as H0 by done.
      pose proof (scan_advances (fun c => isLetter c || isDigit c) m Ho) as H1.
      pose proof (scan_consumes (fun c => isLetter c || isDigit c) m Ho H0
        ltac:(simpl; by rewrite El)) as H2.
      rewrite Es2 in H1, H2.
      unfold token_step; simpl. rewrite Hp. split_and!; [done|lia|done|].
      intros _. apply rune_at_lt. rewrite <- (proj1 Ho). lia.
    + destruct (isDigit (ch m)) eqn:Ed.
      * destruct (readNumberOrIP m) as [[s t] l1] eqn:Es. intros [= <- <-].
        destruct (readNumberOrIP_advances _ _ _ _ Ho Ed Es) as [H1 H2].
        unfold token_step; simpl. rewrite Hp. split_and!; [done|lia|done|].
        intros _. apply rune_at_lt. rewrite <- (proj1 Ho). lia.
      * intros Heq. replace tok with (single TokIllegal pos m).1 by (by rewrite Heq).
        replace l' with (single TokIllegal pos m).2 by (by rewrite Heq). apply Hsingle. lia.
Qed.
End LetterLemmas.
