(* ===== verification/Parser.v ===== *)
(** * The Pratt parser ([internal/parser/parser.go], [obligation.go])

    The parser state is the struct of the source without its two dispatch
    maps, which are constant: [prefix_fn] and [infix_op] are their contents.
    A parsing function maps a state to [None] when its recursion bound is
    exhausted, and otherwise to the value it returns ([None] for a nil
    pointer) and the state it leaves.  [Parse_total] shows that the bound of
    [parse_fuel] is never exhausted. *)

From S2P Require Import Prelude GoStr Ast GoNet GoTime Lexer.
From stdpp Require Import options.

(** ** Errors: the position and what the message reports *)

Inductive ErrorKind :=
| ExpectedToken (want got : TokenType) (lit : string)
| BadPolicyStart (lit : string)
| BadScopeKeyword (want : TokenType) (lit : string)
| BadScopeOperator (lit : string)
| BadEntityID (lit : string)
| BadScopeValue (lit : string)
| NoPrefixFunction (got : TokenType) (lit : string)
| BadInteger (lit : string)
| BadIPAddress (lit : string)
| BadPrefixOperator (lit : string)
| BadInfixOperator (lit : string)
| BadNamespace (lit : string).

Record PError := mkPError { err_pos : Position; err_kind : ErrorKind }.

Record Parser := mkParser {
  lexer : Lexer;
  errors : list PError;
  curToken : Token;
  peekToken : Token
}.

(** ** The state monad of the parsing functions *)

Definition P (A : Type) : Type := Parser -> option (option A * Parser).

Definition pret {A} (a : A) : P A := fun p => Some (Some a, p).
Definition pnil {A} : P A := fun p => Some (None, p).
Definition pbind {A B} (m : P A) (k : A -> P B) : P B := fun p =>
  match m p with
  | None => None
  | Some (None, p') => Some (None, p')
  | Some (Some a, p') => k a p'
  end.
Notation "'do' x <- m ; k" := (pbind m (fun x => k))
  (at level 10, x pattern, m at level 100, k at level 200) : pdp_scope.
Notation "'exec' m ; k" := (pbind m (fun _ => k))
  (at level 10, m at level 100, k at level 200) : pdp_scope.

Definition get : P Parser := fun p => Some (Some p, p).

Definition addError (pos : Position) (k : ErrorKind) (p : Parser) : Parser :=
  mkParser (lexer p) (errors p ++ [mkPError pos k]) (curToken p) (peekToken p).

(** [p.addError(...); return nil]. *)
Definition fail {A} (pos : Position) (k : ErrorKind) : P A := fun p => Some (None, addError pos k p).

(** ** Precedences *)

Definition LOWEST : nat := 1.
Definition OR : nat := 2.
Definition AND : nat := 3.
Definition EQUALS : nat := 4.
Definition LESSGREATER : nat := 5.
Definition PREFIX : nat := 6.

Definition precedence_of (t : TokenType) : nat :=
  match t with
  | TokOr => OR
  | TokAnd => AND
  | TokEq | TokNe => EQUALS
  | TokGt | TokLt | TokGe | TokLe | TokIn | TokContains => LESSGREATER
  | _ => LOWEST
  end.

Definition infix_op (t : TokenType) : option BinaryOp :=
  match t with
  | TokOr => Some BinOpOr
  | TokAnd => Some BinOpAnd
  | TokEq => Some BinOpEq
  | TokNe => Some BinOpNe
  | TokGt => Some BinOpGt
  | TokLt => Some BinOpLt
  | TokGe => Some BinOpGe
  | TokLe => Some BinOpLe
  | TokIn => Some BinOpIn
  | TokContains => Some BinOpContains
  | _ => None
  end.

Inductive PrefixFn :=
| PfVariable | PfNumber | PfString | PfIP | PfBoolean | PfPrefixExpression | PfGrouped.

(** The prefix table; the second registration of [TokIdent] replaces the first. *)
Definition prefix_fn (t : TokenType) : option PrefixFn :=
  match t with
  | TokIdent | TokPrincipal | TokResource => Some PfVariable
  | TokInt => Some PfNumber
  | TokString => Some PfString
  | TokIP => Some PfIP
  | TokTrue | TokFalse => Some PfBoolean
  | TokNot => Some PfPrefixExpression
  | TokLParen => Some PfGrouped
  | _ => None
  end.

Section Parsing.
Context `{UnicodeTable}.

(** ** Token stream *)

Definition nextToken (p : Parser) : Parser :=
  let '(tok, l) := NextToken (lexer p) in
  mkParser l (errors p) (peekToken p) tok.

Definition curTokenIs (t : TokenType) (p : Parser) : bool := bool_decide (Type_ (curToken p) = t).
Definition peekTokenIs (t : TokenType) (p : Parser) : bool := bool_decide (Type_ (peekToken p) = t).

Definition advance : P unit := fun p => Some (Some tt, nextToken p).

Definition expectPeek (t : TokenType) : P unit := fun p =>
  if peekTokenIs t p then Some (Some tt, nextToken p)
  else Some (None, addError (TPos (peekToken p))
    (ExpectedToken t (Type_ (peekToken p)) (Literal (peekToken p))) p).

Definition peekPrecedence (p : Parser) : nat := precedence_of (Type_ (peekToken p)).
Definition curPrecedence (p : Parser) : nat := precedence_of (Type_ (curToken p)).

(** The zero value of [Token], overwritten before the constructor returns. *)
Definition zero_token : Token := mkToken TokIllegal "" no_pos.

Definition NewParser (l : Lexer) : Parser :=
  nextToken (nextToken (mkParser l [] zero_token zero_token)).

(** ** Expressions *)

Definition parseNumber : P Node :=
  do p <- get;
  match ParseInt (Literal (curToken p)) with
  | None => fail (TPos (curToken p)) (BadInteger (Literal (curToken p)))
  | Some v => pret (ValueNode (int_value v (TPos (curToken p))))
  end.

Definition parseString : P Node :=
  do p <- get;
  pret (ValueNode (string_value (Literal (curToken p)) (TPos (curToken p)))).

Definition parseIP : P Node :=
  do p <- get;
  match ParseIP (Literal (curToken p)) with
  | Some ip => pret (ValueNode (ip_value ip (TPos (curToken p))))
  | None =>
      match ParseCIDR (Literal (curToken p)) with
      | Some n => pret (ValueNode (ipnet_value n (TPos (curToken p))))
      | None => fail (TPos (curToken p)) (BadIPAddress (Literal (curToken p)))
      end
  end.

Definition parseBoolean : P Node :=
  do p <- get;
  pret (ValueNode (bool_value (curTokenIs TokTrue p) (TPos (curToken p)))).

Definition parseVariable : P Node :=
  do p <- get;
  let pos := TPos (curToken p) in
  let lit := Literal (curToken p) in
  do scope <- (if decide (lit = "principal") then pret VarScopePrincipal
               else if decide (lit = "resource") then pret VarScopeResource
               else if decide (lit = "context") then pret VarScopeContext
               else fail pos (BadNamespace lit));
  exec expectPeek TokDot;
  exec expectPeek TokIdent;
  do p <- get;
  pret (VariableNode scope (Literal (curToken p)) pos).

(** A parsing function that returns nil as a [Node]. *)
Definition as_node (m : P Node) : Parser -> option (Node * Parser) := fun p =>
  match m p with
  | None => None
  | Some (o, p') => Some (default NodeNil o, p')
  end.

Section Rec.
(** The recursive call of [parseExpression]. *)
Variable parseExpression_rec : nat -> Parser -> option (Node * Parser).

Definition sub_expression (prec : nat) : P Node := fun p =>
  match parseExpression_rec prec p with
  | None => None
  | Some (n, p') => Some (Some n, p')
  end.

Definition parsePrefixExpression : P Node :=
  do p <- get;
  if curTokenIs TokNot p then
    exec advance;
    do child <- sub_expression PREFIX;
    pret (UnaryExprNode UnaryOpNot child (TPos (curToken p)))
  else fail (TPos (curToken p)) (BadPrefixOperator (Literal (curToken p))).

Definition parseGroupedExpression : P Node :=
  exec advance;
  do expr <- sub_expression LOWEST;
  exec expectPeek TokRParen;
  pret expr.

Definition parseInfixExpression (left : Node) : P Node :=
  do p <- get;
  match infix_op (Type_ (curToken p)) with
  | None => fail (TPos (curToken p)) (BadInfixOperator (Literal (curToken p)))
  | Some op =>
      let precedence := curPrecedence p in
      exec advance;
      do rhs <- sub_expression precedence;
      pret (BinaryExprNode op left rhs (TPos (curToken p)))
  end.

Definition parsePrefix (f : PrefixFn) : P Node :=
  match f with
  | PfVariable => parseVariable
  | PfNumber => parseNumber
  | PfString => parseString
  | PfIP => parseIP
  | PfBoolean => parseBoolean
  | PfPrefixExpression => parsePrefixExpression
  | PfGrouped => parseGroupedExpression
  end.
End Rec.

(** [parseExpression] and its loop; both consume one unit of [fuel] per call. *)
Fixpoint parseExpression (fuel : nat) (precedence : nat) (p : Parser) : option (Node * Parser) :=
  match fuel with
  | O => None
  | S f =>
      match prefix_fn (Type_ (curToken p)) with
      | None => Some (NodeNil, addError (TPos (curToken p))
                  (NoPrefixFunction (Type_ (curToken p)) (Literal (curToken p))) p)
      | Some pf =>
          match as_node (parsePrefix (parseExpression f) pf) p with
          | None => None
          | Some (leftExp, p1) => infixLoop f precedence leftExp p1
          end
      end
  end
with infixLoop (fuel : nat) (precedence : nat) (leftExp : Node) (p : Parser) : option (Node * Parser) :=
  match fuel with
  | O => None
  | S f =>
      if negb (peekTokenIs TokRBrace p) && negb (peekTokenIs TokEOF p)
         && (precedence <? peekPrecedence p)%nat
      then match infix_op (Type_ (peekToken p)) with
           | None => Some (leftExp, p)
           | Some _ =>
               match as_node (parseInfixExpression (parseExpression f) leftExp) (nextToken p) with
               | None => None
               | Some (e, p1) => infixLoop f precedence e p1
               end
           end
      else Some (leftExp, p)
  end.

(** A bound for everything that follows the current token. *)
Definition parse_fuel (p : Parser) : nat := 2 * length (input (lexer p)) + 4.

(** ** Scopes, obligations, policies *)

Definition parseScope (scopeKeyword : TokenType) : P ScopeNode :=
  do p <- get;
  let pos := TPos (curToken p) in
  if negb (curTokenIs scopeKeyword p)
  then fail pos (BadScopeKeyword scopeKeyword (Literal (curToken p)))
  else
  do op <- (if peekTokenIs TokEq p then pret ScopeOpEq
            else if peekTokenIs TokIn p then pret ScopeOpIn
            else fail (TPos (peekToken p)) (BadScopeOperator (Literal (peekToken p))));
  exec advance;
  exec advance;
  do p <- get;
  if curTokenIs TokAny p then pret (mkScope ScopeOpAny "" "" pos)
  else if curTokenIs TokIdent p || curTokenIs TokPrincipal p
          || curTokenIs TokAction p || curTokenIs TokResource p then
    let entity_type := Literal (curToken p) in
    exec expectPeek TokColon;
    do p <- get;
    if negb (peekTokenIs TokString p) && negb (peekTokenIs TokIdent p)
    then fail (TPos (peekToken p)) (BadEntityID (Literal (peekToken p)))
    else
      exec advance;
      do p <- get;
      pret (mkScope op entity_type (Literal (curToken p)) pos)
  else fail (TPos (curToken p)) (BadScopeValue (Literal (curToken p))).

Definition parseObligation : P ObligationNode :=
  do p <- get;
  let position := TPos (curToken p) in
  exec expectPeek TokIdent;
  do p <- get;
  let type := Literal (curToken p) in
  if peekTokenIs TokString p then
    exec advance;
    do p <- get;
    pret (mkObligation type (Literal (curToken p)) ∅ position)
  else pret (mkObligation type "" ∅ position).

(** [for p.peekTokenIs(TokObligation) { ... }]. *)
Fixpoint parseObligations (fuel : nat) : P (list ObligationNode) := fun p =>
  match fuel with
  | O => None
  | S f =>
      if peekTokenIs TokObligation p then
        (exec advance;
         do o <- parseObligation;
         do os <- parseObligations f;
         pret (o :: os)) p
      else Some (Some [], p)
  end.

(** The optional [when]/[unless] clause: the condition and [IsUnless]. *)
Definition parseCondition : P (Node * bool) :=
  do p <- get;
  if peekTokenIs TokWhen p || peekTokenIs TokUnless p then
    exec advance;
    do p <- get;
    let unless := curTokenIs TokUnless p in
    exec expectPeek TokLBrace;
    exec advance;
    do cond <- sub_expression (parseExpression (parse_fuel p)) LOWEST;
    if node_is_nil cond then pnil
    else
      exec expectPeek TokRBrace;
      pret (cond, unless)
  else pret (NodeNil, false).

Definition parseEffect : P Effect :=
  do p <- get;
  if curTokenIs TokPermit p then pret EffectPermit
  else if curTokenIs TokForbid p then pret EffectForbid
  else fail (TPos (curToken p)) (BadPolicyStart (Literal (curToken p))).

Definition parsePolicy : P PolicyNode :=
  do p <- get;
  let pos := TPos (curToken p) in
  do effect <- parseEffect;
  exec expectPeek TokLParen;
  exec advance;
  do principal <- parseScope TokPrincipal;
  exec expectPeek TokComma;
  exec advance;
  do action <- parseScope TokAction;
  exec expectPeek TokComma;
  exec advance;
  do resource <- parseScope TokResource;
  exec expectPeek TokRParen;
  do (condition, unless) <- parseCondition;
  do p <- get;
  do obligations <- parseObligations (parse_fuel p);
  exec expectPeek TokSemicolon;
  pret (mkPolicy "" "" effect (Some principal) (Some action) (Some resource)
          condition unless [] [] obligations pos).

(** [Parse]: [for !p.curTokenIs(TokEOF) { ... }]. *)
Fixpoint parse_loop (fuel : nat) (p : Parser) : option (list PolicyNode * Parser) :=
  match fuel with
  | O => None
  | S f =>
      if curTokenIs TokEOF p then Some ([], p)
      else match parsePolicy p with
           | None => None
           | Some (o, p1) =>
               match parse_loop f (nextToken p1) with
               | None => None
               | Some (ps, p2) => Some (option_list o ++ ps, p2)
               end
           end
  end.
Definition Parse (p : Parser) : option (list PolicyNode * Parser) := parse_loop (parse_fuel p) p.

(** The parser applied to a source text, as every caller does. *)
Definition ParseText (src : string) : option (list PolicyNode * list PError) :=
  match Parse (NewParser (NewLexer src)) with
  | None => None
  | Some (ps, p) => Some (ps, errors p)
  end.

End Parsing.
