(* ===== verification/ParserFacts.v ===== *)
(** * The parser terminates, and accepts only complete trees

    Every parsing function consumes tokens in source order; the offset of the
    current token bounds the recursion, so the bound [parse_fuel] is enough
    and [Parse] is total.  A parse that records no error returns policies
    without nil scopes and without nil expression nodes. *)

From S2P Require Import Prelude GoStr Ast GoNet GoTime Lexer Parser.
From stdpp Require Import options.

Section Facts.
Context `{UnicodeTable}.

(** ** Invariant and progress of the parser state *)

Definition parser_ok (p : Parser) : Prop :=
  lex_ok (lexer p)
  /\ Offset (TPos (curToken p)) < Offset (TPos (peekToken p))
  /\ Offset (TPos (peekToken p)) < position (lexer p)
  /\ (Type_ (curToken p) <> TokEOF -> Offset (TPos (curToken p)) < length (input (lexer p)))
  /\ (Type_ (peekToken p) <> TokEOF -> Offset (TPos (peekToken p)) < length (input (lexer p))).

(** [p'] is a later state over the same text; an empty error list was empty before. *)
Definition padv (p p' : Parser) : Prop :=
  parser_ok p' /\ input (lexer p') = input (lexer p)
  /\ Offset (TPos (curToken p)) <= Offset (TPos (curToken p'))
  /\ (errors p' = [] -> errors p = []).

(** The runes from the current token to the end of the text. *)
Definition left_over (p : Parser) : nat :=
  length (input (lexer p)) - Offset (TPos (curToken p)).

(** [m], run in [p], ends; on success [Q] holds, and without errors it succeeds. *)
Definition runs {A} (m : P A) (p : Parser) (Q : A -> Parser -> Prop) : Prop :=
  exists o p', m p = Some (o, p') /\ padv p p' /\ (forall a, o = Some a -> Q a p')
               /\ (errors p' = [] -> is_Some o).

(** The same for the functions that return a [Node] instead of nil. *)
Definition runs_node (m : Parser -> option (Node * Parser)) (p : Parser) : Prop :=
  exists n p', m p = Some (n, p') /\ padv p p' /\ (errors p' = [] -> node_complete n = true).

Definition complete_if_ok (n : Node) (p : Parser) : Prop :=
  errors p = [] -> node_complete n = true.

Lemma padv_refl p : parser_ok p -> padv p p.
Proof. unfold padv. auto. Qed.

Lemma padv_trans p1 p2 p3 : padv p1 p2 -> padv p2 p3 -> padv p1 p3.
Proof. unfold padv. intros (?&?&?&?) (?&?&?&?). split_and!; [done|congruence|lia|auto]. Qed.

Lemma padv_ok p p' : padv p p' -> parser_ok p'.
Proof. by intros []. Qed.

Lemma padv_left_over p p' : padv p p' -> left_over p' <= left_over p.
Proof. unfold left_over. intros (_ & -> & ? & _). lia. Qed.

Lemma nextToken_ok p : parser_ok p -> parser_ok (nextToken p).
Proof.
  intros (Hl & H1 & H2 & H3 & H4). unfold nextToken.
  destruct (NextToken (lexer p)) as [tok l'] eqn:E.
  destruct (NextToken_step _ _ _ Hl E) as ((Ho & Hi & Hp) & Hlt & He).
  unfold parser_ok; simpl. rewrite Hi. split_and!; [done|lia|lia|done|done].
Qed.

Lemma nextToken_padv p : parser_ok p -> padv p (nextToken p).
Proof.
  intros Hp. pose proof (nextToken_ok p Hp) as Hok. destruct Hp as (Hl & H1 & H2 & H3 & H4).
  unfold padv. split; [done|]. clear Hok. unfold nextToken.
  destruct (NextToken (lexer p)) as [tok l'] eqn:E.
  destruct (NextToken_step _ _ _ Hl E) as ((Ho & Hi & Hp) & _). simpl.
  split_and!; [done|lia|done].
Qed.

Lemma nextToken_cur p : curToken (nextToken p) = peekToken p.
Proof. unfold nextToken. by destruct (NextToken _). Qed.

Lemma nextToken_left_over p :
  parser_ok p -> Type_ (curToken p) <> TokEOF -> left_over (nextToken p) < left_over p.
Proof.
  intros Hp Hne. pose proof (nextToken_padv p Hp) as (_ & Hi & _).
  unfold left_over. rewrite Hi, nextToken_cur.
  destruct Hp as (_ & ? & _ & Hc & _). specialize (Hc Hne). lia.
Qed.

Lemma addError_padv pos k p : parser_ok p -> padv p (addError pos k p).
Proof.
  intros Hp. unfold padv, addError; simpl. split_and!; [done|done|lia|].
  by intros [_ [=]]%app_eq_nil.
Qed.

Lemma NewParser_ok rs : parser_ok (NewParser (NewLexerRunes rs)).
Proof.
  unfold NewParser. set (p0 := mkParser _ _ _ _).
  unfold nextToken at 2. simpl lexer.
  destruct (NextToken (NewLexerRunes rs)) as [t1 l1] eqn:E1.
  destruct (NextToken_step _ _ _ (NewLexerRunes_ok rs) E1) as ((Ho1 & Hi1 & Hp1) & Hlt1 & He1).
  unfold nextToken. simpl lexer.
  destruct (NextToken l1) as [t2 l2] eqn:E2.
  destruct (NextToken_step _ _ _ Ho1 E2) as ((Ho2 & Hi2 & Hp2) & Hlt2 & He2).
  unfold parser_ok; simpl. rewrite Hi2. split_and!; [done|lia|lia| |done].
  rewrite Hi1. done.
Qed.

(** ** Rules of [runs] *)

Lemma runs_bind {A B} (m : P A) (k : A -> P B) p Q R :
  runs m p Q ->
  (forall a p_, padv p p_ -> Q a p_ -> runs (k a) p_ R) ->
  runs (pbind m k) p R.
Proof.
  intros (o & p1 & Hm & Ha & HQ & He) Hk. unfold runs, pbind. rewrite Hm.
  destruct o as [a|].
  - destruct (Hk a p1 Ha (HQ a eq_refl)) as (o' & p2 & Hk' & Ha' & HR & He').
    exists o', p2. split_and!; [done|by eapply padv_trans|done|done].
  - exists None, p1. split_and!; [done|done|done|].
    intros Hn. by destruct (He Hn).
Qed.

Lemma runs_weaken {A} (m : P A) p (Q R : A -> Parser -> Prop) :
  runs m p Q -> (forall a p', padv p p' -> Q a p' -> R a p') -> runs m p R.
Proof. intros (o & p1 & ? & ? & HQ & ?) HR. exists o, p1. split_and!; eauto. Qed.

Lemma runs_pret {A} (a : A) p (Q : A -> Parser -> Prop) :
  parser_ok p -> Q a p -> runs (pret a) p Q.
Proof. intros. exists (Some a), p. split_and!; [done|by apply padv_refl|naive_solver|done]. Qed.

Lemma runs_get p (Q : Parser -> Parser -> Prop) : parser_ok p -> Q p p -> runs get p Q.
Proof. intros. exists (Some p), p. split_and!; [done|by apply padv_refl|naive_solver|done]. Qed.

Lemma runs_fail {A} pos k p (Q : A -> Parser -> Prop) : parser_ok p -> runs (fail pos k) p Q.
Proof.
  intros. exists None, (addError pos k p).
  split_and!; [done|by apply addError_padv|done|].
  simpl. by intros [_ [=]]%app_eq_nil.
Qed.

Lemma runs_advance p (Q : unit -> Parser -> Prop) :
  parser_ok p -> Q tt (nextToken p) -> runs advance p Q.
Proof.
  intros. exists (Some tt), (nextToken p).
  split_and!; [done|by apply nextToken_padv|by intros [] _|done].
Qed.

Lemma runs_expectPeek t p (Q : unit -> Parser -> Prop) :
  parser_ok p ->
  (Type_ (peekToken p) = t -> Q tt (nextToken p)) -> runs (expectPeek t) p Q.
Proof.
  intros Hp HQ. unfold runs, expectPeek. destruct (peekTokenIs t p) eqn:E.
  - unfold peekTokenIs in E. bool_to_prop. by apply runs_advance; auto.
  - by apply (runs_fail (A := unit)).
Qed.

Lemma runs_sub_expression rec prec p :
  runs_node (rec prec) p -> runs (sub_expression rec prec) p complete_if_ok.
Proof.
  intros (n & p' & Hr & Ha & Hc). exists (Some n), p'.
  unfold sub_expression. rewrite Hr. split_and!; [done|done| |done].
  by intros a [= <-].
Qed.

Lemma as_node_runs (m : P Node) p : runs m p complete_if_ok -> runs_node (as_node m) p.
Proof.
  intros (o & p' & Hm & Ha & HQ & He). exists (default NodeNil o), p'.
  unfold as_node. rewrite Hm. split_and!; [done|done|].
  intros Hn. destruct o as [n|]; [by apply HQ|]. by destruct (He Hn).
Qed.

Lemma runs_node_trans m p p1 : padv p p1 -> runs_node m p1 -> runs_node m p1 /\
  forall n p', m p1 = Some (n, p') -> padv p p'.
Proof.
  intros Ha Hr. split; [done|]. intros n p' Hm.
  destruct Hr as (? & ? & Hm' & ? & _). simplify_eq. by eapply padv_trans.
Qed.

(** One step of a [do] block. *)
Ltac run_step :=
  match goal with
  | |- runs (pbind get _) ?p _ =>
      eapply (runs_bind _ _ _ (fun a p' => a = p /\ p' = p));
      [apply runs_get; [eauto using padv_ok|done] | intros ? ? ? [-> ->]]
  | |- runs (pbind advance _) ?p _ =>
      eapply (runs_bind _ _ _ (fun _ p' => p' = nextToken p));
      [apply runs_advance; [eauto using padv_ok|reflexivity] | intros [] ? ? ->]
  | |- runs (pbind (expectPeek ?t) _) ?p _ =>
      eapply (runs_bind _ _ _ (fun _ p' => p' = nextToken p /\ Type_ (peekToken p) = t));
      [apply runs_expectPeek; [eauto using padv_ok|auto] | intros [] ? ? [-> ?]]
  | |- runs (fail _ _) _ _ => apply runs_fail; eauto using padv_ok
  | |- runs (pret _) _ _ => apply runs_pret; [eauto using padv_ok|]
  | |- runs (if ?c then _ else _) _ _ => destruct c eqn:?
  | |- runs (match ?o with Some _ => _ | None => _ end) _ _ => destruct o eqn:?
  end.

(** ** Expressions *)

Lemma parseVariable_runs p : parser_ok p -> runs parseVariable p complete_if_ok.
Proof.
  intros Hp. unfold parseVariable. run_step.
  eapply (runs_bind _ _ _ (fun _ _ => True)).
  { repeat case_decide; repeat run_step; done. }
  intros scope p1 Ha _. repeat run_step. done.
Qed.

Lemma parsePrefix_runs rec pf p :
  parser_ok p ->
  Type_ (curToken p) <> TokEOF ->
  (forall prec p', parser_ok p' -> left_over p' < left_over p -> runs_node (rec prec) p') ->
  runs (parsePrefix rec pf) p complete_if_ok.
Proof.
  intros Hp Hne Hrec. pose proof (nextToken_left_over p Hp Hne) as Hlt.
  assert (forall prec k, (forall n p1, padv (nextToken p) p1 -> complete_if_ok n p1 ->
             runs (k n) p1 complete_if_ok) ->
           runs (exec advance; do n <- sub_expression rec prec; k n) p complete_if_ok) as Hsub.
  { intros prec k Hk. run_step.
    eapply runs_bind; [apply runs_sub_expression, Hrec; eauto using nextToken_ok|done]. }
  destruct pf; simpl parsePrefix.
  - by apply parseVariable_runs.
  - unfold parseNumber. repeat run_step. done.
  - unfold parseString. repeat run_step. done.
  - unfold parseIP. repeat run_step; done.
  - unfold parseBoolean. repeat run_step. done.
  - unfold parsePrefixExpression. do 2 run_step; [|by run_step].
    apply Hsub. intros n p1 Ha Hc. run_step. exact Hc.
  - unfold parseGroupedExpression. apply Hsub. intros n p1 Ha Hc.
    run_step. run_step. intros He. apply Hc. by apply (nextToken_padv p1 (padv_ok _ _ Ha)).
Qed.

Lemma parseInfix_runs rec lhs p :
  parser_ok p ->
  Type_ (curToken p) <> TokEOF ->
  complete_if_ok lhs p ->
  (forall prec p', parser_ok p' -> left_over p' < left_over p -> runs_node (rec prec) p') ->
  runs (parseInfixExpression rec lhs) p complete_if_ok.
Proof.
  intros Hp Hne Hl Hrec. unfold parseInfixExpression. run_step. run_step; [|by run_step].
  run_step. eapply runs_bind.
  { apply runs_sub_expression, Hrec; [by apply nextToken_ok|by apply nextToken_left_over]. }
  intros n p1 Ha Hc. run_step. intros He. simpl. rewrite (Hc He), Hl; [done|].
  by apply (nextToken_padv p Hp), Ha.
Qed.

Lemma prefix_fn_not_eof t pf : prefix_fn t = Some pf -> t <> TokEOF.
Proof. by destruct t. Qed.
Lemma infix_op_not_eof t op : infix_op t = Some op -> t <> TokEOF.
Proof. by destruct t. Qed.

Lemma runs_node_seq (m : Parser -> option (Node * Parser))
    (k : Node -> Parser -> option (Node * Parser)) p :
  runs_node m p ->
  (forall n p1, padv p p1 -> complete_if_ok n p1 -> runs_node (k n) p1) ->
  runs_node (fun p => match m p with None => None | Some (n, p1) => k n p1 end) p.
Proof.
  intros (n & p1 & Hm & Ha & Hc) Hk. destruct (Hk n p1 Ha Hc) as (n' & p2 & Hk' & Ha' & Hc').
  exists n', p2. rewrite Hm. split_and!; [done|by eapply padv_trans|done].
Qed.

Lemma expression_runs fuel :
  (forall prec p, parser_ok p -> 2 * left_over p + 2 <= fuel ->
     runs_node (parseExpression fuel prec) p)
  /\ (forall prec lhs p, parser_ok p -> complete_if_ok lhs p -> 2 * left_over p + 1 <= fuel ->
     runs_node (infixLoop fuel prec lhs) p).
Proof.
  induction fuel as [|f [IHe IHi]]; [split; intros; lia|]. split.
  - intros prec p Hp Hf. unfold runs_node. cbn [parseExpression].
    destruct (prefix_fn (Type_ (curToken p))) as [pf|] eqn:Epf.
    + apply (runs_node_seq (as_node (parsePrefix (parseExpression f) pf))).
      * apply as_node_runs, parsePrefix_runs; [done|by eapply prefix_fn_not_eof|].
        intros prec' p' Hp' Hlt. apply IHe; [done|lia].
      * intros n p1 Ha Hc. apply IHi; [by eapply padv_ok|done|].
        apply padv_left_over in Ha. lia.
    + eexists _, _. split_and!; [done|by apply addError_padv|].
      simpl. by intros [_ [=]]%app_eq_nil.
  - intros prec lhs p Hp Hl Hf. unfold runs_node. cbn [infixLoop].
    destruct (_ && _ && _) eqn:Ec; [|exists lhs, p; split_and!; auto using padv_refl].
    destruct (infix_op (Type_ (peekToken p))) as [op|] eqn:Eo;
      [|exists lhs, p; split_and!; auto using padv_refl].
    pose proof (nextToken_padv p Hp) as Hn.
    assert (Type_ (curToken (nextToken p)) <> TokEOF) as Hne
      by (rewrite nextToken_cur; by eapply infix_op_not_eof).
    assert (left_over (nextToken p) < left_over p) as Hlt.
    { destruct Hn as (Hok & Hi & _). destruct Hok as (_ & _ & _ & Hcur & _).
      specialize (Hcur Hne). rewrite Hi, nextToken_cur in Hcur.
      unfold left_over. rewrite Hi, nextToken_cur. destruct Hp as (_ & ? & _). lia. }
    assert (runs_node (fun p0 => match as_node (parseInfixExpression (parseExpression f) lhs) p0 with
              | Some (e, p1) => infixLoop f prec e p1 | None => None end) (nextToken p)) as Hr.
    { apply runs_node_seq.
      - apply as_node_runs, parseInfix_runs; [by apply nextToken_ok|done| |].
        + intros He. apply Hl. by apply Hn.
        + intros prec' p' Hp' Hlt'. apply IHe; [done|lia].
      - intros n p1 Ha Hc. apply IHi; [by eapply padv_ok|done|].
        apply padv_left_over in Ha. lia. }
    destruct Hr as (n & p' & Hm & Ha & Hc). exists n, p'.
    split_and!; [done|by eapply padv_trans|done].
Qed.

Lemma left_over_fuel p : 2 * left_over p + 2 <= parse_fuel p.
Proof. unfold left_over, parse_fuel. lia. Qed.

(** ** Policies *)

Lemma parseScope_runs t p : parser_ok p -> runs (parseScope t) p (fun _ _ => True).
Proof.
  intros Hp. unfold parseScope. run_step. run_step; [by run_step|].
  eapply (runs_bind _ _ _ (fun _ _ => True)).
  { repeat run_step; done. }
  intros op p1 Ha _. repeat run_step; done.
Qed.

Lemma parseObligation_runs p : parser_ok p -> runs parseObligation p (fun _ _ => True).
Proof. intros Hp. unfold parseObligation. repeat run_step; done. Qed.

Lemma parseObligations_runs fuel p :
  parser_ok p -> left_over p < fuel -> runs (parseObligations fuel) p (fun _ _ => True).
Proof.
  revert p. induction fuel as [|f IH]; intros p Hp Hf; [lia|].
  unfold runs. cbn [parseObligations].
  destruct (peekTokenIs TokObligation p) eqn:E;
    [|exists (Some []), p; split_and!; eauto using padv_refl].
  unfold peekTokenIs in E. bool_to_prop.
  assert (left_over (nextToken p) < left_over p) as Hlt.
  { unfold left_over. pose proof (nextToken_padv p Hp) as (Hok & Hi & _).
    rewrite Hi, nextToken_cur. destruct Hp as (_ & ? & _ & _ & Hpk).
    specialize (Hpk ltac:(by rewrite E)). lia. }
  change (runs (exec advance; do o <- parseObligation; do os <- parseObligations f; pret (o :: os))
            p (fun _ _ => True)).
  run_step. eapply runs_bind; [by apply parseObligation_runs, nextToken_ok|].
  intros o p1 Ha _. eapply runs_bind.
  { apply IH; [by eapply padv_ok|]. apply padv_left_over in Ha. lia. }
  intros os p2 Ha2 _. run_step. done.
Qed.

Lemma parseCondition_runs p :
  parser_ok p -> runs parseCondition p
    (fun r p' => r.1 = NodeNil \/ complete_if_ok r.1 p').
Proof.
  intros Hp. unfold parseCondition. run_step. run_step; [|run_step; by left].
  do 4 run_step. eapply runs_bind.
  { apply runs_sub_expression, (proj1 (expression_runs _));
      [by eauto using padv_ok|].
    match goal with |- _ <= parse_fuel ?q => pose proof (left_over_fuel q) end.
    match goal with H : padv _ (nextToken (nextToken ?q)) |- 2 * left_over (nextToken (nextToken ?q)) + 2 <= parse_fuel ?r =>
      idtac end.
    pose proof (padv_left_over _ _ (nextToken_padv _ (nextToken_ok _ (nextToken_ok _ Hp)))).
    pose proof (padv_left_over _ _ (nextToken_padv _ (nextToken_ok _ Hp))). lia. }
  intros n p1 Ha Hc. destruct n; simpl node_is_nil; cbv iota.
  { (* nil expression: an error is recorded *)
    exists None, p1. split_and!; [done|by apply padv_refl, (padv_ok _ _ Ha)|done|].
    intros He. specialize (Hc He). done. }
  all: run_step; run_step; right; intros He; apply Hc;
    by apply (nextToken_padv p1 (padv_ok _ _ Ha)).
Qed.

(** What a policy parsed without error looks like. *)
Definition policy_wf (pol : PolicyNode) : Prop :=
  is_Some (Principal pol) /\ is_Some (Action pol) /\ is_Some (Resource pol)
  /\ (Condition pol = NodeNil \/ node_complete (Condition pol) = true).

Lemma parsePolicy_runs p :
  parser_ok p -> runs parsePolicy p (fun pol p' => errors p' = [] -> policy_wf pol).
Proof.
  intros Hp. unfold parsePolicy. run_step.
  eapply (runs_bind _ _ _ (fun _ _ => True)).
  { unfold parseEffect. repeat run_step; done. }
  intros eff p1 Ha1 _. do 2 run_step.
  eapply runs_bind; [by apply parseScope_runs; eauto using padv_ok|]. intros pr p2 Ha2 _. do 2 run_step.
  eapply runs_bind; [by apply parseScope_runs; eauto using padv_ok|]. intros ac p3 Ha3 _. do 2 run_step.
  eapply runs_bind; [by apply parseScope_runs; eauto using padv_ok|]. intros re p4 Ha4 _. run_step.
  eapply runs_bind; [by apply parseCondition_runs; eauto using padv_ok|].
  intros [cond unless] p5 Ha5 Hc. run_step.
  eapply runs_bind.
  { apply parseObligations_runs; [by eauto using padv_ok|].
    match goal with |- left_over ?q < _ => pose proof (left_over_fuel q) end. lia. }
  intros obs p6 Ha6 _. run_step. run_step. intros He.
  split_and!; simpl; [by eexists..|].
  destruct Hc as [|Hc]; [by left|right]. apply Hc. apply Ha6.
  by apply (nextToken_padv p6 (padv_ok _ _ Ha6)).
Qed.

Lemma parse_loop_runs fuel p :
  parser_ok p -> left_over p < fuel ->
  exists ps p', parse_loop fuel p = Some (ps, p') /\ padv p p'
    /\ Type_ (curToken p') = TokEOF
    /\ (errors p' = [] -> Forall policy_wf ps).
Proof.
  revert p. induction fuel as [|f IH]; intros p Hp Hf; [lia|]. cbn [parse_loop].
  destruct (curTokenIs TokEOF p) eqn:E; unfold curTokenIs in E; bool_to_prop.
  { exists [], p. split_and!; [done|by apply padv_refl|done|constructor]. }
  destruct (parsePolicy_runs p Hp) as (o & p1 & Hm & Ha & HQ & He).
  rewrite Hm. pose proof (nextToken_padv p1 (padv_ok _ _ Ha)) as Hn.
  destruct (IH (nextToken p1)) as (ps & p2 & Hl & Ha2 & Heof & Hwf).
  { by eapply padv_ok. }
  { destruct Hn as (Hok & Hi & _). destruct Ha as (Hok1 & Hi1 & Hle & _).
    unfold left_over. rewrite Hi, nextToken_cur, Hi1. destruct Hok1 as (_ & ? & _).
    destruct Hp as (_ & _ & _ & Hc & _). specialize (Hc E). unfold left_over in Hf. lia. }
  rewrite Hl. exists (option_list o ++ ps), p2. split_and!; [done| |done|].
  { by do 2 (eapply padv_trans; [done|]). }
  intros Hn2. assert (errors p1 = []) as Hn1 by (by apply Hn, Ha2).
  apply Forall_app. split; [|auto].
  destruct o as [pol|]; simpl; [|constructor].
  constructor; [|constructor]. by apply (HQ pol eq_refl).
Qed.

Lemma ParseText_runs src :
  exists ps es, ParseText src = Some (ps, es) /\ (es = [] -> Forall policy_wf ps).
Proof.
  destruct (parse_loop_runs (parse_fuel (NewParser (NewLexer src))) (NewParser (NewLexer src)))
    as (ps & p' & Hl & _ & _ & Hwf).
  - apply NewParser_ok.
  - match goal with |- left_over ?q < _ => pose proof (left_over_fuel q) end. lia.
  - exists ps, (errors p'). unfold ParseText, Parse. by rewrite Hl.
Qed.

End Facts.

(** C40: parsing any text terminates: [Parse] returns a list of policies and a
    list of errors within the recursion bound computed from the input. *)
Theorem Parse_total `{UnicodeTable} (src : string) :
  exists ps es, ParseText src = Some (ps, es).
Proof. destruct (ParseText_runs src) as (ps & es & Hp & _). eauto. Qed.

(** A table without letters above Latin-1, for concrete runs. *)
Definition ascii_table : UnicodeTable := fun _ => false.

(** A parse that reports no error returns only complete policies: three
    scopes, and a condition without nil nodes. *)
Theorem Parse_complete `{UnicodeTable} (src : string) ps (Hok : ParseText src = Some (ps, [])) :
  Forall policy_wf ps.
Proof.
  destruct (ParseText_runs src) as (ps' & es & Hp & Hwf). rewrite Hok in Hp.
  injection Hp as <- <-. auto.
Qed.

Definition sample_text : string :=
  "permit(principal == role:admin, action == any, resource == any) when { !(context.a in 10.0.0.0/8) || context.n >= 3 };".

Lemma Parse_complete_witness :
  Forall policy_wf (match ParseText (H := ascii_table) sample_text with Some (ps, _) => ps | None => [] end).
Proof. apply (Parse_complete (H := ascii_table) sample_text). vm_compute. reflexivity. Defined.
