(* ===== verification/Dag.v ===== *)
(** * The role hierarchy ([internal/engine/dag.go])

    [RoleDAG] with its three maps.  [hasCycle] is the three-colour depth-first
    search and [rebuildTransitiveClosure] the reachability pass of the source;
    both recurse on explicit fuel, and [graph_size] is shown to be enough.
    Go's iteration order over maps is not specified: the class [RangeOrder]
    gives the order of each [range] statement, chosen anew by a seed, and the
    theorems hold for every instance.  The mutex is not modelled: an operation
    holds it from its first read to its last write. *)

From S2P Require Import Prelude.
From stdpp Require Import relations fin_sets options.

(** The keys a [range] over a map (or over a set kept as a map) visits, in order. *)
Class RangeOrder := {
  range_keys : nat -> gset string -> list string;
  range_keys_perm : forall seed s, range_keys seed s ≡ₚ elements s
}.

(** One order a run may take. *)
Definition sorted_range : RangeOrder :=
  {| range_keys := fun _ s => elements s; range_keys_perm := fun _ _ => Permutation_refl _ |}.

Abbreviation Adj := (gmap string (list string)).

Record RoleDAG := mkRoleDAG {
  adj : Adj;
  transitiveClosure : gmap string (gset string);
  inheritedRoles : gmap string (list string)
}.

Definition NewRoleDAG : RoleDAG := mkRoleDAG ∅ ∅ ∅.

(** [adj[node]], nil for an absent key. *)
Definition neighbours (a : Adj) (node : string) : list string := default [] (a !! node).

(** The edges of the graph. *)
Definition edge (a : Adj) (x y : string) : Prop := y ∈ neighbours a x.

(** Every role the graph names, and a bound for the depth of a search. *)
Definition graph_nodes (a : Adj) : gset string :=
  dom a ∪ list_to_set (mjoin (map_to_list a).*2).
Definition graph_size (a : Adj) : nat := S (size (graph_nodes a)).

(** ** Cycle detection *)

(** The map [visited]; an absent key is 0, white. *)
Inductive colour := Gray | Black.
Global Instance colour_eq_dec : EqDecision colour.
Proof. solve_decision. Defined.
Abbreviation Visited := (gmap string colour).

Section Search.
Variable a : Adj.
(** The recursive call of the search. *)
Variable rec : string -> Visited -> option (bool * Visited).

(** [for _, neighbor := range adj[node]] and what follows it. *)
Fixpoint cycle_loop (node : string) (ns : list string) (vis : Visited) : option (bool * Visited) :=
  match ns with
  | [] => Some (false, <[node := Black]> vis)
  | n :: ns' =>
      match vis !! n with
      | Some Gray => Some (true, vis)
      | Some Black => cycle_loop node ns' vis
      | None =>
          match rec n vis with
          | None => None
          | Some (true, vis') => Some (true, vis')
          | Some (false, vis') => cycle_loop node ns' vis'
          end
      end
  end.
End Search.

Fixpoint cycle_dfs (fuel : nat) (a : Adj) (node : string) (vis : Visited) : option (bool * Visited) :=
  match fuel with
  | O => None
  | S f => cycle_loop (cycle_dfs f a) node (neighbours a node) (<[node := Gray]> vis)
  end.

(** [for node := range adj { if visited[node] == 0 { ... } }] over the keys [ks]. *)
Fixpoint cycle_from (a : Adj) (ks : list string) (vis : Visited) : option bool :=
  match ks with
  | [] => Some false
  | k :: ks' =>
      match vis !! k with
      | Some _ => cycle_from a ks' vis
      | None =>
          match cycle_dfs (graph_size a) a k vis with
          | None => None
          | Some (true, _) => Some true
          | Some (false, vis') => cycle_from a ks' vis'
          end
      end
  end.

(** [hasCycle]; [default true] is never used ([cycle_from_total]). *)
Definition hasCycle `{RangeOrder} (seed : nat) (a : Adj) : bool :=
  default true (cycle_from a (range_keys seed (dom a)) ∅).

(** ** Transitive closure *)

Section Collect.
Variable a : Adj.
Variable rec : string -> gset string * gset string -> option (gset string * gset string).

Fixpoint collect_loop (ns : list string) (st : gset string * gset string) :
    option (gset string * gset string) :=
  match ns with
  | [] => Some st
  | n :: ns' =>
      if bool_decide (n ∈ st.1) then collect_loop ns' st
      else match rec n st with
           | None => None
           | Some st' => collect_loop ns' st'
           end
  end.
End Collect.

(** [dfsCollect]: the state is the set [visited] and the closure of [startNode]. *)
Fixpoint dfsCollect (fuel : nat) (a : Adj) (startNode currentNode : string)
    (st : gset string * gset string) : option (gset string * gset string) :=
  match fuel with
  | O => None
  | S f =>
      let visited := {[currentNode]} ∪ st.1 in
      let closure := if bool_decide (startNode = currentNode) then st.2
                     else {[currentNode]} ∪ st.2 in
      collect_loop (dfsCollect f a startNode) (neighbours a currentNode) (visited, closure)
  end.

(** The closure of one role; [default ∅] is never used ([closure_of_spec]). *)
Definition closure_of (a : Adj) (node : string) : gset string :=
  default ∅ (snd <$> dfsCollect (graph_size a) a node node (∅, ∅)).

Definition rebuildTransitiveClosure `{RangeOrder} (seed : nat) (g : RoleDAG) : RoleDAG :=
  mkRoleDAG (adj g)
    (map_imap (fun node _ => Some (closure_of (adj g) node)) (adj g))
    (map_imap (fun node _ => Some (node :: range_keys seed (closure_of (adj g) node))) (adj g)).

(** ** The operations *)

Inductive DagError := SelfInheritance | InheritanceCycle (parent child : string).

Definition AddInheritance `{RangeOrder} (seed : nat) (g : RoleDAG) (parent child : string) :
    result DagError RoleDAG :=
  guard? bool_decide (parent = child) else SelfInheritance;
  let tempAdj := <[parent := neighbours (adj g) parent ++ [child]]> (adj g) in
  guard? hasCycle seed tempAdj else InheritanceCycle parent child;
  Ok (rebuildTransitiveClosure seed
        (mkRoleDAG (<[parent := neighbours (adj g) parent ++ [child]]> (adj g))
           (transitiveClosure g) (inheritedRoles g))).

(** [IsDescendant] and [GetInheritedRoles]; the receiver may be nil. *)
Definition IsDescendant (g : option RoleDAG) (parent child : string) : bool :=
  if bool_decide (parent = child) then true
  else match g with
       | None => false
       | Some g =>
           match transitiveClosure g !! parent with
           | None => false
           | Some ancestors => bool_decide (child ∈ ancestors)
           end
       end.

Definition GetInheritedRoles (g : option RoleDAG) (role : string) : list string :=
  match g with
  | Some g => match inheritedRoles g !! role with Some roles => roles | None => [role] end
  | None => [role]
  end.

(** The variant with a scratch array returns the same slice contents. *)
Definition GetInheritedRolesInto (g : option RoleDAG) (role : string) (scratch : list string) :
    list string :=
  match g with
  | Some g => match inheritedRoles g !! role with
              | Some roles => roles
              | None => take 1 (<[0 := role]> scratch)
              end
  | None => take 1 (<[0 := role]> scratch)
  end.
