(* ===== verification/DagFacts.v ===== *)
(** * Correctness of the role hierarchy

    The search detects exactly the cycles, whatever the iteration order; the
    closure is reachability; and [AddInheritance] keeps a hierarchy acyclic
    with its two derived maps up to date ([dag_wf]). *)

From S2P Require Import Prelude Dag.
From stdpp Require Import relations fin_sets options.

Definition has_cycle (a : Adj) : Prop := exists x, tc (edge a) x x.

(** [x] inherits [y]: the specification of [IsDescendant]. *)
Definition inherits (a : Adj) : string -> string -> Prop := rtc (edge a).

(** ** Nodes and fuel *)

Lemma edge_nodes a x y : edge a x y -> x ∈ dom a /\ y ∈ graph_nodes a.
Proof.
  unfold edge, neighbours, graph_nodes. destruct (a !! x) as [ns|] eqn:E; simpl; [|set_solver].
  intros Hy. split; [by apply elem_of_dom_2 in E|].
  apply elem_of_union_r, elem_of_list_to_set, list_elem_of_join.
  exists ns. split; [done|]. apply list_elem_of_fmap. exists (x, ns).
  split; [done|]. by apply elem_of_map_to_list.
Qed.

Lemma dom_graph_nodes a : dom a ⊆ graph_nodes a.
Proof. unfold graph_nodes. set_solver. Qed.

(** A set that loses a fresh node loses one element. *)
Lemma fresh_smaller (U V W : gset string) x f :
  x ∈ U -> x ∉ V -> x ∈ W -> V ⊆ W -> size (U ∖ V) <= S f -> size (U ∖ W) <= f.
Proof.
  intros HU HV HW Hs Hf.
  assert (size (U ∖ W) < size (U ∖ V)); [|lia].
  apply subset_size. split; [set_solver|]. intros Hsub. set_solver.
Qed.

Lemma sub_smaller (U V W : gset string) f :
  V ⊆ W -> size (U ∖ V) <= f -> size (U ∖ W) <= f.
Proof.
  intros Hs Hf. assert (size (U ∖ W) <= size (U ∖ V)); [|lia].
  apply subseteq_size. set_solver.
Qed.

(** ** Cycle detection *)

Section Cycle.
Variable a : Adj.

(** The black nodes are closed under edges and lie on no cycle. *)
Definition black_ok (vis : Visited) : Prop :=
  forall b, vis !! b = Some Black ->
    (forall c, edge a b c -> vis !! c = Some Black) /\ ~ tc (edge a) b b.

Definition same_gray (vis vis' : Visited) : Prop :=
  (forall x, vis !! x = Some Gray <-> vis' !! x = Some Gray)
  /\ (forall x, vis !! x = Some Black -> vis' !! x = Some Black).

Definition search_post (node : string) (vis : Visited) (r : bool * Visited) : Prop :=
  dom vis ⊆ dom r.2
  /\ if r.1 then has_cycle a
     else black_ok r.2 /\ r.2 !! node = Some Black.

Lemma black_reach vis x y :
  black_ok vis -> vis !! x = Some Black -> tc (edge a) x y -> vis !! y = Some Black.
Proof.
  intros Hb Hx Ht. induction Ht as [x y He|x y z He Ht IH].
  - by apply (proj1 (Hb x Hx)).
  - apply IH. by apply (proj1 (Hb x Hx)).
Qed.

Lemma same_gray_refl vis : same_gray vis vis.
Proof. by split. Qed.

Lemma same_gray_trans v1 v2 v3 : same_gray v1 v2 -> same_gray v2 v3 -> same_gray v1 v3.
Proof. intros [H1 H2] [H3 H4]. split; [|auto]. intros x. by rewrite H1, H3. Qed.

Lemma blacken_ok node vis :
  black_ok vis -> vis !! node = Some Gray ->
  (forall y, edge a node y -> vis !! y = Some Black) ->
  black_ok (<[node := Black]> vis).
Proof.
  intros Hb Hg Hn b. destruct (decide (b = node)) as [->|Hne].
  - intros _. split.
    + intros c Hc. specialize (Hn c Hc). destruct (decide (c = node)) as [->|].
      * by rewrite lookup_insert_eq.
      * by rewrite lookup_insert_ne.
    + intros Ht. assert (vis !! node = Some Black) as Hx; [|congruence].
      inversion Ht as [x y He|x y z He Ht']; subst; [by apply Hn|].
      eapply black_reach; [done| |done]. by apply Hn.
  - rewrite lookup_insert_ne by done. intros Hbl. destruct (Hb b Hbl) as [H1 H2].
    split; [|done]. intros c Hc. specialize (H1 c Hc).
    destruct (decide (c = node)) as [->|].
    + by rewrite lookup_insert_eq.
    + by rewrite lookup_insert_ne.
Qed.

(** What a call of the search is given: a white node, reached by every gray one. *)
Definition search_pre (node : string) (vis : Visited) : Prop :=
  node ∈ graph_nodes a /\ vis !! node = None /\ black_ok vis
  /\ forall g, vis !! g = Some Gray -> rtc (edge a) g node.

(** [rec] meets its contract on states with at most [f] white nodes. *)
Definition rec_ok (f : nat) (rec : string -> Visited -> option (bool * Visited)) : Prop :=
  forall n vis, search_pre n vis -> size (graph_nodes a ∖ dom vis) <= f ->
  exists r, rec n vis = Some r /\ search_post n vis r /\ (r.1 = false -> same_gray vis r.2).

Lemma cycle_loop_spec f rec node ns vis :
  rec_ok f rec ->
  vis !! node = Some Gray -> black_ok vis ->
  size (graph_nodes a ∖ dom vis) <= f ->
  (forall g, vis !! g = Some Gray -> rtc (edge a) g node) ->
  (forall y, y ∈ ns -> edge a node y) ->
  (forall y, edge a node y -> y ∈ ns \/ vis !! y = Some Black) ->
  exists r, cycle_loop rec node ns vis = Some r /\ search_post node vis r
    /\ (r.1 = false -> same_gray (delete node vis) (delete node r.2)).
Proof.
  intros Hrec. revert vis. induction ns as [|n ns IH]; intros vis Hg Hb Hf Hreach Hsub Hall; simpl.
  - eexists; split; [done|]. split.
    + split; simpl; [set_solver|]. split; [|by rewrite lookup_insert_eq].
      apply blacken_ok; try done. intros y Hy. destruct (Hall y Hy) as [Hn|]; [|done].
      by apply not_elem_of_nil in Hn.
    + intros _. simpl. rewrite delete_insert_eq. apply same_gray_refl.
  - assert (edge a node n) as He by (apply Hsub; set_solver).
    assert (vis !! n = Some Black -> forall y, edge a node y -> y ∈ ns \/ vis !! y = Some Black) as Hall'.
    { intros Hbl y Hy. destruct (Hall y Hy) as [Hy'|]; [|by right].
      apply elem_of_cons in Hy' as [->|]; auto. }
    destruct (vis !! n) as [[]|] eqn:Hn.
    + eexists; split; [done|]. split; [|done]. split; simpl; [done|].
      exists n. eapply tc_rtc_l; [by apply Hreach|by constructor].
    + apply IH; auto. intros y Hy. apply Hsub. set_solver.
    + destruct (Hrec n vis) as ([b vis'] & Hr & [Hd Hpost] & Hgray); [|done|].
      { split_and!; try done; [by eapply edge_nodes|].
        intros g Hgg. eapply rtc_r; [by apply Hreach|done]. }
      rewrite Hr. simpl in *. destruct b; [by eexists|].
      destruct Hpost as [Hb' Hbn]. destruct (Hgray eq_refl) as [Hg1 Hg2].
      destruct (IH vis') as (r & Hr' & [Hd' Hp'] & Hsame).
      * by apply Hg1.
      * done.
      * by eapply sub_smaller.
      * intros g Hgg. apply Hreach. by apply Hg1.
      * intros y Hy. apply Hsub. set_solver.
      * intros y Hy. destruct (Hall y Hy) as [Hy'|]; [|by right; apply Hg2].
        apply elem_of_cons in Hy' as [->|]; auto.
      * exists r. split; [done|]. split; [split; [set_solver|done]|].
        intros Hf'. eapply same_gray_trans; [|by apply Hsame].
        split; intros x; destruct (decide (x = node)) as [->|];
          rewrite ?lookup_delete_eq, ?lookup_delete_ne by done; auto; done.
Qed.

Lemma same_gray_enter node vis vis' :
  vis !! node = None -> vis' !! node = Some Black ->
  same_gray (delete node (<[node := Gray]> vis)) (delete node vis') -> same_gray vis vis'.
Proof.
  intros Hn Hb [H1 H2]. split; intros x.
  - specialize (H1 x). destruct (decide (x = node)) as [->|Hne].
    + rewrite Hn, Hb. done.
    + by rewrite !lookup_delete_ne, lookup_insert_ne in H1.
  - specialize (H2 x). destruct (decide (x = node)) as [->|Hne]; [congruence|].
    by rewrite !lookup_delete_ne, lookup_insert_ne in H2.
Qed.

Lemma cycle_dfs_spec f : rec_ok f (cycle_dfs (S f) a).
Proof.
  induction f as [|f IH]; intros node vis (Hnode & Hw & Hb & Hreach) Hf.
  { apply Nat.le_0_r, size_empty_iff in Hf. apply not_elem_of_dom in Hw. set_solver. }
  remember (S f) as f' eqn:Ef'. cbn [cycle_dfs].
  destruct (cycle_loop_spec f (cycle_dfs f' a) node (neighbours a node) (<[node := Gray]> vis))
    as (r & Hr & [Hd Hp] & Hsame).
  - by subst.
  - by rewrite lookup_insert_eq.
  - intros b. destruct (decide (b = node)) as [->|Hne]; [by rewrite lookup_insert_eq|].
    rewrite lookup_insert_ne by done. intros Hbl. destruct (Hb b Hbl) as [Hc Ht].
    split; [|done]. intros c He. destruct (decide (c = node)) as [->|].
    + specialize (Hc node He). congruence.
    + rewrite lookup_insert_ne by done. auto.
  - eapply (fresh_smaller _ (dom vis) _ node); rewrite ?Ef' in *; try done; try set_solver.
    by apply not_elem_of_dom.
  - intros g. destruct (decide (g = node)) as [->|]; [by intros; apply rtc_refl|].
    rewrite lookup_insert_ne by done. auto.
  - done.
  - auto.
  - exists r. split; [done|]. split.
    + split; [set_solver|done].
    + intros Hf'. rewrite Hf' in Hp. destruct Hp as [_ Hbn].
      eapply same_gray_enter; eauto.
Qed.

Lemma cycle_from_spec ks vis :
  (forall k, k ∈ ks -> k ∈ dom a) -> black_ok vis ->
  (forall x, vis !! x <> Some Gray) ->
  (forall k, k ∈ dom a -> k ∈ ks \/ vis !! k = Some Black) ->
  exists b, cycle_from a ks vis = Some b /\ (b = true <-> has_cycle a).
Proof.
  revert vis. induction ks as [|k ks IH]; intros vis Hks Hb Hng Hall; cbn [cycle_from].
  - exists false. split; [done|]. split; [done|]. intros [x Hx].
    assert (x ∈ dom a) as Hd.
    { inversion Hx as [? ? He|? ? ? He]; subst; by eapply edge_nodes. }
    destruct (Hall x Hd) as [Hn|Hbl]; [by apply not_elem_of_nil in Hn|].
    by destruct (Hb x Hbl) as [_ []].
  - assert (forall k', k' ∈ ks -> k' ∈ dom a) as Hks' by set_solver.
    destruct (vis !! k) as [[]|] eqn:E; [by destruct (Hng k)| |].
    + apply IH; auto. intros k' Hk'. destruct (Hall k' Hk') as [H|]; [|by right].
      apply elem_of_cons in H as [->|]; auto.
    + destruct (cycle_dfs_spec (size (graph_nodes a)) k vis) as ([b vis'] & Hr & [Hd Hp] & Hsame).
      { split_and!; try done; [apply dom_graph_nodes; set_solver|]. by intros g ?%Hng. }
      { apply subseteq_size. set_solver. }
      unfold graph_size. rewrite Hr. destruct b; simpl in *; [by eexists|].
      destruct Hp as [Hb' Hk]. destruct (Hsame eq_refl) as [Hg1 Hg2].
      apply IH; auto.
      * intros x Hx. apply (Hng x). by apply Hg1.
      * intros k' Hk'. destruct (Hall k' Hk') as [H|H]; [|by right; apply Hg2].
        apply elem_of_cons in H as [->|]; auto.
Qed.
End Cycle.

Lemma hasCycle_spec `{RangeOrder} seed a : hasCycle seed a = true <-> has_cycle a.
Proof.
  unfold hasCycle.
  destruct (cycle_from_spec a (range_keys seed (dom a)) ∅) as (b & Hb & Hiff).
  - intros k. rewrite range_keys_perm. set_solver.
  - intros b Hb. by rewrite lookup_empty in Hb.
  - intros x. by rewrite lookup_empty.
  - intros k Hk. left. rewrite range_keys_perm. set_solver.
  - rewrite Hb. simpl. done.
Qed.

(** ** Transitive closure *)

Section Closure.
Variable a : Adj.
Variable start : string.

(** Contract of a call at the unvisited node [n], reachable from [start]: the
    new nodes are reachable, include [n], and their edges stay inside. *)
Definition collect_post (n : string) (st st' : gset string * gset string) : Prop :=
  st.1 ⊆ st'.1 /\ n ∈ st'.1
  /\ (forall x, x ∈ st'.1 -> x ∈ st.1 \/ rtc (edge a) start x)
  /\ (forall x y, x ∈ st'.1 -> x ∉ st.1 -> edge a x y -> y ∈ st'.1)
  /\ st'.2 = st'.1 ∖ {[start]}.

Definition collect_ok (f : nat)
    (rec : string -> gset string * gset string -> option (gset string * gset string)) : Prop :=
  forall n st, n ∈ graph_nodes a -> n ∉ st.1 -> rtc (edge a) start n ->
    st.2 = st.1 ∖ {[start]} -> size (graph_nodes a ∖ st.1) <= f ->
    exists st', rec n st = Some st' /\ collect_post n st st'.

Lemma collect_loop_spec f rec ns st :
  collect_ok f rec -> st.2 = st.1 ∖ {[start]} -> size (graph_nodes a ∖ st.1) <= f ->
  (forall y, y ∈ ns -> y ∈ graph_nodes a /\ rtc (edge a) start y) ->
  exists st', collect_loop rec ns st = Some st'
    /\ st.1 ⊆ st'.1 /\ (forall y, y ∈ ns -> y ∈ st'.1)
    /\ (forall x, x ∈ st'.1 -> x ∈ st.1 \/ rtc (edge a) start x)
    /\ (forall x y, x ∈ st'.1 -> x ∉ st.1 -> edge a x y -> y ∈ st'.1)
    /\ st'.2 = st'.1 ∖ {[start]}.
Proof.
  intros Hrec. revert st. induction ns as [|n ns IH]; intros st Hst Hf Hns; simpl.
  { exists st. split_and!; [done..|set_solver|set_solver|set_solver|done]. }
  assert (forall y, y ∈ ns -> y ∈ graph_nodes a /\ rtc (edge a) start y) as Hns'
    by (intros y Hy; apply Hns; by right).
  case_bool_decide as Hn.
  - destruct (IH st Hst Hf Hns') as (st' & Hl & Hs & Hin & Hr & Hc & H2).
    exists st'. split_and!; try done. intros y [->|Hy]%elem_of_cons; [by apply Hs|auto].
  - destruct (Hns n ltac:(by left)) as [Hg Hreach].
    destruct (Hrec n st) as (st1 & Hr1 & (Hs1 & Hn1 & Hq1 & Hc1 & H21)); try done.
    rewrite Hr1. destruct (IH st1 H21) as (st' & Hl & Hs & Hin & Hr & Hc & H2); [|done|].
    { by eapply sub_smaller. }
    exists st'. split_and!; try done.
    + by transitivity st1.1.
    + intros y [->|Hy]%elem_of_cons; auto.
    + intros x Hx. destruct (Hr x Hx); auto.
    + intros x y Hx Hnx He. destruct (decide (x ∈ st1.1)); eauto.
Qed.

Lemma dfsCollect_spec f : collect_ok f (dfsCollect (S f) a start).
Proof.
  induction f as [|f IH]; intros n st Hg Hn Hreach H2 Hf.
  { apply Nat.le_0_r, size_empty_iff in Hf. set_solver. }
  remember (S f) as f' eqn:Ef'. cbn [dfsCollect].
  destruct (collect_loop_spec f (dfsCollect f' a start) (neighbours a n)
    ({[n]} ∪ st.1, if bool_decide (start = n) then st.2 else {[n]} ∪ st.2))
    as (st' & Hl & Hs & Hin & Hr & Hc & H2'); simpl in *.
  - by subst.
  - case_bool_decide; set_solver.
  - eapply (fresh_smaller _ st.1 _ n); rewrite ?Ef' in *; try done; set_solver.
  - intros y Hy. split; [by eapply edge_nodes|]. by eapply rtc_r.
  - exists st'. split; [done|]. split_and!; [set_solver|set_solver| | |done].
    + intros x Hx. destruct (Hr x Hx) as [[->%elem_of_singleton|]%elem_of_union|]; auto.
    + intros x y Hx Hnx He. destruct (decide (x = n)) as [->|]; [by apply Hin|].
      apply (Hc x y); set_solver.
Qed.
End Closure.

(** The closure of a role is what it inherits, itself excepted. *)
Lemma closure_of_spec a node x :
  node ∈ graph_nodes a -> x ∈ closure_of a node <-> inherits a node x /\ x <> node.
Proof.
  intros Hnode.
  destruct (dfsCollect_spec a node (size (graph_nodes a)) node (∅, ∅))
    as (st & Hr & _ & Hn & Hreach & Hclosed & H2); cbn [fst snd] in *.
  - done.
  - set_solver.
  - apply rtc_refl.
  - set_solver.
  - apply subseteq_size. set_solver.
  - unfold closure_of, graph_size. rewrite Hr. simpl. rewrite H2.
    rewrite elem_of_difference, elem_of_singleton. split; intros [Hx ?]; (split; [|done]).
    + destruct (Hreach x Hx) as [|]; [set_solver|done].
    + assert (forall y z, inherits a y z -> y ∈ st.1 -> z ∈ st.1) as Hgen.
      { clear -Hclosed. intros y z Hy. induction Hy as [|y z w He Hyz IH]; [done|].
        intros Hin. apply IH, (Hclosed y z); [done|set_solver|done]. }
      by apply (Hgen node).
Qed.

(** ** The operations *)

(** The hierarchy is acyclic and its derived maps belong to its edges. *)
Record dag_wf (g : RoleDAG) : Prop := {
  wf_acyclic : ~ has_cycle (adj g);
  wf_closure_dom : dom (transitiveClosure g) = dom (adj g);
  wf_closure : forall n s, transitiveClosure g !! n = Some s ->
    forall x, x ∈ s <-> inherits (adj g) n x /\ x <> n;
  wf_roles_dom : dom (inheritedRoles g) = dom (adj g);
  wf_roles : forall n l, inheritedRoles g !! n = Some l ->
    NoDup l /\ forall x, x ∈ l <-> inherits (adj g) n x
}.

Lemma rtc_no_edges a x y : inherits a x y -> x ∉ dom a -> x = y.
Proof.
  intros Ht Hx. inversion Ht as [|? ? ? He]; [done|subst].
  by apply edge_nodes in He as [? _].
Qed.

Lemma rebuild_wf `{RangeOrder} seed g :
  ~ has_cycle (adj g) -> dag_wf (rebuildTransitiveClosure seed g).
Proof.
  intros Hac.
  assert (forall V (f : string -> V), dom (map_imap (fun n _ => Some (f n)) (adj g)) = dom (adj g)) as Hdom.
  { intros V f. apply set_eq. intros n. rewrite !elem_of_dom, map_lookup_imap.
    destruct (adj g !! n); simpl; [by rewrite !is_Some_alt|done]. }
  constructor; simpl; try done; try (by apply Hdom).
  - intros n s Hs x. rewrite map_lookup_imap in Hs.
    destruct (adj g !! n) eqn:E; simplify_eq/=.
    apply closure_of_spec, dom_graph_nodes. by apply elem_of_dom_2 in E.
  - intros n l Hl. rewrite map_lookup_imap in Hl.
    destruct (adj g !! n) eqn:E; simplify_eq/=.
    assert (n ∈ graph_nodes (adj g)) as Hn by (apply dom_graph_nodes; by apply elem_of_dom_2 in E).
    split.
    + constructor; [|rewrite range_keys_perm; apply NoDup_elements].
      rewrite range_keys_perm, elem_of_elements, (closure_of_spec _ _ _ Hn). naive_solver.
    + intros x. rewrite elem_of_cons, range_keys_perm, elem_of_elements,
        (closure_of_spec _ _ _ Hn). destruct (decide (x = n)) as [->|]; [|naive_solver].
      split; [intros _; apply rtc_refl|by left].
Qed.

Lemma NewRoleDAG_wf : dag_wf NewRoleDAG.
Proof.
  constructor; simpl; try done.
  intros [x Hx]. assert (x ∈ dom (∅ : Adj)) as []%not_elem_of_empty.
  inversion Hx as [? ? He|? ? ? He]; subst; by apply edge_nodes in He as [? _].
Qed.

(** The edges after [adj[parent] = append(adj[parent], child)]. *)
Definition add_edge (a : Adj) (parent child : string) : Adj :=
  <[parent := neighbours a parent ++ [child]]> a.

Lemma edge_add a p c x y : edge (add_edge a p c) x y <-> edge a x y \/ (x = p /\ y = c).
Proof.
  unfold edge, add_edge, neighbours. destruct (decide (x = p)) as [->|].
  - rewrite lookup_insert_eq. simpl. rewrite elem_of_app, list_elem_of_singleton. naive_solver.
  - rewrite lookup_insert_ne by done. naive_solver.
Qed.

(** A path over the new edge either avoids it or crosses it. *)
Lemma inherits_add a p c x y :
  inherits (add_edge a p c) x y <-> inherits a x y \/ (inherits a x p /\ inherits a c y).
Proof.
  assert (forall u v, inherits a u v -> inherits (add_edge a p c) u v) as Hsub.
  { intros u v Huv. induction Huv as [|u v w He Huv IH]; [apply rtc_refl|].
    eapply rtc_l; [apply edge_add; by left|done]. }
  split.
  - intros Ht. induction Ht as [x|x y z He Ht IH]; [left; apply rtc_refl|].
    apply edge_add in He as [He|[-> ->]].
    + destruct IH as [IH|[IH1 IH2]]; [left|right]; [by eapply rtc_l|split; [by eapply rtc_l|done]].
    + destruct IH as [IH|[IH1 IH2]]; right; (split; [apply rtc_refl|done]).
  - intros [Ht|[H1 H2]]; [by apply Hsub|].
    etransitivity; [by apply Hsub|]. eapply rtc_l; [|by apply Hsub]. apply edge_add. by right.
Qed.

Lemma tc_split (R : relation string) x y : tc R x y <-> exists z, R x z /\ rtc R z y.
Proof.
  split.
  - intros Ht. inversion Ht as [|? z ? He Ht']; subst; [by exists y; split; [|apply rtc_refl]|].
    exists z. split; [done|]. by apply tc_rtc.
  - intros (z & He & Hr). by eapply tc_rtc_r; [by apply tc_once|].
Qed.

(** Adding an edge to an acyclic hierarchy closes a cycle exactly when the
    child already inherits the parent. *)
Lemma has_cycle_add a p c :
  ~ has_cycle a -> has_cycle (add_edge a p c) <-> inherits a c p.
Proof.
  intros Hac. split.
  - intros [x (z & He & Hr)%tc_split]. apply edge_add in He as [He|[-> ->]];
      apply inherits_add in Hr as [Hr|[H1 H2]]; try done.
    + destruct Hac. exists x. apply tc_split. eauto.
    + etransitivity; [done|]. by eapply rtc_l.
  - intros Hr. exists p. apply tc_split. exists c.
    split; [apply edge_add; by right|]. apply inherits_add. by left.
Qed.

Lemma AddInheritance_result `{RangeOrder} seed g parent child :
  dag_wf g ->
  match AddInheritance seed g parent child with
  | Ok g' => ~ inherits (adj g) child parent /\ dag_wf g'
             /\ adj g' = add_edge (adj g) parent child
  | Err SelfInheritance => parent = child
  | Err (InheritanceCycle p c) =>
      p = parent /\ c = child /\ parent <> child /\ inherits (adj g) child parent
  end.
Proof.
  intros Hwf. unfold AddInheritance. case_bool_decide as Hne; [done|].
  fold (add_edge (adj g) parent child). pose proof (has_cycle_add (adj g) parent child (wf_acyclic g Hwf)) as Hc.
  destruct (hasCycle seed (add_edge (adj g) parent child)) eqn:E.
  - apply hasCycle_spec in E. split_and!; try done. by apply Hc.
  - assert (~ has_cycle (add_edge (adj g) parent child)) as Hac.
    { intros H'%(hasCycle_spec seed). congruence. }
    split_and!; [by intros H'%Hc| |done]. by apply rebuild_wf.
Qed.

Lemma IsDescendant_inherits g parent child :
  dag_wf g -> IsDescendant (Some g) parent child = true <-> inherits (adj g) parent child.
Proof.
  intros Hwf. unfold IsDescendant. case_bool_decide as Heq.
  { subst. split; [intros _; apply rtc_refl|done]. }
  destruct (transitiveClosure g !! parent) as [s|] eqn:E.
  - rewrite bool_decide_eq_true, (wf_closure g Hwf parent s E child). naive_solver.
  - apply not_elem_of_dom in E. rewrite (wf_closure_dom g Hwf) in E.
    split; [done|]. intros Hi. by destruct Heq; apply (rtc_no_edges (adj g)).
Qed.

Lemma GetInheritedRoles_spec g role :
  dag_wf g -> NoDup (GetInheritedRoles (Some g) role)
    /\ forall x, x ∈ GetInheritedRoles (Some g) role <-> inherits (adj g) role x.
Proof.
  intros Hwf. unfold GetInheritedRoles. destruct (inheritedRoles g !! role) as [l|] eqn:E.
  - by apply (wf_roles g Hwf).
  - apply not_elem_of_dom in E. rewrite (wf_roles_dom g Hwf) in E.
    split; [apply NoDup_singleton|]. intros x. rewrite list_elem_of_singleton. split.
    + intros ->. apply rtc_refl.
    + intros Hi. symmetry. by apply (rtc_no_edges (adj g)).
Qed.

Lemma GetInheritedRolesInto_eq g role scratch :
  scratch <> [] -> GetInheritedRolesInto g role scratch = GetInheritedRoles g role.
Proof.
  intros Hs. destruct scratch as [|s scratch]; [done|].
  destruct g as [g|]; simpl; [|by destruct scratch].
  destruct (inheritedRoles g !! role); [done|by destruct scratch].
Qed.
