(* ===== verification/Trie.v ===== *)
(** * The policy index ([internal/engine/trie.go])

    A three-level index subject -> resource -> action.  A level is a map from
    64-bit FNV-1a hashes to buckets of nodes, each node carrying its raw key.
    Pointers to nodes are not shared between two buckets of one trie, so a
    mutation through a pointer is a functional update of the bucket.  The
    slice pool is not modelled: it changes where a result is stored only. *)

From S2P Require Import Prelude GoStr Ast Dag.
From stdpp Require Import options.
Local Open Scope Z_scope.

Record ActionNode := mkActionNode { act_key : string; Policies : list PolicyNode }.
Record ResourceNode := mkResourceNode { res_key : string; Actions : gmap Z (list ActionNode) }.
Record SubjectNode := mkSubjectNode { sub_key : string; Resources : gmap Z (list ResourceNode) }.

Record TrieRoot := mkTrieRoot {
  trie_tenant : string;
  Revision : Z;
  trie_attributes : list string;
  Subjects : gmap Z (list SubjectNode);
  GlobalPolicies : list PolicyNode;
  trie_dag : RoleDAG
}.

Definition NewTrieRoot (tenantID : string) : TrieRoot :=
  mkTrieRoot tenantID 1 [] ∅ [] NewRoleDAG.

Definition fnv_offset : Z := 14695981039346656037.
Definition fnv_prime : Z := 1099511628211.

Definition fnvHash (s : string) : Z :=
  foldl (fun hash b => to_uint64 (Z.lxor hash b * fnv_prime)) fnv_offset (go_bytes s).

Definition buildKey (scope : option ScopeNode) : string :=
  match scope with
  | None => "any"
  | Some s => if decide (Operator s = ScopeOpAny) then "any"
              else EntityType s +:+ ":" +:+ EntityID s
  end.
Definition buildKeyHash (scope : option ScopeNode) : Z := fnvHash (buildKey scope).

(** ** Buckets *)

Section Bucket.
Context {A : Type} (key : A -> string).

Fixpoint find_node (nodes : list A) (k : string) : option A :=
  match nodes with
  | [] => None
  | n :: ns => if decide (key n = k) then Some n else find_node ns k
  end.

(** Find the node of key [k], or append [fresh]; then mutate it by [f]. *)
Fixpoint upsert_node (k : string) (fresh : A) (f : A -> A) (nodes : list A) : list A :=
  match nodes with
  | [] => [f fresh]
  | n :: ns => if decide (key n = k) then f n :: ns else n :: upsert_node k fresh f ns
  end.
End Bucket.

(** [m[h]], nil for an absent hash. *)
Definition bucket {A} (m : gmap Z (list A)) (h : Z) : list A := default [] (m !! h).

Definition findSubjectNode : list SubjectNode -> string -> option SubjectNode := find_node sub_key.
Definition findResourceNode : list ResourceNode -> string -> option ResourceNode := find_node res_key.
Definition findActionNode : list ActionNode -> string -> option ActionNode := find_node act_key.

(** ** AddPolicy *)

(** Append the attributes that are not yet listed, in order. *)
Definition merge_attributes (known attrs : list string) : list string :=
  foldl (fun acc attr => if decide (attr ∈ acc) then acc else acc ++ [attr]) known attrs.

Definition scope_is_any (scope : option ScopeNode) : bool :=
  match scope with
  | None => true
  | Some s => bool_decide (Operator s = ScopeOpAny)
  end.

Definition add_to_action (policy : PolicyNode) (n : ActionNode) : ActionNode :=
  mkActionNode (act_key n) (Policies n ++ [policy]).

Definition add_to_resource (policy : PolicyNode) (n : ResourceNode) : ResourceNode :=
  let k := buildKey (Action policy) in
  let h := buildKeyHash (Action policy) in
  mkResourceNode (res_key n)
    (<[h := upsert_node act_key k (mkActionNode k []) (add_to_action policy)
              (bucket (Actions n) h)]> (Actions n)).

Definition add_to_subject (policy : PolicyNode) (n : SubjectNode) : SubjectNode :=
  let k := buildKey (Resource policy) in
  let h := buildKeyHash (Resource policy) in
  mkSubjectNode (sub_key n)
    (<[h := upsert_node res_key k (mkResourceNode k ∅) (add_to_resource policy)
              (bucket (Resources n) h)]> (Resources n)).

Definition is_global (policy : PolicyNode) : bool :=
  scope_is_any (Principal policy) && scope_is_any (Resource policy).

Definition AddPolicy (t : TrieRoot) (policy : option PolicyNode) : TrieRoot :=
  match policy with
  | None => t
  | Some policy =>
      let attrs := merge_attributes (trie_attributes t) (RequiredAttributes policy) in
      if is_global policy then
        mkTrieRoot (trie_tenant t) (Revision t) attrs (Subjects t)
          (GlobalPolicies t ++ [policy]) (trie_dag t)
      else
        let k := buildKey (Principal policy) in
        let h := buildKeyHash (Principal policy) in
        mkTrieRoot (trie_tenant t) (Revision t) attrs
          (<[h := upsert_node sub_key k (mkSubjectNode k ∅) (add_to_subject policy)
                    (bucket (Subjects t) h)]> (Subjects t))
          (GlobalPolicies t) (trie_dag t)
  end.

(** ** Lookup *)

(** A copy into an array of 32 strings, or a heap slice when it is too long. *)
Definition ensureAnyInto (list : list string) : Datatypes.list string :=
  if decide ("any" ∈ list) then list
  else
    let copied := take 32 list in
    if (length copied <? 32)%nat then copied ++ ["any"] else list ++ ["any"].

Definition policies_of_action (actions : gmap Z (list ActionNode)) (h : Z) (k : string) :
    list PolicyNode :=
  match findActionNode (bucket actions h) k with
  | Some n => Policies n
  | None => []
  end.

(** The two iterations over [actionsToTry]. *)
Definition lookup_actions (n : ResourceNode) (action : string) : list PolicyNode :=
  let actionHash := fnvHash action in
  let anyHash := fnvHash "any" in
  policies_of_action (Actions n) actionHash action
  ++ (if decide (actionHash = anyHash) then []
      else policies_of_action (Actions n) anyHash "any").

Definition lookup_resource (n : SubjectNode) (action resKey : string) : list PolicyNode :=
  match findResourceNode (bucket (Resources n) (fnvHash resKey)) resKey with
  | None => []
  | Some r => lookup_actions r action
  end.

Definition lookup_subject (t : TrieRoot) (resources : list string) (action subKey : string) :
    list PolicyNode :=
  match findSubjectNode (bucket (Subjects t) (fnvHash subKey)) subKey with
  | None => []
  | Some s => resources ≫= lookup_resource s action
  end.

Definition LookupPoliciesInto (t : TrieRoot) (buf : list PolicyNode)
    (subjects resources : list string) (action : string) : list PolicyNode :=
  buf ++ GlobalPolicies t
  ++ (ensureAnyInto subjects ≫= lookup_subject t (ensureAnyInto resources) action).

Definition LookupPolicies (t : TrieRoot) (subjects resources : list string) (action : string) :
    list PolicyNode :=
  LookupPoliciesInto t [] subjects resources action.
