(* ===== verification/TrieFacts.v ===== *)
(** * The policy index returns exactly the policies that apply

    The index is compared with a flat scan of the policy list: the result is
    the same list, in the same order ([flat_lookup]).  Bucket collisions are
    harmless because nodes are found by raw key; the one place the code
    compares hashes alone is the test that skips the wildcard action, which
    is why [hash_separates] appears. *)

From S2P Require Import Prelude GoStr Ast Dag Trie.
From stdpp Require Import options.

(** The index of a list of policies. *)
Definition build_trie (t : TrieRoot) (ps : list PolicyNode) : TrieRoot :=
  foldl (fun t p => AddPolicy t (Some p)) t ps.

(** [action] is the wildcard or hashes differently from it. *)
Definition hash_separates (action : string) : Prop :=
  fnvHash action = fnvHash "any" -> action = "any".

(** ** The specification: a scan of the list *)

Definition has_keys (sk rk ak : string) (p : PolicyNode) : bool :=
  negb (is_global p) && bool_decide (buildKey (Principal p) = sk)
  && bool_decide (buildKey (Resource p) = rk) && bool_decide (buildKey (Action p) = ak).

Definition with_any (l : list string) : list string := if decide ("any" ∈ l) then l else l ++ ["any"].
Definition action_keys (action : string) : list string :=
  if decide (action = "any") then ["any"] else [action; "any"].

Definition flat_lookup (ps : list PolicyNode) (subjects resources : list string) (action : string) :
    list PolicyNode :=
  base.filter (fun p => is_global p = true) ps
  ++ (with_any subjects ≫= fun sk => with_any resources ≫= fun rk => action_keys action ≫= fun ak =>
        base.filter (fun p => has_keys sk rk ak p = true) ps).

(** A scope admits one of the given entity keys. *)
Definition scope_applies (scope : option ScopeNode) (keys : list string) : Prop :=
  scope_is_any scope = true \/ buildKey scope ∈ keys.

(** The policies that bear on a request. *)
Definition applies (p : PolicyNode) (subjects : list string) (resource action : string) : Prop :=
  scope_applies (Principal p) subjects /\ scope_applies (Resource p) [resource]
  /\ (is_global p = true \/ scope_applies (Action p) [action]).

(** ** Buckets *)

Section BucketFacts.
Context {A : Type} (key : A -> string).

Lemma find_upsert k fresh (f : A -> A) nodes k' :
  key fresh = k -> (forall n, key (f n) = key n) ->
  find_node key (upsert_node key k fresh f nodes) k'
  = if decide (k' = k) then Some (f (default fresh (find_node key nodes k)))
    else find_node key nodes k'.
Proof.
  intros Hfresh Hf. induction nodes as [|n ns IH]; simpl.
  - rewrite Hf, Hfresh. by repeat case_decide; simplify_eq/=.
  - destruct (decide (key n = k)) as [Hn|Hn]; simpl; rewrite ?Hf.
    + by repeat case_decide; simplify_eq/=.
    + rewrite IH. repeat case_decide; simplify_eq/=; done.
Qed.

(** One level of [AddPolicy] read back through one level of the lookup. *)
Lemma find_bucket_upsert (m : gmap Z (list A)) k fresh (f : A -> A) k' :
  key fresh = k -> (forall n, key (f n) = key n) ->
  find_node key (bucket (<[fnvHash k := upsert_node key k fresh f (bucket m (fnvHash k))]> m)
                   (fnvHash k')) k'
  = if decide (k' = k) then Some (f (default fresh (find_node key (bucket m (fnvHash k)) k)))
    else find_node key (bucket m (fnvHash k')) k'.
Proof.
  intros Hfresh Hf. unfold bucket at 1.
  destruct (decide (fnvHash k' = fnvHash k)) as [He|Hne].
  - rewrite He, lookup_insert_eq. simpl. by apply find_upsert.
  - rewrite lookup_insert_ne by done. case_decide; [by subst|done].
Qed.
End BucketFacts.

(** ** Point lookups *)

Definition at_action (n : ResourceNode) (ak : string) : list PolicyNode :=
  policies_of_action (Actions n) (fnvHash ak) ak.
Definition at_resource (n : SubjectNode) (rk ak : string) : list PolicyNode :=
  match findResourceNode (bucket (Resources n) (fnvHash rk)) rk with
  | None => [] | Some r => at_action r ak
  end.
Definition policies_at (t : TrieRoot) (sk rk ak : string) : list PolicyNode :=
  match findSubjectNode (bucket (Subjects t) (fnvHash sk)) sk with
  | None => [] | Some s => at_resource s rk ak
  end.

Lemma at_action_add p n ak :
  at_action (add_to_resource p n) ak
  = at_action n ak ++ (if decide (ak = buildKey (Action p)) then [p] else []).
Proof.
  unfold at_action, policies_of_action, add_to_resource, findActionNode, buildKeyHash. simpl.
  rewrite find_bucket_upsert by done. case_decide; [|by rewrite app_nil_r].
  subst. simpl. by destruct (find_node act_key _ _).
Qed.

Lemma at_resource_add p n rk ak :
  at_resource (add_to_subject p n) rk ak
  = at_resource n rk ak
    ++ (if decide (rk = buildKey (Resource p) /\ ak = buildKey (Action p)) then [p] else []).
Proof.
  unfold at_resource, add_to_subject, findResourceNode, buildKeyHash. simpl.
  rewrite find_bucket_upsert by done.
  destruct (decide (rk = buildKey (Resource p))) as [->|]; simpl.
  - rewrite at_action_add. destruct (find_node res_key _ _); simpl;
      repeat case_decide; naive_solver.
  - rewrite (decide_False (P := _ /\ _)) by naive_solver. by rewrite app_nil_r.
Qed.

Lemma policies_at_add t p sk rk ak :
  policies_at (AddPolicy t (Some p)) sk rk ak
  = policies_at t sk rk ak ++ (if has_keys sk rk ak p then [p] else []).
Proof.
  unfold policies_at, AddPolicy, has_keys, findSubjectNode, buildKeyHash.
  destruct (is_global p); simpl; [by rewrite app_nil_r|].
  rewrite find_bucket_upsert by done. destruct (decide (sk = buildKey (Principal p))) as [->|].
  - rewrite bool_decide_true by done. simpl. rewrite at_resource_add.
    destruct (find_node sub_key _ _); simpl; repeat case_bool_decide; repeat case_decide;
      naive_solver.
  - rewrite (bool_decide_false (buildKey _ = sk)) by naive_solver. by rewrite app_nil_r.
Qed.

Lemma filter_cons_if {A} (b : A -> bool) x (l : list A) :
  base.filter (fun p => b p = true) (x :: l)
  = (if b x then [x] else []) ++ base.filter (fun p => b p = true) l.
Proof. rewrite filter_cons. by destruct (b x). Qed.

Lemma policies_at_build t ps sk rk ak :
  policies_at (build_trie t ps) sk rk ak
  = policies_at t sk rk ak ++ base.filter (fun p => has_keys sk rk ak p = true) ps.
Proof.
  revert t. induction ps as [|p ps IH]; intros t; [by rewrite app_nil_r|].
  change (build_trie t (p :: ps)) with (build_trie (AddPolicy t (Some p)) ps).
  by rewrite IH, policies_at_add, filter_cons_if, <- app_assoc.
Qed.

Lemma globals_build t ps :
  GlobalPolicies (build_trie t ps)
  = GlobalPolicies t ++ base.filter (fun p => is_global p = true) ps.
Proof.
  revert t. induction ps as [|p ps IH]; intros t; [by rewrite app_nil_r|].
  change (build_trie t (p :: ps)) with (build_trie (AddPolicy t (Some p)) ps).
  rewrite IH, filter_cons_if, app_assoc. f_equal. unfold AddPolicy.
  destruct (is_global p); simpl; [done|by rewrite app_nil_r].
Qed.

Lemma build_trie_frame t ps :
  trie_tenant (build_trie t ps) = trie_tenant t /\ Revision (build_trie t ps) = Revision t
  /\ trie_dag (build_trie t ps) = trie_dag t.
Proof.
  revert t. induction ps as [|p ps IH]; intros t; [done|].
  change (build_trie t (p :: ps)) with (build_trie (AddPolicy t (Some p)) ps).
  destruct (IH (AddPolicy t (Some p))) as (-> & -> & ->). unfold AddPolicy.
  by destruct (is_global p).
Qed.

(** ** The lookup *)

Lemma ensureAnyInto_eq l : ensureAnyInto l = with_any l.
Proof.
  unfold ensureAnyInto, with_any. case_decide; [done|].
  destruct (Nat.ltb_spec (length (take 32 l)) 32) as [Hl|]; [|done].
  rewrite length_take in Hl. by rewrite take_ge by lia.
Qed.

Lemma lookup_actions_eq n action :
  hash_separates action ->
  lookup_actions n action = action_keys action ≫= at_action n.
Proof.
  unfold hash_separates, lookup_actions, action_keys, at_action. intros Hsep.
  case_decide as Hh.
  - specialize (Hsep Hh). subst. rewrite decide_True by done. simpl. done.
  - rewrite decide_False by (by intros ->). simpl. by rewrite app_nil_r.
Qed.

Lemma bind_ext {A B} (f g : A -> list B) l : (forall x, f x = g x) -> l ≫= f = l ≫= g.
Proof. intros Hfg. induction l as [|x l IH]; csimpl; [done|]. by rewrite Hfg, IH. Qed.

Lemma bind_nil {A B} (l : list A) : (l ≫= fun _ => [] : list B) = [].
Proof. by induction l. Qed.

Lemma lookup_build t ps buf subjects resources action :
  Subjects t = ∅ -> GlobalPolicies t = [] -> hash_separates action ->
  LookupPoliciesInto (build_trie t ps) buf subjects resources action
  = buf ++ flat_lookup ps subjects resources action.
Proof.
  intros Hs Hg Hsep. unfold LookupPoliciesInto, flat_lookup.
  rewrite globals_build, Hg, !ensureAnyInto_eq. f_equal. simpl. f_equal.
  apply bind_ext. intros sk.
  transitivity (with_any resources ≫= fun rk => action_keys action ≫= fun ak =>
                  policies_at (build_trie t ps) sk rk ak).
  - unfold lookup_subject, policies_at.
    destruct (findSubjectNode _ sk) as [s|].
    + apply bind_ext. intros rk. unfold lookup_resource, at_resource.
      destruct (findResourceNode _ rk); [by apply lookup_actions_eq|].
      by rewrite bind_nil.
    + induction (with_any resources) as [|rk rks IH]; csimpl; [done|].
      rewrite bind_nil. by rewrite bind_nil.
  - apply bind_ext. intros rk. apply bind_ext. intros ak.
    rewrite policies_at_build. unfold policies_at. rewrite Hs.
    unfold bucket. by rewrite lookup_empty.
Qed.

Lemma app_colon_not_any a b : a +:+ ":" +:+ b <> "any".
Proof.
  destruct a as [|c1 [|c2 [|c3 [|c4 a]]]]; simpl; intros [=]; subst.
Qed.

Lemma buildKey_any scope : buildKey scope = "any" <-> scope_is_any scope = true.
Proof.
  destruct scope as [s|]; simpl; [|done]. case_decide as Hop.
  - by rewrite bool_decide_true.
  - rewrite bool_decide_false by done. split; [|done]. by intros ?%app_colon_not_any.
Qed.

Lemma elem_with_any scope keys :
  buildKey scope ∈ with_any keys <-> scope_applies scope keys.
Proof.
  unfold with_any, scope_applies. rewrite <- buildKey_any. case_decide.
  - split; [by right|]. intros [->|]; done.
  - rewrite elem_of_app, list_elem_of_singleton. naive_solver.
Qed.

Lemma elem_action_keys scope action :
  buildKey scope ∈ action_keys action <-> scope_applies scope [action].
Proof.
  unfold action_keys, scope_applies. rewrite <- buildKey_any, list_elem_of_singleton.
  case_decide; set_solver.
Qed.

Lemma elem_flat_lookup ps subjects resource action p :
  p ∈ flat_lookup ps subjects [resource] action
  <-> p ∈ ps /\ applies p subjects resource action.
Proof.
  unfold flat_lookup, applies. rewrite elem_of_app, list_elem_of_filter.
  setoid_rewrite list_elem_of_bind. setoid_rewrite list_elem_of_bind.
  setoid_rewrite list_elem_of_bind. setoid_rewrite list_elem_of_filter.
  unfold has_keys. rewrite <- (elem_action_keys (Action p)), <- !elem_with_any. split.
  - intros [[Hg Hin]|(sk & (rk & (ak & [Hk Hin] & Hak) & Hrk) & Hsk)].
    + split; [done|]. unfold is_global in Hg. apply andb_true_iff in Hg as [Hp Hr].
      split_and!; [apply elem_with_any; by left|apply elem_with_any; by left|left].
      unfold is_global. by rewrite Hp, Hr.
    + rewrite !andb_true_iff, !bool_decide_eq_true in Hk.
      destruct Hk as [[[_ <-] <-] <-]. split; [done|]. split_and!; try done. by right.
  - intros (Hin & Hsk & Hrk & Ha). destruct (is_global p) eqn:Hg; [by left|right].
    destruct Ha as [|Ha]; [done|].
    exists (buildKey (Principal p)). split; [|done]. exists (buildKey (Resource p)). split; [|done].
    exists (buildKey (Action p)). split; [|done]. split; [|done].
    by rewrite !bool_decide_true.
Qed.
