(* ===== verification/Compiler.v ===== *)
(** * The policy compiler ([internal/parser/compiler.go], [obligation.go], [policy_set.go])

    The compiler retypes literals in place, folds constants and collects the
    attributes a condition reads.  A condition is a tree without sharing (the
    parser allocates every node), so an assignment through a node pointer is a
    functional update.  The error list of the [Compiler] is threaded as state
    through [optimizeNode]. *)

From S2P Require Import Prelude GoStr Ast GoNet GoTime Lexer Parser.
From stdpp Require Import options.
Local Open Scope Z_scope.

(** ** Literals *)

(** [tryParseIPOrCIDR]: an address, or a network when the address parser fails. *)
Definition tryParseIPOrCIDR (s : string) : option (IP + IPNet) :=
  match ParseIP s with
  | Some ip => Some (inl ip)
  | None => match ParseCIDR s with
            | Some n => Some (inr n)
            | None => None
            end
  end.

Definition clock_ok (h m s : Z) : bool :=
  (0 <=? h) && (h <? 24) && (0 <=? m) && (m <? 60) && (0 <=? s) && (s <? 60).

Definition tryParseDateTimeOrTime (s : string) : option Z :=
  match ParseRFC3339 s with
  | Some t => Some (unix_nano t)
  | None =>
      let short := match Sscanf_hm s with
        | Some (h, m) => if clock_ok h m 0 then Some (h * 3600 + m * 60) else None
        | None => None
        end in
      match Sscanf_hms (has_suffix s "Z") s with
      | Some (h, m, sec) => if clock_ok h m sec then Some (h * 3600 + m * 60 + sec) else short
      | None => short
      end
  end.

Definition retype_ip (v : Value) (x : IP + IPNet) : Value :=
  match x with
  | inr n => mkValue ValueTypeIPNet (StrVal v) (IntVal v) (BoolVal v) (IPVal v) n (value_pos v)
  | inl ip => mkValue ValueTypeIP (StrVal v) (IntVal v) (BoolVal v) ip (IPNetVal v) (value_pos v)
  end.
Definition retype_datetime (v : Value) (t : Z) : Value :=
  mkValue ValueTypeDateTime (StrVal v) t (BoolVal v) (IPVal v) (IPNetVal v) (value_pos v).

(** The [ValueNode] case of [optimizeNode]. *)
Definition retype_literal (v : Value) : Value :=
  if decide (ValType v = ValueTypeString) then
    match tryParseIPOrCIDR (StrVal v) with
    | Some x => retype_ip v x
    | None => match tryParseDateTimeOrTime (StrVal v) with
              | Some t => retype_datetime v t
              | None => v
              end
    end
  else v.

(** ** Constant folding *)

Definition evaluateEq (l r : Value) : bool :=
  if decide (ValType l = ValType r) then
    match ValType l with
    | ValueTypeBool => Bool.eqb (BoolVal l) (BoolVal r)
    | ValueTypeInt => IntVal l =? IntVal r
    | ValueTypeString => bool_decide (StrVal l = StrVal r)
    | ValueTypeIP => ip_equal (IPVal l) (IPVal r)
    | _ => false
    end
  else false.

Definition int_cmp (a b : Z) : Z := if b <? a then 1 else if a <? b then -1 else 0.

Definition evaluateCompare (l r : Value) : option Z :=
  if decide (ValType l = ValType r) then
    match ValType l with
    | ValueTypeInt | ValueTypeDateTime => Some (int_cmp (IntVal l) (IntVal r))
    | ValueTypeString => Some (string_cmp (StrVal l) (StrVal r))
    | _ => None
    end
  else None.

(** The type assertion to a value node. *)
Definition as_value (n : Node) : option Value :=
  match n with ValueNode v => Some v | _ => None end.

(** The node is the literal [b]. *)
Definition is_bool_lit (b : bool) (n : Node) : bool :=
  match n with
  | ValueNode v => bool_decide (ValType v = ValueTypeBool) && Bool.eqb (BoolVal v) b
  | _ => false
  end.

Definition bool_node (b : bool) (p : Position) : Node := ValueNode (bool_value b p).

Definition both_bool (l r : Value) : bool :=
  bool_decide (ValType l = ValueTypeBool) && bool_decide (ValType r = ValueTypeBool).

(** The result of folding two literals; [None] leaves the node as it is. *)
Definition fold_literals (op : BinaryOp) (l r : Value) : option bool :=
  match op with
  | BinOpAnd => if both_bool l r then Some (BoolVal l && BoolVal r) else None
  | BinOpOr => if both_bool l r then Some (BoolVal l || BoolVal r) else None
  | BinOpEq => Some (evaluateEq l r)
  | BinOpNe => Some (negb (evaluateEq l r))
  | BinOpGt => (fun c => 0 <? c) <$> evaluateCompare l r
  | BinOpLt => (fun c => c <? 0) <$> evaluateCompare l r
  | BinOpGe => (fun c => 0 <=? c) <$> evaluateCompare l r
  | BinOpLe => (fun c => c <=? 0) <$> evaluateCompare l r
  | BinOpIn | BinOpContains => None
  end.

Definition foldBinaryExpr (op : BinaryOp) (l r : Node) (p : Position) : Node :=
  if bool_decide (op = BinOpAnd) && (is_bool_lit false l || is_bool_lit false r) then bool_node false p
  else if bool_decide (op = BinOpOr) && (is_bool_lit true l || is_bool_lit true r) then bool_node true p
  else match as_value l, as_value r with
       | Some lv, Some rv =>
           match fold_literals op lv rv with
           | Some b => bool_node b p
           | None => BinaryExprNode op l r p
           end
       | _, _ => BinaryExprNode op l r p
       end.

Definition foldUnaryExpr (op : UnaryOp) (c : Node) (p : Position) : Node :=
  match c with
  | ValueNode v =>
      if bool_decide (op = UnaryOpNot) && bool_decide (ValType v = ValueTypeBool)
      then bool_node (negb (BoolVal v)) p
      else if bool_decide (op = UnaryOpNeg) && bool_decide (ValType v = ValueTypeInt)
      then ValueNode (int_value (to_int64 (- IntVal v)) p)
      else UnaryExprNode op c p
  | _ => UnaryExprNode op c p
  end.

(** ** The optimisation pass *)

(** A static type error: its position and the two literal types. *)
Record TypeError := mkTypeError { te_pos : Position; te_left : ValueType; te_right : ValueType }.

Definition isRelationalOp (op : BinaryOp) : bool :=
  match op with BinOpGt | BinOpLt | BinOpGe | BinOpLe => true | _ => false end.

Definition checkTypeCompatibility (errs : list TypeError) (l r : Node) (p : Position) : list TypeError :=
  match as_value l, as_value r with
  | Some lv, Some rv =>
      if decide (ValType lv = ValType rv) then errs
      else errs ++ [mkTypeError p (ValType lv) (ValType rv)]
  | _, _ => errs
  end.

(** The right literal of a comparison with a variable, retyped by the name of
    the variable.  A string retyped as an address keeps its text, which the
    second test parses again. *)
Definition preparseIdentifiersAndLiterals (op : BinaryOp) (l r : Node) : Node :=
  match l, r with
  | VariableNode _ field _, ValueNode v =>
      if decide (ValType v = ValueTypeString) then
        let v1 :=
          if (bool_decide (op = BinOpIn) || bool_decide (op = BinOpEq))
             && (contains field "ip" || contains field "addr")
          then match tryParseIPOrCIDR (StrVal v) with
               | Some x => retype_ip v x
               | None => v
               end
          else v in
        if contains field "time" || contains field "date" then
          match tryParseDateTimeOrTime (StrVal v1) with
          | Some t => ValueNode (retype_datetime v1 t)
          | None => ValueNode v1
          end
        else ValueNode v1
      else r
  | _, _ => r
  end.

Fixpoint optimizeNode (errs : list TypeError) (n : Node) : Node * list TypeError :=
  match n with
  | NodeNil => (NodeNil, errs)
  | BinaryExprNode op l r p =>
      let '(l', errs1) := optimizeNode errs l in
      let '(r', errs2) := optimizeNode errs1 r in
      let errs3 := if isRelationalOp op then checkTypeCompatibility errs2 l' r' p else errs2 in
      (foldBinaryExpr op l' (preparseIdentifiersAndLiterals op l' r') p, errs3)
  | UnaryExprNode op c p =>
      let '(c', errs1) := optimizeNode errs c in
      (foldUnaryExpr op c' p, errs1)
  | ValueNode v => (ValueNode (retype_literal v), errs)
  | VariableNode _ _ _ => (n, errs)
  end.

(** ** Limits and attributes *)

Definition max_depth : nat := 15.

(** [checkDepth]: true when the error is returned. *)
Fixpoint depth_exceeded (n : Node) (currentDepth : nat) : bool :=
  if (max_depth <? currentDepth)%nat then true
  else match n with
       | BinaryExprNode _ l r _ =>
           depth_exceeded l (S currentDepth) || depth_exceeded r (S currentDepth)
       | UnaryExprNode _ c _ => depth_exceeded c (S currentDepth)
       | _ => false
       end.

(** The keys of the attribute map after [collect]. *)
Fixpoint collect_fields (n : Node) (acc : gset string) : gset string :=
  match n with
  | VariableNode _ field _ => {[field]} ∪ acc
  | BinaryExprNode _ l r _ => collect_fields r (collect_fields l acc)
  | UnaryExprNode _ c _ => collect_fields c acc
  | _ => acc
  end.

Definition extractRequiredAttributes (n : Node) : list string :=
  sort_strings (elements (collect_fields n ∅)).

Definition maxPolicyObligations : nat := 4.
Definition maxObligationMessageLen : Z := 256.

Inductive CompileError :=
| NilPolicy
| TooManyObligations
| UnsupportedObligation (t : string)
| DuplicateObligation (t : string)
| ObligationMessageTooLong (t : string)
| DepthExceeded
| StaticErrors.

Definition known_obligation (t : string) : bool :=
  bool_decide (t ∈ [ObligationRequireHumanApproval; ObligationAuditSensitive; ObligationMaskAttributes]).

Fixpoint validate_obligations (seen : gset string) (obs : list ObligationNode) :
    result CompileError unit :=
  match obs with
  | [] => Ok tt
  | o :: os =>
      guard? negb (known_obligation (ObType o)) else UnsupportedObligation (ObType o);
      guard? bool_decide (ObType o ∈ seen) else DuplicateObligation (ObType o);
      guard? (maxObligationMessageLen <? go_len (ObMessage o)) else ObligationMessageTooLong (ObType o);
      validate_obligations ({[ObType o]} ∪ seen) os
  end.

Definition validatePolicyObligations (p : PolicyNode) : result CompileError unit :=
  guard? (maxPolicyObligations <? length (Obligations p))%nat else TooManyObligations;
  validate_obligations ∅ (Obligations p).

(** ** Compile *)

Definition set_condition (p : PolicyNode) (c : Node) (attrs : list string) : PolicyNode :=
  mkPolicy (ID p) (TenantID p) (PEffect p) (Principal p) (Action p) (Resource p) c (IsUnless p)
    (ExplanationList p) attrs (Obligations p) (policy_pos p).
Definition set_explanations (p : PolicyNode) (l : list string) : PolicyNode :=
  mkPolicy (ID p) (TenantID p) (PEffect p) (Principal p) (Action p) (Resource p) (Condition p)
    (IsUnless p) l (RequiredAttributes p) (Obligations p) (policy_pos p).
Definition set_id (p : PolicyNode) (id : string) : PolicyNode :=
  mkPolicy id (TenantID p) (PEffect p) (Principal p) (Action p) (Resource p) (Condition p)
    (IsUnless p) (ExplanationList p) (RequiredAttributes p) (Obligations p) (policy_pos p).

(** [errs] are the errors the [Compiler] holds before the call. *)
Definition Compile (errs : list TypeError) (policy : option PolicyNode) :
    result CompileError PolicyNode :=
  match policy with
  | None => Err NilPolicy
  | Some p =>
      let? _ := validatePolicyObligations p in
      let? (p', errs') :=
        (if node_is_nil (Condition p) then Ok (p, errs)
         else guard? depth_exceeded (Condition p) 1 else DepthExceeded;
              let '(c, errs') := optimizeNode errs (Condition p) in
              Ok (set_condition p c (extractRequiredAttributes c), errs')) in
      guard? negb (bool_decide (length errs' = 0%nat)) else StaticErrors;
      Ok (set_explanations p' [ID p'])
  end.

(** ** Policy sets *)

Record PolicySource := mkPolicySource { source_id : string; source_text : string }.

Inductive SetError :=
| ParseFailed (id : string) (errs : list PError)
| NotOneStatement (id : string) (n : nat)
| CompileFailed (id : string) (e : CompileError)
| ParseDiverged.  (** Never returned ([compile_source_total]). *)

Definition map_err {E F A} (f : E -> F) (m : result E A) : result F A :=
  match m with Ok a => Ok a | Err e => Err (f e) end.

Definition compile_source `{UnicodeTable} (s : PolicySource) : result SetError PolicyNode :=
  match ParseText (source_text s) with
  | None => Err ParseDiverged
  | Some (nodes, errs) =>
      guard? (0 <? length errs)%nat else ParseFailed (source_id s) errs;
      match nodes with
      | [p] => map_err (CompileFailed (source_id s)) (Compile [] (Some (set_id p (source_id s))))
      | _ => Err (NotOneStatement (source_id s) (length nodes))
      end
  end.

(** The loop returns at the first error, and nothing of what it compiled. *)
Definition CompilePolicySet `{UnicodeTable} (sources : list PolicySource) :
    result SetError (list PolicyNode) :=
  rmapM compile_source sources.
