(* ===== verification/Evaluator.v ===== *)
(** * The condition evaluator ([internal/engine/evaluator.go])

    [Evaluate] walks the tree of a condition in a request context, on values.
    The scratch arrays of [EvalContext] and its pool are in [EvalScratch],
    where the evaluator on them is shown to compute the same.  A nil attribute
    map reads like an empty one. *)

From S2P Require Import Prelude GoStr Ast GoNet GoTime Dag.
From stdpp Require Import options.
Local Open Scope Z_scope.

Record EvalContext := mkEvalContext {
  ctx_subject : string;
  ctx_action : string;
  ctx_resource : string;
  ctx_attrs : gmap string string;
  ctx_dag : option RoleDAG
}.

Inductive EvalError :=
| ErrMissingAttribute
| ErrUnsupportedOp
| ErrParse           (** an attribute that does not parse at the expected type *)
| ErrUnsupportedNode.

Definition boolTrue : Value := bool_value true no_pos.
Definition boolFalse : Value := bool_value false no_pos.

(** ** Parsing attributes *)

(** The loop of [parseIPv4FastInto]: [p] are the octets stored so far.
    [None] is a [return nil]; otherwise the loop ran to the end. *)
Fixpoint fast_scan (bs : list Z) (p : list Z) (val digits : Z) : option (list Z * Z * Z) :=
  match bs with
  | [] => Some (p, val, digits)
  | c :: bs' =>
      if (48 <=? c) && (c <=? 57) then
        let val' := val * 10 + (c - 48) in
        if (255 <? val') || (3 <? digits + 1) then None
        else fast_scan bs' p val' (digits + 1)
      else if c =? 46 then
        if (digits =? 0) || (3 <=? length p)%nat then None
        else fast_scan bs' (p ++ [val]) 0 0
      else None
  end.

(** [parseIPv4FastInto]; [None] is the nil address. *)
Definition parseIPv4FastInto (s : string) : option IP :=
  match fast_scan (go_bytes s) [] 0 0 with
  | None => None
  | Some (p, val, digits) =>
      if negb (length p =? 3)%nat || (digits =? 0) then ParseIP s
      else Some (v4_prefix ++ p ++ [val])
  end.

(** [s[i]-'0'], a byte. *)
Definition digit_of (bs : list Z) (i : nat) : Z := to_byte (nth i bs 0 - 48).
Definition is_colon (bs : list Z) (i : nat) : bool := nth i bs 0 =? 58.

Definition parseFastTime (s : string) : option Z :=
  let bs := go_bytes (trim_suffix s "Z") in
  let d := digit_of bs in
  let ok := fun l => forallb (fun i => d i <=? 9) l in
  if (length bs =? 8)%nat && is_colon bs 2 && is_colon bs 5 then
    if ok [0; 1; 3; 4; 6; 7]%nat then
      let h := d 0%nat * 10 + d 1%nat in
      let m := d 3%nat * 10 + d 4%nat in
      let sec := d 6%nat * 10 + d 7%nat in
      if (h <? 24) && (m <? 60) && (sec <? 60) then Some (h * 3600 + m * 60 + sec) else None
    else None
  else if (length bs =? 5)%nat && is_colon bs 2 then
    if ok [0; 1; 3; 4]%nat then
      let h := d 0%nat * 10 + d 1%nat in
      let m := d 3%nat * 10 + d 4%nat in
      if (h <? 24) && (m <? 60) then Some (h * 3600 + m * 60) else None
    else None
  else None.

Definition tryParseDateTimeOrTime (s : string) : option Z :=
  match parseFastTime s with
  | Some v => Some v
  | None => unix_nano <$> ParseRFC3339 s
  end.

Definition from_option_err {A} (e : EvalError) (o : option A) : result EvalError A :=
  match o with Some a => Ok a | None => Err e end.

Definition datetime_value (t : Z) : Value := mkValue ValueTypeDateTime "" t false [] nil_net no_pos.

Definition parseStringValue (val : string) (expectedType : ValueType) : result EvalError Value :=
  match expectedType with
  | ValueTypeString => Ok (string_value val no_pos)
  | ValueTypeInt => let? n := from_option_err ErrParse (ParseInt val) in Ok (int_value n no_pos)
  | ValueTypeBool => let? b := from_option_err ErrParse (ParseBool val) in Ok (bool_value b no_pos)
  | ValueTypeIP => let? ip := from_option_err ErrParse (parseIPv4FastInto val) in Ok (ip_value ip no_pos)
  | ValueTypeIPNet => let? n := from_option_err ErrParse (ParseCIDR val) in Ok (ipnet_value n no_pos)
  | ValueTypeDateTime =>
      let? t := from_option_err ErrParse (tryParseDateTimeOrTime val) in Ok (datetime_value t)
  end.

(** The value an attribute reference denotes, before it is parsed. *)
Definition attribute_text (ctx : EvalContext) (scope : VarScope) (field : string) : option string :=
  match scope with
  | VarScopePrincipal => ctx_attrs ctx !! ("principal." +:+ field)
  | VarScopeResource => ctx_attrs ctx !! ("resource." +:+ field)
  | VarScopeContext =>
      match ctx_attrs ctx !! field with
      | Some v => Some v
      | None => ctx_attrs ctx !! ("context." +:+ field)
      end
  end.

Definition GetAttribute (ctx : EvalContext) (scope : VarScope) (field : string)
    (expectedType : ValueType) : result EvalError Value :=
  match scope, decide (field = "id") with
  | VarScopePrincipal, left _ => Ok (string_value (ctx_subject ctx) no_pos)
  | VarScopeResource, left _ => Ok (string_value (ctx_resource ctx) no_pos)
  | _, _ =>
      match attribute_text ctx scope field with
      | Some val => parseStringValue val expectedType
      | None => Err ErrMissingAttribute
      end
  end.

(** ** Comparisons *)

Definition compareEq (l r : Value) : bool :=
  if decide (ValType l = ValType r) then
    match ValType l with
    | ValueTypeString => bool_decide (StrVal l = StrVal r)
    | ValueTypeInt | ValueTypeDateTime => IntVal l =? IntVal r
    | ValueTypeBool => Bool.eqb (BoolVal l) (BoolVal r)
    | ValueTypeIP => ip_equal (IPVal l) (IPVal r)
    | ValueTypeIPNet => false
    end
  else false.

Definition compareOrder (l r : Value) : option Z :=
  if decide (ValType l = ValType r) then
    match ValType l with
    | ValueTypeInt | ValueTypeDateTime =>
        Some (if IntVal r <? IntVal l then 1 else if IntVal l <? IntVal r then -1 else 0)
    | ValueTypeString => Some (string_cmp (StrVal l) (StrVal r))
    | _ => None
    end
  else None.

Definition is_string (v : Value) : bool := bool_decide (ValType v = ValueTypeString).
Definition is_bool (v : Value) : bool := bool_decide (ValType v = ValueTypeBool).

(** The [BinOpIn] case: [None] is [ErrUnsupportedOp]. *)
Definition compareIn (ctx : EvalContext) (l r : Value) : option bool :=
  if bool_decide (ValType l = ValueTypeIP) && bool_decide (ValType r = ValueTypeIPNet)
  then Some (ipnet_contains (IPNetVal r) (IPVal l))
  else if is_string l && is_string r then
    let child := trim_prefix (StrVal r) "role:" in
    let parent := trim_prefix (StrVal l) "role:" in
    Some (match ctx_dag ctx with
          | Some g => IsDescendant (Some g) parent child
          | None => bool_decide (parent = child)
          end)
  else None.

(** The [BinOpContains] case. *)
Definition compareContains (l r : Value) : option bool :=
  if is_string l && is_string r
  then Some (existsb (fun part => bool_decide (trim_space part = StrVal r)) (split (StrVal l) ","))
  else None.

Definition compare_op (ctx : EvalContext) (op : BinaryOp) (l r : Value) : option bool :=
  match op with
  | BinOpEq => Some (compareEq l r)
  | BinOpNe => Some (negb (compareEq l r))
  | BinOpGt => (fun c => 0 <? c) <$> compareOrder l r
  | BinOpLt => (fun c => c <? 0) <$> compareOrder l r
  | BinOpGe => (fun c => 0 <=? c) <$> compareOrder l r
  | BinOpLe => (fun c => c <=? 0) <$> compareOrder l r
  | BinOpIn => compareIn ctx l r
  | BinOpContains => compareContains l r
  | BinOpAnd | BinOpOr => Some false
  end.

Definition bool_result (b : bool) : Value := if b then boolTrue else boolFalse.

(** The type the left attribute is parsed at. *)
Definition expected_type (op : BinaryOp) (right : Node) : ValueType :=
  let t := match right with ValueNode v => ValType v | _ => ValueTypeString end in
  if bool_decide (op = BinOpIn) && bool_decide (t = ValueTypeIPNet) then ValueTypeIP else t.

(** [evaluateComparison]; [el] and [er] are the calls of [Evaluate] on the operands. *)
Definition evaluateComparison (ctx : EvalContext) (op : BinaryOp) (left right : Node)
    (el er : result EvalError Value) : result EvalError Value :=
  let leftVal := match left with
    | VariableNode scope field _ => GetAttribute ctx scope field (expected_type op right)
    | _ => el
    end in
  match leftVal with
  | Err _ => Ok boolFalse
  | Ok l =>
      match er with
      | Err _ => Ok boolFalse
      | Ok r =>
          match compare_op ctx op l r with
          | None => Err ErrUnsupportedOp
          | Some b => Ok (bool_result b)
          end
      end
  end.

(** ** Evaluate *)

Definition eval_not (v : Value) : result EvalError Value :=
  guard? negb (is_bool v) else ErrUnsupportedOp;
  Ok (if BoolVal v then boolFalse else boolTrue).

Definition eval_neg (v : Value) : result EvalError Value :=
  guard? negb (bool_decide (ValType v = ValueTypeInt)) else ErrUnsupportedOp;
  Ok (int_value (to_int64 (- IntVal v)) no_pos).

Definition eval_and (el er : result EvalError Value) : result EvalError Value :=
  match el with
  | Err _ => Ok boolFalse
  | Ok l =>
      guard? negb (is_bool l) else ErrUnsupportedOp;
      if negb (BoolVal l) then Ok boolFalse
      else match er with
           | Err _ => Ok boolFalse
           | Ok r => guard? negb (is_bool r) else ErrUnsupportedOp; Ok r
           end
  end.

Definition eval_or (el er : result EvalError Value) : result EvalError Value :=
  let left_true := match el with Ok l => is_bool l && BoolVal l | Err _ => false end in
  if left_true then Ok boolTrue
  else match er with
       | Err _ => Ok boolFalse
       | Ok r => guard? negb (is_bool r) else ErrUnsupportedOp; Ok r
       end.

Fixpoint Evaluate (node : Node) (ctx : EvalContext) : result EvalError Value :=
  match node with
  | NodeNil => Ok boolTrue
  | ValueNode v => Ok v
  | VariableNode scope field _ => GetAttribute ctx scope field ValueTypeString
  | UnaryExprNode op c _ =>
      let? v := Evaluate c ctx in
      match op with
      | UnaryOpNot => eval_not v
      | UnaryOpNeg => eval_neg v
      end
  | BinaryExprNode op l r _ =>
      match op with
      | BinOpAnd => eval_and (Evaluate l ctx) (Evaluate r ctx)
      | BinOpOr => eval_or (Evaluate l ctx) (Evaluate r ctx)
      | _ => evaluateComparison ctx op l r (Evaluate l ctx) (Evaluate r ctx)
      end
  end.
