(* ===== verification/Decision.v ===== *)
(** * The decision procedure ([internal/engine/decision.go])

    [evaluatePermission] looks the policies of a request up in the index,
    evaluates their conditions in order, stops at the first satisfied forbid
    and otherwise answers with the first satisfied permit.  The
    [context.Context] of a call is the boolean [canceled], its error state
    when the call starts. *)

From S2P Require Import Prelude GoStr Ast Dag Trie Evaluator.
From stdpp Require Import options.
Local Open Scope Z_scope.

Inductive Decision := DecisionDeny | DecisionAllow.
Global Instance Decision_eq_dec : EqDecision Decision.
Proof. solve_decision. Defined.

(** The constants of the package, and the two texts [engine_gc.go] answers
    with itself for a canceled request and for a tenant it does not hold. *)
Inductive Reason :=
| ReasonGCCanceled | ReasonGCTenantMissing
| ReasonDenyCanceled | ReasonDenyTenantNotFound | ReasonDenyNoMatch | ReasonDenyForbid
| ReasonAllowPermit | ReasonDenyDefault.
Global Instance Reason_eq_dec : EqDecision Reason.
Proof. solve_decision. Defined.

Record DecisionResult := mkDecision {
  PolicyRevision : Z;
  res_decision : Decision;
  res_reason : Reason;
  Explanations : list string;
  res_obligations : list ObligationNode
}.

Definition deny (r : Reason) : DecisionResult := mkDecision 0 DecisionDeny r [] [].

Definition normalizeAction (act : string) : string :=
  if negb (has_prefix act "action:") then "action:" +:+ act else act.

(** The condition of [policy] holds in [ctx]; an error never satisfies it. *)
Definition condition_satisfied (ctx : EvalContext) (policy : PolicyNode) : bool :=
  match Evaluate (Condition policy) ctx with
  | Ok v => if is_bool v then (if IsUnless policy then negb (BoolVal v) else BoolVal v) else false
  | Err _ => false
  end.

(** The loop over the matched policies: the first satisfied forbid ends it;
    [permit] is the first satisfied permit so far. *)
Fixpoint decide_loop (ctx : EvalContext) (ps : list PolicyNode) (permit : option PolicyNode) :
    option PolicyNode * option PolicyNode :=
  match ps with
  | [] => (None, permit)
  | p :: ps' =>
      if condition_satisfied ctx p then
        match PEffect p with
        | EffectForbid => (Some p, permit)
        | EffectPermit =>
            decide_loop ctx ps' (match permit with None => Some p | Some q => Some q end)
        end
      else decide_loop ctx ps' permit
  end.

Definition explanations_of (p : PolicyNode) : list string :=
  match ExplanationList p with [] => [ID p] | l => l end.

Definition evaluatePermission (trie : TrieRoot) (subject action resource : string)
    (context : gmap string string) : DecisionResult :=
  let subjects := GetInheritedRolesInto (Some (trie_dag trie)) subject (replicate 16 "") in
  let matched := LookupPoliciesInto trie [] subjects [resource] (normalizeAction action) in
  match matched with
  | [] => deny ReasonDenyNoMatch
  | _ =>
      let ctx := mkEvalContext subject action resource context (Some (trie_dag trie)) in
      match decide_loop ctx matched None with
      | (Some p, _) => mkDecision 0 DecisionDeny ReasonDenyForbid (explanations_of p) (Obligations p)
      | (None, Some p) =>
          mkDecision 0 DecisionAllow ReasonAllowPermit (explanations_of p) (Obligations p)
      | (None, None) => deny ReasonDenyDefault
      end
  end.

(** The package-level [CheckPermission]. *)
Definition CheckPermission (canceled : bool) (trie : option TrieRoot) (subject action resource : string)
    (context : gmap string string) : DecisionResult :=
  if canceled then deny ReasonDenyCanceled
  else match trie with
       | None => deny ReasonDenyTenantNotFound
       | Some t => evaluatePermission t subject action resource context
       end.
