(* ===== verification/DecisionFacts.v ===== *)
(** * The decision procedure refines an abstract policy decision point

    The specification quantifies over the policies of the tenant: a request is
    allowed when some permit applies and holds and no forbid that applies
    holds.  [decide_loop], the index and the role closure implement it. *)

From S2P Require Import Prelude GoStr Ast Dag DagFacts Trie TrieFacts Evaluator Decision.
From stdpp Require Import relations options.
Local Open Scope Z_scope.

(** ** The specification *)

Record Request := mkRequest {
  rq_subject : string; rq_action : string; rq_resource : string; rq_context : gmap string string
}.

(** What a tenant's decision depends on: its policies and its role hierarchy. *)
Record Tenant := mkTenant { tn_policies : list PolicyNode; tn_roles : RoleDAG }.

Definition scope_matches (scope : option ScopeNode) (P : string -> Prop) : Prop :=
  scope_is_any scope = true \/ P (buildKey scope).

(** The static scopes of [p] cover the request: the principal through the role
    hierarchy; a policy open in principal and resource ignores the action. *)
Definition policy_covers (tn : Tenant) (rq : Request) (p : PolicyNode) : Prop :=
  scope_matches (Principal p) (fun k => inherits (adj (tn_roles tn)) (rq_subject rq) k)
  /\ scope_matches (Resource p) (fun k => k = rq_resource rq)
  /\ (is_global p = true
      \/ scope_matches (Action p) (fun k => k = normalizeAction (rq_action rq))).

Definition request_context (tn : Tenant) (rq : Request) : EvalContext :=
  mkEvalContext (rq_subject rq) (rq_action rq) (rq_resource rq) (rq_context rq) (Some (tn_roles tn)).

(** [p] takes part in the decision of the request. *)
Definition fires (tn : Tenant) (rq : Request) (p : PolicyNode) : Prop :=
  p ∈ tn_policies tn /\ policy_covers tn rq p
  /\ condition_satisfied (request_context tn rq) p = true.

Definition permitted (tn : Tenant) (rq : Request) : Prop :=
  exists p, fires tn rq p /\ PEffect p = EffectPermit.
Definition forbidden (tn : Tenant) (rq : Request) : Prop :=
  exists p, fires tn rq p /\ PEffect p = EffectForbid.

(** The abstract decision point: deny by default, forbid overrides. *)
Definition pdp_allows (tn : Tenant) (rq : Request) : Prop :=
  permitted tn rq /\ ~ forbidden tn rq.

(** ** The implementation *)

(** The index the engine builds for a tenant. *)
Definition tenant_trie (tid : string) (rev : Z) (tn : Tenant) : TrieRoot :=
  build_trie (mkTrieRoot tid rev [] ∅ [] (tn_roles tn)) (tn_policies tn).

Definition engine_decides (tid : string) (rev : Z) (tn : Tenant) (rq : Request) : DecisionResult :=
  evaluatePermission (tenant_trie tid rev tn) (rq_subject rq) (rq_action rq) (rq_resource rq)
    (rq_context rq).

Lemma normalizeAction_not_any act : normalizeAction act <> "any".
Proof.
  unfold normalizeAction, has_prefix. destruct (String.prefix "action:" act) eqn:E; simpl.
  - intros ->. discriminate E.
  - discriminate.
Qed.

(** *** The loop *)

Lemma decide_loop_spec ctx ps permit :
  match decide_loop ctx ps permit with
  | (Some f, _) => f ∈ ps /\ condition_satisfied ctx f = true /\ PEffect f = EffectForbid
  | (None, r) =>
      (forall p, p ∈ ps -> condition_satisfied ctx p = true -> PEffect p = EffectPermit)
      /\ match r with
         | Some q => permit = Some q
                     \/ (permit = None /\ q ∈ ps /\ condition_satisfied ctx q = true)
         | None => permit = None /\ forall p, p ∈ ps -> condition_satisfied ctx p = false
         end
  end.
Proof.
  revert permit. induction ps as [|p ps IH]; intros permit; simpl.
  { split; [by intros p Hp%not_elem_of_nil|].
    destruct permit; [by left|]. split; [done|]. by intros p Hp%not_elem_of_nil. }
  destruct (condition_satisfied ctx p) eqn:Hc.
  - destruct (PEffect p) eqn:He; [|split_and!; [by left|done..]].
    specialize (IH (match permit with None => Some p | Some q => Some q end)).
    destruct (decide_loop ctx ps _) as [[f|] r].
    + destruct IH as (? & ? & ?). split_and!; [by right|done..].
    + destruct IH as [H1 H2]. split.
      { intros p' [->|Hp]%elem_of_cons; auto. }
      destruct r as [q|]; destruct permit as [q'|]; simpl in *.
      * destruct H2 as [|(? & _)]; [by left|done].
      * right. destruct H2 as [[= ->]|(? & _)]; [|done]. split_and!; [done|by left|done].
      * by destruct H2.
      * by destruct H2.
  - specialize (IH permit). destruct (decide_loop ctx ps permit) as [[f|] r].
    + destruct IH as (? & ? & ?). split_and!; [by right|done..].
    + destruct IH as [H1 H2]. split.
      { intros p' [->|Hp]%elem_of_cons; [congruence|auto]. }
      destruct r as [q|].
      * destruct H2 as [|(? & ? & ?)]; [by left|right]. split_and!; [done|by right|done].
      * destruct H2 as [? H2]. split; [done|]. intros p' [->|Hp]%elem_of_cons; auto.
Qed.

(** *** The matched policies *)

Lemma scope_matches_applies scope keys (P : string -> Prop) :
  (forall k, k ∈ keys <-> P k) -> scope_applies scope keys <-> scope_matches scope P.
Proof. intros Hk. unfold scope_applies, scope_matches. by rewrite Hk. Qed.

Lemma matched_spec tid rev tn rq p :
  dag_wf (tn_roles tn) -> hash_separates (normalizeAction (rq_action rq)) ->
  p ∈ LookupPoliciesInto (tenant_trie tid rev tn) []
        (GetInheritedRolesInto (Some (tn_roles tn)) (rq_subject rq) (replicate 16 ""))
        [rq_resource rq] (normalizeAction (rq_action rq))
  <-> p ∈ tn_policies tn /\ policy_covers tn rq p.
Proof.
  intros Hwf Hsep. unfold tenant_trie. rewrite lookup_build by done.
  rewrite GetInheritedRolesInto_eq by done. simpl.
  rewrite elem_flat_lookup. unfold applies, policy_covers.
  destruct (GetInheritedRoles_spec (tn_roles tn) (rq_subject rq) Hwf) as [_ Hroles].
  rewrite (scope_matches_applies _ _ _ Hroles).
  rewrite (scope_matches_applies (Resource p) [rq_resource rq] (fun k => k = rq_resource rq))
    by (intros; apply list_elem_of_singleton).
  rewrite (scope_matches_applies (Action p) [normalizeAction (rq_action rq)]
             (fun k => k = normalizeAction (rq_action rq)))
    by (intros; apply list_elem_of_singleton).
  done.
Qed.

(** What each reason of a result promises. *)
Definition reason_justified (tn : Tenant) (rq : Request) (r : DecisionResult) : Prop :=
  match res_reason r with
  | ReasonDenyNoMatch =>
      r = deny ReasonDenyNoMatch /\ forall p, p ∈ tn_policies tn -> ~ policy_covers tn rq p
  | ReasonDenyDefault => r = deny ReasonDenyDefault /\ forall p, ~ fires tn rq p
  | ReasonDenyForbid =>
      exists p, fires tn rq p /\ PEffect p = EffectForbid
        /\ r = mkDecision 0 DecisionDeny ReasonDenyForbid (explanations_of p) (Obligations p)
  | ReasonAllowPermit =>
      exists p, fires tn rq p /\ PEffect p = EffectPermit /\ ~ forbidden tn rq
        /\ r = mkDecision 0 DecisionAllow ReasonAllowPermit (explanations_of p) (Obligations p)
  | _ => False
  end.

Lemma engine_reason tid rev tn rq :
  dag_wf (tn_roles tn) -> hash_separates (normalizeAction (rq_action rq)) ->
  reason_justified tn rq (engine_decides tid rev tn rq).
Proof.
  intros Hwf Hsep. pose proof (matched_spec tid rev tn rq) as Hm.
  unfold engine_decides, evaluatePermission.
  assert (trie_dag (tenant_trie tid rev tn) = tn_roles tn) as -> by apply build_trie_frame.
  set (matched := LookupPoliciesInto _ _ _ _ _) in *.
  change (mkEvalContext _ _ _ _ _) with (request_context tn rq).
  assert (forall p, p ∈ matched -> condition_satisfied (request_context tn rq) p = true ->
            fires tn rq p) as Hfires.
  { intros p Hin Hc. destruct (proj1 (Hm p Hwf Hsep) Hin). by split. }
  assert (forall p, fires tn rq p -> p ∈ matched /\ condition_satisfied (request_context tn rq) p = true)
    as Hback.
  { intros p (Hin & Hcov & Hc). split; [|done]. by apply Hm. }
  destruct matched as [|p0 ps] eqn:E.
  { split; [done|]. intros p Hin Hcov. by eapply not_elem_of_nil, (proj2 (Hm p Hwf Hsep)). }
  pose proof (decide_loop_spec (request_context tn rq) (p0 :: ps) None) as Hloop.
  destruct (decide_loop _ _ _) as [[f|] r].
  - destruct Hloop as (Hin & Hc & He). exists f. auto.
  - destruct Hloop as [Hperm Hr].
    destruct r as [q|]; unfold reason_justified; simpl.
    + destruct Hr as [|(_ & Hin & Hc)]; [done|]. exists q. split_and!; [by apply Hfires|by apply Hperm| |done].
      intros (p & [Hp Hcp]%Hback & He). specialize (Hperm p Hp Hcp). congruence.
    + split; [done|]. intros p Hf. apply Hback in Hf as [Hin Hc].
      destruct Hr as [_ Hr]. specialize (Hr p Hin). congruence.
Qed.

Lemma fires_forbidden tn rq p : fires tn rq p -> PEffect p = EffectForbid -> forbidden tn rq.
Proof. intros. by exists p. Qed.

Lemma engine_refines tid rev tn rq :
  dag_wf (tn_roles tn) -> hash_separates (normalizeAction (rq_action rq)) ->
  res_decision (engine_decides tid rev tn rq) = DecisionAllow <-> pdp_allows tn rq.
Proof.
  intros Hwf Hsep. pose proof (engine_reason tid rev tn rq Hwf Hsep) as Hr.
  unfold reason_justified, pdp_allows in *. destruct (res_reason _); try done.
  - destruct Hr as [-> Hno]. split; [done|]. intros [(p & (Hin & Hcov & _) & _) _]. by destruct (Hno p).
  - destruct Hr as (p & Hf & He & ->). split; [done|]. intros [_ []]. by exists p.
  - destruct Hr as (p & Hf & He & Hnf & ->). split; [|done]. intros _. split; [|done]. by exists p.
  - destruct Hr as [-> Hno]. split; [done|]. intros [(p & Hf & _) _]. by destruct (Hno p).
Qed.

(** ** Concrete tenants *)

Definition eq_scope (ty id : string) : option ScopeNode := Some (mkScope ScopeOpEq ty id no_pos).
Definition any_scope : option ScopeNode := Some (mkScope ScopeOpAny "" "" no_pos).

Definition sample_policy (id : string) (e : Effect) (pr ac re : option ScopeNode) (c : Node) : PolicyNode :=
  mkPolicy id "" e pr ac re c false [id] [] [] no_pos.

(** Admins read anything, and nobody reads the vault. *)
Definition sample_tenant : Tenant :=
  mkTenant
    [sample_policy "permit-admin" EffectPermit (eq_scope "role" "admin") (eq_scope "action" "READ") any_scope NodeNil;
     sample_policy "forbid-vault" EffectForbid any_scope any_scope (eq_scope "file" "vault") NodeNil]
    NewRoleDAG.
Definition sample_request (resource : string) : Request :=
  mkRequest "role:admin" "READ" resource ∅.

(** A tenant open to everyone but [eve]. *)
Definition open_tenant : Tenant :=
  mkTenant
    [sample_policy "permit-all" EffectPermit any_scope any_scope any_scope NodeNil;
     sample_policy "forbid-eve" EffectForbid (eq_scope "User" "eve") any_scope any_scope NodeNil]
    NewRoleDAG.
(** An action name whose FNV-1a hash is the hash of ["any"]. *)
Definition colliding_action : string := "cXOOm8ogOOLex5_'".

(** ** Properties *)

(** C1: under a well-formed role graph, as every one the engine builds is, and for
    an action whose hash is not the wildcard's, the engine allows a request
    exactly when some permit that covers it holds and no forbid that covers it
    holds: deny by default, forbid overrides, scopes through the role hierarchy.
    A policy open in principal and resource covers a request whatever its
    action scope ([global_policy_ignores_action]); for an action that collides
    with the wildcard, see [wildcard_action_skipped_on_collision]. *)
Theorem decision_refines_pdp (tid : string) (rev : Z) (tn : Tenant) (rq : Request)
    (Hdag : dag_wf (tn_roles tn)) (Hsep : hash_separates (normalizeAction (rq_action rq))) :
  res_decision (engine_decides tid rev tn rq) = DecisionAllow <-> pdp_allows tn rq.
Proof. by apply engine_refines. Qed.

Lemma decision_refines_pdp_witness :
  pdp_allows sample_tenant (sample_request "file:report")
  /\ ~ pdp_allows sample_tenant (sample_request "file:vault").
Proof.
  split.
  - apply (decision_refines_pdp "t" 1); [apply NewRoleDAG_wf| |vm_compute; reflexivity].
    intros H. vm_compute in H. discriminate H.
  - intros H. apply (decision_refines_pdp "t" 1) in H; [|apply NewRoleDAG_wf|].
    + vm_compute in H. discriminate H.
    + intros H'. vm_compute in H'. discriminate H'.
Defined.

(** Every answer is justified by its reason: a denial without match means
    no policy covers the request, a default denial that none fires, a
    forbid or a permit that the policy named in the explanation fires and
    supplies the obligations. *)
Theorem decision_reason_justified (tid : string) (rev : Z) (tn : Tenant) (rq : Request)
    (Hdag : dag_wf (tn_roles tn)) (Hsep : hash_separates (normalizeAction (rq_action rq))) :
  reason_justified tn rq (engine_decides tid rev tn rq).
Proof. by apply engine_reason. Qed.

Lemma decision_reason_justified_witness :
  reason_justified sample_tenant (sample_request "file:vault")
    (engine_decides "t" 1 sample_tenant (sample_request "file:vault")).
Proof.
  apply decision_reason_justified; [apply NewRoleDAG_wf|].
  intros H. vm_compute in H. discriminate H.
Defined.

(** C36: the index is transparent: for an action whose hash is not the wildcard's,
    looking a request up returns the policies a scan of the whole list selects,
    in the order of the subjects, resources and actions, global policies first. *)
Theorem lookup_is_flat_scan (tid : string) (ps : list PolicyNode) (subjects resources : list string)
    (action : string) (Hsep : hash_separates action) :
  LookupPolicies (build_trie (NewTrieRoot tid) ps) subjects resources action
  = flat_lookup ps subjects resources action.
Proof. unfold LookupPolicies. by rewrite lookup_build. Qed.

Lemma lookup_is_flat_scan_witness :
  LookupPolicies (build_trie (NewTrieRoot "t") (tn_policies sample_tenant))
    ["role:admin"] ["file:vault"] "action:READ"
  = flat_lookup (tn_policies sample_tenant) ["role:admin"] ["file:vault"] "action:READ".
Proof.
  apply lookup_is_flat_scan. intros H. vm_compute in H. discriminate H.
Defined.

(** The hypothesis on the hash is needed: for an action that collides with the
    wildcard, the policies scoped to every action are skipped, here a forbid. *)
Theorem wildcard_action_skipped_on_collision :
  fnvHash (normalizeAction colliding_action) = fnvHash "any"
  /\ res_decision (engine_decides "t" 1 open_tenant (mkRequest "User:eve" "READ" "file:x" ∅)) = DecisionDeny
  /\ res_decision (engine_decides "t" 1 open_tenant (mkRequest "User:eve" colliding_action "file:x" ∅))
     = DecisionAllow.
Proof. split_and!; vm_compute; reflexivity. Qed.

(** A policy open in principal and resource ignores its action scope. *)
Theorem global_policy_ignores_action :
  res_decision (engine_decides "t" 1
    (mkTenant [sample_policy "permit-read" EffectPermit any_scope (eq_scope "action" "READ") any_scope NodeNil]
       NewRoleDAG) (mkRequest "User:eve" "DELETE" "file:x" ∅)) = DecisionAllow.
Proof. vm_compute. reflexivity. Qed.
