(* ===== verification/EvaluatorFacts.v ===== *)
(** * Properties of the condition evaluator

    Typing of results, fail-closed behaviour for missing attributes, isolation
    of the principal and resource namespaces from request context, and the
    two fast parsers against the library functions they replace. *)

From S2P Require Import Prelude GoStr Ast GoNet GoTime Dag Evaluator.
From stdpp Require Import options.
Local Open Scope Z_scope.

(** ** Results of expressions *)

Lemma is_bool_result b : is_bool (bool_result b) = true.
Proof. by destruct b. Qed.

Lemma eval_and_bool el er v : eval_and el er = Ok v -> is_bool v = true.
Proof. unfold eval_and. intros H. destruct el as [l|]; inv_result; bool_to_prop; try done.
  destruct er as [r|]; inv_result; bool_to_prop; done. Qed.

Lemma eval_or_bool el er v : eval_or el er = Ok v -> is_bool v = true.
Proof. unfold eval_or. intros H. inv_result; [done|].
  destruct er as [r|]; inv_result; bool_to_prop; done. Qed.

Lemma comparison_ok ctx op l r el er v :
  evaluateComparison ctx op l r el er = Ok v -> v = boolTrue \/ v = boolFalse.
Proof.
  unfold evaluateComparison. intros H.
  destruct (match l with VariableNode _ _ _ => _ | _ => _ end) as [lv|]; [|inv_result; auto].
  destruct er as [rv|]; [|inv_result; auto].
  destruct (compare_op ctx op lv rv) as [[]|]; inv_result; auto.
Qed.

(** The value of [n] in [ctx] is the boolean true. *)
Definition holds (n : Node) (ctx : EvalContext) : Prop :=
  exists v, Evaluate n ctx = Ok v /\ is_bool v = true /\ BoolVal v = true.

Lemma eval_and_true el er v :
  eval_and el er = Ok v -> BoolVal v = true ->
  (exists l, el = Ok l /\ is_bool l = true /\ BoolVal l = true) /\ er = Ok v /\ is_bool v = true.
Proof.
  unfold eval_and. destruct el as [l|]; [|by intros [= <-]].
  destruct (is_bool l) eqn:Hl; simpl; [|done].
  destruct (BoolVal l) eqn:Hb; simpl; [|by intros [= <-]].
  destruct er as [r|]; [|by intros [= <-]].
  destruct (is_bool r) eqn:Hr; simpl; [|done]. intros [= <-] Hv. eauto 10.
Qed.

Lemma holds_and l r p ctx :
  holds (BinaryExprNode BinOpAnd l r p) ctx <-> holds l ctx /\ holds r ctx.
Proof.
  unfold holds. simpl. split.
  - intros (v & Hv & Hb & Ht). destruct (eval_and_true _ _ _ Hv Ht) as [Hl [Hr ?]]. eauto.
  - intros [(lv & Hl & Hbl & Htl) (rv & Hr & Hbr & Htr)].
    exists rv. rewrite Hl, Hr. unfold eval_and. by rewrite Hbl, Htl, Hbr.
Qed.

Lemma holds_or l r p ctx :
  holds (BinaryExprNode BinOpOr l r p) ctx <-> holds l ctx \/ holds r ctx.
Proof.
  unfold holds. simpl. unfold eval_or. split.
  - intros (v & Hv & Hb & Ht). destruct (Evaluate l ctx) as [lv|].
    + destruct (is_bool lv && BoolVal lv) eqn:E; bool_to_prop; [eauto|].
      right. destruct (Evaluate r ctx) as [rv|]; [|by injection Hv as <-].
      destruct (is_bool rv) eqn:Hr; simpl in Hv; [|done]. injection Hv as <-. eauto.
    + right. destruct (Evaluate r ctx) as [rv|]; [|by injection Hv as <-].
      destruct (is_bool rv) eqn:Hr; simpl in Hv; [|done]. injection Hv as <-. eauto.
  - intros [(v & Hv & Hb & Ht)|(v & Hv & Hb & Ht)].
    + rewrite Hv, Hb, Ht. simpl. by exists boolTrue.
    + rewrite Hv, Hb. destruct (Evaluate l ctx) as [lv|]; simpl.
      * destruct (is_bool lv && BoolVal lv); [by exists boolTrue|by exists v].
      * by exists v.
Qed.

(** ** Missing attributes *)

Definition is_leaf (n : Node) : bool :=
  match n with VariableNode _ _ _ | ValueNode _ => true | _ => false end.

(** Conjunctions and disjunctions of comparisons between variables and literals. *)
Fixpoint positive (n : Node) : bool :=
  match n with
  | BinaryExprNode BinOpAnd l r _ | BinaryExprNode BinOpOr l r _ => positive l && positive r
  | BinaryExprNode _ l r _ => is_leaf l && is_leaf r
  | ValueNode _ | NodeNil => true
  | _ => false
  end.

(** [ctx'] gives every attribute of [ctx] the same text, and may have more. *)
Definition attrs_le (ctx ctx' : EvalContext) : Prop :=
  ctx_subject ctx = ctx_subject ctx' /\ ctx_resource ctx = ctx_resource ctx'
  /\ ctx_dag ctx = ctx_dag ctx'
  /\ forall scope field t, attribute_text ctx scope field = Some t ->
       attribute_text ctx' scope field = Some t.

Lemma GetAttribute_le ctx ctx' scope field ty v :
  attrs_le ctx ctx' -> GetAttribute ctx scope field ty = Ok v ->
  GetAttribute ctx' scope field ty = Ok v.
Proof.
  intros (Hs & Hr & _ & Ha). unfold GetAttribute. rewrite <- Hs, <- Hr. specialize (Ha scope field).
  destruct scope, (decide (field = "id")); try done;
    (destruct (attribute_text ctx _ field); [|done]); by rewrite (Ha _ eq_refl).
Qed.

Lemma leaf_le ctx ctx' n v :
  attrs_le ctx ctx' -> is_leaf n = true -> Evaluate n ctx = Ok v -> Evaluate n ctx' = Ok v.
Proof. destruct n; simpl; try done. intros. by eapply GetAttribute_le. Qed.

Lemma compare_op_dag ctx ctx' op l r :
  ctx_dag ctx = ctx_dag ctx' -> compare_op ctx op l r = compare_op ctx' op l r.
Proof. intros H. destruct op; try done. simpl. unfold compareIn. by rewrite H. Qed.

(** A comparison that is true stays true when attributes are added. *)
Lemma comparison_le ctx ctx' op l r v :
  attrs_le ctx ctx' -> is_leaf l = true -> is_leaf r = true ->
  evaluateComparison ctx op l r (Evaluate l ctx) (Evaluate r ctx) = Ok v -> BoolVal v = true ->
  evaluateComparison ctx' op l r (Evaluate l ctx') (Evaluate r ctx') = Ok v.
Proof.
  intros Hle Hl Hr. unfold evaluateComparison.
  set (lv := match l with VariableNode _ _ _ => _ | _ => _ end).
  set (lv' := match l with VariableNode _ _ _ => _ | _ => _ end).
  assert (forall x, lv = Ok x -> lv' = Ok x) as Hlv.
  { intros x. destruct l; try done. by apply GetAttribute_le. }
  destruct lv as [x|]; [|by intros [= <-]]. rewrite (Hlv x eq_refl).
  destruct (Evaluate r ctx) as [y|] eqn:Er; [|by intros [= <-]].
  rewrite (leaf_le ctx ctx' r y Hle Hr Er).
  rewrite (compare_op_dag ctx ctx') by apply Hle. done.
Qed.

Lemma positive_le ctx ctx' n :
  attrs_le ctx ctx' -> positive n = true -> holds n ctx -> holds n ctx'.
Proof.
  intros Hle. induction n as [|op l IHl r IHr p|op c IHc p|s f p|v]; simpl; intros Hp Hh; try done.
  destruct op; bool_to_prop.
  1: { apply holds_and in Hh as [? ?]. apply holds_and. auto. }
  1: { apply holds_or in Hh as [?|?]; apply holds_or; auto. }
  all: destruct Hh as (v & Hv & Hb & Ht); exists v; split; [|done]; simpl in *;
       by eapply comparison_le.
Qed.

(** ** Namespaces *)

(** The condition reads no request attribute. *)
Fixpoint reads_no_context (n : Node) : bool :=
  match n with
  | VariableNode VarScopeContext _ _ => false
  | BinaryExprNode _ l r _ => reads_no_context l && reads_no_context r
  | UnaryExprNode _ c _ => reads_no_context c
  | _ => true
  end.

(** The contexts agree on everything but unqualified request attributes. *)
Definition same_identity (ctx ctx' : EvalContext) : Prop :=
  ctx_subject ctx = ctx_subject ctx' /\ ctx_resource ctx = ctx_resource ctx'
  /\ ctx_dag ctx = ctx_dag ctx'
  /\ forall k, has_prefix k "principal." = true \/ has_prefix k "resource." = true ->
       ctx_attrs ctx !! k = ctx_attrs ctx' !! k.

Lemma GetAttribute_identity ctx ctx' scope field ty :
  same_identity ctx ctx' -> scope <> VarScopeContext ->
  GetAttribute ctx scope field ty = GetAttribute ctx' scope field ty.
Proof.
  intros (Hs & Hr & _ & Ha) Hscope. unfold GetAttribute. rewrite <- Hs, <- Hr.
  destruct scope; [| |done]; destruct (decide (field = "id")); try done; simpl;
    (rewrite Ha; [done|]); [left|right]; apply has_prefix_app.
Qed.

Lemma Evaluate_identity ctx ctx' n :
  same_identity ctx ctx' -> reads_no_context n = true -> Evaluate n ctx = Evaluate n ctx'.
Proof.
  intros Hsame. induction n as [|op l IHl r IHr p|op c IHc p|s f p|v]; simpl; intros Hn; try done.
  - bool_to_prop. rewrite IHl, IHr by done.
    assert (forall el er, evaluateComparison ctx op l r el er = evaluateComparison ctx' op l r el er) as Hcmp.
    { intros el er. unfold evaluateComparison.
      assert (match l with VariableNode s f _ => GetAttribute ctx s f (expected_type op r) | _ => el end
              = match l with VariableNode s f _ => GetAttribute ctx' s f (expected_type op r) | _ => el end) as ->.
      { destruct l as [| | |s f p'|]; try done. apply GetAttribute_identity; [done|]. by destruct s. }
      destruct (match l with VariableNode _ _ _ => _ | _ => _ end); [|done].
      destruct er; [|done]. by rewrite (compare_op_dag ctx ctx') by apply Hsame. }
    destruct op; try done; apply Hcmp.
  - by rewrite IHc.
  - apply GetAttribute_identity; [done|]. by destruct s.
Qed.

(** ** The fast IPv4 parser *)

(** The digits read so far are the canonical ones of [val]. *)
Definition octet_ok (val : Z) (dig : nat) : Prop :=
  (dig = 0%nat /\ val = 0) \/ (dig = 1%nat /\ 0 <= val <= 9) \/ (dig = 2%nat /\ 10 <= val <= 99)
  \/ (dig = 3%nat /\ 100 <= val <= 255).

Lemma octet_step val dig b :
  octet_ok val dig -> is_digit_byte b = true -> ((dig =? 1)%nat && (val =? 0)) = false ->
  (255 <? val * 10 + (b - 48)) = false ->
  octet_ok (val * 10 + (b - 48)) (S dig) /\ (dig < 3)%nat.
Proof.
  unfold octet_ok, is_digit_byte. intros Ho Hb Hz Hv. bool_to_prop.
  apply andb_false_iff in Hz. rewrite Nat.eqb_neq, Z.eqb_neq in Hz. lia.
Qed.

Lemma fast_scan_parse_v4 bs val dig acc r :
  octet_ok val dig -> (length acc <= 3)%nat -> parse_v4_fields val dig acc bs = Some r ->
  exists p v d, fast_scan bs acc val (Z.of_nat dig) = Some (p, v, d)
    /\ p ++ [v] = r /\ length p = 3%nat /\ d <> 0.
Proof.
  revert val dig acc. induction bs as [|b bs IH]; intros val dig acc Ho Hl H; cbn [parse_v4_fields fast_scan] in *.
  - inv_result. bool_to_prop. exists acc, val, (Z.of_nat dig). split_and!; [done..|lia].
  - destruct (is_digit_byte b) eqn:Hd.
    + unfold is_digit_byte in Hd. rewrite Hd. inv_result. 
      destruct (octet_step val dig b) as [Ho' Hlt]; try done.
      replace (3 <? Z.of_nat dig + 1) with false by lia. simpl.
      replace (Z.of_nat dig + 1) with (Z.of_nat (S dig)) by lia. by apply IH.
    + unfold is_digit_byte in Hd. rewrite Hd. inv_result. bool_to_prop.
      replace (Z.of_nat dig =? 0) with false by lia.
      replace (3 <=? length acc)%nat with false by (symmetry; apply Nat.leb_gt; lia). simpl.
      apply (IH 0 0%nat); [by left| |done]. rewrite length_app. simpl. lia.
Qed.

Lemma fast_scan_chars bs p val d r :
  fast_scan bs p val d = Some r -> Forall (fun b => is_digit_byte b = true \/ b = 46) bs.
Proof.
  revert p val d. induction bs as [|b bs IH]; intros p val d H; [constructor|].
  cbn [fast_scan] in H. unfold is_digit_byte at 1. inv_result; bool_to_prop.
  - constructor; [left|by eapply IH]. by apply andb_true_iff; split; apply Z.leb_le.
  - constructor; [by right|by eapply IH].
Qed.

(** With digits and dots only, the library parser reads dotted octets or fails. *)
Lemma parse_addr_scan_v4 all bs :
  Forall (fun b => is_digit_byte b = true \/ b = 46) bs ->
  parse_addr_scan all bs = None \/ parse_addr_scan all bs = AddrV4 <$> parse_v4 all.
Proof.
  intros Hbs. induction Hbs as [|b bs Hb Hbs IH]; simpl; [by left|].
  destruct Hb as [Hb| ->]; [|by right].
  unfold is_digit_byte in Hb. bool_to_prop.
  replace (b =? 46) with false by lia. replace (b =? 58) with false by lia.
  replace (b =? 37) with false by lia. done.
Qed.

Lemma fast_ip_fallback s p v d :
  fast_scan (go_bytes s) [] 0 0 = Some (p, v, d) -> length p <> 3%nat \/ d = 0 -> ParseIP s = None.
Proof.
  intros Hs Hbad. unfold ParseIP, parse_addr.
  destruct (parse_addr_scan_v4 (go_bytes s) (go_bytes s)) as [-> | ->]; [|done|].
  { by eapply fast_scan_chars. }
  destruct (parse_v4 (go_bytes s)) as [r|] eqn:E; [|done].
  destruct (fast_scan_parse_v4 (go_bytes s) 0 0 [] r) as (p' & v' & d' & Hs' & _ & Hp & Hd); try done.
  { by left. } { simpl. lia. }
  change (Z.of_nat 0) with 0 in Hs'. rewrite Hs in Hs'. simplify_eq. by destruct Hbad.
Qed.

Lemma fast_scan_colon bs p val d : 58 ∈ bs -> fast_scan bs p val d = None.
Proof.
  intros Hin. destruct (fast_scan bs p val d) eqn:E; [|done].
  apply fast_scan_chars in E. rewrite Forall_forall in E.
  by destruct (E 58 Hin).
Qed.

Lemma fast_scan_octets bs p val d r :
  Forall is_byte p -> 0 <= val <= 255 -> fast_scan bs p val d = Some r ->
  Forall is_byte r.1.1 /\ is_byte r.1.2.
Proof.
  revert p val d. induction bs as [|b bs IH]; intros p val d Hp Hv H; cbn [fast_scan] in H.
  - inv_result. unfold is_byte. simpl. split; [done|lia].
  - inv_result; bool_to_prop.
    + eapply IH; [done| |done]. lia.
    + eapply IH; [| |done]; [|lia]. apply Forall_app. split; [done|]. constructor; [|constructor].
      unfold is_byte. lia.
Qed.

(** ** The fast clock parser *)

Lemma digit_of_range bs i : (digit_of bs i <=? 9) = true -> 0 <= digit_of bs i <= 9.
Proof.
  unfold digit_of, to_byte. intros H. bool_to_prop.
  pose proof (Z.mod_pos_bound (nth i bs 0 - 48) 256 ltac:(lia)). lia.
Qed.

Lemma parseFastTime_range s t : parseFastTime s = Some t -> 0 <= t < 86400.
Proof.
  unfold parseFastTime. set (bs := go_bytes (trim_suffix s "Z")). cbn [forallb].
  intros H. inv_result; bool_to_prop;
    repeat match goal with
    | E : (digit_of ?l ?i <=? 9)%Z = true |- _ => apply digit_of_range in E
    | E : digit_of ?l ?i <= 9 |- _ => apply Z.leb_le, digit_of_range in E
    end; lia.
Qed.

(** [HH:MM:SS] and [HH:MM], two decimal digits each. *)
Definition two_digits (n : Z) : list Z := [48 + n / 10; 48 + n mod 10].
Definition clock_hms (h m s : Z) : string :=
  of_bytes (two_digits h ++ [58] ++ two_digits m ++ [58] ++ two_digits s).
Definition clock_hm (h m : Z) : string := of_bytes (two_digits h ++ [58] ++ two_digits m).

Lemma trim_suffix_last l b :
  Forall is_byte (l ++ [b]) -> b <> 90 -> go_bytes (trim_suffix (of_bytes (l ++ [b])) "Z") = l ++ [b].
Proof.
  intros Hl Hb. unfold trim_suffix.
  enough (has_suffix (of_bytes (l ++ [b])) "Z" = false) as -> by (by apply go_bytes_of_bytes).
  unfold has_suffix. apply andb_false_iff. right. apply bool_decide_eq_false. intros H.
  assert (String.length (of_bytes (l ++ [b])) - String.length "Z" = length l)%nat as Hlen.
  { rewrite <- length_go_bytes, go_bytes_of_bytes, length_app by done. simpl. lia. }
  rewrite Hlen in H. apply (f_equal go_bytes) in H. unfold drop_bytes, go_bytes in H.
  rewrite chars_of_chars, fmap_drop in H. fold (go_bytes (of_bytes (l ++ [b]))) in H.
  rewrite go_bytes_of_bytes, drop_app_length in H by done. by injection H.
Qed.

Lemma two_digits_bytes n : 0 <= n < 60 -> Forall is_byte (two_digits n).
Proof.
  intros Hn. pose proof (Z.div_mod n 10 ltac:(lia)). pose proof (Z.mod_pos_bound n 10 ltac:(lia)).
  repeat constructor; unfold is_byte; lia.
Qed.

Lemma two_digits_value n : 0 <= n < 60 ->
  to_byte (48 + n / 10 - 48) = n / 10 /\ to_byte (48 + n mod 10 - 48) = n mod 10
  /\ 0 <= n / 10 <= 9 /\ 0 <= n mod 10 <= 9 /\ n / 10 * 10 + n mod 10 = n.
Proof.
  intros Hn. pose proof (Z.div_mod n 10 ltac:(lia)). pose proof (Z.mod_pos_bound n 10 ltac:(lia)).
  unfold to_byte. rewrite !Z.mod_small by lia. lia.
Qed.

Lemma clock_hms_parse h m s :
  0 <= h < 24 -> 0 <= m < 60 -> 0 <= s < 60 ->
  parseFastTime (clock_hms h m s) = Some (h * 3600 + m * 60 + s).
Proof.
  intros Hh Hm Hs. unfold clock_hms, parseFastTime.
  assert (Forall is_byte (two_digits h ++ [58] ++ two_digits m ++ [58] ++ two_digits s)) as Hb.
  { rewrite !Forall_app. split_and!; try (apply two_digits_bytes; lia);
      (constructor; [by unfold is_byte; lia|constructor]). }
  destruct (two_digits_value h ltac:(lia)) as (Eh1 & Eh2 & ? & ? & Eh).
  destruct (two_digits_value m ltac:(lia)) as (Em1 & Em2 & ? & ? & Em).
  destruct (two_digits_value s ltac:(lia)) as (Es1 & Es2 & ? & ? & Es).
  unfold two_digits in *. cbn [app] in *.
  change [48 + h / 10; 48 + h mod 10; 58; 48 + m / 10; 48 + m mod 10; 58; 48 + s / 10; 48 + s mod 10]
    with ([48 + h / 10; 48 + h mod 10; 58; 48 + m / 10; 48 + m mod 10; 58; 48 + s / 10] ++ [48 + s mod 10]) in *.
  rewrite trim_suffix_last by (done || lia). unfold digit_of, is_colon. cbn -[to_byte Z.mul Z.add Z.sub Z.div Z.modulo Z.leb Z.ltb].
  rewrite Eh1, Eh2, Em1, Em2, Es1, Es2, Eh, Em, Es.
  repeat (rewrite (proj2 (Z.leb_le _ _)) by lia). simpl.
  repeat (rewrite (proj2 (Z.ltb_lt _ _)) by lia). done.
Qed.

(** ** Properties *)

Definition sample_context (attrs : gmap string string) : EvalContext :=
  mkEvalContext "User:alice" "READ" "file:report" attrs None.

(** [principal.dept == "finance"]. *)
Definition dept_is_finance : Node :=
  BinaryExprNode BinOpEq (VariableNode VarScopePrincipal "dept" no_pos)
    (ValueNode (string_value "finance" no_pos)) no_pos.

(** Absent attributes never grant: a condition built from comparisons with
    [&&] and [||] that holds in a context holds in every context that gives
    the same attributes and possibly more, so removing an attribute cannot
    make it true. *)
Theorem missing_attributes_fail_closed (n : Node) (ctx ctx' : EvalContext)
    (Hle : attrs_le ctx ctx') (Hpos : positive n = true) (Hholds : holds n ctx) : holds n ctx'.
Proof. by eapply positive_le. Qed.

Lemma missing_attributes_fail_closed_witness :
  holds dept_is_finance
    (sample_context (<["principal.dept" := "finance"]> (<["hour" := "8"]> ∅))).
Proof.
  apply (missing_attributes_fail_closed dept_is_finance
           (sample_context (<["principal.dept" := "finance"]> ∅))).
  - split_and!; try reflexivity. intros scope field t H. unfold attribute_text in *. simpl in *.
    destruct scope; simpl in *; rewrite ?lookup_insert_Some, ?lookup_empty in H.
    + destruct H as [[<- <-]|[_ ?]]; [reflexivity|discriminate].
    + destruct H as [[H _]|[_ ?]]; discriminate.
    + destruct (<["principal.dept" := "finance"]> ∅ !! field) eqn:E.
      * rewrite lookup_insert_Some, lookup_empty in E. destruct E as [[<- <-]|[_ ?]]; [|discriminate].
        injection H as <-. reflexivity.
      * rewrite lookup_insert_Some, lookup_empty in H. destruct H as [[H _]|[_ ?]]; discriminate.
  - reflexivity.
  - exists boolTrue. repeat split; vm_compute; reflexivity.
Defined.

(** Identity attributes cannot be forged from request context: two requests
    that agree on subject, resource, roles and on the keys under [principal.]
    and [resource.] give every condition on those namespaces the same value. *)
Theorem identity_isolated_from_context (n : Node) (ctx ctx' : EvalContext)
    (Hsame : same_identity ctx ctx') (Hreads : reads_no_context n = true) :
  Evaluate n ctx = Evaluate n ctx'.
Proof. by apply Evaluate_identity. Qed.

Lemma identity_isolated_from_context_witness :
  Evaluate dept_is_finance (sample_context ∅)
  = Evaluate dept_is_finance (sample_context (<["dept" := "finance"]> ∅)).
Proof.
  apply identity_isolated_from_context; [|reflexivity].
  repeat split. intros k [H|H]; simpl; (rewrite lookup_insert_ne; [reflexivity|]);
    intros <-; vm_compute in H; discriminate H.
Defined.

(** The allocation-free IPv4 parser returns exactly an IPv4-mapped address
    or nothing, agrees with [net.ParseIP] on every dotted address that function
    accepts, and refuses every text with a colon, so no IPv6 attribute parses. *)
Theorem fast_ipv4_agrees (s : string) :
  (forall ip, parseIPv4FastInto s = Some ip ->
     exists o, ip = v4_prefix ++ o /\ length o = 4%nat /\ Forall is_byte o)
  /\ (forall o, parse_v4 (go_bytes s) = Some o -> parseIPv4FastInto s = Some (v4_prefix ++ o))
  /\ (58 ∈ go_bytes s -> parseIPv4FastInto s = None).
Proof.
  unfold parseIPv4FastInto. split_and!.
  - intros ip. destruct (fast_scan (go_bytes s) [] 0 0) as [[[p v] d]|] eqn:E; [|done].
    destruct (negb (length p =? 3)%nat || (d =? 0)) eqn:Hbad.
    + rewrite (fast_ip_fallback s p v d E); [done|].
      apply orb_true_iff in Hbad as [H|H]; bool_to_prop; auto.
    + intros [= <-]. bool_to_prop. exists (p ++ [v]). split; [done|].
      apply fast_scan_octets in E as [Hp Hv]; [|constructor|lia]. simpl in *.
      split; [rewrite length_app; simpl; lia|]. apply Forall_app. split; [done|]. by constructor.
  - intros o Ho. destruct (fast_scan_parse_v4 (go_bytes s) 0 0 [] o) as (p & v & d & Hs & <- & Hp & Hd);
      [by left|simpl; lia|done|].
    change (Z.of_nat 0) with 0 in Hs. rewrite Hs, Hp. simpl. by rewrite (proj2 (Z.eqb_neq d 0)).
  - intros Hc. by rewrite fast_scan_colon.
Qed.

(** The clock parser reads every [HH:MM:SS] as the seconds since midnight,
    and whatever it accepts lies within one day. *)
Theorem fast_time_correct (h m s : Z) (Hh : 0 <= h < 24) (Hm : 0 <= m < 60) (Hs : 0 <= s < 60) :
  parseFastTime (clock_hms h m s) = Some (h * 3600 + m * 60 + s)
  /\ forall text t, parseFastTime text = Some t -> 0 <= t < 86400.
Proof. split; [by apply clock_hms_parse|]. intros text t. apply parseFastTime_range. Qed.

Lemma fast_time_correct_witness : parseFastTime (clock_hms 8 30 15) = Some 30615.
Proof. apply (fast_time_correct 8 30 15); lia. Defined.

(** Under a negation a missing attribute grants. *)
Theorem missing_attribute_under_not :
  holds (UnaryExprNode UnaryOpNot dept_is_finance no_pos) (sample_context ∅).
Proof. exists boolTrue. repeat split; vm_compute; reflexivity. Qed.

(** The fast parser accepts leading zeros, which [net.ParseIP] refuses. *)
Theorem fast_ipv4_leading_zero :
  parseIPv4FastInto "010.0.0.1" = Some (v4_prefix ++ [10; 0; 0; 1]) /\ ParseIP "010.0.0.1" = None.
Proof. split; vm_compute; reflexivity. Qed.
