(* ===== verification/EvalScratch.v ===== *)
(** * The scratch memory of the evaluator ([internal/engine/evaluator.go])

    [Evaluate] returns pointers.  The nodes it makes come from an array in the
    context, which is pooled: a context is taken with whatever the last
    decision left in it, the array is reset by its counter alone, the nodes
    past its end are allocated, and the addresses they parse share the last
    slot of a second array.  Here the evaluator runs on that memory, and
    computes what [Evaluator.Evaluate] computes on values. *)

From S2P Require Import Prelude GoStr Ast GoNet GoTime Dag Trie Evaluator Decision TrieFacts DecisionFacts EvaluatorFacts.
From stdpp Require Import options.
Local Open Scope Z_scope.

(** ** The memory *)

(** A node's address is nil or its own, or the first bytes of a slot. *)
Inductive IPRef := OwnIP (ip : IP) | SlotIP (i len : nat).
Record SNode := mkSNode { sn_ValType : ValueType; sn_StrVal : string; sn_IntVal : Z; sn_BoolVal : bool; sn_IPVal : IPRef; sn_IPNetVal : IPNet }.

(** A node that is never written (a literal of the tree or a global), one of the array, or an allocated one. *)
Inductive Ptr := PConst (v : Value) | PSlot (i : nat) | PHeap (i : nat).

Record Scratch := mkScratch {
  scratchNodes : list SNode;
  scratchIPs : list (list Z);
  scratchCount : nat;
  sc_heap : list SNode
}.
Definition scratch_size : nat := 64.

Definition node_at (s : Scratch) (p : Ptr) : option SNode :=
  match p with PConst _ => None | PSlot i => scratchNodes s !! i | PHeap i => sc_heap s !! i end.
Definition ip_of (s : Scratch) (r : IPRef) : IP :=
  match r with OwnIP ip => ip | SlotIP i len => take len (default [] (scratchIPs s !! i)) end.
Definition value_of (s : Scratch) (n : SNode) : Value :=
  mkValue (sn_ValType n) (sn_StrVal n) (sn_IntVal n) (sn_BoolVal n) (ip_of s (sn_IPVal n)) (sn_IPNetVal n) no_pos.
(** What a pointer points to now. *)
Definition deref (s : Scratch) (p : Ptr) : Value :=
  match p with
  | PConst v => v
  | _ => value_of s (default (mkSNode ValueTypeString "" 0 false (OwnIP []) nil_net) (node_at s p))
  end.

(** The cleared node of a type. *)
Definition clear_node (t : ValueType) : SNode := mkSNode t "" 0 false (OwnIP []) nil_net.

(** [allocValueNode], and the type every caller sets at once. *)
Definition allocValueNode (s : Scratch) (t : ValueType) : Scratch * Ptr :=
  if (scratchCount s <? length (scratchNodes s))%nat
  then (mkScratch (<[scratchCount s := clear_node t]> (scratchNodes s)) (scratchIPs s) (S (scratchCount s)) (sc_heap s), PSlot (scratchCount s))
  else (mkScratch (scratchNodes s) (scratchIPs s) (scratchCount s) (sc_heap s ++ [clear_node t]), PHeap (length (sc_heap s))).
(** A write to the fields of a node. *)
Definition write_node (s : Scratch) (p : Ptr) (f : SNode -> SNode) : Scratch :=
  match p with
  | PConst _ => s
  | PSlot i => mkScratch (alter f i (scratchNodes s)) (scratchIPs s) (scratchCount s) (sc_heap s)
  | PHeap i => mkScratch (scratchNodes s) (scratchIPs s) (scratchCount s) (alter f i (sc_heap s))
  end.

Definition with_StrVal (x : string) (n : SNode) : SNode := mkSNode (sn_ValType n) x (sn_IntVal n) (sn_BoolVal n) (sn_IPVal n) (sn_IPNetVal n).
Definition with_IntVal (x : Z) (n : SNode) : SNode := mkSNode (sn_ValType n) (sn_StrVal n) x (sn_BoolVal n) (sn_IPVal n) (sn_IPNetVal n).
Definition with_BoolVal (x : bool) (n : SNode) : SNode := mkSNode (sn_ValType n) (sn_StrVal n) (sn_IntVal n) x (sn_IPVal n) (sn_IPNetVal n).
Definition with_IPVal (x : IPRef) (n : SNode) : SNode := mkSNode (sn_ValType n) (sn_StrVal n) (sn_IntVal n) (sn_BoolVal n) x (sn_IPNetVal n).
Definition with_IPNetVal (x : IPNet) (n : SNode) : SNode := mkSNode (sn_ValType n) (sn_StrVal n) (sn_IntVal n) (sn_BoolVal n) (sn_IPVal n) x.

(** [copy] into an array. *)
Definition copy_bytes (dst src : list Z) : list Z := take (length dst) src ++ drop (length src) dst.

(** [parseIPv4FastInto] with its destination, slot [i]; [None] is the nil address. *)
Definition parse_ip_into (s : Scratch) (i : nat) (val : string) : Scratch * option IPRef :=
  let write := fun ip => mkScratch (scratchNodes s) (alter (fun dst => copy_bytes dst ip) i (scratchIPs s)) (scratchCount s) (sc_heap s) in
  match fast_scan (go_bytes val) [] 0 0 with
  | None => (s, None)
  | Some (p, v, digits) =>
      if negb (length p =? 3)%nat || (digits =? 0) then
        match ParseIP val with
        | Some ip => (write ip, Some (SlotIP i (length ip)))
        | None => (s, None)
        end
      else (write (v4_prefix ++ p ++ [v]), Some (SlotIP i 16))
  end.

(** ** The evaluator on the memory *)

(** What an operation leaves, and the pointer or the error it returns. *)
Definition Run : Type := Scratch * result EvalError Ptr.

(** A node filled with what was parsed, or the error. *)
Definition fill {A} (s : Scratch) (p : Ptr) (o : option A) (f : A -> SNode -> SNode) : Run :=
  match o with Some a => (write_node s p (f a), Ok p) | None => (s, Err ErrParse) end.

Definition s_parseStringValue (s : Scratch) (val : string) (expectedType : ValueType) : Run :=
  let '(s1, p) := allocValueNode s expectedType in
  match expectedType with
  | ValueTypeString => (write_node s1 p (with_StrVal val), Ok p)
  | ValueTypeInt => fill s1 p (ParseInt val) with_IntVal
  | ValueTypeBool => fill s1 p (ParseBool val) with_BoolVal
  | ValueTypeIP => let '(s2, ip) := parse_ip_into s1 (scratchCount s1 - 1) val in fill s2 p ip with_IPVal
  | ValueTypeIPNet => fill s1 p (ParseCIDR val) with_IPNetVal
  | ValueTypeDateTime => fill s1 p (tryParseDateTimeOrTime val) with_IntVal
  end.

Definition s_GetAttribute (ctx : EvalContext) (s : Scratch) (scope : VarScope) (field : string) (expectedType : ValueType) : Run :=
  let id_node := fun text => let '(s1, p) := allocValueNode s ValueTypeString in (write_node s1 p (with_StrVal text), Ok p) in
  match scope, decide (field = "id") with
  | VarScopePrincipal, left _ => id_node (ctx_subject ctx)
  | VarScopeResource, left _ => id_node (ctx_resource ctx)
  | _, _ =>
      match attribute_text ctx scope field with
      | Some val => s_parseStringValue s val expectedType
      | None => (s, Err ErrMissingAttribute)
      end
  end.

Definition s_bool (b : bool) : result EvalError Ptr := Ok (PConst (bool_result b)).

(** [el] and [er] are the calls of [Evaluate] on the operands. *)
Definition s_evaluateComparison (ctx : EvalContext) (op : BinaryOp) (left right : Node) (el er : Scratch -> Run) (s : Scratch) : Run :=
  let '(s1, leftVal) := match left with
    | VariableNode scope field _ => s_GetAttribute ctx s scope field (expected_type op right)
    | _ => el s
    end in
  match leftVal with
  | Err _ => (s1, s_bool false)
  | Ok l =>
      match er s1 with
      | (s2, Err _) => (s2, s_bool false)
      | (s2, Ok r) =>
          match compare_op ctx op (deref s2 l) (deref s2 r) with
          | None => (s2, Err ErrUnsupportedOp)
          | Some b => (s2, s_bool b)
          end
      end
  end.

(** The right operand of a connective. *)
Definition s_right (er : Scratch -> Run) (s : Scratch) : Run :=
  match er s with
  | (s2, Err _) => (s2, s_bool false)
  | (s2, Ok r) => if is_bool (deref s2 r) then (s2, Ok r) else (s2, Err ErrUnsupportedOp)
  end.
Definition s_and (el er : Scratch -> Run) (s : Scratch) : Run :=
  match el s with
  | (s1, Err _) => (s1, s_bool false)
  | (s1, Ok l) =>
      if negb (is_bool (deref s1 l)) then (s1, Err ErrUnsupportedOp)
      else if negb (BoolVal (deref s1 l)) then (s1, s_bool false)
      else s_right er s1
  end.
Definition s_or (el er : Scratch -> Run) (s : Scratch) : Run :=
  let '(s1, leftVal) := el s in
  if match leftVal with Ok l => is_bool (deref s1 l) && BoolVal (deref s1 l) | Err _ => false end
  then (s1, s_bool true)
  else s_right er s1.

Definition s_unary (op : UnaryOp) (s : Scratch) (child : Ptr) : Run :=
  match op with
  | UnaryOpNot =>
      if negb (is_bool (deref s child)) then (s, Err ErrUnsupportedOp) else (s, s_bool (negb (BoolVal (deref s child))))
  | UnaryOpNeg =>
      if negb (bool_decide (ValType (deref s child) = ValueTypeInt)) then (s, Err ErrUnsupportedOp)
      else let '(s1, p) := allocValueNode s ValueTypeInt in
           (write_node s1 p (with_IntVal (to_int64 (- IntVal (deref s1 child)))), Ok p)
  end.

Fixpoint s_Evaluate (node : Node) (ctx : EvalContext) (s : Scratch) : Run :=
  match node with
  | NodeNil => (s, s_bool true)
  | ValueNode v => (s, Ok (PConst v))
  | VariableNode scope field _ => s_GetAttribute ctx s scope field ValueTypeString
  | UnaryExprNode op c _ =>
      match s_Evaluate c ctx s with
      | (s1, Err e) => (s1, Err e)
      | (s1, Ok p) => s_unary op s1 p
      end
  | BinaryExprNode op l r _ =>
      match op with
      | BinOpAnd => s_and (s_Evaluate l ctx) (s_Evaluate r ctx) s
      | BinOpOr => s_or (s_Evaluate l ctx) (s_Evaluate r ctx) s
      | _ => s_evaluateComparison ctx op l r (s_Evaluate l ctx) (s_Evaluate r ctx) s
      end
  end.

(** ** The decisions on a pooled context *)

Definition set_count (s : Scratch) (n : nat) : Scratch := mkScratch (scratchNodes s) (scratchIPs s) n (sc_heap s).
(** The memory of [GetEvalContext] and what [Release] gives back to the pool. *)
Definition GetEvalContext (pooled : Scratch) : Scratch := set_count pooled 0.
Definition Release (s : Scratch) : Scratch := set_count s 0.
(** The context [New] makes. *)
Definition new_scratch : Scratch := mkScratch (replicate scratch_size (clear_node ValueTypeString)) (replicate scratch_size (replicate 16 0)) 0 [].

(** The value of a condition, read at once. *)
Definition read_run (r : Run) : result EvalError Value := match r.2 with Ok p => Ok (deref r.1 p) | Err e => Err e end.
Definition truth (unless : bool) (r : result EvalError Value) : bool :=
  match r with Ok v => is_bool v && (if unless then negb (BoolVal v) else BoolVal v) | Err _ => false end.

(** The loop of [evaluatePermission], which resets the counter for every policy. *)
Fixpoint s_decide_loop (ctx : EvalContext) (s : Scratch) (ps : list PolicyNode) (permit : option PolicyNode) :
    Scratch * (option PolicyNode * option PolicyNode) :=
  match ps with
  | [] => (s, (None, permit))
  | p :: ps' =>
      let r := s_Evaluate (Condition p) ctx (set_count s 0) in
      if truth (IsUnless p) (read_run r) then
        match PEffect p with
        | EffectForbid => (r.1, (Some p, permit))
        | EffectPermit => s_decide_loop ctx r.1 ps' (match permit with None => Some p | Some q => Some q end)
        end
      else s_decide_loop ctx r.1 ps' permit
  end.

Definition s_evaluatePermission (pooled : Scratch) (trie : TrieRoot) (subject action resource : string) (context : gmap string string) :
    Scratch * DecisionResult :=
  let subjects := GetInheritedRolesInto (Some (trie_dag trie)) subject (replicate 16 ""%string) in
  let matched := LookupPoliciesInto trie [] subjects [resource] (normalizeAction action) in
  match matched with
  | [] => (pooled, deny ReasonDenyNoMatch)
  | _ =>
      let ctx := mkEvalContext subject action resource context (Some (trie_dag trie)) in
      let '(s, found) := s_decide_loop ctx (GetEvalContext pooled) matched None in
      (Release s,
       match found with
       | (Some p, _) => mkDecision 0 DecisionDeny ReasonDenyForbid (explanations_of p) (Obligations p)
       | (None, Some p) => mkDecision 0 DecisionAllow ReasonAllowPermit (explanations_of p) (Obligations p)
       | (None, None) => deny ReasonDenyDefault
       end)
  end.

(** The loop of [ExplainDecision], which never resets the counter: the policies whose condition holds. *)
Fixpoint s_matched_loop (ctx : EvalContext) (s : Scratch) (ps : list PolicyNode) : Scratch * list PolicyNode :=
  match ps with
  | [] => (s, [])
  | p :: ps' =>
      let r := s_Evaluate (Condition p) ctx s in
      let '(s', rest) := s_matched_loop ctx r.1 ps' in
      (s', if truth (IsUnless p) (read_run r) then p :: rest else rest)
  end.

(** ** Theorems *)

Record scratch_wf (s : Scratch) : Prop := {
  sw_nodes : length (scratchNodes s) = scratch_size;
  sw_ips : length (scratchIPs s) = scratch_size;
  sw_slots : Forall (fun ip => length ip = 16%nat) (scratchIPs s);
  sw_count : (scratchCount s <= scratch_size)%nat
}.

(** A pointer nothing overwrites before the counter is reset: to a node that is in use and holds no slot. *)
Definition stable (s : Scratch) (p : Ptr) : Prop :=
  match p with
  | PConst _ => True
  | PSlot i => (i < scratchCount s)%nat /\ exists n ip, scratchNodes s !! i = Some n /\ sn_IPVal n = OwnIP ip
  | PHeap i => exists n ip, sc_heap s !! i = Some n /\ sn_IPVal n = OwnIP ip
  end.

(** What a step keeps. *)
Record frame (s s' : Scratch) : Prop := {
  fr_wf : scratch_wf s';
  fr_stable : forall p, stable s p -> stable s' p /\ deref s' p = deref s p
}.

Lemma frame_refl s : scratch_wf s -> frame s s.
Proof. by split. Qed.
Lemma frame_trans s1 s2 s3 : frame s1 s2 -> frame s2 s3 -> frame s1 s3.
Proof.
  intros [_ F1] [W F2]. split; [done|]. intros p Hp. destruct (F1 p Hp) as [H1 E1]. destruct (F2 p H1) as [H2 E2]. split; [done|congruence].
Qed.

(** A frame that leaves the nodes in use alone. *)
Lemma nodes_frame s s' : scratch_wf s' -> (scratchCount s <= scratchCount s')%nat ->
  (forall i, (i < scratchCount s)%nat -> scratchNodes s' !! i = scratchNodes s !! i) ->
  (forall i, (i < length (sc_heap s))%nat -> sc_heap s' !! i = sc_heap s !! i) -> frame s s'.
Proof.
  intros Hw Hc Hn Hh. split; [done|]. intros [v|i|i]; cbn [stable deref node_at]; [done| |].
  - intros (Hi & n & ip & Hl & Hip). rewrite Hn, Hl by done. split; [split; [lia|by eexists _, _]|].
    cbn. unfold value_of. by rewrite Hip.
  - intros (n & ip & Hl & Hip). assert (i < length (sc_heap s))%nat as Hlt by (by eapply lookup_lt_Some).
    rewrite Hh, Hl by done. split; [by eexists _, _|]. cbn. unfold value_of. by rewrite Hip.
Qed.

(** A fresh node: outside what was in use, and in use now. *)
Definition fresh (s : Scratch) (p : Ptr) : Prop :=
  match p with PConst _ => False | PSlot i => i = scratchCount s | PHeap i => i = length (sc_heap s) end.

Lemma alloc_spec s t s1 p : scratch_wf s -> allocValueNode s t = (s1, p) ->
  fresh s p /\ frame s s1 /\ node_at s1 p = Some (clear_node t)
  /\ (scratchCount s <= scratchCount s1 <= S (scratchCount s))%nat /\ (0 < scratchCount s1)%nat /\ stable s1 p
  /\ scratchIPs s1 = scratchIPs s.
Proof.
  intros [W1 W2 W3 W4] Ha. unfold allocValueNode in Ha. destruct (_ <? _)%nat eqn:E; [apply Nat.ltb_lt in E|apply Nat.ltb_ge in E];
    injection Ha as <- <-; cbn [fresh node_at scratchNodes sc_heap scratchCount stable].
  - assert (frame s (mkScratch (<[scratchCount s := clear_node t]> (scratchNodes s)) (scratchIPs s) (S (scratchCount s)) (sc_heap s))) as Hf.
    { apply nodes_frame; cbn; [constructor; cbn; rewrite ?length_insert; try done; lia|lia| |done].
      intros i Hi. apply list_lookup_insert_ne. lia. }
    rewrite list_lookup_insert_eq by done. split_and!; try done; try lia. by eexists _, [].
  - assert (scratchCount s = scratch_size) as Ec by (unfold scratch_size in *; lia).
    assert (frame s (mkScratch (scratchNodes s) (scratchIPs s) (scratchCount s) (sc_heap s ++ [clear_node t]))) as Hf.
    { apply nodes_frame; cbn; [by constructor|lia|done|]. intros i Hi. by apply lookup_app_l. }
    rewrite list_lookup_middle by done. split_and!; try done; try lia; [rewrite Ec; unfold scratch_size; lia|by eexists _, []].
Qed.

Lemma write_node_wf s p f : scratch_wf s -> scratch_wf (write_node s p f).
Proof. intros [W1 W2 W3 W4]. destruct p; constructor; cbn; rewrite ?length_alter; done. Qed.
Lemma write_node_at s p f n : node_at s p = Some n -> node_at (write_node s p f) p = Some (f n).
Proof. destruct p; cbn; [done|..]; intros Hn; by rewrite list_lookup_alter_eq, Hn. Qed.

(** Writing a fresh node keeps everything else. *)
Lemma write_fresh s s1 p f : frame s s1 -> fresh s p -> frame s (write_node s1 p f).
Proof.
  intros [W F] Hp. split; [by apply write_node_wf|]. intros q Hq. destruct (F q Hq) as [Hq1 <-].
  assert (node_at (write_node s1 p f) q = node_at s1 q) as E.
  { destruct p as [|i|i], q as [|j|j]; cbn in *; try done; (rewrite list_lookup_alter_ne; [done|]).
    - destruct Hq as [? _]. lia.
    - destruct Hq as (n & ip & Hl & _). apply lookup_lt_Some in Hl. lia. }
  assert (scratchCount (write_node s1 p f) = scratchCount s1 /\ scratchIPs (write_node s1 p f) = scratchIPs s1) as [Ec Ei] by by destruct p.
  destruct q as [v|j|j]; [done| |]; cbn in *; unfold value_of, ip_of; rewrite ?Ec, ?Ei, E; done.
Qed.

Lemma copy_bytes_length dst src : (length src <= length dst)%nat -> length (copy_bytes dst src) = length dst.
Proof. intros Hl. unfold copy_bytes. rewrite length_app, length_take, length_drop. lia. Qed.
Lemma take_copy_bytes dst src : (length src <= length dst)%nat -> take (length src) (copy_bytes dst src) = src.
Proof. intros Hl. unfold copy_bytes. rewrite (take_ge src) by done. by rewrite take_app_length. Qed.

Lemma fast_length val ip : parseIPv4FastInto val = Some ip -> length ip = 16%nat.
Proof.
  unfold parseIPv4FastInto. destruct (fast_scan _ _ _ _) as [[[p v] d]|] eqn:E; [|done].
  destruct (negb _ || _) eqn:Hbad.
  - rewrite (fast_ip_fallback val p v d E); [done|]. apply orb_true_iff in Hbad as [?|?]; bool_to_prop; auto.
  - intros [= <-]. bool_to_prop. cbn [length app]. rewrite length_app. cbn. lia.
Qed.

(** The parser with a destination writes its slot and nothing else, and returns what the parser returns. *)
Lemma parse_ip_into_spec s i val s' o : scratch_wf s -> (i < scratch_size)%nat -> parse_ip_into s i val = (s', o) ->
  scratch_wf s' /\ scratchNodes s' = scratchNodes s /\ scratchCount s' = scratchCount s /\ sc_heap s' = sc_heap s
  /\ ip_of s' <$> o = parseIPv4FastInto val.
Proof.
  intros [W1 W2 W3 W4] Hi Hp. destruct (lookup_lt_is_Some_2 (scratchIPs s) i) as [dst Hdst]; [by rewrite W2|].
  pose proof (Forall_lookup_1 _ _ _ _ W3 Hdst) as Hd. cbn in Hd.
  assert (forall ip, length ip = 16%nat ->
    let s2 := mkScratch (scratchNodes s) (alter (fun dst => copy_bytes dst ip) i (scratchIPs s)) (scratchCount s) (sc_heap s) in
    scratch_wf s2 /\ ip_of s2 (SlotIP i 16) = ip) as Hwrite.
  { intros ip Hip. split.
    - constructor; cbn; rewrite ?length_alter; try done. apply Forall_alter; [done|]. intros x Hx Hxl. rewrite copy_bytes_length; cbn in *; lia.
    - cbn. rewrite list_lookup_alter_eq, Hdst. cbn. rewrite <- Hip. apply take_copy_bytes. lia. }
  unfold parse_ip_into in Hp. pose proof (fast_length val) as Hlen. unfold parseIPv4FastInto in *.
  destruct (fast_scan _ _ _ _) as [[[p v] d]|] eqn:E; [|injection Hp as <- <-; by split_and!].
  destruct (negb _ || _) eqn:Hbad.
  - destruct (ParseIP val) as [ip|] eqn:Eip; [|injection Hp as <- <-; by split_and!].
    specialize (Hlen ip eq_refl). injection Hp as <- <-. destruct (Hwrite ip Hlen) as [Hw Hv]. rewrite Hlen.
    split_and!; try done. cbn [fmap option_fmap option_map]. by f_equal.
  - specialize (Hlen _ eq_refl). injection Hp as <- <-. destruct (Hwrite _ Hlen) as [Hw Hv].
    split_and!; try done. cbn [fmap option_fmap option_map]. by f_equal.
Qed.

(** What a run returns is what the pure function returns; [keeps] says whether its pointer survives later runs. *)
Definition answers (keeps : Prop) (s : Scratch) (r : Run) (pure : result EvalError Value) : Prop :=
  frame s r.1 /\ match r.2, pure with
                 | Ok p, Ok v => (keeps -> stable r.1 p) /\ deref r.1 p = v
                 | Err e, Err e' => e = e'
                 | _, _ => False
                 end.
Notation agrees := (answers True).

Lemma const_agrees s v : scratch_wf s -> agrees s (s, Ok (PConst v)) (Ok v).
Proof. intros Hw. by split; [apply frame_refl|]. Qed.
Lemma error_agrees s e : scratch_wf s -> agrees s (s, Err e) (Err e).
Proof. intros Hw. by split; [apply frame_refl|]. Qed.
Lemma answers_after keeps s s1 r pure : frame s s1 -> answers keeps s1 r pure -> answers keeps s r pure.
Proof. intros Hf [Hf1 Hr]. split; [by eapply frame_trans|done]. Qed.
Lemma agrees_ok s r v : agrees s r (Ok v) -> frame s r.1 /\ exists p, r = (r.1, Ok p) /\ stable r.1 p /\ deref r.1 p = v.
Proof. intros [Hf Hr]. split; [done|]. destruct r as [s1 [p|e]]; [|done]. cbn in *. exists p. destruct Hr as [Hs Hd]. by split_and!; auto. Qed.
Lemma agrees_err s r e : agrees s r (Err e) -> frame s r.1 /\ r = (r.1, Err e).
Proof. intros [Hf Hr]. split; [done|]. destruct r as [s1 [p|e']]; [done|]. cbn in *. by subst. Qed.

(** A fresh node that is filled. *)
Lemma write_alloc s t s1 p f : scratch_wf s -> allocValueNode s t = (s1, p) ->
  let s2 := write_node s1 p f in
  frame s s2 /\ deref s2 p = value_of s2 (f (clear_node t))
  /\ ((exists ip, sn_IPVal (f (clear_node t)) = OwnIP ip) -> stable s2 p).
Proof.
  intros Hw Ha. destruct (alloc_spec s t s1 p Hw Ha) as (Hfr & Hf & Hn & _ & _ & Hs & _). cbv zeta.
  pose proof (write_node_at s1 p f _ Hn) as Hn2. split_and!.
  - by apply write_fresh.
  - destruct p; [done|..]; unfold deref; by rewrite Hn2.
  - intros [ip Hip]. destruct p; [done|..]; cbn in *; [split; [apply Hs|]|]; by eexists _, ip.
Qed.

(** Filling with what was parsed. *)
Lemma fill_answers {A} s t s1 p (o : option A) f (g : A -> Value) keeps : scratch_wf s -> allocValueNode s t = (s1, p) ->
  (forall a s2, o = Some a -> value_of s2 (f a (clear_node t)) = g a /\ exists ip, sn_IPVal (f a (clear_node t)) = OwnIP ip) ->
  answers keeps s (fill s1 p o f) (let? a := from_option_err ErrParse o in Ok (g a)).
Proof.
  intros Hw Ha Hg. destruct o as [a|]; cbn.
  - destruct (write_alloc s t s1 p (f a) Hw Ha) as (Hf & Hd & Hs). split; [done|]. cbn. destruct (Hg a (write_node s1 p (f a)) eq_refl) as [Hv Hip].
    split; [intros _; by apply Hs|congruence].
  - split; [|done]. by destruct (alloc_spec s t s1 p Hw Ha) as (_ & Hf & _).
Qed.

Lemma parse_answers s val t : scratch_wf s -> answers (t <> ValueTypeIP) s (s_parseStringValue s val t) (parseStringValue val t).
Proof.
  intros Hw. unfold s_parseStringValue. destruct (allocValueNode s t) as [s1 p] eqn:Ha.
  destruct t; cbn [parseStringValue]; try (eapply fill_answers; [done|done|]; intros a s2 _; split; [reflexivity|by eexists]).
  - destruct (write_alloc s ValueTypeString s1 p (with_StrVal val) Hw Ha) as (Hf & Hd & Hs). split; [done|]. cbn.
    split; [intros _; apply Hs; by eexists|exact Hd].
  - destruct (alloc_spec s _ s1 p Hw Ha) as (Hfr & Hf & Hn & Hc & Hpos & Hs & Hips).
    destruct (parse_ip_into s1 (scratchCount s1 - 1) val) as [s2 o] eqn:Ep.
    destruct (parse_ip_into_spec s1 (scratchCount s1 - 1) val s2 o) as (Hw2 & En & Ec & Eh & Eo); [apply Hf| |done|].
    { pose proof (sw_count s1 (fr_wf _ _ Hf)). unfold scratch_size in *. lia. }
    assert (frame s s2) as Hf2.
    { eapply frame_trans; [done|]. apply nodes_frame; [done|by rewrite Ec|by intros; rewrite En|by intros; rewrite Eh]. }
    destruct o as [r|]; cbn in Eo; rewrite <- Eo; cbn; [|by split].
    split; cbn; [by apply write_fresh|]. split; [done|].
    assert (node_at s2 p = Some (clear_node ValueTypeIP)) as Hn2 by (rewrite <- Hn; destruct p; cbn; by rewrite ?En, ?Eh).
    pose proof (write_node_at s2 p (with_IPVal r) _ Hn2) as Hn3. destruct p; [done|..]; unfold deref; rewrite Hn3; done.
Qed.

Lemma attribute_answers ctx s scope field t : scratch_wf s ->
  answers (t <> ValueTypeIP) s (s_GetAttribute ctx s scope field t) (GetAttribute ctx scope field t).
Proof.
  intros Hw. assert (forall text, answers (t <> ValueTypeIP) s
    (let '(s1, p) := allocValueNode s ValueTypeString in (write_node s1 p (with_StrVal text), Ok p)) (Ok (string_value text no_pos))) as Hid.
  { intros text. destruct (allocValueNode s ValueTypeString) as [s1 p] eqn:Ha.
    destruct (write_alloc s _ s1 p (with_StrVal text) Hw Ha) as (Hf & Hd & Hs). split; [done|]. cbn.
    split; [intros _; apply Hs; by eexists|exact Hd]. }
  assert (answers (t <> ValueTypeIP) s
    match attribute_text ctx scope field with Some val => s_parseStringValue s val t | None => (s, Err ErrMissingAttribute) end
    match attribute_text ctx scope field with Some val => parseStringValue val t | None => Err ErrMissingAttribute end) as Hattr.
  { destruct (attribute_text ctx scope field); [by apply parse_answers|by split; [apply frame_refl|]]. }
  unfold s_GetAttribute, GetAttribute. destruct scope, (decide (field = "id"%string)); done.
Qed.

Lemma attribute_agrees ctx s scope field t : scratch_wf s -> t <> ValueTypeIP ->
  agrees s (s_GetAttribute ctx s scope field t) (GetAttribute ctx scope field t).
Proof.
  intros Hw Ht. destruct (attribute_answers ctx s scope field t Hw) as [Hf Hr]. split; [done|].
  destruct (s_GetAttribute _ _ _ _ _).2, (GetAttribute _ _ _ _); try done. destruct Hr as [? ?]. by split; auto.
Qed.

(** ** The evaluator *)

Definition run_agrees (run : Scratch -> Run) (pure : result EvalError Value) : Prop := forall s, scratch_wf s -> agrees s (run s) pure.

Lemma right_agrees er pr : run_agrees er pr ->
  run_agrees (s_right er) (match pr with Err _ => Ok boolFalse | Ok r => guard? negb (is_bool r) else ErrUnsupportedOp; Ok r end).
Proof.
  intros Hr s Hw. specialize (Hr s Hw). unfold s_right. destruct pr as [v|e].
  - apply agrees_ok in Hr as (Hf & p & E & Hs & Hd). rewrite E, Hd. destruct (is_bool v); by split.
  - apply agrees_err in Hr as [Hf E]. rewrite E. by split.
Qed.

Lemma and_agrees el er pl pr : run_agrees el pl -> run_agrees er pr -> run_agrees (s_and el er) (eval_and pl pr).
Proof.
  intros Hl Hr s Hw. specialize (Hl s Hw). unfold s_and, eval_and. destruct pl as [v|e].
  - apply agrees_ok in Hl as (Hf & p & E & Hs & Hd). rewrite E, Hd. destruct (is_bool v); cbn [negb]; [|by split].
    destruct (BoolVal v); cbn [negb]; [|by split]. eapply answers_after; [done|]. apply right_agrees; [done|apply Hf].
  - apply agrees_err in Hl as [Hf E]. rewrite E. by split.
Qed.

Lemma or_agrees el er pl pr : run_agrees el pl -> run_agrees er pr -> run_agrees (s_or el er) (eval_or pl pr).
Proof.
  intros Hl Hr s Hw. specialize (Hl s Hw). unfold s_or, eval_or. destruct pl as [v|e].
  - apply agrees_ok in Hl as (Hf & p & E & Hs & Hd). rewrite E, Hd. destruct (is_bool v && BoolVal v); [by split|].
    eapply answers_after; [done|]. apply right_agrees; [done|apply Hf].
  - apply agrees_err in Hl as [Hf E]. rewrite E. eapply answers_after; [done|]. apply right_agrees; [done|apply Hf].
Qed.

Lemma unary_agrees op s c v : scratch_wf s -> stable s c -> deref s c = v ->
  agrees s (s_unary op s c) (match op with UnaryOpNot => eval_not v | UnaryOpNeg => eval_neg v end).
Proof.
  intros Hw Hs Hd. destruct op; cbn [s_unary]; unfold eval_not, eval_neg; rewrite Hd.
  - destruct (is_bool v); cbn [negb]; [|by apply error_agrees]. destruct (BoolVal v); by apply const_agrees.
  - destruct (bool_decide (ValType v = ValueTypeInt)); cbn [negb]; [|by apply error_agrees].
    destruct (allocValueNode s ValueTypeInt) as [s1 p] eqn:Ha. destruct (alloc_spec s _ s1 p Hw Ha) as (_ & [_ Hk] & _).
    destruct (Hk c Hs) as [_ E]. rewrite E, Hd.
    destruct (write_alloc s _ s1 p (with_IntVal (to_int64 (- IntVal v))) Hw Ha) as (Hf & Hd2 & Hs2). split; [done|]. cbn.
    split; [intros _; apply Hs2; by eexists|exact Hd2].
Qed.

(** The left operand of a comparison need not survive the right one when that is a literal, the only case in which it may hold a slot. *)
Lemma left_answers ctx op left right s : scratch_wf s -> run_agrees (s_Evaluate left ctx) (Evaluate left ctx) ->
  answers (forall v, right <> ValueNode v) s
    (match left with VariableNode scope field _ => s_GetAttribute ctx s scope field (expected_type op right) | _ => s_Evaluate left ctx s end)
    (match left with VariableNode scope field _ => GetAttribute ctx scope field (expected_type op right) | _ => Evaluate left ctx end).
Proof.
  intros Hw Hl. assert (forall s r pure, agrees s r pure -> answers (forall v, right <> ValueNode v) s r pure) as Hweak.
  { intros s0 r pure [Hf Hr]. split; [done|]. destruct r.2, pure; try done. destruct Hr as [? ?]. by split; auto. }
  destruct left as [|op' l r ps|op' c ps|scope field ps|v]; try (apply Hweak, Hl; done).
  destruct (attribute_answers ctx s scope field (expected_type op right) Hw) as [Hf Hr]. split; [done|].
  destruct (s_GetAttribute _ _ _ _ _).2, (GetAttribute _ _ _ _); try done. destruct Hr as [Hs Hd]. split; [|done].
  intros Hne. apply Hs. unfold expected_type. destruct right; [| | | |by edestruct Hne];
    by rewrite (bool_decide_false (ValueTypeString = ValueTypeIPNet)), andb_false_r by done.
Qed.

Lemma comparison_agrees ctx op left right : run_agrees (s_Evaluate left ctx) (Evaluate left ctx) ->
  run_agrees (s_Evaluate right ctx) (Evaluate right ctx) ->
  run_agrees (s_evaluateComparison ctx op left right (s_Evaluate left ctx) (s_Evaluate right ctx))
    (evaluateComparison ctx op left right (Evaluate left ctx) (Evaluate right ctx)).
Proof.
  intros Hl Hr s Hw. unfold s_evaluateComparison, evaluateComparison. pose proof (left_answers ctx op left right s Hw Hl) as Ha.
  match type of Ha with answers _ _ ?r ?pl => destruct r as [s1 lv]; destruct pl as [vl|el] end;
    destruct Ha as [Hf Ha]; destruct lv as [l|e]; try done; cbn in *.
  destruct Ha as [Hs Hd]. specialize (Hr s1 (fr_wf _ _ Hf)).
  destruct (Evaluate right ctx) as [vr|e] eqn:Er.
  - apply agrees_ok in Hr as (Hf2 & r & E & Hs2 & Hd2). rewrite E, Hd2. set (s2 := (s_Evaluate right ctx s1).1) in *.
    assert (deref s2 l = vl) as ->.
    { rewrite <- Hd. destruct right as [|op' l' r' ps|op' c ps|scope field ps|v]; try (apply Hf2, Hs; done). done. }
    assert (frame s s2) as Hf3 by by eapply frame_trans.
    destruct (compare_op ctx op vl vr) as [b|]; by split.
  - apply agrees_err in Hr as [Hf2 E]. rewrite E. split; [by eapply frame_trans|]. by split.
Qed.

Lemma s_Evaluate_agrees ctx node : run_agrees (s_Evaluate node ctx) (Evaluate node ctx).
Proof.
  induction node as [|op l IHl r IHr ps|op c IHc ps|scope field ps|v]; intros s Hw; cbn [s_Evaluate Evaluate].
  - by apply const_agrees.
  - destruct op; first [by apply and_agrees|by apply or_agrees|by apply comparison_agrees].
  - specialize (IHc s Hw). destruct (Evaluate c ctx) as [v|e].
    + apply agrees_ok in IHc as (Hf & p & E & Hs & Hd). rewrite E. cbn [rbind]. eapply answers_after; [done|].
      apply unary_agrees; [apply Hf|done|done].
    + apply agrees_err in IHc as [Hf E]. rewrite E. by split.
  - by apply attribute_agrees.
  - by apply const_agrees.
Qed.

Lemma run_reads run pure s : run_agrees run pure -> scratch_wf s -> read_run (run s) = pure /\ frame s (run s).1.
Proof.
  intros Hr Hw. destruct (Hr s Hw) as [Hf Ha]. split; [|done]. unfold read_run. destruct (run s).2, pure; try done; [|by f_equal].
  by destruct Ha as [_ ->].
Qed.
Lemma set_count_wf s n : scratch_wf s -> (n <= scratch_size)%nat -> scratch_wf (set_count s n).
Proof. intros [W1 W2 W3 W4] Hn. by constructor. Qed.
Lemma truth_satisfied ctx p : truth (IsUnless p) (Evaluate (Condition p) ctx) = condition_satisfied ctx p.
Proof. unfold truth, condition_satisfied. destruct (Evaluate _ _) as [v|]; [|done]. by destruct (is_bool v). Qed.
Lemma new_scratch_wf : scratch_wf new_scratch.
Proof. constructor; cbn; [done|done|repeat constructor|unfold scratch_size; lia]. Qed.

Lemma decide_loop_agrees ctx ps : forall s permit, scratch_wf s ->
  (s_decide_loop ctx s ps permit).2 = decide_loop ctx ps permit /\ scratch_wf (s_decide_loop ctx s ps permit).1.
Proof.
  induction ps as [|p ps IH]; intros s permit Hw; [done|]. cbn [s_decide_loop decide_loop].
  assert (scratch_wf (set_count s 0)) as Hw0 by (apply set_count_wf; [done|lia]).
  destruct (run_reads _ _ _ (s_Evaluate_agrees ctx (Condition p)) Hw0) as [-> Hf]. rewrite truth_satisfied.
  destruct (condition_satisfied ctx p); [|apply IH, Hf]. destruct (PEffect p); first [apply IH, Hf|by split; [|apply Hf]].
Qed.

Lemma matched_loop_agrees ctx ps : forall s, scratch_wf s ->
  (s_matched_loop ctx s ps).2 = base.filter (fun p => condition_satisfied ctx p = true) ps /\ scratch_wf (s_matched_loop ctx s ps).1.
Proof.
  induction ps as [|p ps IH]; intros s Hw; [done|]. cbn [s_matched_loop].
  destruct (run_reads _ _ _ (s_Evaluate_agrees ctx (Condition p)) Hw) as [-> Hf]. rewrite truth_satisfied.
  destruct (IH _ (fr_wf _ _ Hf)) as [E Hw']. destruct (s_matched_loop ctx _ ps) as [s' rest]. cbn [fst snd] in *.
  rewrite filter_cons. split; [|done]. destruct (condition_satisfied ctx p); [by rewrite decide_True, E|by rewrite decide_False, E].
Qed.

(** ** Properties *)

(** C16: Evaluation on a pooled context, whatever is left in its arrays and however many of their slots are in use, computes exactly the
    value or the error of the evaluator on values, and overwrites nothing an earlier evaluation on the context returned. *)
Theorem scratch_evaluation_exact (ctx : EvalContext) (node : Node) (s : Scratch) (Hpool : scratch_wf s) :
  read_run (s_Evaluate node ctx s) = Evaluate node ctx
  /\ scratch_wf (s_Evaluate node ctx s).1
  /\ (forall p, (s_Evaluate node ctx s).2 = Ok p -> stable (s_Evaluate node ctx s).1 p)
  /\ forall p, stable s p -> deref (s_Evaluate node ctx s).1 p = deref s p.
Proof.
  destruct (run_reads _ _ _ (s_Evaluate_agrees ctx node) Hpool) as [Hr Hf]. split_and!; [done|apply Hf| |intros p Hp; by apply Hf].
  intros p Hp. destruct (s_Evaluate_agrees ctx node s Hpool) as [_ Ha]. rewrite Hp in Ha. by destruct (Evaluate node ctx); [apply Ha|].
Qed.

(** C4: A decision on a pooled context is the decision on values, and gives back a context on which the next one is again: nothing of
    one request reaches another through the pool.  The same holds of the policies an explanation matches, although its loop never
    resets the counter, so that its later nodes lie past the array and its addresses share a slot. *)
Theorem pooled_decision_exact (pooled : Scratch) (trie : TrieRoot) (subject action resource : string) (context : gmap string string)
    (ctx : EvalContext) (ps : list PolicyNode) (Hpool : scratch_wf pooled) :
  (s_evaluatePermission pooled trie subject action resource context).2 = evaluatePermission trie subject action resource context
  /\ scratch_wf (s_evaluatePermission pooled trie subject action resource context).1
  /\ (s_matched_loop ctx (GetEvalContext pooled) ps).2 = base.filter (fun p => condition_satisfied ctx p = true) ps
  /\ scratch_wf (Release (s_matched_loop ctx (GetEvalContext pooled) ps).1).
Proof.
  assert (scratch_wf (GetEvalContext pooled)) as Hw by (apply set_count_wf; [done|lia]).
  assert (forall x, scratch_wf x -> scratch_wf (Release x)) as Hrel by (intros x Hx; apply set_count_wf; [done|lia]).
  destruct (matched_loop_agrees ctx ps _ Hw) as [Em Hm]. unfold s_evaluatePermission, evaluatePermission.
  destruct (LookupPoliciesInto _ _ _ _ _) as [|p0 ps0]; [by split_and!; auto|].
  match goal with |- context [s_decide_loop ?c ?x ?l ?m] => destruct (decide_loop_agrees c l x m Hw) as [Ed Hd];
    destruct (s_decide_loop c x l m) as [s' found] end.
  cbn [fst snd] in *. rewrite <- Ed. split_and!; auto.
Qed.

(** ** Witnesses *)

(** A context whose array is used up, with the node and the address of an earlier request in its slots. *)
Definition used_scratch : Scratch :=
  mkScratch (replicate scratch_size (mkSNode ValueTypeBool "user:eve" 7 true (SlotIP 63 16) nil_net))
    (replicate scratch_size (v4_prefix ++ [6; 6; 6; 6])) scratch_size [].
Lemma used_scratch_wf : scratch_wf used_scratch.
Proof. constructor; cbn; [done|done|repeat constructor|unfold scratch_size; lia]. Qed.

(** Two addresses share the last slot. *)
Definition both_addresses : Node :=
  BinaryExprNode BinOpAnd
    (BinaryExprNode BinOpEq (VariableNode VarScopeContext "from" no_pos) (ValueNode (ip_value (v4_prefix ++ [10; 0; 0; 1]) no_pos)) no_pos)
    (BinaryExprNode BinOpNe (VariableNode VarScopeContext "to" no_pos) (ValueNode (ip_value (v4_prefix ++ [10; 0; 0; 1]) no_pos)) no_pos) no_pos.
Definition addressed : EvalContext :=
  sample_context {["from"%string := "10.0.0.1"%string; "to"%string := "10.0.0.2"%string]}.

Lemma scratch_evaluation_exact_witness : read_run (s_Evaluate both_addresses addressed used_scratch) = Ok boolTrue.
Proof.
  destruct (scratch_evaluation_exact addressed both_addresses used_scratch used_scratch_wf) as (-> & _).
  vm_compute. reflexivity.
Defined.

Lemma pooled_decision_exact_witness :
  (s_evaluatePermission used_scratch (build_trie (NewTrieRoot "t") (tn_policies sample_tenant)) "role:admin" "READ" "file:vault" ∅).2
  = evaluatePermission (build_trie (NewTrieRoot "t") (tn_policies sample_tenant)) "role:admin" "READ" "file:vault" ∅.
Proof.
  apply (pooled_decision_exact used_scratch (build_trie (NewTrieRoot "t") (tn_policies sample_tenant)) "role:admin" "READ" "file:vault" ∅
           addressed (tn_policies sample_tenant) used_scratch_wf).
Defined.
