(* ===== verification/CompilerFacts.v ===== *)
(** * What a compiled policy set guarantees

    The limits of the compiler as invariants of every policy it returns, and
    the atomicity of [CompilePolicySet]. *)

From S2P Require Import Prelude GoStr Ast GoNet GoTime Lexer Parser ParserFacts Compiler.
From stdpp Require Import options.
Local Open Scope Z_scope.

(** ** Depth *)

Lemma node_depth_pos n : (1 <= node_depth n)%nat.
Proof. destruct n; simpl; lia. Qed.

Lemma depth_exceeded_spec n d :
  depth_exceeded n d = (max_depth <? d + node_depth n - 1)%nat.
Proof.
  revert d. induction n as [|op l IHl r IHr p|op c IHc p|s f p|v]; intros d;
    cbn [depth_exceeded node_depth]; destruct (Nat.ltb_spec max_depth d) as [Hd|Hd].
  all: try (symmetry; apply Nat.ltb_lt; lia).
  all: try (symmetry; apply Nat.ltb_ge; lia).
  - rewrite IHl, IHr. pose proof (node_depth_pos l). pose proof (node_depth_pos r).
    destruct (Nat.ltb_spec max_depth (S d + node_depth l - 1)), (Nat.ltb_spec max_depth (S d + node_depth r - 1));
      simpl; symmetry; first [apply Nat.ltb_lt; lia|apply Nat.ltb_ge; lia].
  - rewrite IHc. f_equal. lia.
Qed.

(** ** Attributes *)

(** The condition reads the attribute [x]. *)
Fixpoint reads (n : Node) (x : string) : Prop :=
  match n with
  | VariableNode _ field _ => x = field
  | BinaryExprNode _ l r _ => reads l x \/ reads r x
  | UnaryExprNode _ c _ => reads c x
  | _ => False
  end.

Lemma collect_fields_spec n acc x : x ∈ collect_fields n acc <-> reads n x \/ x ∈ acc.
Proof.
  revert acc. induction n as [|op l IHl r IHr p|op c IHc p|s f p|v]; intros acc; simpl.
  - naive_solver.
  - rewrite IHr, IHl. naive_solver.
  - apply IHc.
  - set_solver.
  - naive_solver.
Qed.

Lemma required_attributes_spec n :
  NoDup (extractRequiredAttributes n) /\ Sorted string_le (extractRequiredAttributes n)
  /\ forall x, x ∈ extractRequiredAttributes n <-> reads n x.
Proof.
  unfold extractRequiredAttributes, sort_strings. split_and!.
  - rewrite merge_sort_Permutation. apply NoDup_elements.
  - apply Sorted_merge_sort. apply _.
  - intros x. rewrite merge_sort_Permutation, elem_of_elements, collect_fields_spec. set_solver.
Qed.

(** ** Obligations *)

Definition obligations_ok (obs : list ObligationNode) : Prop :=
  (length obs <= maxPolicyObligations)%nat /\ NoDup (ObType <$> obs)
  /\ Forall (fun o => known_obligation (ObType o) = true /\ go_len (ObMessage o) <= maxObligationMessageLen) obs.

Lemma validate_obligations_spec seen obs :
  validate_obligations seen obs = Ok tt <->
  NoDup (ObType <$> obs) /\ (forall o, o ∈ obs -> ObType o ∉ seen)
  /\ Forall (fun o => known_obligation (ObType o) = true /\ go_len (ObMessage o) <= maxObligationMessageLen) obs.
Proof.
  revert seen. induction obs as [|o obs IH]; intros seen; csimpl.
  { split; [|done]. intros _. split_and!; [constructor|by intros o ?%not_elem_of_nil|constructor]. }
  rewrite NoDup_cons, Forall_cons, list_elem_of_fmap. split.
  - intros H. inv_result. bool_to_prop. apply IH in H as (Hnd & Hseen & Hall).
    split_and!; try done.
    + intros (o' & He & Ho'). destruct (Hseen o' Ho'). rewrite <- He. set_solver.
    + intros o' [->|Ho']%elem_of_cons; [done|]. specialize (Hseen o' Ho'). set_solver.
  - intros ([Hn Hnd] & Hseen & [Hk Hl] & Hall). rewrite Hk. simpl.
    rewrite bool_decide_false by (apply Hseen; by left). rewrite (proj2 (Z.ltb_ge _ _)) by done.
    apply IH. split_and!; try done. intros o' Ho' [He%elem_of_singleton|Hs]%elem_of_union.
    + apply Hn. by exists o'.
    + by apply (Hseen o'); [right|].
Qed.

Lemma validate_policy_spec p : validatePolicyObligations p = Ok tt <-> obligations_ok (Obligations p).
Proof.
  unfold validatePolicyObligations, obligations_ok. destruct (Nat.ltb_spec maxPolicyObligations (length (Obligations p))).
  - split; [done|lia].
  - rewrite validate_obligations_spec. split; intros; set_solver.
Qed.

(** ** The optimisation pass keeps the shape of a condition *)

Lemma foldBinary_shape op l r p :
  foldBinaryExpr op l r p = BinaryExprNode op l r p \/ exists b, foldBinaryExpr op l r p = bool_node b p.
Proof.
  unfold foldBinaryExpr. destruct (_ && _); [eauto|]. destruct (_ && _); [eauto|].
  destruct (as_value l), (as_value r); auto. destruct (fold_literals _ _ _); eauto.
Qed.

Lemma foldUnary_shape op c p :
  foldUnaryExpr op c p = UnaryExprNode op c p \/ exists v, foldUnaryExpr op c p = ValueNode v.
Proof. unfold foldUnaryExpr, bool_node. destruct c; auto. destruct (_ && _); [eauto|]. destruct (_ && _); eauto. Qed.

Lemma preparse_shape op l r :
  preparseIdentifiersAndLiterals op l r = r
  \/ exists v v', r = ValueNode v /\ preparseIdentifiersAndLiterals op l r = ValueNode v'.
Proof.
  unfold preparseIdentifiersAndLiterals. destruct l; auto. destruct r; auto.
  destruct (decide _); [|auto]. right. destruct (_ || _); [destruct (tryParseDateTimeOrTime _)|]; eauto.
Qed.

Lemma preparse_depth op l r : node_depth (preparseIdentifiersAndLiterals op l r) = node_depth r.
Proof. by destruct (preparse_shape op l r) as [->|(v & v' & -> & ->)]. Qed.
Lemma preparse_complete op l r : node_complete (preparseIdentifiersAndLiterals op l r) = node_complete r.
Proof. by destruct (preparse_shape op l r) as [->|(v & v' & -> & ->)]. Qed.

Lemma optimizeNode_depth errs n : (node_depth (optimizeNode errs n).1 <= node_depth n)%nat.
Proof.
  revert errs. induction n as [|op l IHl r IHr p|op c IHc p|s f p|v]; intros errs; simpl; try lia.
  - specialize (IHl errs). destruct (optimizeNode errs l) as [l' e1].
    specialize (IHr e1). destruct (optimizeNode e1 r) as [r' e2]. simpl in *.
    destruct (foldBinary_shape op l' (preparseIdentifiersAndLiterals op l' r') p) as [->|[b ->]];
      simpl; rewrite ?preparse_depth; lia.
  - specialize (IHc errs). destruct (optimizeNode errs c) as [c' e1]. simpl in *.
    destruct (foldUnary_shape op c' p) as [->|[v ->]]; simpl; lia.
Qed.

Lemma optimizeNode_complete errs n :
  node_complete n = true -> node_complete (optimizeNode errs n).1 = true.
Proof.
  revert errs. induction n as [|op l IHl r IHr p|op c IHc p|s f p|v]; intros errs Hn; simpl in *; try done.
  - bool_to_prop. specialize (IHl errs). destruct (optimizeNode errs l) as [l' e1].
    specialize (IHr e1). destruct (optimizeNode e1 r) as [r' e2]. simpl in *.
    destruct (foldBinary_shape op l' (preparseIdentifiersAndLiterals op l' r') p) as [->|[b ->]]; [|done].
    simpl. by rewrite preparse_complete, IHl, IHr.
  - specialize (IHc errs). destruct (optimizeNode errs c) as [c' e1]. simpl in *.
    destruct (foldUnary_shape op c' p) as [->|[v ->]]; [|done]. auto.
Qed.

(** Folding never adds a variable. *)
Lemma optimizeNode_reads errs n x : reads (optimizeNode errs n).1 x -> reads n x.
Proof.
  revert errs. induction n as [|op l IHl r IHr p|op c IHc p|s f p|v]; intros errs; simpl; try done.
  - specialize (IHl errs). destruct (optimizeNode errs l) as [l' e1].
    specialize (IHr e1). destruct (optimizeNode e1 r) as [r' e2]. simpl in *.
    destruct (foldBinary_shape op l' (preparseIdentifiersAndLiterals op l' r') p) as [->|[b ->]]; [|done].
    simpl. destruct (preparse_shape op l' r') as [->|(v & v' & -> & ->)]; simpl; naive_solver.
  - specialize (IHc errs). destruct (optimizeNode errs c) as [c' e1]. simpl in *.
    destruct (foldUnary_shape op c' p) as [->|[v ->]]; [|done]. auto.
Qed.

(** ** One policy *)

Record compiled_wf (s : PolicySource) (p : PolicyNode) : Prop := {
  cw_id : ID p = source_id s /\ ExplanationList p = [source_id s];
  cw_shape : policy_wf p;
  cw_depth : (node_depth (Condition p) <= max_depth)%nat;
  cw_attributes : Condition p <> NodeNil ->
    NoDup (RequiredAttributes p) /\ Sorted string_le (RequiredAttributes p)
    /\ forall x, x ∈ RequiredAttributes p <-> reads (Condition p) x;
  cw_obligations : obligations_ok (Obligations p)
}.

Lemma Compile_ok p p' :
  Compile [] (Some p) = Ok p' ->
  obligations_ok (Obligations p)
  /\ ((Condition p = NodeNil /\ p' = set_explanations p [ID p])
      \/ ((node_depth (Condition p) <= max_depth)%nat
          /\ let c := (optimizeNode [] (Condition p)).1 in
             (optimizeNode [] (Condition p)).2 = []
             /\ p' = set_explanations (set_condition p c (extractRequiredAttributes c)) [ID p])).
Proof.
  unfold Compile. destruct (validatePolicyObligations p) as [[]|] eqn:Hv; simpl; [|done].
  apply validate_policy_spec in Hv. intros H. split; [done|].
  destruct (node_is_nil (Condition p)) eqn:Hn; simpl in H.
  - inv_result. left. by destruct (Condition p).
  - right. destruct (depth_exceeded (Condition p) 1) eqn:Hd; simpl in H; [done|].
    rewrite depth_exceeded_spec in Hd. bool_to_prop.
    destruct (optimizeNode [] (Condition p)) as [c errs]. simpl in *.
    destruct errs as [|e errs]; simpl in H; [|done]. injection H as <-. split; [lia|done].
Qed.

Lemma Compile_wf s q p :
  policy_wf q -> Compile [] (Some (set_id q (source_id s))) = Ok p -> compiled_wf s p.
Proof.
  intros (Hpr & Hac & Hre & Hc) E. apply Compile_ok in E as [Hob Hcase].
  destruct q as [qid ten eff pr ac re cond un ex at' ob pos].
  cbn in Hpr, Hac, Hre, Hc, Hob.
  destruct Hcase as [[Hn ->]|(Hd & Hs & ->)].
  - cbn in Hn. subst cond. constructor; cbn; try done. unfold max_depth. lia.
  - cbn [set_id Condition] in Hd |- *. pose proof (optimizeNode_depth [] cond). constructor; cbn; try done.
    + split_and!; cbn; try done. destruct Hc as [->|Hc]; [by left|right].
      by apply optimizeNode_complete.
    + lia.
    + intros _. apply required_attributes_spec.
Qed.

Lemma compile_source_ok `{UnicodeTable} s p :
  compile_source s = Ok p ->
  exists q, ParseText (source_text s) = Some ([q], [])
    /\ Compile [] (Some (set_id q (source_id s))) = Ok p.
Proof.
  unfold compile_source. destruct (ParseText (source_text s)) as [[nodes errs]|]; [|done].
  destruct errs as [|e errs]; [|done]. cbn [length Nat.ltb Nat.leb].
  destruct nodes as [|q [|]]; try done. intros E. exists q. split; [done|].
  destruct (Compile [] (Some (set_id q (source_id s)))) as [p0|]; [|done].
  unfold map_err in E. congruence.
Qed.

Lemma compile_source_wf `{UnicodeTable} s p : compile_source s = Ok p -> compiled_wf s p.
Proof.
  intros (q & Hp & Hc)%compile_source_ok.
  destruct (ParseText_runs (source_text s)) as (nodes & errs & Hp' & Hwf).
  rewrite Hp in Hp'. injection Hp' as <- <-. specialize (Hwf eq_refl).
  apply Forall_cons in Hwf as [Hwf _]. by eapply Compile_wf.
Qed.

Lemma compile_source_total `{UnicodeTable} s : compile_source s <> Err ParseDiverged.
Proof.
  unfold compile_source. destruct (ParseText_runs (source_text s)) as (ps & es & -> & _).
  destruct (0 <? length es)%nat; [done|]. destruct ps as [|q [|]]; try done.
  by destruct (Compile [] (Some (set_id q (source_id s)))).
Qed.

(** ** Policy sets *)

Lemma rmapM_err {E A B} (f : A -> result E B) xs e :
  rmapM f xs = Err e <->
  exists pre x post, xs = pre ++ x :: post /\ Forall (fun y => is_ok (f y) = true) pre /\ f x = Err e.
Proof.
  induction xs as [|x xs IH]; simpl.
  - split; [done|]. intros (pre & y & post & H & _). by destruct pre.
  - split.
    + intros H. destruct (f x) as [y|e'] eqn:Hx; simpl in H.
      * destruct (rmapM f xs) as [ys|e'] eqn:Hxs; simpl in H; [done|]. injection H as ->.
        destruct (proj1 IH eq_refl) as (pre & z & post & -> & Hpre & Hz).
        exists (x :: pre), z, post. split_and!; [done| |done]. constructor; [by rewrite Hx|done].
      * injection H as ->. exists [], x, xs. split_and!; [done|constructor|done].
    + intros (pre & y & post & H & Hpre & Hy). destruct pre as [|z pre]; simplify_eq/=.
      * by rewrite Hy.
      * apply Forall_cons in Hpre as [Hz Hpre]. destruct (f z) as [v|]; [|done]. simpl.
        rewrite (proj2 IH); [done|]. by exists pre, y, post.
Qed.

(** C37: every policy of an accepted set is well formed: it carries its source's
    identifier, has three scopes and a complete condition of depth at most
    15, lists exactly the attributes the condition reads, sorted and without
    repetition, and its obligations are known, distinct and bounded. *)
Theorem compiled_set_wf `{UnicodeTable} (sources : list PolicySource) (ps : list PolicyNode)
    (Hok : CompilePolicySet sources = Ok ps) : Forall2 compiled_wf sources ps.
Proof.
  unfold CompilePolicySet in Hok. apply rmapM_ok in Hok.
  eapply Forall2_impl; [done|]. intros s p. apply compile_source_wf.
Qed.

(** A quoted string literal of the policy language. *)
Definition quoted (s : string) : string := of_bytes [34] +:+ s +:+ of_bytes [34].

Definition sample_sources : list PolicySource :=
  [mkPolicySource "p1"
     ("permit(principal == role:admin, action == action:READ, resource == any)"
      +:+ " when { context.hour > 8 && principal.dept == " +:+ quoted "it"
      +:+ " } obligation AUDIT_SENSITIVE_TOOL_CALL " +:+ quoted "log it" +:+ ";");
   mkPolicySource "p2"
     ("forbid(principal == any, action == any, resource == file:" +:+ quoted "vault" +:+ ");")].

Definition compiled_or_nil (r : result SetError (list PolicyNode)) : list PolicyNode :=
  match r with Ok ps => ps | Err _ => [] end.

Lemma compiled_set_wf_witness :
  Forall2 compiled_wf sample_sources
    (compiled_or_nil (CompilePolicySet (H := ascii_table) sample_sources)).
Proof. apply (compiled_set_wf (H := ascii_table)). vm_compute. reflexivity. Defined.

(** Compiling a set is atomic: it succeeds exactly when every source
    compiles, otherwise it returns the error of the first source that does
    not, and it always returns. *)
Theorem compile_set_atomic `{UnicodeTable} (sources : list PolicySource) :
  ((exists ps, CompilePolicySet sources = Ok ps)
   <-> Forall (fun s => is_ok (compile_source s) = true) sources)
  /\ (forall e, CompilePolicySet sources = Err e <->
        exists pre s post, sources = pre ++ s :: post
          /\ Forall (fun s' => is_ok (compile_source s') = true) pre
          /\ compile_source s = Err e /\ e <> ParseDiverged).
Proof.
  unfold CompilePolicySet. split.
  - split.
    + intros [ps Hps]. apply rmapM_ok in Hps. induction Hps as [|s p ss ps' Hs _ IH]; [constructor|].
      constructor; [by rewrite Hs|done].
    + intros Hall. destruct (rmapM compile_source sources) as [ps|e] eqn:E; [eauto|].
      apply rmapM_err in E as (pre & s & post & -> & _ & Hs).
      apply Forall_app in Hall as [_ Hall]. apply Forall_cons in Hall as [Hbad _].
      by rewrite Hs in Hbad.
  - intros e. rewrite rmapM_err. split.
    + intros (pre & s & post & -> & Hpre & Hs). exists pre, s, post. split_and!; try done.
      intros ->. by apply (compile_source_total s).
    + intros (pre & s & post & ? & ? & ? & _). by exists pre, s, post.
Qed.
