(* ===== verification/FoldFacts.v ===== *)
(** * The optimisation pass preserves the meaning of conditions

    [optimizeNode] is the composition of retyping literals and folding
    constants ([optimizeNode_factors]; the guess by attribute name never
    changes anything).  Folding preserves the value of every condition in
    every context, errors included, outside three shapes that [fold_ok]
    excludes and for which counterexamples are given. *)

From S2P Require Import Prelude GoStr Ast GoNet GoTime Dag Evaluator EvaluatorFacts Lexer Parser Compiler.
From stdpp Require Import options.
Local Open Scope Z_scope.

(** ** The two halves of the pass *)

Fixpoint retype (n : Node) : Node :=
  match n with
  | BinaryExprNode op l r p => BinaryExprNode op (retype l) (retype r) p
  | UnaryExprNode op c p => UnaryExprNode op (retype c) p
  | ValueNode v => ValueNode (retype_literal v)
  | _ => n
  end.

Fixpoint fold_all (n : Node) : Node :=
  match n with
  | BinaryExprNode op l r p => foldBinaryExpr op (fold_all l) (fold_all r) p
  | UnaryExprNode op c p => foldUnaryExpr op (fold_all c) p
  | _ => n
  end.

(** A string literal that reads neither as an address nor as a time. *)
Definition settled (v : Value) : Prop :=
  ValType v = ValueTypeString ->
  tryParseIPOrCIDR (StrVal v) = None /\ Compiler.tryParseDateTimeOrTime (StrVal v) = None.
Definition node_settled (n : Node) : Prop := forall v, n = ValueNode v -> settled v.

Lemma retype_literal_settled v : settled (retype_literal v).
Proof.
  unfold settled, retype_literal. destruct (decide _) as [Hs|]; [|done].
  destruct (tryParseIPOrCIDR (StrVal v)) as [[|]|] eqn:E1; [done..|].
  by destruct (Compiler.tryParseDateTimeOrTime (StrVal v)) eqn:E2.
Qed.

Lemma bool_node_settled b p : node_settled (bool_node b p).
Proof. by intros v [= <-]. Qed.

Lemma foldBinary_settled op l r p : node_settled (foldBinaryExpr op l r p).
Proof.
  unfold foldBinaryExpr. destruct (_ && _); [apply bool_node_settled|].
  destruct (_ && _); [apply bool_node_settled|].
  destruct (as_value l), (as_value r); try done. destruct (fold_literals _ _ _); [apply bool_node_settled|done].
Qed.

Lemma foldUnary_settled op c p : node_settled (foldUnaryExpr op c p).
Proof.
  unfold foldUnaryExpr. destruct c; try done. destruct (_ && _); [apply bool_node_settled|].
  destruct (_ && _); [|done]. by intros v' [= <-].
Qed.

Lemma optimizeNode_settled errs n : node_settled (optimizeNode errs n).1.
Proof.
  destruct n as [|op l r p|op c p|s f p|v]; simpl; try done.
  - destruct (optimizeNode errs l) as [l' e1]. destruct (optimizeNode e1 r) as [r' e2].
    apply foldBinary_settled.
  - destruct (optimizeNode errs c) as [c' e1]. apply foldUnary_settled.
  - intros v' [= <-]. apply retype_literal_settled.
Qed.

Lemma preparse_noop op l r : node_settled r -> preparseIdentifiersAndLiterals op l r = r.
Proof.
  intros Hs. unfold preparseIdentifiersAndLiterals. destruct l; try done. destruct r as [| | | |v]; try done.
  destruct (decide _) as [Hv|]; [|done]. destruct (Hs v eq_refl Hv) as [H1 H2].
  rewrite H1. destruct ((_ || _) && _); rewrite H2; by destruct (_ || _).
Qed.

Lemma optimizeNode_factors errs n : (optimizeNode errs n).1 = fold_all (retype n).
Proof.
  revert errs. induction n as [|op l IHl r IHr p|op c IHc p|s f p|v]; intros errs; simpl; try done.
  - specialize (IHl errs). destruct (optimizeNode errs l) as [l' e1]. specialize (IHr e1).
    pose proof (optimizeNode_settled e1 r) as Hs. destruct (optimizeNode e1 r) as [r' e2].
    simpl in *. by rewrite preparse_noop, IHl, IHr.
  - specialize (IHc errs). destruct (optimizeNode errs c). simpl in *. by rewrite IHc.
Qed.

(** ** Equivalence of values: the same type and the same payload *)

Definition value_eqv (a b : Value) : Prop :=
  ValType a = ValType b
  /\ match ValType a with
     | ValueTypeString => StrVal a = StrVal b
     | ValueTypeInt | ValueTypeDateTime => IntVal a = IntVal b
     | ValueTypeBool => BoolVal a = BoolVal b
     | ValueTypeIP => IPVal a = IPVal b
     | ValueTypeIPNet => IPNetVal a = IPNetVal b
     end.

Definition result_eqv (a b : result EvalError Value) : Prop :=
  match a, b with
  | Ok v, Ok w => value_eqv v w
  | Err e, Err f => e = f
  | _, _ => False
  end.

Global Instance value_eqv_equiv : Equivalence value_eqv.
Proof.
  split.
  - intros a. split; [done|]. by destruct (ValType a).
  - intros a b [Ht Hv]. split; [done|]. rewrite <- Ht. by destruct (ValType a).
  - intros a b c [Ht Hv] [Ht' Hv']. split; [congruence|]. rewrite <- Ht in Hv'.
    destruct (ValType a); congruence.
Qed.

Global Instance result_eqv_equiv : Equivalence result_eqv.
Proof.
  split.
  - intros [a|e]; simpl; done.
  - intros [a|e] [b|f]; simpl; done.
  - intros [a|e] [b|f] [c|g]; simpl; try done; [by intros -> |congruence].
Qed.

Global Instance compareEq_proper : Proper (value_eqv ==> value_eqv ==> eq) compareEq.
Proof.
  intros a a' [Ha Hva] b b' [Hb Hvb]. unfold compareEq. rewrite <- Ha, <- Hb.
  destruct (decide (ValType a = ValType b)) as [He|]; [|done]. rewrite <- He in Hvb.
  destruct (ValType a); by rewrite ?Hva, ?Hvb.
Qed.

Global Instance compareOrder_proper : Proper (value_eqv ==> value_eqv ==> eq) compareOrder.
Proof.
  intros a a' [Ha Hva] b b' [Hb Hvb]. unfold compareOrder. rewrite <- Ha, <- Hb.
  destruct (decide (ValType a = ValType b)) as [He|]; [|done]. rewrite <- He in Hvb.
  destruct (ValType a); by rewrite ?Hva, ?Hvb.
Qed.

Global Instance is_bool_proper : Proper (value_eqv ==> eq) is_bool.
Proof. intros a a' [Ha _]. unfold is_bool. by rewrite Ha. Qed.

Lemma is_string_eqv a a' : value_eqv a a' ->
  is_string a = is_string a' /\ (is_string a = true -> StrVal a = StrVal a').
Proof.
  intros [Ha Hv]. unfold is_string. rewrite <- Ha. split; [done|].
  intros H. bool_to_prop. by rewrite H in Hv.
Qed.

Global Instance compareIn_proper ctx : Proper (value_eqv ==> value_eqv ==> eq) (compareIn ctx).
Proof.
  intros a a' Ea b b' Eb. unfold compareIn.
  destruct (is_string_eqv _ _ Ea) as [<- Sa], (is_string_eqv _ _ Eb) as [<- Sb].
  destruct Ea as [Ha Hva], Eb as [Hb Hvb]. rewrite <- Ha, <- Hb.
  destruct (bool_decide (ValType a = ValueTypeIP) && bool_decide (ValType b = ValueTypeIPNet)) eqn:E.
  - bool_to_prop. rewrite H in Hva. rewrite H0 in Hvb. by rewrite Hva, Hvb.
  - destruct (is_string a) eqn:E1, (is_string b) eqn:E2; simpl; try done. by rewrite Sa, Sb.
Qed.

Global Instance compareContains_proper : Proper (value_eqv ==> value_eqv ==> eq) compareContains.
Proof.
  intros a a' Ea b b' Eb. unfold compareContains.
  destruct (is_string_eqv _ _ Ea) as [<- Sa], (is_string_eqv _ _ Eb) as [<- Sb].
  destruct (is_string a) eqn:E1, (is_string b) eqn:E2; simpl; try done. by rewrite Sa, Sb.
Qed.

Global Instance compare_op_proper ctx op : Proper (value_eqv ==> value_eqv ==> eq) (compare_op ctx op).
Proof.
  intros a a' Ea b b' Eb. destruct op; simpl; rewrite ?Ea, ?Eb; done.
Qed.

Lemma bool_eqv a b : value_eqv a b -> is_bool a = true -> BoolVal a = BoolVal b.
Proof. intros [Ht Hv] H. unfold is_bool in H. bool_to_prop. by rewrite H in Hv. Qed.

Global Instance eval_and_proper : Proper (result_eqv ==> result_eqv ==> result_eqv) eval_and.
Proof.
  intros [a|e] [a'|e'] Ea [b|f] [b'|f'] Eb; simpl in *; try done.
  - rewrite <- Ea. destruct (is_bool a) eqn:Ha; simpl; [|done]. rewrite <- (bool_eqv _ _ Ea Ha).
    destruct (BoolVal a); simpl; [|done]. rewrite <- Eb. by destruct (is_bool b).
  - rewrite <- Ea. destruct (is_bool a) eqn:Ha; simpl; [|done]. rewrite <- (bool_eqv _ _ Ea Ha).
    by destruct (BoolVal a).
Qed.

Global Instance eval_or_proper : Proper (result_eqv ==> result_eqv ==> result_eqv) eval_or.
Proof.
  assert (forall el el', result_eqv el el' ->
    match el with Ok l => is_bool l && BoolVal l | Err _ => false end
    = match el' with Ok l => is_bool l && BoolVal l | Err _ => false end) as Hleft.
  { intros [a|e] [a'|e'] Ea; simpl in *; try done. rewrite <- (is_bool_proper _ _ Ea).
    destruct (is_bool a) eqn:Ha; [|done]. simpl. by apply bool_eqv. }
  intros el el' Ea [b|f] [b'|f'] Eb; unfold eval_or; rewrite (Hleft _ _ Ea);
    destruct (match el' with Ok _ => _ | Err _ => _ end); simpl in *; try done.
  rewrite <- Eb. by destruct (is_bool b).
Qed.

(** ** Where folding is sound *)

(** An expression that is boolean whenever it has a value. *)
Definition boolean_valued (n : Node) : bool :=
  match n with
  | NodeNil | BinaryExprNode _ _ _ _ | UnaryExprNode UnaryOpNot _ _ => true
  | ValueNode v => is_bool v
  | _ => false
  end.

Definition is_variable (n : Node) : bool :=
  match n with VariableNode _ _ _ => true | _ => false end.
Definition is_datetime (n : Node) : bool :=
  match n with ValueNode v => bool_decide (ValType v = ValueTypeDateTime) | _ => false end.

(** Operands of [&&] are boolean; the right operand of a comparison with a
    variable is a literal or a variable; no equality between two times. *)
Fixpoint fold_ok (n : Node) : bool :=
  match n with
  | BinaryExprNode op l r _ =>
      fold_ok l && fold_ok r
      && match op with
         | BinOpAnd => boolean_valued l && boolean_valued r
         | BinOpOr => true
         | _ => (negb (is_variable l) || is_leaf r)
                && negb ((bool_decide (op = BinOpEq) || bool_decide (op = BinOpNe))
                         && is_datetime l && is_datetime r)
         end
  | UnaryExprNode _ c _ => fold_ok c
  | _ => true
  end.

Lemma boolean_valued_sound n ctx v :
  boolean_valued n = true -> Evaluate n ctx = Ok v -> is_bool v = true.
Proof.
  destruct n as [|op l r p|[] c p|s f p|w]; simpl; try done.
  - by intros _ [= <-].
  - intros _. destruct op; try first [apply eval_and_bool|apply eval_or_bool];
      intros H; apply comparison_ok in H as [->| ->]; done.
  - intros _. destruct (Evaluate c ctx) as [w|]; simpl; [|done]. unfold eval_not.
    destruct (is_bool w); simpl; [|done]. intros [= <-]. by destruct (BoolVal w).
  - by intros Hb [= <-].
Qed.

Lemma is_bool_lit_sound b n :
  is_bool_lit b n = true -> exists v, n = ValueNode v /\ is_bool v = true /\ BoolVal v = b.
Proof.
  destruct n; simpl; try done. intros H. bool_to_prop. apply Bool.eqb_prop in H0.
  exists v. split_and!; [done|by apply bool_decide_eq_true|done].
Qed.

Lemma eqv_bool_value v b p : is_bool v = true -> BoolVal v = b -> value_eqv (bool_value b p) v.
Proof. unfold is_bool. intros H <-. bool_to_prop. split; [done|]. done. Qed.

Lemma evaluateEq_compareEq l r :
  (ValType l = ValueTypeDateTime -> ValType r <> ValueTypeDateTime) -> evaluateEq l r = compareEq l r.
Proof.
  intros Hd. unfold evaluateEq, compareEq. destruct (decide (ValType l = ValType r)) as [He|]; [|done].
  destruct (ValType l) eqn:E; try done. by destruct Hd.
Qed.

Lemma bool_result_eqv b p : value_eqv (bool_value b p) (bool_result b).
Proof. by destruct b. Qed.

(** Folding two literals gives the value the evaluator computes. *)
Lemma fold_literals_sound ctx op l r b p pl :
  fold_literals op l r = Some b ->
  negb ((bool_decide (op = BinOpEq) || bool_decide (op = BinOpNe))
        && is_datetime (ValueNode l) && is_datetime (ValueNode r)) = true ->
  result_eqv (Ok (bool_value b p)) (Evaluate (BinaryExprNode op (ValueNode l) (ValueNode r) pl) ctx).
Proof.
  intros Hf Hd.
  assert ((bool_decide (op = BinOpEq) || bool_decide (op = BinOpNe)) = true ->
          evaluateEq l r = compareEq l r) as Heq.
  { intros Hop. apply evaluateEq_compareEq. intros H1 H2. rewrite Hop in Hd. simpl in Hd.
    by rewrite !bool_decide_true in Hd. }
  destruct op; cbn [fold_literals] in Hf; cbn [Evaluate];
    unfold evaluateComparison; cbn [compare_op]; try discriminate Hf.
  - unfold both_bool in Hf. inv_result. bool_to_prop. unfold eval_and, is_bool.
    rewrite !bool_decide_true by done. simpl. destruct (BoolVal l); simpl; [|done].
    by apply eqv_bool_value; [apply bool_decide_eq_true|].
  - unfold both_bool in Hf. inv_result. bool_to_prop. unfold eval_or, is_bool.
    rewrite !bool_decide_true by done. simpl. destruct (BoolVal l); simpl; [done|].
    by apply eqv_bool_value; [apply bool_decide_eq_true|].
  - injection Hf as <-. rewrite (Heq eq_refl). apply bool_result_eqv.
  - injection Hf as <-. rewrite (Heq eq_refl). apply bool_result_eqv.
  - change (compareOrder l r) with (evaluateCompare l r). rewrite Hf. apply bool_result_eqv.
  - change (compareOrder l r) with (evaluateCompare l r). rewrite Hf. apply bool_result_eqv.
  - change (compareOrder l r) with (evaluateCompare l r). rewrite Hf. apply bool_result_eqv.
  - change (compareOrder l r) with (evaluateCompare l r). rewrite Hf. apply bool_result_eqv.
Qed.

(** One application of [foldBinaryExpr]. *)
Lemma foldBinary_sound ctx op l r p :
  (op = BinOpAnd -> boolean_valued l = true) ->
  negb ((bool_decide (op = BinOpEq) || bool_decide (op = BinOpNe))
        && is_datetime l && is_datetime r) = true ->
  result_eqv (Evaluate (foldBinaryExpr op l r p) ctx) (Evaluate (BinaryExprNode op l r p) ctx).
Proof.
  intros Hand Hd. unfold foldBinaryExpr.
  destruct (bool_decide (op = BinOpAnd) && _) eqn:E1.
  { apply andb_true_iff in E1 as [->%bool_decide_eq_true E1]. apply orb_true_iff in E1 as [E1|E1];
      apply is_bool_lit_sound in E1 as (v & -> & Hb & Hv); cbn [Evaluate]; unfold eval_and.
    - by rewrite Hb, Hv.
    - destruct (Evaluate l ctx) as [w|] eqn:El; [|done].
      rewrite (boolean_valued_sound l ctx w) by auto. simpl. destruct (BoolVal w); simpl; [|done].
      rewrite Hb. simpl. by apply eqv_bool_value. }
  destruct (bool_decide (op = BinOpOr) && _) eqn:E2.
  { apply andb_true_iff in E2 as [->%bool_decide_eq_true E2]. apply orb_true_iff in E2 as [E2|E2];
      apply is_bool_lit_sound in E2 as (v & -> & Hb & Hv); cbn [Evaluate]; unfold eval_or.
    - by rewrite Hb, Hv.
    - destruct (match Evaluate l ctx with Ok _ => _ | Err _ => _ end); [done|].
      rewrite Hb. simpl. by apply eqv_bool_value. }
  destruct (as_value l) as [lv|] eqn:El; [|done]. destruct (as_value r) as [rv|] eqn:Er; [|done].
  destruct (fold_literals op lv rv) as [b|] eqn:Ef; [|done].
  destruct l; try done. destruct r; try done. simplify_eq/=. by apply fold_literals_sound.
Qed.

Lemma foldUnary_sound ctx op c p :
  result_eqv (Evaluate (foldUnaryExpr op c p) ctx) (Evaluate (UnaryExprNode op c p) ctx).
Proof.
  unfold foldUnaryExpr. destruct c as [| | | |v]; try done.
  destruct op; simpl; unfold eval_not, eval_neg, is_bool.
  - destruct (bool_decide (ValType v = ValueTypeBool)) eqn:E; simpl; [by destruct (BoolVal v)|].
    unfold eval_not, is_bool. rewrite E. done.
  - destruct (bool_decide (ValType v = ValueTypeInt)) eqn:E; simpl; [done|].
    unfold eval_neg. rewrite E. done.
Qed.

(** Congruence of the evaluator under equivalent operands. *)
Lemma comparison_congr ctx op l l' r r' :
  result_eqv (Evaluate l' ctx) (Evaluate l ctx) -> result_eqv (Evaluate r' ctx) (Evaluate r ctx) ->
  is_variable l' = is_variable l -> (is_variable l = true -> l' = l /\ r' = r) ->
  result_eqv (evaluateComparison ctx op l' r' (Evaluate l' ctx) (Evaluate r' ctx))
    (evaluateComparison ctx op l r (Evaluate l ctx) (Evaluate r ctx)).
Proof.
  intros Hl Hr Hvar Hsame. destruct (is_variable l) eqn:Hv.
  { by destruct (Hsame eq_refl) as [-> ->]. }
  unfold evaluateComparison.
  assert (forall n (T : Type) (f : VarScope -> string -> T) (d : T), is_variable n = false ->
    match n with VariableNode s x _ => f s x | _ => d end = d) as Hdef by (by intros [] ).
  rewrite !Hdef by done.
  destruct (Evaluate l' ctx) as [a'|], (Evaluate l ctx) as [a|]; simpl in Hl; try done.
  destruct (Evaluate r' ctx) as [b'|], (Evaluate r ctx) as [b|]; simpl in Hr; try done.
  rewrite (compare_op_proper ctx op _ _ Hl _ _ Hr). by destruct (compare_op ctx op a b).
Qed.

Lemma fold_all_leaf n : is_leaf n = true -> fold_all n = n.
Proof. by destruct n. Qed.

Lemma fold_all_variable n : is_variable (fold_all n) = is_variable n.
Proof.
  destruct n as [|op l r p|op c p|s f p|v]; simpl; try done.
  - unfold foldBinaryExpr. destruct (_ && _); [done|]. destruct (_ && _); [done|].
    destruct (as_value (fold_all l)) as [lv|], (as_value (fold_all r)) as [rv|]; try done.
    by destruct (fold_literals op lv rv).
  - unfold foldUnaryExpr. destruct (fold_all c); try done. destruct (_ && _); [done|]. by destruct (_ && _).
Qed.

Lemma fold_all_datetime n : is_datetime (fold_all n) = true -> is_datetime n = true.
Proof.
  destruct n as [|op l r p|op c p|s f p|v]; simpl; try done.
  - unfold foldBinaryExpr. destruct (_ && _); [done|]. destruct (_ && _); [done|].
    destruct (as_value (fold_all l)) as [lv|], (as_value (fold_all r)) as [rv|]; try done.
    by destruct (fold_literals op lv rv).
  - unfold foldUnaryExpr. destruct (fold_all c); try done. destruct (_ && _); [done|]. by destruct (_ && _).
Qed.

Lemma fold_all_boolean n : boolean_valued n = true -> boolean_valued (fold_all n) = true.
Proof.
  destruct n as [|op l r p|[] c p|s f p|v]; simpl; try done; intros _.
  - unfold foldBinaryExpr. destruct (_ && _); [done|]. destruct (_ && _); [done|].
    destruct (as_value (fold_all l)) as [lv|], (as_value (fold_all r)) as [rv|]; try done.
    by destruct (fold_literals op lv rv).
  - unfold foldUnaryExpr. destruct (fold_all c); try done. by destruct (_ && _).
Qed.

Lemma fold_all_sound ctx n :
  fold_ok n = true -> result_eqv (Evaluate (fold_all n) ctx) (Evaluate n ctx).
Proof.
  induction n as [|op l IHl r IHr p|op c IHc p|s f p|v]; intros Hok; try done.
  - cbn [fold_ok fold_all] in *. apply andb_true_iff in Hok as [[Hl Hr]%andb_true_iff Hop].
    specialize (IHl Hl). specialize (IHr Hr). etransitivity.
    + apply foldBinary_sound.
      * intros ->. bool_to_prop. by apply fold_all_boolean.
      * apply negb_true_iff. destruct (bool_decide (op = BinOpEq) || _) eqn:Eop; [|done]. simpl.
        destruct (is_datetime (fold_all l)) eqn:E1, (is_datetime (fold_all r)) eqn:E2; try done.
        apply fold_all_datetime in E1, E2.
        destruct op; try discriminate Eop; rewrite E1, E2 in Hop; bool_to_prop; simpl in *; discriminate.
    + cbn [Evaluate]. destruct op; [by rewrite IHl, IHr|by rewrite IHl, IHr|..];
        (apply comparison_congr; [done..|apply fold_all_variable|]);
        intros Hv; bool_to_prop; rewrite Hv in *; simpl in *;
        (split; apply fold_all_leaf; [by destruct l|done]).
  - cbn [fold_ok fold_all] in *. specialize (IHc Hok). etransitivity; [apply foldUnary_sound|].
    cbn [Evaluate]. destruct (Evaluate (fold_all c) ctx) as [a|], (Evaluate c ctx) as [b|]; simpl in *; try done.
    destruct op; [unfold eval_not|unfold eval_neg].
    + rewrite (is_bool_proper _ _ IHc). destruct (is_bool b) eqn:Hb; simpl; [|done].
      rewrite (bool_eqv a b) by (done || by rewrite (is_bool_proper _ _ IHc)). done.
    + destruct IHc as [Ht Hv]. rewrite <- Ht. destruct (decide (ValType a = ValueTypeInt)) as [He|].
      * rewrite bool_decide_true by done. simpl. rewrite He in Hv. by rewrite Hv.
      * by rewrite bool_decide_false.
Qed.

(** ** Properties *)

(** C24: the optimiser preserves the meaning of the condition with its literals
    retyped: in every context the optimised tree and that tree have the same
    value, or the same error, whenever operands of [&&] are boolean,
    comparisons with a variable have a literal or a variable on the right,
    and no two time literals are tested for equality ([fold_ok]; each condition
    is needed, as the theorems below show). *)
Theorem optimizeNode_preserves (errs : list TypeError) (n : Node) (ctx : EvalContext)
    (Hok : fold_ok (retype n) = true) :
  result_eqv (Evaluate (optimizeNode errs n).1 ctx) (Evaluate (retype n) ctx).
Proof. rewrite optimizeNode_factors. by apply fold_all_sound. Qed.

Definition lit_int (n : Z) : Node := ValueNode (int_value n no_pos).
Definition lit_str (s : string) : Node := ValueNode (string_value s no_pos).
Definition ctx_var (f : string) : Node := VariableNode VarScopeContext f no_pos.
Definition bin (op : BinaryOp) (l r : Node) : Node := BinaryExprNode op l r no_pos.

Definition sample_condition : Node :=
  bin BinOpOr (bin BinOpAnd (bin BinOpLt (lit_int 3) (lit_int 2)) (bin BinOpEq (ctx_var "a") (lit_str "x")))
    (bin BinOpIn (ctx_var "src") (lit_str "10.0.0.0/8")).

Lemma optimizeNode_preserves_witness :
  result_eqv
    (Evaluate (optimizeNode [] sample_condition).1 (sample_context (<["src" := "10.1.2.3"]> ∅)))
    (Evaluate (retype sample_condition) (sample_context (<["src" := "10.1.2.3"]> ∅))).
Proof. apply optimizeNode_preserves. vm_compute. reflexivity. Defined.

(** Two equal time literals fold to false, although they compare equal. *)
Theorem fold_datetime_equality_differs (ctx : EvalContext) :
  let n := bin BinOpEq (lit_str "08:00") (lit_str "08:00") in
  Evaluate (optimizeNode [] n).1 ctx = Ok boolFalse /\ Evaluate (retype n) ctx = Ok boolTrue.
Proof. split; vm_compute; reflexivity. Qed.

(** Folding the right operand of a comparison changes the type at which the
    attribute on the left is parsed. *)
Theorem fold_changes_expected_type :
  let n := bin BinOpEq (ctx_var "flag") (bin BinOpEq (lit_int 1) (lit_int 1)) in
  let ctx := sample_context (<["flag" := "true"]> ∅) in
  Evaluate (optimizeNode [] n).1 ctx = Ok boolTrue /\ Evaluate (retype n) ctx = Ok boolFalse.
Proof. split; vm_compute; reflexivity. Qed.

(** Folding [x && false] hides the type error of a string operand, which
    matters under a negation. *)
Theorem fold_hides_type_error :
  let n := UnaryExprNode UnaryOpNot (bin BinOpAnd (ctx_var "s") (ValueNode (bool_value false no_pos))) no_pos in
  let ctx := sample_context (<["s" := "text"]> ∅) in
  Evaluate (optimizeNode [] n).1 ctx = Ok (bool_value true no_pos)
  /\ Evaluate (retype n) ctx = Err ErrUnsupportedOp.
Proof. split; vm_compute; reflexivity. Qed.

(** A literal that merely starts like a time is retyped, so equality with the
    identical attribute text is false. *)
Theorem time_like_literal_never_matches :
  let n := bin BinOpEq (ctx_var "name") (lit_str "3:4-report") in
  let ctx := sample_context (<["name" := "3:4-report"]> ∅) in
  Evaluate n ctx = Ok boolTrue /\ Evaluate (optimizeNode [] n).1 ctx = Ok boolFalse.
Proof. split; vm_compute; reflexivity. Qed.
