(* ===== verification/Engine.v ===== *)
(** * The engine state ([internal/engine/engine.go], [state_writer.go], [engine_gc.go])

    The state is an immutable map from tenants to indexes behind an atomic
    pointer: an update builds a new map and swaps it inside the write mutex, a
    reader takes whatever snapshot the pointer holds.  Each critical section
    is one function on the state.  The clock ([time.Now()]) is the argument
    [now]; logging is omitted. *)

From S2P Require Import Prelude GoStr Ast Dag Trie Evaluator Decision.
From stdpp Require Import options.
Local Open Scope Z_scope.

Abbreviation Tenants := (gmap string TrieRoot).

Inductive EngineError :=
| ErrInheritance (e : DagError)
| ErrStaleRevision (tenant : string) (current received : Z).

(** ** Building a tenant's index *)

Section Build.
Context `{RangeOrder}.

Fixpoint add_inheritances (seed : nat) (g : RoleDAG) (pairs : list (string * string)) :
    result DagError RoleDAG :=
  match pairs with
  | [] => Ok g
  | (parent, child) :: ps =>
      let? g' := AddInheritance seed g parent child in add_inheritances (S seed) g' ps
  end.

Definition set_dag (t : TrieRoot) (g : RoleDAG) : TrieRoot :=
  mkTrieRoot (trie_tenant t) (Revision t) (trie_attributes t) (Subjects t) (GlobalPolicies t) g.
Definition set_revision (t : TrieRoot) (r : Z) : TrieRoot :=
  mkTrieRoot (trie_tenant t) r (trie_attributes t) (Subjects t) (GlobalPolicies t) (trie_dag t).

Definition buildTenantTrie (seed : nat) (tenantID : string) (policies : list PolicyNode)
    (inheritances : list (string * string)) (revision : Z) : result EngineError TrieRoot :=
  let trie := set_revision (NewTrieRoot tenantID) revision in
  match add_inheritances seed (trie_dag trie) inheritances with
  | Err e => Err (ErrInheritance e)
  | Ok g => Ok (foldl (fun t p => AddPolicy t (Some p)) (set_dag trie g) policies)
  end.
End Build.

(** ** Copy-on-write *)

Definition revisionIsStale (st : Tenants) (tenantID : string) (revision : Z) : bool :=
  match st !! tenantID with
  | Some current => (0 <? revision) && (revision <? Revision current)
  | None => false
  end.
Definition revisionIsDuplicate (st : Tenants) (tenantID : string) (revision : Z) : bool :=
  match st !! tenantID with
  | Some current => (0 <? revision) && (revision =? Revision current)
  | None => false
  end.

Definition stateWithTenant (old : Tenants) (tenantID : string) (trie : TrieRoot) : Tenants :=
  <[tenantID := trie]> (delete tenantID old).
Definition stateWithoutTenant (old : Tenants) (tenantID : string) : Tenants := delete tenantID old.

(** The critical section of [UpdateTenantPolicies]: the next revision. *)
Definition publish_next (st : Tenants) (tenantID : string) (newTrie : TrieRoot) : Tenants :=
  let rev := match st !! tenantID with
             | Some current => to_uint64 (Revision current + 1)
             | None => 1
             end in
  stateWithTenant st tenantID (set_revision newTrie rev).

(** The critical section of [UpdateTenantPoliciesWithRevision]; the boolean
    tells whether the state was swapped. *)
Definition publish_at (st : Tenants) (tenantID : string) (newTrie : TrieRoot) (revision : Z) :
    result EngineError (Tenants * bool) :=
  guard? revisionIsStale st tenantID revision
    else ErrStaleRevision tenantID (default 0 (Revision <$> st !! tenantID)) revision;
  if revisionIsDuplicate st tenantID revision then Ok (st, false)
  else Ok (stateWithTenant st tenantID newTrie, true).

(** ** The plain engine *)

Definition NewEngine : Tenants := ∅.
Definition GetTenantTrie (st : Tenants) (tenantID : string) : option TrieRoot := st !! tenantID.
Definition GetTenantRevision (st : Tenants) (tenantID : string) : Z :=
  match GetTenantTrie st tenantID with Some t => Revision t | None => 0 end.
Definition GetTenantSchema (st : Tenants) (tenantID : string) : list string :=
  match GetTenantTrie st tenantID with Some t => trie_attributes t | None => [] end.

Section Update.
Context `{RangeOrder}.

Definition UpdateTenantPolicies (seed : nat) (st : Tenants) (tenantID : string)
    (policies : list PolicyNode) (inheritances : list (string * string)) : result EngineError Tenants :=
  let? newTrie := buildTenantTrie seed tenantID policies inheritances 0 in
  Ok (publish_next st tenantID newTrie).

Definition UpdateTenantPoliciesWithRevision (seed : nat) (st : Tenants) (tenantID : string)
    (policies : list PolicyNode) (inheritances : list (string * string)) (revision : Z) :
    result EngineError Tenants :=
  let? newTrie := buildTenantTrie seed tenantID policies inheritances revision in
  let? r := publish_at st tenantID newTrie revision in Ok r.1.
End Update.

(** [Engine.CheckPermission]. *)
Definition engine_CheckPermission (canceled : bool) (st : Tenants) (tenantID subject action resource : string)
    (context : gmap string string) : DecisionResult :=
  if canceled then deny ReasonDenyCanceled
  else match GetTenantTrie st tenantID with
       | None => deny ReasonDenyTenantNotFound
       | Some t => evaluatePermission t subject action resource context
       end.

(** ** The engine with tenant cache collection *)

Record AccessRecord := mkAccess { lastAccessNano : Z; policyCount : Z }.

Record EngineWithGC := mkEngineGC {
  gc_state : Tenants;
  accessRecords : gmap string AccessRecord;
  gcEnabled : bool;
  gcInterval : Z;
  maxIdleTime : Z
}.

Record GCConfig := mkGCConfig {
  cfg_Enabled : bool; cfg_Interval : Z; cfg_IdleTimeout : Z; cfg_MaxCacheSize : Z
}.

Definition hour_ns : Z := 3600 * 1000000000.

Definition NewEngineWithGC (cfg : GCConfig) : EngineWithGC :=
  mkEngineGC ∅ ∅ (cfg_Enabled cfg)
    (if cfg_Interval cfg <=? 0 then hour_ns else cfg_Interval cfg)
    (if cfg_IdleTimeout cfg <=? 0 then 24 * hour_ns else cfg_IdleTimeout cfg).

Definition with_state (e : EngineWithGC) (st : Tenants) : EngineWithGC :=
  mkEngineGC st (accessRecords e) (gcEnabled e) (gcInterval e) (maxIdleTime e).
Definition with_access (e : EngineWithGC) (m : gmap string AccessRecord) : EngineWithGC :=
  mkEngineGC (gc_state e) m (gcEnabled e) (gcInterval e) (maxIdleTime e).

Definition touchTenant (now : Z) (e : EngineWithGC) (tenantID : string) (count : Z) : EngineWithGC :=
  let r := default (mkAccess 0 0) (accessRecords e !! tenantID) in
  with_access e
    (<[tenantID := mkAccess now (if 0 <? count then count else policyCount r)]> (accessRecords e)).

Section UpdateGC.
Context `{RangeOrder}.

Definition gc_UpdateTenantPolicies (seed : nat) (now : Z) (e : EngineWithGC) (tenantID : string)
    (policies : list PolicyNode) (inheritances : list (string * string)) :
    result EngineError EngineWithGC :=
  let? newTrie := buildTenantTrie seed tenantID policies inheritances 0 in
  Ok (touchTenant now (with_state e (publish_next (gc_state e) tenantID newTrie)) tenantID
        (Z.of_nat (length policies))).

Definition gc_UpdateTenantPoliciesWithRevision (seed : nat) (now : Z) (e : EngineWithGC) (tenantID : string)
    (policies : list PolicyNode) (inheritances : list (string * string)) (revision : Z) :
    result EngineError EngineWithGC :=
  let? newTrie := buildTenantTrie seed tenantID policies inheritances revision in
  let? (st, swapped) := publish_at (gc_state e) tenantID newTrie revision in
  if swapped : bool
  then Ok (touchTenant now (with_state e st) tenantID (Z.of_nat (length policies)))
  else Ok e.
End UpdateGC.

Definition UnloadTenant (e : EngineWithGC) (tenantID : string) : EngineWithGC :=
  match gc_state e !! tenantID with
  | None => e
  | Some _ =>
      with_access (with_state e (stateWithoutTenant (gc_state e) tenantID))
        (delete tenantID (accessRecords e))
  end.

(** The tenants whose record is older than the idle limit; the order of
    [Range] does not matter, because unloading commutes. *)
Definition idle_tenants (now : Z) (e : EngineWithGC) : list string :=
  (base.filter (fun kr => maxIdleTime e < to_int64 (now - lastAccessNano kr.2)) (map_to_list (accessRecords e))).*1.

Definition runGCCycle (now : Z) (e : EngineWithGC) : EngineWithGC :=
  foldl UnloadTenant e (idle_tenants now e).

(** The registered callback: the engine it leaves and whether it succeeded. *)
Abbreviation LazyLoader := (option (string -> EngineWithGC -> EngineWithGC * bool)).

Definition gc_GetTenantTrie (loader : LazyLoader) (now : Z) (e : EngineWithGC) (tenantID : string) :
    EngineWithGC * option TrieRoot :=
  match gc_state e !! tenantID with
  | Some trie => (touchTenant now e tenantID (Z.of_nat (size (gc_state e))), Some trie)
  | None =>
      match loader with
      | None => (e, None)
      | Some load =>
          match load tenantID e with
          | (e', false) => (e', None)
          | (e', true) =>
              match gc_state e' !! tenantID with
              | Some trie => (touchTenant now e' tenantID 0, Some trie)
              | None => (e', None)
              end
          end
      end
  end.

Definition set_policy_revision (r : DecisionResult) (rev : Z) : DecisionResult :=
  mkDecision rev (res_decision r) (res_reason r) (Explanations r) (res_obligations r).

(** [EngineWithGC.CheckPermission]; [canceled2] is the context when the
    package-level function tests it again. *)
Definition gc_CheckPermission (loader : LazyLoader) (now : Z) (canceled canceled2 : bool) (e : EngineWithGC)
    (tenantID subject action resource : string) (ctxMap : gmap string string) :
    EngineWithGC * DecisionResult :=
  if canceled then (e, deny ReasonGCCanceled)
  else
    let '(e', trie) := match gc_state e !! tenantID with
      | Some trie => (touchTenant now e tenantID 0, Some trie)
      | None => gc_GetTenantTrie loader now e tenantID
      end in
    match trie with
    | None => (e', deny ReasonGCTenantMissing)
    | Some t =>
        (e', set_policy_revision (CheckPermission canceled2 (Some t) subject action resource ctxMap)
               (Revision t))
    end.

Definition gc_GetTenantRevision (e : EngineWithGC) (tenantID : string) : Z :=
  GetTenantRevision (gc_state e) tenantID.
Definition gc_GetTenantSchema (e : EngineWithGC) (tenantID : string) : list string :=
  GetTenantSchema (gc_state e) tenantID.

(** ** Simulated decisions

    [SimulateDecision] copies the subject map of the live index but not its
    subject nodes: a tried policy whose principal has a node is added to the
    node the live index shares, and any other one to the copy alone.  These
    functions say what that comes to on values; [Simulate] proves them of the
    nodes as heap cells. *)

Definition leaks (t : TrieRoot) (simPolicy : option PolicyNode) : bool :=
  match simPolicy with
  | Some p => negb (is_global p)
              && bool_decide (is_Some (findSubjectNode (bucket (Subjects t) (buildKeyHash (Principal p)))
                                         (buildKey (Principal p))))
  | None => false
  end.

(** The live index after a simulation. *)
Definition simulated_live (t : TrieRoot) (simPolicy : option PolicyNode) : TrieRoot :=
  if leaks t simPolicy
  then mkTrieRoot (trie_tenant t) (Revision t) (trie_attributes t) (Subjects (AddPolicy t simPolicy))
         (GlobalPolicies t) (trie_dag t)
  else t.

(** The copy a simulation asks. *)
Definition simulation_trie (tenantID : string) (trie : option TrieRoot) (simPolicy : option PolicyNode) : TrieRoot :=
  AddPolicy (match trie with
             | Some t => mkTrieRoot tenantID 1 [] (Subjects t) (GlobalPolicies t) (trie_dag t)
             | None => NewTrieRoot tenantID
             end) simPolicy.

Definition simulate_live (e : EngineWithGC) (tenantID : string) (simPolicy : option PolicyNode) : EngineWithGC :=
  with_state e (alter (fun t => simulated_live t simPolicy) tenantID (gc_state e)).

(** [EngineWithGC.SimulateDecision]. *)
Definition gc_SimulateDecision (loader : LazyLoader) (now : Z) (canceled : bool) (e : EngineWithGC) (tenantID : string)
    (simPolicy : option PolicyNode) (subject action resource : string) (ctxMap : gmap string string) :
    EngineWithGC * DecisionResult :=
  let '(e', trie) := gc_GetTenantTrie loader now e tenantID in
  (simulate_live e' tenantID simPolicy,
   CheckPermission canceled (Some (simulation_trie tenantID trie simPolicy)) subject action resource ctxMap).
