(* ===== verification/EngineFacts.v ===== *)
(** * Invariants of the engine state

    Every index a reachable engine serves was built from one bundle of
    policies and role edges ([represents]), so its decisions are those of the
    abstract decision point on that bundle.  The steps are the critical
    sections of the operations, [SimulateDecision] included; an interleaving of
    concurrent callers is a sequence of them.  A ledger beside the engine keeps
    what was published for a tenant and what simulations tried, which the live
    index may serve too. *)

From S2P Require Import Prelude GoStr Ast Dag DagFacts Trie TrieFacts Evaluator Decision DecisionFacts Engine.
From stdpp Require Import relations fin_sets options.
Local Open Scope Z_scope.

(** ** The graph of a list of role edges *)

Definition graph_of (pairs : list (string * string)) : Adj :=
  foldl (fun a pc => add_edge a pc.1 pc.2) ∅ pairs.

Lemma graph_from_edge a pairs x y :
  edge (foldl (fun a pc => add_edge a pc.1 pc.2) a pairs) x y <-> edge a x y \/ (x, y) ∈ pairs.
Proof.
  revert a. induction pairs as [|[p c] pairs IH]; intros a; simpl.
  - split; [by left|]. by intros [?|?%not_elem_of_nil].
  - rewrite IH, edge_add, elem_of_cons. naive_solver.
Qed.

Lemma graph_of_edge pairs x y : edge (graph_of pairs) x y <-> (x, y) ∈ pairs.
Proof.
  unfold graph_of. rewrite graph_from_edge. unfold edge, neighbours. rewrite lookup_empty. simpl.
  split; [|by right]. by intros [?%not_elem_of_nil|].
Qed.

Lemma has_cycle_mono a b :
  (forall x y, edge a x y -> edge b x y) -> has_cycle a -> has_cycle b.
Proof.
  intros Hsub [x Hx]. exists x. revert Hx. generalize x at 1 3 as u.
  intros u Hx. induction Hx as [u v He|u v w He _ IH]; [by apply tc_once, Hsub|].
  eapply tc_l; [by apply Hsub|done].
Qed.

Lemma inherits_ext a b x y :
  (forall u v, edge a u v <-> edge b u v) -> inherits a x y -> inherits b x y.
Proof.
  intros Hext Hi. induction Hi as [x|x y z He _ IH]; [apply rtc_refl|].
  eapply rtc_l; [by apply Hext|done].
Qed.

(** ** Loading a role graph *)

Section Build.
Context `{RangeOrder}.

Lemma add_inheritances_ok seed g pairs g' :
  dag_wf g -> add_inheritances seed g pairs = Ok g' ->
  dag_wf g' /\ adj g' = foldl (fun a pc => add_edge a pc.1 pc.2) (adj g) pairs.
Proof.
  revert seed g. induction pairs as [|[p c] pairs IH]; intros seed g Hwf Hadd; simpl in *.
  - by injection Hadd as <-.
  - pose proof (AddInheritance_result seed g p c Hwf) as Hres.
    destruct (AddInheritance seed g p c) as [g1|e]; [|done]. simpl in Hadd.
    destruct Hres as (_ & Hwf1 & Hadj). rewrite <- Hadj. by eapply IH.
Qed.

Lemma add_inheritances_accepts seed g pairs :
  dag_wf g -> ~ has_cycle (foldl (fun a pc => add_edge a pc.1 pc.2) (adj g) pairs) ->
  exists g', add_inheritances seed g pairs = Ok g'.
Proof.
  revert seed g. induction pairs as [|[p c] pairs IH]; intros seed g Hwf Hac; simpl in *; [eauto|].
  assert (~ has_cycle (add_edge (adj g) p c)) as Hac1.
  { intros Hc. apply Hac. eapply has_cycle_mono; [|done]. intros x y He. apply graph_from_edge. by left. }
  pose proof (AddInheritance_result seed g p c Hwf) as Hres.
  destruct (AddInheritance seed g p c) as [g1|[|p' c']]; simpl.
  - destruct Hres as (_ & Hwf1 & Hadj). apply IH; [done|]. by rewrite Hadj.
  - subst. destruct Hac1. exists c. apply tc_once, edge_add. by right.
  - destruct Hres as (-> & -> & _ & Hi). destruct Hac1.
    apply has_cycle_add; [apply Hwf|done].
Qed.

(** ** What an index represents *)

(** A bundle: what one publication installs. *)
Record Bundle := mkBundle {
  bd_policies : list PolicyNode; bd_pairs : list (string * string); bd_revision : Z
}.

Definition represents (tid : string) (b : Bundle) (t : TrieRoot) : Prop :=
  exists g, dag_wf g /\ adj g = graph_of (bd_pairs b)
    /\ t = tenant_trie tid (bd_revision b) (mkTenant (bd_policies b) g).

Lemma buildTenantTrie_ok seed tid ps pairs rev t :
  buildTenantTrie seed tid ps pairs rev = Ok t -> represents tid (mkBundle ps pairs rev) t.
Proof.
  unfold buildTenantTrie. simpl.
  destruct (add_inheritances seed NewRoleDAG pairs) as [g|e] eqn:E; [|done]. intros [= <-].
  apply add_inheritances_ok in E as [Hwf Hadj]; [|apply NewRoleDAG_wf].
  by exists g.
Qed.

Lemma buildTenantTrie_accepts seed tid ps pairs rev :
  ~ has_cycle (graph_of pairs) -> exists t, buildTenantTrie seed tid ps pairs rev = Ok t.
Proof.
  intros Hac. destruct (add_inheritances_accepts seed NewRoleDAG pairs NewRoleDAG_wf Hac) as [g Hg].
  unfold buildTenantTrie. simpl. rewrite Hg. eauto.
Qed.

Lemma set_revision_add t p r :
  set_revision (AddPolicy t (Some p)) r = AddPolicy (set_revision t r) (Some p).
Proof. unfold AddPolicy, set_revision. by destruct (is_global p). Qed.

Lemma set_revision_build t ps r : set_revision (build_trie t ps) r = build_trie (set_revision t r) ps.
Proof.
  revert t. induction ps as [|p ps IH]; intros t; [done|].
  change (build_trie t (p :: ps)) with (build_trie (AddPolicy t (Some p)) ps).
  by rewrite IH, set_revision_add.
Qed.

Lemma represents_set_revision tid b t r :
  represents tid b t -> represents tid (mkBundle (bd_policies b) (bd_pairs b) r) (set_revision t r).
Proof.
  intros (g & Hwf & Hadj & ->). exists g. split_and!; [done..|].
  unfold tenant_trie. by rewrite set_revision_build.
Qed.

Lemma represents_fields tid b t :
  represents tid b t -> trie_tenant t = tid /\ Revision t = bd_revision b.
Proof.
  intros (g & _ & _ & ->). unfold tenant_trie. simpl.
  destruct (build_trie_frame (mkTrieRoot tid (bd_revision b) [] ∅ [] g) (bd_policies b)) as (-> & -> & _).
  done.
Qed.

(** An index some simulations wrote to: the policies [leaked] follow those of
    the bundle, in the indexes only; the attributes stay those of the bundle. *)
Definition set_attributes (t : TrieRoot) (attrs : list string) : TrieRoot :=
  mkTrieRoot (trie_tenant t) (Revision t) attrs (Subjects t) (GlobalPolicies t) (trie_dag t).

Definition represents_and (tid : string) (b : Bundle) (leaked : list PolicyNode) (t : TrieRoot) : Prop :=
  exists g, dag_wf g /\ adj g = graph_of (bd_pairs b)
    /\ t = set_attributes (tenant_trie tid (bd_revision b) (mkTenant (bd_policies b ++ leaked) g))
             (trie_attributes (tenant_trie tid (bd_revision b) (mkTenant (bd_policies b) g))).

Lemma represents_and_nil tid b t : represents_and tid b [] t <-> represents tid b t.
Proof.
  unfold represents_and, represents. rewrite app_nil_r.
  split; intros (g & Hwf & Hadj & ->); exists g; split_and!; try done; unfold set_attributes; by destruct (tenant_trie _ _ _).
Qed.

Lemma represents_and_fields tid b leaked t :
  represents_and tid b leaked t -> trie_tenant t = tid /\ Revision t = bd_revision b.
Proof.
  intros (g & _ & _ & ->). unfold tenant_trie. simpl.
  destruct (build_trie_frame (mkTrieRoot tid (bd_revision b) [] ∅ [] g) (bd_policies b ++ leaked)) as (-> & -> & _).
  done.
Qed.

(** A simulation adds the tried policy to what was leaked, or nothing. *)
Lemma simulated_represents tid b leaked t p :
  represents_and tid b leaked t ->
  represents_and tid b (if leaks t (Some p) then leaked ++ [p] else leaked) (simulated_live t (Some p)).
Proof.
  unfold simulated_live. intros (g & Hwf & Hadj & Ht).
  destruct (leaks t (Some p)) eqn:Hl; [|by exists g]. exists g. split_and!; [done..|].
  assert (is_global p = false) as Hg.
  { cbn [leaks] in Hl. apply andb_true_iff in Hl as [Hl _]. by apply negb_true_iff in Hl. }
  rewrite app_assoc. unfold tenant_trie at 1. cbn [tn_policies tn_roles]. unfold build_trie. rewrite foldl_app.
  fold (build_trie (mkTrieRoot tid (bd_revision b) [] ∅ [] g) (bd_policies b ++ leaked)).
  cbn [foldl]. rewrite Ht. unfold tenant_trie, set_attributes, AddPolicy. cbn [tn_policies tn_roles]. rewrite Hg. done.
Qed.
End Build.

(** ** Publication *)

Lemma stateWithTenant_eq st tid t : stateWithTenant st tid t = <[tid := t]> st.
Proof. unfold stateWithTenant. by rewrite insert_delete_eq. Qed.

Definition current_revision (st : Tenants) (tid : string) : Z := default 0 (Revision <$> st !! tid).

(** What a publication at a revision does, in every case. *)
Lemma publish_at_spec st tid t rev :
  match publish_at st tid t rev with
  | Err e => exists cur, st !! tid = Some cur /\ 0 < rev < Revision cur
                         /\ e = ErrStaleRevision tid (Revision cur) rev
  | Ok (st', false) => st' = st /\ exists cur, st !! tid = Some cur /\ rev = Revision cur /\ 0 < rev
  | Ok (st', true) => st' = <[tid := t]> st
                      /\ forall cur, st !! tid = Some cur -> rev <= 0 \/ Revision cur < rev
  end.
Proof.
  unfold publish_at, revisionIsStale, revisionIsDuplicate. destruct (st !! tid) as [cur|] eqn:E; simpl.
  - destruct ((0 <? rev) && (rev <? Revision cur)) eqn:Hs; bool_to_prop.
    + exists cur. split_and!; [done|lia|lia|done].
    + destruct ((0 <? rev) && (rev =? Revision cur)) eqn:Hd; bool_to_prop.
      * split; [done|]. exists cur. split_and!; [done|lia|lia].
      * rewrite stateWithTenant_eq. split; [done|]. intros ? [= <-].
        apply andb_false_iff in Hs, Hd. rewrite !Z.ltb_ge in Hs. rewrite Z.ltb_ge, Z.eqb_neq in Hd. lia.
  - rewrite stateWithTenant_eq. split; [done|]. by intros ? [=].
Qed.

(** ** The engine as a transition system *)

Section Steps.
Context `{RangeOrder}.

(** What callers handed to the engine: the bundles that were published and the
    policies simulations tried, each for a tenant. *)
Record Ledger := mkLedger {
  lg_published : list (string * Bundle);
  lg_tried : list (string * PolicyNode)
}.
Definition no_calls : Ledger := mkLedger [] [].
Definition add_published (lg : Ledger) (bs : list (string * Bundle)) : Ledger :=
  mkLedger (lg_published lg ++ bs) (lg_tried lg).
Definition add_tried (lg : Ledger) (tid : string) (p : PolicyNode) : Ledger :=
  mkLedger (lg_published lg) (lg_tried lg ++ [(tid, p)]).

Definition next_revision (st : Tenants) (tid : string) : Z :=
  match st !! tid with Some c => to_uint64 (Revision c + 1) | None => 1 end.

(** One critical section of some operation, by some goroutine, and what its
    caller handed over. *)
Inductive gc_step : EngineWithGC * Ledger -> EngineWithGC * Ledger -> Prop :=
| StepPublishAt e lg seed tid ps pairs rev t st swapped :
    buildTenantTrie seed tid ps pairs rev = Ok t ->
    publish_at (gc_state e) tid t rev = Ok (st, swapped) ->
    gc_step (e, lg) (with_state e st,
                     if swapped then add_published lg [(tid, mkBundle ps pairs rev)] else lg)
| StepPublishNext e lg seed tid ps pairs t :
    buildTenantTrie seed tid ps pairs 0 = Ok t ->
    gc_step (e, lg) (with_state e (publish_next (gc_state e) tid t),
                     add_published lg [(tid, mkBundle ps pairs (next_revision (gc_state e) tid))])
| StepTouch e lg now tid count : gc_step (e, lg) (touchTenant now e tid count, lg)
| StepUnload e lg tid : gc_step (e, lg) (UnloadTenant e tid, lg)
| StepSimulate e lg tid p : gc_step (e, lg) (simulate_live e tid (Some p), add_tried lg tid p)
| StepRestore e lg restored bs :
    gc_state e = ∅ ->
    (forall tid t, restored !! tid = Some t ->
       exists seed ps pairs rev, buildTenantTrie seed tid ps pairs rev = Ok t /\ (tid, mkBundle ps pairs rev) ∈ bs) ->
    gc_step (e, lg) (with_state e restored, add_published lg bs).

(** Every index was built from a bundle published for its own tenant, and what
    leaked into it was tried for that tenant. *)
Definition held_ok (lg : Ledger) (tid : string) (t : TrieRoot) : Prop :=
  exists b leaked, (tid, b) ∈ lg_published lg /\ (forall p, p ∈ leaked -> (tid, p) ∈ lg_tried lg)
    /\ represents_and tid b leaked t.
Definition state_ok (lg : Ledger) (st : Tenants) : Prop := forall tid t, st !! tid = Some t -> held_ok lg tid t.

Lemma publish_next_eq st tid t :
  publish_next st tid t
  = <[tid := set_revision t (next_revision st tid)]> st.
Proof. unfold publish_next. by rewrite stateWithTenant_eq. Qed.

Lemma UnloadTenant_state e tid : gc_state (UnloadTenant e tid) = delete tid (gc_state e).
Proof.
  unfold UnloadTenant. destruct (gc_state e !! tid) eqn:E; [done|]. by rewrite delete_id.
Qed.

Lemma held_ok_mono lg lg' tid t :
  lg_published lg ⊆ lg_published lg' -> lg_tried lg ⊆ lg_tried lg' -> held_ok lg tid t -> held_ok lg' tid t.
Proof. intros Hp Hs (b & leaked & Hb & Hl & Hr). exists b, leaked. split_and!; [by apply Hp|by eauto|done]. Qed.

Lemma add_published_ok lg bs st : state_ok lg st -> state_ok (add_published lg bs) st.
Proof. intros Hok tid t Ht. apply (held_ok_mono lg); [| |exact (Hok tid t Ht)]; cbn; [set_solver|done]. Qed.

(** A publication installs an index of the bundle it records. *)
Lemma insert_ok lg st tid t b :
  represents tid b t -> state_ok lg st -> state_ok (add_published lg [(tid, b)]) (<[tid := t]> st).
Proof.
  intros Hb Hst tid' t' [[<- <-]|[_ Ht]]%lookup_insert_Some; [|by apply (add_published_ok lg [(tid, b)] st Hst)].
  exists b, []. split_and!; [cbn; set_solver|by intros p ?%not_elem_of_nil|by apply represents_and_nil].
Qed.

Lemma simulate_ok lg e tid p :
  state_ok lg (gc_state e) -> state_ok (add_tried lg tid p) (gc_state (simulate_live e tid (Some p))).
Proof.
  intros Hok tid' t' Ht. cbn in Ht. apply lookup_alter_Some in Ht as [(<- & t & Ht & ->)|[_ Ht]].
  - destruct (Hok tid t Ht) as (b & leaked & Hb & Hl & Hr). eexists b, _.
    split_and!; [done| |by apply simulated_represents]. intros q Hq. cbn [add_tried lg_tried]. apply elem_of_app.
    destruct (leaks t (Some p)); [|by left; apply Hl].
    apply elem_of_app in Hq as [Hq| ->%list_elem_of_singleton]; [by left; apply Hl|right; by left].
  - apply (held_ok_mono lg); [done| |exact (Hok tid' t' Ht)]. cbn. set_solver.
Qed.

Lemma gc_step_ok s s' : gc_step s s' -> state_ok s.2 (gc_state s.1) -> state_ok s'.2 (gc_state s'.1).
Proof.
  intros Hstep Hok.
  destruct Hstep as [e lg seed tid ps pairs rev t st swapped Hb Hp|e lg seed tid ps pairs t Hb| | | |e lg restored bs He Hb];
    cbn [fst snd] in *.
  - pose proof (publish_at_spec (gc_state e) tid t rev) as Hs. rewrite Hp in Hs.
    destruct swapped; destruct Hs as [-> _]; [|done].
    apply insert_ok; [by eapply buildTenantTrie_ok|done].
  - cbn. rewrite publish_next_eq. apply insert_ok; [|done].
    by eapply (represents_set_revision tid (mkBundle ps pairs 0)), buildTenantTrie_ok.
  - done.
  - rewrite UnloadTenant_state. intros tid' t [_ Hl]%lookup_delete_Some. eauto.
  - by apply simulate_ok.
  - intros tid t Ht. destruct (Hb tid t Ht) as (seed & ps & pairs & rev & Hbt & Hin).
    exists (mkBundle ps pairs rev), []. split_and!; [cbn; set_solver|by intros p ?%not_elem_of_nil|].
    by eapply represents_and_nil, buildTenantTrie_ok.
Qed.

Lemma gc_reachable_ok cfg e lg :
  rtc gc_step (NewEngineWithGC cfg, no_calls) (e, lg) -> state_ok lg (gc_state e).
Proof.
  intros Hr. change (state_ok (e, lg).2 (gc_state (e, lg).1)). revert Hr.
  assert (state_ok (NewEngineWithGC cfg, no_calls).2 (gc_state (NewEngineWithGC cfg, no_calls).1)) as Hinit by done.
  intros Hr. induction Hr as [|x y z Hs _ IH]; [done|]. apply IH. by eapply gc_step_ok.
Qed.

(** The decision of an index is the abstract decision on its bundle: on its
    policies, under the role hierarchy its edges generate. *)
Definition bundle_allows (b : Bundle) (rq : Request) : Prop :=
  exists g, dag_wf g /\ adj g = graph_of (bd_pairs b)
    /\ pdp_allows (mkTenant (bd_policies b) g) rq.
Definition bundle_denies (b : Bundle) (rq : Request) : Prop :=
  exists g, dag_wf g /\ adj g = graph_of (bd_pairs b)
    /\ ~ pdp_allows (mkTenant (bd_policies b) g) rq.

(** A bundle with the policies that leaked. *)
Definition and_leaked (b : Bundle) (leaked : list PolicyNode) : Bundle :=
  mkBundle (bd_policies b ++ leaked) (bd_pairs b) (bd_revision b).
Lemma and_leaked_nil b : and_leaked b [] = b.
Proof. unfold and_leaked. rewrite app_nil_r. by destruct b. Qed.

Lemma represents_decides tid b leaked t rq :
  represents_and tid b leaked t -> hash_separates (normalizeAction (rq_action rq)) ->
  match res_decision (evaluatePermission t (rq_subject rq) (rq_action rq) (rq_resource rq) (rq_context rq)) with
  | DecisionAllow => bundle_allows (and_leaked b leaked) rq
  | DecisionDeny => bundle_denies (and_leaked b leaked) rq
  end.
Proof.
  intros (g & Hwf & Hadj & ->) Hsep.
  pose proof (engine_refines tid (bd_revision b) (mkTenant (bd_policies b ++ leaked) g) rq Hwf Hsep) as Hr.
  unfold engine_decides in Hr.
  change (evaluatePermission (set_attributes ?t _)) with (evaluatePermission t).
  destruct (res_decision _); exists g; (split_and!; [done|done|]).
  - intros Ha. by discriminate (proj2 Hr Ha).
  - by apply Hr.
Qed.

(** ** The steps of the operations *)

(** [e'] is reached from [e] by publications, touches, unloads and restores, no
    simulation among them. *)
Definition calls (e e' : EngineWithGC) : Prop :=
  forall lg, exists bs, rtc gc_step (e, lg) (e', add_published lg bs).

Lemma add_published_nil lg : add_published lg [] = lg.
Proof. unfold add_published. rewrite app_nil_r. by destruct lg. Qed.
Lemma add_published_app lg bs bs' : add_published (add_published lg bs) bs' = add_published lg (bs ++ bs').
Proof. unfold add_published. cbn. by rewrite app_assoc. Qed.

#[export] Instance calls_preorder : PreOrder calls.
Proof.
  split.
  - intros e lg. exists []. rewrite add_published_nil. apply rtc_refl.
  - intros e1 e2 e3 H12 H23 lg. destruct (H12 lg) as [bs Hs]. destruct (H23 (add_published lg bs)) as [bs' Hs'].
    exists (bs ++ bs'). rewrite <- add_published_app. by etransitivity.
Qed.

(** A step that publishes nothing. *)
Lemma calls_step e e' : (forall lg, gc_step (e, lg) (e', lg)) -> calls e e'.
Proof. intros Hs lg. exists []. rewrite add_published_nil. by apply rtc_once. Qed.
Lemma calls_touch e now tid count : calls e (touchTenant now e tid count).
Proof. apply calls_step. intros lg. apply StepTouch. Qed.
Lemma calls_unload e tid : calls e (UnloadTenant e tid).
Proof. apply calls_step. intros lg. apply StepUnload. Qed.

Lemma calls_reachable cfg e : calls (NewEngineWithGC cfg) e ->
  exists bs, rtc gc_step (NewEngineWithGC cfg, no_calls) (e, mkLedger bs []).
Proof. intros Hc. destruct (Hc no_calls) as [bs Hs]. by exists bs. Qed.

(** Without a simulation every index is exactly one of a published bundle. *)
Lemma calls_ok cfg e tid t : calls (NewEngineWithGC cfg) e -> gc_state e !! tid = Some t ->
  exists b, represents tid b t.
Proof.
  intros [bs Hs]%calls_reachable Ht. destruct (gc_reachable_ok _ _ _ Hs tid t Ht) as (b & leaked & _ & Hl & Hr).
  destruct leaked as [|p leaked]; [exists b; by apply represents_and_nil|].
  specialize (Hl p ltac:(by left)). cbn in Hl. by apply not_elem_of_nil in Hl.
Qed.

Lemma publication_steps seed now e tid ps pairs rev e' :
  gc_UpdateTenantPoliciesWithRevision seed now e tid ps pairs rev = Ok e' ->
  forall lg, rtc gc_step (e, lg) (e', lg) \/ rtc gc_step (e, lg) (e', add_published lg [(tid, mkBundle ps pairs rev)]).
Proof.
  unfold gc_UpdateTenantPoliciesWithRevision.
  destruct (buildTenantTrie seed tid ps pairs rev) as [t|] eqn:Hb; simpl; [|done].
  destruct (publish_at (gc_state e) tid t rev) as [[st sw]|] eqn:Hp; simpl; [|done].
  destruct sw; intros [= <-] lg; [right|left; apply rtc_refl].
  eapply rtc_l; [by eapply (StepPublishAt e lg)|]. apply rtc_once, StepTouch.
Qed.

Lemma update_revision_steps seed now e tid ps pairs rev e' :
  gc_UpdateTenantPoliciesWithRevision seed now e tid ps pairs rev = Ok e' -> calls e e'.
Proof.
  intros Hu lg. destruct (publication_steps _ _ _ _ _ _ _ _ Hu lg); [|by eexists].
  exists []. by rewrite add_published_nil.
Qed.

Lemma update_steps seed now e tid ps pairs e' :
  gc_UpdateTenantPolicies seed now e tid ps pairs = Ok e' -> calls e e'.
Proof.
  unfold gc_UpdateTenantPolicies.
  destruct (buildTenantTrie seed tid ps pairs 0) as [t|] eqn:Hb; simpl; [|done]. intros [= <-] lg. eexists.
  eapply rtc_l; [by eapply StepPublishNext|]. apply rtc_once, StepTouch.
Qed.

Lemma unload_all_steps e tids : calls e (foldl UnloadTenant e tids).
Proof.
  revert e. induction tids as [|tid tids IH]; intros e; simpl; [done|].
  etransitivity; [apply calls_unload|apply IH].
Qed.

Lemma gc_cycle_steps now e : calls e (runGCCycle now e).
Proof. apply unload_all_steps. Qed.

(** A callback that goes through the operations of the engine. *)
Definition loader_ok (loader : LazyLoader) : Prop :=
  forall load tid e, loader = Some load -> calls e (load tid e).1.

Lemma get_trie_steps loader now e tid :
  loader_ok loader -> calls e (gc_GetTenantTrie loader now e tid).1.
Proof.
  intros Hl. unfold gc_GetTenantTrie. destruct (gc_state e !! tid); [apply calls_touch|].
  destruct loader as [load|]; [|done]. specialize (Hl load tid e eq_refl).
  destruct (load tid e) as [e1 []]; simpl in *; [|done].
  destruct (gc_state e1 !! tid); simpl; [|done]. etransitivity; [done|apply calls_touch].
Qed.

Lemma check_permission_steps loader now c c2 e tid s a r ctx :
  loader_ok loader -> calls e (gc_CheckPermission loader now c c2 e tid s a r ctx).1.
Proof.
  intros Hl. unfold gc_CheckPermission. destruct c; [done|].
  pose proof (get_trie_steps loader now e tid Hl) as Hg.
  destruct (gc_state e !! tid) as [t|].
  - simpl. apply calls_touch.
  - destruct (gc_GetTenantTrie loader now e tid) as [e1 [t|]]; done.
Qed.

(** A simulation loads the tenant if it has to, and then tries the policy. *)
Lemma simulate_steps loader now canceled e tid p s a r ctx lg :
  loader_ok loader ->
  exists bs, rtc gc_step (e, lg)
    ((gc_SimulateDecision loader now canceled e tid (Some p) s a r ctx).1, add_tried (add_published lg bs) tid p).
Proof.
  intros Hl. unfold gc_SimulateDecision. destruct (get_trie_steps loader now e tid Hl lg) as [bs Hs]. exists bs.
  destruct (gc_GetTenantTrie loader now e tid) as [e1 trie]. cbn [fst] in *. eapply rtc_r; [exact Hs|]. apply StepSimulate.
Qed.
End Steps.

(** The answer of an engine to a request that is not canceled. *)
Definition answer (loader : LazyLoader) (now : Z) (e : EngineWithGC) (tid : string) (rq : Request) :
    DecisionResult :=
  (gc_CheckPermission loader now false false e tid (rq_subject rq) (rq_action rq) (rq_resource rq)
     (rq_context rq)).2.

Definition answers_for (b : Bundle) (rq : Request) (r : DecisionResult) : Prop :=
  PolicyRevision r = bd_revision b
  /\ match res_decision r with
     | DecisionAllow => bundle_allows b rq
     | DecisionDeny => bundle_denies b rq
     end.

Lemma trie_answers tid b leaked t rq :
  represents_and tid b leaked t -> hash_separates (normalizeAction (rq_action rq)) ->
  answers_for (and_leaked b leaked) rq
    (set_policy_revision (evaluatePermission t (rq_subject rq) (rq_action rq) (rq_resource rq) (rq_context rq)) (Revision t)).
Proof.
  intros Hb Hsep. split; [by apply (represents_and_fields tid b leaked t)|]. by apply represents_decides with tid.
Qed.

(** The answer is a denial, for a context that is done or a tenant that is not
    found, or it is the evaluation of the index the lookup returns. *)
Lemma check_permission_asked loader now c c2 e tid s a r ctx :
  let asked := (gc_GetTenantTrie loader now e tid).2 in
  let res := (gc_CheckPermission loader now c c2 e tid s a r ctx).2 in
  (res_decision res = DecisionDeny /\ (c = true \/ c2 = true \/ asked = None))
  \/ exists t, asked = Some t /\ res = set_policy_revision (evaluatePermission t s a r ctx) (Revision t).
Proof.
  cbv zeta. unfold gc_CheckPermission. destruct c; [left; split; [done|by left]|].
  assert (forall e' o, o = (gc_GetTenantTrie loader now e tid).2 ->
    let res := (match o with
                | None => (e', deny ReasonGCTenantMissing)
                | Some t => (e' : EngineWithGC, set_policy_revision (CheckPermission c2 (Some t) s a r ctx) (Revision t))
                end).2 in
    (res_decision res = DecisionDeny /\ (false = true \/ c2 = true \/ (gc_GetTenantTrie loader now e tid).2 = None))
    \/ exists t, (gc_GetTenantTrie loader now e tid).2 = Some t
         /\ res = set_policy_revision (evaluatePermission t s a r ctx) (Revision t)) as Hcase.
  { intros e' o <-. destruct o as [t|]; [|left; split; [done|by right; right]].
    destruct c2; [left; split; [done|by right; left]|right; by exists t]. }
  destruct (gc_state e !! tid) as [t|] eqn:E.
  - apply (Hcase (touchTenant now e tid 0) (Some t)). unfold gc_GetTenantTrie. by rewrite E.
  - specialize (Hcase (gc_GetTenantTrie loader now e tid).1 _ eq_refl). by destruct (gc_GetTenantTrie loader now e tid).
Qed.

Lemma answer_represents_and loader now e tid t b leaked rq :
  gc_state e !! tid = Some t -> represents_and tid b leaked t ->
  hash_separates (normalizeAction (rq_action rq)) ->
  answers_for (and_leaked b leaked) rq (answer loader now e tid rq).
Proof.
  intros Ht Hb Hsep. unfold answer, gc_CheckPermission. rewrite Ht. by eapply trie_answers.
Qed.

Lemma answer_represents loader now e tid t b rq :
  gc_state e !! tid = Some t -> represents tid b t ->
  hash_separates (normalizeAction (rq_action rq)) ->
  answers_for b rq (answer loader now e tid rq).
Proof.
  intros Ht Hb Hsep. rewrite <- (and_leaked_nil b).
  by eapply answer_represents_and; [|apply represents_and_nil|].
Qed.

(** ** Garbage collection *)

Lemma unload_all_state e tids :
  gc_state (foldl UnloadTenant e tids) = base.filter (fun kt => kt.1 ∉ tids) (gc_state e).
Proof.
  revert e. induction tids as [|tid tids IH]; intros e; simpl.
  - apply map_eq. intros k. apply option_eq. intros t. rewrite map_lookup_filter_Some. simpl.
    split; [|naive_solver]. intros ?. split; [done|]. apply not_elem_of_nil.
  - rewrite IH, UnloadTenant_state. apply map_eq. intros k. apply option_eq. intros t.
    rewrite !map_lookup_filter_Some, lookup_delete_Some. simpl. rewrite not_elem_of_cons. naive_solver.
Qed.

Definition is_idle (now : Z) (e : EngineWithGC) (tid : string) : Prop :=
  exists r, accessRecords e !! tid = Some r /\ maxIdleTime e < to_int64 (now - lastAccessNano r).

Lemma idle_tenants_spec now e tid : tid ∈ idle_tenants now e <-> is_idle now e tid.
Proof.
  unfold idle_tenants, is_idle. rewrite list_elem_of_fmap. split.
  - intros ([k r] & -> & Hin). apply list_elem_of_filter in Hin as [Hlt Hin]. simpl in *.
    apply elem_of_map_to_list in Hin. eauto.
  - intros (r & Hr & Hlt). exists (tid, r). split; [done|]. apply list_elem_of_filter.
    split; [done|]. by apply elem_of_map_to_list.
Qed.

(** ** Properties *)

(** C3: an engine reached by any interleaving of publications, restores,
    touches, unloads and simulations answers every request of a tenant it holds
    from one of the bundles that were published for that tenant, at the revision
    of that bundle: policies, role edges and revision are never mixed.  To the
    policies of the bundle nothing is added but policies a simulation tried for
    this tenant, and so nothing at all when none was tried.  The action of the
    request must not be one whose hash is that of the wildcard. *)
Theorem reachable_engine_answers `{RangeOrder} (cfg : GCConfig) (e : EngineWithGC) (lg : Ledger) (tid : string)
    (t : TrieRoot) (loader : LazyLoader) (now : Z) (rq : Request)
    (Hreach : rtc gc_step (NewEngineWithGC cfg, no_calls) (e, lg)) (Ht : gc_state e !! tid = Some t)
    (Hsep : hash_separates (normalizeAction (rq_action rq))) :
  exists b leaked, (tid, b) ∈ lg_published lg /\ (forall p, p ∈ leaked -> (tid, p) ∈ lg_tried lg)
    /\ answers_for (and_leaked b leaked) rq (answer loader now e tid rq).
Proof.
  destruct (gc_reachable_ok cfg e lg Hreach tid t Ht) as (b & leaked & Hb & Hl & Hr). exists b, leaked.
  split_and!; [done..|]. by eapply answer_represents_and.
Qed.

(** A publication at a newer revision takes effect at once and alone: the
    tenant is answered from the new policies, role edges and revision, and
    every other tenant keeps its index. *)
Theorem publish_then_answer `{RangeOrder} (seed : nat) (now now' : Z) (e e' : EngineWithGC) (tid : string)
    (ps : list PolicyNode) (pairs : list (string * string)) (rev : Z) (loader : LazyLoader) (rq : Request)
    (Hup : gc_UpdateTenantPoliciesWithRevision seed now e tid ps pairs rev = Ok e')
    (Hnew : current_revision (gc_state e) tid < rev)
    (Hsep : hash_separates (normalizeAction (rq_action rq))) :
  answers_for (mkBundle ps pairs rev) rq (answer loader now' e' tid rq)
  /\ forall tid', tid' <> tid -> gc_state e' !! tid' = gc_state e !! tid'.
Proof.
  unfold gc_UpdateTenantPoliciesWithRevision in Hup.
  destruct (buildTenantTrie seed tid ps pairs rev) as [t|] eqn:Hb; simpl in Hup; [|done].
  apply buildTenantTrie_ok in Hb. pose proof (publish_at_spec (gc_state e) tid t rev) as Hp.
  destruct (publish_at (gc_state e) tid t rev) as [[st sw]|] eqn:E; simpl in Hup; [|done].
  unfold current_revision in Hnew. destruct sw.
  - destruct Hp as [-> _]. injection Hup as <-. split.
    + eapply answer_represents; [|done|done]. simpl. by rewrite lookup_insert_eq.
    + intros tid' Hne. simpl. by rewrite lookup_insert_ne.
  - destruct Hp as [_ (cur & Hcur & -> & _)]. rewrite Hcur in Hnew. simpl in Hnew. lia.
Qed.

(** Revisions of a tenant never go back: a publication at a positive
    revision is refused as stale exactly when the engine holds a newer one,
    changes nothing when it holds the same one, and otherwise installs it. *)
Theorem publish_revision_monotone `{RangeOrder} (seed : nat) (now : Z) (e : EngineWithGC) (tid : string)
    (ps : list PolicyNode) (pairs : list (string * string)) (rev : Z)
    (Hacyclic : ~ has_cycle (graph_of pairs)) (Hrev : 0 < rev) :
  let cur := current_revision (gc_state e) tid in
  match gc_UpdateTenantPoliciesWithRevision seed now e tid ps pairs rev with
  | Err err => rev < cur /\ err = ErrStaleRevision tid cur rev
  | Ok e' => cur <= rev /\ current_revision (gc_state e') tid = rev /\ (cur = rev -> e' = e)
  end.
Proof.
  destruct (buildTenantTrie_accepts seed tid ps pairs rev Hacyclic) as [t Hb].
  unfold gc_UpdateTenantPoliciesWithRevision. rewrite Hb. cbn [rbind].
  apply buildTenantTrie_ok, represents_fields in Hb as [_ Hrevt]. simpl in Hrevt.
  pose proof (publish_at_spec (gc_state e) tid t rev) as Hp. unfold current_revision.
  destruct (publish_at (gc_state e) tid t rev) as [[st []]|err]; cbn [rbind].
  - destruct Hp as [-> Hcur]. simpl. rewrite lookup_insert_eq. simpl.
    destruct (gc_state e !! tid) as [c|]; simpl in *; [|split_and!; lia].
    destruct (Hcur c eq_refl); split_and!; lia.
  - destruct Hp as [-> (c & Hc & -> & _)]. rewrite Hc. simpl. split_and!; done.
  - destruct Hp as (c & Hc & Hlt & ->). rewrite Hc. simpl. split; [lia|done].
Qed.

(** Concurrent publications of one tenant are confluent: whichever of two
    revisions wins the mutex, the engine ends with the newer index. *)
Theorem concurrent_publish_confluent (st : Tenants) (tid : string) (t1 t2 : TrieRoot) (r1 r2 : Z)
    (H1 : Revision t1 = r1) (H2 : Revision t2 = r2) (Hr : 0 < r1 < r2)
    (Hcur : current_revision st tid < r2) :
  let run := fun t r st => match publish_at st tid t r with Ok (st', _) => st' | Err _ => st end in
  run t2 r2 (run t1 r1 st) = <[tid := t2]> st /\ run t1 r1 (run t2 r2 st) = <[tid := t2]> st.
Proof.
  cbv zeta. unfold current_revision in Hcur. split.
  - set (st1 := match publish_at st tid t1 r1 with Ok (st', _) => st' | Err _ => st end).
    assert ((st1 = st \/ st1 = <[tid := t1]> st)) as Hst1.
    { subst st1. pose proof (publish_at_spec st tid t1 r1) as Hp.
      destruct (publish_at st tid t1 r1) as [[? []]|]; [|by left; apply Hp|by left]. right. apply Hp. }
    pose proof (publish_at_spec st1 tid t2 r2) as Hp.
    assert (default 0 (Revision <$> st1 !! tid) < r2) as Hlt.
    { destruct Hst1 as [->| ->]; [done|]. rewrite lookup_insert_eq. simpl. lia. }
    destruct (publish_at st1 tid t2 r2) as [[? []]|].
    + destruct Hp as [-> _]. destruct Hst1 as [->| ->]; [done|]. by rewrite insert_insert_eq.
    + destruct Hp as [_ (c & Hc & -> & _)]. rewrite Hc in Hlt. simpl in Hlt. lia.
    + destruct Hp as (c & Hc & ? & _). rewrite Hc in Hlt. simpl in Hlt. lia.
  - pose proof (publish_at_spec st tid t2 r2) as Hp.
    destruct (publish_at st tid t2 r2) as [[? []]|].
    + destruct Hp as [-> _]. pose proof (publish_at_spec (<[tid := t2]> st) tid t1 r1) as Hp1.
      destruct (publish_at (<[tid := t2]> st) tid t1 r1) as [[? []]|]; [| |done].
      * destruct Hp1 as [_ Hp1]. destruct (Hp1 t2); [by rewrite lookup_insert_eq|lia|lia].
      * by destruct Hp1 as [-> _].
    + destruct Hp as [_ (c & Hc & -> & _)]. rewrite Hc in Hcur. simpl in Hcur. lia.
    + destruct Hp as (c & Hc & ? & _). rewrite Hc in Hcur. simpl in Hcur. lia.
Qed.

(** A collection cycle unloads exactly the tenants whose last access lies
    further back than the idle limit, and leaves every other index as it is. *)
Theorem gc_cycle_unloads_idle (now : Z) (e : EngineWithGC) (tid : string) (t : TrieRoot) :
  gc_state (runGCCycle now e) !! tid = Some t
  <-> gc_state e !! tid = Some t /\ ~ is_idle now e tid.
Proof.
  unfold runGCCycle. rewrite unload_all_state, map_lookup_filter_Some. simpl.
  by rewrite idle_tenants_spec.
Qed.

(** ** Witnesses *)

Definition sample_config : GCConfig := mkGCConfig true 0 0 0.
Definition sample_pairs : list (string * string) := [("role:root", "role:admin")].
Definition sample_policies : list PolicyNode := tn_policies sample_tenant.
Definition sample_update (e : EngineWithGC) (rev : Z) : result EngineError EngineWithGC :=
  gc_UpdateTenantPoliciesWithRevision (H := sorted_range) 0 7 e "t" sample_policies sample_pairs rev.
Definition sample_engine : EngineWithGC :=
  match sample_update (NewEngineWithGC sample_config) 5 with Ok e => e | Err _ => NewEngineWithGC sample_config end.
Definition sample_trie : TrieRoot := default (NewTrieRoot "none") (gc_state sample_engine !! "t").
Definition root_request : Request := mkRequest "role:root" "READ" "file:report" ∅.

(** The sample bundle is published, a simulation tries a policy for a principal
    that has policies, and the index has changed. *)
Definition tried_policy : PolicyNode :=
  sample_policy "tried" EffectPermit (eq_scope "role" "admin") (eq_scope "action" "DELETE") any_scope NodeNil.
Definition simulated_engine : EngineWithGC := simulate_live sample_engine "t" (Some tried_policy).
Definition simulated_ledger : Ledger :=
  mkLedger [("t"%string, mkBundle sample_policies sample_pairs 5)] [("t"%string, tried_policy)].
Definition simulated_trie : TrieRoot := default (NewTrieRoot "none") (gc_state simulated_engine !! "t").

Lemma simulated_run : rtc (gc_step (H := sorted_range)) (NewEngineWithGC sample_config, no_calls) (simulated_engine, simulated_ledger).
Proof.
  eapply rtc_r; [|exact (StepSimulate (H := sorted_range) sample_engine
                           (add_published no_calls [("t"%string, mkBundle sample_policies sample_pairs 5)]) "t" tried_policy)].
  eapply rtc_l; [|apply rtc_once, (StepTouch (H := sorted_range) _ _ 7 "t" (Z.of_nat (length sample_policies)))].
  eapply (StepPublishAt (H := sorted_range) _ no_calls 0 "t" sample_policies sample_pairs 5 sample_trie _ true); vm_compute; reflexivity.
Qed.

Lemma reachable_engine_answers_witness :
  leaks sample_trie (Some tried_policy) = true
  /\ exists b leaked, ("t"%string, b) ∈ lg_published simulated_ledger
    /\ (forall p, p ∈ leaked -> ("t"%string, p) ∈ lg_tried simulated_ledger)
    /\ answers_for (and_leaked b leaked) root_request (answer None 9 simulated_engine "t" root_request).
Proof.
  split; [vm_compute; reflexivity|].
  apply (reachable_engine_answers (H := sorted_range) sample_config simulated_engine simulated_ledger "t" simulated_trie).
  - exact simulated_run.
  - vm_compute. reflexivity.
  - intros H. vm_compute in H. discriminate H.
Defined.

Lemma publish_then_answer_witness :
  answers_for (mkBundle sample_policies sample_pairs 5) root_request
    (answer None 9 sample_engine "t" root_request).
Proof.
  eapply (publish_then_answer (H := sorted_range) 0 7 9 (NewEngineWithGC sample_config)).
  - vm_compute. reflexivity.
  - vm_compute. reflexivity.
  - intros H. vm_compute in H. discriminate H.
Defined.

Lemma sample_pairs_acyclic : ~ has_cycle (graph_of sample_pairs).
Proof.
  intros H. apply (hasCycle_spec (H := sorted_range) 0) in H. vm_compute in H. discriminate H.
Qed.

Lemma publish_revision_monotone_witness :
  match sample_update sample_engine 3 with
  | Err err => 3 < 5 /\ err = ErrStaleRevision "t" 5 3
  | Ok e' => False
  end.
Proof.
  pose proof (publish_revision_monotone (H := sorted_range) 0 7 sample_engine "t" sample_policies
    sample_pairs 3 sample_pairs_acyclic ltac:(lia)) as H.
  vm_compute in H. vm_compute. exact H.
Defined.

Definition empty_trie (rev : Z) : TrieRoot := mkTrieRoot "t" rev [] ∅ [] NewRoleDAG.
Definition no_tenants : Tenants := ∅.

Lemma concurrent_publish_confluent_witness :
  match publish_at no_tenants "t" (empty_trie 2) 2 with
  | Ok (st, _) => match publish_at st "t" (empty_trie 1) 1 with Ok (st', _) => st' | Err _ => st end
  | Err _ => no_tenants
  end = <["t" := empty_trie 2]> no_tenants.
Proof.
  pose proof (concurrent_publish_confluent no_tenants "t" (empty_trie 1) (empty_trie 2) 1 2
    eq_refl eq_refl ltac:(lia) ltac:(vm_compute; reflexivity)) as [_ H].
  exact H.
Defined.
