(* ===== verification/CacheCollector.v ===== *)
(** * The collector of idle tenants ([internal/engine/engine_gc.go])

    [gcWorker] next to the requests and the publications it races with.  A
    step is a critical section: a lookup that found its tenant, the touch that
    follows it, the swap of a publication and its touch, the visit of one
    record by [Range], the unloading of one tenant.  [Range] is no snapshot: it
    visits every record that stays, some of those that come meanwhile, each
    as it is then. *)

From S2P Require Import Prelude GoStr Ast Dag Trie Evaluator Decision Engine EngineFacts.
From stdpp Require Import options.
Local Open Scope Z_scope.

(** Where the goroutine is: not started, waiting for a tick, in [Range] with
    the records it still has to visit, unloading what it found, or returned. *)
Inductive Collector :=
| GcNotStarted
| GcWaiting
| GcScanning (now : Z) (due : gset string) (found : list string)
| GcUnloading (found : list string)
| GcReturned.

(** [ch_touches] are the touches that are due: tenant and policy count. *)
Record Cache := mkCache {
  ch_engine : EngineWithGC;
  ch_collector : Collector;
  ch_stopped : bool;
  ch_canceled : bool;
  ch_touches : list (string * Z)
}.

Definition NewCache (cfg : GCConfig) : Cache := mkCache (NewEngineWithGC cfg) GcNotStarted false false [].
Definition with_engine_of (c : Cache) (e : EngineWithGC) : Cache :=
  mkCache e (ch_collector c) (ch_stopped c) (ch_canceled c) (ch_touches c).
Definition with_collector (c : Cache) (g : Collector) : Cache :=
  mkCache (ch_engine c) g (ch_stopped c) (ch_canceled c) (ch_touches c).
Definition with_touches (c : Cache) (ts : list (string * Z)) : Cache :=
  mkCache (ch_engine c) (ch_collector c) (ch_stopped c) (ch_canceled c) ts.

(** [StartGC]: the goroutine runs only when collection is enabled. *)
Definition StartGC (c : Cache) : Cache := if gcEnabled (ch_engine c) then with_collector c GcWaiting else c.
(** [StopGC]; [None] is the panic of closing a closed channel. *)
Definition StopGC (c : Cache) : option Cache :=
  if ch_stopped c then None
  else Some (mkCache (ch_engine c) (ch_collector c) true (ch_canceled c) (ch_touches c)).

Inductive CacheEvent :=
| GcTick (now : Z)
| GcVisit (tid : string)
| GcScanned
| GcUnload
| GcStopSeen
| CacheHit (tid : string) (count : Z)
| CacheStore (seed : nat) (tid : string) (policies : list PolicyNode) (inheritances : list (string * string)) (revision : Z)
| CacheTouch (i : nat) (now : Z)
| CacheCancel.

Section Collecting.
Context `{RangeOrder}.

(** The test of [Range]'s callback on one record. *)
Definition record_idle (now : Z) (e : EngineWithGC) (tid : string) : bool :=
  match accessRecords e !! tid with
  | Some r => maxIdleTime e <? to_int64 (now - lastAccessNano r)
  | None => false
  end.

Definition collector_step (c : Cache) (ev : CacheEvent) : option Cache :=
  let e := ch_engine c in
  match ev, ch_collector c with
  | GcTick now, GcWaiting => Some (with_collector c (GcScanning now (dom (accessRecords e)) []))
  | GcVisit tid, GcScanning now due found =>
      match accessRecords e !! tid with
      | None => None
      | Some _ => Some (with_collector c (GcScanning now (due ∖ {[tid]})
                          (if record_idle now e tid then found ++ [tid] else found)))
      end
  | GcScanned, GcScanning _ due found =>
      (* a record that left needs no visit *)
      if bool_decide (due ∩ dom (accessRecords e) = ∅) then Some (with_collector c (GcUnloading found)) else None
  | GcUnload, GcUnloading (tid :: found) => Some (with_engine_of (with_collector c (GcUnloading found)) (UnloadTenant e tid))
  | GcUnload, GcUnloading [] => Some (with_collector c GcWaiting)
  | GcStopSeen, GcWaiting => if ch_stopped c || ch_canceled c then Some (with_collector c GcReturned) else None
  | _, _ => None
  end.

(** [None] for an event that cannot happen in the state. *)
Definition cache_event (c : Cache) (ev : CacheEvent) : option Cache :=
  let e := ch_engine c in
  match ev with
  | CacheHit tid count =>
      match gc_state e !! tid with
      | None => None
      | Some _ => Some (with_touches c (ch_touches c ++ [(tid, count)]))
      end
  | CacheStore seed tid policies inheritances revision =>
      match buildTenantTrie seed tid policies inheritances revision with
      | Err _ => Some c
      | Ok t =>
          match publish_at (gc_state e) tid t revision with
          | Err _ | Ok (_, false) => Some c
          | Ok (st, true) => Some (with_touches (with_engine_of c (with_state e st)) (ch_touches c ++ [(tid, Z.of_nat (length policies))]))
          end
      end
  | CacheTouch i now =>
      match ch_touches c !! i with
      | None => None
      | Some (tid, count) => Some (with_touches (with_engine_of c (touchTenant now e tid count)) (delete i (ch_touches c)))
      end
  | CacheCancel => Some (mkCache e (ch_collector c) (ch_stopped c) true (ch_touches c))
  | _ => collector_step c ev
  end.

Fixpoint run_cache (c : Cache) (evs : list CacheEvent) : option Cache :=
  match evs with
  | [] => Some c
  | ev :: evs' => c' ← cache_event c ev; run_cache c' evs'
  end.

(** ** Theorems *)

Definition loaded (c : Cache) (tid : string) : Prop := is_Some (gc_state (ch_engine c) !! tid).
Definition recorded (c : Cache) (tid : string) : Prop := is_Some (accessRecords (ch_engine c) !! tid).

(** What a step does to the tenants, to the records and to the touches that are due. *)
Inductive cache_change (c c' : Cache) : CacheEvent -> Prop :=
| ChangedNothing ev : gc_state (ch_engine c') = gc_state (ch_engine c) ->
    accessRecords (ch_engine c') = accessRecords (ch_engine c) ->
    (forall t, t ∈ ch_touches c' <-> t ∈ ch_touches c \/ ev = CacheHit t.1 t.2) -> cache_change c c' ev
| ChangedUnload tid : ch_collector c = GcUnloading (tid :: match ch_collector c' with GcUnloading f => f | _ => [] end) ->
    ch_engine c' = UnloadTenant (ch_engine c) tid -> ch_touches c' = ch_touches c -> cache_change c c' GcUnload
| ChangedStore seed tid policies inheritances revision t : gc_state (ch_engine c') = <[tid := t]> (gc_state (ch_engine c)) ->
    accessRecords (ch_engine c') = accessRecords (ch_engine c) ->
    ch_touches c' = ch_touches c ++ [(tid, Z.of_nat (length policies))] ->
    cache_change c c' (CacheStore seed tid policies inheritances revision)
| ChangedTouch i now tid count : ch_touches c !! i = Some (tid, count) -> ch_engine c' = touchTenant now (ch_engine c) tid count ->
    ch_touches c' = delete i (ch_touches c) -> cache_change c c' (CacheTouch i now).

Lemma no_hit (ts : list (string * Z)) ev : (forall tid count, ev <> CacheHit tid count) ->
  forall t, t ∈ ts <-> t ∈ ts \/ ev = CacheHit t.1 t.2.
Proof. intros Hne t. split; [tauto|intros [?| ->]; [done|by edestruct Hne]]. Qed.

Lemma cache_event_change c ev c' : cache_event c ev = Some c' ->
  cache_change c c' ev /\ maxIdleTime (ch_engine c') = maxIdleTime (ch_engine c).
Proof.
  intros Hev. destruct ev as [now|tid| | | |tid count|seed tid ps pairs rev|i now|]; cbn [cache_event collector_step] in Hev.
  6:{ case_match; [|done]. injection Hev as <-. split; [|done]. apply ChangedNothing; [done|done|].
      intros [k n]. cbn. rewrite elem_of_app, list_elem_of_singleton. naive_solver. }
  6:{ destruct (buildTenantTrie _ _ _ _ _) as [t|]; [|injection Hev as <-; split; [apply ChangedNothing; [done|done|by apply no_hit]|done]].
      destruct (publish_at _ _ _ _) as [[st []]|] eqn:Hp; injection Hev as <-;
        [|split; [apply ChangedNothing; [done|done|by apply no_hit]|done]..]. split; [|done].
      unfold publish_at in Hp. destruct (revisionIsStale _ _ _); [done|]. destruct (revisionIsDuplicate _ _ _); [done|].
      apply Ok_inj in Hp as [= <-]. eapply ChangedStore; [|done|done]. cbn. by rewrite stateWithTenant_eq. }
  6:{ destruct (ch_touches c !! i) as [[tid count]|] eqn:E; [|done]. injection Hev as <-. split; [|done].
      by eapply ChangedTouch. }
  6:{ injection Hev as <-. split; [apply ChangedNothing; [done|done|by apply no_hit]|done]. }
  all: destruct (ch_collector c) as [| |now' due found|[|tid' found]|] eqn:Ec; try done.
  - injection Hev as <-. split; [apply ChangedNothing; [done|done|by apply no_hit]|done].
  - case_match; [|done]. injection Hev as <-. split; [apply ChangedNothing; [done|done|by apply no_hit]|done].
  - case_match; [|done]. injection Hev as <-. split; [apply ChangedNothing; [done|done|by apply no_hit]|done].
  - injection Hev as <-. split; [apply ChangedNothing; [done|done|by apply no_hit]|done].
  - injection Hev as <-. split; [by eapply ChangedUnload; [rewrite Ec|..]|]. cbn. unfold UnloadTenant. by case_match.
  - case_match; [|done]. injection Hev as <-. split; [apply ChangedNothing; [done|done|by apply no_hit]|done].
Qed.

(** ** One cycle *)

(** The steps of a cycle that began at [now]: no other tick, and a clock that does not go back. *)
Definition in_cycle (now : Z) (ev : CacheEvent) : Prop :=
  match ev with GcTick _ => False | CacheTouch _ now' => now <= now' <= now + 2 ^ 62 | _ => True end.
(** A step that neither uses nor publishes [tid]. *)
Definition leaves_alone (tid : string) (ev : CacheEvent) : Prop :=
  match ev with CacheHit tid' _ | CacheStore _ tid' _ _ _ => tid' <> tid | _ => True end.

Definition found_of (g : Collector) : list string :=
  match g with GcScanning _ _ found | GcUnloading found => found | _ => [] end.

Lemma touch_records now e tid count tid' : accessRecords (touchTenant now e tid count) !! tid'
  = if decide (tid = tid') then Some (mkAccess now (if 0 <? count then count else policyCount (default (mkAccess 0 0) (accessRecords e !! tid))))
    else accessRecords e !! tid'.
Proof. unfold touchTenant. cbn. case_decide; [subst; by rewrite lookup_insert_eq|by rewrite lookup_insert_ne]. Qed.
Lemma unload_records e tid tid' : accessRecords (UnloadTenant e tid) !! tid'
  = if decide (tid = tid' /\ is_Some (gc_state e !! tid)) then None else accessRecords e !! tid'.
Proof.
  unfold UnloadTenant. destruct (gc_state e !! tid) eqn:E.
  - cbn. destruct (decide (tid = tid')) as [<-|]; [rewrite decide_True by (split; [done|by eexists]); by rewrite lookup_delete_eq|].
    rewrite decide_False by tauto. by rewrite lookup_delete_ne.
  - rewrite decide_False; [done|]. by intros [_ [? ?]].
Qed.

(** Where the goroutine is and what it found after a step. *)
Lemma collector_moves c ev c' now : cache_event c ev = Some c' -> in_cycle now ev ->
  ch_collector c' = ch_collector c
  \/ match ev, ch_collector c with
     | GcVisit tid, GcScanning now due found =>
         ch_collector c' = GcScanning now (due ∖ {[tid]}) (if record_idle now (ch_engine c) tid then found ++ [tid] else found)
         /\ is_Some (accessRecords (ch_engine c) !! tid) /\ ch_engine c' = ch_engine c /\ ch_touches c' = ch_touches c
     | GcScanned, GcScanning _ due found =>
         ch_collector c' = GcUnloading found /\ due ∩ dom (accessRecords (ch_engine c)) = ∅
         /\ ch_engine c' = ch_engine c /\ ch_touches c' = ch_touches c
     | GcUnload, GcUnloading (_ :: found) => ch_collector c' = GcUnloading found
     | GcUnload, GcUnloading [] => ch_collector c' = GcWaiting
     | GcStopSeen, GcWaiting => ch_collector c' = GcReturned
     | _, _ => False
     end.
Proof.
  intros Hev Hin. destruct ev; cbn [cache_event collector_step in_cycle] in Hev, Hin; try done;
    repeat case_match; simplify_eq; cbn; eauto; right; try done; bool_to_prop; split_and!; done || by eexists.
Qed.

(** What keeps a tenant through a cycle: it is loaded, not idle and not found. *)
Definition safe_in (now : Z) (tid : string) (c : Cache) : Prop :=
  loaded c tid /\ record_idle now (ch_engine c) tid = false /\ tid ∉ found_of (ch_collector c)
  /\ match ch_collector c with GcScanning now' _ _ => now' = now | GcNotStarted => False | _ => True end.

Lemma safe_step now tid c ev c' : 0 <= maxIdleTime (ch_engine c) -> cache_event c ev = Some c' -> in_cycle now ev ->
  safe_in now tid c -> safe_in now tid c'.
Proof.
  intros Hmax Hev Hin (Hl & Hi & Hf & Hg). pose proof (cache_event_change c ev c' Hev) as [Hc Hm].
  assert (tid ∉ found_of (ch_collector c')
          /\ match ch_collector c' with GcScanning now' _ _ => now' = now | GcNotStarted => False | _ => True end) as Hg'.
  { destruct (collector_moves c ev c' now Hev Hin) as [->|Hmv]; [by split|].
    destruct ev, (ch_collector c) as [| |now' due found|[|tid' found]|]; try done; destruct_and?;
      try match goal with E : ch_collector c' = _ |- _ => rewrite E end; cbn in *.
    - subst now'. split; [|done]. destruct (record_idle now (ch_engine c) tid0) eqn:E; [|done].
      rewrite elem_of_app, list_elem_of_singleton. intros [?| ->]; [done|]. congruence.
    - done.
    - split; [apply not_elem_of_nil|done].
    - rewrite not_elem_of_cons in Hf. by destruct Hf.
    - split; [apply not_elem_of_nil|done]. }
  unfold safe_in, loaded, record_idle in *. rewrite Hm. destruct Hg' as [Hf' Hg']. split_and!; try done.
  - destruct Hc as [ev Hs _ _|tid' Hcol -> _|seed tid' ps pairs rev t Hs _ _|i now' tid' count _ -> _].
    + by rewrite Hs.
    + rewrite UnloadTenant_state. rewrite Hcol in Hf. cbn in Hf. apply not_elem_of_cons in Hf as [Hne _].
      by rewrite lookup_delete_ne.
    + rewrite Hs. destruct (decide (tid' = tid)) as [->|]; [by rewrite lookup_insert_eq; eexists|by rewrite lookup_insert_ne].
    + done.
  - destruct Hc as [ev _ Hr _|tid' Hcol -> _|seed tid' ps pairs rev t _ Hr _|i now' tid' count _ -> _].
    + by rewrite Hr.
    + rewrite unload_records. case_decide; [done|exact Hi].
    + by rewrite Hr.
    + rewrite touch_records. case_decide; [|exact Hi]. cbn [in_cycle lastAccessNano] in *. apply Z.ltb_ge.
      rewrite to_int64_id by (unfold is_int64, min_int64, max_int64; lia). lia.
Qed.

(** What a tenant that is idle goes through when nobody uses it. *)
Definition doomed_in (now : Z) (tid : string) (c : Cache) : Prop :=
  Forall (fun t => t.1 <> tid) (ch_touches c)
  /\ (gc_state (ch_engine c) !! tid = None
      \/ record_idle now (ch_engine c) tid = true
         /\ match ch_collector c with
            | GcScanning now' due found => now' = now /\ (tid ∈ due \/ tid ∈ found)
            | GcUnloading found => tid ∈ found
            | _ => False
            end).

Lemma doomed_step now tid c ev c' : cache_event c ev = Some c' -> in_cycle now ev -> leaves_alone tid ev ->
  doomed_in now tid c -> doomed_in now tid c'.
Proof.
  intros Hev Hin Hal (Ht & Hd). pose proof (cache_event_change c ev c' Hev) as [Hc Hm].
  assert (Forall (fun t => t.1 <> tid) (ch_touches c')) as Ht'.
  { rewrite Forall_forall in *. destruct Hc as [ev _ _ Heq|tid' _ _ ->|seed tid' ps pairs rev t _ _ ->|i now' tid' count _ _ ->].
    - intros p [Hin'| ->]%Heq; [by apply Ht|exact Hal].
    - exact Ht.
    - intros p [Hin'| ->%list_elem_of_singleton]%elem_of_app; [by apply Ht|exact Hal].
    - intros p Hin'. apply Ht. by eapply list_elem_of_delete_inv. }
  split; [done|]. destruct Hd as [Hd|[Hi Hg]].
  { left. destruct Hc as [ev -> _ _|tid' _ -> _|seed tid' ps pairs rev t -> _ _|i now' tid' count _ -> _]; try done.
    - rewrite UnloadTenant_state. destruct (decide (tid' = tid)) as [->|]; [apply lookup_delete_eq|by rewrite lookup_delete_ne].
    - by rewrite lookup_insert_ne. }
  assert (gc_state (ch_engine c') !! tid = None \/ record_idle now (ch_engine c') tid = true) as [Hgone|Hi'].
  { unfold record_idle in *. rewrite Hm.
    destruct Hc as [ev _ -> _|tid' _ -> _|seed tid' ps pairs rev t _ -> _|i now' tid' count Hlk -> _]; [by right| |by right|].
    - rewrite UnloadTenant_state, unload_records. case_decide as Hdec; [|by right]. destruct Hdec as [-> _]. left. apply lookup_delete_eq.
    - right. rewrite touch_records, decide_False; [done|]. intros ->. apply list_elem_of_lookup_2 in Hlk.
      rewrite Forall_forall in Ht. by apply Ht in Hlk. }
  { by left. }
  destruct (collector_moves c ev c' now Hev Hin) as [->|Hmv]; [by right|].
  destruct ev, (ch_collector c) as [| |now' due found|[|tid' found]|] eqn:Ec; try done; destruct_and? Hmv;
    try match goal with E : ch_collector c' = _ |- _ => rewrite E end; try by right.
  - right. split; [done|]. destruct Hg as [-> Hg]. split; [done|]. destruct (decide (tid0 = tid)) as [->|].
    + right. rewrite Hi. apply elem_of_app. right. by apply list_elem_of_singleton.
    + destruct Hg as [Hg|Hg]; [left; set_solver|right]. case_match; [|done]. apply elem_of_app. by left.
  - right. split; [done|]. destruct Hg as [-> [Hg|Hg]]; [exfalso|done].
    unfold record_idle in Hi. destruct (accessRecords (ch_engine c) !! tid) eqn:Er; [|done].
    assert (tid ∈ dom (accessRecords (ch_engine c))) by (by apply elem_of_dom; eexists). set_solver.
  - by apply not_elem_of_nil in Hg.
  - apply elem_of_cons in Hg as [->|Hg]; [left|by right].
    cbn [cache_event collector_step] in Hev. rewrite Ec in Hev. injection Hev as <-. cbn. rewrite UnloadTenant_state. apply lookup_delete_eq.
Qed.

Lemma run_cache_invariant (P : Cache -> Prop) (Q : CacheEvent -> Prop) :
  (forall c ev c', cache_event c ev = Some c' -> Q ev -> P c -> P c') ->
  forall evs c c', run_cache c evs = Some c' -> Forall Q evs -> P c -> P c'.
Proof.
  intros Hstep evs. induction evs as [|ev evs IH]; intros c c'; cbn; [by intros [= <-]|].
  destruct (cache_event c ev) as [c1|] eqn:E; [|done]. intros Hr [Hq Hqs]%Forall_cons Hp. eapply IH; [done|done|]. by eapply Hstep.
Qed.

Lemma run_cache_max evs c c' : run_cache c evs = Some c' -> maxIdleTime (ch_engine c') = maxIdleTime (ch_engine c).
Proof.
  intros Hr. eapply (run_cache_invariant (fun x => maxIdleTime (ch_engine x) = maxIdleTime (ch_engine c)) (fun _ => True)); [|done| |done].
  - intros x ev y Hev _ Hx. by rewrite (proj2 (cache_event_change x ev y Hev)).
  - by apply Forall_true.
Qed.

(** ** Properties *)

(** C15: Whatever requests and publications do during a cycle, a tenant in memory
    that was not idle when the cycle began is in memory when it ends, and one
    that was idle and is neither used nor published meanwhile is not. *)
Theorem collector_takes_exactly_the_idle (c c1 c2 : Cache) (now : Z) (evs : list CacheEvent) (tid : string)
    (Hlimit : 0 <= maxIdleTime (ch_engine c)) (Hloaded : loaded c tid) (Htick : cache_event c (GcTick now) = Some c1)
    (Hrun : run_cache c1 evs = Some c2) (Hcycle : Forall (in_cycle now) evs) (Hend : ch_collector c2 = GcUnloading []) :
  (~ is_idle now (ch_engine c) tid -> loaded c2 tid)
  /\ (is_idle now (ch_engine c) tid -> Forall (fun t => t.1 <> tid) (ch_touches c) -> Forall (leaves_alone tid) evs -> ~ loaded c2 tid).
Proof.
  assert (is_idle now (ch_engine c) tid <-> record_idle now (ch_engine c) tid = true) as Hidle.
  { unfold is_idle, record_idle. destruct (accessRecords (ch_engine c) !! tid) as [r|]; [|naive_solver].
    rewrite Z.ltb_lt. split; [intros (r' & [= <-] & ?); done|eauto]. }
  cbn [cache_event collector_step] in Htick. destruct (ch_collector c) eqn:Ec; try done. injection Htick as <-. split.
  - intros Hn. assert (safe_in now tid c2) as [Hl _]; [|done].
    assert (maxIdleTime (ch_engine c2) = maxIdleTime (ch_engine c) /\ safe_in now tid c2) as [_ ?]; [|done].
    refine (run_cache_invariant (fun x => maxIdleTime (ch_engine x) = maxIdleTime (ch_engine c) /\ safe_in now tid x) _ _ _ _ _ Hrun Hcycle _).
    + intros x ev y Hev Hin [Hx Hs]. split; [by rewrite (proj2 (cache_event_change x ev y Hev))|].
      eapply safe_step; [by rewrite Hx|done|done|done].
    + split; [done|]. split_and!; [done| |apply not_elem_of_nil|done]. apply not_true_is_false. by rewrite <- Hidle.
  - intros Hi Ht Hal. assert (doomed_in now tid c2) as [_ [Hd|[_ Hd]]].
    + assert (Forall (fun ev => in_cycle now ev /\ leaves_alone tid ev) evs) as Hboth by (by apply Forall_and).
      refine (run_cache_invariant (doomed_in now tid) _ _ _ _ _ Hrun Hboth _).
      * intros x ev y Hev [Hin Hl] Hd. by eapply doomed_step.
      * split; [done|]. right. split; [by apply Hidle|]. split; [done|]. left. apply elem_of_dom.
        destruct Hi as (r & Hr & _). by eexists.
    + unfold loaded. rewrite Hd. by intros [? [=]].
    + rewrite Hend in Hd. by apply not_elem_of_nil in Hd.
Qed.

(** The collector can reach every tenant in memory: each has an access record,
    or a touch that will make one is due. *)
Theorem loaded_tenant_is_recorded (cfg : GCConfig) (c : Cache) (evs : list CacheEvent) (tid : string)
    (Hrun : run_cache (StartGC (NewCache cfg)) evs = Some c) (Hloaded : loaded c tid) :
  recorded c tid \/ exists count, (tid, count) ∈ ch_touches c.
Proof.
  revert tid Hloaded.
  assert (Forall (fun _ => True) evs) as Hq by by apply Forall_true.
  refine (run_cache_invariant (fun c => forall tid, loaded c tid -> recorded c tid \/ exists count, (tid, count) ∈ ch_touches c)
            _ _ _ _ _ Hrun Hq _).
  - intros x ev y Hev _ Hx tid. unfold loaded, recorded in *. apply cache_event_change in Hev as [Hc _].
    destruct Hc as [ev -> -> Heq|tid' _ -> ->|seed tid' ps pairs rev t -> -> ->|i now' tid' count Hlk -> ->].
    + intros [?|[count ?]]%Hx; [by left|]. right. exists count. apply Heq. by left.
    + rewrite UnloadTenant_state, unload_records. intros [t [Hne Ht]%lookup_delete_Some].
      rewrite decide_False by (by intros [? _]). apply Hx. by eexists.
    + destruct (decide (tid' = tid)) as [->|]; [right; exists (Z.of_nat (length ps)); apply elem_of_app; right; by apply list_elem_of_singleton|].
      rewrite lookup_insert_ne by done. intros [?|[count ?]]%Hx; [by left|]. right. exists count. apply elem_of_app. by left.
    + rewrite touch_records. case_decide as Hdec; [intros _; left; by eexists|]. intros [?|[n Hn]]%Hx; [by left|]. right. exists n.
      apply delete_Permutation in Hlk. rewrite Hlk in Hn. apply elem_of_cons in Hn as [[= -> ->]|Hn]; done.
  - intros tid [t Ht]. unfold StartGC in Ht. by case_match.
Qed.

Definition publishes_nothing (tid : string) (ev : CacheEvent) : Prop :=
  match ev with CacheStore _ tid' _ _ _ => tid' <> tid | _ => True end.

(** Only a publication brings a tenant back. *)
Lemma absent_step tid c ev c' : cache_event c ev = Some c' -> publishes_nothing tid ev -> ~ loaded c tid -> ~ loaded c' tid.
Proof.
  intros Hev Hq Hl. unfold loaded in *. apply cache_event_change in Hev as [Hc _].
  destruct Hc as [ev -> _ _|tid' _ -> _|seed tid' ps pairs rev t -> _ _|i now' tid' count Hlk -> _]; [done| | |done].
  - rewrite UnloadTenant_state. intros [t [_ ?]%lookup_delete_Some]. apply Hl. by eexists.
  - by rewrite lookup_insert_ne.
Qed.
Lemma absent_run tid evs c c' : run_cache c evs = Some c' -> Forall (publishes_nothing tid) evs -> ~ loaded c tid -> ~ loaded c' tid.
Proof. exact (run_cache_invariant (fun c => ~ loaded c tid) (publishes_nothing tid) (absent_step tid) evs c c'). Qed.

(** A record whose tenant is not in memory, left by a touch that came after the
    unloading, is never removed unless the tenant is published again: every
    later cycle finds it idle and tries again in vain. *)
Theorem orphan_record_stays (c c' : Cache) (evs : list CacheEvent) (tid : string)
    (Horphan : recorded c tid /\ ~ loaded c tid)
    (Hrun : run_cache c evs = Some c') (Hstore : Forall (publishes_nothing tid) evs) :
  recorded c' tid /\ ~ loaded c' tid.
Proof.
  refine (run_cache_invariant (fun c => recorded c tid /\ ~ loaded c tid) _ _ _ _ _ Hrun Hstore Horphan). clear.
  intros x ev y Hev Hq [Hr Hl]. split; [|by eapply absent_step].
  unfold loaded, recorded in *. apply cache_event_change in Hev as [Hc _].
  destruct Hc as [ev _ -> _|tid' _ -> _|seed tid' ps pairs rev t _ -> _|i now' tid' count Hlk -> _]; [done| |done|].
  - rewrite unload_records, decide_False; [done|]. by intros [-> ?].
  - rewrite touch_records. case_decide; [by eexists|done].
Qed.
End Collecting.

(** ** Witnesses *)

Section Samples.
#[local] Existing Instance sorted_range.

Definition runs_cache (c : Cache) (evs : list CacheEvent) : bool := if run_cache c evs then true else false.
Definition cache_after (c : Cache) (evs : list CacheEvent) : Cache := default c (run_cache c evs).
Lemma cache_runs c evs : runs_cache c evs = true -> run_cache c evs = Some (cache_after c evs).
Proof. unfold runs_cache, cache_after. by destruct (run_cache c evs). Qed.

Definition publish_events : list CacheEvent := [CacheStore 0 "t" sample_policies sample_pairs 5; CacheTouch 0 7].
Definition loaded_cache : Cache := cache_after (StartGC (NewCache sample_config)) publish_events.
(** A day and an hour later a request arrives between the visit and the unloading. *)
Definition late : Z := 25 * hour_ns.
Definition cycle_events : list CacheEvent := [GcVisit "t"; GcScanned; GcUnload].
Definition racing_events : list CacheEvent := [GcTick late; GcVisit "t"; CacheHit "t" 0; GcScanned; GcUnload; CacheTouch 0 late; GcUnload].
Definition orphaned_cache : Cache := cache_after loaded_cache racing_events.

Lemma loaded_tenant : gc_state (ch_engine loaded_cache) !! "t"%string <> None.
Proof. vm_compute. discriminate. Qed.
Lemma sample_loaded : loaded loaded_cache "t".
Proof. unfold loaded. destruct (gc_state (ch_engine loaded_cache) !! "t"%string) eqn:E; [by eexists|by apply loaded_tenant in E]. Qed.

Lemma collector_takes_exactly_the_idle_witness :
  let c1 := with_collector loaded_cache (GcScanning late (dom (accessRecords (ch_engine loaded_cache))) []) in
  (~ is_idle late (ch_engine loaded_cache) "t" -> loaded (cache_after c1 cycle_events) "t")
  /\ (is_idle late (ch_engine loaded_cache) "t" -> Forall (fun t => t.1 <> "t"%string) (ch_touches loaded_cache) ->
      Forall (leaves_alone "t") cycle_events -> ~ loaded (cache_after c1 cycle_events) "t").
Proof.
  intros c1. apply (collector_takes_exactly_the_idle loaded_cache c1 (cache_after c1 cycle_events) late cycle_events "t").
  - vm_compute. discriminate.
  - exact sample_loaded.
  - assert (ch_collector loaded_cache = GcWaiting) as Hc by (vm_compute; reflexivity).
    cbn [cache_event collector_step]. by rewrite Hc.
  - apply cache_runs. vm_compute. reflexivity.
  - repeat constructor.
  - vm_compute. reflexivity.
Defined.

Lemma loaded_tenant_is_recorded_witness : recorded loaded_cache "t" \/ exists count, ("t"%string, count) ∈ ch_touches loaded_cache.
Proof.
  apply (loaded_tenant_is_recorded sample_config loaded_cache publish_events "t").
  - apply cache_runs. vm_compute. reflexivity.
  - exact sample_loaded.
Defined.

(** The race leaves a record without a tenant; the next cycle changes nothing. *)
Lemma orphaned : recorded orphaned_cache "t" /\ ~ loaded orphaned_cache "t".
Proof.
  unfold recorded, loaded. split.
  - assert (accessRecords (ch_engine orphaned_cache) !! "t"%string = Some (mkAccess late 0)) as -> by (vm_compute; reflexivity). by eexists.
  - assert (gc_state (ch_engine orphaned_cache) !! "t"%string = None) as -> by (vm_compute; reflexivity). by intros [? [=]].
Qed.
Lemma orphan_record_stays_witness :
  let evs := [GcTick (2 * late); GcVisit "t"; GcScanned; GcUnload; GcUnload] in
  recorded (cache_after orphaned_cache evs) "t" /\ ~ loaded (cache_after orphaned_cache evs) "t".
Proof.
  intros evs. apply (orphan_record_stays orphaned_cache (cache_after orphaned_cache evs) evs "t").
  - exact orphaned.
  - apply cache_runs. vm_compute. reflexivity.
  - repeat constructor.
Defined.
End Samples.
