(* ===== verification/Roles.v ===== *)
(** * Validation of a role graph before it is stored
    ([internal/storage/policy_bundle.go], [validateRoleInheritances])

    The storage layer checks a replacement role graph before writing it; the
    engine checks the same graph again, edge by edge, when it loads it. *)

From S2P Require Import Prelude GoStr Ast Dag DagFacts Trie TrieFacts DecisionFacts Engine EngineFacts.
From stdpp Require Import relations fin_sets options.
Local Open Scope Z_scope.

Inductive RoleError :=
| EndpointNotTrimmed | EndpointTooLong | SelfEdge (role : string)
| DuplicateEdge (parent child : string) | RoleCycle.

Definition append_edge (edges : Adj) (parent child : string) : Adj :=
  <[parent := neighbours edges parent ++ [child]]> edges.

(** The loop over the pairs: the edges, unless a pair is refused. *)
Fixpoint collect_edges (pairs : list (string * string)) (seen : gset (string * string)) (edges : Adj) :
    result RoleError Adj :=
  match pairs with
  | [] => Ok edges
  | (p0, c0) :: rest =>
      let parent := trim_space p0 in
      let child := trim_space c0 in
      guard? bool_decide (parent = "") || bool_decide (child = "")
             || negb (bool_decide (parent = p0)) || negb (bool_decide (child = c0))
        else EndpointNotTrimmed;
      guard? (255 <? go_len parent) || (255 <? go_len child) else EndpointTooLong;
      guard? bool_decide (parent = child) else SelfEdge parent;
      guard? bool_decide ((p0, c0) ∈ seen) else DuplicateEdge parent child;
      collect_edges rest ({[(p0, c0)]} ∪ seen) (append_edge edges parent child)
  end.

(** The depth-first search: [Gray] for a node with [visiting] set, [Black] for
    one with [visited] set (no node has both); true is the cycle error. *)
Section Visit.
Variable rec : string -> Visited -> option (bool * Visited).

Fixpoint visit_children (node : string) (children : list string) (vis : Visited) :
    option (bool * Visited) :=
  match children with
  | [] => Some (false, <[node := Black]> vis)
  | c :: cs =>
      match rec c vis with
      | None => None
      | Some (true, vis') => Some (true, vis')
      | Some (false, vis') => visit_children node cs vis'
      end
  end.
End Visit.

Fixpoint visit (fuel : nat) (edges : Adj) (node : string) (vis : Visited) : option (bool * Visited) :=
  match fuel with
  | O => None
  | S f =>
      match vis !! node with
      | Some Gray => Some (true, vis)
      | Some Black => Some (false, vis)
      | None => visit_children (visit f edges) node (neighbours edges node) (<[node := Gray]> vis)
      end
  end.

(** [for parent := range edges { if err := visit(parent); ... }]. *)
Fixpoint visit_all (edges : Adj) (ks : list string) (vis : Visited) : option bool :=
  match ks with
  | [] => Some false
  | k :: ks' =>
      match visit (S (graph_size edges)) edges k vis with
      | None => None
      | Some (true, _) => Some true
      | Some (false, vis') => visit_all edges ks' vis'
      end
  end.

Definition validateRoleInheritances `{RangeOrder} (seed : nat) (pairs : list (string * string)) :
    result RoleError unit :=
  let? edges := collect_edges pairs ∅ ∅ in
  guard? default true (visit_all edges (range_keys seed (dom edges)) ∅) else RoleCycle;
  Ok tt.

(** ** The storage check of a role graph and the engine's agree

    [validateRoleInheritances] accepts exactly the graphs whose edges are
    well-formed, distinct and acyclic; every graph it accepts is loaded by the
    engine, in whatever order the database returns the edges. *)

(** *** The two depth-first searches *)

Lemma visit_children_eq f edges node ns vis r :
  (forall n v r, v !! n = None -> cycle_dfs f edges n v = Some r -> visit (S f) edges n v = Some r) ->
  cycle_loop (cycle_dfs f edges) node ns vis = Some r ->
  visit_children (visit (S f) edges) node ns vis = Some r.
Proof.
  intros Hrec. revert vis. induction ns as [|n ns IH]; intros vis Hl; cbn [cycle_loop visit_children] in *; [done|].
  destruct (vis !! n) as [[]|] eqn:Hn.
  - cbn [visit]. by rewrite Hn.
  - cbn [visit]. rewrite Hn. auto.
  - destruct (cycle_dfs f edges n vis) as [[b v]|] eqn:E; [|done].
    rewrite (Hrec n vis (b, v) Hn E). destruct b; [done|auto].
Qed.

Lemma visit_eq f edges n vis r :
  vis !! n = None -> cycle_dfs f edges n vis = Some r -> visit (S f) edges n vis = Some r.
Proof.
  revert n vis r. induction f as [|f IH]; intros n vis r Hn Hc; [done|].
  change (cycle_loop (cycle_dfs f edges) n (neighbours edges n) (<[n := Gray]> vis) = Some r) in Hc.
  cbn [visit]. rewrite Hn. by apply (visit_children_eq f edges).
Qed.

Lemma visit_all_spec edges ks vis :
  (forall k, k ∈ ks -> k ∈ dom edges) -> black_ok edges vis ->
  (forall x, vis !! x <> Some Gray) ->
  (forall k, k ∈ dom edges -> k ∈ ks \/ vis !! k = Some Black) ->
  visit_all edges ks vis = cycle_from edges ks vis.
Proof.
  revert vis. induction ks as [|k ks IH]; intros vis Hks Hb Hng Hall; [done|].
  cbn [visit_all cycle_from].
  assert (forall k', k' ∈ ks -> k' ∈ dom edges) as Hks' by set_solver.
  destruct (vis !! k) as [[]|] eqn:E; [by destruct (Hng k)| |].
  - assert (visit (S (graph_size edges)) edges k vis = Some (false, vis)) as ->.
    { cbn [visit]. by rewrite E. }
    apply IH; auto. intros k' Hk'. destruct (Hall k' Hk') as [H|]; [|by right].
    apply elem_of_cons in H as [->|]; auto.
  - destruct (cycle_dfs_spec edges (size (graph_nodes edges)) k vis) as ([b vis'] & Hr & [Hd Hp] & Hsame).
    { split_and!; try done; [apply dom_graph_nodes; set_solver|]. by intros g ?%Hng. }
    { apply subseteq_size. set_solver. }
    fold (graph_size edges) in Hr. rewrite (visit_eq _ _ _ _ _ E Hr), Hr. destruct b; [done|].
    destruct Hp as [Hb' Hk]. destruct (Hsame eq_refl) as [Hg1 Hg2]. cbn [fst snd] in *.
    apply IH; auto.
    + intros x Hx. apply (Hng x). by apply Hg1.
    + intros k' Hk'. destruct (Hall k' Hk') as [H|H]; [|by right; apply Hg2].
      apply elem_of_cons in H as [->|]; auto.
Qed.

Lemma visit_all_hasCycle `{RangeOrder} seed edges :
  default true (visit_all edges (range_keys seed (dom edges)) ∅) = hasCycle seed edges.
Proof.
  unfold hasCycle. f_equal. apply visit_all_spec.
  - intros k. rewrite range_keys_perm. set_solver.
  - intros b Hb. by rewrite lookup_empty in Hb.
  - intros x. by rewrite lookup_empty.
  - intros k Hk. left. rewrite range_keys_perm. set_solver.
Qed.

(** *** The pairs *)

(** What the loop requires of one pair. *)
Definition pair_ok (pc : string * string) : Prop :=
  trim_space pc.1 = pc.1 /\ trim_space pc.2 = pc.2 /\ pc.1 <> "" /\ pc.2 <> ""
  /\ go_len pc.1 <= 255 /\ go_len pc.2 <= 255 /\ pc.1 <> pc.2.

Lemma collect_edges_ok pairs seen edges edges' :
  collect_edges pairs seen edges = Ok edges' <->
  Forall pair_ok pairs /\ NoDup pairs /\ (forall pc, pc ∈ pairs -> pc ∉ seen)
  /\ edges' = foldl (fun a pc => add_edge a pc.1 pc.2) edges pairs.
Proof.
  revert seen edges. induction pairs as [|[p c] pairs IH]; intros seen edges; cbn [collect_edges foldl].
  { split; [|by intros (_ & _ & _ & ->)]. intros [= <-].
    split_and!; [constructor|constructor|by intros ? ?%not_elem_of_nil|done]. }
  rewrite Forall_cons, NoDup_cons. split.
  - intros Hc. inv_result. bool_to_prop. apply IH in Hc as (Hall & Hnd & Hseen & ->).
    repeat match goal with H : _ || _ = false |- _ => apply orb_false_iff in H as [? ?] end.
    bool_to_prop. split_and!; try done.
    + unfold pair_ok. cbn [fst snd]. split_and!; try congruence; rewrite ?H0, ?H1 in *; try lia; done.
    + intros Hin. apply (Hseen (p, c) Hin). set_solver.
    + intros pc [->|Hin]%elem_of_cons; [done|]. specialize (Hseen pc Hin). set_solver.
    + cbn [fst snd]. unfold append_edge, add_edge. congruence.
  - intros ([(Hp & Hc & Hp0 & Hc0 & Hpl & Hcl & Hne) Hall] & [Hn Hnd] & Hseen & ->).
    cbn [fst snd] in *. rewrite Hp, Hc. rewrite !bool_decide_false, !bool_decide_true by done.
    rewrite !(proj2 (Z.ltb_ge _ _)) by done. cbn [negb orb].
    rewrite !bool_decide_false by first [done|apply Hseen; by left]. apply IH. split_and!; try done.
    intros pc Hin [->%elem_of_singleton|Hs]%elem_of_union; [done|].
    by apply (Hseen pc); [right|].
Qed.

Lemma validate_spec `{RangeOrder} seed pairs :
  validateRoleInheritances seed pairs = Ok tt <->
  Forall pair_ok pairs /\ NoDup pairs /\ ~ has_cycle (graph_of pairs).
Proof.
  unfold validateRoleInheritances. split.
  - intros Hv. destruct (collect_edges pairs ∅ ∅) as [edges|] eqn:E; [|done].
    apply collect_edges_ok in E as (Hall & Hnd & _ & ->). cbn [rbind] in Hv.
    rewrite visit_all_hasCycle in Hv. fold (graph_of pairs) in Hv.
    destruct (hasCycle seed (graph_of pairs)) eqn:Ec; [done|]. split_and!; [done..|].
    intros Hc%(hasCycle_spec seed). congruence.
  - intros (Hall & Hnd & Hac).
    assert (collect_edges pairs ∅ ∅ = Ok (graph_of pairs)) as ->.
    { apply collect_edges_ok. split_and!; [done..|set_solver|done]. }
    cbn [rbind]. rewrite visit_all_hasCycle.
    destruct (hasCycle seed (graph_of pairs)) eqn:Ec; [|done].
    apply hasCycle_spec in Ec. done.
Qed.

(** *** Properties *)

(** The cycle test answers true exactly when the role graph has a cycle,
    in whatever order the runtime iterates over the map. *)
Theorem hasCycle_correct `{RangeOrder} (seed : nat) (a : Adj) :
  hasCycle seed a = true <-> exists x, tc (edge a) x x.
Proof. apply hasCycle_spec. Qed.

(** Every role hierarchy the engine loads is acyclic and answers
    reachability: [IsDescendant] and [GetInheritedRoles] are the reflexive and
    transitive closure of the loaded edges, without repetition. *)
Theorem loaded_roles_are_closure `{RangeOrder} (seed : nat) (pairs : list (string * string)) (g : RoleDAG)
    (Hload : add_inheritances seed NewRoleDAG pairs = Ok g) :
  let inh := rtc (fun x y => (x, y) ∈ pairs) in
  ~ has_cycle (adj g) /\ (forall x y, IsDescendant (Some g) x y = true <-> inh x y)
  /\ (forall x, NoDup (GetInheritedRoles (Some g) x)
                /\ forall y, y ∈ GetInheritedRoles (Some g) x <-> inh x y).
Proof.
  cbv zeta. apply add_inheritances_ok in Hload as [Hwf Hadj]; [|apply NewRoleDAG_wf].
  assert (forall x y, inherits (adj g) x y <-> rtc (fun x y => (x, y) ∈ pairs) x y) as Hin.
  { intros x y. unfold inherits. rewrite Hadj. split; intros Hr; induction Hr as [|u v w He _ IH];
      try apply rtc_refl; (eapply rtc_l; [|done]); by apply graph_of_edge. }
  split_and!; [apply Hwf| |].
  - intros x y. by rewrite IsDescendant_inherits.
  - intros x. destruct (GetInheritedRoles_spec g x Hwf) as [Hnd Hx]. split; [done|].
    intros y. by rewrite Hx.
Qed.

(** A role graph the storage layer validates loads into the engine
    without error, in whatever order the edges come back. *)
Theorem validated_roles_load `{RangeOrder} (seed seed' : nat) (pairs pairs' : list (string * string))
    (tid : string) (ps : list PolicyNode) (rev : Z)
    (Hvalid : validateRoleInheritances seed pairs = Ok tt) (Hperm : pairs' ≡ₚ pairs) :
  exists t, buildTenantTrie seed' tid ps pairs' rev = Ok t.
Proof.
  apply validate_spec in Hvalid as (_ & _ & Hac). apply buildTenantTrie_accepts.
  intros Hc. apply Hac. eapply has_cycle_mono; [|done].
  intros x y He. apply graph_of_edge. rewrite <- Hperm. by apply graph_of_edge.
Qed.

Definition sample_dag : RoleDAG :=
  match add_inheritances (H := sorted_range) 0 NewRoleDAG sample_pairs with
  | Ok g => g | Err _ => NewRoleDAG
  end.

Lemma loaded_roles_are_closure_witness : IsDescendant (Some sample_dag) "role:root" "role:admin" = true.
Proof.
  apply (loaded_roles_are_closure (H := sorted_range) 0 sample_pairs sample_dag).
  - vm_compute. reflexivity.
  - eapply rtc_l; [by left|apply rtc_refl].
Defined.

Lemma validated_roles_load_witness :
  exists t, buildTenantTrie (H := sorted_range) 1 "t" [] [("b", "c"); ("a", "b")] 3 = Ok t.
Proof.
  apply (validated_roles_load (H := sorted_range) 0 1 [("a", "b"); ("b", "c")]).
  - vm_compute. reflexivity.
  - constructor.
Defined.
