(* ===== verification/Badger.v ===== *)
(** * Durable policy snapshots of the edge mode ([internal/storage/badger.go])

    The key-value store is the map from tenant to stored value; a value is
    what [json.Unmarshal] reads back, or [None] when it does not decode.  JSON
    keeps every field except that a string loses its invalid UTF-8 bytes.
    A directory keeps its pairs while no store has it open; one store at a
    time has it, as Badger's lock of the directory ensures. *)

From S2P Require Import Prelude GoStr.
From stdpp Require Import options.
Local Open Scope Z_scope.

Definition PolicySnapshotFormatVersion : Z := 1.

Record PolicySnapshotPolicy := mkSnapPolicy { sp_id : string; sp_text : string }.

(** [SnapshotAt] is kept as an offset from the zero time. *)
Record PolicySnapshot := mkSnapshot {
  FormatVersion : Z;
  snap_tenant : string;
  snap_policies : list PolicySnapshotPolicy;
  snap_inheritances : list (string * string);
  snap_revision : Z;
  SnapshotAt : Z
}.

Abbreviation BadgerStore := (gmap string (option PolicySnapshot)).

Inductive SnapshotError :=
| SnapUnsupportedVersion (v : Z) | SnapNoTenant | SnapZeroRevision | SnapNoTimestamp
| SnapIncompletePolicy | SnapDuplicatePolicy (id : string)
| SnapUndecodable | SnapDatabase.

Fixpoint validate_snapshot_policies (seen : gset string) (ps : list PolicySnapshotPolicy) :
    result SnapshotError unit :=
  match ps with
  | [] => Ok tt
  | p :: ps' =>
      guard? bool_decide (sp_id p = "") || bool_decide (sp_text p = "") else SnapIncompletePolicy;
      guard? bool_decide (sp_id p ∈ seen) else SnapDuplicatePolicy (sp_id p);
      validate_snapshot_policies ({[sp_id p]} ∪ seen) ps'
  end.

Definition validatePolicySnapshot (s : PolicySnapshot) : result SnapshotError unit :=
  guard? negb (FormatVersion s =? PolicySnapshotFormatVersion) else SnapUnsupportedVersion (FormatVersion s);
  guard? bool_decide (snap_tenant s = "") else SnapNoTenant;
  guard? (snap_revision s =? 0) else SnapZeroRevision;
  guard? (SnapshotAt s =? 0) else SnapNoTimestamp;
  validate_snapshot_policies ∅ (snap_policies s).

(** A string after [json.Marshal] and [json.Unmarshal]. *)
Definition json_string (s : string) : string := string_of_runes (runes_of s).

Definition json_snapshot (s : PolicySnapshot) : PolicySnapshot :=
  mkSnapshot (FormatVersion s) (json_string (snap_tenant s))
    ((fun p => mkSnapPolicy (json_string (sp_id p)) (json_string (sp_text p))) <$> snap_policies s)
    ((fun pc => (json_string pc.1, json_string pc.2)) <$> snap_inheritances s)
    (snap_revision s) (SnapshotAt s).

(** [db_ok] is whether the database transaction commits. *)
Definition SavePolicySnapshot (db_ok : bool) (store : BadgerStore) (s : PolicySnapshot) :
    result SnapshotError BadgerStore :=
  let? _ := validatePolicySnapshot s in
  guard? negb db_ok else SnapDatabase;
  Ok (<[snap_tenant s := Some (json_snapshot s)]> store).

(** [Ok None] is the nil snapshot of an unknown tenant. *)
Definition LoadPolicySnapshot (store : BadgerStore) (tenantID : string) :
    result SnapshotError (option PolicySnapshot) :=
  match store !! tenantID with
  | None => Ok None
  | Some None => Err SnapUndecodable
  | Some (Some s) => let? _ := validatePolicySnapshot s in Ok (Some s)
  end.

(** The keys under the prefix, in the order of the iterator. *)
Definition ListTenantIDs (store : BadgerStore) : list string :=
  sort_strings (map_to_list store).*1.

Definition DeleteTenantSnapshot (store : BadgerStore) (tenantID : string) : BadgerStore :=
  delete tenantID store.

(** ** Opening, closing and compacting *)

(** The directories with their pairs, and those a store has open. *)
Record BadgerDisk := mkDisk { disk_stores : gmap string BadgerStore; disk_open : gset string }.

(** [NewBadgerStore]; [mkdir_ok] and [open_ok] are what the file system and the recovery of Badger answer. *)
Definition NewBadgerStore (mkdir_ok open_ok : bool) (disk : BadgerDisk) (dir : string) : BadgerDisk * result SnapshotError BadgerStore :=
  if negb mkdir_ok then (disk, Err SnapDatabase)
  else if negb open_ok || bool_decide (dir ∈ disk_open disk) then (disk, Err SnapDatabase)
  else (mkDisk (disk_stores disk) ({[dir]} ∪ disk_open disk), Ok (default ∅ (disk_stores disk !! dir))).
(** [Close] leaves on disk what was committed. *)
Definition CloseBadger (disk : BadgerDisk) (dir : string) (store : BadgerStore) : BadgerDisk :=
  mkDisk (<[dir := store]> (disk_stores disk)) (disk_open disk ∖ {[dir]}).

Inductive GcResult := Rewritten | NoRewrite | GcFailed.
(** The passes of [RunGC], each of which answers what [results] has for it. *)
Fixpoint RunGC (results : list GcResult) : nat :=
  match results with
  | [] => 0
  | Rewritten :: results' => S (RunGC results')
  | _ :: _ => 1
  end.

(** What is saved before a store is closed is loaded after it is opened again. *)
Theorem snapshot_survives_restart (disk : BadgerDisk) (dir : string) (store store' : BadgerStore) (s : PolicySnapshot)
    (Hsave : SavePolicySnapshot true store s = Ok store') (Hutf8 : json_snapshot s = s) :
  let '(disk', r) := NewBadgerStore true true (CloseBadger disk dir store') dir in
  r = Ok store' /\ LoadPolicySnapshot store' (snap_tenant s) = Ok (Some s)
  /\ (forall ok, (NewBadgerStore true ok disk' dir).2 = Err SnapDatabase).
Proof.
  unfold NewBadgerStore, CloseBadger. cbn [negb orb disk_open disk_stores]. rewrite bool_decide_false by set_solver. cbn [disk_stores].
  rewrite lookup_insert_eq. unfold SavePolicySnapshot in Hsave. destruct (validatePolicySnapshot s) as [[]|] eqn:Ev; [|done].
  cbn [rbind negb] in Hsave. injection Hsave as <-. split; [done|]. split.
  - unfold LoadPolicySnapshot. rewrite lookup_insert_eq, Hutf8, Ev. done.
  - intros ok. cbn [disk_open]. by rewrite bool_decide_true, orb_true_r by set_solver.
Qed.

(** [RunGC] goes on while a pass rewrites a file, and stops at the first that does not. *)
Lemma gc_stops_at_first rewritten r rest : r <> Rewritten -> RunGC (replicate rewritten Rewritten ++ r :: rest) = S rewritten.
Proof. intros Hr. induction rewritten as [|n IH]; cbn [replicate app RunGC]; [by destruct r|by rewrite IH]. Qed.
