(* ===== verification/Sync.v ===== *)
(** * Synchronisation with the database ([internal/engine/sync.go],
    [edge_restore.go], [pkg/pdp/embedded.go])

    The database sits behind the interface [policySyncStorage]; a call to it
    is an argument of the operation, [None] for an error.  What each event and
    each tick does is a function on the [Syncer], whose components are the
    engine, the health status and the optional snapshot store; the goroutines
    of [Start], in which other steps come between the parts of these functions,
    are in [SyncWorkers]. *)

From S2P Require Import Prelude GoStr Ast Dag Trie Evaluator Decision Parser Compiler Engine Badger.
From stdpp Require Import options.
Local Open Scope Z_scope.

(** [storage.TenantPolicyBundle]: the active policies with their sources. *)
Record TenantPolicyBundle := mkPolicyBundle {
  pb_policies : list PolicySource;
  pb_inheritances : list (string * string);
  pb_revision : Z
}.

(** [DBPolicyUpdateEvent] as far as the callback reads it. *)
Record PolicyUpdateEvent := mkEvent { ev_tenant : string; ev_revision : Z }.

Inductive SyncStatus := SyncStatusHealthy | SyncStatusDegraded | SyncStatusNotReady.
Global Instance SyncStatus_eq_dec : EqDecision SyncStatus.
Proof. solve_decision. Defined.

Record Syncer := mkSyncer {
  sy_engine : EngineWithGC;
  sy_status : SyncStatus;
  sy_badger : option BadgerStore
}.

Definition NewSyncer (e : EngineWithGC) : Syncer := mkSyncer e SyncStatusNotReady None.
Definition SetBadgerStore (s : Syncer) (b : BadgerStore) : Syncer :=
  mkSyncer (sy_engine s) (sy_status s) (Some b).
Definition setSyncStatus (s : Syncer) (st : SyncStatus) : Syncer :=
  mkSyncer (sy_engine s) st (sy_badger s).
Definition set_engine (s : Syncer) (e : EngineWithGC) : Syncer := mkSyncer e (sy_status s) (sy_badger s).

Inductive SyncError :=
| SyncLoadBundle | SyncCompile (e : SetError) | SyncAhead (received bundle : Z)
| SyncPublish (e : EngineError) | SyncSnapshot (e : SnapshotError) | SyncRevisionRead.

Definition is_stale_error (e : EngineError) : bool :=
  match e with ErrStaleRevision _ _ _ => true | ErrInheritance _ => false end.

Definition bundle_snapshot (tenantID : string) (b : TenantPolicyBundle) (at_time : Z) : PolicySnapshot :=
  mkSnapshot PolicySnapshotFormatVersion tenantID
    ((fun p => mkSnapPolicy (source_id p) (source_text p)) <$> pb_policies b)
    (pb_inheritances b) (pb_revision b) at_time.

Section Syncing.
Context `{UnicodeTable} `{RangeOrder}.

(** [SyncTenantWithRevision]: the syncer it leaves and its error.  [clock] is
    the time of the snapshot and [db_ok] the outcome of the snapshot write. *)
Definition SyncTenantWithRevision (seed : nat) (now clock : Z) (db_ok : bool)
    (bundle : option TenantPolicyBundle) (s : Syncer) (tenantID : string) (revision : Z) :
    Syncer * option SyncError :=
  match bundle with
  | None => (s, Some SyncLoadBundle)
  | Some b =>
      match CompilePolicySet (pb_policies b) with
      | Err e => (s, Some (SyncCompile e))
      | Ok compiled =>
          if pb_revision b <? revision then (s, Some (SyncAhead revision (pb_revision b)))
          else
            match gc_UpdateTenantPoliciesWithRevision seed now (sy_engine s) tenantID compiled
                    (pb_inheritances b) (pb_revision b) with
            | Err e => if is_stale_error e then (s, None) else (s, Some (SyncPublish e))
            | Ok e' =>
                let s' := set_engine s e' in
                match sy_badger s with
                | None => (s', None)
                | Some store =>
                    match SavePolicySnapshot db_ok store (bundle_snapshot tenantID b clock) with
                    | Err e => (s', Some (SyncSnapshot e))
                    | Ok store' => (SetBadgerStore s' store', None)
                    end
                end
            end
      end
  end.

Definition SyncTenant (seed : nat) (now clock : Z) (db_ok : bool) (bundle : option TenantPolicyBundle)
    (s : Syncer) (tenantID : string) : Syncer * option SyncError :=
  SyncTenantWithRevision seed now clock db_ok bundle s tenantID 0.

Definition shouldSyncRevision (current received : Z) : bool := (received =? 0) || (current <? received).

(** The event callback of [postgresEventSubscriber]. *)
Definition on_policy_event (seed : nat) (now clock : Z) (db_ok : bool) (bundle : option TenantPolicyBundle)
    (s : Syncer) (ev : PolicyUpdateEvent) : Syncer :=
  let currentRev := gc_GetTenantRevision (sy_engine s) (ev_tenant ev) in
  if negb (shouldSyncRevision currentRev (ev_revision ev)) then s
  else match SyncTenantWithRevision seed now clock db_ok bundle s (ev_tenant ev) (ev_revision ev) with
       | (s', None) => s'
       | (s', Some _) => setSyncStatus s' SyncStatusDegraded
       end.

(** The listener connected, or lost its connection. *)
Definition on_listening (s : Syncer) : Syncer := setSyncStatus s SyncStatusHealthy.
Definition on_listen_error (s : Syncer) : Syncer := setSyncStatus s SyncStatusDegraded.

(** [reconcileTenantRevision]: [dbRev] and [bundle] are the two reads. *)
Definition reconcileTenantRevision (seed : nat) (now clock : Z) (db_ok : bool) (dbRev : option Z)
    (bundle : option TenantPolicyBundle) (s : Syncer) (tenantID : string) : Syncer * option SyncError :=
  match dbRev with
  | None => (s, Some SyncRevisionRead)
  | Some r =>
      if gc_GetTenantRevision (sy_engine s) tenantID <? r
      then SyncTenantWithRevision seed now clock db_ok bundle s tenantID r
      else (s, None)
  end.

(** One tick: the tenants loaded when it starts, each with the reads made for it. *)
Definition reconcileLoadedTenants (seed : nat) (now clock : Z) (db_ok : bool)
    (reads : string -> option Z * option TenantPolicyBundle) (s : Syncer) : Syncer :=
  foldl (fun s tenantID =>
           match reconcileTenantRevision seed now clock db_ok (reads tenantID).1 (reads tenantID).2 s tenantID with
           | (s', None) => s'
           | (s', Some _) => setSyncStatus s' SyncStatusDegraded
           end) s (range_keys seed (dom (gc_state (sy_engine s)))).

(** [Readiness]: the status and whether an error is returned. *)
Fixpoint readiness_loop (db_revision : string -> option Z) (ts : list (string * TrieRoot)) :
    SyncStatus * bool :=
  match ts with
  | [] => (SyncStatusHealthy, false)
  | (tenantID, trie) :: ts' =>
      match db_revision tenantID with
      | None => (SyncStatusDegraded, true)
      | Some r => if negb (r =? Revision trie) then (SyncStatusDegraded, true)
                  else readiness_loop db_revision ts'
      end
  end.
Definition Readiness (db_revision : string -> option Z) (s : Syncer) : SyncStatus * bool :=
  if negb (bool_decide (sy_status s = SyncStatusHealthy)) then (sy_status s, true)
  else readiness_loop db_revision (map_to_list (gc_state (sy_engine s))).

(** ** Restoring the edge snapshots *)

Inductive RestoreError :=
| RestoreNotEmpty | RestoreNoSnapshots | RestoreLoad (e : SnapshotError) | RestoreMismatch (tenant : string)
| RestoreCompile (e : SetError) | RestoreBuild (e : EngineError).

Definition restore_one (seed : nat) (store : BadgerStore) (tenantID : string) :
    result RestoreError TrieRoot :=
  match LoadPolicySnapshot store tenantID with
  | Err e => Err (RestoreLoad e)
  | Ok None => Err (RestoreMismatch tenantID)
  | Ok (Some snapshot) =>
      guard? negb (bool_decide (snap_tenant snapshot = tenantID)) else RestoreMismatch tenantID;
      let sources := (fun p => mkPolicySource (sp_id p) (sp_text p)) <$> snap_policies snapshot in
      match CompilePolicySet sources with
      | Err e => Err (RestoreCompile e)
      | Ok policies =>
          map_err RestoreBuild
            (buildTenantTrie seed tenantID policies (snap_inheritances snapshot) (snap_revision snapshot))
      end
  end.

(** [RestoreEdgeSnapshots]; [ids] is the answer of [ListTenantIDs]. *)
Definition RestoreEdgeSnapshots (seed : nat) (now : Z) (e : EngineWithGC) (store : BadgerStore) :
    result RestoreError EngineWithGC :=
  guard? negb (bool_decide (gc_state e = ∅)) else RestoreNotEmpty;
  let ids := ListTenantIDs store in
  guard? bool_decide (ids = []) else RestoreNoSnapshots;
  let? tries := rmapM (fun id => let? t := restore_one seed store id in Ok (id, t)) ids in
  let e1 := with_state e (list_to_map tries) in
  Ok (foldl (fun e kt => touchTenant now e kt.1 (Z.of_nat (length (GlobalPolicies kt.2)))) e1 tries).

(** ** The embedded decision point *)

Record EmbeddedPDP := mkEmbedded { em_engine : Tenants; allowedTenants : gset string }.

Definition embedded_syncTenant (seed : nat) (bundle : option TenantPolicyBundle) (p : EmbeddedPDP)
    (tenantID : string) : result SyncError EmbeddedPDP :=
  match bundle with
  | None => Err SyncLoadBundle
  | Some b =>
      match CompilePolicySet (pb_policies b) with
      | Err e => Err (SyncCompile e)
      | Ok compiled =>
          match UpdateTenantPoliciesWithRevision seed (em_engine p) tenantID compiled
                  (pb_inheritances b) (pb_revision b) with
          | Err e => Err (SyncPublish e)
          | Ok st => Ok (mkEmbedded st (allowedTenants p))
          end
      end
  end.

(** [New]: the whitelist and the initial load of its tenants. *)
Definition embedded_New (seed : nat) (allowed : list string)
    (bundles : string -> option TenantPolicyBundle) : result SyncError EmbeddedPDP :=
  let allowedMap := list_to_set allowed in
  foldl (fun r tenantID => let? p := r in embedded_syncTenant seed (bundles tenantID) p tenantID)
    (Ok (mkEmbedded NewEngine allowedMap)) (range_keys seed allowedMap).

(** [CheckPermission]: [None] is [ErrTenantNotAllowed]. *)
Definition embedded_CheckPermission (canceled : bool) (p : EmbeddedPDP)
    (tenantID subject action resource : string) (context : gmap string string) :
    option DecisionResult :=
  if negb (bool_decide (allowedTenants p = ∅)) && negb (bool_decide (tenantID ∈ allowedTenants p))
  then None
  else Some (engine_CheckPermission canceled (em_engine p) tenantID subject action resource context).

(** A message of [redisSubscriber] whose payload decoded; errors are dropped. *)
Definition on_redis_event (seed : nat) (bundle : option TenantPolicyBundle) (p : EmbeddedPDP)
    (tenantID : string) : EmbeddedPDP :=
  if bool_decide (tenantID ∈ allowedTenants p)
  then match embedded_syncTenant seed bundle p tenantID with Ok p' => p' | Err _ => p end
  else p.

End Syncing.
