(* ===== verification/SyncFacts.v ===== *)
(** * Synchronisation keeps the last known good state

    Whatever the database answers, a syncer only ever installs complete,
    compiled bundles; a failed synchronisation leaves the syncer as it was;
    a snapshot written by a synchronisation restores the same index; and one
    reconciliation against a stable database makes the node ready. *)

From S2P Require Import Prelude GoStr Ast Dag DagFacts Trie TrieFacts Evaluator Decision DecisionFacts.
From S2P Require Import Lexer Parser ParserFacts Compiler CompilerFacts Engine EngineFacts Badger Sync.
From stdpp Require Import relations fin_sets options.
Local Open Scope Z_scope.

Section Facts.
Context `{UnicodeTable} `{RangeOrder}.

(** ** The engine underneath *)

(** What [SyncTenantWithRevision] did, by its error. *)
Lemma sync_spec seed now clock db_ok bundle s tid rev s' err :
  SyncTenantWithRevision seed now clock db_ok bundle s tid rev = (s', err) ->
  sy_status s' = sy_status s
  /\ match err with
     | None | Some (SyncSnapshot _) =>
         exists b compiled, bundle = Some b /\ CompilePolicySet (pb_policies b) = Ok compiled
           /\ rev <= pb_revision b
           /\ ((exists e, gc_UpdateTenantPoliciesWithRevision seed now (sy_engine s) tid compiled
                    (pb_inheritances b) (pb_revision b) = Err e /\ is_stale_error e = true
                    /\ s' = s /\ err = None)
               \/ gc_UpdateTenantPoliciesWithRevision seed now (sy_engine s) tid compiled
                    (pb_inheritances b) (pb_revision b) = Ok (sy_engine s'))
     | Some _ => s' = s
     end.
Proof.
  unfold SyncTenantWithRevision. destruct bundle as [b|]; [|by intros [= <- <-]].
  destruct (CompilePolicySet (pb_policies b)) as [compiled|e] eqn:Ec; [|by intros [= <- <-]].
  destruct (Z.ltb_spec (pb_revision b) rev); [by intros [= <- <-]|].
  destruct (gc_UpdateTenantPoliciesWithRevision _ _ _ _ _ _ _) as [e'|e] eqn:Eu.
  - destruct (sy_badger s) as [store|].
    + destruct (SavePolicySnapshot _ _ _) as [store'|e]; intros [= <- <-]; (split; [done|]);
        exists b, compiled; (split_and!; [done..|by right]).
    + intros [= <- <-]. split; [done|]. exists b, compiled. split_and!; [done..|by right].
  - destruct (is_stale_error e) eqn:Es; intros [= <- <-]; [|done]. split; [done|].
    exists b, compiled. split_and!; [done..|left]. by exists e.
Qed.

Lemma sync_engine_steps seed now clock db_ok bundle s tid rev :
  calls (sy_engine s)
    (sy_engine (SyncTenantWithRevision seed now clock db_ok bundle s tid rev).1).
Proof.
  destruct (SyncTenantWithRevision seed now clock db_ok bundle s tid rev) as [s' err] eqn:E. simpl.
  apply sync_spec in E as [_ Herr].
  assert (s' = s -> calls (sy_engine s) (sy_engine s')) as Hsame by (by intros ->).
  destruct err as [[]|]; auto; destruct Herr as (b & compiled & _ & _ & _ & [(? & _ & _ & -> & _)|Hu]);
    first [done|by eapply update_revision_steps].
Qed.

(** ** The syncer as a transition system *)

Inductive sync_step : Syncer -> Syncer -> Prop :=
| SyncEvent seed now clock db_ok bundle s ev :
    sync_step s (on_policy_event seed now clock db_ok bundle s ev)
| SyncLoad seed now clock db_ok bundle s tid rev :
    sync_step s (SyncTenantWithRevision seed now clock db_ok bundle s tid rev).1
| SyncReconcile seed now clock db_ok dbRev bundle s tid :
    sync_step s (reconcileTenantRevision seed now clock db_ok dbRev bundle s tid).1
| SyncStatusChange s st : sync_step s (setSyncStatus s st)
| SyncRestore seed now s store e :
    RestoreEdgeSnapshots seed now (sy_engine s) store = Ok e -> sync_step s (set_engine s e)
| SyncEngine s e : calls (sy_engine s) e -> sync_step s (set_engine s e).

Lemma restore_one_ok seed store tid t :
  restore_one seed store tid = Ok t ->
  exists snap policies, store !! tid = Some (Some snap) /\ snap_tenant snap = tid
    /\ CompilePolicySet ((fun p => mkPolicySource (sp_id p) (sp_text p)) <$> snap_policies snap) = Ok policies
    /\ buildTenantTrie seed tid policies (snap_inheritances snap) (snap_revision snap) = Ok t.
Proof.
  unfold restore_one, LoadPolicySnapshot. destruct (store !! tid) as [[snap|]|]; [|done|done].
  destruct (validatePolicySnapshot snap) as [[]|]; [|done]. cbn [rbind].
  case_bool_decide as Ht; [|done]. cbn [negb].
  destruct (CompilePolicySet _) as [policies|] eqn:Ec; [|done].
  destruct (buildTenantTrie _ _ _ _ _) as [t'|] eqn:Eb; [|done]. intros [= <-].
  exists snap, policies. done.
Qed.

Lemma touch_all_steps now e tries :
  calls e (foldl (fun e kt => touchTenant now e kt.1 (Z.of_nat (length (GlobalPolicies kt.2)))) e tries).
Proof.
  revert e. induction tries as [|[k t] tries IH]; intros e; simpl; [done|].
  etransitivity; [apply calls_touch|apply IH].
Qed.

Lemma touch_all_state now e (tries : list (string * TrieRoot)) :
  gc_state (foldl (fun e kt => touchTenant now e kt.1 (Z.of_nat (length (GlobalPolicies kt.2)))) e tries)
  = gc_state e.
Proof. revert e. induction tries as [|[k t] tries IH]; intros e; simpl; [done|]. by rewrite IH. Qed.

Lemma ListTenantIDs_spec store tid : tid ∈ ListTenantIDs store <-> is_Some (store !! tid).
Proof.
  unfold ListTenantIDs, sort_strings. rewrite merge_sort_Permutation, list_elem_of_fmap. split.
  - intros ([k v] & -> & Hin). apply elem_of_map_to_list in Hin. eauto.
  - intros [v Hv]. exists (tid, v). split; [done|]. by apply elem_of_map_to_list.
Qed.

Lemma ListTenantIDs_nodup store : NoDup (ListTenantIDs store).
Proof. unfold ListTenantIDs, sort_strings. rewrite merge_sort_Permutation. apply NoDup_fst_map_to_list. Qed.

(** The restored map: one index per listed snapshot. *)
Lemma restore_tries seed store ids tries :
  NoDup ids ->
  rmapM (fun id => let? t := restore_one seed store id in Ok (id, t)) ids = Ok tries ->
  tries.*1 = ids
  /\ forall tid t, (list_to_map tries : Tenants) !! tid = Some t <->
       tid ∈ ids /\ restore_one seed store tid = Ok t.
Proof.
  intros Hnd Hm. apply rmapM_ok in Hm.
  assert (tries.*1 = ids /\ forall tid t, (tid, t) ∈ tries <-> tid ∈ ids /\ restore_one seed store tid = Ok t)
    as [Hfst Hin].
  { clear Hnd. induction Hm as [|id [k t] ids tries Hid _ [IH1 IH2]]; simpl.
    { split; [done|]. intros tid t. split; [by intros ?%not_elem_of_nil|by intros [?%not_elem_of_nil _]]. }
    destruct (restore_one seed store id) as [t0|] eqn:E; [|done]. injection Hid as <- <-.
    split; [by f_equal|]. intros tid t. rewrite !elem_of_cons, IH2. split.
    - intros [[= -> ->]|[? ?]]; auto.
    - intros [[->|?] Hr]; [left; congruence|auto]. }
  split; [done|]. intros tid t. rewrite <- elem_of_list_to_map by (by rewrite Hfst). apply Hin.
Qed.

Lemma restore_spec seed now e store e' :
  RestoreEdgeSnapshots seed now e store = Ok e' ->
  gc_state e = ∅ /\ store <> ∅
  /\ forall tid t, gc_state e' !! tid = Some t <-> is_Some (store !! tid) /\ restore_one seed store tid = Ok t.
Proof.
  unfold RestoreEdgeSnapshots. case_bool_decide as He; [|done]. cbn [negb].
  case_bool_decide as Hids; [done|].
  destruct (rmapM _ _) as [tries|] eqn:Em; [|done]. cbn [rbind]. intros [= <-].
  apply restore_tries in Em as [_ Hin]; [|apply ListTenantIDs_nodup].
  split_and!; [done| |].
  - intros ->. by destruct Hids.
  - intros tid t. rewrite touch_all_state. simpl. rewrite Hin. by rewrite ListTenantIDs_spec.
Qed.

(** The bundle an index was restored from. *)
Definition restored_from (b : Bundle) (tid : string) (t : TrieRoot) : Prop :=
  exists seed, buildTenantTrie seed tid (bd_policies b) (bd_pairs b) (bd_revision b) = Ok t.

Lemma restore_steps seed now e store e' :
  RestoreEdgeSnapshots seed now e store = Ok e' -> calls e e'.
Proof.
  intros Hr. pose proof Hr as Hspec. apply restore_spec in Hspec as (He & _ & Hin).
  unfold RestoreEdgeSnapshots in Hr. revert Hr. case_bool_decide; [|done]. cbn [negb].
  case_bool_decide; [done|]. destruct (rmapM _ _) as [tries|] eqn:Em; [|done]. cbn [rbind]. intros [= <-].
  etransitivity; [|apply touch_all_steps]. intros lg.
  destruct (list_choice (map_to_list (list_to_map tries : Tenants)) (fun kt kb => kb.1 = kt.1 /\ restored_from kb.2 kt.1 kt.2)) as [bs Hbs].
  { intros [tid t] Ht%elem_of_map_to_list. destruct (proj1 (Hin tid t)) as [_ Ho]; [by rewrite touch_all_state|].
    apply restore_one_ok in Ho as (snap & policies & _ & _ & _ & Hb). exists (tid, mkBundle policies (snap_inheritances snap) (snap_revision snap)).
    split; [done|]. by exists seed. }
  exists bs. apply rtc_once, StepRestore; [done|].
  intros tid t Ht%elem_of_map_to_list. destruct (Hbs (tid, t) Ht) as ([k [ps pairs rev]] & Hkb & Hk & sd & Hb). cbn in Hk, Hb. subst k.
  by exists sd, ps, pairs, rev.
Qed.

Lemma sync_step_engine s s' : sync_step s s' -> calls (sy_engine s) (sy_engine s').
Proof.
  intros Hstep. destruct Hstep as [seed now clock db_ok bundle s ev|seed now clock db_ok bundle s tid rev
    |seed now clock db_ok dbRev bundle s tid|s st|seed now s store e Hr|s e He]; simpl.
  - unfold on_policy_event. destruct (negb _); [done|].
    pose proof (sync_engine_steps seed now clock db_ok bundle s (ev_tenant ev) (ev_revision ev)) as Hs.
    by destruct (SyncTenantWithRevision _ _ _ _ _ _ _ _) as [s' [|]].
  - apply sync_engine_steps.
  - unfold reconcileTenantRevision. destruct dbRev as [r|]; [|done].
    destruct (_ <? _); [apply sync_engine_steps|done].
  - done.
  - by eapply restore_steps.
  - exact He.
Qed.

Lemma sync_reachable_engine s s' : rtc sync_step s s' -> calls (sy_engine s) (sy_engine s').
Proof.
  intros Hr. induction Hr as [|x y z Hs _ IH]; [done|].
  etransitivity; [by apply sync_step_engine|done].
Qed.

(** ** Snapshots *)

(** Every string of the bundle survives JSON. *)
Definition bundle_utf8 (tid : string) (b : TenantPolicyBundle) : Prop :=
  utf8_valid tid = true
  /\ Forall (fun p => utf8_valid (source_id p) = true /\ utf8_valid (source_text p) = true) (pb_policies b)
  /\ Forall (fun pc => utf8_valid pc.1 = true /\ utf8_valid pc.2 = true) (pb_inheritances b).

Lemma json_bundle_snapshot tid b clock :
  bundle_utf8 tid b -> json_snapshot (bundle_snapshot tid b clock) = bundle_snapshot tid b clock.
Proof.
  intros (Ht & Hp & Hi). unfold json_snapshot, bundle_snapshot, json_string. simpl.
  rewrite (utf8_roundtrip tid Ht). f_equal.
  - induction Hp as [|p ps [H1 H2] _ IH]; csimpl; [done|]. by rewrite IH, !utf8_roundtrip.
  - induction Hi as [|[x y] ps [H1 H2] _ IH]; csimpl; [done|]. simpl in *. by rewrite IH, !utf8_roundtrip.
Qed.

Lemma snapshot_sources b :
  (fun p => mkPolicySource (sp_id p) (sp_text p))
    <$> ((fun p => mkSnapPolicy (source_id p) (source_text p)) <$> pb_policies b) = pb_policies b.
Proof. induction (pb_policies b) as [|[] ps IH]; csimpl; [done|]. by rewrite IH. Qed.

Lemma restore_saved seed db_ok store store' tid b clock compiled :
  bundle_utf8 tid b -> CompilePolicySet (pb_policies b) = Ok compiled ->
  ~ has_cycle (graph_of (pb_inheritances b)) ->
  SavePolicySnapshot db_ok store (bundle_snapshot tid b clock) = Ok store' ->
  exists t, restore_one seed store' tid = Ok t
            /\ represents tid (mkBundle compiled (pb_inheritances b) (pb_revision b)) t.
Proof.
  intros Hu Hc Hac Hs. unfold SavePolicySnapshot in Hs.
  destruct (validatePolicySnapshot (bundle_snapshot tid b clock)) as [[]|] eqn:Ev; [|done].
  cbn [rbind] in Hs. destruct db_ok; [|done]. injection Hs as <-.
  unfold restore_one, LoadPolicySnapshot. cbn [bundle_snapshot snap_tenant].
  rewrite lookup_insert_eq, json_bundle_snapshot by done. rewrite Ev. cbn [rbind bundle_snapshot snap_tenant].
  rewrite bool_decide_true by done. cbn [negb snap_policies snap_inheritances snap_revision].
  unfold bundle_snapshot. cbn [snap_policies snap_inheritances snap_revision].
  rewrite snapshot_sources, Hc.
  destruct (buildTenantTrie_accepts seed tid compiled (pb_inheritances b) (pb_revision b) Hac) as [t Ht].
  rewrite Ht. exists t. split; [done|]. by eapply buildTenantTrie_ok.
Qed.

(** ** Reconciliation *)

Lemma update_fresh seed now e tid ps pairs rev :
  ~ has_cycle (graph_of pairs) -> 0 < rev -> current_revision (gc_state e) tid < rev ->
  exists e', gc_UpdateTenantPoliciesWithRevision seed now e tid ps pairs rev = Ok e'
    /\ (exists t, gc_state e' = <[tid := t]> (gc_state e)
                  /\ represents tid (mkBundle ps pairs rev) t).
Proof.
  intros Hac Hrev Hcur. destruct (buildTenantTrie_accepts seed tid ps pairs rev Hac) as [t Hb].
  unfold gc_UpdateTenantPoliciesWithRevision. rewrite Hb. cbn [rbind].
  apply buildTenantTrie_ok in Hb. pose proof (publish_at_spec (gc_state e) tid t rev) as Hp.
  unfold current_revision in Hcur. destruct (publish_at (gc_state e) tid t rev) as [[st []]|err]; cbn [rbind].
  - destruct Hp as [-> _]. eexists. split; [done|]. exists t. done.
  - destruct Hp as [_ (c & Hc & -> & _)]. rewrite Hc in Hcur. simpl in Hcur. lia.
  - destruct Hp as (c & Hc & Hlt & _). rewrite Hc in Hcur. simpl in Hcur. lia.
Qed.

(** The database answers for [tid]: a bundle that loads, at the revision it reports. *)
Definition good_reads (r : option Z * option TenantPolicyBundle) : Prop :=
  exists b compiled, r = (Some (pb_revision b), Some b) /\ 0 < pb_revision b
    /\ CompilePolicySet (pb_policies b) = Ok compiled /\ ~ has_cycle (graph_of (pb_inheritances b)).

Definition db_revision_of (r : option Z * option TenantPolicyBundle) : Z := default 0 r.1.

Lemma reconcile_one seed now clock db_ok r s tid t :
  good_reads r -> sy_badger s = None -> gc_state (sy_engine s) !! tid = Some t ->
  Revision t <= db_revision_of r ->
  exists s', reconcileTenantRevision seed now clock db_ok r.1 r.2 s tid = (s', None)
    /\ sy_badger s' = None /\ sy_status s' = sy_status s
    /\ (exists t', gc_state (sy_engine s') = <[tid := t']> (gc_state (sy_engine s))
                   /\ Revision t' = db_revision_of r).
Proof.
  intros (b & compiled & -> & Hpos & Hc & Hac) Hbadger Ht Hle. unfold db_revision_of in *. simpl in *.
  unfold reconcileTenantRevision, gc_GetTenantRevision, GetTenantRevision, GetTenantTrie. rewrite Ht.
  destruct (Z.ltb_spec (Revision t) (pb_revision b)) as [Hlt|Hge].
  - unfold SyncTenantWithRevision. rewrite Hc, Z.ltb_irrefl.
    destruct (update_fresh seed now (sy_engine s) tid compiled (pb_inheritances b) (pb_revision b) Hac Hpos)
      as (e' & He & t' & Hst & Hrep).
    { unfold current_revision. by rewrite Ht. }
    rewrite He, Hbadger. eexists. split; [done|]. split_and!; [done|done|].
    exists t'. split; [done|]. by apply represents_fields in Hrep as [_ ->].
  - exists s. split_and!; try done. exists t. split; [by rewrite insert_id|]. lia.
Qed.

Lemma reconcile_all seed now clock db_ok reads ks s :
  NoDup ks -> sy_badger s = None ->
  (forall k, k ∈ ks -> good_reads (reads k) /\ exists t, gc_state (sy_engine s) !! k = Some t
                        /\ Revision t <= db_revision_of (reads k)) ->
  let s' := foldl (fun s tenantID =>
      match reconcileTenantRevision seed now clock db_ok (reads tenantID).1 (reads tenantID).2 s tenantID with
      | (s', None) => s'
      | (s', Some _) => setSyncStatus s' SyncStatusDegraded
      end) s ks in
  sy_status s' = sy_status s
  /\ (forall k, k ∈ ks -> exists t, gc_state (sy_engine s') !! k = Some t /\ Revision t = db_revision_of (reads k))
  /\ (forall k, k ∉ ks -> gc_state (sy_engine s') !! k = gc_state (sy_engine s) !! k).
Proof.
  revert s. induction ks as [|k ks IH]; intros s Hnd Hbadger Hks; simpl.
  { split_and!; [done|by intros k ?%not_elem_of_nil|done]. }
  apply NoDup_cons in Hnd as [Hk Hnd]. destruct (Hks k ltac:(by left)) as (Hg & t & Ht & Hle).
  destruct (reconcile_one seed now clock db_ok (reads k) s k t Hg Hbadger Ht Hle)
    as (s1 & -> & Hb1 & Hst1 & t1 & He1 & Hr1).
  destruct (IH s1 Hnd Hb1) as (Hs & Hin & Hout).
  { intros k' Hk'. destruct (Hks k' ltac:(by right)) as (Hg' & t' & Ht' & Hle'). split; [done|].
    exists t'. split; [|done]. rewrite He1, lookup_insert_ne by (by intros ->). done. }
  cbv zeta in *. split_and!.
  - by rewrite Hs.
  - intros k' [->|Hk']%elem_of_cons; [|auto]. exists t1. split; [|done].
    rewrite Hout by done. by rewrite He1, lookup_insert_eq.
  - intros k' [Hne Hk']%not_elem_of_cons. rewrite Hout by done. by rewrite He1, lookup_insert_ne.
Qed.

Lemma readiness_loop_spec db ts :
  readiness_loop db ts = (SyncStatusHealthy, false)
  <-> forall tid t, (tid, t) ∈ ts -> db tid = Some (Revision t).
Proof.
  induction ts as [|[tid t] ts IH]; simpl.
  - split; [by intros _ tid t ?%not_elem_of_nil|done].
  - setoid_rewrite elem_of_cons. destruct (db tid) as [r|] eqn:E.
    + destruct (Z.eqb_spec r (Revision t)) as [->|Hne]; simpl.
      * rewrite IH. split; [intros Hall tid' t' [[= -> ->]|]; auto|auto].
      * split; [done|]. intros Hall. specialize (Hall tid t ltac:(by left)). congruence.
    + split; [done|]. intros Hall. specialize (Hall tid t ltac:(by left)). congruence.
Qed.

Lemma readiness_spec db s :
  Readiness db s = (SyncStatusHealthy, false)
  <-> sy_status s = SyncStatusHealthy
      /\ forall tid t, gc_state (sy_engine s) !! tid = Some t -> db tid = Some (Revision t).
Proof.
  unfold Readiness. destruct (decide (sy_status s = SyncStatusHealthy)) as [Hs|Hs].
  - rewrite bool_decide_true by done. simpl. rewrite readiness_loop_spec.
    setoid_rewrite elem_of_map_to_list. naive_solver.
  - rewrite bool_decide_false by done. simpl. split; [congruence|]. by intros [? _].
Qed.
End Facts.

(** ** Properties *)

(** Whatever the database returns, a synchronisation either leaves the
    tenant's index alone or installs the whole compiled bundle, touches no
    other tenant, and on any error before publication changes nothing. *)
Theorem sync_installs_or_keeps `{UnicodeTable} `{RangeOrder} (seed : nat) (now clock : Z) (db_ok : bool)
    (bundle : option TenantPolicyBundle) (s : Syncer) (tid : string) (rev : Z) :
  let r := SyncTenantWithRevision seed now clock db_ok bundle s tid rev in
  let st := gc_state (sy_engine s) in
  let st' := gc_state (sy_engine r.1) in
  (forall tid', tid' <> tid -> st' !! tid' = st !! tid')
  /\ (st' = st \/ exists b compiled t,
        bundle = Some b /\ CompilePolicySet (pb_policies b) = Ok compiled /\ rev <= pb_revision b
        /\ st' !! tid = Some t
        /\ represents tid (mkBundle compiled (pb_inheritances b) (pb_revision b)) t)
  /\ match r.2 with None | Some (SyncSnapshot _) => True | Some _ => r.1 = s end.
Proof.
  cbv zeta. destruct (SyncTenantWithRevision seed now clock db_ok bundle s tid rev) as [s' err] eqn:E.
  cbn [fst snd]. apply sync_spec in E as [_ Herr].
  assert (forall b compiled, gc_UpdateTenantPoliciesWithRevision seed now (sy_engine s) tid compiled
      (pb_inheritances b) (pb_revision b) = Ok (sy_engine s') ->
    (gc_state (sy_engine s') = gc_state (sy_engine s)
     \/ exists t, gc_state (sy_engine s') = <[tid := t]> (gc_state (sy_engine s))
                  /\ represents tid (mkBundle compiled (pb_inheritances b) (pb_revision b)) t)) as Hup.
  { intros b compiled Hu. unfold gc_UpdateTenantPoliciesWithRevision in Hu.
    destruct (buildTenantTrie _ _ _ _ _) as [t|] eqn:Hb; [|done]. cbn [rbind] in Hu.
    pose proof (publish_at_spec (gc_state (sy_engine s)) tid t (pb_revision b)) as Hp.
    destruct (publish_at _ _ _ _) as [[st []]|]; [| |done]; cbn [rbind] in Hu; injection Hu as <-.
    - right. exists t. split; [apply Hp|by eapply buildTenantTrie_ok].
    - by left. }
  assert (s' = s -> (forall tid', tid' <> tid ->
      gc_state (sy_engine s') !! tid' = gc_state (sy_engine s) !! tid')
    /\ (gc_state (sy_engine s') = gc_state (sy_engine s))) as Hsame by (by intros ->).
  destruct err as [[]|];
    try (destruct (Hsame Herr) as [H1 H2]; split_and!; [done|by left|done]);
    destruct Herr as (b & compiled & -> & Hc & Hle & [(? & _ & _ & Heq & _)|Hu]);
    try (destruct (Hsame Heq) as [H1 H2]; split_and!; [done|by left|done]);
    destruct (Hup b compiled Hu) as [->|(t & -> & Hrep)]; (split_and!; [|..|done]); try done; try (by left);
    try (by intros tid' Hne; rewrite lookup_insert_ne);
    right; exists b, compiled, t; (split_and!; try done); by rewrite lookup_insert_eq.
Qed.

(** An edge node restarted from the snapshot a synchronisation wrote
    answers from the same bundle, at the same revision, as the node that
    synchronised. *)
Theorem snapshot_restores_bundle `{UnicodeTable} `{RangeOrder} (seed seed' : nat) (now clock : Z) (db_ok : bool)
    (b : TenantPolicyBundle) (s s' : Syncer) (store : BadgerStore) (tid : string) (rev : Z)
    (Hsync : SyncTenantWithRevision seed now clock db_ok (Some b) s tid rev = (s', None))
    (Hbadger : sy_badger s = Some store) (Hutf8 : bundle_utf8 tid b)
    (Hnew : current_revision (gc_state (sy_engine s)) tid < pb_revision b) :
  exists compiled store' t t',
    sy_badger s' = Some store' /\ gc_state (sy_engine s') !! tid = Some t
    /\ restore_one seed' store' tid = Ok t'
    /\ represents tid (mkBundle compiled (pb_inheritances b) (pb_revision b)) t
    /\ represents tid (mkBundle compiled (pb_inheritances b) (pb_revision b)) t'.
Proof.
  unfold SyncTenantWithRevision in Hsync.
  destruct (CompilePolicySet (pb_policies b)) as [compiled|] eqn:Ec; [|done].
  destruct (_ <? rev); [done|]. unfold gc_UpdateTenantPoliciesWithRevision in Hsync.
  destruct (buildTenantTrie seed tid compiled (pb_inheritances b) (pb_revision b)) as [t|] eqn:Hb;
    cbn [rbind] in Hsync;
    [|unfold buildTenantTrie in Hb; destruct (add_inheritances _ _ _); [done|by injection Hb as <-]].
  assert (~ has_cycle (graph_of (pb_inheritances b))) as Hac.
  { pose proof (buildTenantTrie_ok _ _ _ _ _ _ Hb) as (g & Hwf & Hadj & _).
    simpl in Hadj. rewrite <- Hadj. apply Hwf. }
  apply buildTenantTrie_ok in Hb.
  pose proof (publish_at_spec (gc_state (sy_engine s)) tid t (pb_revision b)) as Hp.
  unfold current_revision in Hnew.
  destruct (publish_at _ _ _ _) as [[st []]|]; cbn [rbind] in Hsync.
  - destruct Hp as [-> _]. rewrite Hbadger in Hsync.
    destruct (SavePolicySnapshot db_ok store (bundle_snapshot tid b clock)) as [store'|] eqn:Es; [|done].
    injection Hsync as <-.
    destruct (restore_saved seed' db_ok store store' tid b clock compiled) as (t' & Ht' & Hrep'); try done.
    exists compiled, store', t, t'. simpl. rewrite lookup_insert_eq. done.
  - destruct Hp as [_ (c & Hc & He & _)]. rewrite Hc in Hnew. simpl in Hnew. lia.
  - destruct Hp as (c & Hc & Hlt & _). rewrite Hc in Hnew. simpl in Hnew. lia.
Qed.

(** Restoring edge snapshots is all or nothing: it succeeds only on an
    empty engine with snapshots for it, and then every stored tenant, and no
    other, is served from the bundle of its own snapshot. *)
Theorem restore_all_or_nothing `{UnicodeTable} `{RangeOrder} (seed : nat) (now : Z) (e e' : EngineWithGC)
    (store : BadgerStore) (Hrestore : RestoreEdgeSnapshots seed now e store = Ok e') :
  gc_state e = ∅ /\ store <> ∅
  /\ (forall tid, is_Some (gc_state e' !! tid) <-> is_Some (store !! tid))
  /\ forall tid t, gc_state e' !! tid = Some t ->
       exists snap compiled, store !! tid = Some (Some snap)
         /\ represents tid (mkBundle compiled (snap_inheritances snap) (snap_revision snap)) t.
Proof.
  pose proof (restore_spec _ _ _ _ _ Hrestore) as (He & Hne & Hin). split_and!; [done|done| |].
  - intros tid. split; [intros [t [? _]%Hin]; done|]. intros Hs.
    unfold RestoreEdgeSnapshots in Hrestore. revert Hrestore. case_bool_decide; [|done]. cbn [negb].
    case_bool_decide; [done|]. destruct (rmapM _ _) as [tries|] eqn:Em; [|done]. intros _.
    apply ListTenantIDs_spec, list_elem_of_lookup in Hs as [i Hi].
    apply rmapM_ok in Em. destruct (Forall2_lookup_l _ _ _ _ _ Em Hi) as ([k t] & _ & Hr).
    destruct (restore_one seed store tid) as [t'|] eqn:Eo; [|done].
    exists t'. apply Hin. split; [|done]. apply ListTenantIDs_spec. by eapply list_elem_of_lookup_2.
  - intros tid t [_ Ho]%Hin. apply restore_one_ok in Ho as (snap & policies & Hs & _ & _ & Hb).
    exists snap, policies. split; [done|]. by eapply buildTenantTrie_ok.
Qed.

(** Reconciliation converges: one tick against a database whose bundles
    load, with no tenant ahead of it, makes a healthy node ready, every
    loaded tenant at the revision of the database. *)
Theorem reconcile_makes_ready `{UnicodeTable} `{RangeOrder} (seed : nat) (now clock : Z) (db_ok : bool)
    (reads : string -> option Z * option TenantPolicyBundle) (s : Syncer)
    (Hstatus : sy_status s = SyncStatusHealthy) (Hbadger : sy_badger s = None)
    (Hreads : forall tid t, gc_state (sy_engine s) !! tid = Some t ->
       good_reads (reads tid) /\ Revision t <= db_revision_of (reads tid)) :
  Readiness (fun tid => (reads tid).1) (reconcileLoadedTenants seed now clock db_ok reads s)
  = (SyncStatusHealthy, false).
Proof.
  apply readiness_spec. unfold reconcileLoadedTenants.
  destruct (reconcile_all seed now clock db_ok reads (range_keys seed (dom (gc_state (sy_engine s)))) s)
    as (Hst & Hin & Hout); [|done| |].
  - rewrite range_keys_perm. apply NoDup_elements.
  - intros k Hk. rewrite range_keys_perm, elem_of_elements, elem_of_dom in Hk. destruct Hk as [t Ht].
    destruct (Hreads k t Ht). split; [done|]. eauto.
  - split; [by rewrite Hst|]. intros tid t Ht.
    destruct (decide (tid ∈ range_keys seed (dom (gc_state (sy_engine s))))) as [Hk|Hk].
    + destruct (Hin tid Hk) as (t' & Ht' & Hr). rewrite Ht' in Ht. injection Ht as <-.
      rewrite Hr. rewrite range_keys_perm, elem_of_elements, elem_of_dom in Hk. destruct Hk as [t0 Ht0].
      destruct (Hreads tid t0 Ht0) as [(b & compiled & Hb & _) _]. by rewrite Hb.
    + rewrite Hout in Ht by done. destruct Hk. rewrite range_keys_perm, elem_of_elements. by eapply elem_of_dom_2.
Qed.

(** Readiness is exact: a node reports healthy when its listener is healthy
    and every loaded tenant has the revision of the database, and only then. *)
Theorem readiness_exact `{UnicodeTable} `{RangeOrder} (db_revision : string -> option Z) (s : Syncer) :
  Readiness db_revision s = (SyncStatusHealthy, false)
  <-> sy_status s = SyncStatusHealthy
      /\ forall tid t, gc_state (sy_engine s) !! tid = Some t -> db_revision tid = Some (Revision t).
Proof. apply readiness_spec. Qed.

(** The engine of a syncer, after any interleaving of policy events,
    loads, reconciliations, restores, requests and collections, simulations apart, answers every
    request of a tenant it holds from one bundle at the revision it reports. *)
Theorem reachable_syncer_answers `{UnicodeTable} `{RangeOrder} (cfg : GCConfig) (s : Syncer) (tid : string)
    (t : TrieRoot) (loader : LazyLoader) (now : Z) (rq : Request)
    (Hreach : rtc sync_step (NewSyncer (NewEngineWithGC cfg)) s)
    (Ht : gc_state (sy_engine s) !! tid = Some t)
    (Hsep : hash_separates (normalizeAction (rq_action rq))) :
  exists b, represents tid b t /\ answers_for b rq (answer loader now (sy_engine s) tid rq).
Proof.
  apply sync_reachable_engine in Hreach. simpl in Hreach.
  destruct (calls_ok cfg _ tid t Hreach Ht) as [b Hb]. exists b. split; [done|].
  by eapply answer_represents.
Qed.

(** ** Witnesses *)

Definition edge_bundle : TenantPolicyBundle := mkPolicyBundle sample_sources sample_pairs 5.
Definition edge_syncer : Syncer := SetBadgerStore (NewSyncer (NewEngineWithGC sample_config)) ∅.
Definition edge_sync : Syncer * option SyncError :=
  SyncTenantWithRevision (H := ascii_table) (H0 := sorted_range) 0 7 8 true (Some edge_bundle) edge_syncer "t" 5.
Definition edge_store : BadgerStore := default ∅ (sy_badger edge_sync.1).
Definition edge_restored : EngineWithGC :=
  match RestoreEdgeSnapshots (H := ascii_table) (H0 := sorted_range) 0 9 (NewEngineWithGC sample_config) edge_store with
  | Ok e => e
  | Err _ => NewEngineWithGC sample_config
  end.

Lemma edge_bundle_utf8 : bundle_utf8 "t" edge_bundle.
Proof. split_and!; repeat constructor. Qed.

Lemma snapshot_restores_bundle_witness :
  exists compiled store' t t',
    sy_badger edge_sync.1 = Some store' /\ gc_state (sy_engine edge_sync.1) !! "t" = Some t
    /\ restore_one (H := ascii_table) (H0 := sorted_range) 3 store' "t" = Ok t'
    /\ represents "t" (mkBundle compiled sample_pairs 5) t
    /\ represents "t" (mkBundle compiled sample_pairs 5) t'.
Proof.
  apply (snapshot_restores_bundle (H := ascii_table) (H0 := sorted_range) 0 3 7 8 true edge_bundle
           edge_syncer edge_sync.1 ∅ "t" 5).
  - vm_compute. reflexivity.
  - reflexivity.
  - apply edge_bundle_utf8.
  - vm_compute. reflexivity.
Defined.

Lemma restore_all_or_nothing_witness :
  is_Some (gc_state edge_restored !! "t") <-> is_Some (edge_store !! "t").
Proof.
  apply (restore_all_or_nothing (H := ascii_table) (H0 := sorted_range) 0 9 (NewEngineWithGC sample_config)).
  vm_compute. reflexivity.
Defined.

Definition ready_syncer : Syncer := on_listening (set_engine (NewSyncer (NewEngineWithGC sample_config)) sample_engine).
Definition newer_bundle : TenantPolicyBundle := mkPolicyBundle sample_sources [("role:root", "role:admin")] 6.
Definition newer_reads (tid : string) : option Z * option TenantPolicyBundle := (Some 6, Some newer_bundle).

Lemma sample_engine_revision tid t : gc_state sample_engine !! tid = Some t -> Revision t = 5.
Proof.
  assert (map_Forall (fun _ t => Revision t = 5) (gc_state sample_engine)) as Hall.
  { apply map_Forall_to_list. repeat constructor. }
  apply Hall.
Qed.

Lemma newer_reads_good tid : good_reads (H := ascii_table) (newer_reads tid).
Proof.
  exists newer_bundle, (compiled_or_nil (CompilePolicySet (H := ascii_table) sample_sources)).
  split_and!; [done|done|vm_compute; done|].
  intros Hc. apply (hasCycle_spec (H := sorted_range) 0) in Hc. vm_compute in Hc. discriminate Hc.
Qed.

Lemma reconcile_makes_ready_witness :
  Readiness (fun _ => Some 6)
    (reconcileLoadedTenants (H := ascii_table) (H0 := sorted_range) 0 7 8 true newer_reads ready_syncer)
  = (SyncStatusHealthy, false).
Proof.
  apply (reconcile_makes_ready (H := ascii_table) (H0 := sorted_range) 0 7 8 true newer_reads).
  - reflexivity.
  - reflexivity.
  - intros tid t Ht. split; [apply newer_reads_good|].
    rewrite (sample_engine_revision tid t Ht). vm_compute. discriminate.
Defined.

Definition loaded_syncer : Syncer :=
  (SyncTenantWithRevision (H := ascii_table) (H0 := sorted_range) 0 7 8 true (Some edge_bundle)
     (NewSyncer (NewEngineWithGC sample_config)) "t" 5).1.
Definition loaded_trie : TrieRoot := default (NewTrieRoot "none") (gc_state (sy_engine loaded_syncer) !! "t").

Lemma reachable_syncer_answers_witness :
  exists b, represents "t" b loaded_trie
    /\ answers_for b root_request (answer None 9 (sy_engine loaded_syncer) "t" root_request).
Proof.
  apply (reachable_syncer_answers (H := ascii_table) (H0 := sorted_range) sample_config loaded_syncer "t" loaded_trie).
  - apply rtc_once, SyncLoad.
  - vm_compute. reflexivity.
  - intros Hh. vm_compute in Hh. discriminate Hh.
Defined.

(** ** The embedded decision point *)

Section Embedded.
Context `{UnicodeTable} `{RangeOrder}.

(** One delivery of the background goroutines: a message, or a tick for one tenant. *)
Inductive embedded_step : EmbeddedPDP -> EmbeddedPDP -> Prop :=
| EmbeddedEvent seed bundle p tid : embedded_step p (on_redis_event seed bundle p tid).

Definition scoped (allowed : gset string) (p : EmbeddedPDP) : Prop :=
  allowedTenants p = allowed /\ forall tid, is_Some (em_engine p !! tid) -> tid ∈ allowed.

Lemma embedded_sync_scoped allowed seed bundle p tid p' :
  scoped allowed p -> tid ∈ allowed -> embedded_syncTenant seed bundle p tid = Ok p' -> scoped allowed p'.
Proof.
  intros [Ha Hd] Htid. unfold embedded_syncTenant. destruct bundle as [b|]; [|done].
  destruct (CompilePolicySet _) as [compiled|]; [|done]. unfold UpdateTenantPoliciesWithRevision.
  destruct (buildTenantTrie _ _ _ _ _) as [t|]; [|done]. cbn [rbind].
  pose proof (publish_at_spec (em_engine p) tid t (pb_revision b)) as Hp.
  destruct (publish_at _ _ _ _) as [[st []]|]; cbn [rbind fst]; [| |done]; intros [= <-]; (split; [done|]); simpl.
  - destruct Hp as [-> _]. intros tid'. destruct (decide (tid' = tid)) as [->|]; [done|].
    rewrite lookup_insert_ne by done. apply Hd.
  - by destruct Hp as [-> _].
Qed.

Lemma embedded_New_scoped seed allowed bundles p :
  embedded_New seed allowed bundles = Ok p -> scoped (list_to_set allowed) p.
Proof.
  unfold embedded_New.
  assert (scoped (list_to_set allowed) (mkEmbedded NewEngine (list_to_set allowed))) as Hinit.
  { split; [done|]. simpl. intros tid [t Ht]. unfold NewEngine in Ht. by rewrite lookup_empty in Ht. }
  assert (forall tid, tid ∈ range_keys seed (list_to_set allowed) -> tid ∈ (list_to_set allowed : gset string)) as Hks.
  { intros tid. by rewrite range_keys_perm, elem_of_elements. }
  revert Hinit Hks. generalize (mkEmbedded NewEngine (list_to_set allowed)).
  generalize (range_keys seed (list_to_set allowed)). intros ks.
  induction ks as [|k ks IH]; intros q Hq Hks; simpl; [by intros [= <-]|].
  destruct (embedded_syncTenant seed (bundles k) q k) as [q'|err] eqn:E.
  - apply IH; [|set_solver]. eapply embedded_sync_scoped; [done| |done]. apply Hks. by left.
  - intros Hf. exfalso. clear -Hf. induction ks as [|k' ks IH]; simpl in Hf; [done|by apply IH].
Qed.

Lemma embedded_step_scoped allowed p p' : embedded_step p p' -> scoped allowed p -> scoped allowed p'.
Proof.
  intros [seed bundle q tid] Hq. unfold on_redis_event. case_bool_decide as Hin; [|done].
  destruct (embedded_syncTenant seed bundle q tid) as [q'|] eqn:E; [|done].
  eapply embedded_sync_scoped; [done| |done]. by destruct Hq as [<- _].
Qed.
End Embedded.

(** An embedded decision point never allows a request of a tenant outside
    its whitelist, whatever events it received: it refuses the call or denies. *)
Theorem embedded_tenant_scoping `{UnicodeTable} `{RangeOrder} (seed : nat) (allowed : list string)
    (bundles : string -> option TenantPolicyBundle) (p p' : EmbeddedPDP) (canceled : bool)
    (tid subject action resource : string) (context : gmap string string)
    (Hnew : embedded_New seed allowed bundles = Ok p) (Hsteps : rtc embedded_step p p')
    (Hout : tid ∉ allowed) :
  match embedded_CheckPermission canceled p' tid subject action resource context with
  | None => True
  | Some r => allowed = [] /\ res_decision r = DecisionDeny
  end.
Proof.
  apply embedded_New_scoped in Hnew.
  assert (scoped (list_to_set allowed) p') as [Ha Hd].
  { induction Hsteps as [|x y z Hs _ IH]; [done|]. apply IH. by eapply embedded_step_scoped. }
  unfold embedded_CheckPermission. rewrite Ha. rewrite (bool_decide_false (tid ∈ _)) by set_solver.
  case_bool_decide as He; [|done]. simpl. split; [destruct allowed; [done|set_solver]|].
  unfold engine_CheckPermission, GetTenantTrie. destruct canceled; [done|].
  destruct (em_engine p' !! tid) as [t|] eqn:E; [|done].
  assert (tid ∈ (list_to_set allowed : gset string)) by (apply Hd; by rewrite E). set_solver.
Qed.

Definition embedded_start : EmbeddedPDP :=
  match embedded_New (H := ascii_table) (H0 := sorted_range) 0 ["t"] (fun _ => Some edge_bundle) with
  | Ok p => p | Err _ => mkEmbedded ∅ ∅
  end.

Lemma embedded_tenant_scoping_witness :
  match embedded_CheckPermission false embedded_start "other" "role:root" "READ" "file:report" ∅ with
  | None => True
  | Some r => ["t"] = [] /\ res_decision r = DecisionDeny
  end.
Proof.
  apply (embedded_tenant_scoping (H := ascii_table) (H0 := sorted_range) 0 ["t"] (fun _ => Some edge_bundle)
           embedded_start embedded_start).
  - vm_compute. reflexivity.
  - apply rtc_refl.
  - intros Hin. apply list_elem_of_singleton in Hin. discriminate Hin.
Defined.
