(* ===== verification/Simulate.v ===== *)
(** * Simulated decisions ([EngineWithGC.SimulateDecision] in [internal/engine/engine_gc.go])

    [SimulateDecision] copies the subject map of the live index but not the
    subject nodes, so this file models the nodes as heap cells: a bucket is a
    list of locations, and [AddPolicy] on the copy writes through a location
    the live index may share.  Resource and action nodes are reachable from
    their subject node only and stay values. *)

From S2P Require Import Prelude GoStr Ast Dag Trie TrieFacts Evaluator Decision DecisionFacts Engine EngineFacts.
From stdpp Require Import options.
Local Open Scope Z_scope.

Abbreviation Loc := nat.
Abbreviation Heap := (gmap Loc SubjectNode).

(** A [TrieRoot] whose subject nodes are pointers. *)
Record HTrie := mkHTrie {
  ht_tenant : string;
  ht_revision : Z;
  ht_attributes : list string;
  ht_subjects : gmap Z (list Loc);
  ht_globals : list PolicyNode;
  ht_dag : RoleDAG
}.

(** The index a reader sees. *)
Definition deref_bucket (h : Heap) (ls : list Loc) : list SubjectNode := omap (fun l => h !! l) ls.
Definition deref (h : Heap) (t : HTrie) : TrieRoot :=
  mkTrieRoot (ht_tenant t) (ht_revision t) (ht_attributes t) (deref_bucket h <$> ht_subjects t)
    (ht_globals t) (ht_dag t).

(** [findSubjectNode]: the pointer to the node of key [k]. *)
Fixpoint find_loc (h : Heap) (ls : list Loc) (k : string) : option Loc :=
  match ls with
  | [] => None
  | l :: ls' => match h !! l with
                | Some n => if decide (sub_key n = k) then Some l else find_loc h ls' k
                | None => find_loc h ls' k
                end
  end.

(** [AddPolicy] on the heap. *)
Definition heap_AddPolicy (h : Heap) (t : HTrie) (policy : option PolicyNode) : Heap * HTrie :=
  match policy with
  | None => (h, t)
  | Some p =>
      let attrs := merge_attributes (ht_attributes t) (RequiredAttributes p) in
      if is_global p then
        (h, mkHTrie (ht_tenant t) (ht_revision t) attrs (ht_subjects t) (ht_globals t ++ [p]) (ht_dag t))
      else
        let k := buildKey (Principal p) in
        let hash := buildKeyHash (Principal p) in
        let ls := bucket (ht_subjects t) hash in
        match find_loc h ls k with
        | Some l =>
            (alter (add_to_subject p) l h,
             mkHTrie (ht_tenant t) (ht_revision t) attrs (<[hash := ls]> (ht_subjects t)) (ht_globals t) (ht_dag t))
        | None =>
            let l := fresh (dom h) in
            (<[l := add_to_subject p (mkSubjectNode k ∅)]> h,
             mkHTrie (ht_tenant t) (ht_revision t) attrs (<[hash := ls ++ [l]]> (ht_subjects t)) (ht_globals t) (ht_dag t))
        end
  end.

(** The shallow copy: a new root, the same nodes. *)
Definition sim_root (tenantID : string) (trie : option HTrie) : HTrie :=
  match trie with
  | Some t => mkHTrie tenantID 1 [] (ht_subjects t) (ht_globals t) (ht_dag t)
  | None => mkHTrie tenantID 1 [] ∅ [] NewRoleDAG
  end.

(** [SimulateDecision]: the heap it leaves and the answer.  [trie] is what
    [GetTenantTrie] answers; its own effects are in [Engine]. *)
Definition SimulateDecision (canceled : bool) (h : Heap) (trie : option HTrie) (tenantID : string)
    (simPolicy : option PolicyNode) (subject action resource : string) (ctxMap : gmap string string) :
    Heap * DecisionResult :=
  let '(h', sim) := heap_AddPolicy h (sim_root tenantID trie) simPolicy in
  (h', CheckPermission canceled (Some (deref h' sim)) subject action resource ctxMap).

(** ** Facts *)

(** Every pointer of the index is allocated and occurs once. *)
Definition heap_ok (h : Heap) (t : HTrie) : Prop :=
  (forall hash ls, ht_subjects t !! hash = Some ls -> NoDup ls /\ forall l, l ∈ ls -> is_Some (h !! l))
  /\ forall hash1 hash2 ls1 ls2 l, ht_subjects t !! hash1 = Some ls1 -> ht_subjects t !! hash2 = Some ls2 ->
       l ∈ ls1 -> l ∈ ls2 -> hash1 = hash2.

Lemma find_loc_spec h ls k :
  match find_loc h ls k with
  | Some l => l ∈ ls /\ exists n, h !! l = Some n /\ sub_key n = k
  | None => find_node sub_key (deref_bucket h ls) k = None
  end.
Proof.
  unfold deref_bucket. induction ls as [|l ls IH]; csimpl; [done|]. destruct (h !! l) as [n|] eqn:E; csimpl.
  - destruct (decide (sub_key n = k)) as [Hk|Hk].
    + split; [by left|]. eauto.
    + destruct (find_loc h ls k); [|done]. destruct IH. split; [by right|done].
  - destruct (find_loc h ls k); [|done]. destruct IH. split; [by right|done].
Qed.

Lemma find_loc_node h ls k l : find_loc h ls k = Some l -> is_Some (find_node sub_key (deref_bucket h ls) k).
Proof.
  unfold deref_bucket. induction ls as [|l' ls IH]; csimpl; [done|]. destruct (h !! l') as [n|] eqn:E; csimpl; [|done].
  destruct (decide (sub_key n = k)); [by eexists|done].
Qed.

Lemma deref_bucket_other h ls l n : l ∉ ls -> deref_bucket (<[l := n]> h) ls = deref_bucket h ls.
Proof.
  unfold deref_bucket. induction ls as [|l' ls IH]; csimpl; [done|]. intros [Hne Hl]%not_elem_of_cons.
  rewrite lookup_insert_ne by congruence. by rewrite IH.
Qed.

Lemma upsert_none k fresh_n (f : SubjectNode -> SubjectNode) ns :
  find_node sub_key ns k = None -> upsert_node sub_key k fresh_n f ns = ns ++ [f fresh_n].
Proof.
  induction ns as [|n ns IH]; simpl; [done|]. destruct (decide (sub_key n = k)); [done|].
  intros Hn. by rewrite IH.
Qed.

(** Writing through the pointer found is the functional update of the bucket. *)
Lemma deref_alter h ls k l f fresh_n :
  NoDup ls -> (forall l, l ∈ ls -> is_Some (h !! l)) -> find_loc h ls k = Some l ->
  deref_bucket (alter f l h) ls = upsert_node sub_key k fresh_n f (deref_bucket h ls).
Proof.
  intros Hnd Hal. revert Hnd Hal. unfold deref_bucket.
  induction ls as [|l' ls IH]; csimpl; [done|]. intros [Hl' Hnd]%NoDup_cons Hal.
  destruct (Hal l' ltac:(by left)) as [n Hn]. rewrite Hn. csimpl.
  destruct (decide (sub_key n = k)) as [Hk|Hk].
  - intros [= <-]. rewrite lookup_alter_eq, Hn. csimpl. f_equal.
    assert (alter f l' h = <[l' := f n]> h) as -> by (apply map_eq; intros i;
      destruct (decide (i = l')) as [->|]; [by rewrite lookup_alter_eq, lookup_insert_eq, Hn|
      by rewrite lookup_alter_ne, lookup_insert_ne by done]).
    by apply deref_bucket_other.
  - intros Hf. pose proof (find_loc_spec h ls k) as Hs. rewrite Hf in Hs. destruct Hs as [Hin _].
    rewrite lookup_alter_ne by (intros ->; done). rewrite Hn. csimpl. f_equal.
    apply IH; [done| |done]. intros l0 Hl0. apply Hal. by right.
Qed.

(** A non-global policy whose principal has no subject node yet leaves every
    allocated cell alone. *)
Lemma heap_fresh_other h t p l n :
  find_loc h (bucket (ht_subjects t) (buildKeyHash (Principal p))) (buildKey (Principal p)) = None ->
  h !! l = Some n -> (heap_AddPolicy h t (Some p)).1 !! l = Some n.
Proof.
  intros Hf Hl. unfold heap_AddPolicy. destruct (is_global p); [done|]. rewrite Hf. simpl.
  rewrite lookup_insert_ne; [done|]. intros <-.
  apply elem_of_dom_2 in Hl. by apply (is_fresh (dom h)).
Qed.

Lemma deref_mono h h' t :
  heap_ok h t -> (forall l n, h !! l = Some n -> h' !! l = Some n) -> deref h' t = deref h t.
Proof.
  intros [Hok _] Hsub. unfold deref. f_equal. apply map_fmap_ext. intros hash ls Hls.
  destruct (Hok hash ls Hls) as [_ Hal]. unfold deref_bucket. clear Hls Hok.
  induction ls as [|l ls IH]; csimpl; [done|]. destruct (Hal l ltac:(by left)) as [n Hn].
  rewrite Hn, (Hsub l n Hn). csimpl. f_equal. apply IH.
  intros l0 Hl0. apply Hal. by right.
Qed.

(** [AddPolicy] on the heap refines [AddPolicy] on values. *)
Lemma heap_AddPolicy_deref h t p :
  heap_ok h t ->
  let '(h', t') := heap_AddPolicy h t p in deref h' t' = AddPolicy (deref h t) p.
Proof.
  intros [Hok Hdisj]. destruct p as [p|]; [|done]. unfold heap_AddPolicy, AddPolicy.
  destruct (is_global p); [done|]. set (k := buildKey (Principal p)). set (hash := buildKeyHash (Principal p)).
  set (ls := bucket (ht_subjects t) hash).
  assert (NoDup ls /\ forall l, l ∈ ls -> is_Some (h !! l)) as [Hnd Hal].
  { unfold ls, bucket. destruct (ht_subjects t !! hash) eqn:E; [by eapply Hok|]. split; [constructor|].
    by intros l ?%not_elem_of_nil. }
  assert (bucket (Subjects (deref h t)) hash = deref_bucket h ls) as Hb.
  { unfold bucket, ls, deref. simpl. rewrite lookup_fmap. unfold bucket. by destruct (ht_subjects t !! hash). }
  rewrite Hb. unfold deref. cbn [ht_subjects ht_tenant ht_revision ht_attributes ht_globals ht_dag].
  assert (forall h', (forall hash' ls', ht_subjects t !! hash' = Some ls' -> hash' <> hash ->
             deref_bucket h' ls' = deref_bucket h ls') ->
          forall x new, deref_bucket h' new = x ->
          deref_bucket h' <$> <[hash := new]> (ht_subjects t)
          = <[hash := x]> (deref_bucket h <$> ht_subjects t)) as Hmap.
  { intros h' Hother x new <-. apply map_eq. intros i. rewrite lookup_fmap.
    destruct (decide (i = hash)) as [->|Hi]; [by rewrite !lookup_insert_eq|].
    rewrite !lookup_insert_ne, lookup_fmap by done.
    destruct (ht_subjects t !! i) as [ls'|] eqn:E; [|done]. simpl. f_equal. by eapply Hother. }
  destruct (find_loc h ls k) as [l|] eqn:Hf; cbn [ht_subjects ht_tenant ht_revision ht_attributes ht_globals ht_dag]; f_equal;
    apply Hmap.
  - intros hash' ls' Hls' Hne. pose proof (find_loc_spec h ls k) as Hs. rewrite Hf in Hs. destruct Hs as [Hin (n & Hn & _)].
    assert (alter (add_to_subject p) l h = <[l := add_to_subject p n]> h) as ->.
    { apply map_eq. intros i. destruct (decide (i = l)) as [->|];
        [by rewrite lookup_alter_eq, lookup_insert_eq, Hn|by rewrite lookup_alter_ne, lookup_insert_ne by done]. }
    apply deref_bucket_other. intros Hin'. apply Hne.
    unfold ls, bucket in Hin. destruct (ht_subjects t !! hash) as [ls0|] eqn:E; [|by apply not_elem_of_nil in Hin].
    by eapply Hdisj.
  - by apply deref_alter.
  - intros hash' ls' Hls' Hne. apply deref_bucket_other. intros Hin.
    destruct (Hok hash' ls' Hls') as [_ Ha]. destruct (Ha _ Hin) as [n Hn].
    apply elem_of_dom_2 in Hn. by apply (is_fresh (dom h)) in Hn.
  - pose proof (find_loc_spec h ls k) as Hs. rewrite Hf in Hs. rewrite upsert_none by done.
    unfold deref_bucket. rewrite omap_app. fold (deref_bucket (<[fresh (dom h):=add_to_subject p (mkSubjectNode k ∅)]> h) ls).
    rewrite deref_bucket_other.
    + csimpl. by rewrite lookup_insert_eq.
    + intros Hin. destruct (Hal _ Hin) as [n Hn]. apply elem_of_dom_2 in Hn. by apply (is_fresh (dom h)) in Hn.
Qed.

Lemma heap_ok_copy h t tid : heap_ok h t -> heap_ok h (sim_root tid (Some t)).
Proof. done. Qed.

Lemma deref_find h t hash k :
  find_node sub_key (bucket (Subjects (deref h t)) hash) k
  = find_node sub_key (deref_bucket h (bucket (ht_subjects t) hash)) k.
Proof. unfold bucket, deref. cbn. rewrite lookup_fmap. by destruct (ht_subjects t !! hash). Qed.

(** What the live index becomes. *)
Lemma simulate_deref h t tid p : heap_ok h t ->
  deref (heap_AddPolicy h (sim_root tid (Some t)) p).1 t = simulated_live (deref h t) p.
Proof.
  intros Hok. unfold simulated_live. destruct p as [p|]; [|done]. cbn [leaks].
  destruct (is_global p) eqn:Hg; cbn [negb andb]; [unfold heap_AddPolicy; by rewrite Hg|].
  unfold findSubjectNode. rewrite deref_find.
  set (ls := bucket (ht_subjects t) (buildKeyHash (Principal p))). set (k := buildKey (Principal p)).
  pose proof (find_loc_spec h ls k) as Hs. destruct (find_loc h ls k) as [l|] eqn:Hf.
  - rewrite bool_decide_true by (by eapply find_loc_node).
    pose proof (heap_AddPolicy_deref h (sim_root tid (Some t)) (Some p) Hok) as Hd.
    unfold heap_AddPolicy in *. rewrite Hg in *. cbn [ht_subjects sim_root] in *. subst ls k. rewrite Hf in *.
    cbn [fst]. apply (f_equal Subjects) in Hd. cbn [Subjects deref ht_subjects] in Hd.
    unfold deref at 1. f_equal.
    rewrite insert_id in Hd; [rewrite Hd; unfold AddPolicy; by rewrite Hg|].
    destruct Hs as [Hin _]. unfold bucket in *. destruct (ht_subjects t !! _); [done|by apply not_elem_of_nil in Hin].
  - rewrite bool_decide_false by (rewrite Hs; by intros [? [=]]).
    apply deref_mono; [done|]. intros l n Hl. by apply heap_fresh_other.
Qed.

(** ** Properties *)

(** A simulation answers as the tenant's index would with the tried policy
    added, and the live index becomes [simulated_live]: the tried policy is in
    it when its principal has a subject node, and it is as before otherwise. *)
Theorem simulation_answer (canceled : bool) (h : Heap) (t : HTrie) (tid : string) (p : option PolicyNode)
    (subject action resource : string) (ctxMap : gmap string string) (Hok : heap_ok h t) :
  let '(h', r) := SimulateDecision canceled h (Some t) tid p subject action resource ctxMap in
  r = CheckPermission canceled (Some (simulation_trie tid (Some (deref h t)) p)) subject action resource ctxMap
  /\ deref h' t = simulated_live (deref h t) p.
Proof.
  unfold SimulateDecision. pose proof (heap_AddPolicy_deref h (sim_root tid (Some t)) p Hok) as Hd.
  pose proof (simulate_deref h t tid p Hok) as Hl.
  destruct (heap_AddPolicy h (sim_root tid (Some t)) p) as [h' sim]. split; [by rewrite Hd|done].
Qed.

(** A live index with one policy for the role admin. *)
Definition live_policy : PolicyNode :=
  sample_policy "permit-read" EffectPermit (eq_scope "role" "admin") (eq_scope "action" "READ") any_scope NodeNil.
Definition trial_policy : PolicyNode :=
  sample_policy "trial" EffectPermit (eq_scope "role" "admin") (eq_scope "action" "DELETE") any_scope NodeNil.
Definition live : Heap * HTrie := heap_AddPolicy ∅ (sim_root "t" None) (Some live_policy).

Lemma live_ok : heap_ok live.1 live.2.
Proof.
  assert (ht_subjects live.2 = {[buildKeyHash (Principal live_policy) := [0%nat]]}) as Hs by (vm_compute; reflexivity).
  split; rewrite Hs.
  - intros hash ls [_ <-]%lookup_singleton_Some. split; [apply NoDup_singleton|].
    intros l ->%list_elem_of_singleton. vm_compute. eauto.
  - intros h1 h2 ls1 ls2 l [<- _]%lookup_singleton_Some [<- _]%lookup_singleton_Some _ _. done.
Qed.

Lemma simulation_answer_witness :
  deref (SimulateDecision false live.1 (Some live.2) "t" None "role:admin" "READ" "file:x" ∅).1 live.2
  = deref live.1 live.2.
Proof.
  pose proof (simulation_answer false live.1 live.2 "t" None "role:admin" "READ" "file:x" ∅ live_ok) as H.
  destruct (SimulateDecision false live.1 (Some live.2) "t" None "role:admin" "READ" "file:x" ∅) as [h' r].
  apply H.
Defined.

(** A simulation can change the live index: trying a permit for a principal
    that has policies already makes later real requests allowed, although the
    operation is documented to leave the state unchanged. *)
Theorem simulation_leaks_into_live_index :
  let before := CheckPermission false (Some (deref live.1 live.2)) "role:admin" "DELETE" "file:x" ∅ in
  let h' := (SimulateDecision false live.1 (Some live.2) "t" (Some trial_policy) "role:bob" "READ" "file:y" ∅).1 in
  let after := CheckPermission false (Some (deref h' live.2)) "role:admin" "DELETE" "file:x" ∅ in
  res_decision before = DecisionDeny /\ res_decision after = DecisionAllow.
Proof. split; vm_compute; reflexivity. Qed.
