(* ===== verification/Jwt.v ===== *)
(** * Identity tokens ([internal/security/jwt.go])

    Parsing and verifying a token is golang-jwt: the class [JwtLibrary] is its
    [jwt.Parse], with the options the validator passes.  The claims it returns
    are a JSON object; a number is the text [%g] prints of the [float64]. *)

From S2P Require Import Prelude GoStr GoCrypto.
From stdpp Require Import options.
Local Open Scope Z_scope.

(** A value of [jwt.MapClaims]; the fields of an object are in the order [fmt]
    prints them, sorted by key.  JSON never gives [ClaimStrings], a Go caller may. *)
Inductive claim :=
| ClaimString (s : string)
| ClaimBool (b : bool)
| ClaimNumber (g : string)
| ClaimStrings (l : list string)
| ClaimArray (l : list claim)
| ClaimObject (fields : list (string * claim))
| ClaimNull.

Abbreviation MapClaims := (gmap string claim).

(** [fmt.Sprintf] with the verb [%v]. *)
Fixpoint format_v (c : claim) : string :=
  match c with
  | ClaimString s => s
  | ClaimBool b => format_bool b
  | ClaimNumber g => g
  | ClaimStrings l => "[" +:+ join l " " +:+ "]"
  | ClaimArray l => "[" +:+ join (map format_v l) " " +:+ "]"
  | ClaimObject fs => "map[" +:+ join (map (fun kv => kv.1 +:+ ":" +:+ format_v kv.2) fs) " " +:+ "]"
  | ClaimNull => "<nil>"
  end.

(** [claims[k].(string)]. *)
Definition claim_string (claims : MapClaims) (k : string) : option string :=
  match claims !! k with
  | Some (ClaimString s) => Some s
  | _ => None
  end.

Record JWTValidator := mkValidator { secretKey : Bytes; issuer : string; audience : string }.

Definition default_jwt_secret : string := "default-policy-engine-super-secret-key-12345".

Definition NewJWTValidatorWithConfig (secret iss aud : string) : JWTValidator :=
  mkValidator (go_bytes secret) iss aud.
(** The arguments are the values of [JWT_SECRET], [JWT_ISSUER] and [JWT_AUDIENCE]. *)
Definition NewJWTValidator (secret iss aud : string) : JWTValidator :=
  NewJWTValidatorWithConfig (if bool_decide (secret = ""%string) then default_jwt_secret else secret) iss aud.

(** The options of [jwt.Parse]. *)
Record ParserOptions := mkParserOptions {
  validMethods : list string;
  expirationRequired : bool;
  withIssuer : option string;
  withAudience : option string
}.

(** [jwt.Parse] at a time, for the key the callback returns: an error, or the
    claims of the token with its field [Valid]; [None] for claims that are not
    a map. *)
Class JwtLibrary := jwt_Parse : Z -> string -> Bytes -> ParserOptions -> option (option MapClaims * bool).

Definition non_empty (s : string) : option string := if bool_decide (s = ""%string) then None else Some s.

Definition validator_options (v : JWTValidator) : ParserOptions :=
  mkParserOptions ["HS256"%string] true (non_empty (issuer v)) (non_empty (audience v)).

Definition ValidateToken `{JwtLibrary} (now : Z) (v : JWTValidator) (tokenStr : string) : option MapClaims :=
  let raw := if has_prefix tokenStr "Bearer " then drop_bytes 7 tokenStr else tokenStr in
  match jwt_Parse now raw (secretKey v) (validator_options v) with
  | Some (Some claims, true) => Some claims
  | _ => None
  end.

(** The registered claims that are not attributes of the subject. *)
Definition jwt_metadata : list string := ["sub"; "exp"; "iat"; "nbf"; "iss"; "aud"; "jti"]%string.

(** The cases of the type switch all print what [%v] prints. *)
Definition claim_attributes (claims : MapClaims) : gmap string string :=
  format_v <$> filter (fun kc => kc.1 ∉ jwt_metadata) claims.

Definition ExtractSubjectAttributes (claims : MapClaims) : option (string * gmap string string) :=
  match claim_string claims "sub" with
  | None => None
  | Some sub => if bool_decide (sub = ""%string) then None else Some (sub, claim_attributes claims)
  end.

Definition permission_separator (r : Z) : bool := (r =? 44) || (r =? 32).

Definition HasPermission (claims : MapClaims) (required : string) : bool :=
  match claims !! "permissions"%string with
  | None => false
  | Some value =>
      if bool_decide (required = ""%string) then false
      else match value with
           | ClaimString permissions =>
               existsb (fun p => bool_decide (p = required)) (FieldsFunc permissions permission_separator)
           | ClaimStrings permissions => existsb (fun p => bool_decide (p = required)) permissions
           | ClaimArray permissions =>
               existsb (fun p => match p with
                                 | ClaimString text => bool_decide (text = required)
                                 | _ => false
                                 end) permissions
           | _ => false
           end
  end.

(** ** Facts *)

Lemma claim_attributes_lookup claims k v :
  claim_attributes claims !! k = Some v <->
  k ∉ jwt_metadata /\ exists c, claims !! k = Some c /\ format_v c = v.
Proof.
  unfold claim_attributes. rewrite lookup_fmap, fmap_Some. split.
  - intros (c & Hc & ->). apply map_lookup_filter_Some in Hc as [Hc Hk]. eauto.
  - intros (Hk & c & Hc & <-). exists c. split; [|done]. by apply map_lookup_filter_Some.
Qed.

Lemma ExtractSubjectAttributes_ok claims sub attrs : ExtractSubjectAttributes claims = Some (sub, attrs) <->
  claims !! "sub"%string = Some (ClaimString sub) /\ sub <> ""%string /\ attrs = claim_attributes claims.
Proof.
  unfold ExtractSubjectAttributes, claim_string. split.
  - intros H. destruct (claims !! "sub"%string) as [[]|]; try done. case_bool_decide; [done|]. by injection H as <- <-.
  - intros (-> & Hs & ->). by rewrite bool_decide_false.
Qed.

Example permission_string :
  HasPermission {["permissions"%string := ClaimString "policy:read, delegation:revoke"]} "delegation:revoke" = true.
Proof. vm_compute. reflexivity. Qed.
Example permission_prefix :
  HasPermission {["permissions"%string := ClaimString "delegation:revoke_all"]} "delegation:revoke" = false.
Proof. vm_compute. reflexivity. Qed.
