(* ===== verification/Identity.v ===== *)
(** * Authenticated identities ([internal/server/grpc_auth.go], [middleware.go],
    [grpc_transport.go])

    A request is bound to the tenant and the subject of its token, and the
    principal attributes of its context are replaced by the token's claims.
    A gRPC error is its status code, an HTTP error its status number.  The
    random identifiers of [uuid.NewString] are arguments. *)

From S2P Require Import Prelude GoStr GoCrypto Dag Jwt.
From stdpp Require Import options.
Local Open Scope Z_scope.

(** [codes.Code], as far as the server uses it. *)
Inductive Code :=
| Canceled | InvalidArgument | DeadlineExceeded | PermissionDenied | FailedPrecondition
| Internal | Unavailable | Unauthenticated.
Global Instance Code_eq_dec : EqDecision Code.
Proof. solve_decision. Defined.

(** ** The trusted context *)

(** The loop body over the request's context keeps these entries. *)
Definition caller_key (key : string) : bool :=
  negb (bool_decide (key = "tenant_id"%string)) && negb (has_prefix key "principal.").

(** The key under which a claim is stored, if it is. *)
Definition principal_key (key : string) : option string :=
  if bool_decide (key = "tenant_id"%string) then None
  else if has_prefix key "principal." then Some key
  else if negb (contains key ".") then Some ("principal." +:+ key)
  else None.

Section Merge.
Context `{RangeOrder}.

(** [seed] chooses the order of the second [range]; two claims can fall on
    one key, and the later one stays. *)
Definition mergeTrustedPrincipalContext (seed : nat) (requestContext attributes : gmap string string) :
    gmap string string :=
  foldl (fun trusted key =>
           match principal_key key, attributes !! key with
           | Some k, Some value => <[k := value]> trusted
           | _, _ => trusted
           end)
    (filter (fun kv => caller_key kv.1 = true) requestContext)
    (range_keys seed (dom attributes)).
End Merge.

(** ** gRPC authentication *)

(** [metadata.MD]; [Get] lower-cases the key. *)
Abbreviation MD := (gmap string (list string)).
Definition md_Get (md : MD) (key : string) : list string := default [] (md !! to_lower_ascii key).

(** What [metadata.FromIncomingContext] returns. *)
Abbreviation Incoming := (option MD).

(** The token of a header of the form [Bearer <token>]. *)
Definition bearer_token (header : string) : option string :=
  match Fields header with
  | [scheme; token] =>
      if negb (equal_fold scheme "Bearer") || bool_decide (token = ""%string) then None else Some token
  | _ => None
  end.

Definition blank (s : string) : bool := bool_decide (trim_space s = ""%string).

Section Grpc.
Context `{JwtLibrary} `{RangeOrder}.

(** The claims of a valid token for this tenant. *)
Definition validateTenantAndGetClaims (now : Z) (validator : option JWTValidator) (ctx : Incoming)
    (tenantID : string) : result Code MapClaims :=
  guard? blank tenantID else InvalidArgument;
  match validator with
  | None => Err Internal
  | Some v =>
      match ctx with
      | None => Err Unauthenticated
      | Some md =>
          match md_Get md "authorization" with
          | [header] =>
              match bearer_token header with
              | None => Err Unauthenticated
              | Some token =>
                  match ValidateToken now v token with
                  | None => Err Unauthenticated
                  | Some claims =>
                      match claim_string claims "tenant_id" with
                      | None => Err Unauthenticated
                      | Some tokenTenantID =>
                          guard? blank tokenTenantID else Unauthenticated;
                          guard? negb (bool_decide (tokenTenantID = tenantID)) else PermissionDenied;
                          match claim_string claims "sub" with
                          | None => Err Unauthenticated
                          | Some subject => guard? blank subject else Unauthenticated; Ok claims
                          end
                      end
                  end
              end
          | _ => Err Unauthenticated
          end
      end
  end.

Definition bindTrustedIdentity (seed : nat) (claims : MapClaims) (requestContext : gmap string string) :
    option (string * gmap string string) :=
  match ExtractSubjectAttributes claims with
  | None => None
  | Some (subject, attributes) =>
      Some (subject, mergeTrustedPrincipalContext seed requestContext attributes)
  end.

(** ** HTTP authentication *)

Record authenticatedIdentity := mkIdentity {
  id_TenantID : string;
  id_Subject : string;
  id_PrincipalAttributes : gmap string string;
  id_Claims : MapClaims
}.

(** What the middleware gives the next handler, or the status it answers with.
    [header] is the Authorization header, empty when it is absent, and
    [pathTenantID] the path value, empty when the route has none. *)
Definition TenantAuthMiddleware (now : Z) (validator : option JWTValidator) (header pathTenantID : string) :
    result Z authenticatedIdentity :=
  match validator with
  | None => Err 500
  | Some v =>
      guard? bool_decide (header = ""%string) else 401;
      match bearer_token header with
      | None => Err 401
      | Some token =>
          match ValidateToken now v token with
          | None => Err 401
          | Some claims =>
              match claim_string claims "tenant_id" with
              | None => Err 403
              | Some tenantIDFromToken =>
                  guard? bool_decide (tenantIDFromToken = ""%string) else 403;
                  guard? negb (bool_decide (pathTenantID = ""%string))
                         && negb (bool_decide (pathTenantID = tenantIDFromToken)) else 403;
                  match ExtractSubjectAttributes claims with
                  | None => Err 401
                  | Some (subject, attributes) => Ok (mkIdentity tenantIDFromToken subject attributes claims)
                  end
              end
          end
      end
  end.
End Grpc.

(** [identity] is what the request context holds. *)
Definition RequirePermission (permission : string) (identity : option authenticatedIdentity) :
    result Z authenticatedIdentity :=
  match identity with
  | None => Err 401
  | Some i => guard? negb (HasPermission (id_Claims i) permission) else 403; Ok i
  end.

(** ** Correlation identifiers *)

Definition correlation_byte (c : Z) : bool :=
  ((97 <=? c) && (c <=? 122)) || ((65 <=? c) && (c <=? 90)) || ((48 <=? c) && (c <=? 57))
  || bool_decide (c ∈ [45; 95; 46; 58; 47]).
Definition validCorrelationID (value : string) : bool :=
  if bool_decide (value = ""%string) || (128 <? go_len value) then false
  else forallb correlation_byte (go_bytes value).

Record auditCorrelation := mkCorrelation { requestID : string; traceID : string }.

(** The correlation [traceInterceptor] puts in the context. *)
Definition received_trace (md : MD) : string :=
  match md_Get md "x-trace-id" with
  | v :: _ => v
  | [] => match md_Get md "traceparent" with
          | v :: _ => match split v "-" with _ :: p :: _ => p | _ => ""%string end
          | [] => ""%string
          end
  end.
Definition traceInterceptor (uuid1 uuid2 : string) (ctx : Incoming) : auditCorrelation :=
  let rid := match ctx with
             | Some md => match md_Get md "x-request-id" with
                          | v :: _ => if validCorrelationID v then v else uuid1
                          | [] => uuid1
                          end
             | None => uuid1
             end in
  let tid := match ctx with Some md => received_trace md | None => ""%string end in
  mkCorrelation rid (if validCorrelationID tid then tid else remove_char "-" uuid2).

Definition withAuditCorrelation (ctx : option auditCorrelation) (source : gmap string string) :
    gmap string string :=
  match ctx with
  | None => source
  | Some c => <["trace_id"%string := traceID c]> (<["request_id"%string := requestID c]> source)
  end.

(** ** Theorems about identities

    Whatever the caller sends, the principal attributes of a decision are the
    claims of its token, and a request is served only for the tenant of its
    token. *)

(** *** Strings *)

Lemma principal_key_prefix a k : principal_key a = Some k -> has_prefix k "principal." = true.
Proof.
  unfold principal_key. intros H. case_bool_decide; [done|].
  destruct (has_prefix a "principal.") eqn:E; [by injection H as <-|].
  destruct (negb _); [|done]. injection H as <-. apply has_prefix_app.
Qed.

Lemma tenant_id_not_principal : has_prefix "tenant_id" "principal." = false.
Proof. reflexivity. Qed.

(** *** The merge *)

Section MergeFacts.
Context `{RangeOrder}.

Definition merge_step (attrs : gmap string string) (trusted : gmap string string) (key : string) : gmap string string :=
  match principal_key key, attrs !! key with
  | Some k, Some value => <[k := value]> trusted
  | _, _ => trusted
  end.

Lemma merge_step_other attrs m a k : has_prefix k "principal." = false -> merge_step attrs m a !! k = m !! k.
Proof.
  intros Hk. unfold merge_step. destruct (principal_key a) as [k'|] eqn:E; [|done].
  destruct (attrs !! a); [|done]. apply lookup_insert_ne. intros ->.
  apply principal_key_prefix in E. congruence.
Qed.

Lemma merge_fold_other attrs keys m k :
  has_prefix k "principal." = false -> foldl (merge_step attrs) m keys !! k = m !! k.
Proof.
  intros Hk. revert m. induction keys as [|a keys IH]; intros m; [done|].
  simpl. rewrite IH. by apply merge_step_other.
Qed.

(** Two maps that agree at [k] still agree after the loop. *)
Lemma merge_fold_agree attrs keys m m' k :
  m !! k = m' !! k -> foldl (merge_step attrs) m keys !! k = foldl (merge_step attrs) m' keys !! k.
Proof.
  revert m m'. induction keys as [|a keys IH]; intros m m' Hm; [done|].
  simpl. apply IH. unfold merge_step. destruct (principal_key a) as [k'|]; [|done].
  destruct (attrs !! a) as [v|]; [|done]. destruct (decide (k' = k)) as [->|Hne].
  - by rewrite !lookup_insert_eq.
  - by rewrite !lookup_insert_ne.
Qed.

Definition claims_key (attrs : gmap string string) (k a v : string) : Prop :=
  attrs !! a = Some v /\ principal_key a = Some k.

Lemma merge_fold_source attrs keys m k v :
  foldl (merge_step attrs) m keys !! k = Some v ->
  m !! k = Some v \/ exists a, a ∈ keys /\ claims_key attrs k a v.
Proof.
  revert m. induction keys as [|a keys IH]; intros m Hk; [by left|].
  simpl in Hk. apply IH in Hk as [Hk|(a' & Ha & Hc)]; [|right; exists a'; split; [by right|done]].
  unfold merge_step in Hk. destruct (principal_key a) as [k'|] eqn:Ep; [|by left].
  destruct (attrs !! a) as [w|] eqn:Ea; [|by left].
  destruct (decide (k' = k)) as [->|Hne].
  - rewrite lookup_insert_eq in Hk. injection Hk as ->. right. exists a. split; [by left|by split].
  - rewrite lookup_insert_ne in Hk by done. by left.
Qed.

(** A claim that no other claim shares its key with is stored. *)
Lemma merge_fold_stored attrs keys m k a v :
  claims_key attrs k a v -> (forall a' v', a' ∈ keys -> claims_key attrs k a' v' -> v' = v) ->
  a ∈ keys \/ m !! k = Some v -> foldl (merge_step attrs) m keys !! k = Some v.
Proof.
  intros [Ha Hp]. revert m. induction keys as [|b keys IH]; intros m Hu Hin; simpl.
  - by destruct Hin as [Hin|]; [inversion Hin|].
  - apply IH; [intros; eapply Hu; [by right|done]|].
    destruct (decide (principal_key b = Some k /\ is_Some (attrs !! b))) as [[Hb [w Hw]]|Hb].
    + right. unfold merge_step. rewrite Hb, Hw, lookup_insert_eq. f_equal.
      apply (Hu b); [by left|by split].
    + assert (merge_step attrs m b !! k = m !! k) as Hk.
      { unfold merge_step. destruct (principal_key b) as [k'|] eqn:E; [|done].
        destruct (attrs !! b) as [w|] eqn:Ew; [|done]. apply lookup_insert_ne. intros ->. apply Hb. eauto. }
      destruct Hin as [Hin|Hin]; [|right; congruence].
      apply elem_of_cons in Hin as [->|Hin]; [|by left].
      exfalso. apply Hb. eauto.
Qed.

Lemma merge_eq seed ctx attrs : mergeTrustedPrincipalContext seed ctx attrs =
  foldl (merge_step attrs) (filter (fun kv => caller_key kv.1 = true) ctx) (range_keys seed (dom attrs)).
Proof. done. Qed.

Lemma range_keys_dom seed (attrs : gmap string string) a : a ∈ range_keys seed (dom attrs) <-> is_Some (attrs !! a).
Proof. rewrite range_keys_perm, elem_of_elements. apply elem_of_dom. Qed.

Lemma caller_lookup (ctx : gmap string string) k :
  filter (fun kv => caller_key kv.1 = true) ctx !! k = if caller_key k then ctx !! k else None.
Proof.
  destruct (caller_key k) eqn:E.
  - destruct (ctx !! k) as [v|] eqn:Ev.
    + by apply map_lookup_filter_Some.
    + apply map_lookup_filter_None. by left.
  - apply map_lookup_filter_None. right. intros x _. simpl. congruence.
Qed.

(** Outside the principal namespace the request's context is kept, without the tenant. *)
Lemma merge_caller seed ctx attrs k : has_prefix k "principal." = false ->
  mergeTrustedPrincipalContext seed ctx attrs !! k = if bool_decide (k = "tenant_id"%string) then None else ctx !! k.
Proof.
  intros Hk. rewrite merge_eq, merge_fold_other, caller_lookup by done.
  unfold caller_key. rewrite Hk. by case_bool_decide.
Qed.

(** In the principal namespace nothing depends on the request's context. *)
Lemma merge_principal_agree seed ctx ctx' attrs k : has_prefix k "principal." = true ->
  mergeTrustedPrincipalContext seed ctx attrs !! k = mergeTrustedPrincipalContext seed ctx' attrs !! k.
Proof.
  intros Hk. rewrite !merge_eq. apply merge_fold_agree. rewrite !caller_lookup.
  unfold caller_key. by rewrite Hk, andb_false_r.
Qed.

Lemma merge_principal_source seed ctx attrs k v : has_prefix k "principal." = true ->
  mergeTrustedPrincipalContext seed ctx attrs !! k = Some v -> exists a, claims_key attrs k a v.
Proof.
  intros Hk. rewrite merge_eq. intros Hv. apply merge_fold_source in Hv as [Hv|(a & _ & Ha)]; [|by exists a].
  rewrite caller_lookup in Hv. unfold caller_key in Hv. by rewrite Hk, andb_false_r in Hv.
Qed.

Lemma merge_principal_stored seed ctx attrs k a v :
  claims_key attrs k a v -> (forall a' v', claims_key attrs k a' v' -> v' = v) ->
  mergeTrustedPrincipalContext seed ctx attrs !! k = Some v.
Proof.
  intros Ha Hu. rewrite merge_eq. eapply merge_fold_stored; [done|by intros; eapply Hu|].
  left. apply range_keys_dom. destruct Ha as [-> _]. by eexists.
Qed.

Lemma tenant_id_removed seed ctx attrs : mergeTrustedPrincipalContext seed ctx attrs !! "tenant_id"%string = None.
Proof. by rewrite merge_caller. Qed.
End MergeFacts.

(** *** Authentication *)

Section AuthFacts.
Context `{JwtLibrary} `{RangeOrder}.

(** A token that verified, for this tenant and subject. *)
Definition authentic (now : Z) (v : JWTValidator) (claims : MapClaims) (tenant subject : string) : Prop :=
  (exists token, ValidateToken now v token = Some claims) /\
  claims !! "tenant_id"%string = Some (ClaimString tenant) /\
  claims !! "sub"%string = Some (ClaimString subject) /\ subject <> ""%string.

Lemma claim_string_Some claims k s : claim_string claims k = Some s -> claims !! k = Some (ClaimString s).
Proof. unfold claim_string. destruct (claims !! k) as [[]|]; intros [=]; by subst. Qed.

Lemma validateTenant_ok now validator ctx tenant claims :
  validateTenantAndGetClaims now validator ctx tenant = Ok claims ->
  exists v subject, validator = Some v /\ authentic now v claims tenant subject /\ blank tenant = false.
Proof.
  unfold validateTenantAndGetClaims. intros Hc. destruct (blank tenant) eqn:Eb; [done|].
  destruct validator as [v|]; [|done]. destruct ctx as [md|]; [|done].
  destruct (md_Get md "authorization") as [|header [|]]; [done| |done].
  destruct (bearer_token header) as [token|]; [|done].
  destruct (ValidateToken now v token) as [cl|] eqn:Et; [|done].
  destruct (claim_string cl "tenant_id") as [t|] eqn:Ec; [|done].
  destruct (blank t); [done|]. case_bool_decide as Htt; [|done]. cbn [negb] in Hc. subst t.
  destruct (claim_string cl "sub") as [sub|] eqn:Es; [|done].
  destruct (blank sub) eqn:Ebs; [done|]. injection Hc as <-.
  exists v, sub. split; [done|]. split; [|done]. split; [by exists token|].
  split; [by apply claim_string_Some|]. split; [by apply claim_string_Some|].
  intros ->. by vm_compute in Ebs.
Qed.

Lemma bind_ok seed claims ctx subject trusted :
  bindTrustedIdentity seed claims ctx = Some (subject, trusted) <->
  claims !! "sub"%string = Some (ClaimString subject) /\ subject <> ""%string /\
  trusted = mergeTrustedPrincipalContext seed ctx (claim_attributes claims).
Proof.
  unfold bindTrustedIdentity. destruct (ExtractSubjectAttributes claims) as [[s a]|] eqn:E.
  - apply ExtractSubjectAttributes_ok in E as (Es & Hs & ->). split.
    + by intros [= <- <-].
    + intros (E' & _ & ->). rewrite Es in E'. by injection E' as ->.
  - split; [done|]. intros (Es & Hs & _).
    assert (ExtractSubjectAttributes claims = Some (subject, claim_attributes claims)) by
      by apply ExtractSubjectAttributes_ok. congruence.
Qed.

(** Claims that passed authentication always bind. *)
Lemma authentic_binds now v claims tenant subject seed ctx :
  authentic now v claims tenant subject ->
  bindTrustedIdentity seed claims ctx =
    Some (subject, mergeTrustedPrincipalContext seed ctx (claim_attributes claims)).
Proof. intros (_ & _ & Hs & Hn). by apply bind_ok. Qed.

Lemma middleware_ok now validator header path i :
  TenantAuthMiddleware now validator header path = Ok i ->
  exists v, validator = Some v /\ authentic now v (id_Claims i) (id_TenantID i) (id_Subject i) /\
    (path = ""%string \/ path = id_TenantID i) /\
    id_PrincipalAttributes i = claim_attributes (id_Claims i).
Proof.
  unfold TenantAuthMiddleware. intros Hm. destruct validator as [v|]; [|done].
  case_bool_decide; [done|]. destruct (bearer_token header) as [token|]; [|done].
  destruct (ValidateToken now v token) as [claims|] eqn:Et; [|done].
  destruct (claim_string claims "tenant_id") as [t|] eqn:Ec; [|done].
  case_bool_decide; [done|]. destruct (negb _ && negb _) eqn:Ep; [done|].
  destruct (ExtractSubjectAttributes claims) as [[s a]|] eqn:Es; [|done].
  injection Hm as <-. apply ExtractSubjectAttributes_ok in Es as (Es & Hs & ->).
  exists v. split; [done|]. split; [|split; [|done]].
  - split; [by exists token|]. by apply claim_string_Some in Ec.
  - apply andb_false_iff in Ep as [Ep|Ep]; bool_to_prop; auto.
Qed.
End AuthFacts.
