(* ===== verification/DelegationAuth.v ===== *)
(** * Delegated requests ([internal/server/delegation_auth.go],
    [delegation_auth_v2.go])

    A delegated request carries a proof and the tuple it was signed for in its
    context; a confirmation of a purchase order carries a whole canonical
    business intent under keys [cbi.*].  The code writes into the context map
    of the request, which no one else holds; the functions return the request
    they leave. *)

From S2P Require Import Prelude GoStr GoCrypto Canonical Intent Delegation Identity.
From stdpp Require Import options.
Local Open Scope Z_scope.

(** [policyv1.CheckAccessRequest]. *)
Record CheckAccessRequest := mkCheckAccess {
  cr_TenantId : string;
  cr_Subject : string;
  cr_Action : string;
  cr_Resource : string;
  cr_Context : gmap string string
}.

Definition set_context (r : CheckAccessRequest) (c : gmap string string) : CheckAccessRequest :=
  mkCheckAccess (cr_TenantId r) (cr_Subject r) (cr_Action r) (cr_Resource r) c.

(** Reading a key of a [map[string]string]. *)
Definition ctx_get (c : gmap string string) (key : string) : string := default ""%string (c !! key).

(** ** V1 *)

Definition delegationContextKeys : list string :=
  ["delegation_proof"; "delegated_by"; "delegation_valid_until"; "delegation_issued_at"; "delegation_nonce";
   "delegation_chain"]%string.

Inductive TupleError :=
| MissingTimestamp (field : string) | InvalidTimestamp (field : string)
| MissingContext | UnknownIntentField | NotCanonicalInteger (field : string)
| InvalidIntent (e : IntentError) | BindingMismatch (name : string).

Definition parseDelegationTimestamp (value field : string) : result TupleError Z :=
  guard? blank value else MissingTimestamp field;
  match ParseInt value with
  | None => Err (InvalidTimestamp field)
  | Some parsed => Ok parsed
  end.

Definition delegationProofInput (r : CheckAccessRequest) : result TupleError DelegationProofInput :=
  let c := cr_Context r in
  let? issuedAt := parseDelegationTimestamp (ctx_get c "delegation_issued_at") "delegation_issued_at" in
  let? validUntil := parseDelegationTimestamp (ctx_get c "delegation_valid_until") "delegation_valid_until" in
  Ok (mkProofInput (cr_TenantId r) (ctx_get c "delegation_grant_id") (ctx_get c "delegated_by") (cr_Subject r)
        (cr_Action r) (cr_Resource r) (ctx_get c "amount") (ctx_get c "delegation_chain")
        (ctx_get c "resource.creator_id") (ctx_get c "tool_context") (ctx_get c "execution_mode")
        (ctx_get c "delegation_nonce") issuedAt validUntil).

(** ** V2 *)

Definition canonicalIntentContextPrefix : string := "cbi.".
Definition canonicalIntentFields : list string :=
  ["intent_version"; "tenant_id"; "company_id"; "resource_type"; "resource_id"; "action"; "vendor_id";
   "currency_code"; "currency_scale"; "amount_minor"; "line_digest"; "record_state"; "record_write_version";
   "state_witness"; "creator_subject"; "delegation_grant_id"; "delegator_subject"; "agent_subject";
   "command_id"; "proof_version"]%string.
Definition canonicalIntentContextKeys : list string :=
  (fun field => canonicalIntentContextPrefix +:+ field) <$> canonicalIntentFields.

Definition parseCanonicalInt64 (field value : string) (positive : bool) : result TupleError Z :=
  match ParseInt value with
  | None => Err (NotCanonicalInteger field)
  | Some parsed =>
      guard? negb (bool_decide (FormatInt parsed = value)) || (positive && (parsed <=? 0))
             || (negb positive && (parsed <? 0)) else NotCanonicalInteger field;
      Ok parsed
  end.

Definition canonicalContext (c : gmap string string) (field : string) : string :=
  ctx_get c (canonicalIntentContextPrefix +:+ field).
Definition canonicalContextInt64 (c : gmap string string) (field : string) (positive : bool) : result TupleError Z :=
  parseCanonicalInt64 field (canonicalContext c field) positive.

Definition resourcePrefix : string := "purchase_order:".

Definition requiresDelegationProofV2 (r : CheckAccessRequest) : bool :=
  if bool_decide (cr_Action r = ConfirmPurchaseOrderAction) then true
  else if negb (has_prefix (cr_Resource r) resourcePrefix) then false
  else is_ok (parseCanonicalInt64 "resource_id" (trim_prefix (cr_Resource r) resourcePrefix) true).

(** No key of the context has the prefix without being one of the keys. *)
Definition intent_key_ok (key : string) : bool :=
  negb (has_prefix key canonicalIntentContextPrefix) || bool_decide (key ∈ canonicalIntentContextKeys).
Definition rejectUnknownCanonicalIntentFields (c : gmap string string) : result TupleError unit :=
  guard? negb (bool_decide (map_Forall (fun key _ => intent_key_ok key = true) c)) else UnknownIntentField;
  Ok tt.

(** The pairs [validateIntentRequestBinding] compares, by name. *)
Definition binding_checks (r : CheckAccessRequest) (i : CanonicalBusinessIntent) : list (string * string * string) :=
  [("tenant", cr_TenantId r, TenantID i);
   ("subject", cr_Subject r, AgentSubject i);
   ("action", cr_Action r, Action i);
   ("resource", cr_Resource r, resourcePrefix +:+ FormatInt (ResourceID i));
   ("grant", ctx_get (cr_Context r) "delegation_grant_id", FormatInt (DelegationGrantID i));
   ("delegator", ctx_get (cr_Context r) "delegated_by", DelegatorSubject i);
   ("creator", ctx_get (cr_Context r) "resource.creator_id", CreatorSubject i);
   ("command", ctx_get (cr_Context r) "delegation_nonce", CommandID i);
   ("chain", ctx_get (cr_Context r) "delegation_chain", DelegatorSubject i +:+ "," +:+ AgentSubject i)]%string.
Fixpoint first_mismatch (checks : list (string * string * string)) : result TupleError unit :=
  match checks with
  | [] => Ok tt
  | (name, actual, expected) :: rest =>
      guard? negb (bool_decide (actual = expected)) else BindingMismatch name; first_mismatch rest
  end.
Definition validateIntentRequestBinding (r : CheckAccessRequest) (i : CanonicalBusinessIntent) : result TupleError unit :=
  first_mismatch (binding_checks r i).

(** A request always has a context here; the test for nil is left out. *)
Definition delegationProofV2Input (r : CheckAccessRequest) : result TupleError DelegationProofV2Input :=
  let c := cr_Context r in
  let? _ := rejectUnknownCanonicalIntentFields c in
  let? companyID := canonicalContextInt64 c "company_id" true in
  let? resourceID := canonicalContextInt64 c "resource_id" true in
  let? vendorID := canonicalContextInt64 c "vendor_id" true in
  let? currencyScale := canonicalContextInt64 c "currency_scale" false in
  let? amountMinor := canonicalContextInt64 c "amount_minor" false in
  let? grantID := canonicalContextInt64 c "delegation_grant_id" true in
  let intent := mkIntent (canonicalContext c "intent_version") (canonicalContext c "tenant_id") companyID
    (canonicalContext c "resource_type") resourceID (canonicalContext c "action") vendorID
    (canonicalContext c "currency_code") currencyScale amountMinor (canonicalContext c "line_digest")
    (canonicalContext c "record_state") (canonicalContext c "record_write_version")
    (canonicalContext c "state_witness") (canonicalContext c "creator_subject") grantID
    (canonicalContext c "delegator_subject") (canonicalContext c "agent_subject")
    (canonicalContext c "command_id") (canonicalContext c "proof_version") in
  match Validate intent with
  | Err e => Err (InvalidIntent e)
  | Ok _ =>
      let? _ := validateIntentRequestBinding r intent in
      let? issuedAt := parseDelegationTimestamp (ctx_get c "delegation_issued_at") "delegation_issued_at" in
      let? validUntil := parseDelegationTimestamp (ctx_get c "delegation_valid_until") "delegation_valid_until" in
      Ok (mkProofV2 intent issuedAt validUntil)
  end.

(** [factor *= 10], [scale] times. *)
Definition scale_factor (scale : Z) : Z := Nat.iter (Z.to_nat scale) (fun f => to_int64 (f * 10)) 1.

(** The scale of a valid intent is at most six, so the divisor is not zero. *)
Definition canonicalMajorAmount (amountMinor scale : Z) : string :=
  if scale =? 0 then FormatInt amountMinor
  else
    let factor := scale_factor scale in
    let whole := amountMinor ÷ factor in
    let fraction := Z.rem amountMinor factor in
    if fraction =? 0 then FormatInt whole
    else FormatInt whole +:+ "." +:+ trim_right_char (sprintf_0d (Z.to_nat scale) fraction) "0".

Definition bindCanonicalIntentContext (c : gmap string string) (i : CanonicalBusinessIntent) : gmap string string :=
  <["execution_mode"%string := "autonomous_run"%string]>
  (<["tool_context"%string := "tool:auto_confirm_po"%string]>
  (<["delegation_chain"%string := DelegatorSubject i +:+ "," +:+ AgentSubject i]>
  (<["delegated_by"%string := DelegatorSubject i]>
  (<["resource.creator_id"%string := CreatorSubject i]>
  (<["currency"%string := CurrencyCode i]>
  (<["amount_minor"%string := FormatInt (AmountMinor i)]>
  (<["amount"%string := canonicalMajorAmount (AmountMinor i) (CurrencyScale i)]> c))))))).

(** The request after [validateDelegationV2], or [None] for any of its errors. *)
Definition validateDelegationV2 (now : Z) (m : DelegationManager) (r : CheckAccessRequest) (proof : string) :
    option CheckAccessRequest :=
  match delegationProofV2Input r with
  | Err _ => None
  | Ok input =>
      match VerifyProofV2 now m input proof with
      | Err _ => None
      | Ok _ => Some (set_context r (bindCanonicalIntentContext (cr_Context r) (v2_Intent input)))
      end
  end.

Definition validateDelegation (now : Z) (mgr : option DelegationManager) (r : CheckAccessRequest) :
    result Code CheckAccessRequest :=
  let c := cr_Context r in
  if bool_decide (ctx_get c "delegation_grant_id" = ""%string) then
    guard? existsb (fun key => negb (bool_decide (ctx_get c key = ""%string)))
             (delegationContextKeys ++ canonicalIntentContextKeys) else PermissionDenied;
    Ok (set_context r (<["delegation_chain"%string := cr_Subject r]> c))
  else
    match mgr with
    | None => Err Internal
    | Some m =>
        let proof := ctx_get c "delegation_proof" in
        guard? bool_decide (proof = ""%string) else PermissionDenied;
        if requiresDelegationProofV2 r then
          match validateDelegationV2 now m r proof with
          | None => Err PermissionDenied
          | Some r' => Ok r'
          end
        else
          match delegationProofInput r with
          | Err _ => Err PermissionDenied
          | Ok input =>
              match VerifyProof now m input proof with
              | Err _ => Err PermissionDenied
              | Ok _ => Ok r
              end
          end
    end.
