(* ===== verification/IntText.v ===== *)
(** * Integers as text

    [strconv.FormatInt] writes a canonical decimal and [ParseInt] reads it
    back; a decimal with a fraction is not an integer. *)

From S2P Require Import Prelude GoStr GoTime GoCrypto Canonical PoLines DecimalFacts.
From stdpp Require Import options.
Local Open Scope Z_scope.

(** ** Digits *)

Lemma dec_digits_spec fuel n acc : 0 <= n < 10 ^ Z.of_nat fuel -> fuel <> O ->
  exists ds, dec_digits fuel n acc = ds ++ acc /\ integer_part ds /\ digits ds = n.
Proof.
  revert n acc. induction fuel as [|fuel IH]; intros n acc Hn Hf; [done|].
  cbn [dec_digits]. case_match eqn:E; bool_to_prop.
  - exists [48 + n mod 10]. rewrite Z.mod_small by lia. split; [done|].
    assert (is_digit_byte (48 + n) = true) by (unfold is_digit_byte; lia).
    split; [split; [by constructor|]|unfold digits; simpl; lia].
    destruct (decide (n = 0)) as [->|Hz]; [by left|]. right. exists (48 + n), []. split; [done|].
    unfold nonzero_digit. lia.
  - rewrite Nat2Z.inj_succ, Z.pow_succ_r in Hn by lia.
    assert (0 <= n / 10 < 10 ^ Z.of_nat fuel) as Hd by (split; [apply Z.div_pos; lia|apply Z.div_lt_upper_bound; lia]).
    destruct fuel as [|fuel]; [simpl in Hn; lia|].
    destruct (IH (n / 10) ((48 + n mod 10) :: acc) Hd ltac:(done)) as (ds & -> & [Hall Hhd] & Hds).
    exists (ds ++ [48 + n mod 10]). rewrite <- app_assoc. split; [done|].
    pose proof (Z.mod_pos_bound n 10 ltac:(lia)) as Hm.
    split; [|rewrite digits_snoc, Hds; pose proof (Z.div_mod n 10 ltac:(lia)); lia].
    split.
    + apply Forall_app. split; [done|]. constructor; [unfold is_digit_byte; lia|constructor].
    + destruct Hhd as [->|(b & l & -> & Hb)]; [|right; by exists b, (l ++ [48 + n mod 10])].
      change (digits [48]) with 0 in Hds. pose proof (Z.div_mod n 10 ltac:(lia)). lia.
Qed.

Lemma max_int64_digits n : 0 <= n <= 2 ^ 63 -> 0 <= n < 10 ^ Z.of_nat 20.
Proof. intros H. split; [lia|]. assert (2 ^ 63 < 10 ^ Z.of_nat 20) by done. lia. Qed.

Lemma all_digits_value ds acc : all_digits ds ->
  digits_value acc ds = Some (foldl (fun a b => a * 10 + (b - 48)) acc ds).
Proof.
  revert acc. induction ds as [|b ds IH]; intros acc Hd; [done|].
  apply Forall_cons in Hd as [Hb Hd]. simpl. rewrite Hb. by apply IH.
Qed.

Lemma parse_digits_value ds : integer_part ds -> parse_digits ds = Some (digits ds).
Proof.
  intros [Hd Hne]. unfold parse_digits. destruct ds as [|b ds]; [|by apply all_digits_value].
  destruct Hne as [|(? & ? & ? & _)]; done.
Qed.

Lemma all_digits_byte ds : all_digits ds -> Forall is_byte ds.
Proof. intros Hd. eapply Forall_impl; [exact Hd|]. intros b. unfold is_digit_byte, is_byte. intros Hb. bool_to_prop. lia. Qed.

Lemma digit_no_sign b l : is_digit_byte b = true ->
  match b :: l with 43 :: r => (false, r) | 45 :: r => (true, r) | _ => (false, b :: l) end = (false, b :: l).
Proof.
  unfold is_digit_byte. intros Hb. bool_to_prop. destruct b as [|p|p]; [done| |done].
  destruct (Z.eq_dec (Z.pos p) 43) as [E|E]; [lia|]. destruct (Z.eq_dec (Z.pos p) 45) as [E'|E']; [lia|].
  by do 6 (destruct p as [p|p|]; [..|done]).
Qed.

Lemma format_nonneg n : 0 <= n <= 2 ^ 63 ->
  exists ds, dec_digits 20 n [] = ds /\ integer_part ds /\ digits ds = n.
Proof.
  intros Hn. destruct (dec_digits_spec 20 n [] (max_int64_digits n Hn) ltac:(done)) as (ds & Hds & Hi & Hv).
  exists ds. by rewrite Hds, app_nil_r.
Qed.

Lemma integer_part_cons ds : integer_part ds -> exists b l, ds = b :: l /\ is_digit_byte b = true.
Proof.
  intros [Hd Hh]. destruct ds as [|b l]; [destruct Hh as [|(? & ? & ? & _)]; done|].
  exists b, l. split; [done|]. by apply Forall_cons in Hd as [Hb _].
Qed.

Lemma FormatInt_bytes n : 0 <= n <= 2 ^ 63 ->
  exists ds, go_bytes (FormatInt n) = ds /\ integer_part ds /\ digits ds = n.
Proof.
  intros Hn. destruct (format_nonneg n Hn) as (ds & Hds & Hi & Hv). exists ds. split; [|done].
  unfold FormatInt, format_int_bytes. rewrite (proj2 (Z.ltb_ge n 0)) by lia. rewrite Hds.
  apply go_bytes_of_bytes, all_digits_byte, Hi.
Qed.

Lemma ParseInt_FormatInt n : is_int64 n -> ParseInt (FormatInt n) = Some n.
Proof.
  intros Hn. unfold ParseInt. destruct (Z.lt_ge_cases n 0) as [Hneg|Hpos].
  - destruct (format_nonneg (- n)) as (ds & Hds & Hi & Hv); [unfold is_int64, min_int64 in Hn; lia|].
    unfold FormatInt, format_int_bytes. rewrite (proj2 (Z.ltb_lt n 0)), Hds by lia.
    rewrite go_bytes_of_bytes; [|constructor; [unfold is_byte; lia|apply all_digits_byte, Hi]].
    unfold parse_int_bytes. rewrite parse_digits_value, Hv, Z.opp_involutive by done.
    by rewrite bool_decide_true.
  - destruct (FormatInt_bytes n) as (ds & -> & Hi & Hv); [unfold is_int64, max_int64 in Hn; lia|].
    unfold parse_int_bytes. destruct (integer_part_cons ds Hi) as (b & l & -> & Hb).
    rewrite digit_no_sign, parse_digits_value, Hv by done. by rewrite bool_decide_true.
Qed.

Lemma FormatInt_inj a b : is_int64 a -> is_int64 b -> FormatInt a = FormatInt b -> a = b.
Proof. intros Ha Hb H. apply ParseInt_FormatInt in Ha, Hb. rewrite H in Ha. congruence. Qed.

Lemma ParseInt_range s n : ParseInt s = Some n -> is_int64 n.
Proof.
  unfold ParseInt, parse_int_bytes. destruct (match go_bytes s with 43 :: r => _ | 45 :: r => _ | _ => _ end) as [neg ds].
  destruct (parse_digits ds) as [v|]; [|done]. case_bool_decide; [|done]. by intros [= <-].
Qed.

(** ** Bytes that are not digits *)

Lemma digits_value_elem acc bs b : b ∈ bs -> is_digit_byte b = false -> digits_value acc bs = None.
Proof.
  intros Hin Hb. revert acc. induction bs as [|c bs IH]; intros acc; [by inversion Hin|].
  simpl. apply elem_of_cons in Hin as [->|Hin]; [by rewrite Hb|]. destruct (is_digit_byte c); [|done]. by apply IH.
Qed.

(** A text with a point in it is no integer. *)
Lemma ParseInt_point s : 46 ∈ go_bytes s -> ParseInt s = None.
Proof.
  intros Hin. unfold ParseInt, parse_int_bytes.
  assert (forall bs, 46 ∈ bs -> parse_digits bs = None) as Hp.
  { intros bs Hb. unfold parse_digits. destruct bs; [done|]. by eapply digits_value_elem. }
  destruct (match go_bytes s with 43 :: r => _ | 45 :: r => _ | _ => _ end) as [neg ds] eqn:E.
  assert (46 ∈ ds) as Hds.
  { destruct (go_bytes s) as [|b bs]; [by inversion Hin|].
    destruct (Z.eq_dec b 43) as [->|Hp43]; [by injection E as <- <-; apply elem_of_cons in Hin as [|]|].
    destruct (Z.eq_dec b 45) as [->|Hp45]; [by injection E as <- <-; apply elem_of_cons in Hin as [|]|].
    replace ds with (b :: bs); [done|].
    destruct b as [|p|p]; [by injection E| |by injection E].
    do 6 (destruct p as [p|p|]; [..|by injection E]); try by injection E. all: done. }
  by rewrite (Hp ds Hds).
Qed.

(** ** Converse of the decimal pattern *)

Lemma decimal_rest_part f : fraction_part f -> f <> [] -> fraction_digits f = true.
Proof.
  intros [Hd Hl] Hne. destruct Hl as [->|(l & b & -> & Hb)]; [done|]. clear Hne.
  apply Forall_app in Hd as [Hl _]. induction Hl as [|c l Hc Hl IH]; [done|].
  cbn [app fraction_digits]. rewrite Hc, IH. by destruct (l ++ [b]) eqn:E; [destruct l|].
Qed.

Lemma integer_digits_app i r : all_digits i -> decimal_rest r = true ->
  match r with [] => True | b :: _ => is_digit_byte b = false end -> integer_digits (i ++ r) = true.
Proof.
  intros Hi Hr Hb. induction Hi as [|c i Hc Hi IH]; simpl.
  - destruct r as [|b r]; [done|]. simpl. by rewrite Hb.
  - by rewrite Hc.
Qed.

Lemma unsigned_decimal_parts i r : integer_part i -> decimal_rest r = true ->
  match r with [] => True | b :: _ => is_digit_byte b = false end -> unsigned_decimal (i ++ r) = true.
Proof.
  intros [Hd Hh] Hr Hb. destruct Hh as [->|(c & l & -> & Hc)]; [done|].
  simpl. destruct (c =? 48) eqn:E.
  - apply Z.eqb_eq in E. unfold nonzero_digit in Hc. bool_to_prop. lia.
  - apply Forall_cons in Hd as [_ Hd]. rewrite Hc. by apply integer_digits_app.
Qed.

Lemma span_digits_app i r : all_digits i ->
  match r with [] => True | b :: _ => is_digit_byte b = false end -> span_digits (i ++ r) = (i, r).
Proof.
  intros Hi Hr. induction Hi as [|c i Hc Hi IH]; simpl.
  - destruct r as [|b r]; [done|]. simpl. by rewrite Hr.
  - by rewrite Hc, IH.
Qed.

(** A text made of an integer part and a fraction is accepted, with these parts. *)
Lemma decimal_text field s i f : integer_part i -> fraction_part f ->
  go_bytes s = i ++ (if bool_decide (f = []) then [] else 46 :: f) ->
  validateCanonicalDecimal field s = Ok tt /\ decimal_mantissa s = digits (i ++ f)
  /\ decimal_scale s = Z.of_nat (length f).
Proof.
  intros Hi Hf Hs. destruct (integer_part_cons i Hi) as (b & l & Hbl & Hb).
  set (r := if bool_decide (f = []) then [] else 46 :: f) in *.
  assert (decimal_rest r = true /\ match r with [] => True | b :: _ => is_digit_byte b = false end) as [Hr Hr'].
  { subst r. case_bool_decide; [done|]. split; [|done]. simpl. by apply decimal_rest_part. }
  assert (b <> 45) as Hb45 by (intros ->; done).
  assert (decimal_unsigned s = i ++ r) as Hu.
  { unfold decimal_unsigned. rewrite Hs, Hbl. cbn [app]. by rewrite <- not_minus. }
  assert (decimal_negative s = false) as Hneg.
  { pose proof (decimal_sign s) as Hsg. destruct (decimal_negative s); [|done]. rewrite Hs, Hbl in Hsg. injection Hsg. done. }
  assert (span_digits (i ++ r) = (i, r)) as Hsp by (apply span_digits_app; [apply Hi|done]).
  assert (decimal_fraction s = f) as Hfr.
  { unfold decimal_fraction. rewrite Hu, Hsp. subst r. by case_bool_decide; [subst|]. }
  split_and!.
  - unfold validateCanonicalDecimal. rewrite decimal_pattern_unsigned, Hu, unsigned_decimal_parts by done.
    rewrite bool_decide_false; [done|]. intros ->. by rewrite Hbl in Hs; injection Hs as [= <-].
  - unfold decimal_mantissa, decimal_integer. by rewrite Hneg, Hu, Hsp, Hfr.
  - unfold decimal_scale. by rewrite Hfr.
Qed.
