(* ===== verification/DelegationAuthFacts.v ===== *)
(** * Theorems about delegated requests

    What a request that passes [validateDelegation] is bound to, and the exact
    amount a confirmation is evaluated with. *)

From S2P Require Import Prelude GoStr GoTime GoCrypto Ast Dag Trie Evaluator Decision.
From S2P Require Import Canonical Intent PoLines DecimalFacts IntText Delegation DelegationFacts Identity DelegationAuth.
From stdpp Require Import options.
Local Open Scope Z_scope.

(** ** The amount in major units *)

Lemma drop_while_fmap {A B} (f : A -> B) (p : B -> bool) (q : A -> bool) l :
  (forall a, p (f a) = q a) -> drop_while p (f <$> l) = f <$> drop_while q l.
Proof. intros Hpq. induction l as [|a l IH]; [done|]. csimpl. rewrite Hpq. by destruct (q a). Qed.

Lemma trim_right_bytes s c :
  go_bytes (trim_right_char s c) = reverse (drop_while (fun b => b =? byte_of c) (reverse (go_bytes s))).
Proof.
  unfold trim_right_char, go_bytes. rewrite chars_of_chars, fmap_reverse, <- (fmap_reverse byte_of (chars s)).
  f_equal. symmetry. apply drop_while_fmap. intros a. case_bool_decide as Ha.
  - subst. apply Z.eqb_refl.
  - apply Z.eqb_neq. intros Hb. apply Ha. by rewrite <- (ascii_of_byte_of a), Hb, ascii_of_byte_of.
Qed.

Lemma trim_zeros_spec l : all_digits l -> digits l <> 0 ->
  let t := reverse (drop_while (fun b => b =? 48) (reverse l)) in
  exists k, l = t ++ replicate k 48 /\ fraction_part t /\ t <> [].
Proof.
  induction l as [|b l IH] using rev_ind; intros Hl Hn; [done|]. cbv zeta.
  rewrite reverse_snoc. simpl. destruct (b =? 48) eqn:E.
  - apply Z.eqb_eq in E. subst b. rewrite digits_snoc in Hn. apply Forall_app in Hl as [Hl _].
    destruct (IH Hl ltac:(lia)) as (k & Hk & Hf & Hne). exists (S k). split; [|done].
    rewrite Hk at 1. rewrite <- app_assoc, <- replicate_S_end. done.
  - exists O. rewrite reverse_cons, reverse_involutive, app_nil_r. split; [done|].
    split; [|by destruct l]. split; [done|]. right. exists l, b. split; [done|].
    apply Forall_app in Hl as [_ Hb]. rewrite Forall_singleton in Hb.
    unfold nonzero_digit, is_digit_byte in *. bool_to_prop. lia.
Qed.

Lemma digits_zeros k l : digits (replicate k 48 ++ l) = digits l.
Proof.
  rewrite digits_app. assert (digits (replicate k 48) = 0) as ->; [|lia].
  induction k as [|k IH]; [done|]. rewrite replicate_S_end, digits_snoc, IH. lia.
Qed.

Lemma all_digits_zeros k : all_digits (replicate k 48).
Proof. by apply Forall_replicate. Qed.

Lemma digits_zeros_r l k : digits (l ++ replicate k 48) = digits l * 10 ^ Z.of_nat k.
Proof.
  rewrite digits_app, length_replicate. pose proof (digits_zeros k []) as Hz. rewrite app_nil_r in Hz.
  rewrite Hz. change (digits []) with 0. lia.
Qed.

Lemma integer_part_length ds w : integer_part ds -> digits ds < 10 ^ Z.of_nat w -> digits ds <> 0 ->
  (length ds <= w)%nat.
Proof.
  intros [Hd [->|(b & l & -> & Hb)]] Hw Hn; [done|].
  apply Forall_cons in Hd as [_ Hl]. change (b :: l) with ([b] ++ l) in Hw. rewrite digits_app in Hw.
  pose proof (digits_range l Hl). change (digits [b]) with (0 * 10 + (b - 48)) in Hw.
  unfold nonzero_digit in Hb. bool_to_prop.
  destruct (le_gt_dec (length (b :: l)) w) as [|Hgt]; [done|]. simpl in Hgt.
  pose proof (Z.pow_le_mono_r 10 (Z.of_nat w) (Z.of_nat (length l)) ltac:(lia) ltac:(lia)). nia.
Qed.

Lemma scale_factor_pow s : 0 <= s <= 6 -> scale_factor s = 10 ^ s.
Proof.
  intros Hs. assert (s ∈ seqZ 0 7) as Hin by (apply elem_of_seqZ; lia).
  revert s Hs Hin. assert (Forall (fun s => scale_factor s = 10 ^ s) (seqZ 0 7)) as Hall by (repeat constructor).
  intros s _ Hin. by rewrite Forall_forall in Hall; apply Hall.
Qed.

(** The digits of the fraction, padded to the scale, without trailing zeros. *)
Lemma fraction_text s f : 0 < f < 10 ^ Z.of_nat s -> f <= 2 ^ 63 ->
  exists t k, go_bytes (trim_right_char (sprintf_0d s f) "0") = t /\ fraction_part t /\ t <> []
    /\ digits t * 10 ^ Z.of_nat k = f /\ (length t + k = s)%nat.
Proof.
  intros Hf Hmax. destruct (format_nonneg f ltac:(lia)) as (ds & Hds & Hi & Hv).
  assert (go_bytes (sprintf_0d s f) = replicate (s - length ds) 48 ++ ds) as Hb.
  { unfold sprintf_0d, pad_zeros, format_int_bytes. rewrite (proj2 (Z.ltb_ge f 0)), Hds by lia.
    apply go_bytes_of_bytes, all_digits_byte, Forall_app. split; [apply all_digits_zeros|apply Hi]. }
  assert (all_digits (replicate (s - length ds) 48 ++ ds)) as Hall
    by (apply Forall_app; split; [apply all_digits_zeros|apply Hi]).
  destruct (trim_zeros_spec _ Hall) as (k & Hk & Hfp & Hne); [rewrite digits_zeros; lia|].
  rewrite trim_right_bytes, Hb. change (byte_of "0") with 48.
  set (t := reverse _) in *. exists t, k. split_and!; [done..| |].
  - rewrite <- digits_zeros_r, <- Hk, digits_zeros. done.
  - apply (f_equal length) in Hk. rewrite !length_app, !length_replicate in Hk.
    pose proof (integer_part_length ds s Hi ltac:(lia) ltac:(lia)). lia.
Qed.

(** The text is [whole], or [whole] and the fraction: a canonical decimal of
    the value [amount / 10^scale]. *)
Lemma major_amount_exact_aux field a s : 0 <= a <= max_int64 -> 0 <= s <= 6 ->
  let t := canonicalMajorAmount a s in
  validateCanonicalDecimal field t = Ok tt /\ decimal_mantissa t * 10 ^ s = a * 10 ^ decimal_scale t
  /\ (a mod 10 ^ s <> 0 -> 46 ∈ go_bytes t).
Proof.
  intros Ha Hs. unfold max_int64 in Ha. cbv zeta. unfold canonicalMajorAmount.
  assert (forall n, 0 <= n <= 2 ^ 63 -> validateCanonicalDecimal field (FormatInt n) = Ok tt
    /\ decimal_mantissa (FormatInt n) = n /\ decimal_scale (FormatInt n) = 0) as Hint.
  { intros n Hn. destruct (FormatInt_bytes n Hn) as (ds & Hds & Hi & Hv).
    destruct (decimal_text field (FormatInt n) ds [] Hi) as (Hok & Hm & Hsc);
      [split; [constructor|by left]|by rewrite Hds, app_nil_r|]. rewrite app_nil_r in Hm. split_and!; [done|lia|done]. }
  case_match eqn:E0; bool_to_prop; [subst s; destruct (Hint a ltac:(lia)) as (Hok & Hm & Hsc)|].
  { rewrite Hm, Hsc. split_and!; [done|lia|]. rewrite Z.mod_1_r. done. }
  rewrite scale_factor_pow by lia. assert (0 < 10 ^ s) as Hp by (apply Z.pow_pos_nonneg; lia).
  rewrite Z.quot_div_nonneg, Z.rem_mod_nonneg by lia.
  pose proof (Z.mod_pos_bound a (10 ^ s) Hp) as Hm. pose proof (Z.div_mod a (10 ^ s) ltac:(lia)) as Hdm.
  assert (0 <= a / 10 ^ s <= a) as Hq by (split; [apply Z.div_pos; lia|apply Z.div_le_upper_bound; nia]).
  case_match eqn:Ef; bool_to_prop.
  - destruct (Hint (a / 10 ^ s) ltac:(lia)) as (Hok & Hmm & Hsc). rewrite Hmm, Hsc. split_and!; [done|lia|done].
  - destruct (fraction_text (Z.to_nat s) (a mod 10 ^ s)) as (t & k & Ht & Hfp & Hne & Hv & Hlen); [|lia|].
    { rewrite Z2Nat.id by lia. lia. }
    destruct (FormatInt_bytes (a / 10 ^ s) ltac:(lia)) as (ds & Hds & Hi & Hdv).
    set (txt := _ +:+ _). assert (go_bytes txt = ds ++ 46 :: t) as Htxt.
    { subst txt. by rewrite !go_bytes_app, Hds, Ht. }
    destruct (decimal_text field txt ds t Hi Hfp) as (Hok & Hmm & Hsc); [by rewrite bool_decide_false|].
    rewrite Hmm, Hsc, digits_app, Hdv. split_and!; [done| |].
    + replace (10 ^ s) with (10 ^ Z.of_nat (length t) * 10 ^ Z.of_nat k) in *
        by (rewrite <- Z.pow_add_r by lia; f_equal; lia). nia.
    + intros _. rewrite Htxt. set_solver.
Qed.

(** ** What a request is bound to *)

Lemma parseCanonicalInt64_ok field value positive n : parseCanonicalInt64 field value positive = Ok n <->
  is_int64 n /\ value = FormatInt n /\ (if positive then 0 < n else 0 <= n).
Proof.
  unfold parseCanonicalInt64. split.
  - intros H. destruct (ParseInt value) as [p|] eqn:Ep; [|done]. pose proof (ParseInt_range _ _ Ep) as Hr.
    destruct (_ || _) eqn:E; [done|]. injection H as ->. bool_to_prop.
    split; [done|]. split; [done|]. by destruct positive; simpl in *; bool_to_prop; lia.
  - intros (Hr & -> & Hp). rewrite ParseInt_FormatInt by done. rewrite bool_decide_true by done.
    by destruct positive; simpl; [rewrite (proj2 (Z.leb_gt n 0))|rewrite (proj2 (Z.ltb_ge n 0))].
Qed.

Lemma first_mismatch_ok checks : first_mismatch checks = Ok tt <-> Forall (fun c => c.1.2 = c.2) checks.
Proof.
  induction checks as [|[[name actual] expected] rest IH]; simpl; [by split; [constructor|]|].
  rewrite Forall_cons. simpl. case_bool_decide; simpl; [by rewrite IH; tauto|]. by split; [|intros []].
Qed.

(** The command a confirmation is bound to, field by field. *)
Record intent_bound (r : CheckAccessRequest) (i : CanonicalBusinessIntent) : Prop := {
  ib_valid : Validate i = Ok tt;
  ib_tenant : cr_TenantId r = TenantID i;
  ib_subject : cr_Subject r = AgentSubject i;
  ib_action : cr_Action r = Intent.Action i;
  ib_resource : cr_Resource r = resourcePrefix +:+ FormatInt (ResourceID i);
  ib_grant : ctx_get (cr_Context r) "delegation_grant_id" = FormatInt (DelegationGrantID i);
  ib_delegator : ctx_get (cr_Context r) "delegated_by" = DelegatorSubject i;
  ib_creator : ctx_get (cr_Context r) "resource.creator_id" = CreatorSubject i;
  ib_command : ctx_get (cr_Context r) "delegation_nonce" = CommandID i;
  ib_chain : ctx_get (cr_Context r) "delegation_chain" = DelegatorSubject i +:+ "," +:+ AgentSubject i;
  ib_integers : is_int64 (AmountMinor i) /\ is_int64 (ResourceID i) /\ is_int64 (DelegationGrantID i)
}.

Lemma delegationProofV2Input_ok r input : delegationProofV2Input r = Ok input -> intent_bound r (v2_Intent input).
Proof.
  unfold delegationProofV2Input, canonicalContextInt64. intros H.
  repeat match goal with
  | H : rbind ?m _ = Ok _ |- _ => apply rbind_ok in H as (? & ? & H)
  end.
  destruct (Validate _) as [[]|] eqn:Ev; [|done].
  repeat match goal with
  | H : rbind ?m _ = Ok _ |- _ => apply rbind_ok in H as (? & ? & H)
  end.
  apply Ok_inj in H as <-. cbn [v2_Intent] in *.
  repeat match goal with
  | H : parseCanonicalInt64 _ _ _ = Ok _ |- _ => apply parseCanonicalInt64_ok in H as (? & ? & ?)
  | H : validateIntentRequestBinding _ _ = Ok ?u |- _ => destruct u; apply first_mismatch_ok in H
  end.
  match goal with H : Forall _ (binding_checks _ _) |- _ =>
    unfold binding_checks in H; cbn [TenantID AgentSubject Intent.Action ResourceID DelegationGrantID
      DelegatorSubject CreatorSubject CommandID] in H; rewrite !Forall_cons in H; cbn [fst snd] in H
  end.
  by destruct_and?; split; cbn [TenantID AgentSubject Intent.Action ResourceID DelegationGrantID
      DelegatorSubject CreatorSubject CommandID AmountMinor].
Qed.

(** ** The three ways through *)

(** No grant, and none of the keys a delegated request would carry. *)
Definition direct_request (r : CheckAccessRequest) : Prop :=
  ctx_get (cr_Context r) "delegation_grant_id" = ""%string /\
  forall key, key ∈ delegationContextKeys ++ canonicalIntentContextKeys -> ctx_get (cr_Context r) key = ""%string.

(** The tuple of the request is signed under a key of the manager. *)
Definition v1_proved (now : Z) (m : DelegationManager) (r : CheckAccessRequest) : Prop :=
  requiresDelegationProofV2 r = false /\
  exists input, delegationProofInput r = Ok input /\
    VerifyProof now m input (ctx_get (cr_Context r) "delegation_proof") = Ok tt.

(** The command of the request is signed under a key of the manager. *)
Definition v2_proved (now : Z) (m : DelegationManager) (r : CheckAccessRequest) (i : CanonicalBusinessIntent) : Prop :=
  requiresDelegationProofV2 r = true /\ intent_bound r i /\
  exists issuedAt validUntil, delegationProofV2Input r = Ok (mkProofV2 i issuedAt validUntil) /\
    VerifyProofV2 now m (mkProofV2 i issuedAt validUntil) (ctx_get (cr_Context r) "delegation_proof") = Ok tt.

Lemma direct_keys_false r : existsb (fun key => negb (bool_decide (ctx_get (cr_Context r) key = ""%string)))
    (delegationContextKeys ++ canonicalIntentContextKeys) = false <->
  forall key, key ∈ delegationContextKeys ++ canonicalIntentContextKeys -> ctx_get (cr_Context r) key = ""%string.
Proof.
  rewrite <- not_true_iff_false, existsb_exists. split.
  - intros Hn key Hk. destruct (decide (ctx_get (cr_Context r) key = ""%string)) as [|Hne]; [done|].
    exfalso. apply Hn. exists key. split; [by apply list_elem_of_In|]. by rewrite bool_decide_false.
  - intros Hall (key & Hk & Hd). rewrite Hall in Hd; [done|by apply list_elem_of_In].
Qed.

Lemma unit_result (m : result ProofError unit) : match m with Ok _ => true | Err _ => false end = true <-> m = Ok tt.
Proof. destruct m as [[]|]; by split. Qed.

Lemma validateDelegation_ok now mgr r r' : validateDelegation now mgr r = Ok r' <->
  (direct_request r /\ r' = set_context r (<["delegation_chain"%string := cr_Subject r]> (cr_Context r)))
  \/ (ctx_get (cr_Context r) "delegation_grant_id" <> ""%string /\
      ctx_get (cr_Context r) "delegation_proof" <> ""%string /\
      exists m, mgr = Some m /\
        ((v1_proved now m r /\ r' = r)
         \/ exists i, v2_proved now m r i /\ r' = set_context r (bindCanonicalIntentContext (cr_Context r) i))).
Proof.
  unfold validateDelegation, direct_request. case_bool_decide as Hg.
  { split.
    - intros H. destruct (existsb _ _) eqn:E; [done|]. injection H as <-. left.
      split; [|done]. split; [done|]. by apply direct_keys_false.
    - intros [[[_ Hk] ->]|[Hne _]]; [|done]. apply direct_keys_false in Hk. by rewrite Hk. }
  destruct mgr as [m|]; [|by split; [|intros [[[] _]|(_ & _ & ? & [=] & _)]]].
  case_bool_decide as Hp; [by split; [|intros [[[] _]|(_ & [] & _)]]|].
  assert (forall P Q : Prop, (P <-> Q) ->
    (P <-> (ctx_get (cr_Context r) "delegation_grant_id" = ""%string /\ (forall key, key ∈ delegationContextKeys ++ canonicalIntentContextKeys -> ctx_get (cr_Context r) key = ""%string)) /\ r' = set_context r (<["delegation_chain"%string := cr_Subject r]> (cr_Context r))
     \/ ctx_get (cr_Context r) "delegation_grant_id" <> ""%string /\ ctx_get (cr_Context r) "delegation_proof" <> ""%string /\ Q))
    as Hcase by tauto.
  apply Hcase. clear Hcase. unfold v1_proved, v2_proved. destruct (requiresDelegationProofV2 r) eqn:E2.
  - unfold validateDelegationV2. split.
    + intros H. destruct (delegationProofV2Input r) as [[i ia vu]|] eqn:Ei; [|done].
      destruct (VerifyProofV2 _ _ _ _) as [[]|] eqn:Ev; [|done]. injection H as <-. exists m. split; [done|]. right.
      exists i. split; [|done]. split; [done|]. split; [by apply (delegationProofV2Input_ok r _ Ei)|].
      by exists ia, vu.
    + intros (m' & [= <-] & [[[? _] _]|(i & (_ & _ & ia & vu & -> & ->) & ->)]); done.
  - split.
    + intros H. destruct (delegationProofInput r) as [input|] eqn:Ei; [|done].
      destruct (VerifyProof _ _ _ _) as [[]|] eqn:Ev; [|done]. injection H as <-. exists m. split; [done|]. left.
      split; [|done]. split; [done|]. by exists input.
    + intros (m' & [= <-] & [[[_ (input & -> & ->)] ->]|(i & [? _] & _)]); done.
Qed.

(** ** The client's side *)

(** The context of a confirmation of [i] under a proof, as a client sends it. *)
Definition intent_entries (i : CanonicalBusinessIntent) : list (string * string) :=
  [("cbi.intent_version", IntentVersion i); ("cbi.tenant_id", TenantID i); ("cbi.company_id", FormatInt (CompanyID i));
   ("cbi.resource_type", ResourceType i); ("cbi.resource_id", FormatInt (ResourceID i));
   ("cbi.action", Intent.Action i); ("cbi.vendor_id", FormatInt (VendorID i)); ("cbi.currency_code", CurrencyCode i);
   ("cbi.currency_scale", FormatInt (CurrencyScale i)); ("cbi.amount_minor", FormatInt (AmountMinor i));
   ("cbi.line_digest", LineDigest i); ("cbi.record_state", RecordState i);
   ("cbi.record_write_version", RecordWriteVersion i); ("cbi.state_witness", StateWitness i);
   ("cbi.creator_subject", CreatorSubject i); ("cbi.delegation_grant_id", FormatInt (DelegationGrantID i));
   ("cbi.delegator_subject", DelegatorSubject i); ("cbi.agent_subject", AgentSubject i);
   ("cbi.command_id", CommandID i); ("cbi.proof_version", ProofVersion i)]%string.
Definition delegation_entries (i : CanonicalBusinessIntent) (issuedAt validUntil : Z) (proof : string) :
    list (string * string) :=
  [("delegation_proof", proof); ("delegated_by", DelegatorSubject i);
   ("delegation_valid_until", FormatInt validUntil); ("delegation_issued_at", FormatInt issuedAt);
   ("delegation_nonce", CommandID i); ("delegation_chain", DelegatorSubject i +:+ "," +:+ AgentSubject i);
   ("delegation_grant_id", FormatInt (DelegationGrantID i)); ("resource.creator_id", CreatorSubject i)]%string.
Definition confirmation_request (i : CanonicalBusinessIntent) (issuedAt validUntil : Z) (proof : string) :
    CheckAccessRequest :=
  mkCheckAccess (TenantID i) (AgentSubject i) (Intent.Action i) (resourcePrefix +:+ FormatInt (ResourceID i))
    (list_to_map (intent_entries i ++ delegation_entries i issuedAt validUntil proof)).

Definition golden_request : CheckAccessRequest := confirmation_request golden_intent 1800000000 1800003600 golden_v2.

Example golden_request_accepted :
  is_ok (validateDelegation golden_time (Some rotated_manager) golden_request) = true.
Proof. vm_compute. reflexivity. Qed.

Fixpoint entry_lookup (l : list (string * string)) (k : string) : option string :=
  match l with
  | [] => None
  | (k', v) :: l' => if String.eqb k k' then Some v else entry_lookup l' k
  end.

Lemma entry_lookup_map l k : (list_to_map l : gmap string string) !! k = entry_lookup l k.
Proof.
  induction l as [|[k' v] l IH]; [done|]. simpl. destruct (String.eqb_spec k k') as [->|Hne].
  - by rewrite lookup_insert_eq.
  - by rewrite lookup_insert_ne.
Qed.

(** ** Numbers are not blank *)

Lemma utf8_chunks_digits ds : all_digits ds -> utf8_chunks ds = (fun b => (b, [b])) <$> ds.
Proof.
  induction 1 as [|b ds Hb Hd IH]; [done|]. csimpl. rewrite <- IH.
  unfold is_digit_byte in Hb. bool_to_prop. simpl. by rewrite (proj2 (Z.ltb_lt b 128)) by lia.
Qed.

Lemma drop_while_none {A} (f : A -> bool) l : Forall (fun a => f a = false) l -> drop_while f l = l.
Proof. destruct 1 as [|a l Ha Hl]; simpl; [done|]. by rewrite Ha. Qed.

Lemma join_singles (l : list Z) : mjoin (((fun b => (b, [b])) <$> l).*2) = l.
Proof. induction l as [|b l IH]; [done|]. csimpl. by rewrite IH. Qed.

Lemma blank_FormatInt n : 0 <= n <= 2 ^ 63 -> blank (FormatInt n) = false.
Proof.
  intros Hn. destruct (FormatInt_bytes n Hn) as (ds & Hds & Hi & Hv).
  assert (Forall (fun c : Z * list Z => unicode_is_space c.1 = false) (utf8_chunks ds)) as Hsp.
  { rewrite utf8_chunks_digits by apply Hi. apply Forall_fmap. eapply Forall_impl; [apply Hi|].
    intros b Hb. unfold is_digit_byte in Hb. bool_to_prop. cbn. unfold unicode_is_space. lia. }
  unfold blank, trim_space, trim_by. rewrite Hds, (drop_while_none _ (utf8_chunks ds)) by done.
  rewrite drop_while_none by by apply Forall_reverse. rewrite reverse_involutive.
  rewrite utf8_chunks_digits by apply Hi. rewrite join_singles. apply bool_decide_false.
  intros Hb. apply (f_equal go_bytes) in Hb. rewrite go_bytes_of_bytes in Hb by apply all_digits_byte, Hi.
  destruct (integer_part_cons ds Hi) as (b & l & -> & _). done.
Qed.

Lemma parse_timestamp_ok n field : 0 <= n -> is_int64 n -> parseDelegationTimestamp (FormatInt n) field = Ok n.
Proof.
  intros H0 Hn. unfold parseDelegationTimestamp. rewrite blank_FormatInt, ParseInt_FormatInt by
    (try done; unfold is_int64, max_int64 in Hn; lia). done.
Qed.

(** ** Properties *)

(** The integers of an intent are 64-bit, and the timestamps of its window. *)
Definition command_typed (i : CanonicalBusinessIntent) (issuedAt validUntil : Z) : Prop :=
  Forall is_int64 [CompanyID i; ResourceID i; VendorID i; CurrencyScale i; AmountMinor i; DelegationGrantID i;
                   issuedAt; validUntil].

Lemma parse_positive field n : is_int64 n -> 0 < n -> parseCanonicalInt64 field (FormatInt n) true = Ok n.
Proof. intros Hn Hp. by apply parseCanonicalInt64_ok. Qed.
Lemma parse_natural field n : is_int64 n -> 0 <= n -> parseCanonicalInt64 field (FormatInt n) false = Ok n.
Proof. intros Hn Hp. by apply parseCanonicalInt64_ok. Qed.

Lemma intent_eta i : mkIntent (IntentVersion i) (TenantID i) (CompanyID i) (ResourceType i) (ResourceID i)
  (Intent.Action i) (VendorID i) (CurrencyCode i) (CurrencyScale i) (AmountMinor i) (LineDigest i) (RecordState i)
  (RecordWriteVersion i) (StateWitness i) (CreatorSubject i) (DelegationGrantID i) (DelegatorSubject i)
  (AgentSubject i) (CommandID i) (ProofVersion i) = i.
Proof. by destruct i. Qed.

(** Evaluates the lookups of concrete keys in a list of entries. *)
Ltac read_entries := unfold canonicalContextInt64, canonicalContext, ctx_get;
  repeat match goal with
  | |- context [canonicalIntentContextPrefix +:+ ?f] =>
      let k := eval vm_compute in (canonicalIntentContextPrefix +:+ f) in
      change (canonicalIntentContextPrefix +:+ f) with k
  end;
  rewrite !entry_lookup_map;
  cbn [entry_lookup intent_entries delegation_entries app String.eqb Ascii.eqb Bool.eqb default id].

Lemma confirmation_keys_known i ia vu proof :
  rejectUnknownCanonicalIntentFields (cr_Context (confirmation_request i ia vu proof)) = Ok tt.
Proof.
  unfold rejectUnknownCanonicalIntentFields. rewrite bool_decide_true; [done|].
  intros k v Hk. cbn [cr_Context confirmation_request] in Hk. apply elem_of_list_to_map_2 in Hk.
  assert (k ∈ (intent_entries i ++ delegation_entries i ia vu proof).*1) as Hin by
    (apply list_elem_of_fmap; by exists (k, v)).
  clear Hk. revert k Hin. apply Forall_forall. cbn [intent_entries delegation_entries app fmap list_fmap fst].
  repeat (constructor; [vm_compute; reflexivity|]). constructor.
Qed.

(** A valid intent has its integers in range. *)
Lemma valid_integers i : Validate i = Ok tt ->
  0 < CompanyID i /\ 0 < ResourceID i /\ 0 < VendorID i /\ 0 < DelegationGrantID i
  /\ 0 <= CurrencyScale i <= 6 /\ 0 <= AmountMinor i /\ Intent.Action i = ConfirmPurchaseOrderAction.
Proof.
  unfold Validate. intros H. apply rbind_ok in H as ([] & Hf & _). unfold validateFields in Hf.
  repeat match goal with
  | H : rbind _ _ = Ok _ |- _ => apply rbind_ok in H as (? & _ & H)
  | H : (if ?c then Err _ else _) = Ok _ |- _ => destruct c eqn:?; [discriminate H|]
  end.
  bool_to_prop. split_and!; (lia || done).
Qed.

Lemma delegationProofV2Input_confirmation i ia vu proof : Validate i = Ok tt -> command_typed i ia vu ->
  0 <= ia -> 0 <= vu ->
  delegationProofV2Input (confirmation_request i ia vu proof) = Ok (mkProofV2 i ia vu).
Proof.
  intros Hv Ht Hia Hvu. pose proof (valid_integers i Hv) as (Hc & Hr & Hve & Hg & Hs & Ha & Hact).
  unfold command_typed in Ht. rewrite !Forall_cons in Ht. destruct Ht as (T1 & T2 & T3 & T4 & T5 & T6 & T7 & T8 & _).
  unfold delegationProofV2Input. rewrite confirmation_keys_known. cbn [rbind].
  cbn [cr_Context confirmation_request]. read_entries.
  rewrite !parse_positive, !parse_natural by (done || lia). cbn [rbind]. rewrite intent_eta, Hv.
  unfold validateIntentRequestBinding.
  rewrite (proj2 (first_mismatch_ok (binding_checks _ _))).
  - cbn [rbind]. rewrite !parse_timestamp_ok by done. done.
  - unfold binding_checks. cbn [cr_TenantId cr_Subject cr_Action cr_Resource cr_Context confirmation_request].
    read_entries. by repeat constructor.
Qed.

(** A proof that verifies is not the empty string. *)
Lemma v2_proof_not_empty now m input : VerifyProofV2 now m input "" <> Ok tt.
Proof.
  unfold VerifyProofV2. intros H. destruct (bool_decide (signingKeys m = ∅)); [done|].
  by apply rbind_ok in H as (? & _ & H).
Qed.

Lemma FormatInt_not_empty n : 0 <= n <= 2 ^ 63 -> FormatInt n <> ""%string.
Proof.
  intros Hn He. destruct (FormatInt_bytes n Hn) as (ds & Hds & Hi & _). rewrite He in Hds.
  destruct (integer_part_cons ds Hi) as (b & l & -> & _). done.
Qed.

Lemma v2_structure now m input proof : VerifyProofV2 now m input proof = Ok tt ->
  Validate (v2_Intent input) = Ok tt /\ 0 < v2_IssuedAt input < v2_ValidUntil input /\ 0 <= v2_ValidUntil input.
Proof.
  unfold VerifyProofV2, validateAtV2, validateStructureV2. intros H.
  destruct (bool_decide (signingKeys m = ∅)); [done|]. destruct (Validate (v2_Intent input)) as [[]|]; [|done].
  destruct (_ || _) eqn:E; [done|]. bool_to_prop. split; [done|]. lia.
Qed.

(** A confirmation a client builds from a valid command and a proof of it is
    accepted, and evaluated in the context bound from the command: no valid
    delegation is refused on the way. *)
Theorem confirmation_accepted (now : Z) (m : DelegationManager) (i : CanonicalBusinessIntent)
    (issuedAt validUntil : Z) (proof : string)
    (Ht : command_typed i issuedAt validUntil)
    (Hp : VerifyProofV2 now m (mkProofV2 i issuedAt validUntil) proof = Ok tt) :
  let r := confirmation_request i issuedAt validUntil proof in
  validateDelegation now (Some m) r = Ok (set_context r (bindCanonicalIntentContext (cr_Context r) i)).
Proof.
  cbv zeta. destruct (v2_structure _ _ _ _ Hp) as (Hv & Hia & Hvu). cbn [v2_Intent v2_IssuedAt v2_ValidUntil] in *.
  pose proof (delegationProofV2Input_confirmation i issuedAt validUntil proof Hv Ht ltac:(lia) ltac:(lia)) as Hin.
  pose proof (valid_integers i Hv) as (_ & _ & _ & Hg & _ & _ & Hact).
  unfold command_typed in Ht. rewrite !Forall_cons in Ht. destruct Ht as (_ & _ & _ & _ & _ & T6 & _).
  unfold is_int64, max_int64 in T6.
  assert (ctx_get (cr_Context (confirmation_request i issuedAt validUntil proof)) "delegation_proof" = proof) as Hpr
    by (cbn [cr_Context confirmation_request]; by read_entries).
  apply validateDelegation_ok. right. split_and!.
  - cbn [cr_Context confirmation_request]. read_entries. apply FormatInt_not_empty. lia.
  - rewrite Hpr. intros ->. by apply v2_proof_not_empty in Hp.
  - exists m. split; [done|]. right. exists i. split; [|done]. split; [|split].
    + unfold requiresDelegationProofV2. cbn [cr_Action confirmation_request]. by rewrite Hact.
    + by apply delegationProofV2Input_ok in Hin.
    + exists issuedAt, validUntil. split; [done|]. by rewrite Hpr.
Qed.

(** The context a confirmation is evaluated in denotes the signed amount. *)
Definition amount_denotes (c : gmap string string) (amountMinor scale : Z) : Prop :=
  validateCanonicalDecimal "amount" (ctx_get c "amount") = Ok tt /\
  decimal_mantissa (ctx_get c "amount") * 10 ^ scale = amountMinor * 10 ^ decimal_scale (ctx_get c "amount").

Lemma bound_context c i : let c' := bindCanonicalIntentContext c i in
  c' !! "amount"%string = Some (canonicalMajorAmount (AmountMinor i) (CurrencyScale i))
  /\ ctx_get c' "amount_minor" = FormatInt (AmountMinor i) /\ ctx_get c' "currency" = CurrencyCode i
  /\ ctx_get c' "resource.creator_id" = CreatorSubject i /\ ctx_get c' "delegated_by" = DelegatorSubject i
  /\ ctx_get c' "execution_mode" = "autonomous_run"%string /\ ctx_get c' "tool_context" = "tool:auto_confirm_po"%string.
Proof. cbv zeta. unfold bindCanonicalIntentContext, ctx_get. split_and!; by simplify_map_eq. Qed.

(** C17: a confirmation of a purchase order under a grant that is not empty, in the
    spelling that requires a version 2 proof ([requiresDelegationProofV2]; the
    bare spelling escapes it, [bare_action_escapes_v2]), passes only with a
    proof that verifies for one valid command, every field of the request is
    that command's, and the policies see the command's amount exactly: a
    canonical decimal equal to the signed minor units over the currency's scale. *)
Theorem confirmation_bound_to_command (now : Z) (m : DelegationManager) (r r' : CheckAccessRequest)
    (Hv2 : requiresDelegationProofV2 r = true)
    (Hg : ctx_get (cr_Context r) "delegation_grant_id" <> ""%string)
    (Hok : validateDelegation now (Some m) r = Ok r') :
  exists i issuedAt validUntil,
    VerifyProofV2 now m (mkProofV2 i issuedAt validUntil) (ctx_get (cr_Context r) "delegation_proof") = Ok tt /\
    intent_bound r i /\
    amount_denotes (cr_Context r') (AmountMinor i) (CurrencyScale i) /\
    ctx_get (cr_Context r') "resource.creator_id" = CreatorSubject i /\
    ctx_get (cr_Context r') "delegated_by" = DelegatorSubject i /\
    ctx_get (cr_Context r') "currency" = CurrencyCode i.
Proof.
  apply validateDelegation_ok in Hok as [[[? _] _]|(_ & _ & m' & [= <-] & [[[? _] _]|(i & (_ & Hb & ia & vu & Hin & Hp) & ->)])];
    [done|congruence|].
  exists i, ia, vu. split; [done|]. split; [done|].
  destruct (bound_context (cr_Context r) i) as (Hamt & _ & Hcur & Hcr & Hdel & _).
  destruct (valid_integers i (ib_valid _ _ Hb)) as (_ & _ & _ & _ & Hs & Ha & _).
  destruct (ib_integers _ _ Hb) as (Hai & _). unfold is_int64 in Hai.
  destruct (major_amount_exact_aux "amount" (AmountMinor i) (CurrencyScale i)) as (Hd & Hm & _); [lia..|].
  split; [|done]. unfold amount_denotes, ctx_get. cbn [set_context cr_Context]. rewrite Hamt. done.
Qed.

(** A confirmation whose amount is not a whole number of major units makes
    every comparison of [context.amount] with an integer literal false, the
    larger and the smaller ones alike: a forbid over a limit does not see it. *)
Theorem fractional_amount_never_compared (c : gmap string string) (i : CanonicalBusinessIntent)
    (subject resource : string) (dag : option RoleDAG) (op : BinaryOp) (limit : Z) (p q w : Position)
    (Hop : op <> BinOpAnd /\ op <> BinOpOr)
    (Ha : 0 <= AmountMinor i <= max_int64) (Hs : 0 <= CurrencyScale i <= 6)
    (Hfrac : AmountMinor i mod 10 ^ CurrencyScale i <> 0) :
  Evaluate (BinaryExprNode op (VariableNode VarScopeContext "amount" p) (ValueNode (int_value limit q)) w)
    (mkEvalContext subject (Intent.Action i) resource (bindCanonicalIntentContext c i) dag) = Ok boolFalse.
Proof.
  destruct (bound_context c i) as (Hamt & _).
  destruct (major_amount_exact_aux "amount" (AmountMinor i) (CurrencyScale i) Ha Hs) as (_ & _ & Hpt).
  specialize (Hpt Hfrac). apply ParseInt_point in Hpt.
  assert (forall el er, evaluateComparison
    (mkEvalContext subject (Intent.Action i) resource (bindCanonicalIntentContext c i) dag) op
    (VariableNode VarScopeContext "amount" p) (ValueNode (int_value limit q)) el er = Ok boolFalse) as Hcmp.
  { intros el er. unfold evaluateComparison, expected_type. cbn [ValType int_value].
    rewrite andb_false_r. unfold GetAttribute, attribute_text. cbn [ctx_attrs]. rewrite Hamt.
    cbn [parseStringValue]. by rewrite Hpt. }
  by destruct Hop, op; simpl; rewrite ?Hcmp.
Qed.

(** The engine adds the prefix of an action that lacks it, the test for a V2
    proof does not: written without it, and for a resource that is not a
    canonical number, the same confirmation needs a V1 proof only. *)
Theorem bare_action_escapes_v2 :
  let r := mkCheckAccess "tenant-a" "agent:procurement_copilot" "CONFIRM_PURCHASE_ORDER" "purchase_order:042" ∅ in
  requiresDelegationProofV2 r = false /\ normalizeAction (cr_Action r) = ConfirmPurchaseOrderAction.
Proof. by vm_compute. Qed.

(** ** Witnesses *)

Definition golden_bound : CheckAccessRequest :=
  set_context golden_request (bindCanonicalIntentContext (cr_Context golden_request) golden_intent).

Lemma golden_command_typed : command_typed golden_intent 1800000000 1800003600.
Proof. apply (bool_decide_unpack _). vm_compute. exact I. Qed.

Lemma confirmation_accepted_witness :
  validateDelegation golden_time (Some rotated_manager) golden_request = Ok golden_bound.
Proof.
  apply (confirmation_accepted golden_time rotated_manager golden_intent 1800000000 1800003600 golden_v2).
  - apply golden_command_typed.
  - apply golden_v2_verified.
Defined.

Lemma golden_request_bound : validateDelegation golden_time (Some rotated_manager) golden_request = Ok golden_bound.
Proof. vm_compute. reflexivity. Qed.

Lemma confirmation_bound_to_command_witness : exists i issuedAt validUntil,
    VerifyProofV2 golden_time rotated_manager (mkProofV2 i issuedAt validUntil)
      (ctx_get (cr_Context golden_request) "delegation_proof") = Ok tt /\
    intent_bound golden_request i /\
    amount_denotes (cr_Context golden_bound) (AmountMinor i) (CurrencyScale i) /\
    ctx_get (cr_Context golden_bound) "resource.creator_id" = CreatorSubject i /\
    ctx_get (cr_Context golden_bound) "delegated_by" = DelegatorSubject i /\
    ctx_get (cr_Context golden_bound) "currency" = CurrencyCode i.
Proof.
  apply (confirmation_bound_to_command golden_time rotated_manager golden_request golden_bound).
  - vm_compute. reflexivity.
  - apply (bool_decide_unpack _). vm_compute. exact I.
  - apply golden_request_bound.
Defined.

Lemma fractional_amount_never_compared_witness :
  Evaluate (BinaryExprNode BinOpGt (VariableNode VarScopeContext "amount" no_pos) (ValueNode (int_value 1000 no_pos)) no_pos)
    (mkEvalContext "agent:a" (Intent.Action golden_intent) "purchase_order:42"
       (bindCanonicalIntentContext ∅ golden_intent) None) = Ok boolFalse.
Proof.
  apply fractional_amount_never_compared; [by split|by split|by split|by vm_compute].
Defined.
