(* ===== verification/Server.v ===== *)
(** * The gRPC service ([internal/server/grpc_server.go], [grpc_revoke.go],
    [grpc_approval.go], [grpc_explain.go])

    A handler is a function of the server, the readings of the clock and the
    outcomes of the calls it makes (a [CallEnv]), the incoming metadata and the
    request; it returns the server it leaves and its answer.  The durable store
    of revocations is behind the interface [RevocationStore].  Metrics and log
    lines are omitted; what the audit logger is given is kept in order. *)

From S2P Require Import Prelude GoStr GoCrypto Ast Dag Trie Evaluator Decision Engine.
From S2P Require Import Canonical Intent Delegation Revocation Approval Jwt Identity DelegationAuth.
From stdpp Require Import options.
Local Open Scope Z_scope.

(** ** The store of revocations *)

(** [security.RevocationStore] with the two optional methods of the ERP store:
    [store_scope] is [None] for a store without them.  [Out] is the outcome of
    the database calls. *)
Class RevocationStore (DB Out : Type) := {
  store_persist : Out -> DB -> RevocationRecord -> DB * option RevocationRecord;
  store_scope : DB -> option string;
  store_ensure : Out -> DB -> string -> Z -> DB * bool
}.

(** What the server relies on: a persisted record is of the same grant, not
    revoked later, and kept as long, to the microsecond of the database; the
    expiries of a sound store are representable in nanoseconds. *)
Class RevocationStoreLaws (DB Out : Type) `{RevocationStore DB Out} := {
  store_ok : DB -> Prop;
  persist_extends : forall out db r db' r', store_persist out db r = (db', Some r') ->
    rr_TenantID r' = rr_TenantID r /\ rr_GrantID r' = rr_GrantID r
    /\ rr_RevokedAt r' <= rr_RevokedAt r /\ rr_ExpiresAt r - 1000 < rr_ExpiresAt r';
  persist_ok : forall out db r db' r', store_ok db -> 0 <= rr_ExpiresAt r <= max_int64 ->
    store_persist out db r = (db', Some r') -> store_ok db' /\ is_int64 (rr_ExpiresAt r')
}.

(** ** The server *)

(** The arguments of one call of [AuditLogger.Log]. *)
Record AuditCall := mkAuditCall {
  au_revision : Z;
  au_tenant : string;
  au_subject : string;
  au_action : string;
  au_resource : string;
  au_decision : Decision;
  au_policy : string;
  au_context : gmap string string
}.

(** [audit] is [None] without an audit logger. *)
Record GRPCServer (DB : Type) := mkServer {
  gs_engine : EngineWithGC;
  gs_audit : option (list AuditCall);
  gs_jwt : option JWTValidator;
  gs_delegation : option DelegationManager;
  gs_approval : option ApprovalCapabilityManager;
  gs_store : option DB
}.
Arguments mkServer {DB}.
Arguments gs_engine {DB}.
Arguments gs_audit {DB}.
Arguments gs_jwt {DB}.
Arguments gs_delegation {DB}.
Arguments gs_approval {DB}.
Arguments gs_store {DB}.

Inductive ContextError := CtxDeadlineExceeded | CtxCanceled.

(** The clock and the outcomes one call meets: the token, the revocation list
    and the proof are read at their own times; [env_canceled] are the tests of
    the context in the engine and [env_ctx] the last one; [env_between] is what
    other goroutines do to the engine between two reads of it. *)
Record CallEnv (Out : Type) := mkEnv {
  env_token : Z;
  env_revocation : Z;
  env_proof : Z;
  env_engine : Z;
  env_seed : nat;
  env_canceled : bool;
  env_canceled2 : bool;
  env_ctx : option ContextError;
  env_db : Out;
  env_between : EngineWithGC -> EngineWithGC;
  env_random : option Bytes
}.
Arguments env_token {Out}.
Arguments env_revocation {Out}.
Arguments env_proof {Out}.
Arguments env_engine {Out}.
Arguments env_seed {Out}.
Arguments env_canceled {Out}.
Arguments env_canceled2 {Out}.
Arguments env_ctx {Out}.
Arguments env_db {Out}.
Arguments env_between {Out}.
Arguments env_random {Out}.

(** ** CheckAccess *)

(** [policyv1.Obligation]. *)
Record ProtoObligation := mkProtoObligation {
  po_Type : string;
  po_Message : string;
  po_Payload : gmap string string
}.

Record CheckAccessResponse := mkCheckAccessResponse {
  resp_decision : Decision;
  resp_policy : string;
  resp_obligations : list ProtoObligation;
  resp_advice : gmap string string
}.

Definition protocolObligations (source : list ObligationNode) : list ProtoObligation :=
  (fun o => mkProtoObligation (ObType o) (ObMessage o) (ObPayload o)) <$> source.

Definition revokedDecision : CheckAccessResponse :=
  mkCheckAccessResponse DecisionDeny "POL-REVOCATION-BLACK-LIST" [] {["reason"%string := "Phiên ủy quyền đã bị thu hồi bởi người giám sát (Revoked Delegation)"%string]}.

(** [result.Explanations[0]], empty without explanations. *)
Definition matched_policy_id (r : DecisionResult) : string :=
  match Explanations r with id :: _ => id | [] => ""%string end.

Section Handlers.
Context {DB Out : Type} `{RevocationStore DB Out} `{JwtLibrary} `{RangeOrder}.
Implicit Types (s : GRPCServer DB) (env : CallEnv Out).

Definition with_engine s (e : EngineWithGC) : GRPCServer DB :=
  mkServer e (gs_audit s) (gs_jwt s) (gs_delegation s) (gs_approval s) (gs_store s).
Definition with_delegation s (m : option DelegationManager) : GRPCServer DB :=
  mkServer (gs_engine s) (gs_audit s) (gs_jwt s) m (gs_approval s) (gs_store s).
Definition with_store s (db : option DB) : GRPCServer DB :=
  mkServer (gs_engine s) (gs_audit s) (gs_jwt s) (gs_delegation s) (gs_approval s) db.
Definition with_audit s (a : option (list AuditCall)) : GRPCServer DB :=
  mkServer (gs_engine s) a (gs_jwt s) (gs_delegation s) (gs_approval s) (gs_store s).

(** The scope of the configured fence, when the store has one. *)
Definition fence_of s : option string := gs_store s ≫= store_scope.

(** What the test of the revocation list decides. *)
Inductive Gate := GatePass | GateUnavailable | GateRevoked.

Definition revocation_gate env s (tenant grantID : string) : GRPCServer DB * Gate :=
  if bool_decide (grantID = ""%string) then (s, GatePass)
  else match gs_delegation s with
       | None => (s, GatePass)
       | Some m =>
           if negb (RevocationReady m) then (s, GateUnavailable)
           else let '(m', revoked) := IsRevoked (env_revocation env) m tenant grantID in
                (with_delegation s (Some m'), if revoked then GateRevoked else GatePass)
       end.

(** [EnsureERPPolicyRevision], for a request that asks for the fence. *)
Definition policy_fence env s (fenceScope tenant : string) (revision : Z) : GRPCServer DB * result Code unit :=
  if bool_decide (fenceScope = ""%string) then (s, Ok tt)
  else match gs_store s, fence_of s with
       | Some db, Some _ =>
           let '(db', ok) := store_ensure (env_db env) db tenant revision in
           (with_store s (Some db'), if ok then Ok tt else Err Unavailable)
       | _, _ => (s, Err FailedPrecondition)
       end.

Definition access_response (r : DecisionResult) (fenceScope : string) : CheckAccessResponse :=
  mkCheckAccessResponse (res_decision r) (matched_policy_id r) (protocolObligations (res_obligations r))
    {["erp.revocation_fence"%string := fenceScope; "erp.policy_revision"%string := FormatInt (PolicyRevision r)]}.

(** [auditLogger.Log], when there is a logger. *)
Definition log_decision s (corr : option auditCorrelation) (req : CheckAccessRequest) (r : DecisionResult) :
    GRPCServer DB :=
  with_audit s ((fun log => log ++ [mkAuditCall (PolicyRevision r) (cr_TenantId req) (cr_Subject req) (cr_Action req)
                   (cr_Resource req) (res_decision r) (matched_policy_id r)
                   (withAuditCorrelation corr (cr_Context req))]) <$> gs_audit s).

(** From the evaluation to the response. *)
Definition decide_access (loader : LazyLoader) env s (corr : option auditCorrelation) (fenceScope : string)
    (req : CheckAccessRequest) : GRPCServer DB * result Code CheckAccessResponse :=
  let '(e, r) := gc_CheckPermission loader (env_engine env) (env_canceled env) (env_canceled2 env) (gs_engine s)
                   (cr_TenantId req) (cr_Subject req) (cr_Action req) (cr_Resource req) (cr_Context req) in
  let '(s1, fenced) := policy_fence env (with_engine s e) fenceScope (cr_TenantId req) (PolicyRevision r) in
  match fenced with
  | Err c => (s1, Err c)
  | Ok _ =>
      match env_ctx env with
      | Some CtxDeadlineExceeded => (s1, Err DeadlineExceeded)
      | Some CtxCanceled => (s1, Err Canceled)
      | None => (log_decision s1 corr req r, Ok (access_response r fenceScope))
      end
  end.

(** The request with the identity of its token. *)
Definition trusted_request (req : CheckAccessRequest) (subject : string) (trusted : gmap string string) :
    CheckAccessRequest :=
  mkCheckAccess (cr_TenantId req) subject (cr_Action req) (cr_Resource req) trusted.

Definition CheckAccess (loader : LazyLoader) env s (ctx : Incoming) (corr : option auditCorrelation)
    (req : CheckAccessRequest) : GRPCServer DB * result Code CheckAccessResponse :=
  match validateTenantAndGetClaims (env_token env) (gs_jwt s) ctx (cr_TenantId req) with
  | Err c => (s, Err c)
  | Ok claims =>
      match bindTrustedIdentity (env_seed env) claims (cr_Context req) with
      | None => (s, Err Unauthenticated)
      | Some (sub, trusted) =>
          let req1 := trusted_request req sub trusted in
          let fenceScope := ctx_get trusted "erp.revocation_fence" in
          if negb (bool_decide (fenceScope = ""%string)) && negb (bool_decide (fence_of s = Some fenceScope))
          then (s, Err FailedPrecondition)
          else
            let '(s1, gate) := revocation_gate env s (cr_TenantId req) (ctx_get trusted "delegation_grant_id") in
            match gate with
            | GateUnavailable => (s1, Err Unavailable)
            | GateRevoked => (s1, Ok revokedDecision)
            | GatePass =>
                match validateDelegation (env_proof env) (gs_delegation s1) req1 with
                | Err c => (s1, Err c)
                | Ok req2 => decide_access loader env s1 corr fenceScope req2
                end
            end
      end
  end.

(** ** RevokeDelegation *)

(** The free text of the request is left out. *)
Record RevokeRequest := mkRevokeRequest { rv_TenantId : string; rv_GrantId : string; rv_RevokedBy : string }.

(** The response: [revoked_at], after a success. *)
Definition RevokeDelegation env s (ctx : Incoming) (req : RevokeRequest) : GRPCServer DB * result Code Z :=
  match validateTenantAndGetClaims (env_token env) (gs_jwt s) ctx (rv_TenantId req) with
  | Err c => (s, Err c)
  | Ok claims =>
      match ExtractSubjectAttributes claims with
      | None => (s, Err Unauthenticated)
      | Some (subject, _) =>
          if negb (bool_decide (rv_RevokedBy req = ""%string)) && negb (bool_decide (rv_RevokedBy req = subject))
          then (s, Err PermissionDenied)
          else if negb (HasPermission claims "delegation:revoke") then (s, Err PermissionDenied)
          else if bool_decide (rv_GrantId req = ""%string) then (s, Err InvalidArgument)
          else match gs_delegation s with
          | None => (s, Err Internal)
          | Some m =>
              let now := env_revocation env in
              match gs_store s with
              | None =>
                  let '(m', at_) := Revoke now (env_proof env) m (rv_TenantId req) (rv_GrantId req) in
                  (with_delegation s (Some m'), Ok at_)
              | Some db =>
                  let record := mkRevRecord (rv_TenantId req) (rv_GrantId req) subject now (now + MaxDelegationTTL) in
                  match store_persist (env_db env) db record with
                  | (db', None) => (with_store s (Some db'), Err Unavailable)
                  | (db', Some persisted) =>
                      let '(m', applied) := ApplyRevocation (env_proof env) m persisted in
                      let s' := with_delegation (with_store s (Some db')) (Some m') in
                      if applied then (s', Ok (time_unix (rr_RevokedAt persisted))) else (s', Err Internal)
                  end
              end
          end
      end
  end.

(** ** Approval capabilities *)

Definition approvalPolicyAction : string := "action:APPROVE_PURCHASE_ORDER".

Record IssueRequest := mkIssueRequest {
  iq_TenantId : string;
  iq_CompanyId : Z;
  iq_ApprovalId : string;
  iq_IntentHash : string;
  iq_StateWitness : string;
  iq_CommandId : string;
  iq_DelegationGrantId : Z;
  iq_DelegatorSubject : string;
  iq_AgentSubject : string;
  iq_CreatorSubject : string;
  iq_ApproverUserId : Z;
  iq_Resource : string;
  iq_DelegationValidUntil : Z;
  iq_Context : gmap string string
}.

(** [policyv1.ApprovalCapability]: the capability and its envelope in one message. *)
Record ProtoCapability := mkProtoCapability {
  pc_CapabilityVersion : string;
  pc_Purpose : string;
  pc_ApprovalId : string;
  pc_TenantId : string;
  pc_CompanyId : Z;
  pc_IntentHash : string;
  pc_StateWitness : string;
  pc_CommandId : string;
  pc_DelegationGrantId : Z;
  pc_DelegatorSubject : string;
  pc_AgentSubject : string;
  pc_CreatorSubject : string;
  pc_ApproverUserId : Z;
  pc_ApproverSubject : string;
  pc_RequiredPermission : string;
  pc_IssuancePolicyRevision : Z;
  pc_IssuedAt : Z;
  pc_ExpiresAt : Z;
  pc_OneTimeId : string;
  pc_Algorithm : string;
  pc_KeyId : string;
  pc_CanonicalPayload : Bytes;
  pc_Signature : Bytes
}.

(** The byte slices are copied. *)
Definition approvalCapabilityToProto (c : ApprovalCapability) (e : ApprovalCapabilityEnvelope) : ProtoCapability :=
  mkProtoCapability (ac_CapabilityVersion c) (ac_Purpose c) (ac_ApprovalID c) (ac_TenantID c) (ac_CompanyID c)
    (ac_IntentHash c) (ac_StateWitness c) (ac_CommandID c) (ac_DelegationGrantID c) (ac_DelegatorSubject c)
    (ac_AgentSubject c) (ac_CreatorSubject c) (ac_ApproverUserID c) (ac_ApproverSubject c)
    (ac_RequiredPermission c) (ac_IssuancePolicyRevision c) (ac_IssuedAt c) (ac_ExpiresAt c) (ac_OneTimeID c)
    (env_Algorithm e) (env_KeyID e) (env_Payload e) (env_Signature e).

Definition approvalCapabilityFromProto (source : ProtoCapability) : ApprovalCapability :=
  mkCapability (pc_CapabilityVersion source) (pc_Purpose source) (pc_ApprovalId source) (pc_TenantId source)
    (pc_CompanyId source) (pc_IntentHash source) (pc_StateWitness source) (pc_CommandId source)
    (pc_DelegationGrantId source) (pc_DelegatorSubject source) (pc_AgentSubject source) (pc_CreatorSubject
    source) (pc_ApproverUserId source) (pc_ApproverSubject source) (pc_RequiredPermission source)
    (pc_IssuancePolicyRevision source) (pc_IssuedAt source) (pc_ExpiresAt source) (pc_OneTimeId source).
Definition envelope_of (source : ProtoCapability) : ApprovalCapabilityEnvelope :=
  mkEnvelope (pc_Algorithm source) (pc_KeyId source) (pc_CanonicalPayload source) (pc_Signature source).

(** The context the policies of an approval see. *)
Definition approval_context (req : IssueRequest) (grantID : string) (trusted : gmap string string) : gmap string string :=
  <["resource.creator_id"%string := iq_CreatorSubject req]>
  (<["delegation_grant_id"%string := grantID]>
  (<["grant_id"%string := grantID]>
  (<["command_id"%string := iq_CommandId req]>
  (<["state_witness"%string := iq_StateWitness req]>
  (<["intent_hash"%string := iq_IntentHash req]>
  (<["approval_state"%string := "pending"%string]>
  (<["approval_id"%string := iq_ApprovalId req]> trusted))))))).

Definition separates_duties (approver : string) (req : IssueRequest) : bool :=
  has_prefix approver "user:" && negb (bool_decide (approver = iq_AgentSubject req))
  && negb (bool_decide (approver = iq_CreatorSubject req)) && negb (bool_decide (approver = iq_DelegatorSubject req)).

Definition unsigned_capability (req : IssueRequest) (approver : string) (revision : Z) : ApprovalCapability :=
  mkCapability "" "" (iq_ApprovalId req) (iq_TenantId req) (iq_CompanyId req) (iq_IntentHash req)
    (iq_StateWitness req) (iq_CommandId req) (iq_DelegationGrantId req) (iq_DelegatorSubject req)
    (iq_AgentSubject req) (iq_CreatorSubject req) (iq_ApproverUserId req) approver "" revision 0 0 "".

(** From the policy decision to the signed capability; the revision is read
    from the engine again. *)
Definition approve (loader : LazyLoader) env s (am : ApprovalCapabilityManager) (req : IssueRequest)
    (approver grantID : string) (trusted : gmap string string) : GRPCServer DB * result Code ProtoCapability :=
  let '(e, r) := gc_CheckPermission loader (env_engine env) (env_canceled env) (env_canceled2 env) (gs_engine s)
                   (iq_TenantId req) approver approvalPolicyAction (iq_Resource req)
                   (approval_context req grantID trusted) in
  match env_ctx env with
  | Some CtxDeadlineExceeded => (with_engine s e, Err DeadlineExceeded)
  | Some CtxCanceled => (with_engine s e, Err Canceled)
  | None =>
      if negb (bool_decide (res_decision r = DecisionAllow)) || negb (bool_decide (length (res_obligations r) = 0%nat))
      then (with_engine s e, Err PermissionDenied)
      else
        let e' := env_between env e in
        let revision := gc_GetTenantRevision e' (iq_TenantId req) in
        if max_int64 <? revision then (with_engine s e', Err Internal)
        else match Issue (env_proof env) (env_random env) am (unsigned_capability req approver revision)
                     (iq_DelegationValidUntil req) with
             | Err _ => (with_engine s e', Err InvalidArgument)
             | Ok (c, envelope) => (with_engine s e', Ok (approvalCapabilityToProto c envelope))
             end
  end.

(** The tests for a nil request and a nil engine are left out. *)
Definition IssueApprovalCapability (loader : LazyLoader) env s (ctx : Incoming) (req : IssueRequest) :
    GRPCServer DB * result Code ProtoCapability :=
  match gs_approval s with
  | None => (s, Err FailedPrecondition)
  | Some am =>
      match validateTenantAndGetClaims (env_token env) (gs_jwt s) ctx (iq_TenantId req) with
      | Err c => (s, Err c)
      | Ok claims =>
          match bindTrustedIdentity (env_seed env) claims (iq_Context req) with
          | None => (s, Err Unauthenticated)
          | Some (approver, trusted) =>
              if negb (separates_duties approver req) then (s, Err PermissionDenied)
              else if negb (bool_decide (ctx_get trusted "principal.company_id" = FormatInt (iq_CompanyId req)))
              then (s, Err PermissionDenied)
              else if negb (has_prefix (iq_Resource req) "purchase_order:") || (iq_DelegationGrantId req <=? 0)
              then (s, Err InvalidArgument)
              else
                let grantID := FormatInt (iq_DelegationGrantId req) in
                match gs_delegation s with
                | None => (s, Err Unavailable)
                | Some m =>
                    if negb (RevocationReady m) then (s, Err Unavailable)
                    else
                      let '(m', revoked) := IsRevoked (env_revocation env) m (iq_TenantId req) grantID in
                      let s1 := with_delegation s (Some m') in
                      if revoked : bool then (s1, Err PermissionDenied)
                      else approve loader env s1 am req approver grantID trusted
                end
          end
      end
  end.

(** [capability] is the message of the request, [None] for nil. *)
Definition VerifyApprovalCapability env s (ctx : Incoming) (tenantID : string) (capability : option ProtoCapability) :
    result Code bool :=
  match capability, gs_approval s with
  | Some pc, Some am =>
      let? claims := validateTenantAndGetClaims (env_token env) (gs_jwt s) ctx tenantID in
      match bindTrustedIdentity (env_seed env) claims ∅ with
      | None => Err Unauthenticated
      | Some (approver, trusted) =>
          let c := approvalCapabilityFromProto pc in
          guard? negb (bool_decide (ac_TenantID c = tenantID)) || negb (bool_decide (ac_ApproverSubject c = approver))
                 || negb (bool_decide (ctx_get trusted "principal.company_id" = FormatInt (ac_CompanyID c)))
            else PermissionDenied;
          match Verify (env_proof env) am c (envelope_of pc) with
          | Err _ => Err PermissionDenied
          | Ok _ => Ok true
          end
      end
  | _, _ => Err InvalidArgument
  end.

(** ** ExplainDecision *)

(** [policyv1.PolicyMetadata]; its text only repeats the two fields. *)
Record PolicyMetadata := mkPolicyMetadata { pm_PolicyId : string; pm_Effect : Effect }.

(** [ex_reason] is [None] for the fixed text of a missing tenant. *)
Record ExplainResponse := mkExplain {
  ex_decision : Decision;
  ex_reason : option Reason;
  ex_matched : list PolicyMetadata
}.

Definition conditionMatched (ctx : EvalContext) (policy : PolicyNode) : bool :=
  let v := Evaluate (Condition policy) ctx in
  if IsUnless policy then match v with Ok x => is_bool x && negb (BoolVal x) | Err _ => false end
  else match v with Ok x => is_bool x && BoolVal x | Err _ => false end.

Definition matched_metadata (trie : TrieRoot) (subject action resource : string) (context : gmap string string) :
    list PolicyMetadata :=
  let subjects := GetInheritedRoles (Some (trie_dag trie)) subject in
  let action' := if negb (has_prefix action "action:") then "action:" +:+ action else action in
  let evalCtx := mkEvalContext subject action resource context (Some (trie_dag trie)) in
  (fun p => mkPolicyMetadata (ID p) (PEffect p))
    <$> base.filter (fun p => conditionMatched evalCtx p = true) (LookupPolicies trie subjects [resource] action').

Definition ExplainDecision (loader : LazyLoader) env s (ctx : Incoming) (req : CheckAccessRequest) :
    GRPCServer DB * result Code ExplainResponse :=
  match validateTenantAndGetClaims (env_token env) (gs_jwt s) ctx (cr_TenantId req) with
  | Err c => (s, Err c)
  | Ok claims =>
      match bindTrustedIdentity (env_seed env) claims (cr_Context req) with
      | None => (s, Err Unauthenticated)
      | Some (sub, trusted) =>
          let '(e, r) := gc_CheckPermission loader (env_engine env) (env_canceled env) (env_canceled2 env)
                           (gs_engine s) (cr_TenantId req) sub (cr_Action req) (cr_Resource req) trusted in
          let '(e', trie) := gc_GetTenantTrie loader (env_proof env) (env_between env e) (cr_TenantId req) in
          (with_engine s e',
           Ok match trie with
              | None => mkExplain DecisionDeny None []
              | Some t => mkExplain (res_decision r) (Some (res_reason r))
                            (matched_metadata t sub (cr_Action req) (cr_Resource req) trusted)
              end)
      end
  end.
End Handlers.
