(* ===== verification/ServerFacts.v ===== *)
(** * Theorems about the gRPC service

    Access is granted only to an authenticated subject of the tenant, on the
    policies of that tenant, and for a delegated request only under a proof of
    exactly that request and a grant that is not revoked. *)

From S2P Require Import Prelude GoStr GoCrypto IntText Ast Dag Trie TrieFacts Evaluator Decision Engine DecisionFacts EngineFacts.
From S2P Require Import Canonical Intent Delegation DelegationFacts Revocation Approval.
From S2P Require Import Jwt Identity DelegationAuth DelegationAuthFacts Server DagFacts.
From stdpp Require Import options.
Local Open Scope Z_scope.

Section Facts.
Context {DB Out : Type} `{RevocationStore DB Out} `{JwtLibrary} `{RangeOrder}.
Implicit Types (s : GRPCServer DB) (env : CallEnv Out).

(** ** The stages *)

(** The gate lets a request through with its manager unchanged but for
    expired records. *)
Lemma revocation_gate_pass env s tenant grant s1 :
  revocation_gate env s tenant grant = (s1, GatePass) ->
  (grant = ""%string /\ s1 = s) \/ (gs_delegation s = None /\ s1 = s) \/
  exists m, gs_delegation s = Some m /\ RevocationReady m = true /\
    (IsRevoked (env_revocation env) m tenant grant).2 = false /\
    s1 = with_delegation s (Some (IsRevoked (env_revocation env) m tenant grant).1).
Proof.
  unfold revocation_gate. case_bool_decide as Hg; [intros [= <-]; by left|].
  destruct (gs_delegation s) as [m|]; [|intros [= <-]; by right; left].
  destruct (RevocationReady m) eqn:Er; [|done]. cbn [negb]. intros Hp. right. right. exists m.
  destruct (IsRevoked _ m tenant grant) as [m' []] eqn:E; [done|]. by injection Hp as <-.
Qed.

(** The state of the server apart from its manager of delegations. *)
Definition same_services s s1 : Prop :=
  gs_engine s1 = gs_engine s /\ gs_audit s1 = gs_audit s /\ gs_jwt s1 = gs_jwt s
  /\ gs_approval s1 = gs_approval s /\ gs_store s1 = gs_store s.

Lemma revocation_gate_frame env s tenant grant : same_services s (revocation_gate env s tenant grant).1.
Proof.
  unfold revocation_gate, same_services. case_bool_decide; [done|]. destruct (gs_delegation s) as [m|]; [|done].
  destruct (RevocationReady m); [|done]. cbn [negb]. by destruct (IsRevoked _ _ _ _).
Qed.

Lemma IsRevoked_keys now m t g : exists r, (IsRevoked now m t g).1 = with_revocations m r.
Proof.
  unfold IsRevoked. destruct m as [a k ttl map r]. destruct (_ || _); [by exists map|].
  destruct (revocationMap _ !! (t, g)) as [c|]; [|by exists map].
  destruct (_ <=? _); [by eexists|by exists map].
Qed.

(** Proofs are verified against the keys only. *)
Lemma v1_proved_revocations now m r0 r : v1_proved now (with_revocations m r0) r <-> v1_proved now m r.
Proof. done. Qed.
Lemma v2_proved_revocations now m r0 r i : v2_proved now (with_revocations m r0) r i <-> v2_proved now m r i.
Proof. done. Qed.

(** ** What an answer rests on *)

(** The request [r] of an authenticated subject may be evaluated as [r2]. *)
Definition delegation_checked env s (r r2 : CheckAccessRequest) : Prop :=
  (direct_request r /\ r2 = set_context r (<["delegation_chain"%string := cr_Subject r]> (cr_Context r)))
  \/ exists m, gs_delegation s = Some m /\ RevocationReady m = true
     /\ (IsRevoked (env_revocation env) m (cr_TenantId r) (ctx_get (cr_Context r) "delegation_grant_id")).2 = false
     /\ ((v1_proved (env_proof env) m r /\ r2 = r)
         \/ exists i, v2_proved (env_proof env) m r i
              /\ r2 = set_context r (bindCanonicalIntentContext (cr_Context r) i)).

Lemma gate_then_delegation env s s1 r r2 :
  revocation_gate env s (cr_TenantId r) (ctx_get (cr_Context r) "delegation_grant_id") = (s1, GatePass) ->
  validateDelegation (env_proof env) (gs_delegation s1) r = Ok r2 ->
  delegation_checked env s r r2.
Proof.
  intros Hg Hv. apply validateDelegation_ok in Hv as [Hd|(Hne & _ & m1 & Hm1 & Hp)]; [by left|].
  apply revocation_gate_pass in Hg as [[? _]|[[Hn ->]|(m & Hm & Hr & Hrev & ->)]]; [done|congruence|].
  right. exists m. split_and!; [done..|]. cbn [with_delegation gs_delegation] in Hm1. injection Hm1 as <-.
  destruct (IsRevoked_keys (env_revocation env) m (cr_TenantId r) (ctx_get (cr_Context r) "delegation_grant_id")) as [mm Hmm].
  rewrite Hmm in Hp. destruct Hp as [[Hp ->]|(i & Hp & ->)].
  - left. split; [|done]. exact (proj1 (v1_proved_revocations _ m mm r) Hp).
  - right. exists i. split; [|done]. exact (proj1 (v2_proved_revocations _ m mm r i) Hp).
Qed.

(** The stages of an answered request. *)
Inductive answered (loader : LazyLoader) env s (corr : option auditCorrelation) (req : CheckAccessRequest)
    (v : JWTValidator) (claims : MapClaims) (subject : string) : GRPCServer DB -> CheckAccessResponse -> Prop :=
| answered_revoked m s1 :
    gs_delegation s = Some m -> RevocationReady m = true ->
    (IsRevoked (env_revocation env) m (cr_TenantId req) (ctx_get (cr_Context req) "delegation_grant_id")).2 = true ->
    same_services s s1 ->
    answered loader env s corr req v claims subject s1 revokedDecision
| answered_decided s1 r2 s' resp :
    let trusted := mergeTrustedPrincipalContext (env_seed env) (cr_Context req) (claim_attributes claims) in
    delegation_checked env s (trusted_request req subject trusted) r2 ->
    same_services s s1 ->
    decide_access loader env s1 corr (ctx_get trusted "erp.revocation_fence") r2 = (s', Ok resp) ->
    answered loader env s corr req v claims subject s' resp.

Lemma ctx_get_merge seed ctx attrs k : has_prefix k "principal." = false -> k <> "tenant_id"%string ->
  ctx_get (mergeTrustedPrincipalContext seed ctx attrs) k = ctx_get ctx k.
Proof. intros Hk Ht. unfold ctx_get. rewrite merge_caller by done. by rewrite bool_decide_false. Qed.

Lemma CheckAccess_answered loader env s ctx corr req s' resp :
  CheckAccess loader env s ctx corr req = (s', Ok resp) ->
  exists v claims subject, gs_jwt s = Some v /\ authentic (env_token env) v claims (cr_TenantId req) subject
    /\ answered loader env s corr req v claims subject s' resp.
Proof.
  unfold CheckAccess. intros Hc.
  destruct (validateTenantAndGetClaims _ _ _ _) as [claims|] eqn:Ev; [|done].
  destruct (validateTenant_ok _ _ _ _ _ Ev) as (v & subject & Hj & Ha & _).
  rewrite (authentic_binds _ _ _ _ _ (env_seed env) (cr_Context req) Ha) in Hc.
  exists v, claims, subject. split; [done|]. split; [done|].
  set (trusted := mergeTrustedPrincipalContext _ _ _) in *.
  destruct (_ && _); [done|].
  assert (ctx_get trusted "delegation_grant_id" = ctx_get (cr_Context req) "delegation_grant_id") as Hgr
    by by apply ctx_get_merge.
  pose proof (revocation_gate_frame env s (cr_TenantId req) (ctx_get trusted "delegation_grant_id")) as Hf.
  destruct (revocation_gate env s (cr_TenantId req) _) as [s1 gate] eqn:Eg. cbn [fst] in Hf. destruct gate; [|done|].
  - destruct (validateDelegation _ _ _) as [r2|] eqn:Ed; [|done].
    eapply answered_decided; [|exact Hf|exact Hc]. by eapply gate_then_delegation.
  - injection Hc as <- <-. unfold revocation_gate in Eg. rewrite Hgr in Eg. case_bool_decide; [done|].
    destruct (gs_delegation s) as [m|] eqn:Em; [|done]. destruct (RevocationReady m) eqn:Er; [|done].
    cbn [negb] in Eg. destruct (IsRevoked _ m _ _) as [m' []] eqn:Ei; [|done].
    eapply answered_revoked; [done|done| |exact Hf]. by rewrite Ei.
Qed.

(** The evaluation behind a response. *)
Lemma policy_fence_frame env s fs tenant rev s1 o : policy_fence env s fs tenant rev = (s1, o) ->
  gs_engine s1 = gs_engine s /\ gs_audit s1 = gs_audit s /\ gs_jwt s1 = gs_jwt s
  /\ gs_delegation s1 = gs_delegation s /\ gs_approval s1 = gs_approval s.
Proof.
  unfold policy_fence. case_bool_decide; [by intros [= <- _]|]. destruct (gs_store s) as [db|]; [|by intros [= <- _]].
  destruct (fence_of s); [|by intros [= <- _]]. destruct (store_ensure _ _ _ _). by intros [= <- _].
Qed.

Lemma decide_access_ok loader env s corr fs req s' resp :
  decide_access loader env s corr fs req = (s', Ok resp) ->
  let r := (gc_CheckPermission loader (env_engine env) (env_canceled env) (env_canceled2 env) (gs_engine s)
             (cr_TenantId req) (cr_Subject req) (cr_Action req) (cr_Resource req) (cr_Context req)).2 in
  resp = access_response r fs /\
  gs_audit s' = (fun log => log ++ [mkAuditCall (PolicyRevision r) (cr_TenantId req) (cr_Subject req) (cr_Action req)
                   (cr_Resource req) (res_decision r) (matched_policy_id r)
                   (withAuditCorrelation corr (cr_Context req))]) <$> gs_audit s.
Proof.
  unfold decide_access. intros Hd. destruct (gc_CheckPermission _ _ _ _ _ _ _ _ _ _) as [e r]. cbn [snd].
  destruct (policy_fence _ _ _ _ _) as [s1 o] eqn:Ef. apply policy_fence_frame in Ef as (_ & Ha & _).
  destruct o; [|done]. destruct (env_ctx env) as [[]|]; [done|done|]. injection Hd as <- <-.
  split; [done|]. cbn [log_decision with_audit gs_audit]. by rewrite Ha.
Qed.

(** An allow is only given by an engine that was asked in time. *)
Lemma allow_not_canceled loader now c c2 e tid sub act res ctx :
  res_decision (gc_CheckPermission loader now c c2 e tid sub act res ctx).2 = DecisionAllow ->
  c = false /\ c2 = false.
Proof.
  unfold gc_CheckPermission. destruct c; [done|].
  destruct (match gc_state e !! tid with Some _ => _ | None => _ end) as [e' [t|]]; [|done]. by destruct c2.
Qed.

Lemma checked_fields env s r r2 : delegation_checked env s r r2 ->
  cr_TenantId r2 = cr_TenantId r /\ cr_Subject r2 = cr_Subject r /\ cr_Action r2 = cr_Action r
  /\ cr_Resource r2 = cr_Resource r
  /\ forall k, has_prefix k "principal." = true -> cr_Context r2 !! k = cr_Context r !! k.
Proof.
  assert (forall k, has_prefix k "principal." = true -> "delegation_chain"%string <> k /\
    forall i c, bindCanonicalIntentContext c i !! k = c !! k) as Hk.
  { intros k Hk. split; [by intros <-|]. intros i c. unfold bindCanonicalIntentContext.
    rewrite !lookup_insert_ne by (by intros <-). done. }
  intros [[_ ->]|(m & _ & _ & _ & [[_ ->]|(i & _ & ->)])]; split_and!; try done;
    intros k Hp; destruct (Hk k Hp) as [Hc Hi]; cbn [set_context cr_Context]; [by rewrite lookup_insert_ne|by apply Hi].
Qed.

(** The index a request is decided on: the one in memory, or the one the lazy
    loader of the engine leaves there. *)
Definition asked_trie (loader : LazyLoader) (env : CallEnv Out) (s : GRPCServer DB) (tid : string) : option TrieRoot :=
  (gc_GetTenantTrie loader (env_engine env) (gs_engine s) tid).2.

(** C2: an answer of [CheckAccess] is justified end to end.  The token verified,
    for the tenant of the request; either the grant of the request is revoked
    and the answer is the refusal, or the delegation checks passed and the
    engine was asked for the subject of the token, with principal attributes
    from its claims only.  Then the answer is a denial because the context is
    done or no index of the tenant is found, in memory or by the lazy loader; or
    it is the decision of the bundle the tenant's index represents, with what
    simulations leaked into it, at its revision, unless the action is one whose
    hash is that of the wildcard. *)
Theorem access_answer_justified (loader : LazyLoader) (env : CallEnv Out) (s s' : GRPCServer DB) (ctx : Incoming)
    (corr : option auditCorrelation) (req : CheckAccessRequest) (resp : CheckAccessResponse)
    (Hok : CheckAccess loader env s ctx corr req = (s', Ok resp)) :
  exists v claims subject, gs_jwt s = Some v /\ authentic (env_token env) v claims (cr_TenantId req) subject /\
    ((resp = revokedDecision /\ exists m, gs_delegation s = Some m /\
        (IsRevoked (env_revocation env) m (cr_TenantId req) (ctx_get (cr_Context req) "delegation_grant_id")).2 = true)
     \/ exists r2 r,
        delegation_checked env s
          (trusted_request req subject
             (mergeTrustedPrincipalContext (env_seed env) (cr_Context req) (claim_attributes claims))) r2 /\
        resp = access_response r (ctx_get (cr_Context req) "erp.revocation_fence") /\
        (forall k w, has_prefix k "principal." = true -> cr_Context r2 !! k = Some w ->
          exists a, claims_key (claim_attributes claims) k a w) /\
        ((res_decision r = DecisionDeny
          /\ (env_canceled env = true \/ env_canceled2 env = true \/ asked_trie loader env s (cr_TenantId req) = None))
         \/ exists t, asked_trie loader env s (cr_TenantId req) = Some t /\
              forall b leaked, represents_and (cr_TenantId req) b leaked t ->
                hash_separates (normalizeAction (cr_Action req)) ->
                answers_for (and_leaked b leaked) (mkRequest subject (cr_Action req) (cr_Resource req) (cr_Context r2)) r)).
Proof.
  destruct (CheckAccess_answered _ _ _ _ _ _ _ _ Hok) as (v & claims & subject & Hj & Ha & Hans).
  exists v, claims, subject. split; [done|]. split; [done|].
  destruct Hans as [m s1 Hm Hr Hrev _|s1 r2 s2 resp trusted Hd Hs Hdec]; [left; split; [done|]; by exists m|right].
  pose proof (checked_fields _ _ _ _ Hd) as (E1 & E2 & E3 & E4 & Hp).
  apply decide_access_ok in Hdec as [-> _]. destruct Hs as (Heng & _).
  exists r2. eexists. split; [done|]. split; [f_equal; by apply ctx_get_merge|]. split.
  - intros k w Hk Hw. rewrite Hp in Hw by done. exact (merge_principal_source _ _ _ _ _ Hk Hw).
  - rewrite E1, E2, E3, E4. cbn [trusted_request cr_TenantId cr_Subject cr_Action cr_Resource].
    unfold asked_trie. rewrite <- Heng.
    destruct (check_permission_asked loader (env_engine env) (env_canceled env) (env_canceled2 env) (gs_engine s1)
                (cr_TenantId req) subject (cr_Action req) (cr_Resource req) (cr_Context r2)) as [Hden|(t & Ht & ->)]; [by left|right].
    exists t. split; [done|]. intros b leaked Hb Hsep.
    exact (trie_answers (cr_TenantId req) b leaked t (mkRequest subject (cr_Action req) (cr_Resource req) (cr_Context r2)) Hb Hsep).
Qed.

(** C38: every answer that was evaluated is handed to the audit log exactly once
    and as it was given, an error and a refused revoked grant are not. *)
Theorem evaluated_answers_audited (loader : LazyLoader) (env : CallEnv Out) (s s' : GRPCServer DB) (ctx : Incoming)
    (corr : option auditCorrelation) (req : CheckAccessRequest) (res : result Code CheckAccessResponse)
    (log : list AuditCall) (Hlog : gs_audit s = Some log)
    (Hcall : CheckAccess loader env s ctx corr req = (s', res)) :
  match res with
  | Err _ => gs_audit s' = Some log
  | Ok resp =>
      (resp = revokedDecision /\ gs_audit s' = Some log)
      \/ exists entry, gs_audit s' = Some (log ++ [entry]) /\
           au_tenant entry = cr_TenantId req /\ au_decision entry = resp_decision resp /\
           au_policy entry = resp_policy resp /\
           resp_advice resp !! "erp.policy_revision"%string = Some (FormatInt (au_revision entry))
  end.
Proof.
  destruct res as [resp|c].
  - destruct (CheckAccess_answered _ _ _ _ _ _ _ _ Hcall) as (v & claims & subject & _ & _ & Hans).
    destruct Hans as [m s1 _ _ _ (_ & Ha & _)|s1 r2 s2 resp trusted Hd (_ & Ha & _) Hdec]; [left; by rewrite Ha|right].
    apply checked_fields in Hd as (Ht & _). apply decide_access_ok in Hdec as [-> Hau].
    rewrite Hau, Ha, Hlog. eexists. split; [done|]. split; [done|]. split; [done|]. split; [done|].
    cbn [access_response resp_advice au_revision]. by simplify_map_eq.
  - revert Hcall. unfold CheckAccess. destruct (validateTenantAndGetClaims _ _ _ _); [|by intros [= <- _]].
    destruct (bindTrustedIdentity _ _ _) as [[sub trusted]|]; [|by intros [= <- _]].
    destruct (_ && _); [by intros [= <- _]|].
    pose proof (revocation_gate_frame env s (cr_TenantId req) (ctx_get trusted "delegation_grant_id")) as (_ & Ha & _).
    destruct (revocation_gate _ _ _ _) as [s1 []]; cbn [fst] in Ha; [|by intros [= <- _]; rewrite Ha|done].
    destruct (validateDelegation _ _ _) as [r2|]; [|by intros [= <- _]; rewrite Ha].
    unfold decide_access. destruct (gc_CheckPermission _ _ _ _ _ _ _ _ _ _) as [e r].
    destruct (policy_fence _ _ _ _ _) as [s2 o] eqn:Ef. apply policy_fence_frame in Ef as (_ & Hau & _).
    cbn [with_engine gs_audit] in Hau. rewrite Ha, Hlog in Hau.
    destruct o; [destruct (env_ctx env) as [[]|]|]; intros [= <- ?]; done.
Qed.
End Facts.

(** ** Revocation through the service *)

Section Revoking.
Context {DB Out : Type} `{RevocationStoreLaws DB Out} `{JwtLibrary} `{RangeOrder}.
Implicit Types (s : GRPCServer DB) (env : CallEnv Out).

(** The call reads the clock at a representable time after 1970, twice within a day. *)
Definition revoke_clock env : Prop :=
  0 <= env_revocation env /\ env_revocation env <= env_proof env < env_revocation env + MaxDelegationTTL - 1000
  /\ env_revocation env + MaxDelegationTTL <= max_int64.

(** A successful revocation is an event of the list that delivers a record of
    the grant, in force for a day. *)
Lemma RevokeDelegation_event env s ctx req s1 at_ m now :
  RevokeDelegation env s ctx req = (s1, Ok at_) -> gs_delegation s = Some m ->
  revocationTTL m = MaxDelegationTTL -> revoke_clock env -> env_proof env <= now ->
  (forall db, gs_store s = Some db -> store_ok db) ->
  exists e r, gs_delegation s1 = Some (rev_event m e) /\ event_ok now m e /\ delivered m [e] r
    /\ rr_key r = (rv_TenantId req, rv_GrantId req)
    /\ env_revocation env + MaxDelegationTTL - 1000 < rr_ExpiresAt r
    /\ rv_TenantId req <> ""%string /\ rv_GrantId req <> ""%string.
Proof.
  intros Hc Hm Httl (Hpos & Hle & Hmax) Hnow Hst. unfold RevokeDelegation in Hc.
  destruct (validateTenantAndGetClaims _ _ _ _) as [claims|] eqn:Ev; [|done].
  destruct (validateTenant_ok _ _ _ _ _ Ev) as (_ & _ & _ & _ & Hbl).
  assert (rv_TenantId req <> ""%string) as Htn by (intros Ht; rewrite Ht in Hbl; by vm_compute in Hbl).
  destruct (ExtractSubjectAttributes claims) as [[subject attrs]|]; [|done].
  destruct (_ && _); [done|]. destruct (negb _); [done|]. case_bool_decide as Hgr; [done|]. rewrite Hm in Hc.
  unfold is_int64, min_int64, max_int64 in *.
  destruct (gs_store s) as [db|].
  - destruct (store_persist _ _ _) as [db' [p|]] eqn:Ep; [|done].
    pose proof (persist_extends _ _ _ _ _ Ep) as (Et & Eg & Er & Ex).
    cbn [rr_TenantID rr_GrantID rr_RevokedAt rr_ExpiresAt] in *.
    assert (is_int64 (rr_ExpiresAt p)) as Hpx.
    { apply (persist_ok _ _ _ _ _ (Hst db eq_refl)) in Ep; [apply Ep|]. cbn [rr_ExpiresAt]. unfold max_int64.
      unfold MaxDelegationTTL, nanosecond in *. lia. }
    rewrite apply_accepted in Hc. destruct (accepted (env_proof env) p) eqn:Ea; [|done]. injection Hc as <- _.
    exists (EvNotified (env_proof env) p), p. split_and!; try done; try lia.
    + cbn [rev_event with_delegation gs_delegation]. unfold on_revocation. rewrite apply_accepted, Ea. done.
    + split; [unfold is_int64, min_int64, max_int64, MaxDelegationTTL, nanosecond in *; lia|].
      cbn [event_records]. by apply Forall_singleton.
    + exists (EvNotified (env_proof env) p), (env_proof env).
      split; [by apply list_elem_of_singleton|]. split; [by apply list_elem_of_singleton|done].
    + unfold rr_key. by rewrite Et, Eg.
  - injection Hc as Hs _. set (now1 := env_revocation env) in *. set (now2 := env_proof env) in *.
    exists (EvRevoke now1 now2 (rv_TenantId req) (rv_GrantId req)), (own_record now1 m (rv_TenantId req) (rv_GrantId req)).
    split_and!; try done.
    + by rewrite <- Hs.
    + split; [unfold is_int64, min_int64, max_int64, MaxDelegationTTL, nanosecond in *; lia|].
      cbn [event_records]. apply Forall_singleton. cbn [own_record rr_ExpiresAt snd]. rewrite Httl.
      unfold is_int64, min_int64, max_int64, MaxDelegationTTL, nanosecond in *. lia.
    + eexists _, now2. split; [by apply list_elem_of_singleton|]. split; [by apply list_elem_of_singleton|].
      unfold accepted. cbn [own_record rr_TenantID rr_GrantID rr_RevokedAt rr_ExpiresAt]. rewrite Httl.
      rewrite !bool_decide_false by done. unfold zero_time, MaxDelegationTTL, nanosecond in *. lia.
    + cbn [own_record rr_ExpiresAt]. rewrite Httl. lia.
Qed.

(** C6: revoking stops [CheckAccess]: once [RevokeDelegation] succeeded, every
    [CheckAccess] under the grant that is answered within the day is answered
    with the refusal, whatever else the replica applied to its list before and
    after.  The other routes have no gate: [ExplainDecision] and the HTTP
    decisions answer under a revoked grant ([http_ignores_revocation]). *)
Theorem revoked_grant_denied (loader : LazyLoader) (env env' : CallEnv Out) (s s1 s2 s3 : GRPCServer DB)
    (ctx ctx' : Incoming) (corr : option auditCorrelation) (rv : RevokeRequest) (req : CheckAccessRequest) (at_ : Z)
    (resp : CheckAccessResponse) (m : DelegationManager) (es es' : list RevEvent)
    (Hfresh : revocationMap m = ∅ /\ revocationTTL m = MaxDelegationTTL)
    (Hs : gs_delegation s = Some (rev_run m es)) (Hstore : forall db, gs_store s = Some db -> store_ok db)
    (Hclock : revoke_clock env)
    (Hrevoke : RevokeDelegation env s ctx rv = (s1, Ok at_))
    (Hlater : exists m1, gs_delegation s1 = Some m1 /\ gs_delegation s2 = Some (rev_run m1 es'))
    (Hnow : is_int64 (env_revocation env') /\ env_proof env <= env_revocation env'
            /\ env_revocation env' <= env_revocation env + MaxDelegationTTL - 1000)
    (Hevents : Forall (event_ok (env_revocation env') m) (es ++ es'))
    (Hreq : cr_TenantId req = rv_TenantId rv /\ ctx_get (cr_Context req) "delegation_grant_id" = rv_GrantId rv)
    (Hask : CheckAccess loader env' s2 ctx' corr req = (s3, Ok resp)) :
  resp = revokedDecision.
Proof.
  destruct Hfresh as [Hempty Httl], Hnow as (Hi & Hle & Hlt), Hreq as [Ht Hg].
  assert (forall l m0, revocationTTL (rev_run m0 l) = revocationTTL m0) as Hrun.
  { induction l as [|e l IH]; intros m0; [done|]. simpl. by rewrite IH, ttl_event. }
  destruct (RevokeDelegation_event env s ctx rv s1 at_ _ (env_revocation env') Hrevoke Hs) as
    (e & r & Hs1 & Hok & Hdel & Hkey & Hx & Htn & Hgn); [by rewrite Hrun|done..|].
  destruct Hlater as (m1 & Hm1 & Hm2). rewrite Hs1 in Hm1. injection Hm1 as <-.
  assert (rev_run (rev_event (rev_run m es) e) es' = rev_run m (es ++ e :: es')) as Hall
    by (unfold rev_run; by rewrite foldl_app).
  rewrite Hall in Hm2.
  assert ((IsRevoked (env_revocation env') (rev_run m (es ++ e :: es')) (rv_TenantId rv) (rv_GrantId rv)).2 = true) as Hrev.
  { apply revoked_when_delivered; [done| |done..|].
    - apply Forall_app in Hevents as [He He']. apply Forall_app. split; [done|]. constructor; [|done].
      eapply event_ok_ttl; [|exact Hok]. apply Hrun.
    - exists r. split_and!; [|done|lia]. destruct Hdel as (e0 & a & ->%list_elem_of_singleton & Hr & Hacc).
      exists e, a. split; [set_solver|]. split; [|done]. rewrite (event_records_ttl _ (rev_run m es)) by by rewrite Hrun.
      done. }
  destruct (CheckAccess_answered _ _ _ _ _ _ _ _ Hask) as (v & claims & subject & _ & _ & Hans).
  destruct Hans as [|s1' r2 s' resp trusted Hd _ _]; [done|]. exfalso.
  assert (ctx_get trusted "delegation_grant_id" = rv_GrantId rv) as Hgt by (rewrite <- Hg; by apply ctx_get_merge).
  destruct Hd as [[[Hn _] _]|(m0 & Hm0 & _ & Hnr & _)]; cbn [trusted_request cr_Context cr_TenantId] in *.
  - by rewrite Hgt in Hn.
  - rewrite Hm2 in Hm0. injection Hm0 as <-. rewrite Hgt, Ht in Hnr. congruence.
Qed.
End Revoking.

(** ** Approvals and explanations *)

Section Approving.
Context {DB Out : Type} `{RevocationStore DB Out} `{JwtLibrary} `{RangeOrder}.
Implicit Types (s : GRPCServer DB) (env : CallEnv Out).

(** The message carries the capability and its envelope unchanged. *)
Lemma proto_round_trip c e :
  approvalCapabilityFromProto (approvalCapabilityToProto c e) = c /\ envelope_of (approvalCapabilityToProto c e) = e.
Proof. by destruct c, e. Qed.

(** The policies allowed the approval, and imposed nothing. *)
Definition approval_allowed (loader : LazyLoader) env (e : EngineWithGC) (req : IssueRequest) (approver : string)
    (trusted : gmap string string) : Prop :=
  let r := (gc_CheckPermission loader (env_engine env) (env_canceled env) (env_canceled2 env) e (iq_TenantId req)
              approver approvalPolicyAction (iq_Resource req)
              (approval_context req (FormatInt (iq_DelegationGrantId req)) trusted)).2 in
  res_decision r = DecisionAllow /\ res_obligations r = [].

Lemma IssueApprovalCapability_ok loader env s ctx req s' pc :
  IssueApprovalCapability loader env s ctx req = (s', Ok pc) ->
  exists am m claims approver rev c e,
    gs_approval s = Some am /\ gs_delegation s = Some m /\ RevocationReady m = true
    /\ (IsRevoked (env_revocation env) m (iq_TenantId req) (FormatInt (iq_DelegationGrantId req))).2 = false
    /\ validateTenantAndGetClaims (env_token env) (gs_jwt s) ctx (iq_TenantId req) = Ok claims
    /\ claims !! "sub"%string = Some (ClaimString approver)
    /\ separates_duties approver req = true
    /\ ctx_get (mergeTrustedPrincipalContext (env_seed env) (iq_Context req) (claim_attributes claims))
         "principal.company_id" = FormatInt (iq_CompanyId req)
    /\ approval_allowed loader env (gs_engine s) req approver
         (mergeTrustedPrincipalContext (env_seed env) (iq_Context req) (claim_attributes claims))
    /\ Issue (env_proof env) (env_random env) am (unsigned_capability req approver rev) (iq_DelegationValidUntil req) = Ok (c, e)
    /\ pc = approvalCapabilityToProto c e.
Proof.
  unfold IssueApprovalCapability. intros Hc. destruct (gs_approval s) as [am|]; [|done].
  destruct (validateTenantAndGetClaims _ _ _ _) as [claims|]; [|done].
  destruct (bindTrustedIdentity _ _ _) as [[approver trusted]|] eqn:Eb; [|done].
  apply bind_ok in Eb as (Hsub & _ & ->). destruct (separates_duties approver req) eqn:Esd; [|done]. cbn [negb] in Hc.
  case_bool_decide as Hco; [|done]. cbn [negb] in Hc. destruct (_ || _); [done|].
  destruct (gs_delegation s) as [m|]; [|done]. destruct (RevocationReady m) eqn:Er; [|done]. cbn [negb] in Hc.
  destruct (IsRevoked _ _ _ _) as [m' []] eqn:Ei; [done|]. unfold approve in Hc. cbn [with_delegation gs_engine] in Hc.
  destruct (gc_CheckPermission _ _ _ _ _ _ _ _ _ _) as [e r] eqn:Ep.
  destruct (env_ctx env) as [[]|]; [done|done|]. destruct (_ || _) eqn:Ed; [done|]. bool_to_prop.
  destruct (max_int64 <? _); [done|]. destruct (Issue _ _ _ _ _) as [[c0 e0]|] eqn:Eis; [|done]. injection Hc as _ <-.
  exists am, m, claims, approver. do 3 eexists. split_and!; try done.
  - by rewrite Ei.
  - unfold approval_allowed. cbv zeta. rewrite Ep. cbn [snd]. split; [done|]. by apply nil_length_inv.
Qed.

(** An approval capability the service issues is an approval: the policies of
    the tenant allowed it without obligations, for an authenticated user of the
    company who is none of the parties, on a grant that was not revoked; and
    the same user can have it verified, by any replica whose ring retains the
    key, until it expires. *)
Theorem issued_approval_verifies (loader : LazyLoader) (env env' : CallEnv Out) (s s' s2 : GRPCServer DB)
    (ctx ctx' : Incoming) (req : IssueRequest) (pc : ProtoCapability) (active : string) (keys : gmap string string)
    (ttl : Z) (am am' : ApprovalCapabilityManager) (claims : MapClaims)
    (Hring : NewApprovalCapabilityManagerWithKeyring active keys ttl = Ok am) (Ham : gs_approval s = Some am)
    (Hissue : IssueApprovalCapability loader env s ctx req = (s', Ok pc))
    (Hclaims : validateTenantAndGetClaims (env_token env) (gs_jwt s) ctx (iq_TenantId req) = Ok claims)
    (Ham' : gs_approval s2 = Some am') (Hkeys : am_keys am' !! active = keys !! active)
    (Hsame : validateTenantAndGetClaims (env_token env') (gs_jwt s2) ctx' (iq_TenantId req) = Ok claims)
    (Hseed : env_seed env' = env_seed env)
    (Htime : time_unix (env_proof env) - 30 <= time_unix (env_proof env') <= pc_ExpiresAt pc) :
  VerifyApprovalCapability env' s2 ctx' (iq_TenantId req) (Some pc) = Ok true
  /\ pc_ExpiresAt pc <= iq_DelegationValidUntil req
  /\ exists m, gs_delegation s = Some m
       /\ (IsRevoked (env_revocation env) m (iq_TenantId req) (FormatInt (iq_DelegationGrantId req))).2 = false
       /\ claims !! "sub"%string = Some (ClaimString (pc_ApproverSubject pc))
       /\ separates_duties (pc_ApproverSubject pc) req = true
       /\ approval_allowed loader env (gs_engine s) req (pc_ApproverSubject pc)
            (mergeTrustedPrincipalContext (env_seed env) (iq_Context req) (claim_attributes claims)).
Proof.
  apply IssueApprovalCapability_ok in Hissue as
    (am0 & m & claims0 & approver & rev & c & e & Ham0 & Hm & _ & Hrev & Hcl & Hsub & Hsd & Hco & Hal & His & ->).
  rewrite Ham in Ham0. injection Ham0 as <-. rewrite Hclaims in Hcl. apply Ok_inj in Hcl as <-.
  destruct (Issue_verifies _ _ _ _ _ _ am' _ _ _ _ Hring His Hkeys) as (Hst & Hx & Hver).
  pose proof (proto_round_trip c e) as [Hfrom Henv].
  assert (ac_TenantID c = iq_TenantId req /\ ac_ApproverSubject c = approver /\ ac_CompanyID c = iq_CompanyId req)
    as (Ct & Ca & Cc) by (rewrite Hst; done).
  change (pc_ExpiresAt (approvalCapabilityToProto c e)) with (ac_ExpiresAt c) in *.
  change (pc_ApproverSubject (approvalCapabilityToProto c e)) with (ac_ApproverSubject c). rewrite Ca.
  split; [|split; [done|by exists m]].
  unfold VerifyApprovalCapability. rewrite Ham', Hsame. cbn [rbind].
  assert (bindTrustedIdentity (env_seed env') claims ∅ =
    Some (approver, mergeTrustedPrincipalContext (env_seed env') ∅ (claim_attributes claims))) as ->.
  { apply bind_ok. split_and!; [done| |done]. intros ->. by vm_compute in Hsd. }
  assert (ctx_get (mergeTrustedPrincipalContext (env_seed env') ∅ (claim_attributes claims)) "principal.company_id"
    = FormatInt (iq_CompanyId req)) as Hco'.
  { rewrite <- Hco, Hseed. unfold ctx_get. f_equal. by apply merge_principal_agree. }
  rewrite Hfrom, Henv, Ct, Ca, Cc, !bool_decide_true by done. cbn [negb orb]. by rewrite Hver.
Qed.

(** ** Explanations *)

Lemma conditionMatched_eq ctx p : conditionMatched ctx p = condition_satisfied ctx p.
Proof.
  unfold conditionMatched, condition_satisfied. destruct (Evaluate _ _) as [v|]; [|by destruct (IsUnless p)].
  by destruct (IsUnless p), (is_bool v).
Qed.

(** The loop answers allow when a satisfied permit is in the list and no satisfied forbid. *)
Lemma decide_loop_allow ec ms : (exists q, decide_loop ec ms None = (None, Some q)) <->
  (exists q, q ∈ ms /\ condition_satisfied ec q = true /\ PEffect q = EffectPermit)
  /\ forall q, q ∈ ms -> condition_satisfied ec q = true -> PEffect q <> EffectForbid.
Proof.
  pose proof (decide_loop_spec ec ms None) as Hl. destruct (decide_loop ec ms None) as [[f|] [q|]].
  - destruct Hl as (Hin & Hc & He). split; [by intros [? [=]]|]. intros [_ Hf]. by destruct (Hf f Hin Hc).
  - destruct Hl as (Hin & Hc & He). split; [by intros [? [=]]|]. intros [_ Hf]. by destruct (Hf f Hin Hc).
  - destruct Hl as [Hp [|(_ & Hin & Hc)]]; [done|]. split; [intros _|by exists q].
    split; [by exists q; auto|]. intros p Hpin Hpc. by rewrite Hp.
  - destruct Hl as [_ [_ Hno]]. split; [by intros [? [=]]|]. intros [(q & Hin & Hc & _) _]. by rewrite Hno in Hc.
Qed.

Definition listed (ec : EvalContext) (ms : list PolicyNode) : list PolicyMetadata :=
  (fun p => mkPolicyMetadata (ID p) (PEffect p)) <$> base.filter (fun p => conditionMatched ec p = true) ms.

Lemma matched_exists ec ms (P : Effect -> Prop) : (exists pm, pm ∈ listed ec ms /\ P (pm_Effect pm)) <->
  exists q, q ∈ ms /\ condition_satisfied ec q = true /\ P (PEffect q).
Proof.
  unfold listed. split.
  - intros (pm & (q & -> & Hq)%list_elem_of_fmap & HP). apply list_elem_of_filter in Hq as [Hq Hin].
    rewrite conditionMatched_eq in Hq. by exists q.
  - intros (q & Hin & Hq & HP). exists (mkPolicyMetadata (ID q) (PEffect q)). split; [|done].
    apply list_elem_of_fmap. exists q. split; [done|]. apply list_elem_of_filter. by rewrite conditionMatched_eq.
Qed.

Lemma matched_forall ec ms (P : Effect -> Prop) : (forall pm, pm ∈ listed ec ms -> P (pm_Effect pm)) <->
  forall q, q ∈ ms -> condition_satisfied ec q = true -> P (PEffect q).
Proof.
  unfold listed. split.
  - intros Hall q Hin Hq. apply (Hall (mkPolicyMetadata (ID q) (PEffect q))). apply list_elem_of_fmap.
    exists q. split; [done|]. apply list_elem_of_filter. by rewrite conditionMatched_eq.
  - intros Hall pm (q & -> & Hq)%list_elem_of_fmap. apply list_elem_of_filter in Hq as [Hq Hin].
    rewrite conditionMatched_eq in Hq. by apply Hall.
Qed.

(** An explanation accounts for its decision: on an engine that does not
    change meanwhile, the answer is allow exactly when a permit is among the
    policies listed and no forbid is. *)
Theorem explanation_accounts_for_decision (loader : LazyLoader) (env : CallEnv Out) (s s' : GRPCServer DB)
    (ctx : Incoming) (req : CheckAccessRequest) (x : ExplainResponse) (t : TrieRoot)
    (Hex : ExplainDecision loader env s ctx req = (s', Ok x))
    (Hlive : env_canceled env = false /\ env_canceled2 env = false) (Hquiet : forall e, env_between env e = e)
    (Ht : gc_state (gs_engine s) !! cr_TenantId req = Some t) :
  ex_decision x = DecisionAllow <->
  (exists pm, pm ∈ ex_matched x /\ pm_Effect pm = EffectPermit)
  /\ forall pm, pm ∈ ex_matched x -> pm_Effect pm <> EffectForbid.
Proof.
  unfold ExplainDecision in Hex. destruct (validateTenantAndGetClaims _ _ _ _) as [claims|]; [|done].
  destruct (bindTrustedIdentity _ _ _) as [[sub trusted]|]; [|done]. destruct Hlive as [Hl1 Hl2].
  unfold gc_CheckPermission in Hex. rewrite Hl1, Ht, Hquiet in Hex. unfold gc_GetTenantTrie in Hex.
  change (gc_state (touchTenant _ ?e _ _)) with (gc_state e) in Hex. rewrite Ht, Hl2 in Hex.
  injection Hex as _ <-. cbn [ex_decision ex_matched set_policy_revision res_decision].
  unfold CheckPermission, evaluatePermission, matched_metadata, LookupPolicies, normalizeAction.
  rewrite GetInheritedRolesInto_eq by done.
  set (ms := LookupPoliciesInto _ _ _ _ _). set (ec := mkEvalContext _ _ _ _ _).
  rewrite (matched_exists ec ms (fun e => e = EffectPermit)).
  rewrite (matched_forall ec ms (fun e => e <> EffectForbid)), <- decide_loop_allow.
  destruct ms as [|p ps]; [|destruct (decide_loop ec (p :: ps) None) as [[f|] [q|]]]; simpl;
    (split; [try discriminate|by intros (? & [=])]); by eauto.
Qed.
End Approving.
