(* ===== verification/Storage.v ===== *)
(** * The database ([internal/storage/postgres.go], [policy_bundle.go],
    [revocation.go], [erp_policy_fence.go], [erp_revocation_fence.go])

    A database is the rows of its tables that the statements touch, with the
    notifications it committed.  A transaction is a function of the rows; its
    outcome, an argument, says whether it fails, commits, or commits while the
    error of a lost reply is returned.  Time stamps are kept to the
    microsecond, identifiers are compared as texts, and the order of the rows
    of a query is not specified. *)

From S2P Require Import Prelude GoStr GoCrypto Ast Dag Roles Compiler Engine Canonical Intent Delegation Revocation Sync Server.
From stdpp Require Import options.
Local Open Scope Z_scope.

(** ** Tables *)

Inductive PolicyStatus := Draft | Active.
Global Instance PolicyStatus_eq_dec : EqDecision PolicyStatus.
Proof. solve_decision. Defined.

(** A row of [policies], by its identifier. *)
Record DBPolicy := mkDBPolicy {
  dbp_TenantID : string;
  dbp_Effect : string;
  dbp_PolicyText : string;
  dbp_ASTJSON : option string;
  dbp_Version : Z;
  dbp_Status : PolicyStatus
}.

Record DBPolicyUpdateEvent := mkPolicyEvent {
  pe_TenantID : string;
  pe_PolicyID : string;
  pe_Action : string;
  pe_Revision : Z
}.

(** [db_names] are the names of the tenants, [db_tenants] their revisions; the
    two lists are the notifications of the two channels, in commit order. *)
Record Database := mkDatabase {
  db_names : gmap string string;
  db_tenants : gmap string Z;
  db_policies : gmap string DBPolicy;
  db_roles : gmap string (list (string * string));
  db_revocations : gmap (string * string) RevocationRecord;
  db_policy_events : list DBPolicyUpdateEvent;
  db_revocation_events : list RevocationRecord
}.

Definition set_policies (db : Database) (p : gmap string DBPolicy) : Database :=
  mkDatabase (db_names db) (db_tenants db) p (db_roles db) (db_revocations db) (db_policy_events db) (db_revocation_events db).
Definition set_roles (db : Database) (r : gmap string (list (string * string))) : Database :=
  mkDatabase (db_names db) (db_tenants db) (db_policies db) r (db_revocations db) (db_policy_events db) (db_revocation_events db).
Definition set_revocations (db : Database) (r : gmap (string * string) RevocationRecord) : Database :=
  mkDatabase (db_names db) (db_tenants db) (db_policies db) (db_roles db) r (db_policy_events db) (db_revocation_events db).
Definition advance (db : Database) (tenantID : string) (revision : Z) (e : DBPolicyUpdateEvent) : Database :=
  mkDatabase (db_names db) (<[tenantID := revision]> (db_tenants db)) (db_policies db) (db_roles db) (db_revocations db)
    (db_policy_events db ++ [e]) (db_revocation_events db).
Definition notify_revocation (db : Database) (r : RevocationRecord) : Database :=
  mkDatabase (db_names db) (db_tenants db) (db_policies db) (db_roles db) (db_revocations db) (db_policy_events db)
    (db_revocation_events db ++ [r]).

Inductive StorageError :=
| DatabaseError | ErrPolicyNotFound | TenantNotFound | BadRoles (e : RoleError)
| PublicationPending | PublicationFenced (e : StorageError) | OwnershipLost | ErpIncomplete.

(** ** Transactions *)

Inductive TxOutcome := TxFailed | TxCommitted | TxLost.

(** [Begin], the statements and [Commit]: an error rolls everything back. *)
Definition transaction {D A : Type} (o : TxOutcome) (db : D) (body : result StorageError (D * A)) :
    D * result StorageError A :=
  match o with
  | TxFailed => (db, Err DatabaseError)
  | TxCommitted => match body with Ok (db', a) => (db', Ok a) | Err e => (db, Err e) end
  | TxLost => match body with Ok (db', _) => (db', Err DatabaseError) | Err e => (db, Err e) end
  end.

(** ** Policies *)

Definition max_int32 : Z := 2 ^ 31 - 1.

(** The tenant of this name; [id] is the identifier the database generates for
    a new one, whose revision starts at one. *)
Definition CreateTenant (o : TxOutcome) (id : string) (db : Database) (name : string) :
    Database * result StorageError string :=
  transaction o db
    (match db_names db !! name with
     | Some existing => Ok (db, existing)
     | None =>
         guard? bool_decide (is_Some (db_tenants db !! id)) else DatabaseError;
         Ok (mkDatabase (<[name := id]> (db_names db)) (<[id := 1]> (db_tenants db)) (db_policies db) (db_roles db)
               (db_revocations db) (db_policy_events db) (db_revocation_events db), id)
     end).

(** A new row; [id] is the identifier the database generates. *)
Definition CreatePolicy (o : TxOutcome) (id : string) (db : Database) (tenantID effect policyText : string) :
    Database * result StorageError string :=
  transaction o db
    (guard? negb (bool_decide (is_Some (db_tenants db !! tenantID))) || bool_decide (is_Some (db_policies db !! id))
       else DatabaseError;
     Ok (set_policies db (<[id := mkDBPolicy tenantID effect policyText None 1 Draft]> (db_policies db)), id)).

(** The revision column is a 64-bit integer; an overflow is an error. *)
Definition incrementTenantRevisionAndNotify (db : Database) (tenantID policyID action : string) :
    result StorageError (Database * Z) :=
  match db_tenants db !! tenantID with
  | None => Err TenantNotFound
  | Some current =>
      guard? max_int64 <=? current else DatabaseError;
      let revision := current + 1 in
      Ok (advance db tenantID revision (mkPolicyEvent tenantID policyID action revision), revision)
  end.

(** The row of a policy of this tenant. *)
Definition find_policy (db : Database) (tenantID policyID : string) : result StorageError DBPolicy :=
  match db_policies db !! policyID with
  | None => Err ErrPolicyNotFound
  | Some p => guard? negb (bool_decide (dbp_TenantID p = tenantID)) else ErrPolicyNotFound; Ok p
  end.

Definition updatePolicy (o : TxOutcome) (db : Database) (tenantID policyID policyText : string) :
    Database * result StorageError unit :=
  transaction o db
    (let? p := find_policy db tenantID policyID in
     let db1 := set_policies db (<[policyID := mkDBPolicy tenantID (dbp_Effect p) policyText None (dbp_Version p) Draft]>
                                   (db_policies db)) in
     if bool_decide (dbp_Status p = Active) then
       let? (db2, _) := incrementTenantRevisionAndNotify db1 tenantID policyID "UPDATE" in Ok (db2, tt)
     else Ok (db1, tt)).

Definition publishPolicy (o : TxOutcome) (db : Database) (tenantID policyID astJSON : string) :
    Database * result StorageError Z :=
  transaction o db
    (let? p := find_policy db tenantID policyID in
     guard? max_int32 <=? dbp_Version p else DatabaseError;
     let version := dbp_Version p + 1 in
     let db1 := set_policies db (<[policyID := mkDBPolicy tenantID (dbp_Effect p) (dbp_PolicyText p) (Some astJSON)
                                                 version Active]> (db_policies db)) in
     let? (db2, _) := incrementTenantRevisionAndNotify db1 tenantID policyID "UPDATE" in
     Ok (db2, version)).

Definition GetPolicy (ok : bool) (db : Database) (tenantID policyID : string) : result StorageError DBPolicy :=
  guard? negb ok else DatabaseError; find_policy db tenantID policyID.

Definition deletePolicy (o : TxOutcome) (db : Database) (tenantID policyID : string) :
    Database * result StorageError unit :=
  transaction o db
    (let? _ := find_policy db tenantID policyID in
     let db1 := set_policies db (delete policyID (db_policies db)) in
     let? (db2, _) := incrementTenantRevisionAndNotify db1 tenantID policyID "DELETE" in Ok (db2, tt)).

Definition GetTenantRevision (ok : bool) (db : Database) (tenantID : string) : result StorageError Z :=
  guard? negb ok else DatabaseError;
  match db_tenants db !! tenantID with
  | None => Err TenantNotFound
  | Some revision => Ok revision
  end.

(** The inserts fail on an edge that is there twice; the validation of the
    caller is repeated. *)
Definition replaceRoleInheritances `{RangeOrder} (seed : nat) (o : TxOutcome) (db : Database) (tenantID : string)
    (inheritances : list (string * string)) : Database * result StorageError unit :=
  match validateRoleInheritances seed inheritances with
  | Err e => (db, Err (BadRoles e))
  | Ok _ =>
      transaction o db
        (guard? negb (bool_decide (NoDup inheritances)) else DatabaseError;
         let db1 := set_roles db (<[tenantID := inheritances]> (db_roles db)) in
         let? (db2, _) := incrementTenantRevisionAndNotify db1 tenantID "role-inheritance" "ROLE_UPDATE" in
         Ok (db2, tt))
  end.

(** ** Reading *)

(** The order of the rows of a query. *)
Class RowOrder := {
  row_order : forall {A : Type}, nat -> list A -> list A;
  row_order_perm : forall (A : Type) seed (l : list A), row_order seed l ≡ₚ l
}.

Definition is_active (tenantID : string) (p : DBPolicy) : bool :=
  bool_decide (dbp_TenantID p = tenantID) && bool_decide (dbp_Status p = Active).

(** The rows [status = 'ACTIVE'] of a tenant, with their identifiers. *)
Definition active_policies (db : Database) (tenantID : string) : gmap string DBPolicy :=
  filter (fun kp => is_active tenantID kp.2 = true) (db_policies db).
Definition tenant_roles (db : Database) (tenantID : string) : list (string * string) :=
  default [] (db_roles db !! tenantID).

Section Reading.
Context `{RowOrder}.

(** The rows of the policy query; the roles are ordered by the collation of the
    database, which is not modelled either. *)
Definition select_active (seed : nat) (db : Database) (tenantID : string) : list (string * DBPolicy) :=
  row_order seed (map_to_list (active_policies db tenantID)).

(** [ReadCut n] is a connection lost after [n] rows: [rows.Next] then stops, and
    only [rows.Err], which this function does not call, tells. *)
Inductive ReadOutcome := ReadFailed | ReadCut (n : nat) | ReadAll.
Definition GetActivePolicies (seed : nat) (o : ReadOutcome) (db : Database) (tenantID : string) :
    result StorageError (list (string * DBPolicy)) :=
  match o with
  | ReadFailed => Err DatabaseError
  | ReadCut n => Ok (take n (select_active seed db tenantID))
  | ReadAll => Ok (select_active seed db tenantID)
  end.

(** One repeatable-read snapshot: all three queries see the same rows. *)
Definition GetTenantPolicyBundle (seed : nat) (ok : bool) (db : Database) (tenantID : string) :
    result StorageError TenantPolicyBundle :=
  guard? negb ok else DatabaseError;
  let policies := select_active seed db tenantID in
  match db_tenants db !! tenantID with
  | None => Err TenantNotFound
  | Some revision =>
      Ok (mkPolicyBundle ((fun kp => mkPolicySource kp.1 (dbp_PolicyText kp.2)) <$> policies)
            (row_order seed (tenant_roles db tenantID)) revision)
  end.
End Reading.

(** ** Revocations *)

(** PostgreSQL keeps a time to the microsecond. *)
Definition pg_time (t : Z) : Z := t / 1000 * 1000.

(** The row after the upsert; a conflicting row has the key of the new one. *)
Definition merge_row (existing : option RevocationRecord) (r : RevocationRecord) : RevocationRecord :=
  let at_ := pg_time (rr_RevokedAt r) in
  let expires := pg_time (rr_ExpiresAt r) in
  match existing with
  | None => mkRevRecord (rr_TenantID r) (rr_GrantID r) (rr_RevokedBy r) at_ expires
  | Some row =>
      mkRevRecord (rr_TenantID r) (rr_GrantID r) (rr_RevokedBy r)
        (Z.min (rr_RevokedAt row) at_) (Z.max (rr_ExpiresAt row) expires)
  end.

Definition PersistRevocation (o : TxOutcome) (db : Database) (record : RevocationRecord) :
    Database * result StorageError RevocationRecord :=
  transaction o db
    (let key := (rr_TenantID record, rr_GrantID record) in
     let persisted := merge_row (db_revocations db !! key) record in
     guard? negb (bool_decide (is_Some (db_tenants db !! rr_TenantID record)))
            || (rr_ExpiresAt persisted <=? rr_RevokedAt persisted) else DatabaseError;
     Ok (notify_revocation (set_revocations db (<[key := persisted]> (db_revocations db))) persisted, persisted)).

(** The snapshot of [WatchRevocations]: the rows in force. *)
Definition watch_snapshot `{RowOrder} (seed : nat) (now : Z) (db : Database) : list RevocationRecord :=
  row_order seed (base.filter (fun r => now < rr_ExpiresAt r) (map_to_list (db_revocations db)).*2).
(** What the listener receives afterwards: the notifications committed after [LISTEN]. *)
Definition watch_events (listened : Database) (db : Database) : list RevocationRecord :=
  drop (length (db_revocation_events listened)) (db_revocation_events db).

(** ** The fences in the ERP database *)

Record FenceRow := mkFenceRow {
  fence_revision : Z;
  fence_ready : bool;
  fence_publication : option string
}.
Global Instance FenceRow_eq_dec : EqDecision FenceRow.
Proof. solve_decision. Defined.

(** [erp_grants] are the tombstones of [pdp_delegation_fence_v1]. *)
Record ErpDatabase := mkErp {
  erp_scope : string;
  erp_policies : gmap string FenceRow;
  erp_grants : gmap (string * string) bool
}.
Definition set_fences (e : ErpDatabase) (f : gmap string FenceRow) : ErpDatabase :=
  mkErp (erp_scope e) f (erp_grants e).
Definition set_grants (e : ErpDatabase) (g : gmap (string * string) bool) : ErpDatabase :=
  mkErp (erp_scope e) (erp_policies e) g.

(** [INSERT ... ON CONFLICT DO NOTHING]. *)
Definition insert_fence (e : ErpDatabase) (tenant : string) (revision : Z) : ErpDatabase :=
  match erp_policies e !! tenant with
  | Some _ => e
  | None => set_fences e (<[tenant := mkFenceRow revision true None]> (erp_policies e))
  end.

Definition EnsureERPPolicyRevision (o : TxOutcome) (e : ErpDatabase) (tenant : string) (revision : Z) :
    ErpDatabase * result StorageError unit :=
  transaction o e (Ok (insert_fence e tenant revision, tt)).

(** The transaction in front of a mutation. *)
Definition fence_begin (o : TxOutcome) (e : ErpDatabase) (tenant token : string) : ErpDatabase * result StorageError unit :=
  transaction o e
    (let e1 := insert_fence e tenant 0 in
     match erp_policies e1 !! tenant with
     | Some row =>
         guard? negb (fence_ready row) else PublicationPending;
         Ok (set_fences e1 (<[tenant := mkFenceRow (fence_revision row) false (Some token)]> (erp_policies e1)), tt)
     | None => Err PublicationPending
     end).

(** The update after it. *)
Definition fence_end (o : TxOutcome) (e : ErpDatabase) (tenant token : string) (revision : Z) :
    ErpDatabase * result StorageError unit :=
  transaction o e
    (match erp_policies e !! tenant with
     | Some row =>
         guard? negb (bool_decide (fence_publication row = Some token)) || fence_ready row else OwnershipLost;
         Ok (set_fences e (<[tenant := mkFenceRow revision true None]> (erp_policies e)), tt)
     | None => Err OwnershipLost
     end).

(** [Storage] with its optional fence. *)
Record Stores := mkStores { st_db : Database; st_erp : option ErpDatabase }.

Record FenceOutcomes := mkFenceOutcomes { fo_begin : TxOutcome; fo_read : bool; fo_end : TxOutcome }.

Definition fencedPolicyMutation {A} (token : string) (fo : FenceOutcomes) (st : Stores) (tenant : string)
    (mutate : Database -> Database * result StorageError A) : Stores * result StorageError A :=
  match st_erp st with
  | None => let '(db, r) := mutate (st_db st) in (mkStores db None, r)
  | Some e =>
      match fence_begin (fo_begin fo) e tenant token with
      | (e1, Err err) => (mkStores (st_db st) (Some e1), Err err)
      | (e1, Ok _) =>
          match mutate (st_db st) with
          | (db, Err err) => (mkStores db (Some e1), Err (PublicationFenced err))
          | (db, Ok a) =>
              match GetTenantRevision (fo_read fo) db tenant with
              | Err err => (mkStores db (Some e1), Err err)
              | Ok revision =>
                  let '(e2, r) := fence_end (fo_end fo) e1 tenant token revision in
                  (mkStores db (Some e2), match r with Ok _ => Ok a | Err err => Err err end)
              end
          end
      end
  end.

Definition UpdatePolicy (token : string) (fo : FenceOutcomes) (o : TxOutcome) (st : Stores)
    (tenantID policyID policyText : string) : Stores * result StorageError unit :=
  fencedPolicyMutation token fo st tenantID (fun db => updatePolicy o db tenantID policyID policyText).
Definition PublishPolicy (token : string) (fo : FenceOutcomes) (o : TxOutcome) (st : Stores)
    (tenantID policyID astJSON : string) : Stores * result StorageError Z :=
  fencedPolicyMutation token fo st tenantID (fun db => publishPolicy o db tenantID policyID astJSON).
Definition DeletePolicy (token : string) (fo : FenceOutcomes) (o : TxOutcome) (st : Stores)
    (tenantID policyID : string) : Stores * result StorageError unit :=
  fencedPolicyMutation token fo st tenantID (fun db => deletePolicy o db tenantID policyID).
Definition ReplaceRoleInheritances `{RangeOrder} (seed : nat) (token : string) (fo : FenceOutcomes) (o : TxOutcome)
    (st : Stores) (tenantID : string) (inheritances : list (string * string)) : Stores * result StorageError unit :=
  match validateRoleInheritances seed inheritances with
  | Err e => (st, Err (BadRoles e))
  | Ok _ => fencedPolicyMutation token fo st tenantID (fun db => replaceRoleInheritances seed o db tenantID inheritances)
  end.

(** ** The store of revocations of the server *)

(** [ERPRevocationStore.PersistRevocation]: the tombstone, then the record. *)
Definition erp_PersistRevocation (oe o : TxOutcome) (e : ErpDatabase) (db : Database) (record : RevocationRecord) :
    ErpDatabase * Database * result StorageError RevocationRecord :=
  if bool_decide (rr_TenantID record = ""%string) || bool_decide (rr_GrantID record = ""%string)
  then (e, db, Err ErpIncomplete)
  else match transaction oe e (Ok (set_grants e (<[(rr_TenantID record, rr_GrantID record) := true]> (erp_grants e)), tt)) with
       | (e1, Err err) => (e1, db, Err err)
       | (e1, Ok _) => let '(db', r) := PersistRevocation o db record in (e1, db', r)
       end.

(** The outcomes of the ERP and the PDP transaction. *)
Global Instance storage_revocations : RevocationStore Stores (TxOutcome * TxOutcome) := {
  store_persist o st record :=
    match st_erp st with
    | None => let '(db, r) := PersistRevocation o.2 (st_db st) record in (mkStores db None, to_option r)
    | Some e => let '(e', db, r) := erp_PersistRevocation o.1 o.2 e (st_db st) record in
                (mkStores db (Some e'), to_option r)
    end;
  store_scope st := erp_scope <$> st_erp st;
  store_ensure o st tenant revision :=
    match st_erp st with
    | None => (st, false)
    | Some e => let '(e', r) := EnsureERPPolicyRevision o.1 e tenant revision in
                (mkStores (st_db st) (Some e'), is_ok r)
    end
}.

(** ** Opening the database *)

(** An absolute directory by its components, the deepest first. *)
Abbreviation Dir := (list string).

Inductive OpenError := BadConnectionString | PoolNotCreated | NoMigrationsDir | BadMigrationSource | MigrationsFailed.
Inductive MigrateUp := UpApplied | UpNoChange | UpFailed.

(** What the pool, the file system and the migration tool answer. *)
Record OpenWorld := mkOpenWorld {
  ow_config : bool;
  ow_pool : bool;
  ow_cwd : option Dir;
  ow_is_dir : Dir -> bool;
  ow_source : Dir -> bool;
  ow_up : MigrateUp
}.

Definition migrations_of (dir : Dir) : Dir := "migrations"%string :: "db"%string :: dir.
(** The loop over the directory and its ancestors; the parent of the root is the root. *)
Fixpoint locate (is_dir : Dir -> bool) (left : nat) (dir : Dir) : option Dir :=
  match left with
  | O => None
  | S left' =>
      if is_dir (migrations_of dir) then Some (migrations_of dir)
      else match dir with [] => None | _ :: parent => locate is_dir left' parent end
  end.
Definition locateMigrationsDir (w : OpenWorld) : result OpenError Dir :=
  match ow_cwd w ≫= locate (ow_is_dir w) 5 with Some dir => Ok dir | None => Err NoMigrationsDir end.

Definition runMigrations (w : OpenWorld) : result OpenError unit :=
  let? dir := locateMigrationsDir w in
  guard? negb (ow_source w dir) else BadMigrationSource;
  match ow_up w with UpFailed => Err MigrationsFailed | _ => Ok tt end.

(** The error, and whether the pool is left open. *)
Definition NewStorage (w : OpenWorld) : bool * result OpenError unit :=
  if negb (ow_config w) then (false, Err BadConnectionString)
  else if negb (ow_pool w) then (false, Err PoolNotCreated)
  else match runMigrations w with
       | Err e => (false, Err e)
       | Ok _ => (true, Ok tt)
       end.
