(* ===== verification/StorageFacts.v ===== *)
(** * Theorems about the database

    The revision of a tenant moves with its active policies and roles, every
    change is announced once, revocations are never shortened nor lost between
    a snapshot and its notifications, and the fence of a tenant is ready only
    at the revision its writers published, save for the row that a decision on
    an old revision creates. *)

From S2P Require Import Prelude GoStr GoCrypto Ast Dag Roles Compiler Engine Canonical Intent.
From S2P Require Import Delegation Revocation Sync Server Storage.
From stdpp Require Import relations options.
Local Open Scope Z_scope.

(** ** Transactions *)

Lemma transaction_cases {D A} o (db db' : D) (body : result StorageError (D * A)) r :
  transaction o db body = (db', r) ->
  db' = db \/ exists a, body = Ok (db', a).
Proof.
  destruct o, body as [[d a]|e]; cbn; intros [= <- _]; auto; right; by exists a.
Qed.

Lemma transaction_ok {D A} o (db db' : D) (body : result StorageError (D * A)) a :
  transaction o db body = (db', Ok a) -> body = Ok (db', a).
Proof. destruct o, body as [[d a']|e]; cbn; intros [=]; by subst. Qed.

(** ** Revisions *)

Definition tenant_events (t : string) (es : list DBPolicyUpdateEvent) : list DBPolicyUpdateEvent :=
  base.filter (fun e => pe_TenantID e = t) es.

(** What happened to a tenant between two states of the database. *)
Definition tracks (t : string) (db db' : Database) : Prop :=
  forall rev, db_tenants db !! t = Some rev ->
  exists rev' es, db_tenants db' !! t = Some rev' /\ rev <= rev'
    /\ (rev = rev' -> active_policies db' t = active_policies db t /\ tenant_roles db' t = tenant_roles db t)
    /\ db_policy_events db' = db_policy_events db ++ es
    /\ pe_Revision <$> tenant_events t es = seqZ (rev + 1) (rev' - rev).

Lemma tracks_refl t db : tracks t db db.
Proof.
  intros rev Hr. exists rev, []. split_and!; [done|lia|done|by rewrite app_nil_r|].
  by replace (rev - rev) with 0 by lia.
Qed.

Lemma tracks_trans t a b c : tracks t a b -> tracks t b c -> tracks t a c.
Proof.
  intros Hab Hbc rev Hr. destruct (Hab rev Hr) as (r1 & e1 & Hr1 & Hle1 & Heq1 & He1 & Hs1).
  destruct (Hbc r1 Hr1) as (r2 & e2 & Hr2 & Hle2 & Heq2 & He2 & Hs2).
  exists r2, (e1 ++ e2). split_and!; [done|lia| |by rewrite He2, He1, app_assoc|].
  - intros ->. assert (r1 = r2) as -> by lia.
    destruct (Heq1 eq_refl) as [E1 E2], (Heq2 eq_refl) as [F1 F2]. split; congruence.
  - unfold tenant_events in *. rewrite filter_app, fmap_app, Hs1, Hs2.
    replace (r2 - rev) with ((r1 - rev) + (r2 - r1)) by lia. rewrite seqZ_app by lia. by do 2 f_equal; lia.
Qed.

Lemma active_insert_inactive db id p t :
  is_active t p = false -> (forall old, db_policies db !! id = Some old -> is_active t old = false) ->
  active_policies (set_policies db (<[id := p]> (db_policies db))) t = active_policies db t.
Proof.
  intros Hp Hold. unfold active_policies. cbn [set_policies db_policies].
  apply map_filter_insert_not'; cbn; [by rewrite Hp|]. intros y Hy. by rewrite (Hold y Hy).
Qed.

Lemma active_delete_inactive db id t :
  (forall old, db_policies db !! id = Some old -> is_active t old = false) ->
  active_policies (set_policies db (delete id (db_policies db))) t = active_policies db t.
Proof.
  intros Hold. unfold active_policies. cbn [set_policies db_policies].
  apply map_filter_delete_not. intros y Hy. cbn. by rewrite (Hold y Hy).
Qed.

Lemma is_active_other t p : dbp_TenantID p <> t -> is_active t p = false.
Proof. intros Hne. unfold is_active. by rewrite bool_decide_false. Qed.

(** Rows changed for one tenant, and its revision advanced. *)
Lemma increment_ok db t pol act db' rev : incrementTenantRevisionAndNotify db t pol act = Ok (db', rev) ->
  exists cur, db_tenants db !! t = Some cur /\ rev = cur + 1
    /\ db' = advance db t rev (mkPolicyEvent t pol act rev).
Proof.
  unfold incrementTenantRevisionAndNotify. intros Hi. destruct (db_tenants db !! t) as [cur|]; [|done].
  destruct (max_int64 <=? cur); [done|]. injection Hi as <- <-. by exists cur.
Qed.

Lemma advance_tracks t db db1 db' owner pol act rev :
  db_tenants db1 = db_tenants db -> db_policy_events db1 = db_policy_events db ->
  (t <> owner -> active_policies db1 t = active_policies db t /\ tenant_roles db1 t = tenant_roles db t) ->
  incrementTenantRevisionAndNotify db1 owner pol act = Ok (db', rev) -> tracks t db db'.
Proof.
  intros Ht He Hother Hi. apply increment_ok in Hi as (cur & Hcur & -> & ->). intros rev Hr.
  rewrite Ht in Hcur. cbn [advance db_tenants db_policy_events]. rewrite Ht, He.
  destruct (decide (t = owner)) as [->|Hne].
  - assert (rev = cur) as -> by congruence. exists (cur + 1). eexists. rewrite lookup_insert_eq.
    split_and!; [done|lia|lia|done|]. unfold tenant_events. rewrite filter_cons_True by done. cbn.
    by replace (cur + 1 - cur) with 1 by lia.
  - exists rev. eexists. rewrite lookup_insert_ne by done. split_and!; [done|lia|intros _; by apply Hother|done|].
    unfold tenant_events. rewrite filter_cons_False by (cbn; congruence). by replace (rev - rev) with 0 by lia.
Qed.

Lemma quiet_tracks t db db' :
  db_tenants db' = db_tenants db -> db_policy_events db' = db_policy_events db ->
  active_policies db' t = active_policies db t -> tenant_roles db' t = tenant_roles db t -> tracks t db db'.
Proof.
  intros Ht He Ha Hr rev Hrev. exists rev, []. rewrite Ht, He.
  split_and!; [done|lia|done|by rewrite app_nil_r|by replace (rev - rev) with 0 by lia].
Qed.

Lemma find_policy_ok db t id p : find_policy db t id = Ok p ->
  db_policies db !! id = Some p /\ dbp_TenantID p = t.
Proof.
  unfold find_policy. intros Hf. destruct (db_policies db !! id) as [q|]; [|done].
  case_bool_decide; [|done]. by injection Hf as ->.
Qed.

(** ** The operations *)

Section Steps.
Context `{RangeOrder}.

(** One committed or failed call; a caller sees one of them at a time. *)
Inductive storage_step : Database -> Database -> Prop :=
| step_tenant o id db name db' r : CreateTenant o id db name = (db', r) -> storage_step db db'
| step_create o id db t eff text db' r : CreatePolicy o id db t eff text = (db', r) -> storage_step db db'
| step_update o db t id text db' r : updatePolicy o db t id text = (db', r) -> storage_step db db'
| step_publish o db t id ast db' r : publishPolicy o db t id ast = (db', r) -> storage_step db db'
| step_delete o db t id db' r : deletePolicy o db t id = (db', r) -> storage_step db db'
| step_roles seed o db t pairs db' r : replaceRoleInheritances seed o db t pairs = (db', r) -> storage_step db db'
| step_revoke o db rec db' r : PersistRevocation o db rec = (db', r) -> storage_step db db'.

Ltac tx H := apply transaction_cases in H as [->|(? & H)]; [apply tracks_refl|].

Lemma update_tracks t o db owner id text db' r : updatePolicy o db owner id text = (db', r) -> tracks t db db'.
Proof.
  unfold updatePolicy. intros Hu. tx Hu. apply rbind_ok in Hu as (p & Hp & Hu).
  apply find_policy_ok in Hp as [Hp Hown]. case_bool_decide as Hst.
  - apply rbind_ok in Hu as ([db2 rev] & Hi & Hu). apply Ok_inj in Hu as [= <- _].
    eapply advance_tracks; [| | |exact Hi]; [done..|]. intros Hne. split; [|done].
    apply active_insert_inactive; [by apply is_active_other; cbn; congruence|].
    intros old Hold. apply is_active_other. congruence.
  - apply Ok_inj in Hu as [= <- _]. apply quiet_tracks; [done|done| |done].
    apply active_insert_inactive; [unfold is_active; cbn; by rewrite andb_false_r|].
    intros old Hold. unfold is_active. assert (old = p) as -> by congruence.
    by rewrite (bool_decide_false (dbp_Status p = Active)), andb_false_r.
Qed.

Lemma publish_tracks t o db owner id ast db' r : publishPolicy o db owner id ast = (db', r) -> tracks t db db'.
Proof.
  unfold publishPolicy. intros Hu. tx Hu. apply rbind_ok in Hu as (p & Hp & Hu).
  apply find_policy_ok in Hp as [Hp Hown]. destruct (max_int32 <=? dbp_Version p); [done|].
  apply rbind_ok in Hu as ([db2 rev] & Hi & Hu). apply Ok_inj in Hu as [= <- _].
  eapply advance_tracks; [| | |exact Hi]; [done..|]. intros Hne. split; [|done].
  apply active_insert_inactive; [by apply is_active_other; cbn; congruence|].
  intros old Hold. apply is_active_other. congruence.
Qed.

Lemma delete_tracks t o db owner id db' r : deletePolicy o db owner id = (db', r) -> tracks t db db'.
Proof.
  unfold deletePolicy. intros Hu. tx Hu. apply rbind_ok in Hu as (p & Hp & Hu).
  apply find_policy_ok in Hp as [Hp Hown].
  apply rbind_ok in Hu as ([db2 rev] & Hi & Hu). apply Ok_inj in Hu as [= <- _].
  eapply advance_tracks; [| | |exact Hi]; [done..|]. intros Hne. split; [|done].
  apply active_delete_inactive. intros old Hold. apply is_active_other. congruence.
Qed.

Lemma roles_tracks t seed o db owner pairs db' r :
  replaceRoleInheritances seed o db owner pairs = (db', r) -> tracks t db db'.
Proof.
  unfold replaceRoleInheritances. intros Hu. destruct (validateRoleInheritances seed pairs); [|injection Hu as <- _; apply tracks_refl].
  tx Hu. destruct (negb _); [done|]. apply rbind_ok in Hu as ([db2 rev] & Hi & Hu). apply Ok_inj in Hu as [= <- _].
  eapply advance_tracks; [| | |exact Hi]; [done..|]. intros Hne. split; [done|].
  unfold tenant_roles. cbn [set_roles db_roles]. by rewrite lookup_insert_ne.
Qed.

Lemma step_tracks t db db' : storage_step db db' -> tracks t db db'.
Proof.
  intros Hstep. destruct Hstep as [o id db name db' r Hc|o id db own eff text db' r Hc|o db own id text db' r Hc
    |o db own id ast db' r Hc|o db own id db' r Hc|seed o db own pairs db' r Hc|o db rec db' r Hc].
  - unfold CreateTenant in Hc. tx Hc. destruct (db_names db !! name); [apply Ok_inj in Hc as [= <- _]; apply tracks_refl|].
    case_bool_decide as Hid; [done|]. apply Ok_inj in Hc as [= <- _]. intros rev Hr. exists rev, [].
    cbn [db_tenants db_policy_events].
    rewrite lookup_insert_ne by (intros ->; apply Hid; by rewrite Hr).
    split_and!; [done|lia|done|by rewrite app_nil_r|by replace (rev - rev) with 0 by lia].
  - unfold CreatePolicy in Hc. tx Hc. destruct (_ || _) eqn:E; [done|]. bool_to_prop. apply Ok_inj in Hc as [= <- _].
    apply quiet_tracks; [done|done| |done]. apply active_insert_inactive; [unfold is_active; cbn; by rewrite andb_false_r|].
    intros old Hold. match goal with Hn : ~ is_Some (db_policies _ !! _) |- _ => destruct Hn; by rewrite Hold end.
  - by eapply update_tracks.
  - by eapply publish_tracks.
  - by eapply delete_tracks.
  - by eapply roles_tracks.
  - unfold PersistRevocation in Hc. tx Hc. destruct (_ || _); [done|]. apply Ok_inj in Hc as [= <- _]. by apply quiet_tracks.
Qed.

(** C8: the revision of a tenant identifies what is served for it: whatever calls
    are made on the database, and whether they fail, commit or lose their
    reply, the revision never decreases, while it stays the active policies
    and the roles stay, and each step of it is announced exactly once, in
    order, under the new revision. *)
Theorem revision_identifies_bundle (t : string) (db db' : Database) (rev : Z)
    (Hreach : rtc storage_step db db') (Hrev : db_tenants db !! t = Some rev) :
  exists rev' es, db_tenants db' !! t = Some rev' /\ rev <= rev'
    /\ (rev = rev' -> active_policies db' t = active_policies db t /\ tenant_roles db' t = tenant_roles db t)
    /\ db_policy_events db' = db_policy_events db ++ es
    /\ pe_Revision <$> tenant_events t es = seqZ (rev + 1) (rev' - rev).
Proof.
  assert (tracks t db db') as Ht; [|by apply Ht].
  clear Hrev. induction Hreach as [|x y z Hs _ IH]; [apply tracks_refl|].
  eapply tracks_trans; [by apply step_tracks|exact IH].
Qed.
End Steps.

(** ** What is served after a publication *)

Lemma publishPolicy_ok o db t id ast db' v : publishPolicy o db t id ast = (db', Ok v) ->
  exists p rev, find_policy db t id = Ok p /\ db_tenants db !! t = Some rev /\ v = dbp_Version p + 1
    /\ db' = advance (set_policies db (<[id := mkDBPolicy t (dbp_Effect p) (dbp_PolicyText p) (Some ast) v Active]> (db_policies db)))
               t (rev + 1) (mkPolicyEvent t id "UPDATE" (rev + 1)).
Proof.
  unfold publishPolicy. intros Hpub. apply transaction_ok, rbind_ok in Hpub as (p & Hp & Hpub).
  destruct (max_int32 <=? dbp_Version p); [done|].
  apply rbind_ok in Hpub as ([db2 r2] & Hi & Hpub). apply Ok_inj in Hpub as [= -> <-].
  apply increment_ok in Hi as (cur & Hcur & -> & ->). by exists p, cur.
Qed.

(** The active rows are the sources of the bundle. *)
Lemma bundle_lists `{RowOrder} seed db t b id row : GetTenantPolicyBundle seed true db t = Ok b ->
  active_policies db t !! id = Some row -> mkPolicySource id (dbp_PolicyText row) ∈ pb_policies b.
Proof.
  unfold GetTenantPolicyBundle, select_active. cbn [negb]. intros Hb Hrow.
  destruct (db_tenants db !! t); [|done]. apply Ok_inj in Hb as <-. cbn [pb_policies].
  apply list_elem_of_fmap. exists (id, row). split; [done|]. rewrite row_order_perm. by apply elem_of_map_to_list.
Qed.

Lemma published_active db t id p ast v rev :
  active_policies (advance (set_policies db (<[id := mkDBPolicy t (dbp_Effect p) (dbp_PolicyText p) (Some ast) v Active]>
    (db_policies db))) t (rev + 1) (mkPolicyEvent t id "UPDATE" (rev + 1))) t !! id
  = Some (mkDBPolicy t (dbp_Effect p) (dbp_PolicyText p) (Some ast) v Active).
Proof.
  unfold active_policies. cbn [advance set_policies db_policies]. apply map_lookup_filter_Some.
  rewrite lookup_insert_eq. split; [done|]. unfold is_active. cbn. by rewrite !bool_decide_true.
Qed.

Lemma fenced_ok {A} token fo st t (mutate : Database -> Database * result StorageError A) st' a :
  fencedPolicyMutation token fo st t mutate = (st', Ok a) -> mutate (st_db st) = (st_db st', Ok a).
Proof.
  unfold fencedPolicyMutation. destruct (st_erp st) as [e|].
  - destruct (fence_begin _ _ _ _) as [e1 [[]|]]; [|done]. destruct (mutate (st_db st)) as [db [x|]]; [|done].
    destruct (GetTenantRevision _ _ _); [|done]. destruct (fence_end _ _ _ _ _) as [e2 [[]|]]; [|done]. by intros [= <- <-].
  - destruct (mutate (st_db st)) as [db r]. by intros [= <- ->].
Qed.

Lemma published_source_listed `{RowOrder} seed token fo o st st' t id ast v p b :
  PublishPolicy token fo o st t id ast = (st', Ok v) -> find_policy (st_db st) t id = Ok p ->
  GetTenantPolicyBundle seed true (st_db st') t = Ok b -> mkPolicySource id (dbp_PolicyText p) ∈ pb_policies b.
Proof.
  intros Hp Hf Hb. apply fenced_ok, publishPolicy_ok in Hp as (q & rev & Hq & _ & _ & Hdb).
  rewrite Hf in Hq. apply Ok_inj in Hq as <-. rewrite Hdb in Hb. exact (bundle_lists _ _ _ _ _ _ Hb (published_active (st_db st) t id p ast v rev)).
Qed.

(** A published policy is served: the bundle read after the publication is at
    the next revision and contains its text, and the event a replica receives
    names that revision. *)
Theorem published_policy_served `{RowOrder} (o : TxOutcome) (db db' : Database) (t id ast : string) (version rev : Z)
    (seed : nat) (Hpub : publishPolicy o db t id ast = (db', Ok version)) (Hrev : db_tenants db !! t = Some rev) :
  exists p b, db_policies db !! id = Some p /\ version = dbp_Version p + 1
    /\ GetTenantPolicyBundle seed true db' t = Ok b
    /\ pb_revision b = rev + 1 /\ mkPolicySource id (dbp_PolicyText p) ∈ pb_policies b
    /\ db_policy_events db' = db_policy_events db ++ [mkPolicyEvent t id "UPDATE" (rev + 1)].
Proof.
  apply publishPolicy_ok in Hpub as (p & r & Hf & Hr & -> & ->). rewrite Hrev in Hr. injection Hr as <-.
  apply find_policy_ok in Hf as [Hp _]. set (db2 := advance _ _ _ _).
  assert (exists b, GetTenantPolicyBundle seed true db2 t = Ok b /\ pb_revision b = rev + 1) as (b & Hb & Hbr).
  { unfold GetTenantPolicyBundle, select_active. cbn [negb db2 advance db_tenants]. rewrite lookup_insert_eq. by eexists. }
  exists p, b. split_and!; [done..| |done]. exact (bundle_lists _ _ _ _ _ _ Hb (published_active db t id p ast _ rev)).
Qed.

(** ** Revocations *)

Lemma pg_time_le t : t - 1000 < pg_time t <= t.
Proof. unfold pg_time. pose proof (Z.mod_pos_bound t 1000). pose proof (Z.div_mod t 1000). lia. Qed.

Lemma merge_row_extends existing r : let p := merge_row existing r in
  rr_TenantID p = rr_TenantID r /\ rr_GrantID p = rr_GrantID r
  /\ rr_RevokedAt p <= rr_RevokedAt r /\ rr_ExpiresAt r - 1000 < rr_ExpiresAt p
  /\ (forall row, existing = Some row -> rr_RevokedAt p <= rr_RevokedAt row /\ rr_ExpiresAt row <= rr_ExpiresAt p)
  /\ (rr_ExpiresAt p <= rr_ExpiresAt r \/ exists row, existing = Some row /\ rr_ExpiresAt p = rr_ExpiresAt row).
Proof.
  pose proof (pg_time_le (rr_RevokedAt r)). pose proof (pg_time_le (rr_ExpiresAt r)). cbv zeta.
  destruct existing as [row|]; cbn [merge_row rr_TenantID rr_GrantID rr_RevokedAt rr_ExpiresAt].
  - split_and!; [done|done|lia|lia|intros ? [= <-]; lia|].
    destruct (Z.le_gt_cases (rr_ExpiresAt row) (pg_time (rr_ExpiresAt r))); [left; lia|right; exists row; split; [done|lia]].
  - split_and!; [done|done|lia|lia|done|left; lia].
Qed.

Lemma PersistRevocation_ok o db r db' res : PersistRevocation o db r = (db', res) ->
  (db' = db /\ is_ok res = false)
  \/ exists p, p = merge_row (db_revocations db !! (rr_TenantID r, rr_GrantID r)) r
     /\ db' = notify_revocation (set_revocations db (<[(rr_TenantID r, rr_GrantID r) := p]> (db_revocations db))) p
     /\ (res = Ok p \/ is_ok res = false).
Proof.
  unfold PersistRevocation. destruct (_ || _) eqn:E.
  - destruct o; intros [= <- <-]; by left.
  - destruct o; intros [= <- <-]; [by left|right; eexists; auto..].
Qed.

(** Every expiry is representable. *)
Definition revocations_ok (db : Database) : Prop :=
  map_Forall (fun _ row => is_int64 (rr_ExpiresAt row)) (db_revocations db).

Lemma merge_row_ok existing r : (forall row, existing = Some row -> is_int64 (rr_ExpiresAt row)) ->
  0 <= rr_ExpiresAt r <= max_int64 -> is_int64 (rr_ExpiresAt (merge_row existing r)).
Proof.
  intros Hrow Hr. destruct (merge_row_extends existing r) as (_ & _ & _ & Hlo & _ & Hhi).
  destruct Hhi as [Hhi|(row & Hex & ->)]; [|by apply Hrow].
  unfold is_int64, min_int64, max_int64 in *. lia.
Qed.

Lemma storage_persist_cases o st r st' p :
  store_persist o st r = (st', Some p) ->
  exists o', PersistRevocation o' (st_db st) r = (st_db st', Ok p).
Proof.
  cbn. intros Hs. destruct (st_erp st) as [e|].
  - unfold erp_PersistRevocation in Hs. destruct (_ || _); [done|].
    destruct (transaction o.1 e _) as [e1 [[]|]]; [|done].
    destruct (PersistRevocation o.2 (st_db st) r) as [db [q|]] eqn:E; [|done].
    injection Hs as <- <-. by exists o.2.
  - destruct (PersistRevocation o.2 (st_db st) r) as [db [q|]] eqn:E; [|done].
    injection Hs as <- <-. by exists o.2.
Qed.

(** The database is a store of revocations as the server expects it. *)
Global Instance storage_revocation_laws : RevocationStoreLaws Stores (TxOutcome * TxOutcome).
Proof.
  refine {| store_ok := fun st => revocations_ok (st_db st) |}.
  - intros o st r st' p Hs. apply storage_persist_cases in Hs as [o' Hs].
    apply PersistRevocation_ok in Hs as [[_ Hn]|(q & -> & _ & [Hp|Hn])]; [done| |done].
    apply Ok_inj in Hp as ->. destruct (merge_row_extends (db_revocations (st_db st) !! (rr_TenantID r, rr_GrantID r)) r)
      as (? & ? & ? & ? & _). done.
  - intros o st r st' p Hok Hr Hs. apply storage_persist_cases in Hs as [o' Hs].
    apply PersistRevocation_ok in Hs as [[_ Hn]|(q & Hq & Hdb & [Hp|Hn])]; [done| |done].
    apply Ok_inj in Hp as ->. assert (is_int64 (rr_ExpiresAt q)) as Hi.
    { rewrite Hq. apply merge_row_ok; [|done]. intros row Hrow. by apply (Hok _ _ Hrow). }
    split; [|done]. rewrite Hdb. unfold revocations_ok. cbn [notify_revocation set_revocations db_revocations].
    by apply map_Forall_insert_2.
Defined.

(** ** Replicas of the revocations *)

Definition rows_keyed (db : Database) : Prop :=
  map_Forall (fun k row => rr_key row = k) (db_revocations db).

Section Watch.
Context `{RangeOrder}.

(** A step keeps a row or announces the new one, and only appends notifications. *)
Lemma step_revocations db db' : storage_step db db' ->
  exists es, db_revocation_events db' = db_revocation_events db ++ es
    /\ (forall k row, db_revocations db' !! k = Some row -> db_revocations db !! k = Some row \/ row ∈ es)
    /\ (rows_keyed db -> rows_keyed db').
Proof.
  assert (forall db1 db2 : Database, db_revocation_events db2 = db_revocation_events db1 ->
    db_revocations db2 = db_revocations db1 -> exists es, db_revocation_events db2 = db_revocation_events db1 ++ es
    /\ (forall k row, db_revocations db2 !! k = Some row -> db_revocations db1 !! k = Some row \/ row ∈ es)
    /\ (rows_keyed db1 -> rows_keyed db2)) as Hsame.
  { intros db1 db2 He Hr. exists []. unfold rows_keyed. rewrite He, Hr, app_nil_r. auto. }
  assert (forall db0 t pol act db2 rev, incrementTenantRevisionAndNotify db0 t pol act = Ok (db2, rev) ->
    db_revocation_events db2 = db_revocation_events db0 /\ db_revocations db2 = db_revocations db0) as Hinc.
  { intros db0 t pol act db2 rev Hi. by apply increment_ok in Hi as (cur & _ & _ & ->). }
  intros Hstep. destruct Hstep as [o id db name db' r Hc|o id db own eff text db' r Hc|o db own id text db' r Hc
    |o db own id ast db' r Hc|o db own id db' r Hc|seed o db own pairs db' r Hc|o db rec db' r Hc].
  - unfold CreateTenant in Hc. apply transaction_cases in Hc as [->|(? & Hc)]; [by apply Hsame|].
    destruct (db_names db !! name); [by apply Ok_inj in Hc as [= <- _]; apply Hsame|].
    case_bool_decide; [done|]. apply Ok_inj in Hc as [= <- _]. by apply Hsame.
  - unfold CreatePolicy in Hc. apply transaction_cases in Hc as [->|(? & Hc)]; [by apply Hsame|].
    destruct (_ || _); [done|]. apply Ok_inj in Hc as [= <- _]. by apply Hsame.
  - unfold updatePolicy in Hc. apply transaction_cases in Hc as [->|(? & Hc)]; [by apply Hsame|].
    apply rbind_ok in Hc as (p & _ & Hc). case_bool_decide; [|apply Ok_inj in Hc as [= <- _]; by apply Hsame].
    apply rbind_ok in Hc as ([db2 rev] & Hi & Hc). apply Ok_inj in Hc as [= <- _]. apply Hinc in Hi as [? ?]. by apply Hsame.
  - unfold publishPolicy in Hc. apply transaction_cases in Hc as [->|(? & Hc)]; [by apply Hsame|].
    apply rbind_ok in Hc as (p & _ & Hc). destruct (max_int32 <=? _); [done|].
    apply rbind_ok in Hc as ([db2 rev] & Hi & Hc). apply Ok_inj in Hc as [= <- _]. apply Hinc in Hi as [? ?]. by apply Hsame.
  - unfold deletePolicy in Hc. apply transaction_cases in Hc as [->|(? & Hc)]; [by apply Hsame|].
    apply rbind_ok in Hc as (p & _ & Hc).
    apply rbind_ok in Hc as ([db2 rev] & Hi & Hc). apply Ok_inj in Hc as [= <- _]. apply Hinc in Hi as [? ?]. by apply Hsame.
  - unfold replaceRoleInheritances in Hc. destruct (validateRoleInheritances seed pairs); [|injection Hc as <- _; by apply Hsame].
    apply transaction_cases in Hc as [->|(? & Hc)]; [by apply Hsame|]. destruct (negb _); [done|].
    apply rbind_ok in Hc as ([db2 rev] & Hi & Hc). apply Ok_inj in Hc as [= <- _]. apply Hinc in Hi as [? ?]. by apply Hsame.
  - apply PersistRevocation_ok in Hc as [[-> _]|(p & Hp & -> & _)]; [by apply Hsame|]. exists [p].
    cbn [notify_revocation set_revocations db_revocation_events db_revocations]. split; [done|]. split.
    + intros k row Hk. apply lookup_insert_Some in Hk as [[_ <-]|[_ Hk]]; [right; set_solver|by left].
    + intros Hkeyed. unfold rows_keyed. cbn. apply map_Forall_insert_2; [|done].
      destruct (merge_row_extends (db_revocations db !! (rr_TenantID rec, rr_GrantID rec)) rec) as (Et & Eg & _).
      unfold rr_key. by rewrite Hp, Et, Eg.
Qed.

Lemma steps_revocations db db' : rtc storage_step db db' ->
  exists es, db_revocation_events db' = db_revocation_events db ++ es
    /\ (forall k row, db_revocations db' !! k = Some row -> db_revocations db !! k = Some row \/ row ∈ es)
    /\ (rows_keyed db -> rows_keyed db').
Proof.
  induction 1 as [db|a b c Hs _ (es & He & Hr & Hk)].
  - exists []. rewrite app_nil_r. auto.
  - destruct (step_revocations a b Hs) as (es1 & He1 & Hr1 & Hk1). exists (es1 ++ es).
    rewrite He, He1, <- app_assoc. split; [done|]. split; [|auto].
    intros k row Hc. rewrite elem_of_app. destruct (Hr k row Hc) as [Hb|Hin]; [|by right; right].
    destruct (Hr1 k row Hb); auto.
Qed.

(** The events of a replica that listens, reads the snapshot and is notified. *)
Definition watch_history `{RowOrder} (seed : nat) (t0 t1 : Z) (db0 db1 db2 : Database) : list RevEvent :=
  EvWatch :: EvSnapshot t0 (watch_snapshot seed t0 db1) :: (EvNotified t1 <$> watch_events db0 db2).

(** C35: a replica misses no revocation: it starts to listen, later reads the rows
    in force, and applies what it is notified of; however the commits of other
    nodes fall between the three, every row in force is revoked on it. *)
Theorem replica_misses_no_revocation `{RowOrder} (seed : nat) (t0 t1 now : Z) (m : DelegationManager)
    (db0 db1 db2 : Database) (row : RevocationRecord)
    (Hempty : revocationMap m = ∅) (Hkeyed : rows_keyed db0)
    (H01 : rtc storage_step db0 db1) (H12 : rtc storage_step db1 db2)
    (Hevents : Forall (event_ok now m) (watch_history seed t0 t1 db0 db1 db2)) (Hnow : is_int64 now)
    (Hrow : db_revocations db2 !! rr_key row = Some row)
    (Hnames : rr_TenantID row <> ""%string /\ rr_GrantID row <> ""%string /\ rr_RevokedAt row <> zero_time)
    (Hforce : t0 <= now /\ t1 <= now /\ now < rr_ExpiresAt row) :
  (IsRevoked now (rev_run m (watch_history seed t0 t1 db0 db1 db2)) (rr_TenantID row) (rr_GrantID row)).2 = true.
Proof.
  destruct Hnames as (Ht & Hg & Hz), Hforce as (Ht0 & Ht1 & Hx).
  apply revoked_when_delivered; [done..|]. exists row. split; [|done].
  destruct (steps_revocations _ _ H01) as (es1 & He1 & _ & _). destruct (steps_revocations _ _ H12) as (es2 & He2 & Hr2 & _).
  assert (forall at_, at_ <= now -> accepted at_ row = true) as Hacc.
  { intros at_ Hat. unfold accepted. rewrite !bool_decide_false by done. lia. }
  destruct (Hr2 _ _ Hrow) as [Hin|Hin].
  - exists (EvSnapshot t0 (watch_snapshot seed t0 db1)), t0. split; [unfold watch_history; set_solver|].
    split; [|by apply Hacc]. apply (list_elem_of_fmap_2 (fun r => (t0, r))). unfold watch_snapshot.
    rewrite row_order_perm. apply list_elem_of_filter. split; [lia|]. apply list_elem_of_fmap.
    exists (rr_key row, row). split; [done|]. by apply elem_of_map_to_list.
  - exists (EvNotified t1 row), t1. split; [|split; [by apply list_elem_of_singleton|by apply Hacc]].
    unfold watch_history. do 2 (apply elem_of_cons; right). apply list_elem_of_fmap_2. unfold watch_events.
    rewrite He2, He1, <- app_assoc, drop_app_length. set_solver.
Qed.
End Watch.

(** ** The policy fence *)

Section Fence.
Context `{RangeOrder}.

(** A mutation of the policies or roles of a tenant, and whether it returned
    without an error. *)
Inductive mutation (t : string) : Database -> Database -> bool -> Prop :=
| mut_update o db id text db' r : updatePolicy o db t id text = (db', r) -> mutation t db db' (is_ok r)
| mut_publish o db id ast db' r : publishPolicy o db t id ast = (db', r) -> mutation t db db' (is_ok r)
| mut_delete o db id db' r : deletePolicy o db t id = (db', r) -> mutation t db db' (is_ok r)
| mut_roles seed o db pairs db' r : replaceRoleInheritances seed o db t pairs = (db', r) -> mutation t db db' (is_ok r).

Lemma mutation_other t db db' ok t' : mutation t db db' ok -> t' <> t -> db_tenants db' !! t' = db_tenants db !! t'.
Proof.
  assert (forall db0 pol act db2 rev, incrementTenantRevisionAndNotify db0 t pol act = Ok (db2, rev) -> t' <> t ->
    db_tenants db0 !! t' = db_tenants db !! t' -> db_tenants db2 !! t' = db_tenants db !! t') as Hinc.
  { intros db0 pol act db2 rev Hi Hne E. apply increment_ok in Hi as (cur & _ & _ & ->).
    cbn [advance db_tenants]. by rewrite lookup_insert_ne, E. }
  destruct 1 as [o db id text db' r Hc|o db id ast db' r Hc|o db id db' r Hc|seed o db pairs db' r Hc]; intros Hne.
  - unfold updatePolicy in Hc. apply transaction_cases in Hc as [->|(? & Hc)]; [done|].
    apply rbind_ok in Hc as (p & _ & Hc). case_bool_decide; [|by apply Ok_inj in Hc as [= <- _]].
    apply rbind_ok in Hc as ([db2 rev] & Hi & Hc). apply Ok_inj in Hc as [= <- _]. by apply (Hinc _ _ _ _ _ Hi Hne).
  - unfold publishPolicy in Hc. apply transaction_cases in Hc as [->|(? & Hc)]; [done|].
    apply rbind_ok in Hc as (p & _ & Hc). destruct (max_int32 <=? _); [done|].
    apply rbind_ok in Hc as ([db2 rev] & Hi & Hc). apply Ok_inj in Hc as [= <- _]. by apply (Hinc _ _ _ _ _ Hi Hne).
  - unfold deletePolicy in Hc. apply transaction_cases in Hc as [->|(? & Hc)]; [done|].
    apply rbind_ok in Hc as (p & _ & Hc).
    apply rbind_ok in Hc as ([db2 rev] & Hi & Hc). apply Ok_inj in Hc as [= <- _]. by apply (Hinc _ _ _ _ _ Hi Hne).
  - unfold replaceRoleInheritances in Hc. destruct (validateRoleInheritances seed pairs); [|by injection Hc as <- _].
    apply transaction_cases in Hc as [->|(? & Hc)]; [done|]. destruct (negb _); [done|].
    apply rbind_ok in Hc as ([db2 rev] & Hi & Hc). apply Ok_inj in Hc as [= <- _]. by apply (Hinc _ _ _ _ _ Hi Hne).
Qed.

(** A writer that passed [fence_begin]: where it is in [fencedPolicyMutation]. *)
Inductive WriterPhase := WriterFenced | WriterMutated | WriterRead (revision : Z).

(** [fs_boot] keeps, for a row a decision put there and no writer has replaced,
    the revision the decision passed and the revision of the database then. *)
Record FenceSystem := mkFenceSystem {
  fs_db : Database;
  fs_erp : ErpDatabase;
  fs_writers : gmap string (string * WriterPhase);
  fs_boot : gmap string (Z * option Z)
}.

Definition boot_after (db : Database) (e e' : ErpDatabase) (t : string) (revision : Z) (bs : gmap string (Z * option Z)) :
    gmap string (Z * option Z) :=
  match erp_policies e !! t, erp_policies e' !! t with
  | None, Some _ => <[t := (revision, db_tenants db !! t)]> bs
  | _, _ => bs
  end.

(** Every writer of policies and roles goes through the fence; a writer that
    returns an error, or dies, leaves its row as it is.  A decision bootstraps
    an absent row with whatever revision the node answered at: [CheckAccess]
    passes the revision in memory, or zero for a tenant it does not hold. *)
Inductive fence_step : FenceSystem -> FenceSystem -> Prop :=
| fence_enter o db e ws bs token t e' r :
    ws !! token = None -> (forall t' row, erp_policies e !! t' = Some row -> fence_publication row <> Some token) ->
    fence_begin o e t token = (e', r) ->
    fence_step (mkFenceSystem db e ws bs)
      (if is_ok r then mkFenceSystem db e' (<[token := (t, WriterFenced)]> ws) (delete t bs) else mkFenceSystem db e' ws bs)
| fence_mutate db e ws bs token t db' ok :
    ws !! token = Some (t, WriterFenced) -> mutation t db db' ok ->
    fence_step (mkFenceSystem db e ws bs)
      (mkFenceSystem db' e (if ok : bool then <[token := (t, WriterMutated)]> ws else delete token ws) bs)
| fence_read db e ws bs token t revision :
    ws !! token = Some (t, WriterMutated) -> db_tenants db !! t = Some revision ->
    fence_step (mkFenceSystem db e ws bs) (mkFenceSystem db e (<[token := (t, WriterRead revision)]> ws) bs)
| fence_leave o db e ws bs token t revision e' r :
    ws !! token = Some (t, WriterRead revision) -> fence_end o e t token revision = (e', r) ->
    fence_step (mkFenceSystem db e ws bs) (mkFenceSystem db e' (delete token ws) bs)
| fence_crash db e ws bs token : fence_step (mkFenceSystem db e ws bs) (mkFenceSystem db e (delete token ws) bs)
| fence_ensure o db e ws bs t revision e' r :
    EnsureERPPolicyRevision o e t revision = (e', r) ->
    fence_step (mkFenceSystem db e ws bs) (mkFenceSystem db e' ws (boot_after db e e' t revision bs))
| fence_tenant o id db e ws bs name db' r :
    CreateTenant o id db name = (db', r) -> fence_step (mkFenceSystem db e ws bs) (mkFenceSystem db' e ws bs).

(** The row has the revision of the database, or that of a decision that was
    made at another one. *)
Definition row_current (s : FenceSystem) (t : string) (row : FenceRow) : Prop :=
  db_tenants (fs_db s) !! t = Some (fence_revision row)
  \/ exists cur, fs_boot s !! t = Some (fence_revision row, cur) /\ cur <> Some (fence_revision row).

(** A writer in flight holds the row of its tenant, and a ready row is current. *)
Record fence_inv (s : FenceSystem) : Prop := {
  inv_held : forall token t ph, fs_writers s !! token = Some (t, ph) ->
    exists row, erp_policies (fs_erp s) !! t = Some row /\ fence_ready row = false
      /\ fence_publication row = Some token;
  inv_ready : forall t row, erp_policies (fs_erp s) !! t = Some row -> fence_ready row = true -> row_current s t row;
  inv_read : forall token t rev, fs_writers s !! token = Some (t, WriterRead rev) -> db_tenants (fs_db s) !! t = Some rev
}.

(** Two writers in flight never share a tenant. *)
Lemma fence_exclusive s k k' t p p' : fence_inv s ->
  fs_writers s !! k = Some (t, p) -> fs_writers s !! k' = Some (t, p') -> k = k'.
Proof.
  intros Hinv Hk Hk'. destruct (inv_held s Hinv _ _ _ Hk) as (row & Hr & _ & Hp).
  destruct (inv_held s Hinv _ _ _ Hk') as (row' & Hr' & _ & Hp'). congruence.
Qed.

Lemma fence_begin_cases o e t token e' r : fence_begin o e t token = (e', r) ->
  (e' = e /\ is_ok r = false)
  \/ exists rev, erp_policies e' = <[t := mkFenceRow rev false (Some token)]> (erp_policies e)
     /\ (forall row, erp_policies e !! t = Some row -> fence_ready row = true).
Proof.
  unfold fence_begin, insert_fence. intros Hb. destruct (erp_policies e !! t) as [row|] eqn:E.
  - rewrite E in Hb. destruct (fence_ready row) eqn:Er; [|by destruct o; injection Hb as <- <-; left].
    cbn [negb] in Hb. destruct o; injection Hb as <- <-; [by left|right..];
      (eexists; split; [done|]; by intros ? [= <-]).
  - cbn [set_fences erp_policies] in Hb. rewrite lookup_insert_eq in Hb. cbn [fence_ready negb] in Hb.
    destruct o; injection Hb as <- <-; [by left|right..];
      (exists 0; cbn [set_fences erp_policies]; by rewrite insert_insert_eq).
Qed.

Lemma fence_end_cases o e t token rev e' r : fence_end o e t token rev = (e', r) ->
  e' = e \/ erp_policies e' = <[t := mkFenceRow rev true None]> (erp_policies e).
Proof.
  unfold fence_end. intros Hf. destruct (erp_policies e !! t) as [row|]; [|by destruct o; injection Hf as <- _; left].
  destruct (_ || _); destruct o; injection Hf as <- _; auto.
Qed.

Lemma ensure_cases o e t rev e' r : EnsureERPPolicyRevision o e t rev = (e', r) ->
  e' = e \/ (erp_policies e !! t = None /\ erp_policies e' = <[t := mkFenceRow rev true None]> (erp_policies e)).
Proof.
  unfold EnsureERPPolicyRevision, insert_fence. intros Hf.
  destruct (erp_policies e !! t) as [row|] eqn:E; destruct o; injection Hf as <- _; auto.
Qed.

Ltac sys := cbn [fs_db fs_erp fs_writers fs_boot] in *.

Lemma fence_inv_enter o db e ws bs token t e' r : ws !! token = None -> fence_begin o e t token = (e', r) ->
  fence_inv (mkFenceSystem db e ws bs) ->
  fence_inv (if is_ok r then mkFenceSystem db e' (<[token := (t, WriterFenced)]> ws) (delete t bs)
             else mkFenceSystem db e' ws bs).
Proof.
  intros Hfresh Hb [Hh Hr Hd]. sys. apply fence_begin_cases in Hb as [[-> ->]|(rev & Herp & Hold)]; [by split|].
  assert (forall t' row, erp_policies e' !! t' = Some row -> fence_ready row = true ->
    t' <> t /\ erp_policies e !! t' = Some row) as Hrows.
  { intros t' row. rewrite Herp. by intros [[<- <-]|[? Hk]]%lookup_insert_Some. }
  assert (forall k t' ph, ws !! k = Some (t', ph) -> t' <> t) as Hno.
  { intros k t' ph Hk ->. destruct (Hh _ _ _ Hk) as (row & Hrow & Hf & _). by rewrite (Hold row Hrow) in Hf. }
  destruct (is_ok r); split; sys.
  - intros k t' ph [[<- [= <- <-]]|[_ Hk]]%lookup_insert_Some; rewrite Herp.
    + rewrite lookup_insert_eq. by eexists.
    + rewrite lookup_insert_ne by (intros ->; by eapply Hno). by eapply Hh.
  - intros t' row Hk Hready. destruct (Hrows _ _ Hk Hready) as [Hne Hk']. destruct (Hr t' row Hk' Hready) as [Hc|(cur & Hb & Hc)]; [by left|right].
    sys. exists cur. by rewrite lookup_delete_ne.
  - intros k t' rv [[_ [=]]|[_ Hk]]%lookup_insert_Some. by eapply Hd.
  - intros k t' ph Hk. rewrite Herp, lookup_insert_ne by (intros ->; by eapply Hno). by eapply Hh.
  - intros t' row Hk Hready. destruct (Hrows _ _ Hk Hready) as [_ Hk']. exact (Hr t' row Hk' Hready).
  - done.
Qed.

Lemma fence_inv_mutate db e ws bs token t db' (ok : bool) : ws !! token = Some (t, WriterFenced) -> mutation t db db' ok ->
  fence_inv (mkFenceSystem db e ws bs) ->
  fence_inv (mkFenceSystem db' e (if ok then <[token := (t, WriterMutated)]> ws else delete token ws) bs).
Proof.
  intros Hw Hm Hinv. pose proof (fun k k' t0 p p' => fence_exclusive _ k k' t0 p p' Hinv) as Hex.
  destruct Hinv as [Hh Hr Hd]. sys.
  assert (forall k t' ph, (if ok then <[token := (t, WriterMutated)]> ws else delete token ws) !! k = Some (t', ph) ->
    (k = token /\ t' = t /\ ph = WriterMutated) \/ (k <> token /\ ws !! k = Some (t', ph))) as Hws.
  { intros k t' ph Hk. destruct ok.
    - apply lookup_insert_Some in Hk as [[<- [= <- <-]]|[Hne Hk]]; auto.
    - apply lookup_delete_Some in Hk as [Hne Hk]. auto. }
  split; sys.
  - intros k t' ph [(-> & -> & _)|[_ Hk]]%Hws; [by eapply Hh|by eapply Hh].
  - intros t' row Hrow Hready. unfold row_current. sys. rewrite (mutation_other _ _ _ _ _ Hm); [by apply Hr|]. intros ->.
    destruct (Hh _ _ _ Hw) as (row' & Hrow' & Hf & _). congruence.
  - intros k t' rv [(_ & _ & [=])|[Hne Hk]]%Hws. rewrite (mutation_other _ _ _ _ _ Hm); [by eapply Hd|].
    intros ->. apply Hne. by eapply Hex.
Qed.

Lemma fence_inv_shrink db e ws bs token :
  fence_inv (mkFenceSystem db e ws bs) -> fence_inv (mkFenceSystem db e (delete token ws) bs).
Proof.
  intros [Hh Hr Hd]. split; sys; [|done|].
  - intros k t ph [_ Hk]%lookup_delete_Some. by eapply Hh.
  - intros k t rv [_ Hk]%lookup_delete_Some. by eapply Hd.
Qed.

Lemma fence_inv_leave o db e ws bs token t rev e' r : ws !! token = Some (t, WriterRead rev) ->
  fence_end o e t token rev = (e', r) -> fence_inv (mkFenceSystem db e ws bs) ->
  fence_inv (mkFenceSystem db e' (delete token ws) bs).
Proof.
  intros Hw Hf Hinv. apply fence_end_cases in Hf as [->|Herp]; [by apply fence_inv_shrink|].
  pose proof (fun k k' t0 p p' => fence_exclusive _ k k' t0 p p' Hinv) as Hex. destruct Hinv as [Hh Hr Hd]. sys.
  split; sys; rewrite ?Herp.
  - intros k t' ph [Hne Hk]%lookup_delete_Some. rewrite lookup_insert_ne; [by eapply Hh|]. intros ->.
    apply Hne. by eapply Hex.
  - intros t' row [[<- <-]|[_ Hk]]%lookup_insert_Some; [intros _; left; by eapply Hd|by apply Hr].
  - intros k t' rv [_ Hk]%lookup_delete_Some. by eapply Hd.
Qed.

Lemma fence_inv_read db e ws bs token t rev : ws !! token = Some (t, WriterMutated) -> db_tenants db !! t = Some rev ->
  fence_inv (mkFenceSystem db e ws bs) -> fence_inv (mkFenceSystem db e (<[token := (t, WriterRead rev)]> ws) bs).
Proof.
  intros Hw Hrev [Hh Hr Hd]. split; sys; [|done|].
  - intros k t' ph [[<- [= <- _]]|[_ Hk]]%lookup_insert_Some; by eapply Hh.
  - intros k t' rv [[_ [= <- <-]]|[_ Hk]]%lookup_insert_Some; [done|by eapply Hd].
Qed.

Lemma fence_inv_ensure o db e ws bs t rev e' r :
  EnsureERPPolicyRevision o e t rev = (e', r) -> fence_inv (mkFenceSystem db e ws bs) ->
  fence_inv (mkFenceSystem db e' ws (boot_after db e e' t rev bs)).
Proof.
  intros Hen [Hh Hr Hd]. unfold boot_after. apply ensure_cases in Hen as [->|[Hno Herp]].
  { destruct (erp_policies e !! t); by split. }
  sys. rewrite Hno, Herp, lookup_insert_eq. split; sys; rewrite ?Herp; [| |done].
  - intros k t' ph Hk. rewrite lookup_insert_ne; [by eapply Hh|]. intros ->.
    destruct (Hh _ _ _ Hk) as (row & Hrow & _). congruence.
  - intros t' row [[<- <-]|[Hne Hk]]%lookup_insert_Some.
    + intros _. unfold row_current. sys. cbn [fence_revision].
      destruct (decide (db_tenants db !! t = Some rev)); [by left|right]. eexists. by rewrite lookup_insert_eq.
    + intros Hready. destruct (Hr t' row Hk Hready) as [Hc|(cur & Hb & Hc)]; [by left|right]. sys.
      exists cur. by rewrite lookup_insert_ne.
Qed.

Lemma create_tenant_keeps o id db name db' r t rev : CreateTenant o id db name = (db', r) ->
  db_tenants db !! t = Some rev -> db_tenants db' !! t = Some rev.
Proof.
  unfold CreateTenant. intros Hc Ht. apply transaction_cases in Hc as [->|(? & Hc)]; [done|].
  destruct (db_names db !! name); [by apply Ok_inj in Hc as [= <- _]|]. case_bool_decide as Hid; [done|].
  apply Ok_inj in Hc as [= <- _]. cbn. rewrite lookup_insert_ne; [done|]. intros ->. apply Hid. by exists rev.
Qed.

Lemma fence_inv_tenant o id db e ws bs name db' r : CreateTenant o id db name = (db', r) ->
  fence_inv (mkFenceSystem db e ws bs) -> fence_inv (mkFenceSystem db' e ws bs).
Proof.
  intros Hc [Hh Hr Hd]. split; sys; [done| |].
  - intros t row Hk Hready. destruct (Hr t row Hk Hready) as [Ht|?]; [left|by right]. sys. by eapply create_tenant_keeps.
  - intros k t rv Hk. eapply create_tenant_keeps; [done|]. by eapply Hd.
Qed.

Lemma fence_step_inv s s' : fence_step s s' -> fence_inv s -> fence_inv s'.
Proof.
  destruct 1; [by eapply fence_inv_enter|by eapply fence_inv_mutate|by eapply fence_inv_read|by eapply fence_inv_leave
    |by apply fence_inv_shrink|by eapply fence_inv_ensure|by eapply fence_inv_tenant].
Qed.

(** C10: the fence fails closed: with every writer of policies and roles behind it,
    any of them failing, dying or losing a reply at any point, and decisions
    that bootstrap absent rows with whatever revision their node answered at, no
    writer of a tenant is in flight while its row is ready, and a ready row has
    the revision the database has now.  The one exception is a row that a
    decision put there with a revision that was not the database's at that
    moment and that no writer has passed since. *)
Theorem ready_fence_is_current (db : Database) (e : ErpDatabase) (s : FenceSystem) (t : string) (row : FenceRow)
    (Hempty : erp_policies e = ∅) (Hreach : rtc fence_step (mkFenceSystem db e ∅ ∅) s)
    (Hrow : erp_policies (fs_erp s) !! t = Some row) (Hready : fence_ready row = true) :
  (forall token ph, fs_writers s !! token <> Some (t, ph))
  /\ (db_tenants (fs_db s) !! t = Some (fence_revision row)
      \/ exists cur, fs_boot s !! t = Some (fence_revision row, cur) /\ cur <> Some (fence_revision row)).
Proof.
  assert (fence_inv s) as [Hh Hr _].
  { assert (fence_inv (mkFenceSystem db e ∅ ∅)) as Hinit by (split; sys; [done|by rewrite Hempty|done]).
    induction Hreach as [|a b c Hs _ IH]; [done|]. apply IH; [done|]. by eapply fence_step_inv. }
  split; [|by apply Hr]. intros token ph Hw. destruct (Hh _ _ _ Hw) as (row' & Hrow' & Hf & _). congruence.
Qed.

(** The exception is real: a node that is behind, asked under the fence for a
    tenant without a row, opens it at its own old revision, so the ERP
    transaction that compares the row with the revision of the decision accepts
    the stale one and refuses those of the nodes that are up to date. *)
Theorem stale_decision_opens_fence (db : Database) (e : ErpDatabase) (t : string) (current stale : Z)
    (Hcur : db_tenants db !! t = Some current) (Hstale : stale <> current) (Hno : erp_policies e !! t = None) :
  let e' := (EnsureERPPolicyRevision TxCommitted e t stale).1 in
  erp_policies e' !! t = Some (mkFenceRow stale true None)
  /\ (EnsureERPPolicyRevision TxCommitted e' t current).1 = e'
  /\ fence_step (mkFenceSystem db e ∅ ∅) (mkFenceSystem db e' ∅ {[t := (stale, Some current)]}).
Proof.
  cbv zeta. pose proof (fence_ensure TxCommitted db e ∅ ∅ t stale _ _ (surjective_pairing _)) as Hs. revert Hs.
  unfold EnsureERPPolicyRevision, boot_after, insert_fence. rewrite Hno. cbn [transaction fst set_fences erp_policies].
  rewrite lookup_insert_eq, Hcur. intros Hs. split_and!; [done|done|exact Hs].
Qed.

(** [fencedPolicyMutation] is a run of these steps. *)
Lemma fenced_mutation_steps {A} token fo db e ws bs t (mutate : Database -> Database * result StorageError A) st r :
  ws !! token = None -> (forall t' row, erp_policies e !! t' = Some row -> fence_publication row <> Some token) ->
  (forall db0, mutation t db0 (mutate db0).1 (is_ok (mutate db0).2)) ->
  fencedPolicyMutation token fo (mkStores db (Some e)) t mutate = (st, r) ->
  exists e' ws' bs', st_erp st = Some e' /\ ws' !! token = None
    /\ rtc fence_step (mkFenceSystem db e ws bs) (mkFenceSystem (st_db st) e' ws' bs').
Proof.
  intros Hfresh Hpub Hmut. unfold fencedPolicyMutation. cbn [st_erp st_db].
  destruct (fence_begin (fo_begin fo) e t token) as [e1 b] eqn:Eb.
  pose proof (fence_enter _ db _ _ bs _ _ _ _ Hfresh Hpub Eb) as S1.
  destruct b as [[]|err]; cbn [is_ok] in S1; [|intros [= <- _]; exists e1, ws, bs; split_and!; [done..|by apply rtc_once]].
  pose proof (Hmut db) as Hm. destruct (mutate db) as [db' res]. cbn [fst snd] in Hm.
  pose proof (fence_mutate db e1 (<[token := (t, WriterFenced)]> ws) (delete t bs) token t db' _ (lookup_insert_eq _ _ _) Hm) as S2.
  destruct res as [a|err]; cbn [is_ok] in S2.
  2: { intros [= <- _]. exists e1, (delete token (<[token := (t, WriterFenced)]> ws)), (delete t bs).
       split; [done|]. split; [by rewrite lookup_delete_eq|by eapply rtc_l, rtc_once]. }
  assert (rtc fence_step (mkFenceSystem db e ws bs)
    (mkFenceSystem db' e1 (<[token := (t, WriterMutated)]> (<[token := (t, WriterFenced)]> ws)) (delete t bs))) as S12
    by (by eapply rtc_l, rtc_once).
  assert (exists e' ws' bs', Some e1 = Some e' /\ ws' !! token = None
    /\ rtc fence_step (mkFenceSystem db e ws bs) (mkFenceSystem db' e' ws' bs')) as Hgive_back.
  { exists e1. do 2 eexists. split; [done|]. split; [|eapply rtc_r; [exact S12|apply (fence_crash _ _ _ _ token)]].
    apply lookup_delete_eq. }
  unfold GetTenantRevision. destruct (fo_read fo); cbn [negb]; [|by intros [= <- _]].
  destruct (db_tenants db' !! t) as [rev|] eqn:Er; [|by intros [= <- _]].
  destruct (fence_end (fo_end fo) e1 t token rev) as [e2 f] eqn:Ee. intros [= <- _]. exists e2. do 2 eexists. split; [done|].
  split; [|eapply rtc_r; [eapply rtc_r; [exact S12|]|]; [by eapply (fence_read _ _ _ _ token), Er; apply lookup_insert_eq
    |eapply fence_leave, Ee; apply lookup_insert_eq]].
  apply lookup_delete_eq.
Qed.

(** A mutation of a policy that does not exist leaves the fence closed: the
    error was certain, yet every later writer of the tenant is refused. *)
Theorem missing_policy_blocks_tenant (e : ErpDatabase) (db : Database) (t id text token token' : string)
    (st : Stores) (r : result StorageError unit)
    (Hmissing : db_policies db !! id = None) (Hopen : erp_policies e !! t = None)
    (Hcall : UpdatePolicy token (mkFenceOutcomes TxCommitted true TxCommitted) TxCommitted
               (mkStores db (Some e)) t id text = (st, r)) :
  r = Err (PublicationFenced ErrPolicyNotFound)
  /\ forall fo o id' text', exists st' err, UpdatePolicy token' fo o st t id' text' = (st', Err err)
       /\ st_db st' = st_db st /\ forall e', st_erp st' = Some e' ->
            exists row, erp_policies e' !! t = Some row /\ fence_ready row = false.
Proof.
  unfold UpdatePolicy, fencedPolicyMutation, fence_begin, insert_fence, updatePolicy, find_policy in *.
  cbn [st_erp st_db fo_begin] in Hcall. rewrite Hopen in Hcall. cbn [set_fences erp_policies] in Hcall.
  rewrite lookup_insert_eq in Hcall. cbn [fence_ready negb transaction] in Hcall. rewrite Hmissing in Hcall.
  cbn [rbind] in Hcall. injection Hcall as <- <-. split; [done|]. intros fo o id' text'.
  cbn [st_erp st_db]. repeat (cbn [set_fences erp_policies fence_ready negb]; rewrite lookup_insert_eq).
  cbn [fence_ready negb].
  destruct fo as [[] ? ?]; cbn [fo_begin transaction]; do 2 eexists; (split; [reflexivity|]); cbn [st_db st_erp];
    (split; [done|]); intros e' [= <-]; (eexists; split; [cbn; apply lookup_insert_eq|done]).
Qed.
End Fence.

(** ** Opening the database *)

Lemma locate_nearest is_dir left : forall dir found, locate is_dir left dir = Some found <->
  exists i, (i < left)%nat /\ (i <= length dir)%nat /\ found = migrations_of (drop i dir) /\ is_dir found = true
    /\ forall j, (j < i)%nat -> is_dir (migrations_of (drop j dir)) = false.
Proof.
  induction left as [|left IH]; intros dir found; cbn [locate]; [split; [done|intros (i & ? & _); lia]|].
  destruct (is_dir (migrations_of dir)) eqn:E.
  - split; [intros [= <-]; exists 0%nat; split_and!; [lia|lia|done|done|lia]|].
    intros (i & _ & _ & -> & Hi & Hlt). destruct i as [|i]; [done|]. specialize (Hlt 0%nat ltac:(lia)). rewrite drop_0 in Hlt. congruence.
  - destruct dir as [|c parent].
    { split; [done|]. intros (i & _ & Hi & -> & Hd & _). cbn in Hi. assert (i = 0%nat) as -> by lia. rewrite drop_0 in Hd. congruence. }
    rewrite IH. split.
    + intros (i & Hi & Hlen & -> & Hd & Hlt). exists (S i). cbn [length]. split_and!; [lia|lia|done|done|].
      intros [|j] Hj; [done|]. apply (Hlt j). lia.
    + intros (i & Hi & Hlen & -> & Hd & Hlt). destruct i as [|i]; [rewrite drop_0 in Hd; congruence|]. exists i. cbn [length] in *.
      split_and!; [lia|lia|done|done|]. intros j Hj. specialize (Hlt (S j) ltac:(lia)). exact Hlt.
Qed.

(** Storage opens exactly when the connection string is good, the pool is made, and the migrations of the nearest of the working directory
    and its next four ancestors that has any are applied or were before; a pool is left open exactly then. *)
Theorem storage_opens_with_schema (w : OpenWorld) :
  let '(pool_open, r) := NewStorage w in
  (pool_open = true <-> r = Ok tt)
  /\ (r = Ok tt <-> ow_config w = true /\ ow_pool w = true /\ ow_up w <> UpFailed
       /\ exists cwd i, ow_cwd w = Some cwd /\ (i < 5)%nat /\ (i <= length cwd)%nat /\ ow_is_dir w (migrations_of (drop i cwd)) = true
         /\ (forall j, (j < i)%nat -> ow_is_dir w (migrations_of (drop j cwd)) = false) /\ ow_source w (migrations_of (drop i cwd)) = true).
Proof.
  unfold NewStorage, runMigrations, locateMigrationsDir. destruct (ow_config w), (ow_pool w); cbn [negb]; try (split; split; [done..|]; naive_solver).
  destruct (ow_cwd w ≫= locate (ow_is_dir w) 5) as [found|] eqn:E; cbn [rbind].
  - apply bind_Some in E as (cwd & Hcwd & (i & Hi & Hlen & -> & Hd & Hlt)%locate_nearest).
    assert (forall j, (j < 5)%nat -> ow_is_dir w (migrations_of (drop j cwd)) = true ->
      (forall k, (k < j)%nat -> ow_is_dir w (migrations_of (drop k cwd)) = false) -> j = i) as Huniq.
    { intros j _ Hj Hk. destruct (lt_eq_lt_dec i j) as [[?|?]|?]; [rewrite Hk in Hd by done; done|done|rewrite Hlt in Hj by done; done]. }
    destruct (ow_source w _) eqn:Es; cbn [negb].
    + destruct (ow_up w) eqn:Eu; (split; split; [done|done| |]); first [done|naive_solver].
    + split; split; [done|done|done|]. intros (_ & _ & _ & cwd' & j & Hc & Hj & _ & Hjd & Hjl & Hs). rewrite Hcwd in Hc. injection Hc as <-.
      rewrite (Huniq j) in Hs by done. congruence.
  - split; split; [done|done|done|]. intros (_ & _ & _ & cwd & i & Hc & Hi & Hlen & Hd & Hlt & _). rewrite Hc in E. cbn [mbind option_bind] in E.
    assert (locate (ow_is_dir w) 5 cwd = Some (migrations_of (drop i cwd))) as Hl by (apply locate_nearest; eauto 10). congruence.
Qed.
