(* ===== verification/HttpServer.v ===== *)
(** * The HTTP service ([internal/server/http_server.go], [handlers_decision.go],
    [handlers_policy.go], [handlers_tenant.go], [health.go])

    A handler gets the decoded JSON body, [None] when it does not decode, and
    answers with a status and a body, or panics; net/http then closes the
    connection.  The routes of [ConfigureMux] are the functions [serve_*].
    The JSON text of a compiled policy is a parameter: it is stored and never
    read. *)

From S2P Require Import Prelude GoStr Ast GoCrypto Delegation Revocation Parser ParserFacts Dag Trie Compiler Evaluator.
From S2P Require Import Decision DecisionFacts CompilerFacts Engine EngineFacts Sync Simulate Jwt Identity DelegationAuth.
From S2P Require Import DelegationAuthFacts Server ServerFacts Storage StorageFacts.
From stdpp Require Import options.
Local Open Scope Z_scope.

Inductive Body :=
| BodyError
| BodyDecision (d : Decision) (matched : string) (obligations : list ObligationNode)
| BodyExplain (d : Decision) (reason : Reason) (matched : list string) (obligations : list ObligationNode)
| BodySimulated (r : DecisionResult) (compile_errors : bool) (tenant : string)
| BodySchema (tenant : string) (revision : Z) (attributes : list string)
| BodyCreated (id : string)
| BodyDone
| BodyCompileErrors (errs : list PError)
| BodyPublished (version : Z)
| BodyPrewarmed (tenant : string) (revision : Z) (count : nat).

Inductive HttpOutcome := Respond (status : Z) (body : Body) | Panic.

Definition fail_with (status : Z) : HttpOutcome := Respond status BodyError.

Record DecisionRequest := mkDecisionRequest {
  dr_TenantID : string;
  dr_Subject : string;
  dr_Action : string;
  dr_Resource : string;
  dr_Context : gmap string string
}.

Record SimulateRequest := mkSimulateRequest {
  sr_PolicyText : string;
  sr_Subject : string;
  sr_Action : string;
  sr_Resource : string;
  sr_Context : gmap string string
}.

(** ** Decisions *)

Definition validateDecisionIdentity (identity : option authenticatedIdentity) (req : DecisionRequest) :
    result Z authenticatedIdentity :=
  match identity with
  | None => Err 401
  | Some i =>
      guard? negb (bool_decide (dr_TenantID req = ""%string)) && negb (bool_decide (dr_TenantID req = id_TenantID i)) else 403;
      guard? negb (bool_decide (dr_Subject req = ""%string)) && negb (bool_decide (dr_Subject req = id_Subject i)) else 403;
      Ok i
  end.

Section Decisions.
Context `{RangeOrder}.

(** The decision both endpoints ask for; [canceled] are the tests of the
    request context in the engine. *)
Definition http_decision (loader : LazyLoader) (seed : nat) (now : Z) (canceled canceled2 : bool) (e : EngineWithGC)
    (identity : option authenticatedIdentity) (body : option DecisionRequest) :
    EngineWithGC * result Z DecisionResult :=
  match body with
  | None => (e, Err 400)
  | Some req =>
      match validateDecisionIdentity identity req with
      | Err status => (e, Err status)
      | Ok i =>
          let trusted := mergeTrustedPrincipalContext seed (dr_Context req) (id_PrincipalAttributes i) in
          let '(e', r) := gc_CheckPermission loader now canceled canceled2 e (id_TenantID i) (id_Subject i)
                            (dr_Action req) (dr_Resource req) trusted in
          (e', Ok r)
      end
  end.

Definition handleDecisions (loader : LazyLoader) (seed : nat) (now : Z) (canceled canceled2 : bool) (e : EngineWithGC)
    (identity : option authenticatedIdentity) (body : option DecisionRequest) : EngineWithGC * HttpOutcome :=
  match http_decision loader seed now canceled canceled2 e identity body with
  | (e', Err status) => (e', fail_with status)
  | (e', Ok r) => (e', Respond 200 (BodyDecision (res_decision r) (matched_policy_id r) (res_obligations r)))
  end.

Definition handleExplain (loader : LazyLoader) (seed : nat) (now : Z) (canceled canceled2 : bool) (e : EngineWithGC)
    (identity : option authenticatedIdentity) (body : option DecisionRequest) : EngineWithGC * HttpOutcome :=
  match http_decision loader seed now canceled canceled2 e identity body with
  | (e', Err status) => (e', fail_with status)
  | (e', Ok r) =>
      (e', Respond 200 (BodyExplain (res_decision r) (res_reason r) (Explanations r) (res_obligations r)))
  end.
End Decisions.

Section Policies.
Context `{UnicodeTable}.

(** The candidate of a simulation, and whether there are compile errors. *)
Definition simulation_candidate (policyText : string) : option (option PolicyNode * bool) :=
  if bool_decide (policyText = ""%string) then Some (None, false)
  else match ParseText policyText with
       | None => None
       | Some (nodes, errs) =>
           if negb (bool_decide (errs = [])) then Some (None, true)
           else match nodes with
                | [] => Some (None, false)
                | p :: _ =>
                    match Compile [] (Some (set_id p "SIMULATED_CANDIDATE")) with
                    | Err _ => Some (None, true)
                    | Ok compiled => Some (Some compiled, false)
                    end
                end
       end.

(** On the heap of shared index nodes of [Simulate]; [trie] is the index of the
    tenant.  A text always parses ([Parse_total]). *)
Definition handleSimulate (canceled : bool) (h : Heap) (trie : option HTrie) (tenantID : string)
    (body : option SimulateRequest) : Heap * HttpOutcome :=
  if bool_decide (tenantID = ""%string) then (h, fail_with 400)
  else match body with
       | None => (h, fail_with 400)
       | Some req =>
           match simulation_candidate (sr_PolicyText req) with
           | None => (h, Panic)
           | Some (candidate, compile_errors) =>
               let '(h', r) := SimulateDecision canceled h trie tenantID candidate (sr_Subject req) (sr_Action req)
                                 (sr_Resource req) (sr_Context req) in
               (h', Respond 200 (BodySimulated r compile_errors tenantID))
           end
       end.

(** ** Policies *)

Variable marshal_ast : PolicyNode -> option string.

Definition handleCreatePolicy (o : TxOutcome) (id : string) (st : Stores) (tenantID : string)
    (body : option (string * string)) : Stores * HttpOutcome :=
  if bool_decide (tenantID = ""%string) then (st, fail_with 400)
  else match body with
       | None => (st, fail_with 400)
       | Some (effect0, policyText) =>
           let effect := to_upper (trim_space effect0) in
           if negb (bool_decide (effect = "PERMIT"%string)) && negb (bool_decide (effect = "FORBID"%string))
           then (st, fail_with 400)
           else if blank policyText then (st, fail_with 400)
           else match CreatePolicy o id (st_db st) tenantID effect policyText with
                | (db, Err _) => (mkStores db (st_erp st), fail_with 500)
                | (db, Ok newID) => (mkStores db (st_erp st), Respond 201 (BodyCreated newID))
                end
       end.

Definition is_not_found (e : StorageError) : bool :=
  match e with ErrPolicyNotFound | PublicationFenced ErrPolicyNotFound => true | _ => false end.

(** [body] is the policy text of the request. *)
Definition handleUpdatePolicy (token : string) (fo : FenceOutcomes) (o : TxOutcome) (st : Stores)
    (tenantID policyID : string) (body : option string) : Stores * HttpOutcome :=
  if bool_decide (tenantID = ""%string) || bool_decide (policyID = ""%string) then (st, fail_with 400)
  else match body with
       | None => (st, fail_with 400)
       | Some policyText =>
           if blank policyText then (st, fail_with 400)
           else match UpdatePolicy token fo o st tenantID policyID policyText with
                | (st', Err e) => (st', fail_with (if is_not_found e then 404 else 500))
                | (st', Ok _) => (st', Respond 200 BodyDone)
                end
       end.

Definition handleDeletePolicy (token : string) (fo : FenceOutcomes) (o : TxOutcome) (st : Stores)
    (tenantID policyID : string) : Stores * HttpOutcome :=
  if bool_decide (tenantID = ""%string) || bool_decide (policyID = ""%string) then (st, fail_with 400)
  else match DeletePolicy token fo o st tenantID policyID with
       | (st', Err e) => (st', fail_with (if is_not_found e then 404 else 500))
       | (st', Ok _) => (st', Respond 200 BodyDone)
       end.

(** [nodes[0]] of an empty slice panics. *)
Definition handlePublishPolicy (read_ok : bool) (token : string) (fo : FenceOutcomes) (o : TxOutcome) (st : Stores)
    (tenantID policyID : string) : Stores * HttpOutcome :=
  if bool_decide (tenantID = ""%string) || bool_decide (policyID = ""%string) then (st, fail_with 400)
  else match GetPolicy read_ok (st_db st) tenantID policyID with
       | Err _ => (st, fail_with 404)
       | Ok p =>
           match ParseText (dbp_PolicyText p) with
           | None => (st, Panic)
           | Some (nodes, errs) =>
               if negb (bool_decide (errs = [])) then (st, Respond 400 (BodyCompileErrors errs))
               else match nodes with
                    | [] => (st, Panic)
                    | node :: _ =>
                        match Compile [] (Some (set_id node policyID)) with
                        | Err _ => (st, fail_with 400)
                        | Ok compiled =>
                            match marshal_ast compiled with
                            | None => (st, fail_with 500)
                            | Some astJSON =>
                                match PublishPolicy token fo o st tenantID policyID astJSON with
                                | (st', Err _) => (st', fail_with 500)
                                | (st', Ok newVersion) => (st', Respond 200 (BodyPublished newVersion))
                                end
                            end
                        end
                    end
           end
       end.

(** ** Tenants *)

Definition handleGetTenantSchema (e : EngineWithGC) (tenantID : string) : HttpOutcome :=
  if bool_decide (tenantID = ""%string) then fail_with 400
  else Respond 200 (BodySchema tenantID (gc_GetTenantRevision e tenantID) (gc_GetTenantSchema e tenantID)).

Definition handlePrewarm `{RangeOrder} `{RowOrder} (seed : nat) (now : Z) (read_ok : bool) (e : EngineWithGC)
    (st : Stores) (tenantID : string) : EngineWithGC * HttpOutcome :=
  if bool_decide (tenantID = ""%string) then (e, fail_with 400)
  else match GetTenantPolicyBundle seed read_ok (st_db st) tenantID with
       | Err _ => (e, fail_with 500)
       | Ok bundle =>
           match CompilePolicySet (pb_policies bundle) with
           | Err _ => (e, fail_with 422)
           | Ok compiled =>
               match gc_UpdateTenantPoliciesWithRevision seed now e tenantID compiled (pb_inheritances bundle)
                       (pb_revision bundle) with
               | Err _ => (e, fail_with 500)
               | Ok e' => (e', Respond 200 (BodyPrewarmed tenantID (pb_revision bundle) (length compiled)))
               end
           end
       end.
End Policies.

(** ** Routes *)

Section Routes.
Context `{JwtLibrary} `{RangeOrder}.

(** [tenantAuth(RequirePermission(permission)(handler))]. *)
Definition protect {A} (now : Z) (validator : option JWTValidator) (header tenantID permission : string)
    (state : A) (handler : A -> A * HttpOutcome) : A * HttpOutcome :=
  match TenantAuthMiddleware now validator header tenantID with
  | Err status => (state, fail_with status)
  | Ok i => match RequirePermission permission (Some i) with
            | Err status => (state, fail_with status)
            | Ok _ => handler state
            end
  end.

(** [POST /api/v1/decisions]. *)
Definition serve_decisions (loader : LazyLoader) (seed : nat) (now now' : Z) (canceled canceled2 : bool)
    (validator : option JWTValidator) (header : string) (e : EngineWithGC) (body : option DecisionRequest) :
    EngineWithGC * HttpOutcome :=
  match TenantAuthMiddleware now validator header "" with
  | Err status => (e, fail_with status)
  | Ok i => handleDecisions loader seed now' canceled canceled2 e (Some i) body
  end.

(** [POST /api/v1/decisions/explain]. *)
Definition serve_explain (loader : LazyLoader) (seed : nat) (now now' : Z) (canceled canceled2 : bool)
    (validator : option JWTValidator) (header : string) (e : EngineWithGC) (body : option DecisionRequest) :
    EngineWithGC * HttpOutcome :=
  match TenantAuthMiddleware now validator header "" with
  | Err status => (e, fail_with status)
  | Ok i => handleExplain loader seed now' canceled canceled2 e (Some i) body
  end.

Context `{UnicodeTable}.
Variable marshal_ast : PolicyNode -> option string.

Definition serve_create (now : Z) (validator : option JWTValidator) (header tenantID : string) (o : TxOutcome)
    (id : string) (st : Stores) (body : option (string * string)) : Stores * HttpOutcome :=
  protect now validator header tenantID "policy:write" st (fun st => handleCreatePolicy o id st tenantID body).
Definition serve_update (now : Z) (validator : option JWTValidator) (header tenantID policyID token : string)
    (fo : FenceOutcomes) (o : TxOutcome) (st : Stores) (body : option string) : Stores * HttpOutcome :=
  protect now validator header tenantID "policy:write" st
    (fun st => handleUpdatePolicy token fo o st tenantID policyID body).
Definition serve_delete (now : Z) (validator : option JWTValidator) (header tenantID policyID token : string)
    (fo : FenceOutcomes) (o : TxOutcome) (st : Stores) : Stores * HttpOutcome :=
  protect now validator header tenantID "policy:write" st (fun st => handleDeletePolicy token fo o st tenantID policyID).
Definition serve_publish (now : Z) (validator : option JWTValidator) (header tenantID policyID token : string)
    (read_ok : bool) (fo : FenceOutcomes) (o : TxOutcome) (st : Stores) : Stores * HttpOutcome :=
  protect now validator header tenantID "policy:write" st
    (fun st => handlePublishPolicy marshal_ast read_ok token fo o st tenantID policyID).
Definition serve_simulate (now : Z) (validator : option JWTValidator) (header tenantID : string) (canceled : bool)
    (h : Heap) (trie : option HTrie) (body : option SimulateRequest) : Heap * HttpOutcome :=
  protect now validator header tenantID "policy:simulate" h (fun h => handleSimulate canceled h trie tenantID body).
Definition serve_schema (now : Z) (validator : option JWTValidator) (header tenantID : string) (e : EngineWithGC) :
    EngineWithGC * HttpOutcome :=
  protect now validator header tenantID "policy:read" e (fun e => (e, handleGetTenantSchema e tenantID)).
Definition serve_prewarm `{RowOrder} (now now' : Z) (validator : option JWTValidator) (header tenantID : string)
    (seed : nat) (read_ok : bool) (st : Stores) (e : EngineWithGC) : EngineWithGC * HttpOutcome :=
  protect now validator header tenantID "policy:operate" e (fun e => handlePrewarm seed now' read_ok e st tenantID).
End Routes.

(** ** Health *)

(** A component of the answer; the texts of the messages are left out. *)
Record healthResponse := mkHealth { h_status : SyncStatus; h_components : gmap string SyncStatus }.

(** [database] is [None] for no storage, else whether the ping succeeded;
    [syncer] the answer of [Readiness], [None] for no syncer. *)
Definition readiness (database : option bool) (syncer : option (SyncStatus * bool)) : Z * healthResponse :=
  let '(pg, ready1, overall1) := match database with
    | Some true => (SyncStatusHealthy, true, SyncStatusHealthy)
    | _ => (SyncStatusNotReady, false, SyncStatusNotReady)
    end in
  let '(sync, ready2, overall2) := match syncer with
    | None => (SyncStatusNotReady, false, SyncStatusNotReady)
    | Some (status, true) =>
        (status, false, if negb (bool_decide (overall1 = SyncStatusNotReady)) then status else overall1)
    | Some (_, false) => (SyncStatusHealthy, ready1, overall1)
    end in
  let components := {["postgresql"%string := pg; "policy_sync"%string := sync]} in
  if negb ready2 then (503, mkHealth overall2 components) else (200, mkHealth SyncStatusHealthy components).
Definition livez : Z * SyncStatus := (200, SyncStatusHealthy).

(** ** Theorems about the HTTP service

    The endpoints are open to the identity of the token only; a decision is the
    one the gRPC service gives a direct request, but nothing checks the
    delegation of the context; what can be published can be loaded, except a
    text with several statements. *)

(** *** Routes *)

Section Routes.
Context `{JwtLibrary} `{RangeOrder}.

(** C27: no route of the control plane acts for another tenant: unless the token
    verifies, names the tenant of the path and carries the permission, the
    handler does not run and nothing changes. *)
Theorem protected_route {A} (now : Z) (validator : option JWTValidator) (header tenantID permission : string)
    (state : A) (handler : A -> A * HttpOutcome) (Hpath : tenantID <> ""%string) :
  (exists v claims subject, validator = Some v /\ authentic now v claims tenantID subject
     /\ HasPermission claims permission = true
     /\ protect now validator header tenantID permission state handler = handler state)
  \/ exists status, status ∈ [401; 403; 500]
       /\ protect now validator header tenantID permission state handler = (state, fail_with status).
Proof.
  unfold protect. destruct (TenantAuthMiddleware now validator header tenantID) as [i|status] eqn:Em.
  - apply middleware_ok in Em as (v & -> & Ha & Hp & _). destruct Hp as [Hp|Hp]; [done|].
    unfold RequirePermission. destruct (HasPermission (id_Claims i) permission) eqn:Eh; cbn [negb].
    + left. exists v, (id_Claims i), (id_Subject i). rewrite Hp. done.
    + right. exists 403. split; [set_solver|done].
  - right. exists status. split; [|done]. unfold TenantAuthMiddleware in Em.
    repeat case_match; try discriminate; injection Em as <-; repeat constructor.
Qed.

(** The identity behind an answered decision. *)
Lemma http_decision_ok loader seed now c c2 e i body e' r :
  http_decision loader seed now c c2 e (Some i) body = (e', Ok r) ->
  exists req, body = Some req /\ (dr_TenantID req = ""%string \/ dr_TenantID req = id_TenantID i)
    /\ (dr_Subject req = ""%string \/ dr_Subject req = id_Subject i)
    /\ (e', r) = gc_CheckPermission loader now c c2 e (id_TenantID i) (id_Subject i) (dr_Action req) (dr_Resource req)
                   (mergeTrustedPrincipalContext seed (dr_Context req) (id_PrincipalAttributes i)).
Proof.
  unfold http_decision. destruct body as [req|]; [|done]. unfold validateDecisionIdentity.
  destruct (negb (bool_decide (dr_TenantID req = _)) && _) eqn:E1; [done|].
  destruct (negb (bool_decide (dr_Subject req = _)) && _) eqn:E2; [done|].
  intros Hd. exists req. split; [done|]. destruct (gc_CheckPermission _ _ _ _ _ _ _ _ _ _) as [e1 r1]. injection Hd as <- <-.
  rewrite andb_false_iff, !negb_false_iff, !bool_decide_eq_true in E1, E2. done.
Qed.
End Routes.

(** *** Both services decide alike *)

Section Endpoints.
Context {DB Out : Type} `{RevocationStore DB Out} `{JwtLibrary} `{RangeOrder}.

Lemma merge_insert seed (ctx attrs : gmap string string) k v :
  has_prefix k "principal." = false -> k <> "tenant_id"%string ->
  mergeTrustedPrincipalContext seed (<[k := v]> ctx) attrs = <[k := v]> (mergeTrustedPrincipalContext seed ctx attrs).
Proof.
  intros Hk Ht. apply map_eq. intros j. destruct (has_prefix j "principal.") eqn:Ej.
  - rewrite lookup_insert_ne by (intros ->; congruence). by apply merge_principal_agree.
  - rewrite merge_caller by done. destruct (decide (k = j)) as [->|Hne].
    + rewrite !lookup_insert_eq. by rewrite bool_decide_false.
    + rewrite !lookup_insert_ne by done. by rewrite merge_caller.
Qed.

(** The two services decide alike: a request without delegation keys gets over
    HTTP, with its subject as the chain, the decision the gRPC service gives it,
    with the same policy. *)
Theorem http_decides_like_grpc (loader : LazyLoader) (env : CallEnv Out) (s s' : GRPCServer DB) (ctx : Incoming)
    (corr : option auditCorrelation) (req : CheckAccessRequest) (resp : CheckAccessResponse) (i : authenticatedIdentity)
    (Hcall : CheckAccess loader env s ctx corr req = (s', Ok resp))
    (Hdirect : ctx_get (cr_Context req) "delegation_grant_id" = ""%string)
    (Hi : validateTenantAndGetClaims (env_token env) (gs_jwt s) ctx (cr_TenantId req) = Ok (id_Claims i)
          /\ id_TenantID i = cr_TenantId req /\ claim_string (id_Claims i) "sub" = Some (id_Subject i)
          /\ id_PrincipalAttributes i = claim_attributes (id_Claims i)) :
  exists e r, handleDecisions loader (env_seed env) (env_engine env) (env_canceled env) (env_canceled2 env) (gs_engine s)
      (Some i) (Some (mkDecisionRequest (cr_TenantId req) "" (cr_Action req) (cr_Resource req)
                        (<["delegation_chain"%string := id_Subject i]> (cr_Context req))))
    = (e, Respond 200 (BodyDecision (resp_decision resp) (resp_policy resp) r))
    /\ resp_obligations resp = protocolObligations r.
Proof.
  destruct Hi as (Hv & Hten & Hsub & Hattr). unfold CheckAccess in Hcall. rewrite Hv in Hcall.
  destruct (validateTenant_ok _ _ _ _ _ Hv) as (v & subject & _ & Ha & _).
  rewrite (authentic_binds _ _ _ _ _ (env_seed env) (cr_Context req) Ha) in Hcall.
  destruct Ha as (_ & _ & Hs & _). apply claim_string_Some in Hsub. rewrite Hsub in Hs. injection Hs as <-.
  set (trusted := mergeTrustedPrincipalContext _ _ _) in *. destruct (_ && _); [done|].
  assert (ctx_get trusted "delegation_grant_id" = ""%string) as Hgr by (transitivity (ctx_get (cr_Context req) "delegation_grant_id"); [by apply ctx_get_merge|done]).
  unfold revocation_gate in Hcall. rewrite Hgr in Hcall. rewrite bool_decide_true in Hcall by done.
  destruct (validateDelegation _ _ _) as [r2|] eqn:Ed; [|done].
  apply validateDelegation_ok in Ed as [[_ ->]|[Hne _]]; [|done].
  apply decide_access_ok in Hcall as [-> _]. cbn [set_context trusted_request cr_TenantId cr_Subject cr_Action cr_Resource cr_Context] in *.
  unfold handleDecisions, http_decision, validateDecisionIdentity. cbn [dr_TenantID dr_Subject dr_Action dr_Resource dr_Context].
  rewrite Hten. rewrite (bool_decide_true (cr_TenantId req = cr_TenantId req)) by done. rewrite andb_false_r.
  rewrite (bool_decide_true (""%string = ""%string)) by done. cbn [negb andb].
  rewrite merge_insert, Hattr by done. fold trusted. rewrite Hten.
  destruct (gc_CheckPermission _ _ _ _ _ _ _ _ _ _) as [e r]. cbn [snd access_response resp_decision resp_policy resp_obligations].
  by exists e, (res_obligations r).
Qed.
End Endpoints.

(** *** Publishing *)

Section Publishing.
Context `{UnicodeTable}.
Variable marshal_ast : PolicyNode -> option string.

Lemma handlePublishPolicy_ok read_ok token fo o st st' t id v :
  handlePublishPolicy marshal_ast read_ok token fo o st t id = (st', Respond 200 (BodyPublished v)) ->
  exists p node rest ast, find_policy (st_db st) t id = Ok p /\ ParseText (dbp_PolicyText p) = Some (node :: rest, [])
    /\ is_ok (Compile [] (Some (set_id node id))) = true
    /\ PublishPolicy token fo o st t id ast = (st', Ok v).
Proof.
  unfold handlePublishPolicy. intros Hp. destruct (_ || _); [done|]. unfold GetPolicy in Hp.
  destruct read_ok; [|done]. cbn [negb] in Hp. destruct (find_policy (st_db st) t id) as [p|]; [|done].
  destruct (ParseText (dbp_PolicyText p)) as [[nodes errs]|] eqn:Ee; [|done]. case_bool_decide as He; [|done]. subst errs.
  cbn [negb] in Hp. destruct nodes as [|node rest]; [done|]. destruct (Compile [] _) as [compiled|] eqn:Ec; [|done].
  destruct (marshal_ast compiled) as [ast|]; [|done]. destruct (PublishPolicy _ _ _ _ _ _ _) as [st1 [v1|]] eqn:Ep; [|done].
  injection Hp as <- <-. exists p, node, rest, ast. by rewrite Ec.
Qed.

Lemma compile_set_source sources s : s ∈ sources -> is_ok (compile_source s) = false ->
  is_ok (CompilePolicySet sources) = false.
Proof.
  intros Hin Hno. destruct (CompilePolicySet sources) as [ps|] eqn:E; [|done]. unfold CompilePolicySet in E.
  apply rmapM_ok in E. apply list_elem_of_split in Hin as (pre & post & ->). exfalso.
  apply Forall2_app_inv_l in E as (p1 & p2 & _ & E & _). inversion E as [|? ? ? ? Hok]; subst. by rewrite Hok in Hno.
Qed.

(** The publication of a policy guarantees that replicas can load it exactly
    when its text has one statement: the handler compiles the first statement
    of the text only, and with any other number of them every later load of
    the tenant's policies fails until the text is changed. *)
Theorem published_text_loads_iff_single `{RowOrder} (read_ok : bool) (token : string) (fo : FenceOutcomes) (o : TxOutcome)
    (st st' : Stores) (t id : string) (v : Z)
    (Hpub : handlePublishPolicy marshal_ast read_ok token fo o st t id = (st', Respond 200 (BodyPublished v))) :
  exists p node rest, find_policy (st_db st) t id = Ok p /\ ParseText (dbp_PolicyText p) = Some (node :: rest, [])
    /\ is_ok (compile_source (mkPolicySource id (dbp_PolicyText p))) = bool_decide (rest = [])
    /\ (rest <> [] -> forall seed b, GetTenantPolicyBundle seed true (st_db st') t = Ok b ->
          is_ok (CompilePolicySet (pb_policies b)) = false).
Proof.
  apply handlePublishPolicy_ok in Hpub as (p & node & rest & ast & Hf & Hparse & Hc & Hpub).
  exists p, node, rest. split; [done|]. split; [done|].
  assert (is_ok (compile_source (mkPolicySource id (dbp_PolicyText p))) = bool_decide (rest = [])) as Hcs.
  { unfold compile_source. cbn [source_text source_id]. rewrite Hparse. cbn [length Nat.ltb Nat.leb].
    destruct rest as [|node' rest]; [|done]. by destruct (Compile [] (Some (set_id node id))). }
  split; [done|]. intros Hrest seed b Hb. apply compile_set_source with (mkPolicySource id (dbp_PolicyText p)).
  - apply (published_source_listed seed token fo o st st' t id ast v p b Hpub Hf Hb).
  - rewrite Hcs. by apply bool_decide_false.
Qed.
End Publishing.
