(* ===== verification/ServerSamples.v ===== *)
(** * A running service

    A small world in which the hypotheses of the theorems about the services
    hold: a token library with three tokens, an engine with one tenant, and a
    database; and the flaws the services have in it. *)

From S2P Require Import Prelude GoStr GoCrypto IntText Ast Dag Trie Evaluator Decision DecisionFacts.
From S2P Require Import Parser ParserFacts Compiler Engine EngineFacts Simulate Sync SyncFacts Canonical Intent.
From S2P Require Import Delegation DelegationFacts Revocation Approval.
From S2P Require Import Jwt Identity DelegationAuth DelegationAuthFacts Server ServerFacts.
From S2P Require Import Storage StorageFacts HttpServer.
From stdpp Require Import relations options.
Local Open Scope Z_scope.

(** ** The world *)

#[local] Existing Instance sorted_range.
#[local] Existing Instance ascii_table.
#[local] Instance insertion_order : RowOrder :=
  {| row_order := fun _ _ l => l; row_order_perm := fun _ _ _ => reflexivity _ |}.

Definition identity_claims (sub permissions : string) : MapClaims :=
  {["tenant_id"%string := ClaimString "t"; "sub"%string := ClaimString sub;
    "company_id"%string := ClaimNumber "7"; "permissions"%string := ClaimString permissions]}.

(** The tokens are opaque names that expire at the end of 2027. *)
#[local] Instance token_table : JwtLibrary := fun now raw _ _ =>
  if 1830297600 * nanosecond <? now then None
  else if bool_decide (raw = "root-token"%string) then Some (Some (identity_claims "role:root" "policy:write delegation:revoke"), true)
  else if bool_decide (raw = "carol-token"%string) then Some (Some (identity_claims "user:carol" ""), true)
  else None.

Definition bearer (token : string) : Incoming := Some {["authorization"%string := ["Bearer " +:+ token]]}.

Definition service_policies : list PolicyNode :=
  sample_policies ++ [sample_policy "permit-approval" EffectPermit (eq_scope "user" "carol")
                        (eq_scope "action" "APPROVE_PURCHASE_ORDER") any_scope NodeNil].
Definition service_engine : EngineWithGC :=
  match gc_UpdateTenantPoliciesWithRevision 0 7 (NewEngineWithGC sample_config) "t" service_policies sample_pairs 5 with
  | Ok e => e
  | Err _ => NewEngineWithGC sample_config
  end.

Definition permit_text : string := "permit(principal == role:admin, action == action:READ, resource == any);".
Definition policy_db (text : string) : Database :=
  mkDatabase {["acme"%string := "t"%string]} {["t"%string := 5]}
    {["p-1"%string := mkDBPolicy "t" "PERMIT" text None 1 Draft]} ∅ ∅ [] [].
Definition service_stores : Stores := mkStores (policy_db permit_text) (Some (mkErp "erp-1" ∅ ∅)).

Definition loaded_manager : DelegationManager :=
  rev_run golden_manager [EvWatch; EvSnapshot (1800000000 * nanosecond) []].
Definition service : GRPCServer Stores :=
  mkServer service_engine (Some []) (Some (NewJWTValidator "" "" "")) (Some loaded_manager)
    (Some sample_approvals) (Some service_stores).

(** A call at a second of the year 2027, with a healthy database. *)
Definition call_at (t : Z) : CallEnv (TxOutcome * TxOutcome) :=
  mkEnv _ (t * nanosecond) (t * nanosecond) (t * nanosecond) (t * nanosecond) 0 false false None
    (TxCommitted, TxCommitted) (fun e => e) (Some (replicate 32 5)).

Definition read_report (context : gmap string string) : CheckAccessRequest :=
  mkCheckAccess "t" "" "READ" "file:report" context.
Definition under_grant (grant : string) : CheckAccessRequest :=
  read_report {["delegation_grant_id"%string := grant]}.

(** The answer a call computes. *)
Definition answer_of {S A} (default : A) (r : S * result Code A) : A :=
  match r.2 with Ok a => a | Err _ => default end.
Lemma answer_of_ok {S A} (d : A) (r : S * result Code A) : is_ok r.2 = true -> r = (r.1, Ok (answer_of d r)).
Proof. by destruct r as [s []]. Qed.

Definition read_call : GRPCServer Stores * result Code CheckAccessResponse :=
  CheckAccess None (call_at 1800000100) service (bearer "root-token") None (read_report ∅).
Lemma read_call_ok : read_call = (read_call.1, Ok (answer_of revokedDecision read_call)).
Proof. apply answer_of_ok. vm_compute. reflexivity. Qed.

Example root_may_read : resp_decision <$> to_option read_call.2 = Some DecisionAllow.
Proof. vm_compute. reflexivity. Qed.
Example stranger_is_refused :
  (CheckAccess None (call_at 1800000100) service (bearer "eve-token") None (read_report ∅)).2 = Err Unauthenticated.
Proof. vm_compute. reflexivity. Qed.

(** ** Witnesses of the gRPC service *)

Definition service_trie : TrieRoot := default (NewTrieRoot "none") (gc_state service_engine !! "t").
Lemma service_trie_ok : represents "t" (mkBundle service_policies sample_pairs 5) service_trie.
Proof. apply (buildTenantTrie_ok 0). vm_compute. reflexivity. Qed.

Lemma access_answer_justified_witness : exists v claims subject,
  gs_jwt service = Some v /\ authentic (1800000100 * nanosecond) v claims "t" subject
  /\ (answer_of revokedDecision read_call = revokedDecision
      \/ exists r2 r, answer_of revokedDecision read_call = access_response r "" /\
           answers_for (mkBundle service_policies sample_pairs 5) (mkRequest subject "READ" "file:report" (cr_Context r2)) r).
Proof.
  destruct (access_answer_justified None (call_at 1800000100) service read_call.1 (bearer "root-token") None
    (read_report ∅) (answer_of revokedDecision read_call)) as (v & claims & subject & Hv & Ha & Hcase).
  - exact read_call_ok.
  - exists v, claims, subject. split; [exact Hv|]. split; [exact Ha|].
    destruct Hcase as [[Hr _]|(r2 & r & _ & Hr & _ & Hasked)]; [left; exact Hr|right].
    exists r2, r. split; [exact Hr|].
    assert (asked_trie None (call_at 1800000100) service "t" = Some service_trie) as Et by (vm_compute; reflexivity).
    destruct Hasked as [[_ [H|[H|H]]]|(t & Ht & Hans)].
    + vm_compute in H. discriminate H.
    + vm_compute in H. discriminate H.
    + change (cr_TenantId (read_report ∅)) with "t"%string in H. rewrite Et in H. discriminate H.
    + change (cr_TenantId (read_report ∅)) with "t"%string in Ht, Hans. 
      assert (t = service_trie) as -> by (apply (inj Some); etransitivity; [symmetry; exact Ht|exact Et]).
      rewrite <- (and_leaked_nil (mkBundle service_policies sample_pairs 5)).
      apply Hans; [apply represents_and_nil, service_trie_ok|]. intros Hh. vm_compute in Hh. discriminate Hh.
Defined.

Lemma evaluated_answers_audited_witness :
  (answer_of revokedDecision read_call = revokedDecision /\ gs_audit read_call.1 = Some [])
  \/ exists entry, gs_audit read_call.1 = Some ([] ++ [entry]) /\ au_tenant entry = "t"%string
       /\ au_decision entry = resp_decision (answer_of revokedDecision read_call)
       /\ au_policy entry = resp_policy (answer_of revokedDecision read_call)
       /\ resp_advice (answer_of revokedDecision read_call) !! "erp.policy_revision"%string
          = Some (FormatInt (au_revision entry)).
Proof.
  exact (evaluated_answers_audited None (call_at 1800000100) service read_call.1 (bearer "root-token") None
    (read_report ∅) (Ok (answer_of revokedDecision read_call)) [] eq_refl read_call_ok).
Defined.

Definition revoke_call : GRPCServer Stores * result Code Z :=
  RevokeDelegation (call_at 1800000200) service (bearer "root-token") (mkRevokeRequest "t" "42" "role:root").
Definition refused_call : GRPCServer Stores * result Code CheckAccessResponse :=
  CheckAccess None (call_at 1800000300) revoke_call.1 (bearer "root-token") None (under_grant "42").

Example ready_and_empty : (IsRevoked (1800000300 * nanosecond) loaded_manager "t" "42").2 = false
  /\ RevocationReady loaded_manager = true.
Proof. vm_compute. by split. Qed.

Lemma revoked_grant_denied_witness : answer_of (access_response (mkDecision 0 DecisionAllow ReasonAllowPermit [] []) "") refused_call = revokedDecision.
Proof.
  eapply (revoked_grant_denied None (call_at 1800000200) (call_at 1800000300) service revoke_call.1 revoke_call.1 refused_call.1
    (bearer "root-token") (bearer "root-token") None (mkRevokeRequest "t" "42" "role:root") (under_grant "42")
    (answer_of 0 revoke_call) _ golden_manager [EvWatch; EvSnapshot (1800000000 * nanosecond) []] []).
  - split; reflexivity.
  - reflexivity.
  - intros db [= <-]. apply map_Forall_empty.
  - apply (bool_decide_unpack _). vm_compute. exact I.
  - apply answer_of_ok. vm_compute. reflexivity.
  - eexists. split; [vm_compute; reflexivity|]. vm_compute. reflexivity.
  - apply (bool_decide_unpack _). vm_compute. exact I.
  - apply (bool_decide_unpack _). vm_compute. exact I.
  - vm_compute. split; reflexivity.
  - apply answer_of_ok. vm_compute. reflexivity.
Defined.

Definition approval_request : IssueRequest :=
  mkIssueRequest "t" 7 (ac_ApprovalID sample_capability) (ac_IntentHash sample_capability)
    (ac_StateWitness sample_capability) (ac_CommandID sample_capability) 81 "user:bob" "agent:procurement_copilot"
    "user:alice" 9 "purchase_order:42" 1800003000 ∅.
Definition approval_call : GRPCServer Stores * result Code ProtoCapability :=
  IssueApprovalCapability None (call_at 1800000100) service (bearer "carol-token") approval_request.
Definition no_capability : ProtoCapability :=
  approvalCapabilityToProto sample_capability (mkEnvelope "" "" [] []).
Definition issued_approval : ProtoCapability := answer_of no_capability approval_call.

Definition claims_of (token : string) : MapClaims :=
  match validateTenantAndGetClaims (1800000100 * nanosecond) (gs_jwt service) (bearer token) "t" with
  | Ok claims => claims
  | Err _ => ∅
  end.
Lemma claims_ok (r : result Code MapClaims) : is_ok r = true -> r = Ok (match r with Ok c => c | Err _ => ∅ end).
Proof. by destruct r. Qed.

Lemma issued_approval_verifies_witness :
  VerifyApprovalCapability (call_at 1800000200) service (bearer "carol-token") "t" (Some issued_approval) = Ok true
  /\ pc_ExpiresAt issued_approval <= 1800003000.
Proof.
  destruct (issued_approval_verifies None (call_at 1800000100) (call_at 1800000200) service approval_call.1 service
    (bearer "carol-token") (bearer "carol-token") approval_request issued_approval "approval-1" sample_keys
    (3600 * nanosecond) sample_approvals sample_approvals (claims_of "carol-token")) as (Hv & Hx & _).
  - vm_compute. reflexivity.
  - reflexivity.
  - apply answer_of_ok. vm_compute. reflexivity.
  - apply claims_ok. vm_compute. reflexivity.
  - reflexivity.
  - vm_compute. reflexivity.
  - apply claims_ok. vm_compute. reflexivity.
  - reflexivity.
  - apply (bool_decide_unpack _). vm_compute. exact I.
  - split; [exact Hv|exact Hx].
Defined.

Definition vault_request : CheckAccessRequest := mkCheckAccess "t" "" "READ" "file:vault" ∅.
Definition explain_call : GRPCServer Stores * result Code ExplainResponse :=
  ExplainDecision None (call_at 1800000100) service (bearer "root-token") vault_request.
Definition explained : ExplainResponse := answer_of (mkExplain DecisionAllow None []) explain_call.

Example vault_explained : ex_decision explained = DecisionDeny
  /\ pm_PolicyId <$> ex_matched explained = ["permit-admin"; "forbid-vault"].
Proof. vm_compute. by split. Qed.

Lemma explanation_accounts_for_decision_witness : ex_decision explained = DecisionAllow <->
  (exists pm, pm ∈ ex_matched explained /\ pm_Effect pm = EffectPermit)
  /\ forall pm, pm ∈ ex_matched explained -> pm_Effect pm <> EffectForbid.
Proof.
  apply (explanation_accounts_for_decision None (call_at 1800000100) service explain_call.1 (bearer "root-token")
    vault_request explained service_trie).
  - apply answer_of_ok. vm_compute. reflexivity.
  - split; reflexivity.
  - reflexivity.
  - vm_compute. reflexivity.
Defined.

(** ** Witnesses of the HTTP service *)

Definition validator : JWTValidator := NewJWTValidator "" "" "".
Definition publish_outcome (st : Stores) : Stores * HttpOutcome :=
  handlePublishPolicy (fun _ => Some "{}"%string) true "w-1" (mkFenceOutcomes TxCommitted true TxCommitted) TxCommitted
    st "t" "p-1".
Definition publish_route (token : string) : Stores * HttpOutcome :=
  serve_publish (fun _ => Some "{}"%string) (1800000100 * nanosecond) (Some validator) ("Bearer " +:+ token) "t" "p-1" "w-1"
    true (mkFenceOutcomes TxCommitted true TxCommitted) TxCommitted service_stores.

Example root_publishes : (publish_route "root-token").2 = Respond 200 (BodyPublished 2).
Proof. vm_compute. reflexivity. Qed.
Example carol_may_not_publish : publish_route "carol-token" = (service_stores, fail_with 403).
Proof. vm_compute. reflexivity. Qed.

Lemma protected_route_witness :
  (exists v claims subject, Some validator = Some v /\ authentic (1800000100 * nanosecond) v claims "t" subject
     /\ HasPermission claims "policy:write" = true /\ publish_route "carol-token" = publish_outcome service_stores)
  \/ exists status, status ∈ [401; 403; 500] /\ publish_route "carol-token" = (service_stores, fail_with status).
Proof.
  exact (protected_route (1800000100 * nanosecond) (Some validator) "Bearer carol-token" "t" "policy:write"
    service_stores publish_outcome ltac:(discriminate)).
Defined.

(** What the middleware gives the handler. *)
Definition root_identity : authenticatedIdentity :=
  mkIdentity "t" "role:root" (claim_attributes (claims_of "root-token")) (claims_of "root-token").

Lemma http_decides_like_grpc_witness : exists e r,
  handleDecisions None 0 (1800000100 * nanosecond) false false service_engine (Some root_identity)
    (Some (mkDecisionRequest "t" "" "READ" "file:report" {["delegation_chain"%string := "role:root"%string]}))
  = (e, Respond 200 (BodyDecision (resp_decision (answer_of revokedDecision read_call))
                       (resp_policy (answer_of revokedDecision read_call)) r))
  /\ resp_obligations (answer_of revokedDecision read_call) = protocolObligations r.
Proof.
  apply (http_decides_like_grpc None (call_at 1800000100) service read_call.1 (bearer "root-token") None (read_report ∅)
    (answer_of revokedDecision read_call) root_identity).
  - exact read_call_ok.
  - reflexivity.
  - split; [apply claims_ok; vm_compute; reflexivity|]. split; [reflexivity|]. split; [vm_compute; reflexivity|reflexivity].
Defined.

(** A grant that is revoked and without any proof is refused over gRPC and
    allowed over HTTP: the HTTP endpoints look at neither. *)
Theorem http_ignores_revocation :
  (CheckAccess None (call_at 1800000300) revoke_call.1 (bearer "root-token") None (under_grant "42")).2 = Ok revokedDecision
  /\ (serve_decisions None 0 (1800000300 * nanosecond) (1800000300 * nanosecond) false false (gs_jwt revoke_call.1)
        "Bearer root-token" (gs_engine revoke_call.1)
        (Some (mkDecisionRequest "t" "" "READ" "file:report" (cr_Context (under_grant "42"))))).2
     = Respond 200 (BodyDecision DecisionAllow "permit-admin" []).
Proof. split; vm_compute; reflexivity. Qed.

(** Two statements in one text: both parse and compile, the handler publishes
    the text, and the tenant cannot be loaded any more. *)
Definition two_statements : string := permit_text +:+ permit_text.
Definition poisoned : Stores := (publish_outcome (mkStores (policy_db two_statements) None)).1.

Lemma published_text_loads_iff_single_witness : exists p node rest,
  find_policy (policy_db two_statements) "t" "p-1" = Ok p /\ ParseText (dbp_PolicyText p) = Some (node :: rest, [])
  /\ is_ok (compile_source (mkPolicySource "p-1" (dbp_PolicyText p))) = bool_decide (rest = [])
  /\ (rest <> [] -> forall seed b, GetTenantPolicyBundle seed true (st_db poisoned) "t" = Ok b ->
        is_ok (CompilePolicySet (pb_policies b)) = false).
Proof.
  apply (published_text_loads_iff_single (fun _ => Some "{}"%string) true "w-1"
    (mkFenceOutcomes TxCommitted true TxCommitted) TxCommitted (mkStores (policy_db two_statements) None) poisoned "t" "p-1" 2).
  vm_compute. reflexivity.
Defined.

Theorem publishing_poisons_the_tenant :
  (publish_outcome (mkStores (policy_db two_statements) None)).2 = Respond 200 (BodyPublished 2)
  /\ match GetTenantPolicyBundle 0 true (st_db poisoned) "t" with
     | Ok b => is_ok (CompilePolicySet (pb_policies b)) = false
     | Err _ => False
     end.
Proof. split; vm_compute; reflexivity. Qed.

(** ** Witnesses of the database *)

Definition published_db : Database := (publishPolicy TxCommitted (policy_db permit_text) "t" "p-1" "{}").1.
Definition deleted_db : Database := (deletePolicy TxLost published_db "t" "p-1").1.

Lemma storage_history : rtc storage_step (policy_db permit_text) deleted_db.
Proof.
  eapply rtc_l; [|eapply rtc_once].
  - eapply (step_publish TxCommitted _ "t" "p-1" "{}"). vm_compute. reflexivity.
  - eapply (step_delete TxLost _ "t" "p-1"). vm_compute. reflexivity.
Qed.

Lemma revision_identifies_bundle_witness : exists rev' es, db_tenants deleted_db !! "t"%string = Some rev' /\ 5 <= rev'
  /\ db_policy_events deleted_db = [] ++ es /\ pe_Revision <$> tenant_events "t" es = seqZ (5 + 1) (rev' - 5).
Proof.
  destruct (revision_identifies_bundle "t" (policy_db permit_text) deleted_db 5 storage_history)
    as (rev' & es & Hr & Hle & _ & He & Hs); [reflexivity|].
  exists rev', es. split; [exact Hr|]. split; [exact Hle|]. split; [exact He|exact Hs].
Defined.

Lemma published_policy_served_witness : exists p b, db_policies (policy_db permit_text) !! "p-1"%string = Some p /\ 2 = dbp_Version p + 1
  /\ GetTenantPolicyBundle 0 true published_db "t" = Ok b /\ pb_revision b = 5 + 1
  /\ mkPolicySource "p-1" (dbp_PolicyText p) ∈ pb_policies b
  /\ db_policy_events published_db = [] ++ [mkPolicyEvent "t" "p-1" "UPDATE" (5 + 1)].
Proof.
  apply (published_policy_served TxCommitted (policy_db permit_text) published_db "t" "p-1" "{}" 2 5 0).
  - vm_compute. reflexivity.
  - reflexivity.
Defined.

(** One grant is revoked before the replica reads the rows, one after. *)
Definition revoke_row (grant : string) : RevocationRecord :=
  mkRevRecord "t" grant "role:root" (1800000000 * nanosecond) (1800086400 * nanosecond).
Definition revoked_one : Database := (PersistRevocation TxCommitted (policy_db permit_text) (revoke_row "1")).1.
Definition revoked_two : Database := (PersistRevocation TxLost revoked_one (revoke_row "2")).1.

Lemma persist_step o db r : rtc storage_step db (PersistRevocation o db r).1.
Proof. apply rtc_once. eapply (step_revoke o db r). apply surjective_pairing. Qed.

Definition replica_history : list RevEvent :=
  watch_history 0 (1800000010 * nanosecond) (1800000020 * nanosecond) (policy_db permit_text) revoked_one revoked_two.

Lemma replica_misses_no_revocation_witness :
  (IsRevoked (1800000040 * nanosecond) (rev_run golden_manager replica_history) "t" "1").2 = true
  /\ (IsRevoked (1800000040 * nanosecond) (rev_run golden_manager replica_history) "t" "2").2 = true.
Proof.
  split; [apply (replica_misses_no_revocation 0 (1800000010 * nanosecond) (1800000020 * nanosecond) (1800000040 * nanosecond)
             golden_manager (policy_db permit_text) revoked_one revoked_two (revoke_row "1"))
         |apply (replica_misses_no_revocation 0 (1800000010 * nanosecond) (1800000020 * nanosecond) (1800000040 * nanosecond)
             golden_manager (policy_db permit_text) revoked_one revoked_two (revoke_row "2"))];
    first [exact (map_Forall_empty _) | apply persist_step | reflexivity
          | apply (bool_decide_unpack _); vm_compute; exact I].
Defined.

(** A publication through the fence. *)
Definition fenced_state : FenceSystem * FenceRow :=
  let st := (publish_outcome service_stores).1 in
  let e := default (mkErp "erp-1" ∅ ∅) (st_erp st) in
  (mkFenceSystem (st_db st) e ∅ ∅, default (mkFenceRow 0 false None) (erp_policies e !! "t"%string)).
Lemma fenced_run : rtc fence_step (mkFenceSystem (policy_db permit_text) (mkErp "erp-1" ∅ ∅) ∅ ∅) fenced_state.1.
Proof.
  eapply rtc_l; [eapply (fence_enter TxCommitted _ _ _ _ "w-1" "t"); [reflexivity| |vm_compute; reflexivity]|].
  { intros t' row Hrow. cbn [erp_policies] in Hrow. by rewrite lookup_empty in Hrow. }
  eapply rtc_l; [eapply (fence_mutate _ _ _ _ "w-1" "t" _ true); [vm_compute; reflexivity|]|].
  { apply (mut_publish "t" TxCommitted _ "p-1" "{}" published_db (Ok 2)). vm_compute. reflexivity. }
  eapply rtc_l; [eapply (fence_read _ _ _ _ "w-1" "t" 6); vm_compute; reflexivity|].
  eapply rtc_l; [eapply (fence_leave TxCommitted _ _ _ _ "w-1" "t" 6); vm_compute; reflexivity|].
  vm_compute. apply rtc_refl.
Qed.

(** A node that is behind, or holds no index, bootstraps first; the writer passes after it. *)
Definition bootstrapped : ErpDatabase :=
  (EnsureERPPolicyRevision TxCommitted (mkErp "erp-1" ∅ ∅) "t" 0).1.
Lemma ready_fence_is_current_witness :
  (db_tenants (fs_db fenced_state.1) !! "t"%string = Some (fence_revision fenced_state.2)
   /\ forall token ph, fs_writers fenced_state.1 !! token <> Some ("t"%string, ph))
  /\ (db_tenants (policy_db permit_text) !! "t"%string = Some 0
      \/ exists cur, ({["t"%string := (0, Some 5)]} : gmap string (Z * option Z)) !! "t"%string = Some (0, cur) /\ cur <> Some 0).
Proof.
  split.
  - destruct (ready_fence_is_current (policy_db permit_text) (mkErp "erp-1" ∅ ∅) fenced_state.1 "t" fenced_state.2) as [Hw Hc].
    + reflexivity.
    + exact fenced_run.
    + vm_compute. reflexivity.
    + vm_compute. reflexivity.
    + split; [|exact Hw]. destruct Hc as [Hc|(cur & Hb & _)]; [exact Hc|]. vm_compute in Hb. discriminate Hb.
  - refine (proj2 (ready_fence_is_current (policy_db permit_text) (mkErp "erp-1" ∅ ∅)
      (mkFenceSystem (policy_db permit_text) bootstrapped ∅ {["t"%string := (0, Some 5)]}) "t" (mkFenceRow 0 true None) _ _ _ _)).
    + reflexivity.
    + apply rtc_once. refine (fence_ensure TxCommitted (policy_db permit_text) (mkErp "erp-1" ∅ ∅) ∅ ∅ "t" 0 bootstrapped (Ok tt) _).
      reflexivity.
    + vm_compute. reflexivity.
    + reflexivity.
Defined.

Lemma stale_decision_opens_fence_witness :
  erp_policies bootstrapped !! "t"%string = Some (mkFenceRow 0 true None).
Proof.
  apply (stale_decision_opens_fence (policy_db permit_text) (mkErp "erp-1" ∅ ∅) "t" 5 0).
  - vm_compute. reflexivity.
  - lia.
  - reflexivity.
Defined.

Definition typo_update : Stores * result StorageError unit :=
  UpdatePolicy "w-1" (mkFenceOutcomes TxCommitted true TxCommitted) TxCommitted service_stores "t" "p-2" permit_text.

Lemma missing_policy_blocks_tenant_witness : typo_update.2 = Err (PublicationFenced ErrPolicyNotFound)
  /\ exists st' err, UpdatePolicy "w-2" (mkFenceOutcomes TxCommitted true TxCommitted) TxCommitted typo_update.1 "t" "p-1" permit_text
       = (st', Err err).
Proof.
  destruct (missing_policy_blocks_tenant (mkErp "erp-1" ∅ ∅) (policy_db permit_text) "t" "p-2" permit_text "w-1" "w-2"
    typo_update.1 typo_update.2) as [Hr Hall].
  - reflexivity.
  - reflexivity.
  - vm_compute. reflexivity.
  - split; [exact Hr|].
    destruct (Hall (mkFenceOutcomes TxCommitted true TxCommitted) TxCommitted "p-1"%string permit_text) as (st' & err & Hu & _).
    exists st', err. exact Hu.
Defined.

(** ** Flaws of the services *)

(** Go's maps are ranged over in any order; this one depends on the run. *)
Definition either_range : RangeOrder.
Proof.
  refine {| range_keys := fun seed s => if Nat.even seed then elements s else reverse (elements s) |}.
  intros seed s. destruct (Nat.even seed); [done|apply reverse_Permutation].
Defined.

(** Two claims of one token fall on one attribute, and the order of a map
    decides which one the policies see. *)
Theorem claims_collide : let claims := {["role"%string := ClaimString "clerk"; "principal.role"%string := ClaimString "admin"]} in
  (fun seed => ctx_get (mergeTrustedPrincipalContext (H := either_range) seed ∅ (claim_attributes claims)) "principal.role")
    <$> [0; 1]%nat = ["clerk"; "admin"]%string
  \/ (fun seed => ctx_get (mergeTrustedPrincipalContext (H := either_range) seed ∅ (claim_attributes claims)) "principal.role")
    <$> [0; 1]%nat = ["admin"; "clerk"]%string.
Proof. vm_compute. first [left; reflexivity|right; reflexivity]. Qed.

(** While carol is being answered, a publication takes her right away. *)
Definition withdraw (e : EngineWithGC) : EngineWithGC :=
  match gc_UpdateTenantPoliciesWithRevision 0 7 e "t" sample_policies sample_pairs 6 with Ok e' => e' | Err _ => e end.
Definition racing_call : CallEnv (TxOutcome * TxOutcome) :=
  let c := call_at 1800000100 in
  mkEnv _ (env_token c) (env_revocation c) (env_proof c) (env_engine c) 0 false false None (env_db c) withdraw (env_random c).

(** The capability names the revision read after the decision, at which the
    approval is refused, and verifies. *)
Theorem approval_names_a_refusing_revision :
  let issued := IssueApprovalCapability None racing_call service (bearer "carol-token") approval_request in
  (pc_IssuancePolicyRevision <$> to_option issued.2) = Some 6
  /\ (IssueApprovalCapability None (call_at 1800000100) issued.1 (bearer "carol-token") approval_request).2 = Err PermissionDenied
  /\ VerifyApprovalCapability (call_at 1800000200) issued.1 (bearer "carol-token") "t" (to_option issued.2) = Ok true.
Proof. split_and!; vm_compute; reflexivity. Qed.
