(* ===== verification/GoJson.v ===== *)
(** * Package [encoding/json]

    A document is read as runes: outside a string an invalid byte is an error
    as its replacement U+FFFD is, inside it is that replacement.  A number
    keeps its literal.  The members of an object stay in order, duplicates
    included; the target of [json.Unmarshal] decides what they mean. *)

From S2P Require Import Prelude GoStr GoCrypto GoTime.
From stdpp Require Import options.
Local Open Scope Z_scope.

Inductive json :=
| JNull
| JBool (b : bool)
| JNumber (literal : string)
| JString (s : string)
| JArray (l : list json)
| JObject (members : list (string * json)).

Definition rune_lit (s : string) : list Z := go_bytes s.

(** ** Writing: [json.Marshal] *)

(** Four lower-case hexadecimal digits. *)
Definition hex4 (r : Z) : list Z :=
  [hex_char (r / 4096 mod 16); hex_char (r / 256 mod 16); hex_char (r / 16 mod 16); hex_char (r mod 16)].

(** The characters that have an escape of one letter. *)
Definition short_escape (r : Z) : option Z :=
  if r =? 34 then Some 34 else if r =? 92 then Some 92 else if r =? 8 then Some 98 else if r =? 12 then Some 102
  else if r =? 10 then Some 110 else if r =? 13 then Some 114 else if r =? 9 then Some 116 else None.

(** [appendString] with [escapeHTML]: one rune or invalid byte of a string. *)
Definition escape_chunk (c : Z * list Z) : list Z :=
  let r := c.1 in
  match short_escape r with
  | Some e => [92; e]
  | None =>
      if (r <? 32) || (r =? 60) || (r =? 62) || (r =? 38) || (r =? 8232) || (r =? 8233) || negb (chunk_ok c)
      then 92 :: 117 :: hex4 r
      else [r]
  end.
Definition quote (s : string) : list Z := 34 :: (utf8_chunks (go_bytes s) ≫= escape_chunk) ++ [34].

Fixpoint join_runes (parts : list (list Z)) : list Z :=
  match parts with
  | [] => []
  | [p] => p
  | p :: ps => p ++ 44 :: join_runes ps
  end.

Fixpoint json_runes (v : json) : list Z :=
  match v with
  | JNull => rune_lit "null"
  | JBool true => rune_lit "true"
  | JBool false => rune_lit "false"
  | JNumber t => rune_lit t
  | JString s => quote s
  | JArray l => 91 :: join_runes (map json_runes l) ++ [93]
  | JObject kvs => 123 :: join_runes (map (fun kv => quote kv.1 ++ 58 :: json_runes kv.2) kvs) ++ [125]
  end.
Definition json_text (v : json) : string := string_of_runes (json_runes v).

Definition json_int (n : Z) : json := JNumber (FormatInt n).

(** A [map[string]string]: its keys are sorted. *)
Definition json_map (m : gmap string string) : json :=
  JObject ((fun k => (k, JString (default ""%string (m !! k)))) <$> sort_strings (map_to_list m).*1).

(** A member, and one with the option [omitempty]. *)
Definition str_member (k s : string) : list (string * json) := [(k, JString s)].
Definition opt_member (k s : string) : list (string * json) := if bool_decide (s = ""%string) then [] else [(k, JString s)].
Definition map_member (k : string) (m : option (gmap string string)) : list (string * json) :=
  match m with Some m => if bool_decide (m = ∅) then [] else [(k, json_map m)] | None => [] end.

(** ** Reading: [json.Unmarshal] *)

Definition json_space (r : Z) : bool := (r =? 32) || (r =? 9) || (r =? 10) || (r =? 13).
Definition skip_ws : list Z -> list Z := drop_while json_space.

Definition read_hex4 (a b c d : Z) : option Z :=
  w ← hex_value a; x ← hex_value b; y ← hex_value c; z ← hex_value d; Some (((w * 16 + x) * 16 + y) * 16 + z).
Definition unescape (e : Z) : option Z :=
  if e =? 34 then Some 34 else if e =? 92 then Some 92 else if e =? 47 then Some 47 else if e =? 98 then Some 8
  else if e =? 102 then Some 12 else if e =? 110 then Some 10 else if e =? 114 then Some 13 else if e =? 116 then Some 9
  else None.
Definition high_surrogate (r : Z) : bool := (55296 <=? r) && (r <=? 56319).
Definition low_surrogate (r : Z) : bool := (56320 <=? r) && (r <=? 57343).

(** The characters of a string up to its closing quote.  An escaped high
    surrogate joins an escaped low one; alone a surrogate is U+FFFD. *)
Fixpoint read_chars (rs : list Z) (acc : list Z) {struct rs} : option (string * list Z) :=
  match rs with
  | [] => None
  | r :: rs1 =>
      if r =? 34 then Some (string_of_runes (reverse acc), rs1)
      else if r <? 32 then None
      else if negb (r =? 92) then read_chars rs1 (r :: acc)
      else match rs1 with
           | [] => None
           | e :: rs2 =>
               if negb (e =? 117) then
                 match unescape e with Some c => read_chars rs2 (c :: acc) | None => None end
               else match rs2 with
                    | a :: b :: c :: d :: rs3 =>
                        match read_hex4 a b c d with
                        | None => None
                        | Some u =>
                            if high_surrogate u then
                              match rs3 with
                              | s :: t :: a' :: b' :: c' :: d' :: rs4 =>
                                  match (if (s =? 92) && (t =? 117) then read_hex4 a' b' c' d' else None) with
                                  | Some v => if low_surrogate v
                                              then read_chars rs4 (65536 + (u - 55296) * 1024 + (v - 56320) :: acc)
                                              else read_chars rs3 (rune_error :: acc)
                                  | None => read_chars rs3 (rune_error :: acc)
                                  end
                              | _ => read_chars rs3 (rune_error :: acc)
                              end
                            else read_chars rs3 ((if low_surrogate u then rune_error else u) :: acc)
                        end
                    | _ => None
                    end
           end
  end.

(** The literal of a number. *)
Definition read_fraction (rs : list Z) : option (list Z * list Z) :=
  match rs with
  | r :: rs1 => if r =? 46 then match span_digits rs1 with
                                | ([], _) => None
                                | (ds, rest) => Some (46 :: ds, rest)
                                end
                else Some ([], rs)
  | [] => Some ([], [])
  end.
Definition read_exponent (rs : list Z) : option (list Z * list Z) :=
  match rs with
  | r :: rs1 =>
      if (r =? 101) || (r =? 69) then
        let '(sign, rs2) := match rs1 with
                            | s :: rs2 => if (s =? 43) || (s =? 45) then ([s], rs2) else ([], rs1)
                            | [] => ([], [])
                            end in
        match span_digits rs2 with
        | ([], _) => None
        | (ds, rest) => Some (r :: sign ++ ds, rest)
        end
      else Some ([], rs)
  | [] => Some ([], [])
  end.
Definition read_number (rs : list Z) : option (string * list Z) :=
  let '(sign, rs1) := match rs with
                      | r :: rs' => if r =? 45 then ([45], rs') else ([], rs)
                      | [] => ([], [])
                      end in
  match rs1 with
  | [] => None
  | r :: rs2 =>
      if negb (is_digit_byte r) then None
      else
        let '(ds, rest) := if r =? 48 then ([48], rs2) else span_digits rs1 in
        '(f, rest1) ← read_fraction rest;
        '(e, rest2) ← read_exponent rest1;
        Some (of_bytes (sign ++ ds ++ f ++ e), rest2)
  end.

Fixpoint read_literal (word rs : list Z) : option (list Z) :=
  match word with
  | [] => Some rs
  | w :: word' => match rs with
                  | r :: rs' => if w =? r then read_literal word' rs' else None
                  | [] => None
                  end
  end.

(** The deepest nesting that is read. *)
Definition max_nesting : Z := 10000.

(** Every call consumes a rune or is followed by one that does. *)
Fixpoint read_value (fuel : nat) (depth : Z) (rs : list Z) {struct fuel} : option (json * list Z) :=
  match fuel with
  | O => None
  | S n =>
      match skip_ws rs with
      | [] => None
      | r :: rs1 =>
          if r =? 34 then '(s, rest) ← read_chars rs1 []; Some (JString s, rest)
          else if r =? 123 then
            if max_nesting <=? depth then None
            else match skip_ws rs1 with
                 | c :: rest => if c =? 125 then Some (JObject [], rest) else read_members n (depth + 1) (c :: rest) []
                 | [] => None
                 end
          else if r =? 91 then
            if max_nesting <=? depth then None
            else match skip_ws rs1 with
                 | c :: rest => if c =? 93 then Some (JArray [], rest) else read_elements n (depth + 1) (c :: rest) []
                 | [] => None
                 end
          else if r =? 110 then rest ← read_literal (rune_lit "ull") rs1; Some (JNull, rest)
          else if r =? 116 then rest ← read_literal (rune_lit "rue") rs1; Some (JBool true, rest)
          else if r =? 102 then rest ← read_literal (rune_lit "alse") rs1; Some (JBool false, rest)
          else '(t, rest) ← read_number (r :: rs1); Some (JNumber t, rest)
      end
  end
with read_members (fuel : nat) (depth : Z) (rs : list Z) (acc : list (string * json)) {struct fuel} :
    option (json * list Z) :=
  match fuel with
  | O => None
  | S n =>
      match skip_ws rs with
      | q :: rs1 =>
          if negb (q =? 34) then None
          else '(k, rest) ← read_chars rs1 [];
               match skip_ws rest with
               | c :: rs2 =>
                   if negb (c =? 58) then None
                   else '(v, rest1) ← read_value n depth rs2;
                        match skip_ws rest1 with
                        | e :: rs3 => if e =? 125 then Some (JObject (reverse ((k, v) :: acc)), rs3)
                                      else if e =? 44 then read_members n depth rs3 ((k, v) :: acc)
                                      else None
                        | [] => None
                        end
               | [] => None
               end
      | [] => None
      end
  end
with read_elements (fuel : nat) (depth : Z) (rs : list Z) (acc : list json) {struct fuel} : option (json * list Z) :=
  match fuel with
  | O => None
  | S n =>
      '(v, rest) ← read_value n depth rs;
      match skip_ws rest with
      | e :: rs1 => if e =? 93 then Some (JArray (reverse (v :: acc)), rs1)
                    else if e =? 44 then read_elements n depth rs1 (v :: acc)
                    else None
      | [] => None
      end
  end.

Definition json_parse (s : string) : option json :=
  let rs := runes_of s in
  '(v, rest) ← read_value (2 * length rs + 2) 0 rs;
  match skip_ws rest with [] => Some v | _ => None end.

(** The decoding of a string and of a map of strings: a null leaves the zero value. *)
Definition into_string (v : json) : option string :=
  match v with JString s => Some s | JNull => Some ""%string | _ => None end.
Fixpoint into_map (m : gmap string string) (kvs : list (string * json)) : option (gmap string string) :=
  match kvs with
  | [] => Some m
  | (k, v) :: kvs' => s ← into_string v; into_map (<[k := s]> m) kvs'
  end.
Definition into_string_map (v : json) : option (gmap string string) :=
  match v with
  | JNull => Some ∅
  | JObject kvs => into_map ∅ kvs
  | _ => None
  end.

(** [json.Unmarshal] into a [map[string]string]. *)
Definition unmarshal_map (s : string) : option (gmap string string) := json_parse s ≫= into_string_map.

(** ** Reading a struct *)

(** [foldName]: the letters of ASCII in upper case, with the two other runes that fold to one. *)
Definition fold_rune (r : Z) : Z :=
  if (97 <=? r) && (r <=? 122) then r - 32 else if r =? 383 then 83 else if r =? 8490 then 75 else r.
Definition fold_name (s : string) : list Z := fold_rune <$> runes_of s.
(** The field of a name: the exact one, else one that differs by case. *)
Definition field_of (names : list string) (k : string) : option string :=
  if bool_decide (k ∈ names) then Some k else list_find (fun n => fold_name n = fold_name k) names ≫= fun p => Some p.2.

(** Each decoder leaves the field when the value is null. *)
Definition into_str (old : string) (v : json) : option string :=
  match v with JString s => Some s | JNull => Some old | _ => None end.
Definition into_bool (old : bool) (v : json) : option bool :=
  match v with JBool b => Some b | JNull => Some old | _ => None end.
Definition into_int (old : Z) (v : json) : option Z :=
  match v with JNumber t => ParseInt t | JNull => Some old | _ => None end.
Definition ParseUint (s : string) : option Z :=
  n ← parse_digits (go_bytes s); if bool_decide (is_uint64 n) then Some n else None.
Definition into_uint (old : Z) (v : json) : option Z :=
  match v with JNumber t => ParseUint t | JNull => Some old | _ => None end.
(** A null empties the map, an object is added to it. *)
Definition into_map_field (old : option (gmap string string)) (v : json) : option (option (gmap string string)) :=
  match v with
  | JNull => Some None
  | JObject kvs => m ← into_map (default ∅ old) kvs; Some (Some m)
  | _ => None
  end.

(** A field after the members of an object, in their order; the fields are independent. *)
Definition decode_field {A} (names : list string) (k : string) (f : A -> json -> option A) (init : A)
    (kvs : list (string * json)) : option A :=
  foldl (fun acc kv => a ← acc; if bool_decide (field_of names kv.1 = Some k) then f a kv.2 else Some a) (Some init) kvs.
