(* ===== verification/GoJsonFacts.v ===== *)
(** * What is written is read back

    A JSON value with valid strings is the value its text parses to. *)

From S2P Require Import Prelude GoStr GoCrypto GoTime GoJson.
From stdpp Require Import options.
Local Open Scope Z_scope.

(** ** Runes *)

(** A Unicode scalar value. *)
Definition scalar (r : Z) : Prop := 0 <= r < 55296 \/ 57343 < r <= 1114111.

Lemma chunks_encode r l : scalar r -> utf8_chunks (encode_rune r ++ l) = (r, encode_rune r) :: utf8_chunks l.
Proof.
  intros Hr. unfold scalar in Hr. unfold encode_rune.
  destruct (Z.ltb_spec r 128) as [H1|H1].
  { replace (0 <=? r) with true by lia. cbn [andb app utf8_chunks]. by replace (r <? 128) with true by lia. }
  rewrite andb_false_r. destruct (Z.ltb_spec r 2048) as [H2|H2].
  { replace (0 <=? r) with true by lia. cbn [andb app].
    pose proof (Z.div_mod r 64 ltac:(lia)) as Hd. pose proof (Z.mod_pos_bound r 64 ltac:(lia)). set (q := r / 64) in *. set (m := r mod 64) in *.
    cbn [utf8_chunks]. replace (192 + q <? 128) with false by lia.
    replace (lead2 (192 + q)) with true by (unfold lead2; lia).
    replace (second_ok (192 + q) (128 + m)) with true.
    2: { unfold second_ok, is_cont. repeat case_match; lia. }
    cbn [andb]. unfold rune2. f_equal. f_equal. lia. }
  rewrite andb_false_r. replace ((r <? 0) || ((55296 <=? r) && (r <=? 57343)) || (1114111 <? r)) with false by lia.
  pose proof (Z.div_mod r 64 ltac:(lia)) as Hd. pose proof (Z.mod_pos_bound r 64 ltac:(lia)). set (q := r / 64) in *. set (m := r mod 64) in *.
  pose proof (Z.div_mod q 64 ltac:(lia)) as Hd2. pose proof (Z.mod_pos_bound q 64 ltac:(lia)).
  destruct (Z.ltb_spec r 65536) as [H3|H3].
  { assert (r / 4096 = q / 64) as -> by (unfold q; by rewrite Z.div_div by lia).
    set (p := q / 64) in *. set (m2 := q mod 64) in *.
    cbn [app utf8_chunks]. replace (224 + p <? 128) with false by lia.
    replace (lead2 (224 + p)) with false by (unfold lead2; lia). cbn [andb].
    replace (lead3 (224 + p)) with true by (unfold lead3; lia).
    replace (second_ok (224 + p) (128 + m2)) with true.
    2: { unfold second_ok, is_cont. repeat case_match; lia. }
    replace (is_cont (128 + m)) with true by (unfold is_cont; lia).
    cbn [andb]. unfold rune3. f_equal. f_equal. lia. }
  assert (r / 4096 = q / 64) as -> by (unfold q; by rewrite Z.div_div by lia).
  assert (r / 262144 = q / 64 / 64) as -> by (unfold q; by rewrite !Z.div_div by lia).
  set (p := q / 64) in *. set (m2 := q mod 64) in *.
  pose proof (Z.div_mod p 64 ltac:(lia)) as Hd3. pose proof (Z.mod_pos_bound p 64 ltac:(lia)). set (o := p / 64) in *. set (m3 := p mod 64) in *.
  cbn [app utf8_chunks]. replace (240 + o <? 128) with false by lia.
  replace (lead2 (240 + o)) with false by (unfold lead2; lia). cbn [andb].
  replace (lead3 (240 + o)) with false by (unfold lead3; lia). cbn [andb].
  replace (lead4 (240 + o)) with true by (unfold lead4; lia).
  replace (second_ok (240 + o) (128 + m3)) with true.
  2: { unfold second_ok, is_cont. repeat case_match; lia. }
  replace (is_cont (128 + m2)) with true by (unfold is_cont; lia).
  replace (is_cont (128 + m)) with true by (unfold is_cont; lia).
  cbn [andb]. unfold rune4. f_equal. f_equal. lia.
Qed.

Lemma runes_of_encode rs : Forall scalar rs -> runes_of (string_of_runes rs) = rs.
Proof.
  intros Hrs. unfold runes_of, string_of_runes.
  assert (Forall is_byte (mjoin (encode_rune <$> rs))) as Hb.
  { induction Hrs as [|r rs Hr _ IH]; csimpl; [constructor|]. apply Forall_app. split; [|done].
    unfold scalar, encode_rune in *. pose proof (Z.mod_pos_bound r 64 ltac:(lia)).
    pose proof (Z.mod_pos_bound (r / 64) 64 ltac:(lia)). pose proof (Z.mod_pos_bound (r / 4096) 64 ltac:(lia)).
    pose proof (Z.div_mod r 64 ltac:(lia)). pose proof (Z.div_mod r 4096 ltac:(lia)).
    pose proof (Z.div_mod r 262144 ltac:(lia)). pose proof (Z.mod_pos_bound r 4096 ltac:(lia)).
    pose proof (Z.mod_pos_bound r 262144 ltac:(lia)).
    repeat case_match; utf8_range; repeat constructor; unfold is_byte; lia. }
  rewrite go_bytes_of_bytes by done. clear Hb. induction Hrs as [|r rs Hr _ IH]; csimpl; [done|].
  rewrite chunks_encode by done. csimpl. by rewrite IH.
Qed.

Lemma chunks_scalar bs : Forall is_byte bs -> Forall (fun c => scalar c.1) (utf8_chunks bs).
Proof.
  remember (length bs) as n eqn:En. assert (length bs <= n)%nat as Hn by lia. clear En.
  revert bs Hn. induction n as [|n IH]; intros bs Hn Hb; [by destruct bs; simpl in *; [constructor|lia]|].
  destruct bs as [|b0 r0]; [constructor|]. apply Forall_cons in Hb as [Hb0 Hr0]. unfold is_byte in Hb0.
  assert (scalar rune_error) by (unfold scalar, rune_error; lia). cbn [length] in Hn.
  cbn [utf8_chunks]. destruct (Z.ltb_spec b0 128) as [Hlt|Hge].
  { constructor; [unfold scalar; cbn; lia|]. apply IH; [lia|done]. }
  destruct r0 as [|b1 r1]; [by repeat constructor|]. pose proof Hr0 as Hr0'. apply Forall_cons in Hr0 as [Hb1 Hr1].
  cbn [length] in Hn. destruct (lead2 b0 && second_ok b0 b1) eqn:E2.
  { apply andb_true_iff in E2 as [? ?]. utf8_range.
    constructor; [|apply IH; [lia|done]]. assert (128 <= b1 <= 191) by (second_range b1; lia).
    unfold scalar, rune2. cbn. lia. }
  destruct r1 as [|b2 r2]; [constructor; [done|apply IH; [cbn; lia|done]]|].
  pose proof Hr1 as Hr1'. apply Forall_cons in Hr1 as [Hb2 Hr2]. cbn [length] in Hn.
  destruct (lead3 b0 && second_ok b0 b1 && is_cont b2) eqn:E3.
  { apply andb_true_iff in E3 as [[? ?]%andb_true_iff ?]. utf8_range. constructor; [|apply IH; [lia|done]].
    assert (128 <= b1 <= 191 /\ (b0 = 237 -> b1 <= 159)) as [? ?] by (second_range b1; lia).
    unfold scalar, rune3. cbn. lia. }
  destruct r2 as [|b3 r3]; [constructor; [done|apply IH; [cbn; lia|done]]|].
  apply Forall_cons in Hr2 as [Hb3 Hr3]. cbn [length] in Hn.
  destruct (lead4 b0 && second_ok b0 b1 && is_cont b2 && is_cont b3) eqn:E4;
    [|constructor; [done|apply IH; [cbn; lia|done]]].
  apply andb_true_iff in E4 as [[[? ?]%andb_true_iff ?]%andb_true_iff ?]. utf8_range.
  constructor; [|apply IH; [lia|done]].
  assert (128 <= b1 <= 191 /\ (b0 = 240 -> 144 <= b1) /\ (b0 = 244 -> b1 <= 143)) as (? & ? & ?)
    by (second_range b1; lia).
  unfold scalar, rune4. cbn. lia.
Qed.

Lemma string_chunks_scalar s : Forall (fun c => scalar c.1) (utf8_chunks (go_bytes s)).
Proof. apply chunks_scalar, go_bytes_is_byte. Qed.

(** ** Strings *)

Lemma hex_nibble d : 0 <= d < 16 -> hex_value (hex_char d) = Some d /\ 48 <= hex_char d < 103.
Proof.
  intros Hd. assert (forallb (fun d => bool_decide (hex_value (hex_char d) = Some d) && (48 <=? hex_char d) && (hex_char d <? 103))
    (seqZ 0 16) = true) as H by by vm_compute.
  rewrite forallb_forall in H. specialize (H d). rewrite <- list_elem_of_In, elem_of_seqZ in H.
  specialize (H ltac:(lia)). rewrite !andb_true_iff, bool_decide_eq_true in H. split; [apply H|lia].
Qed.

Lemma read_hex4_hex4 r : 0 <= r < 65536 ->
  match hex4 r with [a; b; c; d] => read_hex4 a b c d = Some r | _ => False end.
Proof.
  intros Hr. unfold hex4, read_hex4.
  pose proof (Z.mod_pos_bound (r / 4096) 16 ltac:(lia)). pose proof (Z.mod_pos_bound (r / 256) 16 ltac:(lia)).
  pose proof (Z.mod_pos_bound (r / 16) 16 ltac:(lia)). pose proof (Z.mod_pos_bound r 16 ltac:(lia)).
  destruct (hex_nibble (r / 4096 mod 16)) as [-> _]; [done|]. destruct (hex_nibble (r / 256 mod 16)) as [-> _]; [done|].
  destruct (hex_nibble (r / 16 mod 16)) as [-> _]; [done|]. destruct (hex_nibble (r mod 16)) as [-> _]; [done|].
  csimpl. f_equal. rewrite (Z.mod_small (r / 4096)).
  2: { split; [apply Z.div_pos; lia|apply Z.div_lt_upper_bound; lia]. }
  pose proof (Z.div_mod r 16 ltac:(lia)) as D1. pose proof (Z.div_mod (r / 16) 16 ltac:(lia)) as D2.
  pose proof (Z.div_mod (r / 256) 16 ltac:(lia)) as D3.
  assert (r / 256 = r / 16 / 16) as E1 by (by rewrite Z.div_div by lia).
  assert (r / 4096 = r / 256 / 16) as E2 by (by rewrite Z.div_div by lia). rewrite E1 in *. lia.
Qed.

Lemma unescape_short r e : short_escape r = Some e -> unescape e = Some r /\ (e =? 117) = false.
Proof. unfold short_escape. intros Hs. repeat case_match; simplify_eq; utf8_range; by subst. Qed.

Lemma read_escaped c l acc : scalar c.1 -> (chunk_ok c = false -> c.1 = rune_error) ->
  read_chars (escape_chunk c ++ l) acc = read_chars l (c.1 :: acc).
Proof.
  destruct c as [r bs]. cbn [fst]. intros Hr Hbad. unfold escape_chunk. cbn [fst].
  destruct (short_escape r) as [e|] eqn:Es.
  { apply unescape_short in Es as [Hu Hne]. cbn. by rewrite Hne, Hu. }
  assert (r <> 34 /\ r <> 92) as [H34 H92] by (unfold short_escape in Es; repeat case_match; utf8_range; done).
  destruct (_ || _) eqn:Eu.
  - assert (0 <= r < 65536 /\ high_surrogate r = false /\ low_surrogate r = false) as (Hlt & Hh & Hl).
    { unfold scalar, high_surrogate, low_surrogate in *.
      destruct (chunk_ok (r, bs)); [|rewrite Hbad by done; unfold rune_error; lia]. lia. }
    pose proof (read_hex4_hex4 r Hlt) as Hx. unfold hex4 in *. cbn [app read_chars]. cbn [Z.eqb Z.ltb Z.compare Pos.compare Pos.compare_cont Pos.eqb negb].
    by rewrite Hx, Hh, Hl.
  - cbn [app read_chars]. replace (r =? 34) with false by lia. replace (r <? 32) with false by lia.
    by replace (r =? 92) with false by lia.
Qed.

Lemma chunk_bad bs : Forall (fun c => chunk_ok c = false -> c.1 = rune_error) (utf8_chunks bs).
Proof.
  apply Forall_forall. intros c _ Hc. unfold chunk_ok in Hc. apply negb_false_iff, andb_true_iff in Hc as [Hc _]. lia.
Qed.

Lemma read_quoted_acc cs l acc : Forall (fun c => scalar c.1) cs -> Forall (fun c => chunk_ok c = false -> c.1 = rune_error) cs ->
  read_chars ((cs ≫= escape_chunk) ++ 34 :: l) acc = Some (string_of_runes (reverse acc ++ cs.*1), l).
Proof.
  intros Hs. revert acc. induction Hs as [|c cs Hc _ IH]; intros acc Hb; csimpl.
  - by rewrite app_nil_r.
  - apply Forall_cons in Hb as [Hb Hbs]. rewrite <- app_assoc, read_escaped by done. rewrite IH by done.
    by rewrite reverse_cons, <- app_assoc.
Qed.

(** The value of a string after it was written and read. *)
Lemma read_quote s l : exists t, quote s ++ l = 34 :: t /\ read_chars t [] = Some (string_of_runes (runes_of s), l).
Proof.
  exists ((utf8_chunks (go_bytes s) ≫= escape_chunk) ++ 34 :: l). split.
  - unfold quote. cbn [app]. by rewrite <- app_assoc.
  - rewrite read_quoted_acc; [done|apply string_chunks_scalar|apply chunk_bad].
Qed.

(** ** Values *)

Section JsonInd.
Variable P : json -> Prop.
Hypothesis Hnull : P JNull.
Hypothesis Hbool : forall b, P (JBool b).
Hypothesis Hnumber : forall t, P (JNumber t).
Hypothesis Hstring : forall s, P (JString s).
Hypothesis Harray : forall l, Forall P l -> P (JArray l).
Hypothesis Hobject : forall kvs, Forall (fun kv => P kv.2) kvs -> P (JObject kvs).

Fixpoint json_induction (v : json) : P v :=
  match v with
  | JNull => Hnull
  | JBool b => Hbool b
  | JNumber t => Hnumber t
  | JString s => Hstring s
  | JArray l => Harray l ((fix go l := match l return Forall P l with
                            | [] => Forall_nil_2 _
                            | x :: l' => Forall_cons_2 _ _ _ (json_induction x) (go l')
                            end) l)
  | JObject kvs => Hobject kvs ((fix go l := match l return Forall (fun kv => P kv.2) l with
                            | [] => Forall_nil_2 _
                            | kv :: l' => Forall_cons_2 _ _ _ (json_induction kv.2) (go l')
                            end) kvs)
  end.
End JsonInd.

(** What may follow a number without becoming a part of it. *)
Definition stops (l : list Z) : Prop :=
  match l with
  | [] => True
  | r :: _ => is_digit_byte r = false /\ r <> 46 /\ r <> 101 /\ r <> 69
  end.

(** A literal that reads as itself. *)
Definition number_ok (t : string) : Prop :=
  (exists b bs, rune_lit t = b :: bs /\ (is_digit_byte b = true \/ b = 45)) /\ Forall (fun r => 0 <= r < 128) (rune_lit t)
  /\ forall l, stops l -> read_number (rune_lit t ++ l) = Some (t, l).

Fixpoint json_ok (v : json) : Prop :=
  match v with
  | JNull | JBool _ => True
  | JNumber t => number_ok t
  | JString s => utf8_valid s = true
  | JArray l => (fix go l := match l with [] => True | x :: l' => json_ok x /\ go l' end) l
  | JObject kvs => (fix go l := match l with
                                | [] => True
                                | kv :: l' => (utf8_valid kv.1 = true /\ json_ok kv.2) /\ go l'
                                end) kvs
  end.
Fixpoint json_size (v : json) : nat :=
  match v with
  | JArray l => S (list_sum (map (fun x => S (json_size x)) l))
  | JObject kvs => S (list_sum (map (fun kv => S (json_size kv.2)) kvs))
  | _ => 1
  end.
Fixpoint json_depth (v : json) : Z :=
  match v with
  | JArray l => 1 + fold_right (fun x d => Z.max (json_depth x) d) 0 l
  | JObject kvs => 1 + fold_right (fun kv d => Z.max (json_depth kv.2) d) 0 kvs
  | _ => 0
  end.

Lemma json_ok_array l : json_ok (JArray l) <-> Forall json_ok l.
Proof. induction l as [|x l IH]; simpl in *; [done|]. rewrite Forall_cons. tauto. Qed.
Lemma json_ok_object kvs : json_ok (JObject kvs) <-> Forall (fun kv => utf8_valid kv.1 = true /\ json_ok kv.2) kvs.
Proof. induction kvs as [|x l IH]; simpl in *; [done|]. rewrite Forall_cons. tauto. Qed.

Lemma skip_ws_cons r l : json_space r = false -> skip_ws (r :: l) = r :: l.
Proof. intros Hr. unfold skip_ws. simpl. by rewrite Hr. Qed.

Lemma read_number_start r : is_digit_byte r = true \/ r = 45 ->
  json_space r = false /\ r <> 34 /\ r <> 123 /\ r <> 91 /\ r <> 110 /\ r <> 116 /\ r <> 102 /\ 0 <= r < 128.
Proof. unfold is_digit_byte, json_space. lia. Qed.

(** The first character of a value is no space. *)
Lemma json_runes_head v : json_ok v -> exists r rs, json_runes v = r :: rs /\ json_space r = false /\ r <> 93 /\ r <> 125.
Proof.
  destruct v as [|b|t|s|l|kvs]; cbn [json_runes].
  - by eexists _, _.
  - destruct b; by eexists _, _.
  - intros ((r & rs & E & Hr) & _). rewrite E. apply read_number_start in Hr as Hs. exists r, rs.
    split; [done|]. split; [apply Hs|]. unfold is_digit_byte in Hr. lia.
  - unfold quote. by eexists _, _.
  - by eexists _, _.
  - by eexists _, _.
Qed.

(** White space between the parts of a text is passed over. *)
Definition spaces (ws : list Z) : Prop := Forall (fun r => json_space r = true) ws.

Lemma skip_ws_spaces ws l : spaces ws -> skip_ws (ws ++ l) = skip_ws l.
Proof. induction 1 as [|r ws Hr _ IH]; [done|]. unfold skip_ws in *. cbn [app drop_while]. by rewrite Hr. Qed.
Lemma stops_spaces ws r l : spaces ws -> stops (r :: l) -> stops (ws ++ r :: l).
Proof. intros [|c ws' Hc _]; [done|]. intros _. cbn. unfold json_space, is_digit_byte in *. lia. Qed.
Lemma skip_ws_idem l : skip_ws (skip_ws l) = skip_ws l.
Proof. induction l as [|r l IH]; [done|]. unfold skip_ws in *. cbn [drop_while]. destruct (json_space r) eqn:E; [done|]. cbn. by rewrite E. Qed.
Lemma read_value_spaces ws fuel depth l : spaces ws -> read_value fuel depth (ws ++ l) = read_value fuel depth l.
Proof. intros Hw. destruct fuel; [done|]. cbn [read_value]. by rewrite skip_ws_spaces. Qed.

(** A value is read from a text of it, whatever follows. *)
Definition reads_from (t : list Z) (v : json) : Prop := forall fuel depth l, (json_size v <= fuel)%nat -> depth + json_depth v <= max_nesting ->
  stops l -> read_value fuel depth (t ++ l) = Some (v, l).
Definition reads (v : json) : Prop := reads_from (json_runes v) v.

Lemma reads_from_spaces ws t v : spaces ws -> reads_from t v -> reads_from (ws ++ t) v.
Proof. intros Hw Ht fuel depth l Hf Hd Hs. rewrite <- app_assoc, read_value_spaces by done. by apply Ht. Qed.

(** The elements and the members of a text; [write] writes a value, [ws] is the space before the closing bracket and [pre] the one
    before the name of a member. *)
Section ReadParts.
Variables (write : json -> list Z) (pre ws : list Z).
Hypothesis Hpre : spaces pre.
Hypothesis Hws : spaces ws.

Lemma read_elements_join l : l <> [] -> Forall (fun x => reads_from (write x) x) l -> forall fuel depth rest acc,
  (list_sum (map (fun x => S (json_size x)) l) <= fuel)%nat ->
  depth + fold_right (fun x d => Z.max (json_depth x) d) 0 l <= max_nesting ->
  read_elements fuel depth (join_runes (map write l) ++ ws ++ 93 :: rest) acc = Some (JArray (reverse acc ++ l), rest).
Proof using Hws.
  induction l as [|x l IH]; [done|]. intros _ [Hx Hl]%Forall_cons fuel depth rest acc Hf Hd.
  cbn [map list_sum fold_right] in *. destruct fuel as [|n]; [lia|]. cbn [read_elements].
  destruct l as [|y l'].
  - cbn [map join_runes]. rewrite Hx; [|lia|lia|by apply stops_spaces]. cbn [mbind option_bind].
    rewrite skip_ws_spaces, skip_ws_cons by done. cbn [Z.eqb Pos.eqb]. by rewrite reverse_cons.
  - cbn [map]. assert (forall p ps, join_runes (write x :: p :: ps) = write x ++ 44 :: join_runes (p :: ps)) as -> by done.
    rewrite <- app_assoc. cbn [app]. rewrite Hx by (done || lia || by cbn; lia). cbn [mbind option_bind]. rewrite skip_ws_cons by done.
    cbn [Z.eqb Pos.eqb].
    specialize (IH ltac:(done) Hl n depth rest (x :: acc)). cbn [map] in IH. rewrite IH by (cbn in *; lia).
    by rewrite reverse_cons, <- app_assoc.
Qed.

Definition member_text (kv : string * json) : list Z := pre ++ quote kv.1 ++ 58 :: write kv.2.

Lemma read_members_join kvs : kvs <> [] -> Forall (fun kv => utf8_valid kv.1 = true /\ reads_from (write kv.2) kv.2) kvs ->
  forall fuel depth rest acc,
  (list_sum (map (fun kv => S (json_size kv.2)) kvs) <= fuel)%nat ->
  depth + fold_right (fun kv d => Z.max (json_depth kv.2) d) 0 kvs <= max_nesting ->
  read_members fuel depth (join_runes (map member_text kvs) ++ ws ++ 125 :: rest) acc = Some (JObject (reverse acc ++ kvs), rest).
Proof using Hws Hpre.
  induction kvs as [|[k v] kvs IH]; [done|]. intros _ [[Hk Hx] Hl]%Forall_cons fuel depth rest acc Hf Hd.
  cbn [map list_sum fold_right fst snd] in *. destruct fuel as [|n]; [lia|]. cbn [read_members].
  assert (forall tail, exists t, skip_ws (member_text (k, v) ++ tail) = 34 :: t /\ read_chars t [] = Some (k, 58 :: write v ++ tail)) as Hm.
  { intros tail. unfold member_text. cbn [fst snd]. rewrite <- !app_assoc, skip_ws_spaces by done. cbn [app].
    destruct (read_quote k (58 :: write v ++ tail)) as (t & -> & Ht). exists t. rewrite skip_ws_cons by done. by rewrite Ht, utf8_roundtrip. }
  destruct kvs as [|y l'].
  - cbn [map join_runes]. destruct (Hm (ws ++ 125 :: rest)) as (t & -> & Ht).
    cbn [Z.eqb Pos.eqb negb]. rewrite Ht. cbn [mbind option_bind]. rewrite skip_ws_cons by done. cbn [Z.eqb Pos.eqb negb].
    rewrite Hx; [|lia|lia|by apply stops_spaces]. cbn [mbind option_bind]. rewrite skip_ws_spaces, skip_ws_cons by done.
    cbn [Z.eqb Pos.eqb]. by rewrite reverse_cons.
  - cbn [map]. assert (forall p ps, join_runes (member_text (k, v) :: p :: ps) = member_text (k, v) ++ 44 :: join_runes (p :: ps)) as -> by done.
    rewrite <- app_assoc. cbn [app]. destruct (Hm (44 :: join_runes (member_text y :: map member_text l') ++ ws ++ 125 :: rest)) as (t & -> & Ht).
    cbn [Z.eqb Pos.eqb negb]. rewrite Ht. cbn [mbind option_bind]. rewrite skip_ws_cons by done. cbn [Z.eqb Pos.eqb negb].
    rewrite Hx by (done || lia || by cbn; lia). cbn [mbind option_bind]. rewrite skip_ws_cons by done.
    cbn [Z.eqb Pos.eqb].
    specialize (IH ltac:(done) Hl n depth rest ((k, v) :: acc)). cbn [map] in IH. rewrite IH by (cbn in *; lia).
    by rewrite reverse_cons, <- app_assoc.
Qed.

(** The first element has no closing bracket before it. *)
Lemma reads_array_text l : l <> [] -> Forall (fun x => reads_from (write x) x) l ->
  Forall (fun x => forall tail, exists c t, skip_ws (write x ++ tail) = c :: t /\ c <> 93) l ->
  reads_from (91 :: join_runes (map write l) ++ ws ++ [93]) (JArray l).
Proof using Hws.
  intros Hne IH Hhead fuel depth rest Hf Hd _. destruct fuel as [|n]; [cbn in Hf; lia|].
  cbn [json_size json_depth] in Hf, Hd.
  assert (0 <= fold_right (fun x d => Z.max (json_depth x) d) 0 l) by (clear; induction l; cbn; lia).
  cbn [app read_value]. rewrite skip_ws_cons by done. cbn [Z.eqb Pos.eqb]. replace (max_nesting <=? depth) with false by lia.
  rewrite <- !app_assoc. cbn [app].
  assert (exists c t, skip_ws (join_runes (map write l) ++ ws ++ 93 :: rest) = c :: t /\ c <> 93) as (c & t & Et & Hc).
  { destruct l as [|x l]; [done|]. apply Forall_cons in Hhead as [Hx _]. cbn [map].
    destruct (map write l); cbn [join_runes]; rewrite <- ?app_assoc; apply Hx. }
  rewrite Et. replace (c =? 93) with false by lia.
  assert (forall m r acc, read_elements m r (skip_ws (join_runes (map write l) ++ ws ++ 93 :: rest)) acc
            = read_elements m r (join_runes (map write l) ++ ws ++ 93 :: rest) acc) as Hskip.
  { intros [|m] r acc; [done|]. cbn [read_elements]. destruct m; [done|]. cbn [read_value]. by rewrite skip_ws_idem. }
  rewrite <- Et, Hskip. rewrite (read_elements_join l); [done|done|done|lia|lia].
Qed.

Lemma reads_object_text kvs : kvs <> [] -> Forall (fun kv => utf8_valid kv.1 = true /\ reads_from (write kv.2) kv.2) kvs ->
  reads_from (123 :: join_runes (map member_text kvs) ++ ws ++ [125]) (JObject kvs).
Proof using Hws Hpre.
  intros Hne IH fuel depth rest Hf Hd _. destruct fuel as [|n]; [cbn in Hf; lia|].
  cbn [json_size json_depth] in Hf, Hd.
  assert (0 <= fold_right (fun kv d => Z.max (json_depth kv.2) d) 0 kvs) by (clear; induction kvs; cbn; lia).
  cbn [app read_value]. rewrite skip_ws_cons by done. cbn [Z.eqb Pos.eqb]. replace (max_nesting <=? depth) with false by lia.
  rewrite <- !app_assoc. cbn [app].
  assert (exists t, skip_ws (join_runes (map member_text kvs) ++ ws ++ 125 :: rest) = 34 :: t) as (t & Et).
  { destruct kvs as [|[k v] kvs]; [done|]. cbn [map]. unfold member_text at 1, quote. cbn [fst snd].
    destruct (map member_text kvs); cbn [join_runes]; rewrite <- ?app_assoc, skip_ws_spaces by done; cbn [app]; rewrite skip_ws_cons by done; by eexists. }
  rewrite Et. cbn [Z.eqb Pos.eqb].
  assert (forall m r acc, read_members m r (skip_ws (join_runes (map member_text kvs) ++ ws ++ 125 :: rest)) acc
            = read_members m r (join_runes (map member_text kvs) ++ ws ++ 125 :: rest) acc) as Hskip.
  { intros [|m] r acc; [done|]. cbn [read_members]. by rewrite skip_ws_idem. }
  rewrite <- Et, Hskip. rewrite (read_members_join kvs); [done|done|done|lia|lia].
Qed.
End ReadParts.

Lemma read_literal_app w l : read_literal w (w ++ l) = Some l.
Proof. induction w as [|c w IH]; [done|]. cbn [app read_literal]. by rewrite Z.eqb_refl. Qed.

Lemma no_spaces : spaces [].
Proof. constructor. Qed.

Lemma reads_object kvs : Forall (fun kv => utf8_valid kv.1 = true /\ reads kv.2) kvs -> reads (JObject kvs).
Proof.
  intros IH. destruct kvs as [|kv kvs].
  { intros [|n] depth l Hf Hd _; [cbn in Hf; lia|]. cbn [json_runes map join_runes app read_value]. rewrite skip_ws_cons by done.
    cbn [Z.eqb Pos.eqb]. cbn in Hd. replace (max_nesting <=? depth) with false by lia. by rewrite skip_ws_cons. }
  exact (reads_object_text json_runes [] [] no_spaces no_spaces (kv :: kvs) ltac:(done) IH).
Qed.

Lemma reads_array l : Forall json_ok l -> Forall reads l -> reads (JArray l).
Proof.
  intros Hok IH. destruct l as [|x l].
  { intros [|n] depth l Hf Hd _; [cbn in Hf; lia|]. cbn [json_runes map join_runes app read_value]. rewrite skip_ws_cons by done.
    cbn [Z.eqb Pos.eqb]. cbn in Hd. replace (max_nesting <=? depth) with false by lia. by rewrite skip_ws_cons. }
  apply (reads_array_text json_runes [] no_spaces (x :: l)); [done|exact IH|].
  eapply Forall_impl; [exact Hok|]. intros y Hy tail. destruct (json_runes_head y Hy) as (c & rs & -> & Hc & Hne & _).
  exists c, (rs ++ tail). split; [|done]. by apply skip_ws_cons.
Qed.

Lemma json_reads v : json_ok v -> reads v.
Proof.
  induction v as [|b|t|s|l IH|kvs IH] using json_induction; intros Hok.
  - intros [|n] depth l Hf _ _; [cbn in Hf; lia|]. cbn [json_runes read_value]. change (rune_lit "null") with (110 :: rune_lit "ull").
    cbn [app]. rewrite skip_ws_cons by done. cbn [Z.eqb Pos.eqb]. by rewrite read_literal_app.
  - intros [|n] depth l Hf _ _; [cbn in Hf; lia|]. destruct b; cbn [json_runes read_value].
    + change (rune_lit "true") with (116 :: rune_lit "rue"). cbn [app]. rewrite skip_ws_cons by done.
      cbn [Z.eqb Pos.eqb]. by rewrite read_literal_app.
    + change (rune_lit "false") with (102 :: rune_lit "alse"). cbn [app]. rewrite skip_ws_cons by done.
      cbn [Z.eqb Pos.eqb]. by rewrite read_literal_app.
  - intros [|n] depth l Hf _ Hs; [cbn in Hf; lia|]. destruct Hok as ((r & rs & E & Hr) & _ & Hread).
    specialize (Hread l Hs). cbn [json_runes read_value]. rewrite E in *. cbn [app] in *.
    apply read_number_start in Hr as (Hsp & ? & ? & ? & ? & ? & ? & _). rewrite skip_ws_cons by done.
    replace (r =? 34) with false by lia. replace (r =? 123) with false by lia. replace (r =? 91) with false by lia.
    replace (r =? 110) with false by lia. replace (r =? 116) with false by lia. replace (r =? 102) with false by lia.
    by rewrite Hread.
  - intros [|n] depth l Hf _ _; [cbn in Hf; lia|]. cbn [json_runes read_value].
    destruct (read_quote s l) as (t & -> & Ht). rewrite skip_ws_cons by done. cbn [Z.eqb Pos.eqb]. rewrite Ht.
    cbn [mbind option_bind]. by rewrite utf8_roundtrip.
  - apply json_ok_array in Hok. apply reads_array; [done|]. rewrite Forall_forall in *. naive_solver.
  - apply json_ok_object in Hok. apply reads_object. rewrite Forall_forall in *. intros kv Hin.
    destruct (Hok kv Hin). split; [done|]. by apply IH.
Qed.

(** ** Documents *)

Lemma ascii_scalar r : 0 <= r < 128 -> scalar r.
Proof. unfold scalar. lia. Qed.

Lemma ascii_scalars l : forallb (fun r => (0 <=? r) && (r <? 128)) l = true -> Forall scalar l.
Proof.
  induction l as [|r l IH]; cbn [forallb]; [constructor|]. intros [[H1%Z.leb_le H2%Z.ltb_lt]%andb_true_iff H]%andb_true_iff.
  constructor; [apply ascii_scalar; lia|by apply IH].
Qed.

Lemma hex4_scalar r : Forall scalar (hex4 r).
Proof.
  assert (forall x, scalar (hex_char (x mod 16))) as H.
  { intros x. pose proof (Z.mod_pos_bound x 16 ltac:(lia)). destruct (hex_nibble (x mod 16)) as [_ ?]; [done|]. apply ascii_scalar. lia. }
  unfold hex4. rewrite !Forall_cons. by repeat split.
Qed.

Lemma quote_scalar s : Forall scalar (quote s).
Proof.
  unfold quote. constructor; [by apply ascii_scalar|]. apply Forall_app. split; [|by apply ascii_scalars].
  induction (string_chunks_scalar s) as [|c cs Hc _ IH]; csimpl; [constructor|]. apply Forall_app. split; [|done].
  unfold escape_chunk. destruct (short_escape c.1) as [e|] eqn:E.
  - assert (0 <= e < 128) by (unfold short_escape in E; repeat case_match; simplify_eq; lia).
    apply Forall_cons; split; [by apply ascii_scalar|]. apply Forall_cons; split; [by apply ascii_scalar|done].
  - destruct (_ || _); [|by apply Forall_singleton]. do 2 (constructor; [by apply ascii_scalar|]). apply hex4_scalar.
Qed.

Lemma join_scalar ps : Forall (Forall scalar) ps -> Forall scalar (join_runes ps).
Proof.
  induction 1 as [|p ps Hp Hps IH]; [constructor|]. cbn [join_runes]. destruct ps as [|q qs]; [done|].
  apply Forall_app. split; [done|]. constructor; [by apply ascii_scalar|done].
Qed.

Lemma json_runes_scalar v : json_ok v -> Forall scalar (json_runes v).
Proof.
  induction v as [|b|t|s|l IH|kvs IH] using json_induction; intros Hok; cbn [json_runes].
  - by apply ascii_scalars.
  - destruct b; by apply ascii_scalars.
  - destruct Hok as (_ & Hok & _). eapply Forall_impl; [exact Hok|apply ascii_scalar].
  - apply quote_scalar.
  - apply json_ok_array in Hok. constructor; [by apply ascii_scalar|]. apply Forall_app.
    split; [|by apply ascii_scalars]. apply join_scalar. apply Forall_forall.
    intros p (x & -> & Hx)%list_elem_of_fmap. rewrite Forall_forall in IH, Hok. apply IH; [done|]. by apply Hok.
  - apply json_ok_object in Hok. constructor; [by apply ascii_scalar|]. apply Forall_app.
    split; [|by apply ascii_scalars]. apply join_scalar. apply Forall_forall.
    intros p (kv & -> & Hx)%list_elem_of_fmap. rewrite Forall_forall in IH, Hok. apply Forall_app. split; [apply quote_scalar|].
    constructor; [by apply ascii_scalar|]. apply IH; [done|]. by apply Hok.
Qed.

Lemma join_length {A} (f : A -> list Z) (g : A -> nat) l : Forall (fun x => g x <= length (f x))%nat l ->
  (list_sum (map (fun x => S (g x)) l) <= S (length (join_runes (map f l))))%nat.
Proof.
  induction l as [|x l IH]; [cbn; lia|]. intros [Hx Hl]%Forall_cons. specialize (IH Hl). cbn [map join_runes].
  change (list_sum (?a :: ?b)) with (a + list_sum b)%nat. destruct l as [|y l']; [cbn in *; lia|].
  cbn [map] in *. rewrite length_app. cbn [length]. lia.
Qed.

Lemma json_size_runes v : json_ok v -> (json_size v <= length (json_runes v))%nat.
Proof.
  induction v as [|b|t|s|l IH|kvs IH] using json_induction; intros Hok; cbn [json_runes json_size].
  - cbn. lia.
  - destruct b; cbn; lia.
  - destruct Hok as ((r & rs & E & _) & _). rewrite E. cbn. lia.
  - unfold quote. cbn. lia.
  - apply json_ok_array in Hok. cbn [length]. rewrite length_app. cbn [length].
    enough (list_sum (map (fun x => S (json_size x)) l) <= S (length (join_runes (map json_runes l))))%nat by lia.
    apply join_length. rewrite Forall_forall in IH, Hok |- *. intros x Hx. apply IH; [done|]. by apply Hok.
  - apply json_ok_object in Hok. cbn [length]. rewrite length_app. cbn [length].
    change (fun kv0 : string * json => quote kv0.1 ++ 58 :: json_runes kv0.2) with (member_text json_runes []).
    enough (list_sum (map (fun kv => S (json_size kv.2)) kvs) <= S (length (join_runes (map (member_text json_runes []) kvs))))%nat by lia.
    apply join_length. rewrite Forall_forall in IH, Hok |- *. intros x Hx.
    assert (json_size x.2 <= length (json_runes x.2))%nat by (apply IH; [done|]; by apply Hok).
    unfold member_text. cbn [app]. rewrite length_app. cbn [length]. lia.
Qed.

(** A value whose strings are valid UTF-8 is read back from its text. *)
Lemma json_round_trip v : json_ok v -> json_depth v <= max_nesting -> json_parse (json_text v) = Some v.
Proof.
  intros Hok Hd. unfold json_parse, json_text. rewrite runes_of_encode by by apply json_runes_scalar.
  pose proof (json_reads v Hok (2 * length (json_runes v) + 2)%nat 0 []) as Hr. rewrite app_nil_r in Hr.
  rewrite Hr; [done| |lia|done]. pose proof (json_size_runes v Hok). lia.
Qed.

(** ** Maps of strings *)

Lemma into_map_entries (f : string -> string) ks : forall m, exists m',
  into_map m ((fun k => (k, JString (f k))) <$> ks) = Some m'
  /\ forall k, m' !! k = if decide (k ∈ ks) then Some (f k) else m !! k.
Proof.
  induction ks as [|k0 ks IH]; intros m.
  { exists m. split; [done|]. intros k. rewrite decide_False by apply not_elem_of_nil. done. }
  cbn [fmap list_fmap into_map into_string mbind option_bind]. destruct (IH (<[k0 := f k0]> m)) as (m' & Hm & Hl).
  exists m'. split; [done|]. intros k. rewrite Hl. destruct (decide (k ∈ ks)) as [Hk|Hk].
  { by rewrite decide_True by by right. }
  destruct (decide (k = k0)) as [->|Hne]; [by rewrite lookup_insert_eq, decide_True by left|].
  rewrite lookup_insert_ne by done. rewrite decide_False; [done|]. by intros [?|?]%elem_of_cons.
Qed.

Lemma json_map_ok (m : gmap string string) : map_Forall (fun k v => utf8_valid k = true /\ utf8_valid v = true) m ->
  json_ok (json_map m).
Proof.
  intros Hm. apply json_ok_object, Forall_fmap, Forall_forall. intros k Hk. unfold sort_strings in Hk.
  rewrite merge_sort_Permutation in Hk. apply list_elem_of_fmap in Hk as ([k' v] & -> & Hk%elem_of_map_to_list).
  cbn [compose fst snd json_ok]. rewrite Hk. by apply (Hm k' v).
Qed.

Lemma json_map_depth m : json_depth (json_map m) <= max_nesting.
Proof.
  unfold json_map. cbn [json_depth]. unfold max_nesting. assert (forall ks : list string,
    fold_right (fun (kv : string * json) d => Z.max (json_depth kv.2) d) 0
      ((fun k => (k, JString (default ""%string (m !! k)))) <$> ks) = 0) as ->; [|lia].
  intros ks. induction ks as [|k ks IH]; [done|]. cbn. by rewrite IH.
Qed.

Lemma unmarshal_map_text (m : gmap string string) :
  map_Forall (fun k v => utf8_valid k = true /\ utf8_valid v = true) m -> unmarshal_map (json_text (json_map m)) = Some m.
Proof.
  intros Hm. unfold unmarshal_map. rewrite json_round_trip; [|by apply json_map_ok|apply json_map_depth].
  cbn [mbind option_bind]. unfold json_map, into_string_map.
  destruct (into_map_entries (fun k => default ""%string (m !! k)) (sort_strings (map_to_list m).*1) ∅) as (m' & -> & Hl).
  f_equal. apply map_eq. intros k. rewrite Hl. destruct (decide _) as [Hk|Hk]; unfold sort_strings in Hk;
    rewrite merge_sort_Permutation in Hk.
  - apply list_elem_of_fmap in Hk as ([k' v] & -> & Hk%elem_of_map_to_list). cbn [fst]. by rewrite Hk.
  - rewrite lookup_empty. destruct (m !! k) as [v|] eqn:E; [|done]. exfalso. apply Hk.
    apply list_elem_of_fmap. exists (k, v). split; [done|]. by apply elem_of_map_to_list.
Qed.

Lemma drop_while_in {A} (f : A -> bool) x l : x ∈ l -> f x = false -> x ∈ drop_while f l.
Proof.
  induction l as [|y l IH]; intros Hx Hf; [done|]. cbn [drop_while]. destruct (f y) eqn:E; [|done].
  apply elem_of_cons in Hx as [->|Hx]; [congruence|by apply IH].
Qed.

(** The text of an object is not blank. *)
Lemma object_not_blank kvs : trim_space (json_text (JObject kvs)) <> ""%string.
Proof.
  unfold trim_space, json_text, string_of_runes. cbn [json_runes fmap list_fmap]. change (encode_rune 123) with [123].
  generalize (encode_rune <$> join_runes (map (fun kv : string * json => quote kv.1 ++ 58 :: json_runes kv.2) kvs) ++ [125]).
  intros rs. change (mjoin ([123] :: rs)) with (123 :: mjoin rs).
  change (go_bytes (of_bytes (123 :: mjoin rs))) with (123 :: go_bytes (of_bytes (mjoin rs))).
  cbn [utf8_chunks Z.ltb Z.compare Pos.compare Pos.compare_cont]. generalize (utf8_chunks (go_bytes (of_bytes (mjoin rs)))).
  intros cs. set (c := (123, [123])). assert (c ∈ trim_by (fun c => unicode_is_space c.1) (c :: cs)) as Hc.
  { unfold trim_by. apply elem_of_reverse, drop_while_in; [|done]. apply elem_of_reverse, drop_while_in; [by left|done]. }
  apply list_elem_of_split in Hc as (l1 & l2 & ->). rewrite fmap_app, join_app. cbn [fmap list_fmap c snd mjoin list_join].
  intros H%(f_equal go_bytes). apply (f_equal length) in H. rewrite length_go_bytes, length_of_bytes, length_app in H.
  cbn in H. lia.
Qed.

(** ** The members of a record, one at a time *)

Lemma decode_skip {A} names k (f : A -> json -> option A) init k' v kvs : bool_decide (field_of names k' = Some k) = false ->
  decode_field names k f init ((k', v) :: kvs) = decode_field names k f init kvs.
Proof. intros Hk. unfold decode_field. cbn [foldl fst mbind option_bind]. by rewrite Hk. Qed.

Lemma decode_take {A} names k (f : A -> json -> option A) init k' v a kvs : bool_decide (field_of names k' = Some k) = true ->
  f init v = Some a -> decode_field names k f init ((k', v) :: kvs) = decode_field names k f a kvs.
Proof. intros Hk Hv. unfold decode_field. cbn [foldl fst mbind option_bind]. rewrite Hk. cbn [snd]. by rewrite Hv. Qed.

Lemma decode_fail {A} names k (f : A -> json -> option A) init k' v kvs : bool_decide (field_of names k' = Some k) = true ->
  f init v = None -> decode_field names k f init ((k', v) :: kvs) = None.
Proof.
  intros Hk Hv. unfold decode_field. cbn [foldl fst mbind option_bind]. rewrite Hk. cbn [snd]. rewrite Hv.
  induction kvs as [|kv kvs IH]; [done|exact IH].
Qed.

(** Passes the members whose names are other fields. *)
Ltac decode_skips := repeat rewrite decode_skip by (vm_compute; reflexivity).
