(* ===== verification/GoDuration.v ===== *)
(** * Durations ([time.ParseDuration])

    A duration is an int64 number of nanoseconds.  The integers of the parser
    are uint64, with its overflow tests; the part after a decimal point goes
    through float64, computed here in binary64 with the Standard Library's
    [SpecFloat] (53 bits, exponents below 1024). *)

From Stdlib Require Import SpecFloat.
From S2P Require Import Prelude GoStr GoTime.
From stdpp Require Import options.
Local Open Scope Z_scope.

(** ** float64 *)

Definition float_of_Z (z : Z) : spec_float := binary_normalize 53 1024 z 0 false.
Definition float_mul : spec_float -> spec_float -> spec_float := SFmul 53 1024.
Definition float_div : spec_float -> spec_float -> spec_float := SFdiv 53 1024.

(** The conversion of a non-negative float64 to uint64: truncation. *)
Definition trunc_float (f : spec_float) : Z :=
  match f with
  | S754_finite false m e => if 0 <=? e then Z.shiftl (Z.pos m) e else Z.pos m / 2 ^ (- e)
  | _ => 0
  end.

(** ** The parser *)

Definition two63 : Z := 2 ^ 63.

(** [leadingInt]: the digits in front, [None] when they exceed 2^63. *)
Fixpoint leading_int (x : Z) (bs : list Z) : option (Z * list Z) :=
  match bs with
  | b :: bs' =>
      if is_digit_byte b then
        if two63 / 10 <? x then None
        else let x' := x * 10 + (b - 48) in if two63 <? x' then None else leading_int x' bs'
      else Some (x, bs)
  | [] => Some (x, [])
  end.

(** [leadingFraction]: the digits after the point, those that would overflow
    left out; the value, the power of ten under it and the rest. *)
Fixpoint leading_fraction (x scale : Z) (overflow : bool) (bs : list Z) : Z * Z * list Z :=
  match bs with
  | b :: bs' =>
      if is_digit_byte b then
        if overflow then leading_fraction x scale true bs'
        else if (two63 - 1) / 10 <? x then leading_fraction x scale true bs'
        else let y := x * 10 + (b - 48) in
             if two63 <? y then leading_fraction x scale true bs' else leading_fraction y (scale * 10) false bs'
      else (x, scale, bs)
  | [] => (x, scale, [])
  end.

(** [unitMap]; the two spellings of the micro sign are U+00B5 and U+03BC. *)
Definition unit_of (u : list Z) : option Z :=
  if bool_decide (u = [110; 115]) then Some 1
  else if bool_decide (u = [117; 115] \/ u = [194; 181; 115] \/ u = [206; 188; 115]) then Some 1000
  else if bool_decide (u = [109; 115]) then Some 1000000
  else if bool_decide (u = [115]) then Some 1000000000
  else if bool_decide (u = [109]) then Some 60000000000
  else if bool_decide (u = [104]) then Some 3600000000000
  else None.

Definition unit_byte (b : Z) : bool := negb ((b =? 46) || is_digit_byte b).
Fixpoint span_unit (bs : list Z) : list Z * list Z :=
  match bs with
  | b :: bs' => if unit_byte b then let '(u, r) := span_unit bs' in (b :: u, r) else ([], bs)
  | [] => ([], [])
  end.

(** The nanoseconds of a number [v] and a fraction [f/scale] of a unit. *)
Definition unit_value (v f scale unit : Z) : option Z :=
  if two63 / unit <? v then None
  else
    let v := v * unit in
    if 0 <? f then
      let v := v + trunc_float (float_mul (float_of_Z f) (float_div (float_of_Z unit) (float_of_Z scale))) in
      if two63 <? v then None else Some v
    else Some v.

(** The optional point and the digits after it, and whether there was one. *)
Definition duration_fraction (bs : list Z) : Z * Z * bool * list Z :=
  match bs with
  | 46 :: r => let '(f, scale, r') := leading_fraction 0 1 false r in (f, scale, bool_decide (length r' <> length r), r')
  | _ => (0, 1, false, bs)
  end.

(** One turn of the loop: a number with its unit. *)
Definition duration_part (bs : list Z) : option (Z * list Z) :=
  '(v, bs1) ← leading_int 0 bs;
  let pre := bool_decide (length bs1 <> length bs) in
  let '(f, scale, post, bs2) := duration_fraction bs1 in
  if negb (pre || post) then None
  else
    let '(u, bs3) := span_unit bs2 in
    match u with
    | [] => None
    | _ => unit ← unit_of u; n ← unit_value v f scale unit; Some (n, bs3)
    end.

(** The loop; every turn consumes a byte. *)
Fixpoint duration_parts (fuel : nat) (d : Z) (bs : list Z) : option Z :=
  match bs with
  | [] => Some d
  | _ =>
      match fuel with
      | O => None
      | S fuel' =>
          '(v, bs') ← duration_part bs;
          let d' := to_uint64 (d + v) in if two63 <? d' then None else duration_parts fuel' d' bs'
      end
  end.

Definition strip_sign (bs : list Z) : bool * list Z :=
  match bs with
  | 45 :: r => (true, r)
  | 43 :: r => (false, r)
  | _ => (false, bs)
  end.

Definition ParseDuration (s : string) : option Z :=
  let '(neg, bs) := strip_sign (go_bytes s) in
  if bool_decide (bs = [48]) then Some 0
  else match bs with
  | [] => None
  | _ =>
      d ← duration_parts (length bs) 0 bs;
      if neg then Some (to_int64 (- to_int64 d))
      else if two63 - 1 <? d then None else Some d
  end.

Example duration_ex1 : ParseDuration "1h30m" = Some 5400000000000.
Proof. reflexivity. Qed.
Example duration_ex2 : ParseDuration "1.1s" = Some 1100000000.
Proof. vm_compute. reflexivity. Qed.
Example duration_ex3 : ParseDuration "0.3333333333333333333h" = Some 1200000000000.
Proof. vm_compute. reflexivity. Qed.
Example duration_ex4 : ParseDuration "-.5s" = Some (-500000000).
Proof. vm_compute. reflexivity. Qed.
Example duration_ex5 : ParseDuration "9223372036854775808ns" = None.
Proof. reflexivity. Qed.
Example duration_ex6 : ParseDuration "-9223372036854775808ns" = Some (- 2 ^ 63).
Proof. reflexivity. Qed.
Example duration_ex7 : ParseDuration "10" = None /\ ParseDuration "" = None /\ ParseDuration "+0" = Some 0.
Proof. by repeat split. Qed.
(** These are the values of the tests of the package [time]. *)
Example duration_ex8 : ParseDuration "0.830103483285477580700h" = Some 2988372539827
  /\ ParseDuration "39h9m14.425s" = Some 140954425000000 /\ ParseDuration "0.100000000000000000000h" = Some 360000000000.
Proof. vm_compute. by repeat split. Qed.

(** The sum of two halves of the range wraps to zero. *)
Example duration_ex9 : ParseDuration "9223372036854775808ns9223372036854775808ns1s" = Some 1000000000.
Proof. reflexivity. Qed.

(** ** Lemmas *)

Lemma trunc_float_nonneg f : 0 <= trunc_float f.
Proof.
  destruct f as [| | |[] m e]; cbn; try lia. destruct (Z.leb_spec 0 e).
  - apply Z.shiftl_nonneg. lia.
  - apply Z.div_pos; [lia|]. apply Z.pow_pos_nonneg; lia.
Qed.

Lemma unit_of_pos u unit : unit_of u = Some unit -> 0 < unit.
Proof. unfold unit_of. intros H. repeat case_match; simplify_eq; lia. Qed.

Lemma leading_int_range bs : forall x v r, 0 <= x <= two63 -> leading_int x bs = Some (v, r) -> 0 <= v <= two63.
Proof.
  induction bs as [|b bs IH]; intros x v r Hx H; cbn [leading_int] in H; [by simplify_eq|].
  destruct (is_digit_byte b) eqn:Hb; [|by simplify_eq]. unfold is_digit_byte in Hb.
  destruct (_ <? x); [done|]. destruct (Z.ltb_spec two63 (x * 10 + (b - 48))); [done|].
  eapply IH; [|done]. lia.
Qed.

Lemma unit_value_nonneg v f scale unit n : 0 <= v -> 0 < unit -> unit_value v f scale unit = Some n -> 0 <= n.
Proof.
  unfold unit_value. intros Hv Hu H. pose proof (trunc_float_nonneg (float_mul (float_of_Z f) (float_div (float_of_Z unit) (float_of_Z scale)))).
  repeat case_match; simplify_eq; nia.
Qed.

Lemma duration_part_nonneg bs n r : duration_part bs = Some (n, r) -> 0 <= n.
Proof.
  unfold duration_part. destruct (leading_int 0 bs) as [[v bs1]|] eqn:E; cbn [mbind option_bind]; [|done].
  apply leading_int_range in E; [|unfold two63; lia]. destruct (duration_fraction bs1) as [[[f scale] post] bs2].
  destruct (negb _); [done|]. destruct (span_unit bs2) as [[|c u] bs3]; [done|].
  destruct (unit_of (c :: u)) as [unit|] eqn:Eu; cbn [mbind option_bind]; [|done]. apply unit_of_pos in Eu.
  destruct (unit_value v f scale unit) as [m|] eqn:Ev; cbn [mbind option_bind]; [|done]. intros [= -> ->].
  eapply unit_value_nonneg; [| |exact Ev]; lia.
Qed.

Lemma duration_parts_range fuel : forall d bs n, 0 <= d <= two63 -> duration_parts fuel d bs = Some n -> 0 <= n <= two63.
Proof.
  induction fuel as [|fuel IH]; intros d [|b bs] n Hd H; cbn [duration_parts] in H; try by simplify_eq.
  destruct (duration_part (b :: bs)) as [[v bs']|] eqn:E; cbn [mbind option_bind] in H; [|done].
  apply duration_part_nonneg in E. cbv zeta in H.
  destruct (Z.ltb_spec two63 (to_uint64 (d + v))); [done|]. eapply IH; [|done]. unfold to_uint64 in *.
  pose proof (Z.mod_pos_bound (d + v) (2 ^ 64) ltac:(lia)). lia.
Qed.

(** A parsed duration is an int64. *)
Lemma ParseDuration_range s d : ParseDuration s = Some d -> is_int64 d.
Proof.
  unfold ParseDuration. destruct (strip_sign _) as [neg bs]. case_bool_decide; [intros [= <-]; by vm_compute|].
  destruct bs as [|b bs]; [done|]. destruct (duration_parts _ 0 (b :: bs)) as [d0|] eqn:E; cbn [mbind option_bind]; [|done].
  apply duration_parts_range in E; [|unfold two63; lia]. unfold two63 in *. destruct neg; [intros [= <-]; apply to_int64_range|].
  destruct (Z.ltb_spec (2 ^ 63 - 1) d0); [done|]. intros [= <-]. unfold is_int64, min_int64, max_int64. lia.
Qed.
