(* ===== verification/ConfigFacts.v ===== *)
(** * Theorems about the configuration *)

From S2P Require Import Prelude GoStr GoDuration GoJson GoJsonFacts IntText Config.
From stdpp Require Import options.
Local Open Scope Z_scope.

(** ** Ranges *)

Lemma getEnvInt_range env key d n : is_int64 d -> getEnvInt env key d = Some n -> is_int64 n.
Proof. unfold getEnvInt. intros Hd H. case_bool_decide; [by simplify_eq|]. by eapply ParseInt_range. Qed.
Lemma getEnvDuration_range env key d n : is_int64 d -> getEnvDuration env key d = Some n -> is_int64 n.
Proof. unfold getEnvDuration. intros Hd H. case_bool_decide; [by simplify_eq|]. by eapply ParseDuration_range. Qed.

Lemma env_int_range env name d n : is_int64 d -> env_int env name d = Ok n -> is_int64 n.
Proof. unfold env_int, required_var. intros Hd H. case_match; simplify_eq. by eapply getEnvInt_range. Qed.
Lemma env_duration_range env name d n : is_int64 d -> env_duration env name d = Ok n -> is_int64 n.
Proof. unfold env_duration, required_var. intros Hd H. case_match; simplify_eq. by eapply getEnvDuration_range. Qed.

Ltac int64 := apply (bool_decide_unpack _); vm_compute; exact I.

Lemma load_server_ok env c : load_server env = Ok c ->
  is_int64 (HTTPPort c) /\ is_int64 (GRPCPort c) /\ 0 < EvaluationTimeout c <= max_int64
  /\ 1024 <= GRPCMaxReceiveBytes c <= max_int64 /\ 1024 <= GRPCMaxSendBytes c <= max_int64.
Proof.
  unfold load_server. intros H. inv_result.
  repeat match goal with E : env_int _ _ _ = Ok _ |- _ => apply env_int_range in E; [|int64]
    | E : env_duration _ _ _ = Ok _ |- _ => apply env_duration_range in E; [|int64] end.
  cbn [HTTPPort GRPCPort EvaluationTimeout GRPCMaxReceiveBytes GRPCMaxSendBytes].
  unfold is_int64 in *. lia.
Qed.

Lemma load_engine_ok `{LowerTable} env c : load_engine env = Ok c ->
  is_int64 (GCInterval c) /\ is_int64 (GCIdle c) /\ 0 < ReconcileInterval c <= max_int64.
Proof.
  unfold load_engine. intros H0. inv_result.
  repeat match goal with E : env_duration _ _ _ = Ok _ |- _ => apply env_duration_range in E; [|int64] end.
  cbn [GCInterval GCIdle ReconcileInterval]. unfold is_int64 in *. lia.
Qed.

Lemma load_audit_ok env c : load_audit env = Ok c ->
  0 < BatchSize c <= QueueCapacity c /\ QueueCapacity c <= max_int64 /\ 0 < FlushInterval c <= max_int64
  /\ 0 < WriteTimeout c <= max_int64 /\ 0 < SpillMaxBytes c <= max_int64
  /\ validateAuditArchiveConfig (ArchiveBucket c) (ArchivePrefix c) (ArchiveRegion c) (ArchiveExpectedBucketOwner c) = Ok tt.
Proof.
  unfold load_audit. cbv zeta. intros H. inv_result.
  repeat match goal with E : env_int _ _ _ = Ok _ |- _ => apply env_int_range in E; [|int64]
    | E : env_duration _ _ _ = Ok _ |- _ => apply env_duration_range in E; [|int64] end.
  match goal with E : required_var _ _ = Ok _ |- _ => unfold required_var in E; case_match; simplify_eq end.
  match goal with E : getEnvInt64 _ _ _ = Some _ |- _ => apply getEnvInt_range in E; [|int64] end.
  cbn [BatchSize QueueCapacity FlushInterval WriteTimeout SpillMaxBytes ArchiveBucket ArchivePrefix ArchiveRegion
       ArchiveExpectedBucketOwner].
  repeat match goal with u : unit |- _ => destruct u end.
  unfold is_int64 in *. repeat split; try lia. done.
Qed.

Lemma load_audit_trimmed env c : load_audit env = Ok c ->
  (exists b, ArchiveBucket c = trim_space b) /\ (exists p, ArchivePrefix c = trim_space p) /\ (exists r, ArchiveRegion c = trim_space r)
  /\ exists o, ArchiveExpectedBucketOwner c = trim_space o.
Proof.
  unfold load_audit. cbv zeta. intros H. inv_result. cbn [ArchiveBucket ArchivePrefix ArchiveRegion ArchiveExpectedBucketOwner].
  split_and!; by eexists.
Qed.

(** ** The search for reused key material *)

Definition used_keys (secrets : list string) : list string := base.filter (fun s => s <> ""%string) secrets.

Lemma register_all_ok secrets : forall used,
  is_Some (register_all used secrets) <-> NoDup (used_keys secrets) /\ forall s, s ∈ used_keys secrets -> s ∉ used.
Proof.
  unfold used_keys. induction secrets as [|s secrets IH]; intros used; cbn [register_all].
  { split; [|by eauto]. intros _. split; [constructor|]. intros s Hs. by apply not_elem_of_nil in Hs. }
  case_bool_decide as Hs.
  { rewrite filter_cons_False by tauto. apply IH. }
  rewrite filter_cons_True by done. case_bool_decide as Hu.
  { split; [by intros [? ?]|]. intros [_ H]. exfalso. apply (H s); [by left|done]. }
  rewrite IH, NoDup_cons. split.
  - intros [Hnd Hx]. assert (s ∉ base.filter (fun s => s <> ""%string) secrets) by (intros Hin; apply Hx in Hin; set_solver).
    split; [done|]. intros x [->|Hin]%elem_of_cons; [done|]. apply Hx in Hin. set_solver.
  - intros [[Hn Hnd] Hx]. split; [done|]. intros x Hin. assert (x <> s) by (by intros ->).
    assert (x ∉ used) by (apply Hx; by right). set_solver.
Qed.

(** All the secrets of a configuration. *)
Definition key_material `{RangeOrder} (sec : SecurityConfig) : list string :=
  JWTSecret sec :: range_values (DelegationKeys sec) ++ range_values (ApprovalKeys sec) ++ range_values (AuditKeys sec).

Lemma separation_ok `{RangeOrder} sec : validateSecurityKeySeparation sec = Ok tt <-> NoDup (used_keys (key_material sec)).
Proof.
  unfold validateSecurityKeySeparation. fold (key_material sec). split.
  - intros Hv. assert (is_Some (register_all ∅ (key_material sec))) as Hr by (destruct (register_all ∅ _); [by eexists|done]).
    by apply register_all_ok in Hr as [? _].
  - intros Hn. assert (is_Some (register_all ∅ (key_material sec))) as [u Hu].
    { apply register_all_ok. split; [done|]. set_solver. }
    by rewrite Hu.
Qed.

Lemma used_keys_all secrets : Forall (fun s => s <> ""%string) secrets -> used_keys secrets = secrets.
Proof.
  unfold used_keys. induction 1 as [|s secrets Hs _ IH]; [done|]. by rewrite filter_cons_True, IH.
Qed.

(** ** What the checks of a key ring establish *)

Lemma approval_ring_ok active keys u : validateApprovalKeyring active keys = Ok u ->
  is_Some (keys !! active) /\ map_Forall approval_entry_ok keys.
Proof. unfold validateApprovalKeyring. intros H. inv_result. bool_to_prop. done. Qed.
Lemma audit_ring_ok active keys u : validateAuditKeyring active keys = Ok u ->
  is_Some (keys !! active) /\ map_Forall audit_key_ok keys.
Proof. unfold validateAuditKeyring. intros H. inv_result. bool_to_prop. done. Qed.
Lemma delegation_ring_ok sec u : validateProductionDelegationKeyring sec = Ok u ->
  DelegationKeyringExplicit sec = true /\ is_Some (DelegationKeys sec !! DelegationActiveKeyID sec)
  /\ map_Forall (fun _ secret => 32 <= go_len secret) (DelegationKeys sec).
Proof. unfold validateProductionDelegationKeyring. intros H. inv_result. bool_to_prop. eauto. Qed.

Lemma long_not_empty s : 32 <= go_len s -> s <> ""%string.
Proof. by intros H ->. Qed.

Lemma load_ok `{LowerTable, RangeOrder} env cfg : Load env = Ok cfg ->
  load_server env = Ok (cfg_Server cfg) /\ load_engine env = Ok (cfg_Engine cfg) /\ load_audit env = Ok (cfg_Audit cfg)
  /\ load_security env = Ok (cfg_Security cfg) /\ validateSecurityKeySeparation (cfg_Security cfg) = Ok tt
  /\ validateProductionConfig cfg = Ok tt.
Proof. unfold Load. cbv zeta. intros H1. inv_result. repeat match goal with u : unit |- _ => destruct u end. done. Qed.

Lemma range_long `{RangeOrder} (m : gmap string string) :
  (forall m, range_values m ≡ₚ (map_to_list m).*2) -> map_Forall (fun _ s => 32 <= go_len s) m ->
  Forall (fun s => s <> ""%string) (range_values m).
Proof.
  intros Horder Hm. rewrite (Horder m). apply Forall_forall. intros s ([k v] & -> & Hs%elem_of_map_to_list)%list_elem_of_fmap.
  apply long_not_empty. exact (Hm k v Hs).
Qed.

Lemma range_elem `{RangeOrder} (m : gmap string string) s :
  (forall m, range_values m ≡ₚ (map_to_list m).*2) -> s ∈ range_values m <-> exists k, m !! k = Some s.
Proof.
  intros Horder. rewrite (Horder m), list_elem_of_fmap. setoid_rewrite <- elem_of_map_to_list. split.
  - intros ([k v] & -> & Hk). by exists k.
  - intros [k Hk]. by exists (k, s).
Qed.

Lemma load_security_ok env sec : load_security env = Ok sec -> 0 < ApprovalTTL sec <= 24 * hour.
Proof.
  unfold load_security. cbv zeta. intros H. repeat (inv_result; match goal with p : Keyring |- _ => destruct p as [[? ?] ?] end).
  inv_result. bool_to_prop. cbn [ApprovalTTL]. lia.
Qed.

(** ** Theorems *)

(** Whatever the environment, a configuration that loads is inside its bounds: positive timeouts, message limits of at
    least 1024 bytes, a batch no larger than the queue, a positive quota, an approval lifetime of at most 24 hours, and every
    number in 64 bits. *)
Theorem loaded_config_in_bounds `{LowerTable, RangeOrder} (env : Environment) (cfg : Config) :
  Load env = Ok cfg ->
  let sv := cfg_Server cfg in let au := cfg_Audit cfg in let en := cfg_Engine cfg in
  is_int64 (HTTPPort sv) /\ is_int64 (GRPCPort sv) /\ 0 < EvaluationTimeout sv <= max_int64
  /\ 1024 <= GRPCMaxReceiveBytes sv <= max_int64 /\ 1024 <= GRPCMaxSendBytes sv <= max_int64
  /\ is_int64 (GCInterval en) /\ is_int64 (GCIdle en) /\ 0 < ReconcileInterval en <= max_int64
  /\ 0 < BatchSize au <= QueueCapacity au /\ QueueCapacity au <= max_int64
  /\ 0 < FlushInterval au <= max_int64 /\ 0 < WriteTimeout au <= max_int64 /\ 0 < SpillMaxBytes au <= max_int64
  /\ 0 < ApprovalTTL (cfg_Security cfg) <= 24 * hour.
Proof.
  intros (Hs%load_server_ok & He%load_engine_ok & Ha%load_audit_ok & Hsec & _)%load_ok. cbv zeta.
  apply load_security_ok in Hsec. destruct Ha as (? & ? & ? & ? & ? & _). tauto.
Qed.

(** What the checks of a production configuration establish. *)
Definition production_checked `{LowerTable, RangeOrder} (cfg : Config) : Prop :=
  let sec := cfg_Security cfg in
  32 <= go_len (JWTSecret sec) /\ JWTSecret sec <> developmentJWTSecret
  /\ map_Forall (fun _ s => 32 <= go_len s) (DelegationKeys sec) /\ is_Some (DelegationKeys sec !! DelegationActiveKeyID sec)
  /\ map_Forall (fun _ s => 32 <= go_len s) (ApprovalKeys sec) /\ is_Some (ApprovalKeys sec !! ApprovalActiveKeyID sec)
  /\ map_Forall (fun _ s => go_len s = 32) (AuditKeys sec) /\ is_Some (AuditKeys sec !! AuditActiveKeyID sec)
  /\ DelegationKeyringExplicit sec && ApprovalKeyringExplicit sec && AuditKeyringExplicit sec = true
  /\ NoDup (key_material sec)
  /\ blank (TLSCertFile sec) || blank (TLSKeyFile sec) || blank (TLSCAFile sec) = false
  /\ ArchiveBucket (cfg_Audit cfg) <> ""%string
  /\ (blank (JWTIssuer sec) = false /\ JWTIssuer sec <> "standalone-policy-engine-dev"%string)
  /\ (blank (JWTAudience sec) = false /\ JWTAudience sec <> "standalone-policy-engine-pdp"%string)
  /\ URL (cfg_Database cfg) <> ""%string /\ contains (ToLower (URL (cfg_Database cfg))) "localhost" = false.

Lemma production_checks `{LowerTable, RangeOrder} (env : Environment) (cfg : Config) :
  (forall m, range_values m ≡ₚ (map_to_list m).*2) ->
  Load env = Ok cfg -> equal_fold (AppEnv cfg) "production" = true -> production_checked cfg.
Proof.
  intros Horder (_ & _ & _ & _ & Hsep & Hp)%load_ok Hprod. unfold production_checked. cbv zeta. unfold validateProductionConfig in Hp. rewrite Hprod in Hp.
  cbn [negb] in Hp. cbv zeta in Hp. inv_result. bool_to_prop.
  repeat match goal with E : validateApprovalKeyring _ _ = Ok _ |- _ => apply approval_ring_ok in E as [? Hap]
    | E : validateAuditKeyring _ _ = Ok _ |- _ => apply audit_ring_ok in E as [? Hau]
    | E : validateProductionDelegationKeyring _ = Ok _ |- _ => apply delegation_ring_ok in E as (Hexpl & ? & Hd) end.
  assert (map_Forall (fun _ s => 32 <= go_len s) (ApprovalKeys (cfg_Security cfg))) as Hap' by (intros k s Hk; by apply (Hap k s)).
  assert (map_Forall (fun _ s => go_len s = 32) (AuditKeys (cfg_Security cfg))) as Hau' by (intros k s Hk; by apply (Hau k s)).
  apply separation_ok in Hsep. rewrite used_keys_all in Hsep.
  - repeat (split; [done|]). rewrite Hexpl. repeat match goal with E : _ = true |- _ => rewrite E end.
    repeat match goal with E : blank _ = false |- _ => rewrite E end. done.
  - unfold key_material. constructor; [by apply long_not_empty|]. apply Forall_app. split; [by apply range_long|].
    apply Forall_app. split; [by apply range_long|]. apply range_long; [done|]. intros k s Hk. rewrite (Hau' k s Hk). lia.
Qed.

(** C28: A production configuration that loads has no built-in signing secret for tokens, keys of at least 32 bytes in every
    ring (audit keys of exactly 32), all three rings configured and their active keys present, every secret different from
    every other one across the four purposes, TLS files and an audit archive, an issuer and an audience that are not blank
    and not the built-in ones, and a database URL that is there and does not contain "localhost" in any case. *)
Theorem production_config_safe `{LowerTable, RangeOrder} (env : Environment) (cfg : Config) :
  (forall m, range_values m ≡ₚ (map_to_list m).*2) ->
  Load env = Ok cfg -> equal_fold (AppEnv cfg) "production" = true ->
  let sec := cfg_Security cfg in
  32 <= go_len (JWTSecret sec) /\ JWTSecret sec <> developmentJWTSecret
  /\ map_Forall (fun _ s => 32 <= go_len s) (DelegationKeys sec) /\ is_Some (DelegationKeys sec !! DelegationActiveKeyID sec)
  /\ map_Forall (fun _ s => 32 <= go_len s) (ApprovalKeys sec) /\ is_Some (ApprovalKeys sec !! ApprovalActiveKeyID sec)
  /\ map_Forall (fun _ s => go_len s = 32) (AuditKeys sec) /\ is_Some (AuditKeys sec !! AuditActiveKeyID sec)
  /\ DelegationKeyringExplicit sec && ApprovalKeyringExplicit sec && AuditKeyringExplicit sec = true
  /\ NoDup (key_material sec)
  /\ blank (TLSCertFile sec) || blank (TLSKeyFile sec) || blank (TLSCAFile sec) = false
  /\ ArchiveBucket (cfg_Audit cfg) <> ""%string
  /\ (blank (JWTIssuer sec) = false /\ JWTIssuer sec <> "standalone-policy-engine-dev"%string)
  /\ (blank (JWTAudience sec) = false /\ JWTAudience sec <> "standalone-policy-engine-pdp"%string)
  /\ URL (cfg_Database cfg) <> ""%string /\ contains (ToLower (URL (cfg_Database cfg))) "localhost" = false.
Proof. exact (production_checks env cfg). Qed.

Lemma json_map_not_blank m : blank (json_text (json_map m)) = false.
Proof. apply bool_decide_eq_false. apply object_not_blank. Qed.

Lemma explicit_keyring_text domain active (keys : gmap string string) : blank active = false ->
  map_Forall (fun k v => utf8_valid k = true /\ utf8_valid v = true) keys ->
  explicit_keyring domain active (json_text (json_map keys)) = Ok keys.
Proof. intros Ha Hk. unfold explicit_keyring. by rewrite Ha, json_map_not_blank, unmarshal_map_text. Qed.

(** A key ring written to the environment by [json.Marshal] is read back as it was, for each of the three rings: the active
    identifier, every key, and marked explicit. *)
Theorem keyring_round_trip (env : Environment) (active fallback : string) (keys : gmap string string) (raw : string) :
  blank active = false -> is_Some (keys !! active) ->
  map_Forall (fun k v => utf8_valid k = true /\ utf8_valid v = true) keys -> raw = json_text (json_map keys) ->
  (env !! "PDP_DELEGATION_ACTIVE_KID"%string = Some active -> env !! "PDP_DELEGATION_KEYS_JSON"%string = Some raw ->
     loadDelegationKeyring env fallback = Ok (active, keys, true))
  /\ (map_Forall approval_entry_ok keys ->
      env !! "PDP_APPROVAL_ACTIVE_KID"%string = Some active -> env !! "PDP_APPROVAL_KEYS_JSON"%string = Some raw ->
      loadApprovalKeyring env = Ok (active, keys, true))
  /\ (map_Forall audit_key_ok keys ->
      env !! "LOG_KEK_ACTIVE_KID"%string = Some active -> env !! "LOG_KEKS_JSON"%string = Some raw ->
      loadAuditKeyring env = Ok (active, keys, true)).
Proof.
  intros Ha Hin Hutf ->. split_and!.
  - intros H1 H2. unfold loadDelegationKeyring. rewrite H1, H2. cbn [default from_option id]. rewrite explicit_keyring_text by done.
    cbn [rbind]. rewrite (bool_decide_true (is_Some _)) by done. destruct Hin as [s Hs].
    rewrite bool_decide_false; [done|]. intros ->. by rewrite lookup_empty in Hs.
  - intros Hall H1 H2. unfold loadApprovalKeyring. rewrite H1, H2. cbn [default from_option id]. rewrite explicit_keyring_text by done.
    cbn [rbind]. unfold validateApprovalKeyring. rewrite Ha, (bool_decide_true (is_Some _)), (bool_decide_true (map_Forall _ _)) by done. done.
  - intros Hall H1 H2. unfold loadAuditKeyring. rewrite H1, H2. cbn [default from_option id]. rewrite explicit_keyring_text by done.
    cbn [rbind]. unfold validateAuditKeyring. rewrite Ha, (bool_decide_true (is_Some _)), (bool_decide_true (map_Forall _ _)) by done. done.
Qed.

(** ** Samples *)

(** A run-time that meets the entries in the order of the keys, and only ASCII letters. *)
#[local] Instance sample_order : RangeOrder := fun m => (map_to_list m).*2.
#[local] Instance sample_lower : LowerTable := fun r => r.

Definition one_key (k v : string) : string := json_text (json_map {[k := v]}).

(** A production environment; the rings hold the given keys. *)
Definition production_env (delegation approval audit : string) : Environment := list_to_map
  [("APP_ENV", "production"); ("DATABASE_URL", "postgres://pdp:pw@db.internal:5432/pdp");
   ("JWT_SECRET", "a-private-jwt-secret-of-32-bytes-or-more"); ("JWT_ISSUER", "https://issuer.example");
   ("JWT_AUDIENCE", "pdp"); ("PDP_DELEGATION_ACTIVE_KID", "d1"); ("PDP_DELEGATION_KEYS_JSON", one_key "d1" delegation);
   ("PDP_APPROVAL_ACTIVE_KID", "a1"); ("PDP_APPROVAL_KEYS_JSON", one_key "a1" approval); ("LOG_KEK_ACTIVE_KID", "k1");
   ("LOG_KEKS_JSON", one_key "k1" audit); ("AUDIT_ARCHIVE_BUCKET", "bucket"); ("AUDIT_ARCHIVE_PREFIX", "audit");
   ("AUDIT_ARCHIVE_REGION", "eu-west-1"); ("AUDIT_ARCHIVE_EXPECTED_BUCKET_OWNER", "123456789012");
   ("PDP_TLS_CERT", "/tls/c"); ("PDP_TLS_KEY", "/tls/k"); ("PDP_TLS_CA", "/tls/ca")]%string.

Definition sample_env : Environment := production_env "a-private-delegation-secret-1234567890"
  "a-private-approval-secret-12345678901" "a-private-audit-kek-of-32-bytes!".

Definition loaded (env : Environment) : Config :=
  match Load env with
  | Ok cfg => cfg
  | Err _ => mkConfig "" (mkServerConfig 0 0 "" false "" "" 0 0 0) (mkDatabaseConfig "" "") (mkEngineConfig "" "" false 0 0 0)
      (mkAuditConfig "" 0 0 0 0 0 "" "" "" "") (mkSecurityConfig "" "" "" "" "" ∅ false "" ∅ false 0 "" "" "" "" ∅ false)
  end.

Lemma Load_loaded env : is_ok (Load env) = true -> Load env = Ok (loaded env).
Proof. unfold loaded. by destruct (Load env). Qed.

Lemma loaded_config_in_bounds_witness : is_ok (Load ∅) = true /\ 0 < BatchSize (cfg_Audit (loaded ∅)) <= QueueCapacity (cfg_Audit (loaded ∅)).
Proof.
  split; [by vm_compute|]. assert (Load ∅ = Ok (loaded ∅)) as H by (apply Load_loaded; by vm_compute).
  exact (proj1 (proj2 (proj2 (proj2 (proj2 (proj2 (proj2 (proj2 (proj2 (loaded_config_in_bounds ∅ _ H)))))))))).
Defined.

Lemma production_config_safe_witness : NoDup (key_material (cfg_Security (loaded sample_env))).
Proof.
  assert (Load sample_env = Ok (loaded sample_env)) as H by (apply Load_loaded; by vm_compute).
  assert (equal_fold (AppEnv (loaded sample_env)) "production" = true) as Hp by by vm_compute.
  exact (proj1 (proj2 (proj2 (proj2 (proj2 (proj2 (proj2 (proj2 (proj2 (proj2
    (production_config_safe sample_env _ (fun m => reflexivity _) H Hp))))))))))).
Defined.

Lemma keyring_round_trip_witness : loadDelegationKeyring
    {["PDP_DELEGATION_ACTIVE_KID"%string := "d1"%string; "PDP_DELEGATION_KEYS_JSON"%string := one_key "d1" "secret"]} ""
  = Ok ("d1"%string, {["d1"%string := "secret"%string]}, true).
Proof.
  eapply (keyring_round_trip _ "d1" "" {["d1"%string := "secret"%string]}); [done| |by apply map_Forall_singleton|reflexivity|reflexivity|reflexivity].
  rewrite lookup_singleton_eq. by eexists.
Defined.

(** The published development secrets of delegations, approvals and audit are accepted in production. *)
Theorem production_accepts_published_keys :
  let cfg := loaded (production_env developmentDelegationSecret developmentApprovalSecret developmentAuditKEK) in
  Load (production_env developmentDelegationSecret developmentApprovalSecret developmentAuditKEK) = Ok cfg
  /\ DelegationKeys (cfg_Security cfg) !! "d1"%string = Some developmentDelegationSecret
  /\ ApprovalKeys (cfg_Security cfg) !! "a1"%string = Some developmentApprovalSecret
  /\ AuditKeys (cfg_Security cfg) !! "k1"%string = Some developmentAuditKEK.
Proof. cbv zeta. split; [apply Load_loaded; by vm_compute|]. by vm_compute. Qed.
