(* ===== verification/ReplayBuffer.v ===== *)
(** * The replay buffer of policy events ([internal/server/replay_buffer.go])

    A ring of [capacity] slots with its head and its count, and the bounded
    list of events it stands for. *)

From S2P Require Import Prelude.
From stdpp Require Import options.
Local Open Scope Z_scope.

Record PolicyEvent := mkReplayEvent {
  re_TenantID : string;
  re_PolicyID : string;
  re_Action : string;
  re_Revision : Z
}.

Definition zero_event : PolicyEvent := mkReplayEvent "" "" "" 0.

Record ReplayBuffer := mkReplayBuffer {
  rb_capacity : nat;
  rb_events : list PolicyEvent;
  rb_head : nat;
  rb_count : nat
}.

Definition NewReplayBuffer (capacity : Z) : ReplayBuffer :=
  let n := Z.to_nat (if capacity <=? 0 then 1000 else capacity) in mkReplayBuffer n (replicate n zero_event) 0 0.

Definition Add (rb : ReplayBuffer) (event : PolicyEvent) : ReplayBuffer :=
  let idx := ((rb_head rb + rb_count rb) mod rb_capacity rb)%nat in
  let '(head, count) := if (rb_count rb =? rb_capacity rb)%nat
    then (((rb_head rb + 1) mod rb_capacity rb)%nat, rb_count rb)
    else (rb_head rb, S (rb_count rb)) in
  mkReplayBuffer (rb_capacity rb) (<[idx := event]> (rb_events rb)) head count.

Definition event_at (rb : ReplayBuffer) (i : nat) : PolicyEvent :=
  default zero_event (rb_events rb !! ((rb_head rb + i) mod rb_capacity rb)%nat).

Definition newer (tenantID : string) (afterRevision : Z) (ev : PolicyEvent) : bool :=
  bool_decide (re_TenantID ev = tenantID) && (afterRevision <? re_Revision ev).

(** [None] asks for a full reload. *)
Definition GetEventsSince (rb : ReplayBuffer) (tenantID : string) (afterRevision : Z) : option (list PolicyEvent) :=
  if (rb_count rb =? 0)%nat then Some []
  else
    let oldestRev := re_Revision (event_at rb 0) in
    if (0 <? afterRevision) && (afterRevision <? oldestRev) then None
    else Some (base.filter (fun ev => Is_true (newer tenantID afterRevision ev)) (event_at rb <$> seq 0 (rb_count rb))).

(** ** The bounded list *)

(** The last [n] events of a list. *)
Definition last_n (n : nat) (l : list PolicyEvent) : list PolicyEvent := drop (length l - n) l.

(** The events a buffer holds, oldest first. *)
Definition contents (rb : ReplayBuffer) : list PolicyEvent := event_at rb <$> seq 0 (rb_count rb).

Definition rb_inv (rb : ReplayBuffer) : Prop :=
  (0 < rb_capacity rb)%nat /\ length (rb_events rb) = rb_capacity rb /\ (rb_head rb < rb_capacity rb)%nat
  /\ (rb_count rb <= rb_capacity rb)%nat.

Lemma new_inv capacity : rb_inv (NewReplayBuffer capacity).
Proof.
  unfold NewReplayBuffer, rb_inv. cbn [rb_capacity rb_events rb_head rb_count]. rewrite length_replicate.
  destruct (Z.leb_spec capacity 0); lia.
Qed.

Lemma add_inv rb ev : rb_inv rb -> rb_inv (Add rb ev).
Proof.
  intros (Hc & Hl & Hh & Hn). unfold Add, rb_inv. destruct (Nat.eqb_spec (rb_count rb) (rb_capacity rb)) as [E|E];
    cbn [rb_capacity rb_events rb_head rb_count]; rewrite length_insert; repeat split; try lia.
  apply Nat.mod_upper_bound. lia.
Qed.

(** Two slots of the ring at different offsets are different. *)
Lemma slot_inj h i j c : (i < c -> j < c -> (h + i) mod c = (h + j) mod c -> i = j)%nat.
Proof.
  intros Hi Hj E. pose proof (Nat.Div0.div_mod (h + i) c). pose proof (Nat.Div0.div_mod (h + j) c).
  assert ((h + i) / c = (h + j) / c)%nat as Hq; [|nia].
  destruct (lt_eq_lt_dec ((h + i) / c) ((h + j) / c)) as [[?|?]|?]; [nia|done|nia].
Qed.

Lemma length_contents rb : length (contents rb) = rb_count rb.
Proof. unfold contents. by rewrite length_fmap, length_seq. Qed.
Lemma lookup_contents rb i : (i < rb_count rb)%nat -> contents rb !! i = Some (event_at rb i).
Proof. intros Hi. unfold contents. by rewrite list_lookup_fmap, lookup_seq_lt. Qed.

Lemma event_at_insert rb ev h k i : rb_inv rb -> (k < rb_capacity rb)%nat -> (i < rb_capacity rb)%nat ->
  default zero_event (<[((h + k) mod rb_capacity rb)%nat := ev]> (rb_events rb) !! ((h + i) mod rb_capacity rb)%nat)
  = if decide (i = k) then ev else default zero_event (rb_events rb !! ((h + i) mod rb_capacity rb)%nat).
Proof.
  intros (Hc & Hl & _ & _) Hk Hi. case_decide as E.
  - subst. rewrite list_lookup_insert_eq; [done|]. rewrite Hl. apply Nat.mod_upper_bound. lia.
  - rewrite list_lookup_insert_ne; [done|]. intros E'. apply E. symmetry. by apply (slot_inj h _ _ (rb_capacity rb)).
Qed.

(** Adding an event appends it and keeps the last [capacity] events. *)
Lemma add_contents rb ev : rb_inv rb -> contents (Add rb ev) = last_n (rb_capacity rb) (contents rb ++ [ev]).
Proof.
  intros Hinv. pose proof Hinv as (Hc & Hl & Hh & Hn). unfold last_n. rewrite length_app, length_contents. cbn [length].
  apply list_eq. intros i. rewrite lookup_drop. unfold Add.
  destruct (Nat.eqb_spec (rb_count rb) (rb_capacity rb)) as [E|E].
  - replace (rb_count rb + 1 - rb_capacity rb)%nat with 1%nat by lia.
    destruct (decide (i < rb_count rb)%nat) as [Hi|Hi].
    + rewrite lookup_contents by done. unfold event_at at 1. cbn [rb_capacity rb_events rb_head rb_count].
      rewrite Nat.Div0.add_mod_idemp_l, <- Nat.add_assoc.
      replace ((rb_head rb + rb_count rb) mod rb_capacity rb)%nat with ((rb_head rb + 0) mod rb_capacity rb)%nat
        by (rewrite E, <- (Nat.Div0.add_mod_idemp_r (rb_head rb) (rb_capacity rb)), Nat.Div0.mod_same; done).
      destruct (decide (S i = rb_count rb)) as [Es|Es].
      * replace ((rb_head rb + (1 + i)) mod rb_capacity rb)%nat with ((rb_head rb + 0) mod rb_capacity rb)%nat
          by (cbn [Nat.add]; rewrite Es, E, <- (Nat.Div0.add_mod_idemp_r (rb_head rb) (rb_capacity rb)), Nat.Div0.mod_same; done).
        rewrite event_at_insert, decide_True by (done || lia). rewrite lookup_app_r by (rewrite length_contents; lia).
        rewrite length_contents. by replace (1 + i - rb_count rb)%nat with 0%nat by lia.
      * rewrite event_at_insert, decide_False by (done || lia). rewrite lookup_app_l by (rewrite length_contents; lia).
        by rewrite lookup_contents by lia.
    + rewrite !lookup_ge_None_2; [done| |]; rewrite ?length_app, length_contents; cbn; lia.
  - replace (rb_count rb + 1 - rb_capacity rb)%nat with 0%nat by lia. cbn [Nat.add].
    destruct (decide (i < S (rb_count rb))%nat) as [Hi|Hi].
    + rewrite lookup_contents by done. unfold event_at at 1. cbn [rb_capacity rb_events rb_head rb_count].
      rewrite event_at_insert by (done || lia). case_decide as Ei.
      * subst. rewrite lookup_app_r, length_contents, Nat.sub_diag by (rewrite length_contents; lia). done.
      * rewrite lookup_app_l by (rewrite length_contents; lia). by rewrite lookup_contents by lia.
    + rewrite !lookup_ge_None_2; [done| |]; rewrite ?length_app, length_contents; cbn; lia.
Qed.

Definition run_adds (rb : ReplayBuffer) (evs : list PolicyEvent) : ReplayBuffer := foldl Add rb evs.

Lemma run_adds_inv evs : forall rb, rb_inv rb -> rb_inv (run_adds rb evs) /\ rb_capacity (run_adds rb evs) = rb_capacity rb.
Proof.
  induction evs as [|ev evs IH]; intros rb Hrb; [done|]. change (run_adds rb (ev :: evs)) with (run_adds (Add rb ev) evs).
  destruct (IH (Add rb ev)) as [? Hc]; [by apply add_inv|].
  split; [done|]. rewrite Hc. unfold Add. by destruct (_ =? _)%nat.
Qed.

Lemma last_n_last_n n l ev : last_n n (last_n n l ++ [ev]) = last_n n (l ++ [ev]).
Proof.
  unfold last_n. rewrite !length_app, !length_drop. cbn [length]. destruct (decide (length l <= n)%nat).
  - replace (length l - n)%nat with 0%nat by lia. by rewrite Nat.sub_0_r, drop_0.
  - destruct n as [|n]; [by rewrite !drop_ge by (rewrite ?length_app, ?length_drop; cbn; lia)|].
    rewrite !drop_app_le by (rewrite ?length_drop; lia). rewrite drop_drop. f_equal. f_equal. lia.
Qed.

Lemma run_adds_contents (capacity : Z) (evs : list PolicyEvent) :
  contents (run_adds (NewReplayBuffer capacity) evs)
  = last_n (Z.to_nat (if capacity <=? 0 then 1000 else capacity)) evs.
Proof.
  change (Z.to_nat _) with (rb_capacity (NewReplayBuffer capacity)).
  induction evs as [|ev evs IH] using rev_ind; [done|]. unfold run_adds in *. rewrite foldl_snoc.
  destruct (run_adds_inv evs _ (new_inv capacity)) as [Hinv Hc]. unfold run_adds in *.
  by rewrite add_contents, Hc, IH, last_n_last_n.
Qed.

(** A read of the list of the events kept: everything of the tenant after the
    revision, in order, or [None], a reload, when the oldest event kept, of
    whatever tenant, is newer than a positive revision. *)
Definition read_list (kept : list PolicyEvent) (tenantID : string) (after : Z) : option (list PolicyEvent) :=
  match kept with
  | oldest :: _ =>
      if decide (0 < after < re_Revision oldest) then None
      else Some (base.filter (fun ev => re_TenantID ev = tenantID /\ after < re_Revision ev) kept)
  | [] => Some []
  end.

Lemma newer_filter tenantID after (l : list PolicyEvent) :
  base.filter (fun ev => Is_true (newer tenantID after ev)) l
  = base.filter (fun ev => re_TenantID ev = tenantID /\ after < re_Revision ev) l.
Proof.
  apply list_filter_iff. intros ev. unfold newer. rewrite andb_True, bool_decide_spec, Is_true_true, Z.ltb_lt. done.
Qed.

Lemma read_contents rb tenantID after : GetEventsSince rb tenantID after = read_list (contents rb) tenantID after.
Proof.
  unfold GetEventsSince, read_list. fold (contents rb). rewrite newer_filter.
  assert (forall i, (i < rb_count rb)%nat -> contents rb !! i = Some (event_at rb i)) as Hat by apply lookup_contents.
  pose proof (length_contents rb) as Hlen. destruct (Nat.eqb_spec (rb_count rb) 0) as [E|E].
  - rewrite E in Hlen. by destruct (contents rb).
  - specialize (Hat 0%nat ltac:(lia)). destruct (contents rb) as [|oldest kept]; [cbn in Hlen; lia|]. injection Hat as ->.
    destruct (decide _) as [[H1 H2]|Hno].
    + by rewrite (proj2 (Z.ltb_lt _ _) H1), (proj2 (Z.ltb_lt _ _) H2).
    + destruct (Z.ltb_spec 0 after), (Z.ltb_spec after (re_Revision (event_at rb 0))); cbn [andb]; by try lia.
Qed.

(** C39: The ring buffer refines a bounded list: after any sequence of additions
    to a new buffer it holds the last [capacity] of them (a thousand for a
    capacity that is not positive), oldest first, and a read is that of the
    list: when the revision asked for is positive and older than the oldest
    event kept it asks for a reload, and otherwise it gives the events kept of
    the tenant after the revision, in order. *)
Theorem replay_buffer_refines_list (capacity : Z) (evs : list PolicyEvent) (tenantID : string) (after : Z) :
  let rb := run_adds (NewReplayBuffer capacity) evs in
  let kept := last_n (Z.to_nat (if capacity <=? 0 then 1000 else capacity)) evs in
  contents rb = kept /\ GetEventsSince rb tenantID after = read_list kept tenantID after.
Proof. cbv zeta. by rewrite read_contents, run_adds_contents. Qed.

Lemma newer_filter_app t r l1 l2 : base.filter (fun ev => Is_true (newer t r ev)) (l1 ++ l2) =
  base.filter (fun ev => Is_true (newer t r ev)) l1 ++ base.filter (fun ev => Is_true (newer t r ev)) l2.
Proof. apply filter_app. Qed.

Lemma filter_old t r l : Forall (fun ev => re_Revision ev <= r) l -> base.filter (fun ev => Is_true (newer t r ev)) l = [].
Proof.
  induction 1 as [|ev l Hev _ IH]; [done|]. rewrite filter_cons_False; [done|]. unfold newer.
  rewrite (proj2 (Z.ltb_ge _ _) Hev), andb_false_r. by intros [].
Qed.

(** For a history of events whose revisions never decrease, a buffer that does not ask for a reload gives every event of the
    tenant after the revision, in order, whatever it has overwritten. *)
Theorem replay_is_complete (capacity : Z) (evs : list PolicyEvent) (tenantID : string) (after : Z) (es : list PolicyEvent) :
  StronglySorted (fun a b => re_Revision a <= re_Revision b) evs -> 0 < after ->
  GetEventsSince (run_adds (NewReplayBuffer capacity) evs) tenantID after = Some es ->
  es = base.filter (fun ev => Is_true (newer tenantID after ev)) evs.
Proof.
  intros Hs Ha. pose proof (run_adds_contents capacity evs) as Hc.
  set (rb := run_adds (NewReplayBuffer capacity) evs) in *. unfold GetEventsSince. fold (contents rb). rewrite Hc.
  set (n := (Z.to_nat (if capacity <=? 0 then 1000 else capacity))) in *.
  assert (0 < n)%nat as Hn by (unfold n; destruct (Z.leb_spec capacity 0); lia).
  destruct (Nat.eqb_spec (rb_count rb) 0) as [E|E].
  { intros [= <-]. assert (length evs = 0)%nat; [|by destruct evs].
    apply (f_equal length) in Hc. rewrite length_contents, E in Hc. unfold last_n in Hc. rewrite length_drop in Hc. lia. }
  rewrite (proj2 (Z.ltb_lt _ _) Ha). cbn [andb]. destruct (Z.ltb_spec after (re_Revision (event_at rb 0))) as [Hlt|Hge]; [done|].
  intros [= <-]. assert (evs = take (length evs - n) evs ++ last_n n evs) as Hsplit by (unfold last_n; by rewrite take_drop).
  transitivity (base.filter (fun ev => Is_true (newer tenantID after ev)) (take (length evs - n) evs ++ last_n n evs));
    [|by rewrite <- Hsplit].
  rewrite newer_filter_app, (filter_old _ _ (take _ _)); [done|]. assert (last_n n evs !! 0%nat = Some (event_at rb 0)) as H0
    by (rewrite <- Hc; apply lookup_contents; lia).
  destruct (last_n n evs) as [|e0 rest]; [done|]. injection H0 as ->. rewrite Hsplit in Hs.
  apply Forall_forall. intros x Hx. apply Z.le_trans with (re_Revision (event_at rb 0)); [|done].
  eapply (StronglySorted_app_1_elem_of (fun a b => re_Revision a <= re_Revision b)); [exact Hs|exact Hx|apply elem_of_cons; by left].
Qed.

Definition sample_event (t : string) (r : Z) : PolicyEvent := mkReplayEvent t "p" "UPDATE" r.

Lemma replay_is_complete_witness :
  let evs := sample_event "a" <$> [1; 2; 3; 4] in [sample_event "a" 3; sample_event "a" 4] =
    base.filter (fun ev => Is_true (newer "a" 2 ev)) evs.
Proof.
  cbv zeta. apply (replay_is_complete 3).
  - repeat (constructor; [|repeat (constructor; [cbn; lia|]); constructor]). constructor.
  - lia.
  - by vm_compute.
Defined.

(** Revisions are counted per tenant: the oldest event of another tenant hides that events of this one were overwritten. *)
Theorem replay_misses_events_across_tenants :
  let evs := [sample_event "a" 2; sample_event "a" 3; sample_event "b" 1; sample_event "a" 4] in
  GetEventsSince (run_adds (NewReplayBuffer 2) evs) "a" 1 = Some [sample_event "a" 4]
  /\ base.filter (fun ev => Is_true (newer "a" 1 ev)) evs = [sample_event "a" 2; sample_event "a" 3; sample_event "a" 4].
Proof. by vm_compute. Qed.
