(* ===== verification/GoAes.v ===== *)
(** * AES-GCM ([crypto/aes], [crypto/cipher])

    The block cipher of FIPS 197 with keys of 16, 24 or 32 bytes and the mode of
    SP 800-38D with a nonce of 12 bytes and a tag of 16, as executable
    definitions on lists of bytes; checked against published test vectors.
    The limit of a plaintext (64 GiB) is not represented. *)

From S2P Require Import Prelude GoStr GoCrypto.
From stdpp Require Import options.
Local Open Scope Z_scope.

(** ** The block cipher *)

Definition aes_sbox : list Z :=
  [99; 124; 119; 123; 242; 107; 111; 197; 48; 1; 103; 43; 254; 215; 171; 118;
   202; 130; 201; 125; 250; 89; 71; 240; 173; 212; 162; 175; 156; 164; 114; 192;
   183; 253; 147; 38; 54; 63; 247; 204; 52; 165; 229; 241; 113; 216; 49; 21;
   4; 199; 35; 195; 24; 150; 5; 154; 7; 18; 128; 226; 235; 39; 178; 117;
   9; 131; 44; 26; 27; 110; 90; 160; 82; 59; 214; 179; 41; 227; 47; 132;
   83; 209; 0; 237; 32; 252; 177; 91; 106; 203; 190; 57; 74; 76; 88; 207;
   208; 239; 170; 251; 67; 77; 51; 133; 69; 249; 2; 127; 80; 60; 159; 168;
   81; 163; 64; 143; 146; 157; 56; 245; 188; 182; 218; 33; 16; 255; 243; 210;
   205; 12; 19; 236; 95; 151; 68; 23; 196; 167; 126; 61; 100; 93; 25; 115;
   96; 129; 79; 220; 34; 42; 144; 136; 70; 238; 184; 20; 222; 94; 11; 219;
   224; 50; 58; 10; 73; 6; 36; 92; 194; 211; 172; 98; 145; 149; 228; 121;
   231; 200; 55; 109; 141; 213; 78; 169; 108; 86; 244; 234; 101; 122; 174; 8;
   186; 120; 37; 46; 28; 166; 180; 198; 232; 221; 116; 31; 75; 189; 139; 138;
   112; 62; 181; 102; 72; 3; 246; 14; 97; 53; 87; 185; 134; 193; 29; 158;
   225; 248; 152; 17; 105; 217; 142; 148; 155; 30; 135; 233; 206; 85; 40; 223;
   140; 161; 137; 13; 191; 230; 66; 104; 65; 153; 45; 15; 176; 84; 187; 22].
Definition sub_byte (b : Z) : Z := default 0 (aes_sbox !! Z.to_nat b).
Definition xtime (b : Z) : Z := let d := 2 * b in if d <? 256 then d else Z.lxor (d - 256) 27.

Definition xor_bytes (a b : Bytes) : Bytes := zip_with Z.lxor a b.

(** The next word of four bytes of the key schedule for a key of [nk] words: [i] is its index. *)
Definition schedule_word (nk : nat) (ws : list Bytes) (i : nat) (rcon : Z) : Bytes :=
  let temp := default [] (ws !! (i - 1)%nat) in
  let temp := if (i mod nk =? 0)%nat then
      match sub_byte <$> temp with
      | [a; b; c; d] => [Z.lxor b rcon; c; d; a]
      | t => t
      end
    else if ((6 <? nk)%nat && (i mod nk =? 4)%nat) then sub_byte <$> temp else temp in
  xor_bytes (default [] (ws !! (i - nk)%nat)) temp.
Fixpoint expand_words (nk n i : nat) (rcon : Z) (ws : list Bytes) : list Bytes :=
  match n with
  | O => ws
  | S n' => expand_words nk n' (S i) (if (i mod nk =? 0)%nat then xtime rcon else rcon) (ws ++ [schedule_word nk ws i rcon])
  end.

Fixpoint chunks_of (k n : nat) (bs : Bytes) : list Bytes :=
  match n with O => [] | S n' => take k bs :: chunks_of k n' (drop k bs) end.

(** The round keys: 11, 13 or 15 of them for a key of 16, 24 or 32 bytes. *)
Definition round_keys (key : Bytes) : list Bytes :=
  let nk := (length key / 4)%nat in
  chunks_of 16 (nk + 7) (mjoin (expand_words nk (3 * nk + 28) nk 1 (chunks_of 4 nk key))).
(** The sizes [aes.NewCipher] takes. *)
Definition aes_key_size (key : Bytes) : Prop := length key = 16%nat \/ length key = 24%nat \/ length key = 32%nat.
Global Instance aes_key_size_dec key : Decision (aes_key_size key).
Proof. unfold aes_key_size. apply _. Defined.

Definition shift_rows (s : Bytes) : Bytes :=
  (fun i => default 0 (s !! i)) <$> [0; 5; 10; 15; 4; 9; 14; 3; 8; 13; 2; 7; 12; 1; 6; 11]%nat.
Definition xor4 (a b c d : Z) : Z := Z.lxor (Z.lxor a b) (Z.lxor c d).
Fixpoint mix_columns (s : Bytes) : Bytes :=
  match s with
  | a :: b :: c :: d :: s' =>
      let t := xor4 a b c d in
      let m x y := Z.lxor x (Z.lxor t (xtime (Z.lxor x y))) in
      m a b :: m b c :: m c d :: m d a :: mix_columns s'
  | _ => []
  end.

Fixpoint aes_rounds (s : Bytes) (rks : list Bytes) : Bytes :=
  match rks with
  | [] => s
  | [rk] => xor_bytes (shift_rows (sub_byte <$> s)) rk
  | rk :: rks' => aes_rounds (xor_bytes (mix_columns (shift_rows (sub_byte <$> s))) rk) rks'
  end.
Definition aes_encrypt (rks : list Bytes) (block : Bytes) : Bytes :=
  match rks with rk :: rks' => aes_rounds (xor_bytes block rk) rks' | [] => block end.

(** ** The mode *)

Definition block_number (bs : Bytes) : Z := foldl (fun n b => n * 256 + b) 0 bs.

(** The product of GF(2^128): bit 127 is the coefficient of 1. *)
Fixpoint gf_mul (n : nat) (x v z : Z) : Z :=
  match n with
  | O => z
  | S i => gf_mul i x (if Z.odd v then Z.lxor (v / 2) (225 * 2 ^ 120) else v / 2)
             (if Z.testbit x (Z.of_nat i) then Z.lxor z v else z)
  end.
Definition pad16 (bs : Bytes) : Bytes := bs ++ replicate ((16 - length bs mod 16) mod 16) 0.
Definition blocks16 (bs : Bytes) : list Bytes := chunks_of 16 (length bs / 16) bs.
Definition ghash (h : Z) (bs : Bytes) : Z :=
  foldl (fun y b => gf_mul 128 (Z.lxor y (block_number b)) h 0) 0 (blocks16 bs).

(** The key stream: [n] blocks from the counter [c]. *)
Fixpoint key_stream (rks : list Bytes) (nonce : Bytes) (c : Z) (n : nat) : Bytes :=
  match n with
  | O => []
  | S n' => aes_encrypt rks (nonce ++ be_bytes 4 c) ++ key_stream rks nonce (c + 1) n'
  end.
Definition gcm_crypt (rks : list Bytes) (nonce text : Bytes) : Bytes :=
  xor_bytes text (key_stream rks nonce 2 ((length text + 15) / 16)%nat).

Definition gcm_tag (rks : list Bytes) (nonce ciphertext aad : Bytes) : Bytes :=
  let h := block_number (aes_encrypt rks (replicate 16 0)) in
  let s := ghash h (pad16 aad ++ pad16 ciphertext ++ be_bytes 8 (8 * Z.of_nat (length aad))
                    ++ be_bytes 8 (8 * Z.of_nat (length ciphertext))) in
  xor_bytes (aes_encrypt rks (nonce ++ be_bytes 4 1)) (be_bytes 16 s).

(** [AEAD.Seal] and [AEAD.Open] of [cipher.NewGCM], without a prefix. *)
Definition gcm_seal (key nonce plaintext aad : Bytes) : Bytes :=
  let rks := round_keys key in
  let c := gcm_crypt rks nonce plaintext in c ++ gcm_tag rks nonce c aad.
Definition gcm_open (key nonce ciphertext aad : Bytes) : option Bytes :=
  if (length ciphertext <? 16)%nat then None
  else
    let rks := round_keys key in
    let n := (length ciphertext - 16)%nat in
    let c := take n ciphertext in
    if bool_decide (drop n ciphertext = gcm_tag rks nonce c aad) then Some (gcm_crypt rks nonce c) else None.

(** FIPS 197, appendix C, and the test cases 13 and 14 of the GCM specification. *)
Definition of_hex (s : string) : Bytes := default [] (hex_decode s).
Example aes_c3 : hex_encode (aes_encrypt
    (round_keys (of_hex "000102030405060708090a0b0c0d0e0f101112131415161718191a1b1c1d1e1f"))
    (of_hex "00112233445566778899aabbccddeeff")) = "8ea2b7ca516745bfeafc49904b496089"%string.
Proof. by vm_compute. Qed.
Example aes_c1 : hex_encode (aes_encrypt (round_keys (of_hex "000102030405060708090a0b0c0d0e0f"))
    (of_hex "00112233445566778899aabbccddeeff")) = "69c4e0d86a7b0430d8cdb78070b4c55a"%string.
Proof. by vm_compute. Qed.
Example aes_c2 : hex_encode (aes_encrypt (round_keys (of_hex "000102030405060708090a0b0c0d0e0f1011121314151617"))
    (of_hex "00112233445566778899aabbccddeeff")) = "dda97ca4864cdfe06eaf70a0ec0d7191"%string.
Proof. by vm_compute. Qed.
Example gcm_13 : hex_encode (gcm_seal (replicate 32 0) (replicate 12 0) [] []) = "530f8afbc74536b9a963b4f1c4cb738b"%string.
Proof. by vm_compute. Qed.
Example gcm_14 : hex_encode (gcm_seal (replicate 32 0) (replicate 12 0) (replicate 16 0) [])
  = "cea7403d4d606b6e074ec5d3baf39d18d0d1c8a799996bf0265b98b5d48ab919"%string.
Proof. by vm_compute. Qed.

(** ** Lengths *)

Lemma length_xor_bytes a b : length (xor_bytes a b) = (length a `min` length b)%nat.
Proof. apply length_zip_with. Qed.

Lemma xor_bytes_twice t : forall k, (length t <= length k)%nat -> xor_bytes (xor_bytes t k) k = t.
Proof.
  induction t as [|a t IH]; intros [|b k] Hk; cbn in *; [done|done|lia|]. f_equal; [|apply IH; lia].
  by rewrite Z.lxor_assoc, Z.lxor_nilpotent, Z.lxor_0_r.
Qed.

Lemma chunks_of_length k n : forall bs, (n * k <= length bs)%nat -> Forall (fun c => length c = k) (chunks_of k n bs).
Proof.
  induction n as [|n IH]; intros bs Hb; cbn [chunks_of]; [constructor|]. constructor.
  - rewrite length_take. lia.
  - apply IH. rewrite length_drop. lia.
Qed.
Lemma length_chunks_of k n bs : length (chunks_of k n bs) = n.
Proof. revert bs. induction n as [|n IH]; intros bs; cbn; [done|]. by rewrite IH. Qed.

Definition word4 (w : Bytes) : Prop := length w = 4%nat.

Lemma schedule_word_length nk ws i rcon : Forall word4 ws -> (0 < nk <= i)%nat -> (i <= length ws)%nat ->
  word4 (schedule_word nk ws i rcon).
Proof.
  intros Hw Hi Hl. assert (forall j, (j < length ws)%nat -> word4 (default [] (ws !! j))) as Hj.
  { intros j Hj. destruct (lookup_lt_is_Some_2 ws j Hj) as [w E]. rewrite E. cbn. rewrite Forall_lookup in Hw. by apply (Hw j). }
  unfold schedule_word. cbv zeta. unfold word4. rewrite length_xor_bytes, (Hj (i - nk)%nat) by lia.
  pose proof (Hj (i - 1)%nat ltac:(lia)) as H1. unfold word4 in H1. destruct (default [] (ws !! (i - 1)%nat)) as [|a [|b [|c [|d [|e l]]]]]; try done.
  destruct (_ =? _)%nat; [done|]. by destruct (_ && _).
Qed.

Lemma expand_words_length nk n : forall i rcon ws, Forall word4 ws -> i = length ws -> (0 < nk <= i)%nat ->
  Forall word4 (expand_words nk n i rcon ws) /\ length (expand_words nk n i rcon ws) = (n + length ws)%nat.
Proof.
  induction n as [|n IH]; intros i rcon ws Hw -> Hi; cbn [expand_words]; [done|].
  destruct (IH (S (length ws)) (if (length ws mod nk =? 0)%nat then xtime rcon else rcon)
    (ws ++ [schedule_word nk ws (length ws) rcon])) as [H1 H2].
  - apply Forall_app. split; [done|]. constructor; [|constructor]. by apply schedule_word_length.
  - rewrite length_app. cbn. lia.
  - lia.
  - split; [done|]. rewrite H2, length_app. cbn. lia.
Qed.

Lemma mjoin_length k (ws : list Bytes) : Forall (fun w => length w = k) ws -> length (mjoin ws) = (k * length ws)%nat.
Proof. induction 1 as [|w ws Hw _ IH]; [cbn; lia|]. change (mjoin (w :: ws)) with (w ++ mjoin ws). rewrite length_app, IH. cbn [length]. lia. Qed.

Definition block16 (w : Bytes) : Prop := length w = 16%nat.

Lemma round_keys_length key : aes_key_size key -> Forall block16 (round_keys key) /\ round_keys key <> [].
Proof.
  intros Hk. assert (exists nk, length key = 4 * nk /\ 0 < nk)%nat as (nk & Hl & Hn).
  { destruct Hk as [->|[->| ->]]; [exists 4%nat|exists 6%nat|exists 8%nat]; lia. }
  unfold round_keys. cbv zeta. replace (length key / 4)%nat with nk by (rewrite Hl, Nat.mul_comm, Nat.div_mul; lia).
  destruct (expand_words_length nk (3 * nk + 28) nk 1 (chunks_of 4 nk key)) as [H1 H2].
  - apply chunks_of_length. lia.
  - by rewrite length_chunks_of.
  - lia.
  - split; [apply chunks_of_length; rewrite (mjoin_length 4) by done; rewrite H2, length_chunks_of; lia|].
    intros E%(f_equal length). rewrite length_chunks_of in E. cbn in E. lia.
Qed.

Lemma mix_columns_length s : block16 s -> block16 (mix_columns s).
Proof. unfold block16. intros Hs. do 16 (destruct s as [|? s]; [done|]). by destruct s. Qed.

Lemma aes_rounds_length rks : forall s, Forall block16 rks -> block16 s -> block16 (aes_rounds s rks).
Proof.
  induction rks as [|rk rks IH]; intros s Hr Hs; cbn [aes_rounds]; [done|]. apply Forall_cons in Hr as [Hrk Hr].
  destruct rks as [|rk' rks].
  - unfold block16 in *. by rewrite length_xor_bytes, Hrk.
  - apply IH; [done|]. unfold block16. rewrite length_xor_bytes, Hrk, mix_columns_length; [done|]. done.
Qed.

Lemma aes_encrypt_length key block : aes_key_size key -> block16 block -> block16 (aes_encrypt (round_keys key) block).
Proof.
  intros Hk Hb. destruct (round_keys_length key Hk) as [Hr Hl]. destruct (round_keys key) as [|rk rks]; [done|].
  apply Forall_cons in Hr as [Hrk Hr]. cbn [aes_encrypt]. apply aes_rounds_length; [done|]. unfold block16 in *.
  by rewrite length_xor_bytes, Hrk, Hb.
Qed.

Lemma key_stream_length key nonce n : forall c, aes_key_size key -> length nonce = 12%nat ->
  length (key_stream (round_keys key) nonce c n) = (16 * n)%nat.
Proof.
  induction n as [|n IH]; intros c Hk Hn; cbn [key_stream]; [done|]. rewrite length_app, IH by done.
  rewrite aes_encrypt_length; [lia|done|]. unfold block16. rewrite length_app, length_be_bytes. lia.
Qed.

Lemma gcm_crypt_length key nonce t : aes_key_size key -> length nonce = 12%nat ->
  length (gcm_crypt (round_keys key) nonce t) = length t.
Proof.
  intros Hk Hn. unfold gcm_crypt. rewrite length_xor_bytes, key_stream_length by done.
  pose proof (Nat.Div0.div_mod (length t + 15) 16). pose proof (Nat.mod_upper_bound (length t + 15) 16). lia.
Qed.

Lemma gcm_crypt_twice key nonce t : aes_key_size key -> length nonce = 12%nat ->
  gcm_crypt (round_keys key) nonce (gcm_crypt (round_keys key) nonce t) = t.
Proof.
  intros Hk Hn. unfold gcm_crypt at 1. rewrite gcm_crypt_length by done. apply xor_bytes_twice.
  rewrite key_stream_length by done. pose proof (Nat.Div0.div_mod (length t + 15) 16). pose proof (Nat.mod_upper_bound (length t + 15) 16). lia.
Qed.

Lemma gcm_tag_length key nonce c aad : aes_key_size key -> length nonce = 12%nat -> length (gcm_tag (round_keys key) nonce c aad) = 16%nat.
Proof.
  intros Hk Hn. unfold gcm_tag. cbv zeta. rewrite length_xor_bytes, length_be_bytes, aes_encrypt_length; [done|done|].
  unfold block16. rewrite length_app, length_be_bytes. lia.
Qed.

(** What is sealed under a key, a nonce and additional data opens under them. *)
Lemma gcm_open_seal key nonce plaintext aad : aes_key_size key -> length nonce = 12%nat ->
  gcm_open key nonce (gcm_seal key nonce plaintext aad) aad = Some plaintext.
Proof.
  intros Hk Hn. unfold gcm_open, gcm_seal. cbv zeta. rewrite length_app, gcm_tag_length, Nat.add_sub by done.
  destruct (Nat.ltb_spec (length (gcm_crypt (round_keys key) nonce plaintext) + 16) 16); [lia|].
  rewrite take_app_length, drop_app_length, bool_decide_true by done. by rewrite gcm_crypt_twice.
Qed.

(** ** Bytes *)

Lemma lxor_byte a b : is_byte a -> is_byte b -> is_byte (Z.lxor a b).
Proof.
  unfold is_byte. intros Ha Hb. assert (0 <= Z.lxor a b) by (apply Z.lxor_nonneg; lia).
  destruct (decide (Z.lxor a b = 0)); [lia|]. split; [done|]. apply (Z.log2_lt_pow2 _ 8); [lia|].
  pose proof (Z.log2_lxor a b). assert (Z.log2 a < 8) by (destruct (decide (a = 0)); [subst; cbn; lia|apply Z.log2_lt_pow2; lia]).
  assert (Z.log2 b < 8) by (destruct (decide (b = 0)); [subst; cbn; lia|apply Z.log2_lt_pow2; lia]). lia.
Qed.

Lemma xor_bytes_byte a : forall b, Forall is_byte a -> Forall is_byte b -> Forall is_byte (xor_bytes a b).
Proof.
  induction a as [|x a IH]; intros [|y b] Ha Hb; [constructor..|]. apply Forall_cons in Ha as [? ?], Hb as [? ?].
  cbn. constructor; [by apply lxor_byte|by apply IH].
Qed.

Lemma sub_byte_byte b : is_byte (sub_byte b).
Proof.
  unfold sub_byte. assert (Forall is_byte aes_sbox) as Hs by (apply (bool_decide_unpack _); vm_compute; exact I).
  destruct (aes_sbox !! Z.to_nat b) eqn:E; [|done]. rewrite Forall_lookup in Hs. by apply (Hs (Z.to_nat b)).
Qed.
Lemma sub_bytes_byte s : Forall is_byte (sub_byte <$> s).
Proof. apply Forall_fmap, Forall_true. intros b. apply sub_byte_byte. Qed.

Lemma xtime_byte b : is_byte b -> is_byte (xtime b).
Proof.
  unfold xtime. cbv zeta. intros Hb. destruct (Z.ltb_spec (2 * b) 256); [unfold is_byte in *; lia|].
  apply lxor_byte; [unfold is_byte in *; lia|done].
Qed.

Lemma default_byte (s : Bytes) i : Forall is_byte s -> is_byte (default 0 (s !! i)).
Proof. intros Hs. destruct (s !! i) eqn:E; [|done]. rewrite Forall_lookup in Hs. by apply (Hs i). Qed.

Lemma mix_columns_byte n : forall s, (length s <= n)%nat -> Forall is_byte s -> Forall is_byte (mix_columns s).
Proof.
  induction n as [|n IH]; intros s Hn Hs; [destruct s; [constructor|cbn in Hn; lia]|].
  destruct s as [|a [|b [|c [|d s]]]]; repeat (apply Forall_cons in Hs as [? Hs]); cbn [mix_columns] in *; try by constructor.
  repeat (apply Forall_cons; split; [unfold xor4; by repeat (apply lxor_byte || apply xtime_byte)|]). apply IH; [cbn in Hn; lia|done].
Qed.

Lemma aes_rounds_byte rks : forall s, Forall (Forall is_byte) rks -> Forall is_byte s -> Forall is_byte (aes_rounds s rks).
Proof.
  induction rks as [|rk rks IH]; intros s Hr Hs; cbn [aes_rounds]; [done|]. apply Forall_cons in Hr as [Hrk Hr].
  assert (Forall is_byte (shift_rows (sub_byte <$> s))) as Hsr.
  { unfold shift_rows. apply Forall_fmap, Forall_true. intros i. apply default_byte, sub_bytes_byte. }
  destruct rks as [|rk' rks]; [by apply xor_bytes_byte|]. apply IH; [done|]. apply xor_bytes_byte; [|done].
  by eapply mix_columns_byte.
Qed.

Lemma chunks_of_byte k n : forall bs, Forall is_byte bs -> Forall (Forall is_byte) (chunks_of k n bs).
Proof. induction n as [|n IH]; intros bs Hb; cbn; constructor; [by apply Forall_take|]. by apply IH, Forall_drop. Qed.

Lemma schedule_word_byte nk ws i rcon : Forall (Forall is_byte) ws -> is_byte rcon -> Forall is_byte (schedule_word nk ws i rcon).
Proof.
  intros Hw Hr. assert (forall j, Forall is_byte (default [] (ws !! j))) as Hj.
  { intros j. destruct (ws !! j) eqn:E; [|constructor]. cbn. rewrite Forall_lookup in Hw. by apply (Hw j). }
  unfold schedule_word. cbv zeta. apply xor_bytes_byte; [apply Hj|].
  destruct (_ =? 0)%nat; [|destruct (_ && _); [apply sub_bytes_byte|apply Hj]].
  pose proof (sub_bytes_byte (default [] (ws !! (i - 1)%nat))) as Hs.
  destruct (sub_byte <$> _) as [|a [|b [|c [|d [|e l]]]]]; try done.
  repeat (apply Forall_cons in Hs as [? Hs]). apply Forall_cons; split; [by apply lxor_byte|].
  by do 3 (apply Forall_cons; split; [done|]).
Qed.

Lemma expand_words_byte nk n : forall i rcon ws, Forall (Forall is_byte) ws -> is_byte rcon ->
  Forall (Forall is_byte) (expand_words nk n i rcon ws).
Proof.
  induction n as [|n IH]; intros i rcon ws Hw Hr; cbn [expand_words]; [done|]. apply IH.
  - apply Forall_app. split; [done|]. constructor; [by apply schedule_word_byte|constructor].
  - destruct (_ =? 0)%nat; [by apply xtime_byte|done].
Qed.

Lemma mjoin_byte (ws : list Bytes) : Forall (Forall is_byte) ws -> Forall is_byte (mjoin ws).
Proof. induction 1 as [|w ws Hw _ IH]; [constructor|]. change (mjoin (w :: ws)) with (w ++ mjoin ws). by apply Forall_app. Qed.

Lemma aes_encrypt_byte key block : Forall is_byte key -> Forall is_byte block -> Forall is_byte (aes_encrypt (round_keys key) block).
Proof.
  intros Hk Hb. assert (Forall (Forall is_byte) (round_keys key)) as Hr.
  { unfold round_keys. apply chunks_of_byte, mjoin_byte, expand_words_byte; [by apply chunks_of_byte|done]. }
  destruct (round_keys key) as [|rk rks]; [done|]. apply Forall_cons in Hr as [? ?]. cbn [aes_encrypt].
  apply aes_rounds_byte; [done|]. by apply xor_bytes_byte.
Qed.

Lemma gcm_seal_byte key nonce plaintext aad : Forall is_byte key -> Forall is_byte nonce -> Forall is_byte plaintext ->
  Forall is_byte (gcm_seal key nonce plaintext aad).
Proof.
  intros Hk Hn Hp. assert (forall c, Forall is_byte (nonce ++ be_bytes 4 c)) as Hc.
  { intros c. apply Forall_app. split; [done|apply be_bytes_is_byte]. }
  assert (forall n c, Forall is_byte (key_stream (round_keys key) nonce c n)) as Hks.
  { intros n. induction n as [|n IH]; intros c; cbn [key_stream]; [constructor|]. apply Forall_app. split; [|apply IH].
    by apply aes_encrypt_byte. }
  unfold gcm_seal. cbv zeta. apply Forall_app. split; [by apply xor_bytes_byte|]. unfold gcm_tag. cbv zeta.
  apply xor_bytes_byte; [by apply aes_encrypt_byte|apply be_bytes_is_byte].
Qed.
