(* ===== verification/AuditCrypto.v ===== *)
(** * Envelope encryption of audit payloads ([internal/security/crypto.go])

    Each payload is encrypted under a fresh data key, the data key under the
    active key of a ring; the whole envelope is bound by an HMAC.  The random
    bytes are arguments, [None] when the source fails. *)

From S2P Require Import Prelude GoStr GoCrypto GoAes.
From stdpp Require Import options.
Local Open Scope Z_scope.

(** ** Base64, standard alphabet with padding ([base64.StdEncoding]) *)

Definition b64std_char (d : Z) : Z := if d =? 62 then 43 else if d =? 63 then 47 else b64_char d.
Definition b64std_value (b : Z) : option Z :=
  if b =? 43 then Some 62 else if b =? 47 then Some 63 else if (b =? 45) || (b =? 95) then None else b64_value b.
Definition b64_padding (n : nat) : list Z := replicate ((4 - n mod 4) mod 4) 61.
Definition base64_encode (bs : Bytes) : string :=
  of_bytes ((b64std_char <$> b64_groups bs) ++ b64_padding (length (b64_groups bs))).

Definition b64_unpad (cs : list Z) : list Z :=
  match reverse cs with
  | 61 :: 61 :: r => reverse r
  | 61 :: r => reverse r
  | _ => cs
  end.
(** [DecodeString]: line breaks are skipped, the length is a multiple of four. *)
Definition base64_decode (s : string) : option Bytes :=
  let cs := base.filter (fun b => b <> 10 /\ b <> 13) (go_bytes s) in
  if (length cs mod 4 =? 0)%nat then mapM b64std_value (b64_unpad cs) ≫= b64_ungroup else None.

(** ** The envelope *)

Definition developmentAuditKEK : string := "development-audit-kek-32-bytes!!".

Record EnvelopeCrypto := mkEnvelopeCrypto { ec_activeKeyID : string; keks : gmap string Bytes }.

Inductive CryptoError :=
| NoActiveKEK | ActiveKEKAbsent | BadKEK
| NoRandom | BadKeySize | UnknownKEK | BadEncoding | TooShort | NotAuthentic.

Definition kek_ok (keyID key : string) : Prop := keyID <> ""%string /\ go_len key = 32.
Global Instance kek_ok_dec k s : Decision (kek_ok k s).
Proof. unfold kek_ok. apply _. Defined.

Definition NewEnvelopeCryptoWithKeyring (activeKeyID : string) (keys : gmap string string) : result CryptoError EnvelopeCrypto :=
  guard? bool_decide (activeKeyID = ""%string) else NoActiveKEK;
  guard? negb (bool_decide (is_Some (keys !! activeKeyID))) else ActiveKEKAbsent;
  guard? negb (bool_decide (map_Forall kek_ok keys)) else BadKEK;
  Ok (mkEnvelopeCrypto activeKeyID (go_bytes <$> keys)).

(** [key] is the value of [LOG_KEK]. *)
Definition NewEnvelopeCrypto (key : string) : result CryptoError EnvelopeCrypto :=
  let key := if bool_decide (key = ""%string) then developmentAuditKEK else key in
  NewEnvelopeCryptoWithKeyring "legacy" {["legacy"%string := key]}.

Definition random_bytes (n : nat) (r : option Bytes) : result CryptoError Bytes :=
  match r with
  | Some bs => if (length bs =? n)%nat then Ok bs else Err NoRandom
  | None => Err NoRandom
  end.

Definition encryptAESGCM (random : option Bytes) (plaintext key aad : Bytes) : result CryptoError Bytes :=
  guard? negb (bool_decide (aes_key_size key)) else BadKeySize;
  let? nonce := random_bytes 12 random in
  Ok (nonce ++ gcm_seal key nonce plaintext aad).

Definition decryptAESGCM (ciphertext key aad : Bytes) : result CryptoError Bytes :=
  guard? negb (bool_decide (aes_key_size key)) else BadKeySize;
  guard? (length ciphertext <? 12)%nat else TooShort;
  match gcm_open key (take 12 ciphertext) (drop 12 ciphertext) aad with
  | Some plaintext => Ok plaintext
  | None => Err NotAuthentic
  end.

Definition dek_aad (keyID : string) : Bytes := go_bytes ("audit-dek|v1|" +:+ keyID).

(** The randomness of one encryption: the data key and the two nonces. *)
Record CryptoRandom := mkCryptoRandom { rnd_dek : option Bytes; rnd_payload : option Bytes; rnd_wrap : option Bytes }.

Definition EncryptWithAAD (rnd : CryptoRandom) (e : EnvelopeCrypto) (plaintext aad : Bytes) :
    result CryptoError (string * string * string) :=
  let? dek := random_bytes 32 (rnd_dek rnd) in
  let? ciphertext := encryptAESGCM (rnd_payload rnd) plaintext dek aad in
  let? encryptedDEK := encryptAESGCM (rnd_wrap rnd) dek (default [] (keks e !! ec_activeKeyID e)) (dek_aad (ec_activeKeyID e)) in
  Ok (base64_encode ciphertext, base64_encode encryptedDEK, ec_activeKeyID e).

Definition Encrypt (rnd : CryptoRandom) (e : EnvelopeCrypto) (plaintext : Bytes) : result CryptoError (string * string) :=
  let? (ciphertext, encryptedDEK, _) := EncryptWithAAD rnd e plaintext [] in Ok (ciphertext, encryptedDEK).

Definition decode_text (s : string) : result CryptoError Bytes :=
  match base64_decode s with Some bs => Ok bs | None => Err BadEncoding end.

Definition DecryptWithAAD (e : EnvelopeCrypto) (ciphertextText encryptedDEKText keyID : string) (aad : Bytes) :
    result CryptoError Bytes :=
  match keks e !! keyID with
  | None => Err UnknownKEK
  | Some kek =>
      let? ciphertext := decode_text ciphertextText in
      let? encryptedDEK := decode_text encryptedDEKText in
      let? dek := decryptAESGCM encryptedDEK kek (dek_aad keyID) in
      decryptAESGCM ciphertext dek aad
  end.

Definition Decrypt (e : EnvelopeCrypto) (ciphertext encryptedDEK : string) : result CryptoError Bytes :=
  DecryptWithAAD e ciphertext encryptedDEK (ec_activeKeyID e) [].

(** ** The integrity tag *)

Definition frame_part (part : Bytes) : Bytes := be_bytes 8 (Z.of_nat (length part)) ++ part.
Definition integrity_message (parts : list Bytes) : Bytes := parts ≫= frame_part.
Definition integrity_key (kek : Bytes) : Bytes := hmac_sha256 kek (go_bytes "audit-integrity-key|v1").

Definition IntegrityTag (e : EnvelopeCrypto) (keyID : string) (parts : list Bytes) : result CryptoError string :=
  match keks e !! keyID with
  | None => Err UnknownKEK
  | Some kek => Ok (base64_encode (hmac_sha256 (integrity_key kek) (integrity_message parts)))
  end.

Definition VerifyIntegrityTag (e : EnvelopeCrypto) (tag keyID : string) (parts : list Bytes) : result CryptoError unit :=
  let? want := IntegrityTag e keyID parts in
  let? provided := decode_text tag in
  let expected := default [] (base64_decode want) in
  guard? negb (bool_decide (provided = expected)) else NotAuthentic;
  Ok tt.

(** ** Theorems about envelope encryption *)

Lemma list_filter_all {A} (P : A -> Prop) `{forall x, Decision (P x)} l : Forall P l -> base.filter P l = l.
Proof. induction 1 as [|x l Hx _ IH]; [done|]. by rewrite filter_cons_True, IH. Qed.

(** *** Base64 *)

Lemma b64std_char_value d : 0 <= d < 64 ->
  b64std_value (b64std_char d) = Some d /\ is_byte (b64std_char d) /\ b64std_char d <> 10 /\ b64std_char d <> 13 /\ b64std_char d <> 61.
Proof.
  intros Hd. unfold b64std_value, b64std_char, b64_value, b64_char, is_byte.
  repeat case_match; bool_to_prop; try match goal with H : _ || _ = true |- _ => apply orb_true_iff in H as [?|?] end;
    bool_to_prop; split_and!; try f_equal; try lia.
Qed.

Lemma b64std_chars ds : Forall (fun d => 0 <= d < 64) ds ->
  mapM b64std_value (b64std_char <$> ds) = Some ds
  /\ Forall (fun b => is_byte b /\ (b <> 10 /\ b <> 13) /\ b <> 61) (b64std_char <$> ds).
Proof.
  intros Hds. split.
  - apply mapM_Some_2, Forall2_fmap_l, Forall_Forall2_diag. eapply Forall_impl; [exact Hds|].
    intros d Hd. by apply b64std_char_value.
  - apply Forall_fmap. eapply Forall_impl; [exact Hds|]. intros d Hd. pose proof (b64std_char_value d Hd). cbn. tauto.
Qed.

Lemma b64_groups_mod bs : (length (b64_groups bs) mod 4 <> 1)%nat.
Proof.
  induction bs as [| | |a b c bs IH] using list_triple_ind; try (cbn; done).
  cbn [b64_groups length]. change (S (S (S (S ?n)))) with (4 + n)%nat.
  by replace (4 + length (b64_groups bs))%nat with (length (b64_groups bs) + 1 * 4)%nat by lia; rewrite Nat.Div0.mod_add.
Qed.

Lemma unpad_padded cs n : length cs = n -> (n mod 4 <> 1)%nat -> Forall (fun b => b <> 61) cs -> b64_unpad (cs ++ b64_padding n) = cs.
Proof.
  intros Hl Hn Hcs. unfold b64_unpad, b64_padding. pose proof (Nat.mod_upper_bound n 4 ltac:(lia)).
  assert (forall c r, reverse cs = c :: r -> c <> 61) as Hlast.
  { intros c r E ->. rewrite Forall_forall in Hcs. apply (Hcs 61); [|done]. apply elem_of_reverse. rewrite E. by left. }
  destruct (n mod 4)%nat as [|[|[|[|k]]]]; try lia; cbn [Nat.sub Nat.modulo Nat.divmod fst snd replicate].
  - change ((4 - 0) mod 4)%nat with 0%nat. cbn [replicate]. rewrite app_nil_r. destruct (reverse cs) as [|c r] eqn:E; [done|].
    specialize (Hlast c r eq_refl). destruct (decide (c = 61)); [done|]. repeat (case_match; try done).
  - change ((4 - 2) mod 4)%nat with 2%nat. cbn [replicate]. rewrite reverse_app. cbn. apply reverse_involutive.
  - change ((4 - 3) mod 4)%nat with 1%nat. cbn [replicate]. rewrite reverse_app. cbn.
    destruct (reverse cs) as [|c r] eqn:E; [by rewrite <- (reverse_involutive cs), E|]. specialize (Hlast c r eq_refl).
    rewrite <- (reverse_involutive cs), E. destruct (decide (c = 61)); [done|]. repeat (case_match; try done).
Qed.

Lemma base64_decode_encode bs : Forall is_byte bs -> base64_decode (base64_encode bs) = Some bs.
Proof.
  intros Hbs. destruct (b64std_chars (b64_groups bs) (b64_groups_range bs Hbs)) as [Hv Hc].
  set (cs := b64std_char <$> b64_groups bs) in *. assert (length cs = length (b64_groups bs)) as Hl by (unfold cs; by rewrite length_fmap).
  unfold base64_decode, base64_encode. fold cs. rewrite <- Hl. set (n := length cs).
  assert (n mod 4 <> 1)%nat as Hn by (unfold n; rewrite Hl; apply b64_groups_mod).
  assert (Forall (fun b => is_byte b /\ (b <> 10 /\ b <> 13)) (cs ++ b64_padding n)) as Hall.
  { apply Forall_app. split; [eapply Forall_impl; [exact Hc|cbn; tauto]|]. apply Forall_replicate. unfold is_byte. lia. }
  rewrite go_bytes_of_bytes by (eapply Forall_impl; [exact Hall|cbn; tauto]).
  rewrite list_filter_all by (eapply Forall_impl; [exact Hall|cbn; tauto]).
  assert (length (cs ++ b64_padding n) mod 4 = 0)%nat as Hm.
  { rewrite length_app. unfold b64_padding. rewrite length_replicate. fold n. clear -Hn. pose proof (Nat.mod_upper_bound n 4 ltac:(lia)).
    pose proof (Nat.Div0.div_mod n 4). assert (exists q, n + (4 - n mod 4) mod 4 = q * 4)%nat as [q ->]; [|apply Nat.Div0.mod_mul].
    destruct (n mod 4)%nat as [|[|[|[|k]]]] eqn:E; try lia; [exists (n / 4)%nat|exists (S (n / 4))%nat|exists (S (n / 4))%nat].
    - change ((4 - 0) mod 4)%nat with 0%nat. lia.
    - change ((4 - 2) mod 4)%nat with 2%nat. lia.
    - change ((4 - 3) mod 4)%nat with 1%nat. lia. }
  rewrite Hm. cbn [Nat.eqb]. rewrite unpad_padded; [|done|done|eapply Forall_impl; [exact Hc|cbn; tauto]]. rewrite Hv.
  cbn [mbind option_bind]. by apply b64_ungroup_groups.
Qed.

(** *** The envelope *)

Lemma random_bytes_ok n r bs : random_bytes n r = Ok bs -> r = Some bs /\ length bs = n.
Proof. unfold random_bytes. intros H. destruct r as [b|]; [|done]. destruct (Nat.eqb_spec (length b) n); [|done]. by simplify_eq. Qed.

Lemma decrypt_encrypt_aes rnd plaintext key aad c : encryptAESGCM rnd plaintext key aad = Ok c ->
  decryptAESGCM c key aad = Ok plaintext.
Proof.
  unfold encryptAESGCM, decryptAESGCM. intros H. inv_result. apply random_bytes_ok in E0 as [_ Hn].
  rewrite length_app, Hn, take_app_length', drop_app_length' by done. cbn [Nat.add Nat.ltb Nat.leb]. bool_to_prop.
  by rewrite gcm_open_seal.
Qed.

Lemma encrypt_aes_byte rnd plaintext key aad c : (forall r, rnd = Some r -> Forall is_byte r) -> Forall is_byte plaintext ->
  Forall is_byte key -> encryptAESGCM rnd plaintext key aad = Ok c -> Forall is_byte c.
Proof.
  unfold encryptAESGCM. intros Hr Hp Hk H. inv_result. apply random_bytes_ok in E0 as [-> _].
  apply Forall_app. split; [by apply Hr|]. by apply gcm_seal_byte; [|apply Hr|].
Qed.

(** The randomness is of bytes. *)
Definition random_ok (rnd : CryptoRandom) : Prop :=
  forall r, (rnd_dek rnd = Some r \/ rnd_payload rnd = Some r \/ rnd_wrap rnd = Some r) -> Forall is_byte r.

Definition crypto_ok (e : EnvelopeCrypto) : Prop := map_Forall (fun _ k => Forall is_byte k) (keks e).

Lemma NewEnvelopeCrypto_ok active keys e : NewEnvelopeCryptoWithKeyring active keys = Ok e ->
  crypto_ok e /\ is_Some (keks e !! ec_activeKeyID e) /\ keks e = go_bytes <$> keys /\ ec_activeKeyID e = active.
Proof.
  unfold NewEnvelopeCryptoWithKeyring. intros H. inv_result. bool_to_prop. cbn [keks ec_activeKeyID]. split_and!.
  - intros k v Hk. cbn in Hk. rewrite lookup_fmap in Hk. destruct (keys !! k); cbn in Hk; simplify_eq. apply go_bytes_is_byte.
  - rewrite lookup_fmap. match goal with H : is_Some _ |- _ => destruct H as [v ->] end. by eexists.
  - done.
  - done.
Qed.

(** Whatever the key ring and the randomness, a payload encrypted with additional data is decrypted, by any ring that holds
    the key it names with the same value, to exactly that payload under the same additional data. *)
Lemma decrypt_after_encrypt (rnd : CryptoRandom) (e e' : EnvelopeCrypto) (plaintext aad : Bytes) (c dek keyID : string) :
  random_ok rnd -> crypto_ok e -> Forall is_byte plaintext ->
  EncryptWithAAD rnd e plaintext aad = Ok (c, dek, keyID) ->
  keyID = ec_activeKeyID e
  /\ (is_Some (keks e !! keyID) -> keks e' !! keyID = keks e !! keyID -> DecryptWithAAD e' c dek keyID aad = Ok plaintext).
Proof.
  unfold EncryptWithAAD. intros Hr He Hp H. inv_result. split; [done|]. intros [kek Hkek] He'. rewrite Hkek in *.
  cbn [default from_option id] in *. unfold DecryptWithAAD. rewrite He'.
  match goal with E : random_bytes 32 _ = Ok ?d |- _ => apply random_bytes_ok in E as [Hd _]; rename d into dk end.
  assert (Forall is_byte dk) as Hdk by (apply Hr; by left).
  unfold decode_text. rewrite !base64_decode_encode; cbn [rbind].
  - match goal with E : encryptAESGCM _ dk _ _ = Ok _ |- _ => rewrite (decrypt_encrypt_aes _ _ _ _ _ E) end. cbn [rbind].
    by eapply decrypt_encrypt_aes.
  - eapply encrypt_aes_byte; [| | |eassumption]; [intros r ?; apply Hr; tauto|done|by apply (He (ec_activeKeyID e))].
  - eapply encrypt_aes_byte; [| | |eassumption]; [intros r ?; apply Hr; tauto|done|done].
Qed.

(** *** The tag *)

Lemma frame_part_inj a b r r' : Z.of_nat (length a) < 2 ^ 64 -> Z.of_nat (length b) < 2 ^ 64 ->
  frame_part a ++ r = frame_part b ++ r' -> a = b /\ r = r'.
Proof.
  intros Ha Hb. unfold frame_part. rewrite <- !app_assoc. intros H. apply app_inj_1 in H as [Hl H]; [|by rewrite !length_be_bytes].
  apply be_bytes_inj in Hl; [|change (256 ^ Z.of_nat 8) with (2 ^ 64); lia..]. apply app_inj_1 in H; [done|lia].
Qed.

(** The message under the tag determines the parts. *)
Lemma integrity_message_inj ps : forall qs, length ps = length qs ->
  Forall (fun p => Z.of_nat (length p) < 2 ^ 64) ps -> Forall (fun p => Z.of_nat (length p) < 2 ^ 64) qs ->
  integrity_message ps = integrity_message qs -> ps = qs.
Proof.
  induction ps as [|p ps IH]; intros [|q qs] Hl Hp Hq H; try done. apply Forall_cons in Hp as [? Hp], Hq as [? Hq].
  cbn [length] in Hl. apply frame_part_inj in H as [-> H]; [|done|done]. f_equal. by apply IH; [lia| | |].
Qed.

Lemma IntegrityTag_decodes e keyID parts tag : IntegrityTag e keyID parts = Ok tag ->
  exists kek, keks e !! keyID = Some kek /\ base64_decode tag = Some (hmac_sha256 (integrity_key kek) (integrity_message parts)).
Proof.
  unfold IntegrityTag. destruct (keks e !! keyID) as [kek|]; [|done]. intros [= <-]. exists kek. split; [done|].
  apply base64_decode_encode, hmac_sha256_is_byte.
Qed.

(** A tag is accepted exactly when it is the text of the HMAC of the parts under the key the ring has for the identifier. *)
Lemma VerifyIntegrityTag_iff e tag keyID parts : VerifyIntegrityTag e tag keyID parts = Ok tt <->
  exists kek, keks e !! keyID = Some kek /\ base64_decode tag = Some (hmac_sha256 (integrity_key kek) (integrity_message parts)).
Proof.
  unfold VerifyIntegrityTag. destruct (IntegrityTag e keyID parts) as [want|] eqn:E; cbn [rbind].
  - apply IntegrityTag_decodes in E as (kek & Hk & ->). cbn [default from_option id]. unfold decode_text. split.
    + intros H. exists kek. split; [done|]. inv_result. bool_to_prop. by simplify_eq.
    + intros (kek' & Hk' & ->). simplify_eq. cbn [rbind]. by rewrite bool_decide_true.
  - unfold IntegrityTag in E. split; [done|]. intros (kek & Hk & _). by rewrite Hk in E.
Qed.
