(* ===== verification/Redaction.v ===== *)
(** * Redaction of audited contexts ([internal/audit/redaction.go])

    The two searches over the bytes of a key, as loops over the starts, and
    what the redaction of a context keeps. *)

From S2P Require Import Prelude GoStr.
From stdpp Require Import options.
Local Open Scope Z_scope.

Definition redactedAuditValue : string := "[REDACTED]".

Definition sensitiveAuditKeyFragments : list string :=
  ["authorization"; "credential"; "password"; "private_key"; "api_key"; "apikey"; "secret"; "token"; "proof"; "cookie"; "nonce"]%string.
Definition piiAuditKeyTokens : list string :=
  ["email"; "phone"; "address"; "ip"; "user_agent"; "delegation_chain"; "delegated_by"; "creator_id"]%string.

Definition lowerASCII (b : Z) : Z := lower_byte b.
Definition isAuditKeyDelimiter (b : Z) : bool := (b =? 46) || (b =? 95) || (b =? 45).

(** The inner loop: the bytes of the fragment from a start, letters folded. *)
Fixpoint matched_from (value fragment : list Z) {struct fragment} : bool :=
  match fragment with
  | [] => true
  | f :: fragment' =>
      match value with
      | v :: value' => if lowerASCII v =? lowerASCII f then matched_from value' fragment' else false
      | [] => false
      end
  end.

(** The starts of the outer loop, [start <= len(value)-len(fragment)]. *)
Definition starts (value fragment : list Z) : list nat :=
  if (length value <? length fragment)%nat then [] else seq 0 (length value - length fragment + 1).

Definition containsFoldASCII (value fragment : string) : bool :=
  let v := go_bytes value in
  let f := go_bytes fragment in
  if (length f =? 0)%nat || (length v <? length f)%nat then false
  else existsb (fun start => matched_from (drop start v) f) (starts v f).

(** The byte at an index is a delimiter, or there is none. *)
Definition delimited_at (v : list Z) (i : nat) : bool := match v !! i with Some b => isAuditKeyDelimiter b | None => true end.

Definition hasDelimitedTokenFoldASCII (value token : string) : bool :=
  let v := go_bytes value in
  let t := go_bytes token in
  existsb (fun start =>
      if (0 <? start)%nat && negb (delimited_at v (start - 1)) then false
      else if negb (delimited_at v (start + length t)) then false
      else matched_from (drop start v) t) (starts v t).

Definition shouldRedactAuditContextKey (key : string) : bool :=
  existsb (containsFoldASCII key) sensitiveAuditKeyFragments || existsb (hasDelimitedTokenFoldASCII key) piiAuditKeyTokens.

(** A nil map is [None]. *)
Definition redactedAuditContext (source : gmap string string) : option (gmap string string) :=
  if bool_decide (source = ∅) then None
  else Some (map_imap (fun key value => Some (if shouldRedactAuditContextKey key then redactedAuditValue else value)) source).

Example redact_ex : (shouldRedactAuditContextKey <$> ["client.IP"; "recipient"; "X-API_Key"; "shipping"; "user.email"; "amount"; "delegation_proof"]%string)
  = [true; false; true; false; true; false; true].
Proof. reflexivity. Qed.

(** ** What the searches decide *)

(** [a] without the case of its ASCII letters. *)
Definition folded (s : string) : list Z := lowerASCII <$> go_bytes s.

Lemma matched_from_iff f : forall v, matched_from v f = true <-> exists r, lowerASCII <$> v = (lowerASCII <$> f) ++ r.
Proof.
  induction f as [|b f IH]; intros v; cbn [matched_from].
  { split; [intros _; by exists (lowerASCII <$> v)|done]. }
  destruct v as [|a v]; [by split; [|intros [r Hr]]|]. cbn [fmap list_fmap app]. destruct (Z.eqb_spec (lowerASCII a) (lowerASCII b)) as [E|E].
  - rewrite IH, E. split; intros [r H]; exists r; [by rewrite <- H|by injection H].
  - split; [discriminate|]. intros [r H]. by injection H.
Qed.

Lemma starts_iff v f start : start ∈ starts v f <-> (start + length f <= length v)%nat.
Proof.
  unfold starts. destruct (Nat.ltb_spec (length v) (length f)).
  - split; [by intros ?%elem_of_nil|lia].
  - rewrite elem_of_seq. lia.
Qed.

Lemma existsb_iff {A} (p : A -> bool) l : existsb p l = true <-> exists x, x ∈ l /\ p x = true.
Proof. rewrite existsb_exists. setoid_rewrite <- list_elem_of_In. done. Qed.

Lemma fold_split (v f p r : list Z) : lowerASCII <$> v = p ++ (lowerASCII <$> f) ++ r ->
  (length p + length f <= length v)%nat /\ lowerASCII <$> drop (length p) v = (lowerASCII <$> f) ++ r
  /\ lowerASCII <$> take (length p) v = p.
Proof.
  intros H. split_and!.
  - apply (f_equal length) in H. rewrite !length_app, !length_fmap in H. lia.
  - by rewrite fmap_drop, H, drop_app_length.
  - by rewrite fmap_take, H, take_app_length.
Qed.

(** The first search finds the fragment anywhere, whatever the case. *)
Lemma containsFoldASCII_iff value fragment : fragment <> ""%string ->
  containsFoldASCII value fragment = true <-> exists p r, folded value = p ++ folded fragment ++ r.
Proof.
  intros Hne. unfold containsFoldASCII, folded. cbv zeta. set (v := go_bytes value). set (f := go_bytes fragment).
  assert (length f <> 0)%nat as Hf.
  { unfold f. rewrite length_go_bytes. by destruct fragment. }
  rewrite (proj2 (Nat.eqb_neq _ _) Hf). cbn [orb]. split.
  - destruct (length v <? length f)%nat; [done|]. intros (start & Hs & [r Hr]%matched_from_iff)%existsb_iff.
    exists (lowerASCII <$> take start v), r. by rewrite <- Hr, <- fmap_app, take_drop.
  - intros (p & r & H). apply fold_split in H as (Hl & Hd & _). destruct (Nat.ltb_spec (length v) (length f)); [lia|].
    apply existsb_iff. exists (length p). split; [by apply starts_iff|]. apply matched_from_iff. by eexists.
Qed.

(** The second one, between two delimiters or ends. *)
Lemma hasDelimitedToken_iff value token :
  hasDelimitedTokenFoldASCII value token = true <-> exists p r, folded value = p ++ folded token ++ r
    /\ (forall c, last p = Some c -> isAuditKeyDelimiter c = true) /\ (forall c, head r = Some c -> isAuditKeyDelimiter c = true).
Proof.
  unfold hasDelimitedTokenFoldASCII, folded. cbv zeta. set (v := go_bytes value). set (t := go_bytes token).
  assert (forall b, isAuditKeyDelimiter (lowerASCII b) = isAuditKeyDelimiter b) as Hlow.
  { intros b. unfold isAuditKeyDelimiter, lowerASCII, lower_byte. destruct (_ && _) eqn:E; [|done]. bool_to_prop.
    apply eq_true_iff_eq. rewrite !orb_true_iff, !Z.eqb_eq. lia. }
  assert (forall i b, (lowerASCII <$> v) !! i = Some b -> delimited_at v i = isAuditKeyDelimiter b) as Hat.
  { intros i b E. rewrite list_lookup_fmap in E. unfold delimited_at. destruct (v !! i); [|done]. cbn in E. simplify_eq. by rewrite Hlow. }
  rewrite existsb_iff. split.
  - intros (start & Hs%starts_iff & H). destruct (_ && negb _) eqn:E1; [done|]. destruct (negb (delimited_at v (start + _))) eqn:E2; [done|].
    apply matched_from_iff in H as [r Hr]. exists (lowerASCII <$> take start v), r.
    assert (lowerASCII <$> v = (lowerASCII <$> take start v) ++ (lowerASCII <$> t) ++ r) as Hv by by rewrite <- Hr, <- fmap_app, take_drop.
    split; [done|]. split.
    + intros c Hc. apply andb_false_iff in E1. rewrite last_lookup, length_fmap, length_take, Nat.min_l in Hc by lia.
      destruct start as [|start]; [done|]. destruct E1 as [E1|E1]; [bool_to_prop; lia|]. apply negb_false_iff in E1. cbn [Nat.sub Init.Nat.pred] in *.
      rewrite Nat.sub_0_r in E1. rewrite <- E1. symmetry. apply Hat. rewrite Hv. by rewrite lookup_app_l by by eapply lookup_lt_Some.
    + intros c Hc. apply negb_false_iff in E2. rewrite <- E2. symmetry. apply Hat. rewrite Hv, app_assoc, lookup_app_r; rewrite length_app, !length_fmap, length_take, Nat.min_l by lia; [|lia].
      rewrite Nat.sub_diag. by destruct r.
  - intros (p & r & H & Hp & Hr). pose proof (fold_split v t p r H) as (Hl & Hd & Ht). exists (length p). split; [by apply starts_iff|].
    assert (delimited_at v (length p + length t) = true) as ->.
    { unfold delimited_at. destruct (v !! (length p + length t)%nat) as [b|] eqn:E; [|done]. rewrite <- Hlow. apply Hr.
      assert ((lowerASCII <$> v) !! (length p + length t)%nat = Some (lowerASCII b)) as E' by by rewrite list_lookup_fmap, E.
      rewrite H, app_assoc, lookup_app_r in E' by (rewrite length_app, length_fmap; lia).
      rewrite length_app, length_fmap, Nat.sub_diag in E'. by destruct r. }
    cbn [negb]. destruct (_ && _) eqn:E1; [|by apply matched_from_iff; eexists]. exfalso. bool_to_prop.
    assert (delimited_at v (length p - 1) = true); [|congruence]. unfold delimited_at.
    destruct (v !! (length p - 1)%nat) as [b|] eqn:E; [|done]. rewrite <- Hlow. apply Hp.
    assert ((lowerASCII <$> v) !! (length p - 1)%nat = Some (lowerASCII b)) as E' by by rewrite list_lookup_fmap, E.
    rewrite H, lookup_app_l in E' by lia. rewrite last_lookup. by replace (Init.Nat.pred (length p)) with (length p - 1)%nat by lia.
Qed.

(** A fragment occurs in a key; a token occurs in it between delimiters or ends. *)
Definition occurs_in (key fragment : string) : Prop := exists p r, folded key = p ++ folded fragment ++ r.
Definition token_in (key token : string) : Prop := exists p r, folded key = p ++ folded token ++ r
  /\ (forall c, last p = Some c -> isAuditKeyDelimiter c = true) /\ (forall c, head r = Some c -> isAuditKeyDelimiter c = true).

Lemma should_redact_iff key : shouldRedactAuditContextKey key = true <->
  (exists f, f ∈ sensitiveAuditKeyFragments /\ occurs_in key f) \/ (exists t, t ∈ piiAuditKeyTokens /\ token_in key t).
Proof.
  unfold shouldRedactAuditContextKey. rewrite orb_true_iff, !existsb_iff. unfold occurs_in, token_in.
  assert (forall f, f ∈ sensitiveAuditKeyFragments -> f <> ""%string) as Hne.
  { intros f Hf ->. revert Hf. apply (bool_decide_unpack _). by vm_compute. }
  split; (intros [(x & Hx & H)|(x & Hx & H)]; [left|right]); exists x; (split; [done|]).
  - apply containsFoldASCII_iff; [by apply Hne|done].
  - by apply hasDelimitedToken_iff.
  - apply containsFoldASCII_iff; [by apply Hne|done].
  - by apply hasDelimitedToken_iff.
Qed.

(** The redaction keeps every key of a context, replaces the value exactly at the keys that contain a sensitive fragment
    anywhere or a personal-data token between delimiters, in any case of the letters, and leaves every other value alone. *)
Theorem redaction_exact (source : gmap string string) (key value : string) :
  source !! key = Some value ->
  exists m, redactedAuditContext source = Some m /\ dom m = dom source
  /\ ((exists f, f ∈ sensitiveAuditKeyFragments /\ occurs_in key f) \/ (exists t, t ∈ piiAuditKeyTokens /\ token_in key t) ->
        m !! key = Some redactedAuditValue)
  /\ (~ ((exists f, f ∈ sensitiveAuditKeyFragments /\ occurs_in key f) \/ (exists t, t ∈ piiAuditKeyTokens /\ token_in key t)) ->
        m !! key = Some value).
Proof.
  intros Hk. unfold redactedAuditContext. rewrite bool_decide_false by (intros ->; by rewrite lookup_empty in Hk).
  eexists. split; [done|]. rewrite map_lookup_imap, Hk. cbn [mbind option_bind]. rewrite <- should_redact_iff. split_and!.
  - apply set_eq. intros k. rewrite !elem_of_dom, map_lookup_imap. destruct (source !! k); cbn; [|done].
    split; intros _; by eexists.
  - by intros ->.
  - by intros ->%not_true_is_false.
Qed.

Lemma redaction_exact_witness : exists m, redactedAuditContext {["amount"%string := "7"%string]} = Some m
  /\ m !! "amount"%string = Some "7"%string.
Proof.
  destruct (redaction_exact {["amount"%string := "7"%string]} "amount" "7") as (m & Hm & _ & _ & H); [by apply lookup_singleton_eq|].
  exists m. split; [done|]. apply H. rewrite <- should_redact_iff. by vm_compute.
Defined.
