(* ===== verification/AuditRecord.v ===== *)
(** * Audit records ([internal/audit/logger.go], [secure.go], [stream_codec.go])

    The record of a decision, its JSON form, the sealing of its payload and the
    line of the stream logger.  A time of a record is a number of nanoseconds
    since the epoch; the escapes a JSON time may hold are decoded as in every
    other string. *)

From S2P Require Import Prelude GoStr GoTime GoJson GoCrypto AuditCrypto Redaction.
From stdpp Require Import options.
Local Open Scope Z_scope.

(** ** Dates *)

(** The date of a number of days since the epoch. *)
Definition civil_from_days (z : Z) : Z * Z * Z :=
  let z := z + 719468 in
  let era := z / 146097 in
  let doe := z - era * 146097 in
  let yoe := (doe - doe / 1460 + doe / 36524 - doe / 146096) / 365 in
  let doy := doe - (365 * yoe + yoe / 4 - yoe / 100) in
  let mp := (5 * doy + 2) / 153 in
  let d := doy - (153 * mp + 2) / 5 + 1 in
  let m := if mp <? 10 then mp + 3 else mp - 9 in
  (yoe + era * 400 + (if m <=? 2 then 1 else 0), m, d).

(** [time.Unix(0, t).UTC()]. *)
Definition utc_of_nanos (t : Z) : civil :=
  let secs := t / 1000000000 in
  let '(y, m, d) := civil_from_days (secs / 86400) in
  let s := secs mod 86400 in
  mkCivil y m d (s / 3600) (s / 60 mod 60) (s mod 60) (t mod 1000000000) 0.

Definition format_date (t : civil) : list Z :=
  fixed_digits 4 (year t) [] ++ [45] ++ fixed_digits 2 (month t) [] ++ [45] ++ fixed_digits 2 (day t) [].

(** The fraction of a second without its final zeros. *)
Definition fraction_text (ns : Z) : list Z :=
  match reverse (drop_while (fun b => b =? 48) (reverse (fixed_digits 9 ns []))) with [] => [] | ds => 46 :: ds end.
(** [t.Format(time.RFC3339Nano)] of a UTC time. *)
Definition format_rfc3339_nano (t : civil) : list Z :=
  format_date t ++ [84] ++ fixed_digits 2 (hour t) [] ++ [58] ++ fixed_digits 2 (minute t) [] ++ [58]
  ++ fixed_digits 2 (second t) [] ++ fraction_text (nsec t) ++ [90].

(** The extra tests of [parseStrictRFC3339]: two digits of hours, no comma, an offset below 24 hours. *)
Definition strict_rfc3339 (bs : list Z) : bool :=
  negb (bool_decide (bs !! 12%nat = Some 58)) && negb (bool_decide (bs !! 19%nat = Some 44))
  && match last bs with
     | Some 90 => true
     | _ => let n := length bs in
            match digit_at bs (n - 5), digit_at bs (n - 4), digit_at bs (n - 2), digit_at bs (n - 1) with
            | Some h1, Some h0, Some m1, Some m0 => (h1 * 10 + h0 <? 24) && (m1 * 10 + m0 <? 60)
            | _, _, _, _ => false
            end
     end.
Definition parse_json_time (s : string) : option Z :=
  if strict_rfc3339 (go_bytes s) then (fun t => unix_seconds t * 1000000000 + nsec t) <$> ParseRFC3339 s else None.

(** The zero [time.Time], 0001-01-01T00:00:00Z. *)
Definition zero_time_nanos : Z := -62135596800 * 1000000000.

Example date_ex1 : format_rfc3339_nano (utc_of_nanos zero_time_nanos) = go_bytes "0001-01-01T00:00:00Z".
Proof. reflexivity. Qed.
Example date_ex2 : format_rfc3339_nano (utc_of_nanos 1735689599123456700) = go_bytes "2024-12-31T23:59:59.1234567Z".
Proof. reflexivity. Qed.
Example date_ex3 : parse_json_time "2024-02-29T12:00:00+02:00" = Some (1709200800 * 1000000000).
Proof. reflexivity. Qed.

(** ** Records *)

(** [Context] is [None] for a nil map. *)
Record LogEntry := mkLogEntry {
  le_AuditID : string;
  le_PayloadVersion : Z;
  le_Timestamp : Z;
  le_RevisionID : Z;
  le_TenantID : string;
  le_Subject : string;
  le_Action : string;
  le_Resource : string;
  le_Decision : string;
  le_MatchedPolicyID : string;
  le_Context : option (gmap string string);
  le_EvaluatedAt : Z;
  le_IsEncrypted : bool;
  le_KeyID : string;
  le_RequestID : string;
  le_TraceID : string;
  le_EncryptedDEK : string;
  le_EncryptedPayload : string;
  le_IntegrityTag : string
}.

Definition zero_entry : LogEntry := mkLogEntry "" 0 0 0 "" "" "" "" "" "" None zero_time_nanos false "" "" "" "" "" "".

(** ** JSON *)


(** [json.Marshal] of a record; a time is never empty. *)
Definition entry_members (e : LogEntry) : list (string * json) :=
  str_member "audit_id" (le_AuditID e) ++ [("payload_version"%string, json_int (le_PayloadVersion e));
     ("ts"%string, json_int (le_Timestamp e)); ("rev"%string, json_int (le_RevisionID e))]
  ++ str_member "tenant_id" (le_TenantID e) ++ str_member "subject" (le_Subject e) ++ str_member "action" (le_Action e)
  ++ str_member "resource" (le_Resource e) ++ str_member "decision" (le_Decision e)
  ++ opt_member "matched_policy_id" (le_MatchedPolicyID e) ++ map_member "context" (le_Context e)
  ++ str_member "evaluated_at" (of_bytes (format_rfc3339_nano (utc_of_nanos (le_EvaluatedAt e))))
  ++ (if le_IsEncrypted e then [("is_encrypted"%string, JBool true)] else [])
  ++ opt_member "key_id" (le_KeyID e) ++ opt_member "request_id" (le_RequestID e) ++ opt_member "trace_id" (le_TraceID e)
  ++ opt_member "encrypted_dek" (le_EncryptedDEK e) ++ opt_member "encrypted_payload" (le_EncryptedPayload e)
  ++ opt_member "integrity_tag" (le_IntegrityTag e).
(** The year of the time must have four digits. *)
Definition entry_json (e : LogEntry) : option json :=
  let y := year (utc_of_nanos (le_EvaluatedAt e)) in
  if (0 <=? y) && (y <=? 9999) then Some (JObject (entry_members e)) else None.

(** *** Reading a record *)

Definition into_time (old : Z) (v : json) : option Z :=
  match v with JString s => parse_json_time s | JNull => Some old | _ => None end.
Definition entry_names : list string :=
  ["audit_id"; "payload_version"; "ts"; "rev"; "tenant_id"; "subject"; "action"; "resource"; "decision"; "matched_policy_id";
   "context"; "evaluated_at"; "is_encrypted"; "key_id"; "request_id"; "trace_id"; "encrypted_dek"; "encrypted_payload";
   "integrity_tag"]%string.

Definition decode_entry (kvs : list (string * json)) : option LogEntry :=
  let str k := decode_field entry_names k into_str ""%string kvs in
  let int k := decode_field entry_names k into_int 0 kvs in
  auditID ← str "audit_id"%string; version ← int "payload_version"%string; ts ← int "ts"%string;
  rev ← decode_field entry_names "rev" into_uint 0 kvs;
  tenant ← str "tenant_id"%string; subject ← str "subject"%string; action ← str "action"%string;
  resource ← str "resource"%string; decision ← str "decision"%string; matched ← str "matched_policy_id"%string;
  context ← decode_field entry_names "context" into_map_field None kvs;
  evaluatedAt ← decode_field entry_names "evaluated_at" into_time zero_time_nanos kvs;
  encrypted ← decode_field entry_names "is_encrypted" into_bool false kvs;
  keyID ← str "key_id"%string; requestID ← str "request_id"%string; traceID ← str "trace_id"%string;
  dek ← str "encrypted_dek"%string; payload ← str "encrypted_payload"%string; tag ← str "integrity_tag"%string;
  Some (mkLogEntry auditID version ts rev tenant subject action resource decision matched context evaluatedAt encrypted
          keyID requestID traceID dek payload tag).

(** [json.Unmarshal] into a record. *)
Definition into_entry (v : json) : option LogEntry :=
  match v with JObject kvs => decode_entry kvs | JNull => Some zero_entry | _ => None end.

Definition with_evaluated (e : LogEntry) (t : Z) : LogEntry :=
  mkLogEntry (le_AuditID e) (le_PayloadVersion e) (le_Timestamp e) (le_RevisionID e) (le_TenantID e) (le_Subject e) (le_Action e)
    (le_Resource e) (le_Decision e) (le_MatchedPolicyID e) (le_Context e) t (le_IsEncrypted e) (le_KeyID e) (le_RequestID e)
    (le_TraceID e) (le_EncryptedDEK e) (le_EncryptedPayload e) (le_IntegrityTag e).

Definition DecodeNDJSONLogEntry (data : string) : option LogEntry :=
  if bool_decide (data = ""%string) then None
  else
    entry ← json_parse data ≫= into_entry;
    Some (if 0 <? le_Timestamp entry then with_evaluated entry (le_Timestamp entry) else entry).
Definition DecodeBinaryLogEntry (data : string) : option LogEntry := DecodeNDJSONLogEntry data.

(** ** Sealing *)

Definition auditPayloadVersion : Z := 1.

Record AuditPayload := mkAuditPayload {
  ap_Subject : string;
  ap_Action : string;
  ap_Resource : string;
  ap_Context : option (gmap string string)
}.

Definition payload_json (p : AuditPayload) : json :=
  JObject (str_member "subject" (ap_Subject p) ++ str_member "action" (ap_Action p) ++ str_member "resource" (ap_Resource p)
           ++ map_member "context" (ap_Context p)).
Definition payload_names : list string := ["subject"; "action"; "resource"; "context"]%string.
Definition into_payload (v : json) : option AuditPayload :=
  match v with
  | JObject kvs =>
      let str k := decode_field payload_names k into_str ""%string kvs in
      subject ← str "subject"%string; action ← str "action"%string; resource ← str "resource"%string;
      context ← decode_field payload_names "context" into_map_field None kvs;
      Some (mkAuditPayload subject action resource context)
  | JNull => Some (mkAuditPayload "" "" "" None)
  | _ => None
  end.

(** [auditAAD], the members that stay in clear and are authenticated. *)
Definition aad_json (e : LogEntry) : json :=
  JObject ([("v"%string, json_int (le_PayloadVersion e))] ++ str_member "audit_id" (le_AuditID e)
    ++ [("ts"%string, json_int (le_Timestamp e)); ("rev"%string, json_int (le_RevisionID e))]
    ++ str_member "tenant_id" (le_TenantID e) ++ str_member "decision" (le_Decision e)
    ++ opt_member "matched_policy_id" (le_MatchedPolicyID e) ++ opt_member "request_id" (le_RequestID e)
    ++ opt_member "trace_id" (le_TraceID e) ++ str_member "key_id" (le_KeyID e)).
Definition auditEntryAAD (e : LogEntry) : Bytes := go_bytes (json_text (aad_json e)).

Definition tag_parts (e : LogEntry) : list Bytes := [auditEntryAAD e; go_bytes (le_EncryptedDEK e); go_bytes (le_EncryptedPayload e)].

(** The entry with its identifiers, before the encryption. *)
Definition identified (auditID keyID : string) (e : LogEntry) : LogEntry :=
  let ctx := default ∅ (le_Context e) in
  mkLogEntry auditID auditPayloadVersion (le_Timestamp e) (le_RevisionID e) (le_TenantID e) (le_Subject e) (le_Action e)
    (le_Resource e) (le_Decision e) (le_MatchedPolicyID e) (le_Context e) (le_EvaluatedAt e) (le_IsEncrypted e) keyID
    (default ""%string (ctx !! "request_id"%string)) (default ""%string (ctx !! "trace_id"%string))
    (le_EncryptedDEK e) (le_EncryptedPayload e) (le_IntegrityTag e).
(** The entry with its envelope: what was encrypted is cleared. *)
Definition enveloped (e : LogEntry) (keyID dek payload tag : string) : LogEntry :=
  mkLogEntry (le_AuditID e) (le_PayloadVersion e) (le_Timestamp e) (le_RevisionID e) (le_TenantID e) "" "" ""
    (le_Decision e) (le_MatchedPolicyID e) None (le_EvaluatedAt e) true keyID (le_RequestID e) (le_TraceID e) dek payload tag.

Definition payload_of (e : LogEntry) : AuditPayload :=
  mkAuditPayload (le_Subject e) (le_Action e) (le_Resource e) (le_Context e).

(** [uuid] is what the generator gives, [None] when it fails. *)
Definition sealAuditEntry (uuid : option string) (rnd : CryptoRandom) (crypto : option EnvelopeCrypto) (entry : LogEntry) :
    option LogEntry :=
  crypto ← crypto;
  auditID ← uuid;
  let e1 := identified auditID (ec_activeKeyID crypto) entry in
  let aad := auditEntryAAD e1 in
  '(ciphertext, encryptedDEK, keyID) ← to_option (EncryptWithAAD rnd crypto (go_bytes (json_text (payload_json (payload_of e1)))) aad);
  tag ← to_option (IntegrityTag crypto keyID [aad; go_bytes encryptedDEK; go_bytes ciphertext]);
  Some (enveloped e1 keyID encryptedDEK ciphertext tag).

Definition VerifyAndDecryptEntry (crypto : EnvelopeCrypto) (entry : option LogEntry) : option AuditPayload :=
  entry ← entry;
  if negb (le_IsEncrypted entry) || negb (le_PayloadVersion entry =? auditPayloadVersion) then None
  else
    _ ← to_option (VerifyIntegrityTag crypto (le_IntegrityTag entry) (le_KeyID entry) (tag_parts entry));
    plaintext ← to_option (DecryptWithAAD crypto (le_EncryptedPayload entry) (le_EncryptedDEK entry) (le_KeyID entry)
                             (auditEntryAAD entry));
    json_parse (of_bytes plaintext) ≫= into_payload.

(** ** The line of the stream logger *)

Definition escape_byte (b : Z) : list Z :=
  if b =? 34 then [92; 34] else if b =? 92 then [92; 92] else if b =? 10 then [92; 110] else if b =? 13 then [92; 114]
  else if b =? 9 then [92; 116] else [b].
Definition escapeJSON (dst : list Z) (value : string) : list Z := dst ++ (go_bytes value ≫= escape_byte).

(** A string between quotes. *)
Definition quoted (s : string) : list Z := 34 :: escapeJSON [] s ++ [34].
Definition raw_key (k : string) : list Z := [34] ++ go_bytes k ++ [34; 58].

Definition stream_context_member (kv : string * string) : list Z :=
  quoted kv.1 ++ 58 :: (if shouldRedactAuditContextKey kv.1 then 34 :: go_bytes redactedAuditValue ++ [34] else quoted kv.2).
(** The context, in the order its entries are met. *)
Definition stream_context (ctx : list (string * string)) : list Z :=
  match ctx with
  | [] => []
  | _ => 44 :: raw_key "context" ++ 123 :: join_runes (stream_context_member <$> ctx) ++ [125]
  end.

(** The bytes [Log] writes without a batch writer. *)
Definition stream_line (now revision : Z) (tenantID subject action resource decision matchedPolicyID : string)
    (ctx : list (string * string)) : list Z :=
  123 :: join_runes
    [raw_key "ts" ++ format_int_bytes now; raw_key "rev" ++ format_int_bytes revision; raw_key "tenant_id" ++ quoted tenantID;
     raw_key "subject" ++ quoted subject; raw_key "action" ++ quoted action; raw_key "resource" ++ quoted resource;
     raw_key "decision" ++ 34 :: go_bytes decision ++ [34]; raw_key "matched_policy_id" ++ quoted matchedPolicyID]
  ++ stream_context ctx ++ [125; 10].

Example stream_ex : DecodeNDJSONLogEntry (of_bytes (stream_line 1 2 "t" "u'x" "a" "r\" "ALLOW" "p" [("ip", "1.2.3.4"); ("k", "v")])%string)
  = Some (mkLogEntry "" 0 1 2 "t" "u'x" "a" "r\" "ALLOW" "p"
            (Some {["ip" := redactedAuditValue; "k" := "v"]}) 1 false "" "" "" "" "" "")%string.
Proof. vm_compute. reflexivity. Qed.
