(* ===== verification/AuditRecordFacts.v ===== *)
(** * Theorems about audit records *)

From S2P Require Import Prelude GoStr GoTime GoJson GoJsonFacts GoCrypto Canonical PoLines DecimalFacts IntText.
From S2P Require Import GoAes AuditCrypto Redaction AuditRecord.
From stdpp Require Import options.
Local Open Scope Z_scope.

(** ** Numbers *)

Lemma stops_no_fraction l : stops l -> read_fraction l = Some ([], l) /\ read_exponent l = Some ([], l).
Proof.
  destruct l as [|r l]; [done|]. intros (_ & H1 & H2 & H3). cbn [read_fraction read_exponent].
  by rewrite (proj2 (Z.eqb_neq _ _) H1), (proj2 (Z.eqb_neq _ _) H2), (proj2 (Z.eqb_neq _ _) H3).
Qed.

Lemma digit_range b : is_digit_byte b = true -> 48 <= b <= 57.
Proof. unfold is_digit_byte. intros H. bool_to_prop. lia. Qed.

Lemma number_ok_digits neg ds : integer_part ds -> number_ok (of_bytes ((if neg : bool then [45] else []) ++ ds)).
Proof.
  intros Hi. pose proof Hi as [Hd Hh]. destruct (integer_part_cons ds Hi) as (b & r & Hb & Hdig).
  pose proof (digit_range b Hdig) as Hr.
  assert (rune_lit (of_bytes ((if neg then [45] else []) ++ ds)) = (if neg then [45] else []) ++ ds) as E.
  { apply go_bytes_of_bytes, Forall_app. split; [destruct neg; [apply Forall_singleton; unfold is_byte; lia|constructor]|]. by apply all_digits_byte. }
  unfold number_ok. rewrite E. split_and!.
  - destruct neg; [by exists 45, ds; split; [|right]|]. exists b, r. rewrite Hb. by split; [|left].
  - apply Forall_app. split; [destruct neg; [apply Forall_singleton; unfold is_byte; lia|constructor]|]. eapply Forall_impl; [exact Hd|].
    intros x Hx%digit_range. lia.
  - intros l Hl. destruct (stops_no_fraction l Hl) as [Hf He]. unfold read_number.
    assert ((if b =? 48 then ([48], r ++ l) else span_digits (b :: r ++ l)) = (ds, l)) as Hspan.
    { destruct Hh as [->|(b' & r' & E' & Hnz)]; [by injection Hb as <- <-|]. rewrite E' in Hb. injection Hb as <- <-.
      assert (b' <> 48) as Hne by (unfold nonzero_digit in Hnz; bool_to_prop; lia).
      rewrite (proj2 (Z.eqb_neq _ _) Hne). change (b' :: r' ++ l) with ((b' :: r') ++ l). rewrite <- E'.
      apply span_digits_app; [done|destruct l; [done|by destruct Hl]]. }
    rewrite Hb. destruct neg; cbn [app].
    + cbn [Z.eqb Pos.eqb]. rewrite Hdig. cbn [negb]. rewrite Hspan, Hf. cbn [mbind option_bind]. rewrite He. cbn [mbind option_bind].
      by rewrite !app_nil_r, <- Hb.
    + rewrite (proj2 (Z.eqb_neq b 45)) by lia. rewrite Hdig. cbn [negb]. rewrite Hspan, Hf. cbn [mbind option_bind]. rewrite He. cbn [mbind option_bind].
      by rewrite !app_nil_r, <- Hb.
Qed.

Lemma number_ok_FormatInt n : - 2 ^ 63 <= n < 2 ^ 64 -> number_ok (FormatInt n).
Proof.
  intros Hn. unfold FormatInt, format_int_bytes. assert (2 ^ 64 < 10 ^ Z.of_nat 20) by done. destruct (Z.ltb_spec n 0).
  - destruct (dec_digits_spec 20 (- n) [] ltac:(lia) ltac:(done)) as (ds & -> & Hi & _). rewrite app_nil_r.
    by apply (number_ok_digits true).
  - destruct (dec_digits_spec 20 n [] ltac:(lia) ltac:(done)) as (ds & -> & Hi & _). rewrite app_nil_r.
    by apply (number_ok_digits false).
Qed.

Lemma ParseUint_FormatInt n : is_uint64 n -> ParseUint (FormatInt n) = Some n.
Proof.
  intros Hn. unfold ParseUint, FormatInt, format_int_bytes. assert (2 ^ 64 < 10 ^ Z.of_nat 20) by done. unfold is_uint64 in Hn.
  destruct (Z.ltb_spec n 0); [lia|]. destruct (dec_digits_spec 20 n [] ltac:(lia) ltac:(done)) as (ds & -> & Hi & Hv).
  rewrite app_nil_r, go_bytes_of_bytes by apply all_digits_byte, Hi. rewrite parse_digits_value by done.
  cbn [mbind option_bind]. by rewrite Hv, bool_decide_true.
Qed.

(** ** Reading the fields of an object *)

Section Fields.
Context {A : Type} (names : list string) (k : string) (f : A -> json -> option A).

Lemma decode_field_none kvs :
  foldl (fun acc kv => a ← acc; if bool_decide (field_of names kv.1 = Some k) then f a kv.2 else Some a) None kvs = None.
Proof. by induction kvs. Qed.

Lemma decode_field_app a l1 l2 :
  decode_field names k f a (l1 ++ l2) = decode_field names k f a l1 ≫= fun a' => decode_field names k f a' l2.
Proof.
  unfold decode_field. rewrite foldl_app. destruct (foldl _ (Some a) l1) as [a'|]; [done|]. apply decode_field_none.
Qed.

Lemma decode_field_one a key v :
  decode_field names k f a [(key, v)] = if bool_decide (field_of names key = Some k) then f a v else Some a.
Proof. done. Qed.

Lemma decode_field_str a key s :
  decode_field names k f a (str_member key s) = if bool_decide (field_of names key = Some k) then f a (JString s) else Some a.
Proof. done. Qed.

Lemma decode_opt_other a key s : bool_decide (field_of names key = Some k) = false ->
  decode_field names k f a (opt_member key s) = Some a.
Proof. intros H. unfold opt_member. destruct (bool_decide (s = _)); [done|]. by rewrite decode_field_one, H. Qed.

Lemma decode_map_other a key m : bool_decide (field_of names key = Some k) = false ->
  decode_field names k f a (map_member key m) = Some a.
Proof. intros H. unfold map_member. destruct m as [m|]; [|done]. destruct (bool_decide (m = ∅)); [done|]. by rewrite decode_field_one, H. Qed.

Lemma decode_if_other a (b : bool) key v : bool_decide (field_of names key = Some k) = false ->
  decode_field names k f a (if b then [(key, v)] else []) = Some a.
Proof. intros H. destruct b; [|done]. by rewrite decode_field_one, H. Qed.
End Fields.

Lemma decode_opt_own names k s : bool_decide (field_of names k = Some k) = true ->
  decode_field names k into_str ""%string (opt_member k s) = Some s.
Proof.
  intros H. unfold opt_member. destruct (decide (s = EmptyString)) as [->|E]; [done|].
  rewrite (bool_decide_false (s = _)) by done. by rewrite decode_field_one, H.
Qed.

Lemma decode_if_own names k (b : bool) : bool_decide (field_of names k = Some k) = true ->
  decode_field names k into_bool false (if b then [(k, JBool true)] else []) = Some b.
Proof. intros H. destruct b; [|done]. by rewrite decode_field_one, H. Qed.

(** A map the encoding can tell from a nil one. *)
Definition context_ok (m : option (gmap string string)) : Prop :=
  match m with Some m => m <> ∅ /\ map_Forall (fun k v => utf8_valid k = true /\ utf8_valid v = true) m | None => True end.

Lemma into_map_json (m : gmap string string) : into_map_field None (json_map m) = Some (Some m).
Proof.
  unfold into_map_field, json_map. cbn [default from_option id].
  destruct (into_map_entries (fun k => default ""%string (m !! k)) (sort_strings (map_to_list m).*1) ∅) as (m' & -> & Hl).
  cbn [mbind option_bind]. do 2 f_equal. apply map_eq. intros k. rewrite Hl.
  destruct (decide _) as [Hk|Hk]; unfold sort_strings in Hk; rewrite merge_sort_Permutation in Hk.
  - apply list_elem_of_fmap in Hk as ([k' v] & -> & Hk%elem_of_map_to_list). cbn [fst]. by rewrite Hk.
  - rewrite lookup_empty. destruct (m !! k) as [v|] eqn:E; [|done]. exfalso. apply Hk.
    apply list_elem_of_fmap. exists (k, v). split; [done|]. by apply elem_of_map_to_list.
Qed.

Lemma decode_map_own names k m : bool_decide (field_of names k = Some k) = true -> m <> Some ∅ ->
  decode_field names k into_map_field None (map_member k m) = Some m.
Proof.
  intros H Hm. unfold map_member. destruct m as [m|]; [|done]. rewrite (bool_decide_false (m = ∅)) by (intros ->; by apply Hm).
  rewrite decode_field_one, H. apply into_map_json.
Qed.

Definition zero_time_text : string := "0001-01-01T00:00:00Z".
Lemma zero_time_read : parse_json_time zero_time_text = Some zero_time_nanos.
Proof. reflexivity. Qed.

(** The decoding of one field, member by member. *)
Ltac decide_names :=
  repeat match goal with |- context [bool_decide (field_of ?n ?k = Some ?k')] =>
    let b := eval vm_compute in (bool_decide (field_of n k = Some k')) in
    change (bool_decide (field_of n k = Some k')) with b end; cbv iota.
Ltac decode_step :=
  first [ rewrite decode_field_app | rewrite ParseInt_FormatInt by assumption | rewrite ParseUint_FormatInt by assumption
        | rewrite zero_time_read | rewrite decode_field_str | rewrite decode_field_one
        | rewrite decode_opt_own by (vm_compute; reflexivity) | rewrite decode_opt_other by (vm_compute; reflexivity)
        | rewrite decode_map_own by first [vm_compute; reflexivity | done] | rewrite decode_map_other by (vm_compute; reflexivity)
        | rewrite decode_if_own by (vm_compute; reflexivity) | rewrite decode_if_other by (vm_compute; reflexivity) ];
  decide_names; cbn [mbind option_bind into_str into_int into_uint into_time json_int].
(** The next field of a decoder. *)
Ltac next_field := match goal with |- ?d ≫= _ = _ =>
  let E := fresh in eassert (d = Some _) as E by (repeat decode_step; reflexivity); rewrite E; clear E; cbn [mbind option_bind] end.

(** ** Records and their text *)

Definition member_ok (kv : string * json) : Prop := utf8_valid kv.1 = true /\ json_ok kv.2.
Lemma str_member_ok k s : utf8_valid k = true -> utf8_valid s = true -> Forall member_ok (str_member k s).
Proof. intros Hk Hs. by apply Forall_singleton. Qed.
Lemma opt_member_ok k s : utf8_valid k = true -> utf8_valid s = true -> Forall member_ok (opt_member k s).
Proof. intros Hk Hs. unfold opt_member. destruct (bool_decide _); [constructor|by apply Forall_singleton]. Qed.
Lemma int_member_ok k n : utf8_valid k = true -> - 2 ^ 63 <= n < 2 ^ 64 -> Forall member_ok [(k, json_int n)].
Proof. intros Hk Hn. apply Forall_singleton. split; [done|]. by apply number_ok_FormatInt. Qed.
Lemma map_member_ok k m : utf8_valid k = true -> context_ok m -> Forall member_ok (map_member k m).
Proof.
  intros Hk Hm. unfold map_member. destruct m as [m|]; [|constructor]. destruct (bool_decide _); [constructor|].
  apply Forall_singleton. split; [done|]. apply json_map_ok, Hm.
Qed.
Lemma bool_member_ok k (b : bool) : utf8_valid k = true -> Forall member_ok (if b then [(k, JBool true)] else []).
Proof. intros Hk. destruct b; [by apply Forall_singleton|constructor]. Qed.

(** The members are not nested more than once. *)
Lemma members_depth kvs : Forall (fun kv : string * json => json_depth kv.2 <= 1) kvs -> json_depth (JObject kvs) <= 2.
Proof. intros H. cbn [json_depth]. induction H as [|kv kvs Hkv _ IH]; cbn; [lia|]. lia. Qed.
Lemma flat_str k s : Forall (fun kv : string * json => json_depth kv.2 <= 1) (str_member k s).
Proof. apply Forall_singleton. cbn. lia. Qed.
Lemma flat_opt k s : Forall (fun kv : string * json => json_depth kv.2 <= 1) (opt_member k s).
Proof. unfold opt_member. destruct (bool_decide _); [constructor|apply flat_str]. Qed.
Lemma flat_int k n : Forall (fun kv : string * json => json_depth kv.2 <= 1) [(k, json_int n)].
Proof. apply Forall_singleton. cbn. lia. Qed.
Lemma flat_bool k (b : bool) : Forall (fun kv : string * json => json_depth kv.2 <= 1) (if b then [(k, JBool true)] else []).
Proof. destruct b; [|constructor]. apply Forall_singleton. cbn. lia. Qed.
Lemma json_map_flat m : json_depth (json_map m) <= 1.
Proof.
  unfold json_map. cbn [json_depth]. generalize (sort_strings (map_to_list m).*1). intros ks.
  induction ks as [|k ks IH]; cbn in *; lia.
Qed.
Lemma flat_map k m : Forall (fun kv : string * json => json_depth kv.2 <= 1) (map_member k m).
Proof. unfold map_member. destruct m as [m|]; [|constructor]. destruct (bool_decide _); [constructor|]. apply Forall_singleton, json_map_flat. Qed.

Create HintDb members.
#[export] Hint Resolve str_member_ok opt_member_ok int_member_ok map_member_ok bool_member_ok flat_str flat_opt flat_int flat_bool flat_map : members.
#[export] Hint Extern 1 (utf8_valid _ = true) => first [assumption | vm_compute; reflexivity] : members.
Ltac members := repeat (apply Forall_app; split); auto with members.

(** A record as the sealing leaves it, before or after: its texts are UTF-8, its numbers have their width, its evaluation time
    is not set. *)
Record entry_ok (e : LogEntry) : Prop := {
  ok_version : is_int64 (le_PayloadVersion e);
  ok_timestamp : is_int64 (le_Timestamp e);
  ok_revision : is_uint64 (le_RevisionID e);
  ok_evaluated : le_EvaluatedAt e = zero_time_nanos;
  ok_context : context_ok (le_Context e);
  ok_strings : Forall (fun s => utf8_valid s = true)
    [le_AuditID e; le_TenantID e; le_Subject e; le_Action e; le_Resource e; le_Decision e; le_MatchedPolicyID e; le_KeyID e;
     le_RequestID e; le_TraceID e; le_EncryptedDEK e; le_EncryptedPayload e; le_IntegrityTag e]
}.

Lemma int64_number n : is_int64 n -> - 2 ^ 63 <= n < 2 ^ 64.
Proof. unfold is_int64, min_int64, max_int64. lia. Qed.
Lemma uint64_number n : is_uint64 n -> - 2 ^ 63 <= n < 2 ^ 64.
Proof. unfold is_uint64. lia. Qed.
#[export] Hint Resolve int64_number uint64_number : members.

Lemma context_not_empty m : context_ok m -> m <> Some ∅.
Proof. intros H ->. by destruct H. Qed.

Lemma decode_entry_members e : entry_ok e -> decode_entry (entry_members e) = Some e.
Proof.
  intros [Hv Ht Hr He Hc _]. apply context_not_empty in Hc. unfold decode_entry, entry_members. rewrite He. cbv zeta.
  change (?a :: ?b :: [?c]) with ([a] ++ [b] ++ [c]).
  change (of_bytes (format_rfc3339_nano (utc_of_nanos zero_time_nanos))) with zero_time_text.
  do 19 next_field. destruct e. cbn in *. by subst.
Qed.

Lemma Forall_strings_13 (P : string -> Prop) a b c d f g h i j k l m n : Forall P [a; b; c; d; f; g; h; i; j; k; l; m; n] ->
  P a /\ P b /\ P c /\ P d /\ P f /\ P g /\ P h /\ P i /\ P j /\ P k /\ P l /\ P m /\ P n.
Proof. intros H. repeat (apply Forall_cons in H as [? H]). tauto. Qed.

Lemma entry_members_json e : entry_ok e -> json_ok (JObject (entry_members e)) /\ json_depth (JObject (entry_members e)) <= 2.
Proof.
  intros [Hv Ht Hr He Hc Hs]. apply Forall_strings_13 in Hs. destruct_and! Hs. unfold entry_members. rewrite He.
  change (?a :: ?b :: [?c]) with ([a] ++ [b] ++ [c]).
  change (of_bytes (format_rfc3339_nano (utc_of_nanos zero_time_nanos))) with zero_time_text.
  split; [apply json_ok_object|apply members_depth]; members.
Qed.

(** The JSON text of a sealed record is read back as the record, field by field. *)
Theorem record_round_trip (e : LogEntry) : entry_ok e ->
  exists v, entry_json e = Some v /\ json_parse (json_text v) ≫= into_entry = Some e.
Proof.
  intros He. exists (JObject (entry_members e)). split.
  - unfold entry_json. destruct He as [_ _ _ -> _ _]. done.
  - destruct (entry_members_json e He) as [Hok Hd]. rewrite json_round_trip; [|done|unfold max_nesting; lia].
    by apply decode_entry_members.
Qed.

Definition payload_ok (p : AuditPayload) : Prop :=
  utf8_valid (ap_Subject p) = true /\ utf8_valid (ap_Action p) = true /\ utf8_valid (ap_Resource p) = true /\ context_ok (ap_Context p).

Lemma payload_round_trip p : payload_ok p -> json_parse (json_text (payload_json p)) ≫= into_payload = Some p.
Proof.
  intros (Hs & Ha & Hr & Hc). pose proof (context_not_empty _ Hc) as Hne. rewrite json_round_trip.
  - cbn [mbind option_bind]. unfold payload_json, into_payload. cbv zeta. do 4 next_field. by destruct p.
  - apply json_ok_object. members.
  - etransitivity; [apply members_depth; members|]. unfold max_nesting. lia.
Qed.

(** ** Sealing and opening *)

Definition clear_ok (e : LogEntry) : Prop :=
  is_int64 (le_PayloadVersion e) /\ is_int64 (le_Timestamp e) /\ is_uint64 (le_RevisionID e)
  /\ Forall (fun s => utf8_valid s = true)
       [le_AuditID e; le_TenantID e; le_Decision e; le_MatchedPolicyID e; le_RequestID e; le_TraceID e; le_KeyID e].

Lemma aad_read e : clear_ok e -> json_parse (json_text (aad_json e)) = Some (aad_json e).
Proof.
  intros (Hv & Ht & Hr & Hs). repeat (apply Forall_cons in Hs as [? Hs]). apply json_round_trip; unfold aad_json;
    change (?a :: [?b]) with ([a] ++ [b]).
  - apply json_ok_object. members.
  - etransitivity; [apply members_depth; members|]. unfold max_nesting. lia.
Qed.

Definition aad_names : list string :=
  ["v"; "audit_id"; "ts"; "rev"; "tenant_id"; "decision"; "matched_policy_id"; "request_id"; "trace_id"; "key_id"]%string.

(** The fields in clear, as the additional data lists them. *)
Definition clear_fields (e : LogEntry) : option (Z * Z * Z * list string) :=
  match aad_json e with
  | JObject kvs =>
      let str k := decode_field aad_names k into_str ""%string kvs in
      v ← decode_field aad_names "v" into_int 0 kvs; ts ← decode_field aad_names "ts" into_int 0 kvs;
      rev ← decode_field aad_names "rev" into_uint 0 kvs;
      a ← str "audit_id"%string; t ← str "tenant_id"%string; d ← str "decision"%string; m ← str "matched_policy_id"%string;
      r ← str "request_id"%string; c ← str "trace_id"%string; k ← str "key_id"%string;
      Some (v, ts, rev, [a; t; d; m; r; c; k])
  | _ => None
  end.

Lemma clear_fields_eq e : clear_ok e -> clear_fields e = Some (le_PayloadVersion e, le_Timestamp e, le_RevisionID e,
  [le_AuditID e; le_TenantID e; le_Decision e; le_MatchedPolicyID e; le_RequestID e; le_TraceID e; le_KeyID e]).
Proof.
  intros (Hv & Ht & Hr & _). unfold clear_fields, aad_json. cbv zeta. change (?a :: [?b]) with ([a] ++ [b]).
  do 10 next_field. done.
Qed.

(** The additional data determine the fields in clear. *)
Lemma aad_inj e1 e2 : clear_ok e1 -> clear_ok e2 -> auditEntryAAD e1 = auditEntryAAD e2 -> clear_fields e1 = clear_fields e2.
Proof.
  intros H1 H2 H%go_bytes_inj. apply (f_equal json_parse) in H. rewrite !aad_read in H by done. apply (inj Some) in H.
  unfold clear_fields. by rewrite H.
Qed.

Lemma base64_is_utf8 bs : Forall is_byte bs -> utf8_valid (base64_encode bs) = true.
Proof.
  intros Hbs. destruct (b64std_chars (b64_groups bs) (b64_groups_range bs Hbs)) as [_ Hc]. unfold base64_encode.
  assert (Forall (fun b => 0 <= b < 128) ((b64std_char <$> b64_groups bs) ++ b64_padding (length (b64_groups bs)))) as Ha.
  { apply Forall_app. split; [|apply Forall_replicate; lia]. apply Forall_fmap.
    eapply Forall_impl; [exact (b64_groups_range bs Hbs)|]. intros d Hd. cbn beta in *.
    unfold compose, b64std_char, b64_char. repeat case_match; bool_to_prop; lia. }
  generalize dependent ((b64std_char <$> b64_groups bs) ++ b64_padding (length (b64_groups bs))). intros l Hl.
  unfold utf8_valid. rewrite go_bytes_of_bytes by (eapply Forall_impl; [exact Hl|unfold is_byte; lia]).
  induction Hl as [|b l Hb _ IH]; [done|]. cbn [utf8_chunks]. rewrite (proj2 (Z.ltb_lt _ _)) by lia. cbn [forallb length fst snd].
  rewrite IH, andb_true_r, (proj2 (Z.eqb_neq _ _)); [done|]. unfold rune_error. lia.
Qed.

(** What a call of the sealing establishes. *)
Lemma sealAuditEntry_ok uuid rnd crypto entry e : sealAuditEntry uuid rnd (Some crypto) entry = Some e ->
  exists auditID c dek tag, uuid = Some auditID /\
    let e1 := identified auditID (ec_activeKeyID crypto) entry in
    EncryptWithAAD rnd crypto (go_bytes (json_text (payload_json (payload_of entry)))) (auditEntryAAD e1)
      = Ok (c, dek, ec_activeKeyID crypto)
    /\ IntegrityTag crypto (ec_activeKeyID crypto) [auditEntryAAD e1; go_bytes dek; go_bytes c] = Ok tag
    /\ e = enveloped e1 (ec_activeKeyID crypto) dek c tag.
Proof.
  unfold sealAuditEntry. cbn [mbind option_bind]. destruct uuid as [auditID|]; [|done]. cbn [mbind option_bind]. cbv zeta.
  set (e1 := identified auditID (ec_activeKeyID crypto) entry). change (payload_of e1) with (payload_of entry).
  destruct (EncryptWithAAD _ _ _ _) as [[[c dek] k]|] eqn:E; [|done]. cbn [to_option mbind option_bind].
  assert (k = ec_activeKeyID crypto) as -> by (unfold EncryptWithAAD in E; by inv_result).
  destruct (IntegrityTag _ _ _) as [tag|] eqn:Et; [|done]. cbn [to_option mbind option_bind]. intros [= <-].
  exists auditID, c, dek, tag. done.
Qed.

Lemma enveloped_aad e dek c tag : auditEntryAAD (enveloped e (le_KeyID e) dek c tag) = auditEntryAAD e.
Proof. done. Qed.

(** C23: A sealed record shows none of the subject, action, resource and context of the decision (tenant, decision, policy, times
    and the request and trace identifiers stay in clear), and is opened by every ring that still holds its key, to exactly these
    four. *)
Theorem sealed_record_opens (uuid : option string) (rnd : CryptoRandom) (crypto crypto' : EnvelopeCrypto) (entry e : LogEntry) :
  random_ok rnd -> crypto_ok crypto -> payload_ok (payload_of entry) ->
  sealAuditEntry uuid rnd (Some crypto) entry = Some e ->
  le_Subject e = ""%string /\ le_Action e = ""%string /\ le_Resource e = ""%string /\ le_Context e = None /\ le_IsEncrypted e = true
  /\ (keks crypto' !! ec_activeKeyID crypto = keks crypto !! ec_activeKeyID crypto ->
       VerifyAndDecryptEntry crypto' (Some e) = Some (payload_of entry)).
Proof.
  intros Hr Hc Hp (auditID & c & dek & tag & -> & Henc & Htag & ->)%sealAuditEntry_ok.
  split_and!; try done. intros Hkey. unfold VerifyAndDecryptEntry. cbn [mbind option_bind].
  set (e1 := identified auditID (ec_activeKeyID crypto) entry) in *. change (enveloped e1 (ec_activeKeyID crypto)) with (enveloped e1 (le_KeyID e1)).
  cbn [le_IsEncrypted enveloped le_PayloadVersion identified negb orb Z.eqb Pos.eqb auditPayloadVersion e1].
  unfold tag_parts. rewrite enveloped_aad. cbn [le_EncryptedDEK le_EncryptedPayload le_IntegrityTag le_KeyID enveloped].
  pose proof Htag as (kek & Hkek & Hdec)%IntegrityTag_decodes.
  assert (VerifyIntegrityTag crypto' tag (ec_activeKeyID crypto) [auditEntryAAD e1; go_bytes dek; go_bytes c] = Ok tt) as Hver.
  { apply VerifyIntegrityTag_iff. exists kek. by rewrite Hkey. }
  unfold e1 in Hver, Henc |- *. cbn [identified le_KeyID] in Hver |- *. rewrite Hver. cbn [to_option mbind option_bind].
  destruct (decrypt_after_encrypt _ _ crypto' _ _ _ _ _ Hr Hc (go_bytes_is_byte _) Henc) as [_ Hd].
  rewrite Hd by (done || by rewrite Hkek). cbn [to_option mbind option_bind]. rewrite of_bytes_go_bytes.
  by apply payload_round_trip.
Qed.

(** Two records whose integrity tags are of the same message agree on everything that is stored in clear (version, time,
    revision, tenant, decision, policy, identifiers, key) and on the two ciphertexts: no field can be changed under a tag without
    another HMAC message. *)
Theorem tag_binds_record (e1 e2 : LogEntry) :
  clear_ok e1 -> clear_ok e2 ->
  Forall (fun p => Z.of_nat (length p) < 2 ^ 64) (tag_parts e1) -> Forall (fun p => Z.of_nat (length p) < 2 ^ 64) (tag_parts e2) ->
  integrity_message (tag_parts e1) = integrity_message (tag_parts e2) ->
  le_PayloadVersion e1 = le_PayloadVersion e2 /\ le_Timestamp e1 = le_Timestamp e2 /\ le_RevisionID e1 = le_RevisionID e2
  /\ le_AuditID e1 = le_AuditID e2 /\ le_TenantID e1 = le_TenantID e2 /\ le_Decision e1 = le_Decision e2
  /\ le_MatchedPolicyID e1 = le_MatchedPolicyID e2 /\ le_RequestID e1 = le_RequestID e2 /\ le_TraceID e1 = le_TraceID e2
  /\ le_KeyID e1 = le_KeyID e2 /\ le_EncryptedDEK e1 = le_EncryptedDEK e2 /\ le_EncryptedPayload e1 = le_EncryptedPayload e2.
Proof.
  intros H1 H2 Hl1 Hl2 H. apply integrity_message_inj in H; [|done|done|done]. unfold tag_parts in H.
  assert (auditEntryAAD e1 = auditEntryAAD e2) as Ha by congruence.
  assert (le_EncryptedDEK e1 = le_EncryptedDEK e2) as -> by (apply go_bytes_inj; congruence).
  assert (le_EncryptedPayload e1 = le_EncryptedPayload e2) as -> by (apply go_bytes_inj; congruence).
  apply aad_inj in Ha; [|done|done]. rewrite !clear_fields_eq in Ha by done. injection Ha as -> -> -> -> -> -> -> -> -> ->. tauto.
Qed.

(** ** The stream *)

Lemma escape_no_newline s : 10 ∉ (go_bytes s ≫= escape_byte).
Proof.
  induction (go_bytes s) as [|b l IH]; [by apply not_elem_of_nil|]. cbn [mbind list_bind].
  intros [H|H]%elem_of_app; [|done]. unfold escape_byte in H. repeat case_match; bool_to_prop;
    repeat (apply elem_of_cons in H as [H|H]; [lia|]); by apply not_elem_of_nil in H.
Qed.

Lemma format_int_no_newline n : 10 ∉ format_int_bytes n.
Proof.
  assert (forall fuel n acc, 10 ∉ acc -> 10 ∉ dec_digits fuel n acc) as Hd.
  { intros fuel. induction fuel as [|fuel IH]; intros m acc Ha; cbn [dec_digits]; [done|].
    pose proof (Z.mod_pos_bound m 10 ltac:(lia)).
    assert (10 ∉ (48 + m mod 10) :: acc) by (intros [?|?]%elem_of_cons; [lia|done]). destruct (m <? 10); [done|by apply IH]. }
  unfold format_int_bytes. destruct (n <? 0); [|apply Hd, not_elem_of_nil].
  intros [?|H]%elem_of_cons; [lia|]. by eapply Hd, H; apply not_elem_of_nil.
Qed.

Lemma join_no_newline ps : Forall (fun p => 10 ∉ p) ps -> 10 ∉ join_runes ps.
Proof.
  induction 1 as [|p ps Hp Hps IH]; cbn [join_runes]; [by apply not_elem_of_nil|]. destruct ps; [done|].
  intros [?|[?|?]%elem_of_cons]%elem_of_app; [done|lia|done].
Qed.

Lemma quoted_no_newline s : 10 ∉ quoted s.
Proof.
  unfold quoted, escapeJSON. cbn [app]. intros [?|[H|[?|?]%elem_of_cons]%elem_of_app]%elem_of_cons; [lia| |lia|by eapply not_elem_of_nil].
  by apply escape_no_newline in H.
Qed.

Lemma no_newline_app (a b : list Z) : 10 ∉ a -> 10 ∉ b -> 10 ∉ a ++ b.
Proof. intros Ha Hb [?|?]%elem_of_app; done. Qed.
Ltac literal := apply (bool_decide_unpack _); vm_compute; exact I.

(** Whatever the texts of a request, a record of the stream is one line: its only line feed is its last byte, so no caller can
    forge a record. *)
Theorem stream_record_is_one_line (now revision : Z) (tenantID subject action resource matchedPolicyID : string)
    (allow : bool) (ctx : list (string * string)) :
  exists line, stream_line now revision tenantID subject action resource (if allow then "ALLOW" else "DENY")%string matchedPolicyID ctx
    = line ++ [10] /\ 10 ∉ line.
Proof.
  unfold stream_line. set (dec := (if allow then "ALLOW" else "DENY")%string). eexists (123 :: join_runes _ ++ stream_context ctx ++ [125]).
  split; [cbn [app]; by rewrite <- !app_assoc|]. intros [?|H]%elem_of_cons; [lia|]. revert H. apply no_newline_app; [|apply no_newline_app].
  - apply join_no_newline. repeat (apply Forall_cons; split; [apply no_newline_app; [literal|first [apply quoted_no_newline | apply format_int_no_newline | destruct allow; literal]]|]).
    constructor.
  - unfold stream_context. destruct ctx as [|kv ctx]; [by apply not_elem_of_nil|].
    change (44 :: raw_key "context" ++ 123 :: join_runes (stream_context_member <$> kv :: ctx) ++ [125])
      with ((44 :: raw_key "context" ++ [123]) ++ join_runes (stream_context_member <$> kv :: ctx) ++ [125]).
    apply no_newline_app; [literal|]. apply no_newline_app; [|literal]. apply join_no_newline, Forall_fmap, Forall_true.
    intros [k v]. unfold compose, stream_context_member. cbn [fst snd]. apply no_newline_app; [apply quoted_no_newline|].
    intros [?|H]%elem_of_cons; [lia|]. revert H. destruct (shouldRedactAuditContextKey k); [literal|apply quoted_no_newline].
  - literal.
Qed.

(** A control character other than the three escaped ones makes the line no JSON. *)
Theorem stream_control_character_unreadable :
  DecodeNDJSONLogEntry (of_bytes (stream_line 1 2 "t" (of_bytes [117; 8]) "a" "r" "ALLOW" "p" [])) = None
  /\ is_Some (DecodeNDJSONLogEntry (of_bytes (stream_line 1 2 "t" "u" "a" "r" "ALLOW" "p" []))).
Proof. split; [by vm_compute|]. apply (bool_decide_unpack _). by vm_compute. Qed.
