(* ===== verification/Archive.v ===== *)
(** * The immutable archive ([internal/audit/archive.go])

    A batch of sealed records becomes one object per tenant, named by the
    digest of its content, and is put under the condition that the name is new.
    The object store is behind an interface: what it answers is an argument. *)

From S2P Require Import Prelude GoStr GoTime GoCrypto GoJson Config AuditCrypto AuditRecord.
From stdpp Require Import options.
Local Open Scope Z_scope.

Definition archiveFormatVersion : Z := 1.

Inductive ArchiveError :=
| MissingIdentity | UnsafeTenant | UnsealedEntry | UnencodableEntry
| MissingArchiveSetting | UnsafePrefix | BadOwner | PutFailed.

Record S3ArchiveConfig := mkS3ArchiveConfig { s3_Bucket : string; s3_Prefix : string; s3_Region : string; s3_ExpectedBucketOwner : string }.

Definition validateS3ArchiveConfig (cfg : S3ArchiveConfig) : result ArchiveError unit :=
  guard? blank (s3_Bucket cfg) || blank (s3_Region cfg) || blank (s3_ExpectedBucketOwner cfg) else MissingArchiveSetting;
  guard? blank (s3_Prefix cfg) || negb (bool_decide (trim_slashes (s3_Prefix cfg) = s3_Prefix cfg)) || contains (s3_Prefix cfg) ".."
    else UnsafePrefix;
  guard? negb (go_len (s3_ExpectedBucketOwner cfg) =? 12) else BadOwner;
  guard? negb (forallb is_digit_byte (runes_of (s3_ExpectedBucketOwner cfg))) else BadOwner;
  Ok tt.

(** ** Segments *)

Definition has_separator (s : string) : bool := existsb (fun b => (b =? 47) || (b =? 92)) (go_bytes s).

(** An entry, [None] for a nil pointer. *)
Definition validateArchiveEntry (entry : option LogEntry) : result ArchiveError LogEntry :=
  match entry with
  | None => Err MissingIdentity
  | Some e =>
      guard? bool_decide (le_AuditID e = ""%string) || bool_decide (le_TenantID e = ""%string) || (le_Timestamp e <=? 0) else MissingIdentity;
      guard? has_separator (le_TenantID e) else UnsafeTenant;
      guard? negb (le_IsEncrypted e) || negb (bool_decide (le_Subject e = ""%string)) || negb (bool_decide (le_Action e = ""%string))
             || negb (bool_decide (le_Resource e = ""%string)) || bool_decide (is_Some (le_Context e)) else UnsealedEntry;
      Ok e
  end.

Record archiveSegment := mkSegment {
  seg_key : string;
  seg_payload : Bytes;
  seg_contentMD5 : string;
  seg_checksumSHA256 : string;
  seg_sha256Hex : string;
  seg_entryCount : nat
}.

(** One line per entry. *)
Definition segment_payload (entries : list LogEntry) : result ArchiveError Bytes :=
  match mapM entry_json entries with
  | Some vs => Ok (vs ≫= fun v => go_bytes (json_text v) ++ [10])
  | None => Err UnencodableEntry
  end.

(** The name of an object: its tenant, the day of its first entry and its digest. *)
Definition segment_key (prefix tenantID : string) (ts : Z) (data : Bytes) : string :=
  prefix +:+ "/tenant=" +:+ tenantID +:+ "/date=" +:+ of_bytes (format_date (utc_of_nanos ts)) +:+ "/" +:+ hex_encode (sha256 data) +:+ ".ndjson".

Definition newArchiveSegment (prefix tenantID : string) (entries : list LogEntry) : result ArchiveError archiveSegment :=
  let? data := segment_payload entries in
  let ts := match entries with e :: _ => le_Timestamp e | [] => 0 end in
  Ok (mkSegment (segment_key prefix tenantID ts data) data (base64_encode (md5 data)) (base64_encode (sha256 data))
        (hex_encode (sha256 data)) (length entries)).

Definition of_tenant (tenantID : string) (entries : list LogEntry) : list LogEntry :=
  base.filter (fun e => le_TenantID e = tenantID) entries.
(** The keys of [byTenant], sorted. *)
Definition tenants_of (entries : list LogEntry) : list string := sort_strings (remove_dups (le_TenantID <$> entries)).

(** A segment that could not be encoded carries its error. *)
Definition archiveSegments (prefix : string) (entries : list (option LogEntry)) : list (result ArchiveError archiveSegment) :=
  match rmapM validateArchiveEntry entries with
  | Err e => [Err e]
  | Ok es => (fun t => newArchiveSegment prefix t (of_tenant t es)) <$> tenants_of es
  end.

(** ** Putting *)

(** The request for one object; it carries the condition that no object has its name. *)
Record PutRequest := mkPut {
  put_Bucket : string;
  put_Key : string;
  put_Body : Bytes;
  put_ContentMD5 : string;
  put_ChecksumSHA256 : string;
  put_ExpectedBucketOwner : string;
  put_Metadata : list (string * string)
}.

Inductive PutAnswer := PutDone | PutPreconditionFailed | PutError.

(** [s3PutObjectAPI]: the store after the call, and its answer. *)
Class ObjectStore (S Out : Type) := put_object : Out -> S -> PutRequest -> S * PutAnswer.

(** What the archive relies on: a conditional put is create-only. *)
Class ObjectStoreLaws (S Out : Type) `{ObjectStore S Out} := {
  object_at : S -> string -> option Bytes;
  put_done : forall o s r s', put_object o s r = (s', PutDone) -> object_at s' (put_Key r) = Some (put_Body r);
  put_exists : forall o s r s', put_object o s r = (s', PutPreconditionFailed) -> is_Some (object_at s' (put_Key r));
  put_keeps : forall o s r s' a k b, put_object o s r = (s', a) -> object_at s k = Some b -> object_at s' k = Some b;
  put_only : forall o s r s' a k b, put_object o s r = (s', a) -> object_at s' k = Some b ->
    object_at s k = Some b \/ (k = put_Key r /\ b = put_Body r)
}.

Section Archive.
Context {S Out : Type} `{ObjectStore S Out}.

Definition put_request (cfg : S3ArchiveConfig) (seg : archiveSegment) : PutRequest :=
  mkPut (s3_Bucket cfg) (seg_key seg) (seg_payload seg) (seg_contentMD5 seg) (seg_checksumSHA256 seg) (s3_ExpectedBucketOwner cfg)
    [("audit-format-version", FormatInt archiveFormatVersion); ("audit-entry-count", FormatInt (Z.of_nat (seg_entryCount seg)));
     ("audit-sha256", seg_sha256Hex seg)]%string.

(** An object that is already there is a success. *)
Fixpoint put_segments (outs : nat -> Out) (cfg : S3ArchiveConfig) (s : S) (segments : list (result ArchiveError archiveSegment)) :
    S * result ArchiveError unit :=
  match segments with
  | [] => (s, Ok tt)
  | Err e :: _ => (s, Err e)
  | Ok seg :: rest =>
      match put_object (outs (length rest)) s (put_request cfg seg) with
      | (s', PutError) => (s', Err PutFailed)
      | (s', _) => put_segments outs cfg s' rest
      end
  end.

Definition Archive (outs : nat -> Out) (cfg : S3ArchiveConfig) (s : S) (entries : list (option LogEntry)) : S * result ArchiveError unit :=
  put_segments outs cfg s (archiveSegments (s3_Prefix cfg) entries).
End Archive.

(** [newS3ArchiveSink] with a client. *)
Definition newS3ArchiveSink (cfg : S3ArchiveConfig) : result ArchiveError S3ArchiveConfig :=
  let? _ := validateS3ArchiveConfig cfg in Ok cfg.

(** ** Theorems about the archive *)

(** *** Names of objects *)

(** Everything in front of the digest. *)
Definition key_path (prefix tenantID : string) (ts : Z) : string :=
  prefix +:+ "/tenant=" +:+ tenantID +:+ "/date=" +:+ of_bytes (format_date (utc_of_nanos ts)) +:+ "/".

Lemma string_app_assoc (a b c : string) : a +:+ (b +:+ c) = (a +:+ b) +:+ c.
Proof.
  induction a as [|x a IH]; [done|]. change (String x (a +:+ (b +:+ c)) = String x ((a +:+ b) +:+ c)). by rewrite IH.
Qed.

Lemma segment_key_path prefix t ts data :
  segment_key prefix t ts data = key_path prefix t ts +:+ (hex_encode (sha256 data) +:+ ".ndjson").
Proof. unfold segment_key, key_path. by rewrite !string_app_assoc. Qed.

Lemma hex_digest_length m : length (go_bytes (hex_encode (sha256 m))) = 64%nat.
Proof.
  rewrite length_go_bytes. pose proof (length_hex_encode (sha256 m)) as H. unfold go_len in H. rewrite length_sha256 in H.
  change (Z.of_nat sha256_size) with 32 in H. lia.
Qed.

(** The name of an object determines the digest of its content. *)
Lemma segment_key_digest p t ts d p' t' ts' d' : segment_key p t ts d = segment_key p' t' ts' d' -> sha256 d = sha256 d'.
Proof.
  rewrite !segment_key_path. intros H%(f_equal go_bytes). rewrite !go_bytes_app in H.
  apply app_inj_2 in H as [_ H]; [|by rewrite !length_app, !hex_digest_length].
  apply app_inj_1 in H as [H _]; [|by rewrite !hex_digest_length]. apply go_bytes_inj in H.
  pose proof (hex_decode_encode (sha256 d) (sha256_is_byte d)) as E. rewrite H, hex_decode_encode in E by apply sha256_is_byte.
  by injection E.
Qed.

(** *** Entries *)

Lemma validateArchiveEntry_ok o e : validateArchiveEntry o = Ok e -> o = Some e /\ le_IsEncrypted e = true /\ le_Subject e = ""%string
  /\ le_Action e = ""%string /\ le_Resource e = ""%string /\ le_Context e = None /\ le_TenantID e <> ""%string
  /\ has_separator (le_TenantID e) = false /\ 0 < le_Timestamp e.
Proof.
  unfold validateArchiveEntry. destruct o as [e'|]; [|done]. intros H. inv_result. bool_to_prop. split_and!; try done.
  by apply eq_None_not_Some.
Qed.

Lemma tenants_of_elem es t : t ∈ tenants_of es <-> t ∈ le_TenantID <$> es.
Proof. unfold tenants_of, sort_strings. by rewrite merge_sort_Permutation, elem_of_remove_dups. Qed.

(** *** The archive *)

Section Facts.
Context {S Out : Type} `{ObjectStoreLaws S Out}.

(** Every object has the name its content gives. *)
Definition store_named (s : S) : Prop := forall k b, object_at s k = Some b -> exists p t ts, k = segment_key p t ts b.

Lemma put_segments_ok outs cfg segs : forall s s', store_named s ->
  Forall (fun r => forall seg, r = Ok seg -> exists t ts, seg_key seg = segment_key (s3_Prefix cfg) t ts (seg_payload seg)) segs ->
  put_segments outs cfg s segs = (s', Ok tt) ->
  store_named s' /\ (forall k b, object_at s k = Some b -> object_at s' k = Some b)
  /\ Forall (fun r => exists seg b, r = Ok seg /\ object_at s' (seg_key seg) = Some b /\ sha256 b = sha256 (seg_payload seg)) segs.
Proof.
  induction segs as [|[seg|e] segs IH]; intros s s' Hs Hk Hput; cbn [put_segments] in Hput; [by simplify_eq| |done].
  apply Forall_cons in Hk as [Hseg Hk]. destruct (Hseg seg eq_refl) as (t & ts & Hkey).
  destruct (put_object _ s _) as [s1 a] eqn:E.
  assert (store_named s1) as Hs1.
  { intros k b Hb. destruct (put_only _ _ _ _ _ _ _ E Hb) as [Hold|[-> ->]]; [by apply Hs|]. cbn. by eexists _, t, ts. }
  assert (forall b, object_at s1 (seg_key seg) = Some b -> sha256 b = sha256 (seg_payload seg)) as Hdig.
  { intros b Hb. destruct (Hs1 _ _ Hb) as (p' & t' & ts' & E'). rewrite Hkey in E'. by apply segment_key_digest in E'. }
  assert (is_Some (object_at s1 (seg_key seg))) as [b Hb].
  { destruct a; [eexists; exact (put_done _ _ _ _ E)|exact (put_exists _ _ _ _ E)|done]. }
  assert (put_segments outs cfg s1 segs = (s', Ok tt)) as Hrest by by destruct a.
  destruct (IH _ _ Hs1 Hk Hrest) as (Hs' & Hkeep & Hall). split; [done|]. split.
  - intros k b' Hb'. by eapply Hkeep, put_keeps.
  - constructor; [|done]. exists seg, b. split_and!; [done|by apply Hkeep|by apply Hdig].
Qed.

Lemma archiveSegments_ok prefix entries es : rmapM validateArchiveEntry entries = Ok es ->
  archiveSegments prefix entries = (fun t => newArchiveSegment prefix t (of_tenant t es)) <$> tenants_of es.
Proof. intros He. unfold archiveSegments. by rewrite He. Qed.

(** The time of the first record of an object, which names it. *)
Definition first_time (es : list LogEntry) : Z := from_option le_Timestamp 0 (head es).

Lemma newArchiveSegment_ok prefix t es seg : newArchiveSegment prefix t es = Ok seg ->
  exists data, segment_payload es = Ok data /\ seg_payload seg = data /\ seg_key seg = segment_key prefix t (first_time es) data
    /\ seg_entryCount seg = length es /\ seg_checksumSHA256 seg = base64_encode (sha256 data).
Proof. unfold newArchiveSegment. intros Hn. inv_result. eexists. split_and!; try done. by destruct es. Qed.

(** The store holds an object with the digest of exactly these records of a tenant, one line each and in order, under the name of
    the tenant, the day of the first of them and that digest. *)
Definition archived_records (prefix : string) (s : S) (tenantID : string) (es : list LogEntry) : Prop :=
  exists data b, segment_payload es = Ok data
  /\ object_at s (segment_key prefix tenantID (first_time es) data) = Some b /\ sha256 b = sha256 data.

(** A record is archived with the records of its tenant in some batch. *)
Definition archived (prefix : string) (s : S) (e : LogEntry) : Prop :=
  exists es, e ∈ es /\ archived_records prefix s (le_TenantID e) (of_tenant (le_TenantID e) es).

Lemma Archive_ok outs cfg s s' entries : store_named s -> Archive outs cfg s entries = (s', Ok tt) ->
  exists es, entries = Some <$> es
  /\ Forall (fun e => le_IsEncrypted e = true /\ le_Subject e = ""%string /\ le_Context e = None) es
  /\ (forall t, t ∈ le_TenantID <$> es -> archived_records (s3_Prefix cfg) s' t (of_tenant t es)).
Proof.
  intros Hs Hput. unfold Archive in Hput. destruct (rmapM validateArchiveEntry entries) as [es|e] eqn:E.
  2:{ unfold archiveSegments in Hput. by rewrite E in Hput. }
  rewrite (archiveSegments_ok _ _ _ E) in Hput. apply rmapM_ok in E. exists es.
  apply put_segments_ok in Hput as (Hs' & Hkeep & Hall); [|done|].
  2:{ apply Forall_fmap, Forall_true. intros t seg Hseg%newArchiveSegment_ok. destruct Hseg as (data & _ & <- & Hk & _).
      by eexists t, _. }
  split_and!.
  - clear -E. induction E as [|o e os es He _ IH]; [done|]. cbn. by apply validateArchiveEntry_ok in He as [-> _]; rewrite IH.
  - clear -E. induction E as [|o e os es He _ IH]; constructor; [|done]. apply validateArchiveEntry_ok in He. tauto.
  - intros t Ht. apply tenants_of_elem in Ht. rewrite Forall_fmap, Forall_forall in Hall.
    destruct (Hall t Ht) as (seg & b & Hseg & Hb & Hd). apply newArchiveSegment_ok in Hseg as (data & Hp & Hpd & Hk & _).
    exists data, b. rewrite <- Hk, <- Hpd. by rewrite Hpd in *.
Qed.

(** What an archive does to a store, whether it succeeds or not. *)
Definition archive_keys (cfg : S3ArchiveConfig) (segs : list (result ArchiveError archiveSegment)) (k : string) : Prop :=
  exists seg, Ok seg ∈ segs /\ k = seg_key seg.

Lemma put_segments_frame outs cfg segs : forall s s' r,
  store_named s -> Forall (fun r => forall seg, r = Ok seg -> exists t ts, seg_key seg = segment_key (s3_Prefix cfg) t ts (seg_payload seg)) segs ->
  put_segments outs cfg s segs = (s', r) ->
  store_named s' /\ (forall k b, object_at s k = Some b -> object_at s' k = Some b)
  /\ (forall k, ~ archive_keys cfg segs k -> object_at s' k = object_at s k).
Proof.
  induction segs as [|[seg|e] segs IH]; intros s s' r Hs Hk Hput; cbn [put_segments] in Hput; [by simplify_eq| |by simplify_eq].
  apply Forall_cons in Hk as [Hseg Hk]. destruct (Hseg seg eq_refl) as (t & ts & Hkey).
  destruct (put_object _ s _) as [s1 a] eqn:E.
  assert (store_named s1) as Hs1.
  { intros k b Hb. destruct (put_only _ _ _ _ _ _ _ E Hb) as [Hold|[-> ->]]; [by apply Hs|]. cbn. by eexists _, t, ts. }
  assert (forall k b, object_at s k = Some b -> object_at s1 k = Some b) as Hk1 by (intros k b; apply (put_keeps _ _ _ _ _ _ _ E)).
  assert (forall k, k <> seg_key seg -> object_at s1 k = object_at s k) as Ho1.
  { intros k Hne. destruct (object_at s k) as [b|] eqn:Eo; [by apply Hk1|]. destruct (object_at s1 k) as [b|] eqn:Eo1; [|done].
    destruct (put_only _ _ _ _ _ _ _ E Eo1) as [?|[-> _]]; [congruence|]. by cbn in Hne. }
  assert (forall k, ~ archive_keys cfg (Ok seg :: segs) k -> k <> seg_key seg /\ ~ archive_keys cfg segs k) as Hsplit.
  { intros k Hn. split; [intros ->; apply Hn; exists seg; split; [left|done]|]. intros (seg' & Hin & ->). apply Hn. exists seg'. split; [by right|done]. }
  assert (s' = s1 \/ put_segments outs cfg s1 segs = (s', r)) as [->|Hrest] by (destruct a; simplify_eq; auto).
  - split_and!; [done|done|]. intros k Hn. by apply Ho1, Hsplit.
  - destruct (IH _ _ _ Hs1 Hk Hrest) as (Hs' & Hkeep & Hother). split_and!; [done|auto|].
    intros k Hn%Hsplit. rewrite Hother by tauto. apply Ho1. tauto.
Qed.

Lemma archiveSegments_keys cfg entries : Forall (fun r => forall seg, r = Ok seg ->
  exists t ts, seg_key seg = segment_key (s3_Prefix cfg) t ts (seg_payload seg)) (archiveSegments (s3_Prefix cfg) entries).
Proof.
  unfold archiveSegments. destruct (rmapM _ _) as [es|e]; [|by repeat constructor].
  apply Forall_fmap, Forall_true. intros t seg Hseg%newArchiveSegment_ok. destruct Hseg as (data & _ & <- & Hk & _). by eexists t, _.
Qed.

Lemma Archive_frame outs cfg s s' entries r : store_named s -> Archive outs cfg s entries = (s', r) ->
  store_named s' /\ (forall k b, object_at s k = Some b -> object_at s' k = Some b)
  /\ (forall k, ~ archive_keys cfg (archiveSegments (s3_Prefix cfg) entries) k -> object_at s' k = object_at s k).
Proof. intros Hs. apply put_segments_frame; [done|apply archiveSegments_keys]. Qed.

(** After a success every object of the batch is there. *)
Lemma Archive_present outs cfg s s' entries k : store_named s -> Archive outs cfg s entries = (s', Ok tt) ->
  archive_keys cfg (archiveSegments (s3_Prefix cfg) entries) k -> is_Some (object_at s' k).
Proof.
  intros Hs Hput (seg & Hin & ->). apply put_segments_ok in Hput as (_ & _ & Hall); [|done|apply archiveSegments_keys].
  rewrite Forall_forall in Hall. destruct (Hall _ Hin) as (seg' & b & [= <-] & Hb & _). by eexists.
Qed.
End Facts.
