(* ===== verification/Spill.v ===== *)
(** * The spill store ([internal/audit/spill.go])

    A directory of files, by name, each the JSON text of a batch of sealed
    records.  Failures of the file system are arguments; a file being written
    has another suffix and is not seen, sub-directories are left out, and a
    member of a file that is repeated replaces the earlier one. *)

From S2P Require Import Prelude GoStr GoCrypto Canonical GoJson GoJsonFacts Config AuditCrypto AuditRecord AuditRecordFacts.
From stdpp Require Import options.
Local Open Scope Z_scope.

Definition spillFormatVersion : Z := 1.
Definition spill_suffix : string := ".auditspill".

Record spillBatch := mkSpillBatch { sb_Version : Z; sb_BatchID : string; sb_Entries : list (option LogEntry) }.

Definition batch_json (batchID : string) (entries : list LogEntry) : option json :=
  vs ← mapM entry_json entries;
  Some (JObject [("version"%string, json_int spillFormatVersion); ("batch_id"%string, JString batchID); ("entries"%string, JArray vs)]).

(** A list of pointers: a null is a nil pointer. *)
Definition into_entry_pointer (v : json) : option (option LogEntry) :=
  match v with JNull => Some None | _ => Some <$> into_entry v end.
Definition into_entries (old : list (option LogEntry)) (v : json) : option (list (option LogEntry)) :=
  match v with JArray vs => mapM into_entry_pointer vs | JNull => Some [] | _ => None end.
Definition batch_names : list string := ["version"; "batch_id"; "entries"]%string.
Definition into_batch (v : json) : option spillBatch :=
  match v with
  | JObject kvs =>
      version ← decode_field batch_names "version" into_int 0 kvs;
      batchID ← decode_field batch_names "batch_id" into_str ""%string kvs;
      entries ← decode_field batch_names "entries" into_entries [] kvs;
      Some (mkSpillBatch version batchID entries)
  | JNull => Some (mkSpillBatch 0 "" [])
  | _ => None
  end.

Abbreviation Directory := (gmap string string).

Record SpillStore := mkSpillStore { sp_maxBytes : Z; sp_crypto : EnvelopeCrypto }.

Inductive SpillError := SpillNotConfigured | SpillIO | InvalidSpillEntry | ErrSpillQuota | InvalidSpillFile | TamperedSpillFile | ReplayRejected.

(** [made] says that the directory could be created and protected. *)
Definition NewSpillStore (made : bool) (dir : string) (maxBytes : Z) (crypto : option EnvelopeCrypto) : result SpillError SpillStore :=
  match crypto with
  | None => Err SpillNotConfigured
  | Some c =>
      guard? blank dir || (maxBytes <=? 0) else SpillNotConfigured;
      guard? negb made else SpillIO;
      Ok (mkSpillStore maxBytes c)
  end.

Definition spill_files (dir : Directory) : list string := base.filter (fun n => Is_true (has_suffix n spill_suffix)) (sort_strings (map_to_list dir).*1).
Definition content (dir : Directory) (name : string) : string := default ""%string (dir !! name).
(** [sizeLocked]. *)
Definition dir_size (dir : Directory) : Z := foldr (fun n total => go_len (content dir n) + total) 0 (spill_files dir).

(** The clock, the generated identifier and what the file system does to one write. *)
Record SpillEnv := mkSpillEnv { se_now : Z; se_batchID : string; se_size_ok : bool; se_write_ok : bool }.

Definition spill_name (env : SpillEnv) : string := sprintf_0d 20 (se_now env) +:+ "-" +:+ se_batchID env +:+ spill_suffix.

Definition WriteBatch (env : SpillEnv) (s : SpillStore) (dir : Directory) (entries : list LogEntry) : Directory * result SpillError unit :=
  match entries with
  | [] => (dir, Ok tt)
  | _ =>
      if negb (forallb (fun e => bool_decide (is_Some (VerifyAndDecryptEntry (sp_crypto s) (Some e)))) entries) then (dir, Err InvalidSpillEntry)
      else match batch_json (se_batchID env) entries with
      | None => (dir, Err InvalidSpillEntry)
      | Some v =>
          let data := json_text v in
          if negb (se_size_ok env) then (dir, Err SpillIO)
          else if sp_maxBytes s <? dir_size dir + go_len data then (dir, Err ErrSpillQuota)
          else if negb (se_write_ok env) then (dir, Err SpillIO)
          else (<[spill_name env := data]> dir, Ok tt)
      end
  end.

(** ** Replaying *)

(** [BatchWriter]: the writer after an insertion, and whether it returned no error. *)
Class BatchWriter (W O : Type) := insert_batch : O -> W -> list LogEntry -> W * bool.

(** What the queue relies on, for a sound writer: [stored] records are never lost, and an insertion without an error stores its
    batch. *)
Class BatchWriterLaws (W O : Type) `{BatchWriter W O} := {
  writer_ok : W -> Prop;
  stored : W -> LogEntry -> Prop;
  insert_ok : forall o w es w' b, insert_batch o w es = (w', b) -> writer_ok w -> writer_ok w';
  insert_stores : forall o w es w', insert_batch o w es = (w', true) -> writer_ok w -> Forall (stored w') es;
  insert_keeps : forall o w es w' b e, insert_batch o w es = (w', b) -> writer_ok w -> stored w e -> stored w' e
}.

(** The outcomes of a replay, by file. *)
Record ReplayEnv (O : Type) := mkReplayEnv { re_dir_ok : bool; re_read_ok : string -> bool; re_insert : string -> O; re_remove_ok : string -> bool }.
Arguments mkReplayEnv {O}.
Arguments re_dir_ok {O}.
Arguments re_read_ok {O}.
Arguments re_insert {O}.
Arguments re_remove_ok {O}.

(** A file that is read: its entries, all of them authentic. *)
Definition read_spill_file (s : SpillStore) (data : string) : result SpillError (list LogEntry) :=
  match json_parse data ≫= into_batch with
  | None => Err InvalidSpillFile
  | Some batch =>
      guard? negb (sb_Version batch =? spillFormatVersion) || bool_decide (sb_BatchID batch = ""%string) else InvalidSpillFile;
      guard? negb (forallb (fun e => bool_decide (is_Some (VerifyAndDecryptEntry (sp_crypto s) e))) (sb_Entries batch)) else TamperedSpillFile;
      Ok (omap id (sb_Entries batch))
  end.

Section Replay.
Context {W O : Type} `{BatchWriter W O}.

Fixpoint replay_files (env : ReplayEnv O) (s : SpillStore) (dir : Directory) (w : W) (replayed : Z) (names : list string) :
    Directory * W * Z * result SpillError unit :=
  match names with
  | [] => (dir, w, replayed, Ok tt)
  | name :: names' =>
      if negb (re_read_ok env name) then (dir, w, replayed, Err SpillIO)
      else match read_spill_file s (content dir name) with
      | Err e => (dir, w, replayed, Err e)
      | Ok entries =>
          match insert_batch (re_insert env name) w entries with
          | (w', false) => (dir, w', replayed, Err ReplayRejected)
          | (w', true) =>
              if re_remove_ok env name then replay_files env s (delete name dir) w' (replayed + Z.of_nat (length entries)) names'
              else (dir, w', replayed, Err SpillIO)
          end
      end
  end.

(** [Replay]: the number of replayed records comes with the error too. *)
Definition Replay (env : ReplayEnv O) (s : SpillStore) (dir : Directory) (w : W) : Directory * W * Z * result SpillError unit :=
  if negb (re_dir_ok env) then (dir, w, 0, Err SpillIO) else replay_files env s dir w 0 (spill_files dir).
End Replay.

(** ** Theorems about the spill store *)

(** *** The text of a batch *)

Lemma entries_json es : Forall entry_ok es -> exists vs, mapM entry_json es = Some vs
  /\ Forall (fun v => json_ok v /\ json_depth v <= 2) vs /\ mapM into_entry_pointer vs = Some (Some <$> es).
Proof.
  induction 1 as [|e es He _ (vs & Hvs & Hok & Hin)]; [by exists []|]. exists (JObject (entry_members e) :: vs). cbn [mapM].
  assert (entry_json e = Some (JObject (entry_members e))) as -> by (unfold entry_json; by destruct He as [_ _ _ -> _ _]).
  cbn [mbind option_bind]. unfold mapM in Hvs, Hin |- *. rewrite Hvs. split_and!; [done| |].
  - constructor; [by apply entry_members_json|done].
  - cbn [into_entry_pointer into_entry]. rewrite decode_entry_members by done. cbn [fmap option_fmap option_map mbind option_bind].
    by rewrite Hin.
Qed.

Lemma elements_depth vs : Forall (fun v => json_ok v /\ json_depth v <= 2) vs -> json_depth (JArray vs) <= 3.
Proof. intros Hv. cbn [json_depth]. induction Hv as [|v vs [_ Hv] _ IH]; cbn; lia. Qed.

Lemma batch_json_ok batchID es : Forall entry_ok es -> utf8_valid batchID = true -> exists v, batch_json batchID es = Some v
  /\ json_parse (json_text v) ≫= into_batch = Some (mkSpillBatch spillFormatVersion batchID (Some <$> es)).
Proof.
  intros Hes Hid. destruct (entries_json es Hes) as (vs & Hvs & Hok & Hin). unfold batch_json. rewrite Hvs. cbn [mbind option_bind].
  eexists. split; [done|]. pose proof (elements_depth vs Hok) as Hd. rewrite json_round_trip.
  - cbn [mbind option_bind into_batch]. change (?a :: ?b :: [?c]) with ([a] ++ [b] ++ [c]).
    assert (is_int64 spillFormatVersion) by done. next_field. next_field.
    assert (decode_field batch_names "entries" into_entries []
      ([("version"%string, json_int spillFormatVersion)] ++ [("batch_id"%string, JString batchID)] ++ [("entries"%string, JArray vs)])
      = Some (Some <$> es)) as -> by (unfold decode_field; cbn; exact Hin).
    done.
  - apply json_ok_object. repeat (apply Forall_cons; split); [split; [done|]|by split|split; [done|]|constructor].
    + by apply number_ok_FormatInt.
    + apply json_ok_array. eapply Forall_impl; [exact Hok|]. by intros v [? _].
  - unfold max_nesting. cbn [json_depth fold_right snd json_int]. cbn [json_depth] in Hd. lia.
Qed.

(** *** Writing *)

Definition spill_env_ok (dir : Directory) (env : SpillEnv) : Prop :=
  se_batchID env <> ""%string /\ utf8_valid (se_batchID env) = true /\ dir !! spill_name env = None.

Lemma WriteBatch_ok env s dir es dir' : Forall entry_ok es -> spill_env_ok dir env -> es <> [] ->
  WriteBatch env s dir es = (dir', Ok tt) ->
  exists data, dir' = <[spill_name env := data]> dir /\ read_spill_file s data = Ok es /\ dir_size dir + go_len data <= sp_maxBytes s.
Proof.
  intros Hes (Hne & Hid & _) Hnil. unfold WriteBatch. destruct es as [|e es]; [done|]. set (l := e :: es) in *. intros H.
  destruct (negb (forallb _ l)) eqn:Ev; [done|]. apply negb_false_iff in Ev.
  destruct (batch_json_ok (se_batchID env) l Hes Hid) as (v & Hv & Hread). rewrite Hv in H.
  destruct (negb (se_size_ok env)); [done|]. destruct (Z.ltb_spec (sp_maxBytes s) (dir_size dir + go_len (json_text v))); [done|].
  destruct (negb (se_write_ok env)); [done|]. injection H as <-. exists (json_text v). split_and!; [done| |lia].
  unfold read_spill_file. rewrite Hread. cbn [sb_Version sb_BatchID sb_Entries]. rewrite bool_decide_false by done. cbn [Z.eqb Pos.eqb negb orb spillFormatVersion].
  assert (forallb (fun e => bool_decide (is_Some (VerifyAndDecryptEntry (sp_crypto s) e))) (Some <$> l) = true) as ->.
  { apply forallb_forall. intros o Ho%list_elem_of_In. apply list_elem_of_fmap in Ho as (x & -> & Hx).
    rewrite forallb_forall in Ev. apply Ev. by apply list_elem_of_In. }
  cbn [negb]. f_equal. clear. induction l as [|x l IH]; [done|]. cbn. by rewrite IH.
Qed.

Lemma WriteBatch_error env s dir es dir' e : WriteBatch env s dir es = (dir', Err e) -> dir' = dir.
Proof. unfold WriteBatch. intros H. repeat case_match; by simplify_eq. Qed.

(** *** What the directory holds *)

Definition spilled (s : SpillStore) (dir : Directory) (e : LogEntry) : Prop :=
  exists name data es, dir !! name = Some data /\ read_spill_file s data = Ok es /\ e ∈ es.

Lemma spilled_insert s dir name data e : dir !! name = None -> spilled s dir e -> spilled s (<[name := data]> dir) e.
Proof.
  intros Hn (name' & data' & es & Hd & Hr & He). exists name', data', es. split; [|done].
  rewrite lookup_insert_ne; [done|]. intros ->. congruence.
Qed.

Section Replay.
Context {W O : Type} `{BatchWriterLaws W O}.

(** A replay stores what it removes. *)
Lemma replay_files_keeps env s names : forall dir w n dir' w' n' r,
  replay_files env s dir w n names = (dir', w', n', r) -> writer_ok w ->
  writer_ok w' /\ (forall e, stored w e -> stored w' e) /\ dir' ⊆ dir
  /\ (forall e, spilled s dir e -> spilled s dir' e \/ stored w' e).
Proof.
  induction names as [|name names IH]; intros dir w n dir' w' n' r Hrun Hw; cbn [replay_files] in Hrun.
  { simplify_eq. split_and!; auto. }
  destruct (negb (re_read_ok env name)); [simplify_eq; split_and!; auto|].
  destruct (read_spill_file s (content dir name)) as [es|err] eqn:E; [|simplify_eq; split_and!; auto].
  destruct (insert_batch (re_insert env name) w es) as [w1 [|]] eqn:Ei.
  - pose proof (insert_ok _ _ _ _ _ Ei Hw) as Hw1. pose proof (insert_stores _ _ _ _ Ei Hw) as Hst.
    assert (forall e, stored w e -> stored w1 e) as Hk by (intros e; by eapply insert_keeps).
    destruct (re_remove_ok env name).
    + destruct (IH _ _ _ _ _ _ _ Hrun Hw1) as (Hw' & Hk' & Hsub & Hsp). split_and!; [done|auto| |].
      * etransitivity; [exact Hsub|]. apply delete_subseteq.
      * intros e (name' & data & es' & Hd & Hr & He). destruct (decide (name' = name)) as [->|Hne].
        { right. apply Hk'. unfold content in E. rewrite Hd in E. cbn in E. rewrite Hr in E. injection E as <-.
          rewrite Forall_forall in Hst. by apply Hst. }
        apply Hsp. exists name', data, es'. split; [|done]. by rewrite lookup_delete_ne.
    + simplify_eq. split_and!; auto.
  - simplify_eq. split_and!; [by eapply insert_ok|intros e; by eapply insert_keeps|done|auto].
Qed.

Lemma Replay_keeps env s dir w dir' w' n r : Replay env s dir w = (dir', w', n, r) -> writer_ok w ->
  writer_ok w' /\ (forall e, stored w e -> stored w' e) /\ dir' ⊆ dir
  /\ (forall e, spilled s dir e -> spilled s dir' e \/ stored w' e).
Proof.
  unfold Replay. destruct (negb (re_dir_ok env)); [intros Hrep Hw; simplify_eq; split_and!; auto|]. apply replay_files_keeps.
Qed.
End Replay.
