(* ===== verification/AuditQueue.v ===== *)
(** * The batch audit logger ([internal/audit/batch.go], [logger.go], [archive.go],
    [storage/postgres.go] for the insertion)

    The bounded queue, its worker and the spill store as a state machine: an
    event is one atomic step of a caller, of the worker or of the shutdown, with
    the outcomes of the calls it makes.  Any interleaving is a list of events.
    A step also returns the records it gave up, which the code only counts. *)

From S2P Require Import Prelude GoStr GoCrypto AuditCrypto Redaction AuditRecord Config Archive Spill Storage.
From stdpp Require Import options.
Local Open Scope Z_scope.

(** ** Writers *)

(** A row of [decision_audit_logs], column by column; [None] is null.  The
    context is given to the driver as a map, which may be nil. *)
Record AuditRow := mkAuditRow {
  ar_audit_id : string;
  ar_event_timestamp_ns : Z;
  ar_tenant_id : string;
  ar_request_subject : option string;
  ar_request_action : option string;
  ar_request_resource : option string;
  ar_decision : string;
  ar_matched_policy_id : option string;
  ar_evaluated_context : option (option (gmap string string));
  ar_is_encrypted : bool;
  ar_revision_id : Z;
  ar_payload_version : Z;
  ar_key_id : string;
  ar_request_id : string;
  ar_trace_id : string;
  ar_encrypted_dek : string;
  ar_encrypted_payload : string;
  ar_integrity_tag : string;
  ar_evaluated_at : Z
}.
Definition audit_row (l : LogEntry) : AuditRow :=
  let clear {A} (v : A) : option A := if le_IsEncrypted l then None else Some v in
  mkAuditRow (le_AuditID l) (le_Timestamp l) (le_TenantID l) (clear (le_Subject l)) (clear (le_Action l)) (clear (le_Resource l))
    (le_Decision l) (if bool_decide (le_MatchedPolicyID l = ""%string) then None else Some (le_MatchedPolicyID l))
    (clear (le_Context l)) (le_IsEncrypted l) (to_int64 (le_RevisionID l)) (le_PayloadVersion l) (le_KeyID l) (le_RequestID l)
    (le_TraceID l) (le_EncryptedDEK l) (le_EncryptedPayload l) (le_IntegrityTag l) (le_Timestamp l).

(** Whether the types of the columns take a record; a failure of [COPY] fails the batch. *)
Class AuditColumns := column_ok : LogEntry -> bool.

Abbreviation AuditTable := (gmap string AuditRow).
(** [INSERT ... ON CONFLICT (audit_id) DO NOTHING], record by record. *)
Definition insert_row (t : AuditTable) (l : LogEntry) : AuditTable :=
  match t !! le_AuditID l with Some _ => t | None => <[le_AuditID l := audit_row l]> t end.
Definition InsertAuditLogsBatch `{AuditColumns} (o : TxOutcome) (t : AuditTable) (logs : list LogEntry) : AuditTable * bool :=
  match logs with
  | [] => (t, true)
  | _ =>
      let '(t', r) := transaction o t (guard? negb (forallb column_ok logs) else DatabaseError; Ok (foldl insert_row t logs, tt)) in
      (t', is_ok r)
  end.
#[export] Instance postgres_writer `{AuditColumns} : BatchWriter AuditTable TxOutcome := InsertAuditLogsBatch.

(** [ArchivingBatchWriter]: the table first, then the archive. *)
Record ArchivingOut (Out : Type) := mkArchivingOut { ao_tx : TxOutcome; ao_put : nat -> Out }.
Arguments ao_tx {Out}.
Arguments ao_put {Out}.
Record ArchivingWriter (S : Type) := mkArchivingWriter { aw_table : AuditTable; aw_archive : S; aw_config : S3ArchiveConfig }.
Arguments mkArchivingWriter {S}.
Arguments aw_table {S}.
Arguments aw_archive {S}.
Arguments aw_config {S}.
Definition archiving_insert `{AuditColumns} {S Out} `{ObjectStore S Out} (o : ArchivingOut Out) (w : ArchivingWriter S) (logs : list LogEntry) :
    ArchivingWriter S * bool :=
  let '(t, ok) := InsertAuditLogsBatch (ao_tx o) (aw_table w) logs in
  if negb ok then (mkArchivingWriter t (aw_archive w) (aw_config w), false)
  else let '(s, r) := Archive (ao_put o) (aw_config w) (aw_archive w) (Some <$> logs) in
       (mkArchivingWriter t s (aw_config w), is_ok r).
#[export] Instance archiving_writer `{AuditColumns} {S Out} `{ObjectStore S Out} : BatchWriter (ArchivingWriter S) (ArchivingOut Out) :=
  archiving_insert.

(** ** The logger *)

Record BatchConfig := mkBatchConfig {
  bc_QueueCapacity : Z;
  bc_BatchSize : Z;
  bc_FlushInterval : Z;
  bc_WriteTimeout : Z;
  bc_SpillDir : string;
  bc_SpillMaxBytes : Z
}.

Inductive LoggerError := BadQueueSizes | BadLoggerIntervals | BadLoggerCrypto (e : CryptoError) | BadSpill (e : SpillError).

(** What does not change after the construction. *)
Record LoggerConfig := mkLoggerConfig {
  lc_capacity : nat;
  lc_batchSize : nat;
  lc_crypto : EnvelopeCrypto;
  lc_spill : option SpillStore
}.

(** [crypto] is the configured one; without it [kek], the value of [LOG_KEK], is used.  The writer is present. *)
Definition NewBatchAuditLogger (made : bool) (kek : string) (crypto : option EnvelopeCrypto) (cfg : BatchConfig) : result LoggerError LoggerConfig :=
  guard? (bc_QueueCapacity cfg <=? 0) || (bc_BatchSize cfg <=? 0) || (bc_QueueCapacity cfg <? bc_BatchSize cfg) else BadQueueSizes;
  guard? (bc_FlushInterval cfg <=? 0) || (bc_WriteTimeout cfg <=? 0) else BadLoggerIntervals;
  let? c := match crypto with
            | Some c => Ok c
            | None => match NewEnvelopeCrypto kek with Ok c => Ok c | Err e => Err (BadLoggerCrypto e) end
            end in
  let? spill := if bool_decide (bc_SpillDir cfg = ""%string) then Ok None
                else match NewSpillStore made (bc_SpillDir cfg) (bc_SpillMaxBytes cfg) (Some c) with
                     | Ok s => Ok (Some s)
                     | Err e => Err (BadSpill e)
                     end in
  Ok (mkLoggerConfig (Z.to_nat (bc_QueueCapacity cfg)) (Z.to_nat (bc_BatchSize cfg)) c spill).

Record BatchStats := mkBatchStats {
  st_Queued : Z;
  st_Written : Z;
  st_Dropped : Z;
  st_WriteFailures : Z;
  st_Spilled : Z;
  st_Replayed : Z;
  st_SpillFailures : Z
}.

Inductive WorkerState := WorkerNotStarted | WorkerRunning | WorkerDone.

(** [al_canceled] is the context of the worker, [al_batch] its local slice. *)
Record AuditLogger (W : Type) := mkLogger {
  al_queue : list LogEntry;
  al_batch : list LogEntry;
  al_dir : Directory;
  al_writer : W;
  al_worker : WorkerState;
  al_canceled : bool;
  al_stopped : bool;
  al_stats : BatchStats
}.
Arguments mkLogger {W}.
Arguments al_queue {W}.
Arguments al_batch {W}.
Arguments al_dir {W}.
Arguments al_writer {W}.
Arguments al_worker {W}.
Arguments al_canceled {W}.
Arguments al_stopped {W}.
Arguments al_stats {W}.

Definition new_logger {W} (dir : Directory) (w : W) : AuditLogger W :=
  mkLogger [] [] dir w WorkerNotStarted false false (mkBatchStats 0 0 0 0 0 0 0).

Section Logger.
Context {W Out : Type} `{BatchWriter W Out} (cfg : LoggerConfig).
Implicit Types l : AuditLogger W.

Definition with_stats l (s : BatchStats) : AuditLogger W :=
  mkLogger (al_queue l) (al_batch l) (al_dir l) (al_writer l) (al_worker l) (al_canceled l) (al_stopped l) s.
Definition with_queue l (q : list LogEntry) : AuditLogger W :=
  mkLogger q (al_batch l) (al_dir l) (al_writer l) (al_worker l) (al_canceled l) (al_stopped l) (al_stats l).
Definition with_batch l (b : list LogEntry) : AuditLogger W :=
  mkLogger (al_queue l) b (al_dir l) (al_writer l) (al_worker l) (al_canceled l) (al_stopped l) (al_stats l).
Definition with_dir l (d : Directory) : AuditLogger W :=
  mkLogger (al_queue l) (al_batch l) d (al_writer l) (al_worker l) (al_canceled l) (al_stopped l) (al_stats l).
Definition with_writer l (w : W) : AuditLogger W :=
  mkLogger (al_queue l) (al_batch l) (al_dir l) w (al_worker l) (al_canceled l) (al_stopped l) (al_stats l).
Definition with_worker l (s : WorkerState) : AuditLogger W :=
  mkLogger (al_queue l) (al_batch l) (al_dir l) (al_writer l) s (al_canceled l) (al_stopped l) (al_stats l).
Definition with_flags l (canceled stopped : bool) : AuditLogger W :=
  mkLogger (al_queue l) (al_batch l) (al_dir l) (al_writer l) (al_worker l) canceled stopped (al_stats l).

Definition add_queued (s : BatchStats) : BatchStats :=
  mkBatchStats (st_Queued s + 1) (st_Written s) (st_Dropped s) (st_WriteFailures s) (st_Spilled s) (st_Replayed s) (st_SpillFailures s).
Definition add_written (s : BatchStats) (n : Z) : BatchStats :=
  mkBatchStats (st_Queued s) (st_Written s + n) (st_Dropped s) (st_WriteFailures s) (st_Spilled s) (st_Replayed s) (st_SpillFailures s).
Definition add_dropped (s : BatchStats) (n : Z) : BatchStats :=
  mkBatchStats (st_Queued s) (st_Written s) (st_Dropped s + n) (st_WriteFailures s) (st_Spilled s) (st_Replayed s) (st_SpillFailures s).
Definition add_write_failure (s : BatchStats) : BatchStats :=
  mkBatchStats (st_Queued s) (st_Written s) (st_Dropped s) (st_WriteFailures s + 1) (st_Spilled s) (st_Replayed s) (st_SpillFailures s).
Definition add_spilled (s : BatchStats) (n : Z) : BatchStats :=
  mkBatchStats (st_Queued s) (st_Written s) (st_Dropped s) (st_WriteFailures s) (st_Spilled s + n) (st_Replayed s) (st_SpillFailures s).
Definition add_replayed (s : BatchStats) (n : Z) : BatchStats :=
  mkBatchStats (st_Queued s) (st_Written s) (st_Dropped s) (st_WriteFailures s) (st_Spilled s) (st_Replayed s + n) (st_SpillFailures s).
Definition add_spill_failure (s : BatchStats) : BatchStats :=
  mkBatchStats (st_Queued s) (st_Written s) (st_Dropped s) (st_WriteFailures s) (st_Spilled s) (st_Replayed s) (st_SpillFailures s + 1).

Definition recordDropped l (n : Z) : AuditLogger W := with_stats l (add_dropped (al_stats l) n).

(** The records that could not be spilled are given up. *)
Definition spillOrDrop (env : SpillEnv) l (entries : list LogEntry) : AuditLogger W * list LogEntry :=
  match lc_spill cfg with
  | Some s =>
      match WriteBatch env s (al_dir l) entries with
      | (dir, Ok _) => (with_stats (with_dir l dir) (add_spilled (al_stats l) (Z.of_nat (length entries))), [])
      | (dir, Err _) => (recordDropped (with_stats (with_dir l dir) (add_spill_failure (al_stats l))) (Z.of_nat (length entries)), entries)
      end
  | None => (recordDropped (with_stats l (add_spill_failure (al_stats l))) (Z.of_nat (length entries)), entries)
  end.

Definition enqueue (env : SpillEnv) l (entry : LogEntry) : AuditLogger W * list LogEntry :=
  if al_stopped l then (recordDropped l 1, [entry])
  else if (length (al_queue l) <? lc_capacity cfg)%nat
  then (with_stats (with_queue l (al_queue l ++ [entry])) (add_queued (al_stats l)), [])
  else spillOrDrop env l [entry].

(** The decision [Log] is given, at its time. *)
Record AuditDecision := mkAuditDecision {
  ad_time : Z;
  ad_revision : Z;
  ad_tenantID : string;
  ad_subject : string;
  ad_action : string;
  ad_resource : string;
  ad_decision : string;
  ad_matchedPolicyID : string;
  ad_context : gmap string string
}.
Definition decision_entry (d : AuditDecision) : LogEntry :=
  mkLogEntry "" 0 (ad_time d) (ad_revision d) (ad_tenantID d) (ad_subject d) (ad_action d) (ad_resource d) (ad_decision d)
    (ad_matchedPolicyID d) (redactedAuditContext (ad_context d)) zero_time_nanos false "" "" "" "" "" "".

(** [Log] with a batch writer. *)
Definition Log (uuid : option string) (rnd : CryptoRandom) (env : SpillEnv) l (d : AuditDecision) : AuditLogger W * list LogEntry :=
  match sealAuditEntry uuid rnd (Some (lc_crypto cfg)) (decision_entry d) with
  | None => (recordDropped l 1, [])
  | Some entry => enqueue env l entry
  end.

(** The closure [replay] of the worker: a failed replay is only counted as a failure. *)
Definition replay (env : ReplayEnv Out) l : AuditLogger W :=
  match lc_spill cfg with
  | None => l
  | Some s =>
      match Replay env s (al_dir l) (al_writer l) with
      | (dir, w, count, Ok _) => with_stats (with_writer (with_dir l dir) w) (add_replayed (al_stats l) count)
      | (dir, w, _, Err _) => with_stats (with_writer (with_dir l dir) w) (add_spill_failure (al_stats l))
      end
  end.

(** The outcomes of a flush. *)
Record FlushEnv := mkFlushEnv { fe_insert : Out; fe_spill : SpillEnv; fe_replay : ReplayEnv Out }.

Definition flush (env : FlushEnv) l : AuditLogger W * list LogEntry :=
  match al_batch l with
  | [] => (l, [])
  | batch =>
      let '(w, ok) := insert_batch (fe_insert env) (al_writer l) batch in
      let l1 := with_writer l w in
      let '(l2, lost) :=
        if ok then (replay (fe_replay env) (with_stats l1 (add_written (al_stats l1) (Z.of_nat (length batch)))), [])
        else spillOrDrop (fe_spill env) (with_stats l1 (add_write_failure (al_stats l1))) batch in
      (with_batch l2 [], lost)
  end.

(** The worker takes the oldest record of the queue, and flushes a full batch. *)
Definition receive (env : FlushEnv) l : AuditLogger W * list LogEntry :=
  match al_queue l with
  | [] => (l, [])
  | entry :: queue =>
      let l1 := with_batch (with_queue l queue) (al_batch l ++ [entry]) in
      if (length (al_batch l1) =? lc_batchSize cfg)%nat then flush env l1 else (l1, [])
  end.

(** After the cancellation: the queue is emptied, then the rest is flushed. *)
Fixpoint drain (fuel : nat) (env : nat -> FlushEnv) l : AuditLogger W * list LogEntry :=
  match fuel with
  | O => flush (env O) l
  | S fuel' =>
      match al_queue l with
      | [] => flush (env fuel) l
      | _ => let '(l1, lost1) := receive (env fuel) l in
             let '(l2, lost2) := drain fuel' env l1 in (l2, lost1 ++ lost2)
      end
  end.

Inductive LoggerEvent :=
| EvLog (uuid : option string) (rnd : CryptoRandom) (env : SpillEnv) (d : AuditDecision)
| EvStart (env : ReplayEnv Out)
| EvReceive (env : FlushEnv)
| EvTick (renv : ReplayEnv Out) (env : FlushEnv)
| EvCancelParent
| EvStop
| EvDrain (env : nat -> FlushEnv).

(** Only a running worker takes its events, and it finishes only when canceled. *)
Definition logger_step l (ev : LoggerEvent) : AuditLogger W * list LogEntry :=
  match ev with
  | EvLog uuid rnd env d => Log uuid rnd env l d
  | EvStart env =>
      match al_worker l with
      | WorkerNotStarted => (replay env (with_worker l WorkerRunning), [])
      | _ => (l, [])
      end
  | EvReceive env => match al_worker l with WorkerRunning => receive env l | _ => (l, []) end
  | EvTick renv env => match al_worker l with WorkerRunning => flush env (replay renv l) | _ => (l, []) end
  | EvCancelParent => (with_flags l true (al_stopped l), [])
  | EvStop => (with_flags l (al_canceled l || match al_worker l with WorkerNotStarted => false | _ => true end) true, [])
  | EvDrain env =>
      match al_worker l, al_canceled l with
      | WorkerRunning, true =>
          let '(l', lost) := drain (length (al_queue l)) env l in (with_worker l' WorkerDone, lost)
      | _, _ => (l, [])
      end
  end.

Fixpoint run_logger l (evs : list LoggerEvent) : AuditLogger W * list LogEntry :=
  match evs with
  | [] => (l, [])
  | ev :: evs' => let '(l1, lost1) := logger_step l ev in let '(l2, lost2) := run_logger l1 evs' in (l2, lost1 ++ lost2)
  end.

Definition Stats l : BatchStats := al_stats l.
End Logger.
