(* ===== verification/AuditQueueFacts.v ===== *)
(** * Theorems about the batch audit logger

    A step of the logger moves records between the queue, the batch of the
    worker, the spill directory and the writer, or gives them up: one relation
    [step_ok] says so, each operation satisfies it, and runs compose it. *)

From S2P Require Import Prelude GoStr GoCrypto Storage GoJson Config GoAes AuditCrypto Redaction AuditRecord.
From S2P Require Import AuditRecordFacts Archive Spill AuditQueue.
From stdpp Require Import options.
Local Open Scope Z_scope.

Section Logger.
Context {W Out : Type} `{BatchWriterLaws W Out} (cfg : LoggerConfig).
Implicit Types l : AuditLogger W.

(** ** Where a record is *)

Definition in_spill (dir : Directory) (e : LogEntry) : Prop := exists s, lc_spill cfg = Some s /\ spilled s dir e.
(** Somewhere outside the memory of the process, or in it. *)
Definition durable l (e : LogEntry) : Prop := in_spill (al_dir l) e \/ stored (al_writer l) e.
Definition held l (e : LogEntry) : Prop := e ∈ al_queue l \/ e ∈ al_batch l \/ durable l e.

Definition logger_inv l : Prop := writer_ok (al_writer l) /\ Forall entry_ok (al_queue l) /\ Forall entry_ok (al_batch l).

Record step_ok l l' (lost : list LogEntry) : Prop := {
  so_inv : logger_inv l';
  so_held : forall e, held l e -> held l' e \/ e ∈ lost;
  so_durable : forall e, durable l e -> durable l' e;
  so_dropped : st_Dropped (al_stats l) + Z.of_nat (length lost) <= st_Dropped (al_stats l')
}.

Lemma step_ok_refl l : logger_inv l -> step_ok l l [].
Proof. intros Hl. constructor; [done|auto|auto|cbn; lia]. Qed.

Lemma step_ok_trans l l1 l2 lost1 lost2 : step_ok l l1 lost1 -> step_ok l1 l2 lost2 -> step_ok l l2 (lost1 ++ lost2).
Proof.
  intros [I1 H1 D1 C1] [I2 H2 D2 C2]. constructor; [done| |auto|rewrite length_app; lia].
  intros e He. rewrite elem_of_app. destruct (H1 e He) as [Hh|Hl]; [|tauto]. destruct (H2 e Hh); tauto.
Qed.

(** The fields no record is in. *)
Definition same_control l l' : Prop :=
  al_worker l' = al_worker l /\ al_canceled l' = al_canceled l /\ al_stopped l' = al_stopped l.

(** ** The operations *)

Lemma spillOrDrop_ok env l es l' lost : logger_inv l -> Forall entry_ok es -> spill_env_ok (al_dir l) env -> es <> [] ->
  spillOrDrop cfg env l es = (l', lost) ->
  step_ok l l' lost /\ (forall e, e ∈ es -> in_spill (al_dir l') e \/ e ∈ lost)
  /\ al_queue l' = al_queue l /\ al_batch l' = al_batch l /\ al_writer l' = al_writer l /\ same_control l l'
  /\ dom (al_dir l') ⊆ dom (al_dir l) ∪ {[spill_name env]}.
Proof.
  intros Hl Hes Henv Hne. unfold spillOrDrop. destruct (lc_spill cfg) as [s|] eqn:Es.
  - destruct (WriteBatch env s (al_dir l) es) as [dir [[]|err]] eqn:E; intros [= <- <-].
    + destruct (WriteBatch_ok _ _ _ _ _ Hes Henv Hne E) as (data & -> & Hread & _). destruct Henv as (_ & _ & Hfresh).
      assert (forall e, in_spill (al_dir l) e -> in_spill (<[spill_name env := data]> (al_dir l)) e) as Hk.
      { intros e (s' & Hs' & Hsp). exists s'. split; [done|]. by apply spilled_insert. }
      split_and!; try done.
      * constructor; [exact Hl| | |cbn; lia]; unfold held, durable; cbn; intros e; intuition auto.
      * intros e He. left. exists s. split; [done|]. exists (spill_name env), data, es. cbn. by rewrite lookup_insert_eq.
      * cbn. rewrite dom_insert_L. set_solver.
    + apply WriteBatch_error in E as ->. split_and!; try done; [|intros e He; by right|cbn; set_solver].
      constructor; [exact Hl| | |cbn; lia]; unfold held, durable; cbn; intros e; auto.
  - intros [= <- <-]. split_and!; try done; [|intros e He; by right|cbn; set_solver].
    constructor; [exact Hl| | |cbn; lia]; unfold held, durable; cbn; intros e; auto.
Qed.

Lemma replay_ok env l : logger_inv l ->
  step_ok l (replay cfg env l) [] /\ al_queue (replay cfg env l) = al_queue l /\ al_batch (replay cfg env l) = al_batch l
  /\ same_control l (replay cfg env l) /\ al_dir (replay cfg env l) ⊆ al_dir l.
Proof.
  intros Hl. unfold replay. destruct (lc_spill cfg) as [s|] eqn:Es; [|split_and!; try done; by apply step_ok_refl].
  destruct (Replay env s (al_dir l) (al_writer l)) as [[[dir w] n] r] eqn:E. destruct Hl as (Hw & Hq & Hb).
  destruct (Replay_keeps _ _ _ _ _ _ _ _ E Hw) as (Hw' & Hst & Hsub & Hsp).
  assert (forall e, in_spill (al_dir l) e -> in_spill dir e \/ stored w e) as Hsp'.
  { intros e (s' & Hs' & He). rewrite Es in Hs'. injection Hs' as <-. destruct (Hsp e He); [left; by exists s|by right]. }
  destruct r as [u|err]; (split_and!; try done; constructor; [by split| | |cbn; lia]); unfold held, durable; cbn; intros e;
    (pose proof (Hst e); pose proof (Hsp' e); tauto).
Qed.

Lemma flush_ok env l l' lost : logger_inv l -> spill_env_ok (al_dir l) (fe_spill env) -> flush cfg env l = (l', lost) ->
  step_ok l l' lost /\ al_batch l' = [] /\ al_queue l' = al_queue l /\ same_control l l'
  /\ dom (al_dir l') ⊆ dom (al_dir l) ∪ {[spill_name (fe_spill env)]}.
Proof.
  intros Hl Henv. unfold flush. destruct (al_batch l) as [|b batch] eqn:Eb.
  { intros [= <- <-]. split_and!; try done; [by apply step_ok_refl|set_solver]. }
  set (es := b :: batch) in *. destruct (insert_batch (fe_insert env) (al_writer l) es) as [w ok] eqn:Ei.
  pose proof Hl as (Hw & Hq & Hb). rewrite Eb in Hb. pose proof (insert_ok _ _ _ _ _ Ei Hw) as Hw'.
  assert (forall e, stored (al_writer l) e -> stored w e) as Hst by (intros e; by eapply insert_keeps).
  assert (logger_inv (with_writer l w)) as Hl1 by (split; [done|split; [done|]]; cbn; by rewrite Eb).
  destruct ok.
  - set (l1 := with_stats (with_writer l w) _). assert (logger_inv l1) as Hl1' by done.
    destruct (replay_ok (fe_replay env) l1 Hl1') as ([Ir Hr Dr Cr] & Hqr & Hbr & Hcr & Hdr).
    set (l2 := replay cfg (fe_replay env) l1) in *. intros [= <- <-].
    pose proof (insert_stores _ _ _ _ Ei Hw) as Hall. rewrite Forall_forall in Hall.
    assert (forall e, durable l e -> durable l2 e) as Hdur.
    { intros e He. apply Dr. unfold durable in *. cbn. destruct He; [by left|right; by apply Hst]. }
    split_and!; try done; [constructor|].
    + destruct Ir as (? & ? & ?). split_and!; [done|done|constructor].
    + intros e [He|[He|He]].
      * left. left. cbn. by rewrite Hqr.
      * left. right. right. change (durable l2 e). apply Dr. right. cbn. rewrite Eb in He. by apply Hall.
      * left. right. right. change (durable l2 e). by apply Hdur.
    + done.
    + cbn in Cr |- *. lia.
    + cbn. apply subseteq_dom in Hdr. cbn in Hdr. set_solver.
  - set (l1 := with_stats (with_writer l w) _). assert (logger_inv l1) as Hl1' by done.
    destruct (spillOrDrop cfg (fe_spill env) l1 es) as [l2 lost2] eqn:E. intros [= <- <-].
    destruct (spillOrDrop_ok (fe_spill env) l1 es l2 lost2 Hl1' Hb Henv ltac:(done) E) as ([Is Hs Ds Cs] & Hin & Hqs & Hbs & Hws & Hcs & Hds).
    assert (forall e, durable l e -> durable l2 e) as Hdur.
    { intros e He. apply Ds. unfold durable in *. cbn. destruct He; [by left|right; by apply Hst]. }
    split_and!; try done. constructor.
    + destruct Is as (? & ? & ?). split_and!; [done|done|constructor].
    + intros e [He|[He|He]].
      * left. left. cbn. by rewrite Hqs.
      * rewrite Eb in He. destruct (Hin e He) as [Hsp|?]; [|by right]. left. right. right. left. exact Hsp.
      * left. right. right. change (durable l2 e). by apply Hdur.
    + done.
    + cbn in Cs |- *. lia.
Qed.

(** *** Logging *)

Definition utf8_strings (l : list string) : Prop := Forall (fun s => utf8_valid s = true) l.

(** What a caller gives [Log]: UTF-8 texts and numbers of their width. *)
Definition decision_ok (d : AuditDecision) : Prop :=
  is_int64 (ad_time d) /\ is_uint64 (ad_revision d)
  /\ utf8_strings [ad_tenantID d; ad_subject d; ad_action d; ad_resource d; ad_decision d; ad_matchedPolicyID d]
  /\ map_Forall (fun k v => utf8_valid k = true /\ utf8_valid v = true) (ad_context d).

Lemma redacted_value_ok m k v : map_Forall (fun k v => utf8_valid k = true /\ utf8_valid v = true) m ->
  default ∅ (redactedAuditContext m) !! k = Some v -> utf8_valid v = true.
Proof.
  intros Hm. unfold redactedAuditContext. destruct (bool_decide _); cbn [default from_option id]; [by rewrite lookup_empty|].
  rewrite map_lookup_imap. destruct (m !! k) as [v0|] eqn:E; cbn; [|done]. intros [= <-].
  destruct (shouldRedactAuditContextKey k); [done|]. by apply (Hm k v0).
Qed.

Lemma Encrypt_texts rnd crypto p aad c dek k : random_ok rnd -> crypto_ok crypto -> Forall is_byte p ->
  EncryptWithAAD rnd crypto p aad = Ok (c, dek, k) -> utf8_valid c = true /\ utf8_valid dek = true.
Proof.
  unfold EncryptWithAAD. intros Hr Hc Hp He. inv_result.
  match goal with E : random_bytes 32 _ = Ok ?d |- _ => apply random_bytes_ok in E as [Hd _]; rename d into dk end.
  assert (Forall is_byte dk) as Hdk by (apply Hr; by left).
  split; apply base64_is_utf8.
  - eapply encrypt_aes_byte; [| | |eassumption]; [intros r ?; apply Hr; tauto|done|done].
  - eapply encrypt_aes_byte; [| | |eassumption]; [intros r ?; apply Hr; tauto|done|].
    destruct (keks crypto !! ec_activeKeyID crypto) as [kek|] eqn:Ek; [by apply (Hc _ kek Ek)|constructor].
Qed.

Lemma IntegrityTag_text crypto k parts tag : IntegrityTag crypto k parts = Ok tag -> utf8_valid tag = true.
Proof.
  unfold IntegrityTag. destruct (keks crypto !! k); [|done]. intros [= <-]. apply base64_is_utf8, hmac_sha256_is_byte.
Qed.

Lemma sealed_entry_ok auditID rnd crypto d e : decision_ok d -> utf8_valid auditID = true -> utf8_valid (ec_activeKeyID crypto) = true ->
  random_ok rnd -> crypto_ok crypto -> sealAuditEntry (Some auditID) rnd (Some crypto) (decision_entry d) = Some e -> entry_ok e.
Proof.
  intros (Ht & Hr & Hs & Hctx) Hid Hk Hrnd Hc (auditID' & c & dek & tag & [= <-] & Henc & Htag & ->)%sealAuditEntry_ok.
  apply Encrypt_texts in Henc as [Hct Hdek]; [|done|done|apply go_bytes_is_byte]. apply IntegrityTag_text in Htag.
  repeat (apply Forall_cons in Hs as [? Hs]). constructor; cbn; try done.
  assert (forall key, utf8_valid (default ""%string (default ∅ (redactedAuditContext (ad_context d)) !! key)) = true) as Hval.
  { intros key. destruct (default ∅ (redactedAuditContext (ad_context d)) !! key) as [v|] eqn:E; [|done]. by eapply redacted_value_ok. }
  repeat (apply Forall_cons; split; [first [done | apply Hval]|]). constructor.
Qed.

Lemma enqueue_ok env l e l' lost : logger_inv l -> entry_ok e -> spill_env_ok (al_dir l) env -> enqueue cfg env l e = (l', lost) ->
  step_ok l l' lost /\ (held l' e \/ e ∈ lost) /\ same_control l l'.
Proof.
  intros Hl He Henv. unfold enqueue. destruct (al_stopped l).
  { intros [= <- <-]. split_and!; [|right; by left|done]. constructor; [exact Hl| | |cbn; lia]; intros x; [left|]; done. }
  destruct (length (al_queue l) <? lc_capacity cfg)%nat.
  - intros [= <- <-]. destruct Hl as (Hw & Hq & Hb). split_and!; [|left; left; cbn; set_solver|done].
    constructor; [split_and!; [done|by apply Forall_app; split; [|apply Forall_singleton]|done]| |done|cbn; lia].
    intros x [Hx|Hx]; left; [left; cbn; set_solver|right; exact Hx].
  - intros E. destruct (spillOrDrop_ok env l [e] l' lost Hl ltac:(by apply Forall_singleton) Henv ltac:(done) E)
      as (Hs & Hin & _ & _ & _ & Hcs & _). split_and!; [done| |done].
    destruct (Hin e ltac:(by left)); [|by right]. left. right. right. by left.
Qed.

(** *** The worker *)

Lemma receive_ok env l l' lost : logger_inv l -> spill_env_ok (al_dir l) (fe_spill env) -> receive cfg env l = (l', lost) ->
  step_ok l l' lost /\ same_control l l' /\ al_queue l' = tail (al_queue l)
  /\ dom (al_dir l') ⊆ dom (al_dir l) ∪ {[spill_name (fe_spill env)]}.
Proof.
  intros Hl Henv. unfold receive. destruct (al_queue l) as [|e queue] eqn:Eq.
  { intros [= <- <-]. rewrite Eq. split_and!; [by apply step_ok_refl|done|done|set_solver]. }
  set (l1 := with_batch (with_queue l queue) (al_batch l ++ [e])).
  assert (step_ok l l1 []) as H1.
  { destruct Hl as (Hw & Hq & Hb). rewrite Eq in Hq. apply Forall_cons in Hq as [He Hq].
    constructor; [split_and!; [done|done|]; cbn; apply Forall_app; split; [done|by apply Forall_singleton]| |done|cbn; lia].
    unfold held. rewrite Eq. cbn. intros x. rewrite elem_of_cons, elem_of_app, list_elem_of_singleton. tauto. }
  destruct (_ =? _)%nat.
  - intros E. destruct (flush_ok env l1 l' lost) as (H2 & _ & Hq2 & Hc2 & Hd2); [apply H1|done|done|].
    split_and!; [by apply (step_ok_trans l l1 l' [] lost)|done|done|done].
  - intros [= <- <-]. split_and!; [done|done|done|cbn; set_solver].
Qed.

(** The names the files of a drain would get are new, and different. *)
Definition drain_env_ok (dir : Directory) (env : nat -> FlushEnv (Out := Out)) (n : nat) : Prop :=
  (forall i, (i <= n)%nat -> spill_env_ok dir (fe_spill (env i)))
  /\ forall i j, (i < j <= n)%nat -> spill_name (fe_spill (env i)) <> spill_name (fe_spill (env j)).

Lemma drain_ok fuel : forall env l l' lost, logger_inv l -> drain_env_ok (al_dir l) env fuel -> (length (al_queue l) <= fuel)%nat ->
  drain cfg fuel env l = (l', lost) -> step_ok l l' lost /\ same_control l l' /\ al_queue l' = [] /\ al_batch l' = [].
Proof.
  induction fuel as [|fuel IH]; intros env l l' lost Hl [Henv Hdiff] Hf; cbn [drain].
  - intros E. apply flush_ok in E as (Hs & Hb & Hq & Hc & _); [|done|by apply Henv]. split_and!; try done.
    rewrite Hq. by destruct (al_queue l); [|cbn in Hf; lia].
  - destruct (al_queue l) as [|e queue] eqn:Eq.
    { intros E. apply flush_ok in E as (Hs & Hb & Hq & Hc & _); [|done|by apply Henv]. split_and!; try done. by rewrite Hq. }
    destruct (receive cfg (env (S fuel)) l) as [l1 lost1] eqn:E1. destruct (drain cfg fuel env l1) as [l2 lost2] eqn:E2.
    intros [= <- <-]. apply receive_ok in E1 as (Hs1 & Hc1 & Hq1 & Hd1); [|done|by apply Henv].
    apply IH in E2 as (Hs2 & Hc2 & Hq2 & Hb2); [|apply Hs1| |rewrite Hq1, Eq; cbn in *; lia].
    + split_and!; [by eapply step_ok_trans| |done|done]. unfold same_control in *. intuition congruence.
    + split; [|intros i j Hij; apply Hdiff; lia]. intros i Hi. destruct (Henv i ltac:(lia)) as (Hn & Hu & Hfr). split_and!; [done|done|].
      apply not_elem_of_dom. intros Hin. apply Hd1 in Hin. apply elem_of_union in Hin as [Hin|Hin%elem_of_singleton].
      * by apply not_elem_of_dom in Hfr.
      * by apply (Hdiff i (S fuel) ltac:(lia)).
Qed.

(** ** Runs *)

Definition event_ok l (ev : LoggerEvent (Out := Out)) : Prop :=
  match ev with
  | EvLog uuid rnd env d => decision_ok d /\ (forall u, uuid = Some u -> utf8_valid u = true) /\ random_ok rnd /\ spill_env_ok (al_dir l) env
  | EvReceive env | EvTick _ env => spill_env_ok (al_dir l) (fe_spill env)
  | EvDrain env => drain_env_ok (al_dir l) env (length (al_queue l))
  | EvStart _ | EvCancelParent | EvStop => True
  end.

Fixpoint run_ok l (evs : list (LoggerEvent (Out := Out))) : Prop :=
  match evs with
  | [] => True
  | ev :: evs' => event_ok l ev /\ run_ok (logger_step cfg l ev).1 evs'
  end.

(** The key ring a logger seals with. *)
Hypothesis crypto_sound : crypto_ok (lc_crypto cfg) /\ utf8_valid (ec_activeKeyID (lc_crypto cfg)) = true.

(** The record an event logs. *)
Definition logs (ev : LoggerEvent (Out := Out)) (e : LogEntry) : Prop :=
  match ev with
  | EvLog uuid rnd _ d => sealAuditEntry uuid rnd (Some (lc_crypto cfg)) (decision_entry d) = Some e
  | _ => False
  end.

Lemma spill_env_ok_subseteq dir dir' env : dir' ⊆ dir -> spill_env_ok dir env -> spill_env_ok dir' env.
Proof.
  intros Hsub (Hn & Hu & Hf). split_and!; [done|done|]. destruct (dir' !! spill_name env) eqn:E; [|done].
  apply (lookup_weaken _ dir) in E; [congruence|done].
Qed.

Lemma event_step_ok l ev l' lost : logger_inv l -> event_ok l ev -> logger_step cfg l ev = (l', lost) ->
  step_ok l l' lost /\ forall e, logs ev e -> held l' e \/ e ∈ lost.
Proof using crypto_sound.
  intros Hl Hev. destruct ev as [uuid rnd env d|env|env|renv env| | |env]; cbn [logger_step logs event_ok] in *.
  - destruct Hev as (Hd & Hu & Hr & Henv). unfold Log. destruct (sealAuditEntry _ _ _ _) as [e|] eqn:E.
    + destruct uuid as [u|]; [|unfold sealAuditEntry in E; done].
      pose proof (sealed_entry_ok u rnd _ d e Hd (Hu u eq_refl) (proj2 crypto_sound) Hr (proj1 crypto_sound) E) as He.
      intros Hq. apply enqueue_ok in Hq as (Hs & Hh & _); [|done..]. split; [done|]. intros e' [= <-]. done.
    + intros [= <- <-]. split; [|done]. constructor; [exact Hl|auto|auto|cbn; lia].
  - destruct (al_worker l); intros [= <- <-]; (split; [|done]); [|by apply step_ok_refl|by apply step_ok_refl].
    pose proof (replay_ok env (with_worker l WorkerRunning) Hl) as ([I1 H1 D1 C1] & _). constructor; [exact I1|exact H1|exact D1|exact C1].
  - destruct (al_worker l); [intros [= <- <-]; by split; [apply step_ok_refl|]| |intros [= <- <-]; by split; [apply step_ok_refl|]].
    intros E. apply receive_ok in E as (Hs & _); [by split|done|done].
  - destruct (al_worker l); [intros [= <- <-]; by split; [apply step_ok_refl|]| |intros [= <- <-]; by split; [apply step_ok_refl|]].
    destruct (replay_ok renv l Hl) as (Hr & _ & _ & _ & Hd). intros E.
    apply flush_ok in E as (Hs & _); [|apply Hr|by eapply spill_env_ok_subseteq]. split; [|done]. by apply (step_ok_trans l (replay cfg renv l) l' [] lost).
  - intros [= <- <-]. split; [|done]. constructor; [exact Hl|auto|auto|cbn; lia].
  - intros [= <- <-]. split; [|done]. constructor; [exact Hl|auto|auto|cbn; lia].
  - destruct (al_worker l), (al_canceled l); try (intros [= <- <-]; by split; [apply step_ok_refl|]).
    destruct (drain cfg _ env l) as [l1 lost1] eqn:E. intros [= <- <-].
    apply drain_ok in E as (Hs & _); [|done|done|lia]. split; [|done]. destruct Hs as [I1 H1 D1 C1]. constructor; [exact I1|exact H1|exact D1|exact C1].
Qed.

Lemma run_logger_ok evs : forall l l' lost, logger_inv l -> run_ok l evs -> run_logger cfg l evs = (l', lost) ->
  step_ok l l' lost /\ forall ev e, ev ∈ evs -> logs ev e -> held l' e \/ e ∈ lost.
Proof using crypto_sound.
  induction evs as [|ev evs IH]; intros l l' lost Hl Hok; cbn [run_logger].
  { intros [= <- <-]. split; [by apply step_ok_refl|]. by intros ev e ?%elem_of_nil. }
  destruct Hok as [Hev Hok]. destruct (logger_step cfg l ev) as [l1 lost1] eqn:E1. destruct (run_logger cfg l1 evs) as [l2 lost2] eqn:E2.
  intros [= <- <-]. cbn [fst] in Hok. apply event_step_ok in E1 as [Hs1 Hin1]; [|done|done].
  apply IH in E2 as [Hs2 Hin2]; [|apply Hs1|done]. split; [by eapply step_ok_trans|].
  intros ev' e [->|Hev']%elem_of_cons Hlog; rewrite elem_of_app.
  - destruct (Hin1 e Hlog) as [Hh|?]; [|tauto]. destruct (so_held _ _ _ Hs2 e Hh); tauto.
  - destruct (Hin2 ev' e Hev' Hlog); tauto.
Qed.

(** C7: Whatever the interleaving of the callers, the worker and the shutdown, and whatever fails, a record that was logged is
    in the queue, in the batch, in a file of the spill directory, with the writer, or was given up, and no more records were given
    up than the counter of dropped records says. *)
Theorem no_record_vanishes (l l' : AuditLogger W) (evs : list (LoggerEvent (Out := Out))) (lost : list LogEntry) :
  logger_inv l -> run_ok l evs -> run_logger cfg l evs = (l', lost) ->
  (forall ev e, ev ∈ evs -> logs ev e -> held l' e \/ e ∈ lost)
  /\ st_Dropped (al_stats l) + Z.of_nat (length lost) <= st_Dropped (al_stats l').
Proof using crypto_sound. intros Hl Hok Hrun. apply run_logger_ok in Hrun as [Hs Hin]; [|done|done]. split; [done|by destruct Hs]. Qed.

(** After the drain of a stopped logger nothing is in memory any more. *)
Definition quiet l : Prop := al_stopped l = true /\ al_worker l = WorkerDone /\ al_queue l = [] /\ al_batch l = [].

Lemma quiet_step l ev : quiet l -> quiet (logger_step cfg l ev).1.
Proof.
  intros (Hs & Hw & Hq & Hb). destruct ev; cbn [logger_step]; rewrite ?Hw; cbn [fst]; try by split_and!.
  unfold Log. destruct (sealAuditEntry _ _ _ _); [|by split_and!]. unfold enqueue. rewrite Hs. by split_and!.
Qed.
Lemma quiet_run evs : forall l, quiet l -> quiet (run_logger cfg l evs).1.
Proof.
  induction evs as [|ev evs IH]; intros l Hl; [done|]. cbn [run_logger]. pose proof (quiet_step l ev Hl) as H1.
  destruct (logger_step cfg l ev) as [l1 lost1]. specialize (IH l1 H1). by destruct (run_logger cfg l1 evs).
Qed.

Lemma run_logger_app evs1 evs2 : forall l, run_logger cfg l (evs1 ++ evs2)
  = ((run_logger cfg (run_logger cfg l evs1).1 evs2).1, (run_logger cfg l evs1).2 ++ (run_logger cfg (run_logger cfg l evs1).1 evs2).2).
Proof.
  induction evs1 as [|ev evs IH]; intros l; cbn [app run_logger].
  - cbn [fst snd app]. by destruct (run_logger cfg l evs2).
  - destruct (logger_step cfg l ev) as [l' lost']. rewrite IH. destruct (run_logger cfg l' evs) as [l'' lost'']. cbn [fst snd].
    by rewrite app_assoc.
Qed.
Lemma run_ok_app evs1 evs2 : forall l, run_ok l (evs1 ++ evs2) <-> run_ok l evs1 /\ run_ok (run_logger cfg l evs1).1 evs2.
Proof.
  induction evs1 as [|ev evs IH]; intros l; cbn [app run_logger run_ok]; [cbn [fst]; clear; tauto|].
  destruct (logger_step cfg l ev) as [l' lost']. cbn [fst]. rewrite IH. destruct (run_logger cfg l' evs). cbn [fst]. clear. tauto.
Qed.

(** C12: Once a stopped logger has drained its queue, every record ever logged, before or after the stop, is durable (in a spill file
    or with the writer) or was counted as dropped: none is left in memory, whatever happens next. *)
Theorem shutdown_leaves_nothing_in_memory (l l1 l2 : AuditLogger W) (evs1 evs2 : list (LoggerEvent (Out := Out)))
    (env : nat -> FlushEnv (Out := Out)) (lost1 lost2 : list LogEntry) :
  logger_inv l -> run_ok l (evs1 ++ EvDrain env :: evs2) ->
  run_logger cfg l evs1 = (l1, lost1) -> al_stopped l1 = true -> al_canceled l1 = true -> al_worker l1 = WorkerRunning ->
  run_logger cfg l1 (EvDrain env :: evs2) = (l2, lost2) ->
  al_queue l2 = [] /\ al_batch l2 = []
  /\ forall ev e, ev ∈ evs1 ++ EvDrain env :: evs2 -> logs ev e -> durable l2 e \/ e ∈ lost1 ++ lost2.
Proof using crypto_sound.
  intros Hl Hok Hrun1 Hst Hcn Hwk Hrun2.
  pose proof (run_logger_app evs1 (EvDrain env :: evs2) l) as Hrun.
  rewrite Hrun1 in Hrun. cbn [fst snd] in Hrun. rewrite Hrun2 in Hrun. cbn [fst snd] in Hrun.
  apply run_logger_ok in Hrun as [Hs Hin]; [|done|done].
  apply run_ok_app in Hok as [Hok1 Hok2]. rewrite Hrun1 in Hok2. destruct Hok2 as [Hdr _].
  apply run_logger_ok in Hrun1 as [[Hl1 _ _ _] _]; [|done|done].
  assert (quiet l2) as (_ & _ & Hq & Hb).
  { cbn [run_logger logger_step] in Hrun2. rewrite Hwk, Hcn in Hrun2. destruct (drain cfg _ env l1) as [l3 lost3] eqn:E.
    apply drain_ok in E as (_ & Hc & Hq & Hb); [|done|done|lia].
    pose proof (quiet_run evs2 (with_worker l3 WorkerDone)) as Hqr. destruct (run_logger cfg _ evs2) as [l4 lost4]. cbn [fst] in Hqr.
    injection Hrun2 as <- <-. apply Hqr. destruct Hc as (_ & _ & Hc). split_and!; try done. cbn. by rewrite Hc. }
  split_and!; [done|done|]. intros ev e Hev Hlog. destruct (Hin ev e Hev Hlog) as [[He|[He|He]]|He]; [| |by left|by right].
  - rewrite Hq in He. by apply elem_of_nil in He.
  - rewrite Hb in He. by apply elem_of_nil in He.
Qed.
End Logger.

(** ** The audit logger is bounded and counts every record

    The queue, the batch and the spill directory stay within the configured
    sizes, and the counters account for every call of [Log]. *)

(** *** The size of a directory *)

Definition file_size (name data : string) : Z := if has_suffix name spill_suffix then go_len data else 0.

Lemma file_size_nonneg name data : 0 <= file_size name data.
Proof. unfold file_size, go_len. case_match; lia. Qed.

Definition sum_sizes (kvs : list (string * string)) : Z := foldr (fun kv total => file_size kv.1 kv.2 + total) 0 kvs.

Lemma sum_sizes_perm kvs kvs' : kvs ≡ₚ kvs' -> sum_sizes kvs = sum_sizes kvs'.
Proof. unfold sum_sizes. induction 1; cbn in *; lia. Qed.

Lemma sum_sizes_nonneg kvs : 0 <= sum_sizes kvs.
Proof. unfold sum_sizes. induction kvs as [|[k v] kvs IH]; cbn; [lia|]. pose proof (file_size_nonneg k v). lia. Qed.

Lemma foldr_sizes_perm dir l l' : l ≡ₚ l' ->
  foldr (fun n total => go_len (content dir n) + total) 0 l = foldr (fun n total => go_len (content dir n) + total) 0 l'.
Proof. induction 1; cbn; lia. Qed.

Lemma dir_size_sum dir : dir_size dir = sum_sizes (map_to_list dir).
Proof.
  unfold dir_size, spill_files, sort_strings.
  rewrite (foldr_sizes_perm dir _ (base.filter (fun n => Is_true (has_suffix n spill_suffix)) (map_to_list dir).*1)).
  2:{ by rewrite merge_sort_Permutation. }
  assert (forall kvs, (forall k v, (k, v) ∈ kvs -> dir !! k = Some v) ->
    foldr (fun n total => go_len (content dir n) + total) 0 (base.filter (fun n => Is_true (has_suffix n spill_suffix)) kvs.*1) = sum_sizes kvs) as Hall.
  { intros kvs. induction kvs as [|[k v] kvs IH]; intros Hin; [done|]. cbn [fmap list_fmap sum_sizes foldr fst snd].
    fold (sum_sizes kvs). rewrite <- IH by (intros k' v' Hk; apply Hin; by right). unfold file_size.
    destruct (has_suffix k spill_suffix) eqn:E.
    - rewrite filter_cons_True by (by rewrite E). cbn [foldr]. unfold content at 1. by rewrite (Hin k v ltac:(by left)).
    - rewrite filter_cons_False by (rewrite E; by intros []). done. }
  apply Hall. intros k v. apply elem_of_map_to_list.
Qed.

Lemma dir_size_insert_new dir n d : dir !! n = None -> dir_size (<[n := d]> dir) = file_size n d + dir_size dir.
Proof.
  intros Hn. rewrite !dir_size_sum. rewrite (sum_sizes_perm _ _ (map_to_list_insert dir n d Hn)). done.
Qed.

Lemma dir_size_delete dir n d : dir !! n = Some d -> dir_size dir = file_size n d + dir_size (delete n dir).
Proof. intros Hd. rewrite <- dir_size_insert_new by apply lookup_delete_eq. by rewrite insert_delete_id. Qed.

(** Also when a file has the name. *)
Lemma dir_size_insert dir n d : dir_size (<[n := d]> dir) <= dir_size dir + go_len d.
Proof.
  assert (file_size n d <= go_len d) as Hf by (unfold file_size, go_len; case_match; lia).
  destruct (dir !! n) as [d'|] eqn:E; [|rewrite dir_size_insert_new by done; lia].
  rewrite <- insert_delete_eq, dir_size_insert_new by apply lookup_delete_eq. rewrite (dir_size_delete dir n d') by done.
  pose proof (file_size_nonneg n d'). lia.
Qed.

Lemma dir_size_delete_le dir n : dir_size (delete n dir) <= dir_size dir.
Proof.
  destruct (dir !! n) as [d|] eqn:E; [|rewrite delete_id by done; lia]. rewrite (dir_size_delete dir n d) by done.
  pose proof (file_size_nonneg n d). lia.
Qed.

Section Bounds.
Context {W Out : Type} `{BatchWriter W Out} (cfg : LoggerConfig).
Implicit Types l : AuditLogger W.

Lemma replay_files_size env s names : forall dir (w : W) n, dir_size (replay_files env s dir w n names).1.1.1 <= dir_size dir.
Proof.
  induction names as [|name names IH]; intros dir w n; cbn [replay_files]; [cbn; lia|].
  repeat case_match; cbn [fst]; try lia. etransitivity; [apply IH|]. apply dir_size_delete_le.
Qed.
Lemma Replay_size env s dir (w : W) : dir_size (Replay env s dir w).1.1.1 <= dir_size dir.
Proof. unfold Replay. case_match; [cbn; lia|]. apply replay_files_size. Qed.

Lemma WriteBatch_size env s dir es : dir_size dir <= sp_maxBytes s -> dir_size (WriteBatch env s dir es).1 <= sp_maxBytes s.
Proof.
  intros Hd. unfold WriteBatch. repeat case_match; try done. cbn [fst].
  match goal with E : (_ <? _) = false |- _ => apply Z.ltb_ge in E end. etransitivity; [apply dir_size_insert|done].
Qed.

(** *** The invariant *)

(** How full the logger is, and what it has counted. *)
Definition spill_bounded l : Prop := match lc_spill cfg with Some s => dir_size (al_dir l) <= sp_maxBytes s | None => True end.
Record bounded l : Prop := {
  bd_queue : (length (al_queue l) <= lc_capacity cfg)%nat;
  bd_batch : (length (al_batch l) < lc_batchSize cfg)%nat;
  bd_spill : spill_bounded l
}.
Definition accounted l : Z := Z.of_nat (length (al_queue l)) + Z.of_nat (length (al_batch l))
  + st_Written (al_stats l) + st_Spilled (al_stats l) + st_Dropped (al_stats l).

Lemma spillOrDrop_bounded env l es : spill_bounded l ->
  let l' := (spillOrDrop cfg env l es).1 in
  al_queue l' = al_queue l /\ al_batch l' = al_batch l /\ spill_bounded l' /\ accounted l' = accounted l + Z.of_nat (length es).
Proof.
  unfold spill_bounded, spillOrDrop. destruct (lc_spill cfg) as [s|]; intros Hs.
  - pose proof (WriteBatch_size env s _ es Hs) as Hw. destruct (WriteBatch env s (al_dir l) es) as [dir [u|e]]; cbn in *;
      split_and!; try done; unfold accounted; cbn; lia.
  - cbn. split_and!; try done. unfold accounted. cbn. lia.
Qed.

Lemma replay_bounded env l : spill_bounded l ->
  let l' := replay cfg env l in
  al_queue l' = al_queue l /\ al_batch l' = al_batch l /\ spill_bounded l' /\ accounted l' = accounted l.
Proof.
  unfold spill_bounded, replay. destruct (lc_spill cfg) as [s|]; intros Hs; [|by split_and!].
  pose proof (Replay_size env s (al_dir l) (al_writer l)) as Hr. destruct (Replay env s _ _) as [[[dir w] n] [u|e]]; cbn in *;
    split_and!; try done; lia.
Qed.

Lemma flush_bounded env l : spill_bounded l ->
  let l' := (flush cfg env l).1 in al_queue l' = al_queue l /\ al_batch l' = [] /\ spill_bounded l' /\ accounted l' = accounted l.
Proof.
  intros Hs. unfold flush. destruct (al_batch l) as [|b batch] eqn:Eb; [by split_and!|].
  set (es := b :: batch) in *. destruct (insert_batch _ _ _) as [w [|]].
  - set (l1 := with_stats (with_writer l w) _). destruct (replay_bounded (fe_replay env) l1 Hs) as (Hq & Hb & Hsp & Ha). cbn in *.
    split_and!; [done|done|done|]. unfold accounted in *. cbn in *. rewrite Hb, Eb, Hq in Ha. rewrite Hq, Eb. cbn in *. lia.
  - set (l1 := with_stats (with_writer l w) _). destruct (spillOrDrop_bounded (fe_spill env) l1 es Hs) as (Hq & Hb & Hsp & Ha).
    destruct (spillOrDrop cfg (fe_spill env) l1 es) as [l2 lost]. cbn in *.
    split_and!; [done|done|done|]. unfold accounted in *. cbn in *. rewrite Hb, Eb, Hq in Ha. rewrite Hq, Eb. cbn in *. lia.
Qed.

Lemma enqueue_bounded env l e : bounded l ->
  let l' := (enqueue cfg env l e).1 in bounded l' /\ accounted l' = accounted l + 1.
Proof.
  intros [Hq Hb Hs]. unfold enqueue. destruct (al_stopped l).
  { cbn. split; [by split|]. unfold accounted. cbn. lia. }
  destruct (Nat.ltb_spec (length (al_queue l)) (lc_capacity cfg)) as [Hlt|].
  - cbn. split; [split; cbn; [rewrite length_app; cbn; lia|done|done]|]. unfold accounted. cbn. rewrite length_app. cbn. lia.
  - destruct (spillOrDrop_bounded env l [e] Hs) as (Hq' & Hb' & Hs' & Ha). cbn in *. split; [|done]. split; [by rewrite Hq'|by rewrite Hb'|done].
Qed.

Lemma receive_bounded env l : bounded l ->
  let l' := (receive cfg env l).1 in bounded l' /\ accounted l' = accounted l.
Proof.
  intros [Hq Hb Hs]. unfold receive. destruct (al_queue l) as [|e queue] eqn:Eq.
  { cbn. split; [|done]. split; [by rewrite Eq|done|done]. }
  set (l1 := with_batch (with_queue l queue) (al_batch l ++ [e])).
  assert (accounted l1 = accounted l) as Ha1.
  { unfold accounted. cbn. rewrite Eq, length_app. cbn. lia. }
  destruct (Nat.eqb_spec (length (al_batch l1)) (lc_batchSize cfg)) as [E|E].
  - destruct (flush_bounded env l1 Hs) as (Hq' & Hb' & Hs' & Ha). cbn in *. split; [|congruence].
    split; [rewrite Hq'; cbn in *; lia|rewrite Hb'; cbn; lia|done].
  - cbn [fst]. split; [|done]. cbn in E. rewrite length_app in E. split; cbn; [cbn in Hq; lia|rewrite length_app; cbn in *; lia|done].
Qed.

Lemma drain_bounded fuel : forall env l, bounded l ->
  let l' := (drain cfg fuel env l).1 in bounded l' /\ accounted l' = accounted l.
Proof.
  assert (forall env l, bounded l -> bounded (flush cfg env l).1 /\ accounted (flush cfg env l).1 = accounted l) as Hflush.
  { intros env l [Hq Hb Hs]. destruct (flush_bounded env l Hs) as (Hq' & Hb' & Hs' & Ha). cbn in *. split; [|done].
    split; [by rewrite Hq'|rewrite Hb'; cbn; lia|done]. }
  induction fuel as [|fuel IH]; intros env l Hl; cbn [drain]; [by apply Hflush|].
  destruct (al_queue l); [by apply Hflush|]. destruct (receive_bounded (env (S fuel)) l Hl) as [H1 Ha1].
  destruct (receive cfg (env (S fuel)) l) as [lr lost1]. cbn [fst] in *. destruct (IH env lr H1) as [H2 Ha2].
  destruct (drain cfg fuel env lr) as [ld lost2]. cbn [fst] in *. split; [done|congruence].
Qed.

(** The calls of [Log] among the events. *)
Definition is_log (ev : LoggerEvent (Out := Out)) : bool := match ev with EvLog _ _ _ _ => true | _ => false end.
Definition log_count (evs : list (LoggerEvent (Out := Out))) : Z := Z.of_nat (length (base.filter (fun ev => Is_true (is_log ev)) evs)).

Lemma step_bounded l ev : bounded l ->
  let l' := (logger_step cfg l ev).1 in bounded l' /\ accounted l' = accounted l + Z.b2z (is_log ev).
Proof.
  intros Hl. destruct ev as [uuid rnd env d|env|env|renv env| | |env]; cbn [logger_step is_log Z.b2z]; rewrite ?Z.add_0_r.
  - unfold Log. destruct (sealAuditEntry _ _ _ _); [by apply enqueue_bounded|]. cbn. destruct Hl as [Hq Hb Hs]. split; [by split|].
    unfold accounted. cbn. lia.
  - destruct (al_worker l); cbn [fst]; [|by split..]. destruct Hl as [Hq Hb Hs].
    destruct (replay_bounded env (with_worker l WorkerRunning) Hs) as (Hq' & Hb' & Hs' & Ha). cbn in *. split; [|done].
    split; [by rewrite Hq'|by rewrite Hb'|done].
  - destruct (al_worker l); cbn [fst]; [by split| |by split]. by apply receive_bounded.
  - destruct (al_worker l); cbn [fst]; [by split| |by split]. destruct Hl as [Hq Hb Hs].
    destruct (replay_bounded renv l Hs) as (Hq1 & Hb1 & Hs1 & Ha1). destruct (flush_bounded env (replay cfg renv l) Hs1) as (Hq2 & Hb2 & Hs2 & Ha2).
    cbn in *. split; [|congruence]. split; [by rewrite Hq2, Hq1|rewrite Hb2; cbn; lia|done].
  - by destruct Hl.
  - by destruct Hl.
  - destruct (al_worker l), (al_canceled l); cbn [fst]; try by split.
    destruct (drain_bounded (length (al_queue l)) env l Hl) as [Hd Ha]. destruct (drain _ _ _ _) as [l1 lost1]. cbn [fst] in *.
    split; [by destruct Hd|done].
Qed.

(** C31: In every interleaving and whatever fails, the queue never exceeds its capacity, the batch stays below its size, the spill files
    stay within their quota, and the counters account for every call of [Log]: the calls are the records in the queue and the batch
    and the written, spilled and dropped ones. *)
Theorem logger_bounded_and_counted (l : AuditLogger W) (evs : list (LoggerEvent (Out := Out))) : bounded l ->
  let l' := (run_logger cfg l evs).1 in bounded l' /\ accounted l' = accounted l + log_count evs.
Proof.
  revert l. induction evs as [|ev evs IH]; intros l Hl; cbn [run_logger]; [cbn; split; [done|unfold log_count; cbn; lia]|].
  destruct (step_bounded l ev Hl) as [H1 Ha1]. destruct (logger_step cfg l ev) as [l1 lost1]. cbn [fst] in *.
  destruct (IH l1 H1) as [H2 Ha2]. destruct (run_logger cfg l1 evs) as [l2 lost2]. cbn [fst] in *. split; [done|].
  rewrite Ha2, Ha1. unfold log_count. destruct (is_log ev) eqn:Ev.
  - rewrite filter_cons_True by (by rewrite Ev). cbn. lia.
  - rewrite filter_cons_False by (rewrite Ev; by intros []). cbn. lia.
Qed.

(** The accepted sizes admit an empty logger. *)
Lemma new_logger_bounded made kek crypto bc dir (w : W) : NewBatchAuditLogger made kek crypto bc = Ok cfg ->
  match lc_spill cfg with Some s => dir_size dir <= sp_maxBytes s | None => True end -> bounded (new_logger dir w).
Proof.
  unfold NewBatchAuditLogger. intros Hn Hd. inv_result; bool_to_prop;
    match goal with E : mkLoggerConfig _ _ _ _ = cfg |- _ => (split; [rewrite <- E; cbn; lia|rewrite <- E; cbn; lia|exact Hd]) end.
Qed.
End Bounds.
