(* ===== verification/AuditWriters.v ===== *)
(** * The writers of the audit log keep what the queue relies on

    The table alone and the table with the archive behind it satisfy the laws
    of a batch writer; giving a batch again, as a replay does, changes nothing. *)

From S2P Require Import Prelude GoStr GoCrypto AuditCrypto AuditRecord Archive Spill Storage AuditQueue.
From stdpp Require Import options.
Local Open Scope Z_scope.

(** ** The table *)

(** A row has the identifier of the record.  It is the record's own row unless
    an earlier record had the identifier; [row_shows] says what the row holds. *)
Definition in_table (t : AuditTable) (e : LogEntry) : Prop := is_Some (t !! le_AuditID e).

Lemma insert_row_lookup t l k : insert_row t l !! k =
  match t !! k with Some r => Some r | None => if bool_decide (k = le_AuditID l) then Some (audit_row l) else None end.
Proof.
  unfold insert_row. destruct (t !! le_AuditID l) eqn:E; destruct (decide (k = le_AuditID l)) as [->|Hne].
  - by rewrite E.
  - rewrite (bool_decide_false _ Hne). by destruct (t !! k).
  - by rewrite lookup_insert_eq, E, bool_decide_true.
  - rewrite lookup_insert_ne by done. rewrite (bool_decide_false _ Hne). by destruct (t !! k).
Qed.

Lemma insert_rows_keeps es : forall t k r, t !! k = Some r -> foldl insert_row t es !! k = Some r.
Proof. induction es as [|e es IH]; intros t k r Ht; [done|]. cbn. apply IH. by rewrite insert_row_lookup, Ht. Qed.

Lemma insert_rows_stores es : forall t, Forall (in_table (foldl insert_row t es)) es.
Proof.
  induction es as [|e es IH]; intros t; [done|]. cbn [foldl]. constructor; [|done].
  assert (is_Some (insert_row t e !! le_AuditID e)) as [r Hr].
  { rewrite insert_row_lookup, bool_decide_true by done. by destruct (t !! le_AuditID e). }
  exists r. by apply insert_rows_keeps.
Qed.

(** Rows that are there are not written again. *)
Lemma insert_rows_again es : forall t, Forall (in_table t) es -> foldl insert_row t es = t.
Proof.
  induction es as [|e es IH]; intros t Hes; [done|]. apply Forall_cons in Hes as [[r Hr] Hes]. cbn [foldl].
  unfold insert_row at 2. rewrite Hr. by apply IH.
Qed.

Section Table.
Context `{AuditColumns}.

Lemma InsertAuditLogsBatch_cases o t es t' b : InsertAuditLogsBatch o t es = (t', b) ->
  (t' = t \/ t' = foldl insert_row t es) /\ (b = true -> t' = foldl insert_row t es).
Proof.
  unfold InsertAuditLogsBatch. destruct es as [|e es]; [intros [= <- <-]; auto|]. unfold transaction.
  destruct o, (negb (forallb column_ok (e :: es))); intros [= <- <-]; split; by auto.
Qed.

#[export] Instance postgres_laws : BatchWriterLaws AuditTable TxOutcome.
Proof.
  refine {| writer_ok _ := True; stored := in_table |}.
  - done.
  - intros o t es t' Ht _. apply InsertAuditLogsBatch_cases in Ht as [_ Ht]. rewrite (Ht eq_refl). apply insert_rows_stores.
  - intros o t es t' b e Ht _ [r Hr]. apply InsertAuditLogsBatch_cases in Ht as [[->| ->] _]; exists r; [done|]. by apply insert_rows_keeps.
Defined.

(** Whatever the transaction says, a batch is in the table wholly or not at all. *)
Lemma InsertAuditLogsBatch_again o t es t' b : Forall (in_table t) es -> InsertAuditLogsBatch o t es = (t', b) -> t' = t.
Proof. intros Hes Ht. apply InsertAuditLogsBatch_cases in Ht as [[->| ->] _]; [done|]. by apply insert_rows_again. Qed.

(** A file with a record the columns do not take stays the first file: no replay gets past it, whatever the outcomes. *)
Theorem rejected_record_blocks_replay (env : ReplayEnv TxOutcome) (s : SpillStore) (dir : Directory) (t : AuditTable)
    (name : string) (names : list string) (es : list LogEntry) (e : LogEntry) :
  spill_files dir = name :: names -> read_spill_file s (content dir name) = Ok es -> e ∈ es -> column_ok e = false ->
  exists err, Replay env s dir t = (dir, t, 0, Err err).
Proof.
  intros Hfiles Hread He Hcol. unfold Replay. destruct (re_dir_ok env); cbn [negb]; [|by eexists]. rewrite Hfiles. cbn [replay_files].
  destruct (re_read_ok env name); cbn [negb]; [|by eexists]. rewrite Hread.
  assert (insert_batch (re_insert env name) t es = (t, false)) as ->; [|by eexists].
  cbv [insert_batch postgres_writer]. unfold InsertAuditLogsBatch. destruct es as [|e0 es]; [by apply elem_of_nil in He|].
  assert (forallb column_ok (e0 :: es) = false) as ->.
  { apply not_true_is_false. rewrite forallb_forall. intros Hall. rewrite Hall in Hcol; [done|by apply list_elem_of_In]. }
  unfold transaction. by destruct (re_insert env name).
Qed.

(** The records of the files before a failing one are not counted as replayed. *)
Theorem partial_replay_not_counted `{BatchWriter W Out} (cfg : LoggerConfig) (env : ReplayEnv Out) (l : AuditLogger W) (s : SpillStore)
    (dir : Directory) (w : W) (count : Z) (err : SpillError) :
  lc_spill cfg = Some s -> Replay env s (al_dir l) (al_writer l) = (dir, w, count, Err err) ->
  st_Replayed (al_stats (replay cfg env l)) = st_Replayed (al_stats l) /\ al_dir (replay cfg env l) = dir.
Proof. intros Hs Hr. unfold replay. by rewrite Hs, Hr. Qed.

(** ** The table and the archive *)

Section Archiving.
Context {S Out : Type} `{HL : ObjectStoreLaws S Out}.

Definition archiving_stored (w : ArchivingWriter S) (e : LogEntry) : Prop :=
  in_table (aw_table w) e /\ archived (s3_Prefix (aw_config w)) (aw_archive w) e.

Lemma archiving_insert_cases o w es w' b : archiving_insert o w es = (w', b) -> store_named (aw_archive w) ->
  aw_config w' = aw_config w
  /\ (forall k r, aw_table w !! k = Some r -> aw_table w' !! k = Some r)
  /\ store_named (aw_archive w') /\ (forall k x, object_at (aw_archive w) k = Some x -> object_at (aw_archive w') k = Some x)
  /\ (b = true -> Forall (in_table (aw_table w')) es
        /\ Archive (ao_put o) (aw_config w) (aw_archive w) (Some <$> es) = (aw_archive w', Ok tt)).
Proof.
  intros Hw Hs. unfold archiving_insert in Hw. destruct (InsertAuditLogsBatch (ao_tx o) (aw_table w) es) as [t ok] eqn:Et.
  apply InsertAuditLogsBatch_cases in Et as [Hcase Hok].
  assert (forall k r, aw_table w !! k = Some r -> t !! k = Some r) as Hkeep.
  { intros k r Hr. destruct Hcase as [->| ->]; [done|]. by apply insert_rows_keeps. }
  destruct ok; cbn [negb] in Hw; [|by simplify_eq].
  destruct (Archive _ _ _ _) as [s r] eqn:E. pose proof (Archive_frame _ _ _ _ _ _ Hs E) as (Hs' & Hk & _). simplify_eq. cbn.
  split_and!; try done. intros Hr. split; [rewrite Hok by done; apply insert_rows_stores|]. by destruct r as [[]|].
Qed.

#[export] Instance archiving_laws : BatchWriterLaws (ArchivingWriter S) (ArchivingOut Out).
Proof using HL.
  refine {| writer_ok w := store_named (aw_archive w); stored := archiving_stored |}.
  - intros o w es w' b Hw Hs. by apply archiving_insert_cases in Hw as (_ & _ & ? & _).
  - intros o w es w' Hw Hs. apply archiving_insert_cases in Hw as (Hc & _ & _ & _ & Hok); [|done]. destruct (Hok eq_refl) as [Hin Hput].
    apply Archive_ok in Hput as (es' & Hes & _ & Hobj); [|done]. apply (inj (fmap Some)) in Hes as <-.
    rewrite Forall_forall in Hin |- *. intros e He. split; [by apply Hin|]. rewrite Hc.
    exists es. split; [done|]. apply Hobj. by apply list_elem_of_fmap_2.
  - intros o w es w' b e Hw Hs [[r Hr] (es' & Hin & data & x & Hd & Hx & Hh)].
    apply archiving_insert_cases in Hw as (Hc & Ht & _ & Hk & _); [|done]. split; [exists r; by apply Ht|]. rewrite Hc.
    exists es'. split; [done|]. exists data, x. split_and!; [done|by apply Hk|done].
Defined.

(** Giving the archiving writer a batch it has accepted once more, as the replay of a spilled batch or a retry does, leaves the
    table and every object of the archive as they are, whatever the outcome of the second attempt. *)
Theorem accepted_batch_again_changes_nothing (o o' : ArchivingOut Out) (w w' w'' : ArchivingWriter S) (es : list LogEntry) (b : bool) :
  store_named (aw_archive w) -> archiving_insert o w es = (w', true) -> archiving_insert o' w' es = (w'', b) ->
  aw_table w'' = aw_table w' /\ forall k, object_at (aw_archive w'') k = object_at (aw_archive w') k.
Proof.
  intros Hs H1 H2. apply archiving_insert_cases in H1 as (Hc & _ & Hs1 & _ & Hok); [|done]. destruct (Hok eq_refl) as [Hin Hput].
  unfold archiving_insert in H2. destruct (InsertAuditLogsBatch (ao_tx o') (aw_table w') es) as [t ok] eqn:Et.
  apply InsertAuditLogsBatch_again in Et as ->; [|done]. destruct ok; cbn [negb] in H2; [|by simplify_eq].
  destruct (Archive (ao_put o') _ _ _) as [s r] eqn:E. simplify_eq. split; [done|]. intros k. cbn. rewrite Hc in E.
  pose proof (Archive_frame _ _ _ _ _ _ Hs1 E) as (_ & Hkeep & Hother).
  destruct (object_at (aw_archive w') k) as [x|] eqn:Ek; [by apply Hkeep|]. rewrite Hother; [done|].
  intros Hkey. pose proof (Archive_present _ _ _ _ _ k Hs Hput Hkey) as [x Hx]. congruence.
Qed.

(** The columns of the row of a sealed record, each as [InsertAuditLogsBatch]
    writes it: the request in clear is null. *)
Definition row_shows (r : AuditRow) (e : LogEntry) : Prop :=
  ar_audit_id r = le_AuditID e /\ ar_event_timestamp_ns r = le_Timestamp e /\ ar_tenant_id r = le_TenantID e
  /\ ar_request_subject r = None /\ ar_request_action r = None /\ ar_request_resource r = None /\ ar_evaluated_context r = None
  /\ ar_decision r = le_Decision e /\ default ""%string (ar_matched_policy_id r) = le_MatchedPolicyID e
  /\ ar_matched_policy_id r <> Some ""%string
  /\ ar_is_encrypted r = true /\ ar_revision_id r = to_int64 (le_RevisionID e) /\ ar_payload_version r = le_PayloadVersion e
  /\ ar_key_id r = le_KeyID e /\ ar_request_id r = le_RequestID e /\ ar_trace_id r = le_TraceID e
  /\ ar_encrypted_dek r = le_EncryptedDEK e /\ ar_encrypted_payload r = le_EncryptedPayload e
  /\ ar_integrity_tag r = le_IntegrityTag e /\ ar_evaluated_at r = le_Timestamp e.

Lemma audit_row_shows e : le_IsEncrypted e = true -> row_shows (audit_row e) e.
Proof.
  intros He. unfold audit_row, row_shows. rewrite He. cbn. case_bool_decide as Hm; split_and!; try done. by intros [= ?].
Qed.

(** An identifier that only one record of the batch has, and no row yet. *)
Lemma insert_rows_new es : forall t e, e ∈ es -> NoDup (le_AuditID <$> es) -> t !! le_AuditID e = None ->
  foldl insert_row t es !! le_AuditID e = Some (audit_row e).
Proof.
  induction es as [|e0 es IH]; intros t e Hin Hnd Hno; [by apply elem_of_nil in Hin|]. cbn [foldl].
  cbn in Hnd. apply NoDup_cons in Hnd as [Hout Hnd]. apply elem_of_cons in Hin as [->|Hin].
  - apply insert_rows_keeps. by rewrite insert_row_lookup, Hno, bool_decide_true.
  - apply IH; [done|done|]. rewrite insert_row_lookup, Hno, bool_decide_false; [done|]. intros E. apply Hout. rewrite <- E.
    by apply list_elem_of_fmap_2.
Qed.
Lemma insert_rows_other es : forall t k, k ∉ le_AuditID <$> es -> foldl insert_row t es !! k = t !! k.
Proof.
  induction es as [|e es IH]; intros t k Hk; [done|]. cbn in Hk. apply not_elem_of_cons in Hk as [Hne Hk]. cbn [foldl].
  rewrite IH, insert_row_lookup, bool_decide_false by done. by destruct (t !! k).
Qed.

(** C25: A batch that is acknowledged, of records with different identifiers, was sealed throughout and is in the table and in the
    archive.  The row of a record that was not there before holds the record column by column, with nulls for the request in
    clear; a row that was there is kept as it was, and no other row appears.  For each tenant of the batch the archive has an
    object with the digest of exactly the lines of that tenant's records of the batch, in order, under the name of the tenant,
    the day of the first of them and that digest; nothing that was archived before is changed. *)
Theorem acknowledged_batch_is_archived (o : ArchivingOut Out) (w w' : ArchivingWriter S) (es : list LogEntry) :
  store_named (aw_archive w) -> archiving_insert o w es = (w', true) -> NoDup (le_AuditID <$> es) ->
  (forall e, e ∈ es -> le_IsEncrypted e = true /\ le_Subject e = ""%string /\ le_Context e = None
     /\ (aw_table w !! le_AuditID e = None -> exists r, aw_table w' !! le_AuditID e = Some r /\ row_shows r e)
     /\ archived_records (s3_Prefix (aw_config w)) (aw_archive w') (le_TenantID e) (of_tenant (le_TenantID e) es))
  /\ (forall k r, aw_table w !! k = Some r -> aw_table w' !! k = Some r)
  /\ (forall k, k ∉ le_AuditID <$> es -> aw_table w' !! k = aw_table w !! k)
  /\ forall k x, object_at (aw_archive w) k = Some x -> object_at (aw_archive w') k = Some x.
Proof.
  intros Hs Hw Hnd. pose proof Hw as Hcases. apply archiving_insert_cases in Hcases as (_ & Hkeep & _ & Hk & Hok); [|done].
  destruct (Hok eq_refl) as [_ Hput]. apply Archive_ok in Hput as (es' & Hes & Hsealed & Hobj); [|done]. apply (inj (fmap Some)) in Hes as <-.
  assert (aw_table w' = foldl insert_row (aw_table w) es) as Ht.
  { unfold archiving_insert in Hw. destruct (InsertAuditLogsBatch _ _ _) as [t ok] eqn:Et. apply InsertAuditLogsBatch_cases in Et as [_ Hok'].
    destruct ok; cbn [negb] in Hw; [|by simplify_eq]. destruct (Archive _ _ _ _) as [s r]. simplify_eq. by apply Hok'. }
  rewrite Forall_forall in Hsealed. split_and!; [|done|intros k Hout; rewrite Ht; by apply insert_rows_other|done].
  intros e He. destruct (Hsealed e He) as (H1 & H2 & H3). split_and!; [done..| |apply Hobj; by apply list_elem_of_fmap_2].
  intros Hno. exists (audit_row e). split; [rewrite Ht; by apply insert_rows_new|by apply audit_row_shows].
Qed.
End Archiving.
End Table.
