(* ===== verification/AuditSamples.v ===== *)
(** * The audit log on concrete inputs

    A key ring, a decision and its sealed record, a create-only object store in
    memory, and the theorems of the audit log at them. *)

From S2P Require Import Prelude GoStr GoJson GoCrypto GoAes AuditCrypto Redaction AuditRecord AuditRecordFacts.
From S2P Require Import Config Archive Spill Storage AuditQueue AuditQueueFacts AuditWriters.
From stdpp Require Import options.
Local Open Scope Z_scope.

(** ** A ring and a decision *)

Definition sample_crypto : EnvelopeCrypto := mkEnvelopeCrypto "k1" {["k1"%string := go_bytes developmentAuditKEK]}.
Definition sample_random : CryptoRandom := mkCryptoRandom (Some (replicate 32 7)) (Some (replicate 12 1)) (Some (replicate 12 2)).
Definition sample_decision : AuditDecision :=
  mkAuditDecision 1700000000000000000 5 "t1" "alice" "read" "doc" "ALLOW" "p1" {["region"%string := "eu"%string]}.
Definition sample_id : string := "7f3d".
Definition sample_entry : LogEntry :=
  default (decision_entry sample_decision) (sealAuditEntry (Some sample_id) sample_random (Some sample_crypto) (decision_entry sample_decision)).

Lemma sample_sealed : sealAuditEntry (Some sample_id) sample_random (Some sample_crypto) (decision_entry sample_decision) = Some sample_entry.
Proof.
  assert (bool_decide (is_Some (sealAuditEntry (Some sample_id) sample_random (Some sample_crypto) (decision_entry sample_decision))) = true) as H
    by (vm_compute; reflexivity).
  apply bool_decide_eq_true in H. unfold sample_entry. by destruct H as [e ->].
Qed.

Lemma sample_crypto_ok : crypto_ok sample_crypto.
Proof. apply map_Forall_singleton, go_bytes_is_byte. Qed.
Lemma sample_random_ok : random_ok sample_random.
Proof. intros r [[= <-]|[[= <-]|[= <-]]]; repeat constructor; unfold is_byte; lia. Qed.
Lemma sample_decision_ok : decision_ok sample_decision.
Proof.
  split_and!; [by unfold is_int64, min_int64, max_int64|by unfold is_uint64|by repeat constructor|].
  by apply map_Forall_singleton.
Qed.
Lemma sample_entry_ok : entry_ok sample_entry.
Proof.
  exact (sealed_entry_ok sample_id sample_random sample_crypto sample_decision sample_entry sample_decision_ok eq_refl eq_refl
           sample_random_ok sample_crypto_ok sample_sealed).
Qed.
Lemma decision_payload_ok d : decision_ok d -> payload_ok (payload_of (decision_entry d)).
Proof.
  intros (_ & _ & Hs & Hctx). unfold utf8_strings in Hs. repeat (apply Forall_cons in Hs as [? Hs]). split_and!; try done.
  pose proof (redacted_value_ok (ad_context d)) as Hval. cbn. unfold redactedAuditContext in *. destruct (bool_decide _) eqn:E; [done|].
  apply bool_decide_eq_false in E. cbn [default from_option id context_ok] in *. split.
  - intros He. apply E. apply map_eq. intros k. rewrite lookup_empty. apply (f_equal (lookup k)) in He.
    rewrite map_lookup_imap, lookup_empty in He. by destruct (ad_context d !! k).
  - intros k v Hk. split; [|by eapply Hval]. rewrite map_lookup_imap in Hk. destruct (ad_context d !! k) as [v0|] eqn:Ek; [|done].
    by apply (Hctx k v0).
Qed.

(** ** Records *)

Lemma record_round_trip_witness : exists v, entry_json sample_entry = Some v /\ json_parse (json_text v) ≫= into_entry = Some sample_entry.
Proof. exact (record_round_trip sample_entry sample_entry_ok). Defined.

(** The ring after a rotation: another active key, the old one still there. *)
Definition rotated_crypto : EnvelopeCrypto :=
  mkEnvelopeCrypto "k2" (<["k2"%string := replicate 32 9]> (keks sample_crypto)).
Lemma sealed_record_opens_witness :
  VerifyAndDecryptEntry rotated_crypto (Some sample_entry) = Some (payload_of (decision_entry sample_decision)).
Proof.
  destruct (sealed_record_opens (Some sample_id) sample_random sample_crypto rotated_crypto (decision_entry sample_decision) sample_entry
              sample_random_ok sample_crypto_ok (decision_payload_ok _ sample_decision_ok) sample_sealed) as (_ & _ & _ & _ & _ & H).
  apply H. reflexivity.
Defined.

Lemma sample_clear_ok : clear_ok sample_entry.
Proof.
  destruct sample_entry_ok as [Hv Ht Hr _ _ Hs]. split_and!; [done|done|done|]. apply Forall_strings_13 in Hs. destruct_and! Hs.
  by repeat constructor.
Qed.
(** The evaluation time is not part of the message. *)
Definition evaluated (e : LogEntry) : LogEntry :=
  mkLogEntry (le_AuditID e) (le_PayloadVersion e) (le_Timestamp e) (le_RevisionID e) (le_TenantID e) (le_Subject e) (le_Action e) (le_Resource e)
    (le_Decision e) (le_MatchedPolicyID e) (le_Context e) 5 (le_IsEncrypted e) (le_KeyID e) (le_RequestID e) (le_TraceID e)
    (le_EncryptedDEK e) (le_EncryptedPayload e) (le_IntegrityTag e).
Lemma evaluated_parts e : tag_parts (evaluated e) = tag_parts e.
Proof. done. Qed.
Lemma evaluated_clear_ok e : clear_ok e -> clear_ok (evaluated e).
Proof. done. Qed.
Lemma sample_parts_short : Forall (fun p => Z.of_nat (length p) < 2 ^ 64) (tag_parts sample_entry).
Proof. apply (bool_decide_unpack _). vm_compute. exact I. Qed.
Lemma tag_binds_record_witness : le_TenantID sample_entry = le_TenantID (evaluated sample_entry).
Proof.
  destruct (tag_binds_record sample_entry (evaluated sample_entry)) as (_ & _ & _ & _ & H & _).
  - exact sample_clear_ok.
  - exact (evaluated_clear_ok _ sample_clear_ok).
  - exact sample_parts_short.
  - rewrite evaluated_parts. exact sample_parts_short.
  - by rewrite evaluated_parts.
  - exact H.
Defined.

(** ** The logger *)

Definition all_columns : AuditColumns := fun _ => true.
Definition sample_spill_store : SpillStore := mkSpillStore 4096 sample_crypto.
Definition sample_logger_config : LoggerConfig := mkLoggerConfig 1 1 sample_crypto (Some sample_spill_store).
Definition sample_spill (n : Z) : SpillEnv := mkSpillEnv n sample_id true true.
Definition no_replay : ReplayEnv TxOutcome := mkReplayEnv false (fun _ => true) (fun _ => TxCommitted) (fun _ => true).
Definition sample_flush (o : TxOutcome) (n : Z) : FlushEnv (Out := TxOutcome) := mkFlushEnv o (sample_spill n) no_replay.
(** The database is down: the record is spilled when the logger is stopped. *)
Definition log_events : list (LoggerEvent (Out := TxOutcome)) :=
  [EvStart no_replay; EvLog (Some sample_id) sample_random (sample_spill 1) sample_decision; EvCancelParent; EvStop].
Definition sample_drain (n : nat) : FlushEnv (Out := TxOutcome) := sample_flush TxFailed (Z.of_nat n).

Section Samples.
#[local] Existing Instance all_columns.

Definition sample_logger : AuditLogger AuditTable := new_logger ∅ ∅.
Definition sample_run : AuditLogger AuditTable * list LogEntry := run_logger sample_logger_config sample_logger log_events.
Definition sample_shutdown : AuditLogger AuditTable * list LogEntry :=
  run_logger sample_logger_config sample_run.1 [EvDrain sample_drain].

Lemma sample_logger_inv : logger_inv sample_logger.
Proof. by split_and!. Qed.
Lemma sample_crypto_sound : crypto_ok (lc_crypto sample_logger_config) /\ utf8_valid (ec_activeKeyID (lc_crypto sample_logger_config)) = true.
Proof. split; [exact sample_crypto_ok|done]. Qed.
Lemma sample_run_state : al_queue sample_run.1 = [sample_entry] /\ al_batch sample_run.1 = [] /\ al_dir sample_run.1 = ∅
  /\ al_stopped sample_run.1 = true /\ al_canceled sample_run.1 = true /\ al_worker sample_run.1 = WorkerRunning.
Proof.
  unfold sample_run, log_events. cbn [run_logger logger_step sample_logger new_logger al_worker]. unfold Log.
  change (lc_crypto sample_logger_config) with sample_crypto. rewrite sample_sealed. by split_and!.
Qed.
Lemma sample_spill_ok n : spill_env_ok ∅ (sample_spill n).
Proof. split_and!; [done|by vm_compute|by rewrite lookup_empty]. Qed.

Lemma sample_log_events_ok : run_ok sample_logger_config sample_logger log_events.
Proof.
  split; [done|]. split; [|done]. split_and!; [exact sample_decision_ok|by intros u [= <-]|exact sample_random_ok|].
  apply sample_spill_ok.
Qed.
Lemma sample_run_ok : run_ok sample_logger_config sample_logger (log_events ++ [EvDrain sample_drain]).
Proof.
  apply run_ok_app. split; [exact sample_log_events_ok|]. fold sample_run. cbn [run_ok event_ok]. split; [|done].
  destruct sample_run_state as (Hq & Hb & Hd & _). rewrite Hq, Hd. split; [intros i _; apply sample_spill_ok|].
  intros i j Hij. assert (i = 0%nat /\ j = 1%nat) as [-> ->] by (cbn in Hij; lia). by vm_compute.
Qed.

Lemma no_record_vanishes_witness : held sample_logger_config sample_run.1 sample_entry \/ sample_entry ∈ sample_run.2.
Proof.
  pose proof (no_record_vanishes sample_logger_config sample_crypto_sound sample_logger sample_run.1 log_events sample_run.2
                sample_logger_inv sample_log_events_ok ltac:(apply surjective_pairing)) as [H _].
  apply (H (EvLog (Some sample_id) sample_random (sample_spill 1) sample_decision)); [right; left|].
  exact sample_sealed.
Defined.

Lemma shutdown_leaves_nothing_in_memory_witness : al_queue sample_shutdown.1 = [] /\ al_batch sample_shutdown.1 = []
  /\ (durable sample_logger_config sample_shutdown.1 sample_entry \/ sample_entry ∈ sample_run.2 ++ sample_shutdown.2).
Proof.
  destruct sample_run_state as (_ & _ & _ & Hst & Hcn & Hwk).
  pose proof (shutdown_leaves_nothing_in_memory sample_logger_config sample_crypto_sound sample_logger sample_run.1 sample_shutdown.1
                log_events [] sample_drain sample_run.2 sample_shutdown.2 sample_logger_inv sample_run_ok
                ltac:(apply surjective_pairing) Hst Hcn Hwk ltac:(apply surjective_pairing)) as (Hq & Hb & H).
  split; [exact Hq|]. split; [exact Hb|].
  apply (H (EvLog (Some sample_id) sample_random (sample_spill 1) sample_decision)); [right; left|]. exact sample_sealed.
Defined.

Lemma sample_logger_bounded : bounded sample_logger_config sample_logger.
Proof. split; [cbn; lia|cbn; lia|by vm_compute]. Qed.
Lemma logger_bounded_and_counted_witness :
  bounded sample_logger_config sample_run.1 /\ accounted sample_run.1 = accounted sample_logger + log_count log_events.
Proof. exact (logger_bounded_and_counted sample_logger_config sample_logger log_events sample_logger_bounded). Defined.

(** ** The archive *)

(** A store in memory: [true] lets a put through. *)
Definition memory_put (o : bool) (s : gmap string Bytes) (r : PutRequest) : gmap string Bytes * PutAnswer :=
  if negb o then (s, PutError)
  else match s !! put_Key r with Some _ => (s, PutPreconditionFailed) | None => (<[put_Key r := put_Body r]> s, PutDone) end.
#[export] Instance memory_store : ObjectStore (gmap string Bytes) bool := memory_put.
#[export] Instance memory_laws : ObjectStoreLaws (gmap string Bytes) bool.
Proof.
  refine {| object_at (s : gmap string Bytes) k := s !! k |}; cbv [put_object memory_store memory_put];
    intros o s r s'; [intros H|intros H|intros a k b H Hk|intros a k b H Hk]; destruct o; cbn [negb] in H;
    try (destruct (s !! put_Key r) eqn:E); simplify_eq; auto.
  - by rewrite lookup_insert_eq.
  - destruct (decide (k = put_Key r)) as [->|Hne]; [congruence|]. by rewrite lookup_insert_ne.
  - destruct (decide (k = put_Key r)) as [->|Hne]; [rewrite lookup_insert_eq in Hk; injection Hk as ->; by right|].
    rewrite lookup_insert_ne in Hk by done. by left.
Defined.

Definition sample_archive_config : S3ArchiveConfig := mkS3ArchiveConfig "audit" "pdp" "eu-west-1" "123456789012".
Definition sample_writer : ArchivingWriter (gmap string Bytes) := mkArchivingWriter ∅ ∅ sample_archive_config.
Definition sample_insert : ArchivingWriter (gmap string Bytes) * bool :=
  archiving_insert (mkArchivingOut _ TxCommitted (fun _ => true)) sample_writer [sample_entry].
Lemma sample_insert_accepted : sample_insert.2 = true.
Proof. vm_compute. reflexivity. Qed.
Lemma sample_insert_pair : sample_insert = (sample_insert.1, true).
Proof. rewrite <- sample_insert_accepted. apply surjective_pairing. Qed.
Lemma sample_store_named : store_named (aw_archive sample_writer).
Proof. by intros k b. Qed.

Lemma acknowledged_batch_is_archived_witness :
  (exists r, aw_table sample_insert.1 !! le_AuditID sample_entry = Some r /\ row_shows r sample_entry)
  /\ archived_records "pdp" (aw_archive sample_insert.1) (le_TenantID sample_entry) (of_tenant (le_TenantID sample_entry) [sample_entry]).
Proof.
  assert (NoDup (le_AuditID <$> [sample_entry])) as Hnd by apply NoDup_singleton.
  destruct (acknowledged_batch_is_archived _ sample_writer sample_insert.1 [sample_entry] sample_store_named sample_insert_pair Hnd) as [H _].
  destruct (H sample_entry ltac:(by left)) as (_ & _ & _ & Hrow & Harch). split; [|exact Harch].
  apply Hrow. reflexivity.
Defined.

(** The database is down at the second attempt. *)
Definition sample_retry : ArchivingWriter (gmap string Bytes) * bool :=
  archiving_insert (mkArchivingOut _ TxFailed (fun _ => true)) sample_insert.1 [sample_entry].
Lemma accepted_batch_again_changes_nothing_witness : aw_table sample_retry.1 = aw_table sample_insert.1.
Proof.
  destruct (accepted_batch_again_changes_nothing _ (mkArchivingOut _ TxFailed (fun _ => true)) sample_writer sample_insert.1 sample_retry.1
              [sample_entry] sample_retry.2 sample_store_named sample_insert_pair ltac:(apply surjective_pairing)) as [H _].
  exact H.
Defined.
End Samples.
