(* ===== verification/GoUrl.v ===== *)
(** * Paths of requests (packages net/url, path and net/http)

    The path of a URL from the text a client builds to the segments a
    [http.ServeMux] matches: the cut at the query and the fragment, percent
    encoding, [cleanPath], and the matching of patterns with a method and
    wildcards.  Texts are bytes. *)

From S2P Require Import Prelude GoStr GoCrypto.
From stdpp Require Import options.
Local Open Scope Z_scope.

(** ** Percent encoding ([net/url]) *)

Definition alphanumeric (b : Z) : bool :=
  is_digit_byte b || ((65 <=? b) && (b <=? 90)) || ((97 <=? b) && (b <=? 122)).
(** The unreserved characters: those, and [-_.~]. *)
Definition unreserved (b : Z) : bool := alphanumeric b || (b =? 45) || (b =? 95) || (b =? 46) || (b =? 126).
(** [shouldEscape] for a path, negated: also [$&+,/:;=@]. *)
Definition path_plain (b : Z) : bool :=
  unreserved b || (b =? 36) || (b =? 38) || (b =? 43) || (b =? 44) || (b =? 47) || (b =? 58) || (b =? 59) || (b =? 61) || (b =? 64).
(** [validEncoded] for a path: also [!'()*] and [[]%]. *)
Definition path_valid (b : Z) : bool :=
  path_plain b || (b =? 33) || (b =? 39) || (b =? 40) || (b =? 41) || (b =? 42) || (b =? 91) || (b =? 93) || (b =? 37).

Definition upper_hex (d : Z) : Z := if d <? 10 then 48 + d else 55 + d.
Definition escape_path (bs : Bytes) : Bytes := bs ≫= fun b => if path_plain b then [b] else [37; upper_hex (b / 16); upper_hex (b mod 16)].

(** [unescape]: the value of a digit of either case. *)
Definition unhex (b : Z) : option Z :=
  if is_digit_byte b then Some (b - 48)
  else if (97 <=? b) && (b <=? 102) then Some (b - 87)
  else if (65 <=? b) && (b <=? 70) then Some (b - 55)
  else None.
Fixpoint unescape_path (bs : Bytes) : option Bytes :=
  match bs with
  | [] => Some []
  | b :: bs1 =>
      if b =? 37 then
        match bs1 with
        | h :: l :: bs2 => x ← unhex h; y ← unhex l; r ← unescape_path bs2; Some (x * 16 + y :: r)
        | _ => None
        end
      else r ← unescape_path bs1; Some (b :: r)
  end.

(** [setPath] and [EscapedPath]: the encoding of the text is kept when it is one. *)
Definition escaped_path (bs : Bytes) : option Bytes :=
  path ← unescape_path bs; Some (if forallb path_valid bs then bs else escape_path path).

(** [strings.Cut], the part before the separator. *)
Fixpoint cut_before (sep : Z) (bs : Bytes) : Bytes :=
  match bs with
  | [] => []
  | b :: bs' => if b =? sep then [] else b :: cut_before sep bs'
  end.
Definition control_byte (b : Z) : bool := (b <? 32) || (b =? 127).

(** The path a server receives for what follows the authority of a URL, [None] for
    a URL that does not parse; a fragment, which is not sent, must decode too. *)
Definition request_path (rest : Bytes) : option Bytes :=
  if existsb control_byte rest then None
  else
    let before := cut_before 35 rest in
    _ ← unescape_path (drop (S (length before)) rest);
    escaped_path (cut_before 63 before).

(** ** [cleanPath] *)

Fixpoint split_slash (bs : Bytes) : list Bytes :=
  match bs with
  | [] => [[]]
  | b :: bs' =>
      let r := split_slash bs' in
      if b =? 47 then [] :: r else match r with [] => [[b]] | s :: ss => (b :: s) :: ss end
  end.

(** [path.Clean] of a rooted path: the segments that are left, the last one first. *)
Fixpoint clean_segments (acc : list Bytes) (segs : list Bytes) : list Bytes :=
  match segs with
  | [] => acc
  | s :: segs' =>
      if bool_decide (s = []) || bool_decide (s = [46]) then clean_segments acc segs'
      else if bool_decide (s = [46; 46]) then clean_segments (tail acc) segs'
      else clean_segments (s :: acc) segs'
  end.
Definition rooted (segs : list Bytes) : Bytes :=
  match segs with [] => [47] | _ => segs ≫= fun s => 47 :: s end.

Definition clean_path (p : Bytes) : Bytes :=
  let p := match p with [] => [47] | b :: _ => if b =? 47 then p else 47 :: p end in
  let segs := reverse (clean_segments [] (split_slash p)) in
  let np := rooted segs in
  if bool_decide (last p = Some 47) && negb (bool_decide (segs = [])) then np ++ [47] else np.

(** ** Matching *)

Inductive Segment := Literal (s : string) | Wildcard (name : string).

(** The segments of a cleaned path, decoded; a slash at the end is one of its own. *)
Definition decode_segment (s : Bytes) : string :=
  match s with
  | [] => "/"%string
  | _ => of_bytes (default s (unescape_path s))
  end.
Definition path_segments (p : Bytes) : list string := decode_segment <$> tail (split_slash p).

(** A wildcard does not match the slash at the end. *)
Fixpoint match_segments (pattern : list Segment) (path : list string) : option (list string) :=
  match pattern, path with
  | [], [] => Some []
  | Literal l :: pattern', s :: path' => if bool_decide (s = l) then match_segments pattern' path' else None
  | Wildcard _ :: pattern', s :: path' =>
      if bool_decide (s = "/"%string) then None else values ← match_segments pattern' path'; Some (s :: values)
  | _, _ => None
  end.

(** A pattern for GET also serves HEAD. *)
Definition method_matches (pattern method : string) : bool :=
  bool_decide (pattern = method) || (bool_decide (pattern = "GET"%string) && bool_decide (method = "HEAD"%string)).

Section Mux.
Context {A : Type}.

Record Route := mkRoute { rt_method : string; rt_pattern : list Segment; rt_handler : A }.

Inductive Dispatch :=
| Routed (handler : A) (values : list string)
| MovedPermanently (path : Bytes)
| MethodNotAllowed
| PageNotFound.

Fixpoint find_route (routes : list Route) (method : string) (path : list string) : option (A * list string) :=
  match routes with
  | [] => None
  | r :: routes' =>
      match (if method_matches (rt_method r) method then match_segments (rt_pattern r) path else None) with
      | Some values => Some (rt_handler r, values)
      | None => find_route routes' method path
      end
  end.
Definition path_known (routes : list Route) (path : list string) : bool :=
  existsb (fun r => bool_decide (is_Some (match_segments (rt_pattern r) path))) routes.

(** [findHandler] for a mux without patterns that end in a slash; [path] is the escaped path of the request. *)
Definition dispatch (routes : list Route) (method : string) (path : Bytes) : Dispatch :=
  let clean := clean_path path in
  if negb (bool_decide (clean = path)) then MovedPermanently clean
  else match find_route routes method (path_segments clean) with
       | Some (h, values) => Routed h values
       | None => if path_known routes (path_segments clean) then MethodNotAllowed else PageNotFound
       end.
End Mux.
Arguments Route : clear implicits.
Arguments Dispatch : clear implicits.

(** ** Theorems about paths

    A path made of segments of unreserved characters, none of them a dot
    segment, reaches the server as it is, is clean, and has those segments. *)

(** A segment that no step of the way changes. *)
Definition plain_segment (s : Bytes) : Prop :=
  s <> [] /\ s <> [46] /\ s <> [46; 46] /\ Forall (fun b => unreserved b = true) s.

Lemma unreserved_cases b : unreserved b = true ->
  path_plain b = true /\ path_valid b = true /\ control_byte b = false /\ b <> 47 /\ b <> 37 /\ b <> 35 /\ b <> 63.
Proof.
  intros Hb. unfold path_valid, path_plain. rewrite Hb. split_and!; try done;
    unfold unreserved, alphanumeric, is_digit_byte, control_byte in *; bool_to_prop; lia.
Qed.

(** The bytes of a plain path: slashes and unreserved characters. *)
Definition plain_byte (b : Z) : Prop := b = 47 \/ unreserved b = true.

Lemma plain_byte_cases b : plain_byte b ->
  path_plain b = true /\ path_valid b = true /\ control_byte b = false /\ b <> 37 /\ b <> 35 /\ b <> 63.
Proof. intros [->|Hb]; [done|]. apply unreserved_cases in Hb as (? & ? & ? & _ & ? & ? & ?). done. Qed.

Lemma cut_plain sep bs : Forall plain_byte bs -> sep = 35 \/ sep = 63 -> cut_before sep bs = bs.
Proof.
  intros Hb Hsep. induction Hb as [|b bs Hb _ IH]; [done|]. cbn. apply plain_byte_cases in Hb as (_ & _ & _ & _ & ? & ?).
  destruct (Z.eqb_spec b sep); [lia|]. by rewrite IH.
Qed.

Lemma unescape_plain bs : Forall plain_byte bs -> unescape_path bs = Some bs.
Proof.
  intros Hb. induction Hb as [|b bs Hb _ IH]; [done|]. cbn. apply plain_byte_cases in Hb as (_ & _ & _ & ? & _).
  destruct (Z.eqb_spec b 37); [lia|]. by rewrite IH.
Qed.

Lemma request_plain bs : Forall plain_byte bs -> request_path bs = Some bs.
Proof.
  intros Hb. unfold request_path. destruct (existsb control_byte bs) eqn:E.
  - apply existsb_exists in E as (b & Hin & Hc). rewrite Forall_forall in Hb.
    apply list_elem_of_In, Hb, plain_byte_cases in Hin as (_ & _ & ? & _). congruence.
  - rewrite (cut_plain 35) by auto. rewrite drop_ge by lia. cbn [unescape_path mbind option_bind].
    rewrite (cut_plain 63) by auto. unfold escaped_path. rewrite unescape_plain by done. cbn [mbind option_bind].
    assert (forallb path_valid bs = true) as ->; [|done].
    apply forallb_forall. intros b Hin%list_elem_of_In. rewrite Forall_forall in Hb.
    by apply Hb, plain_byte_cases in Hin as (_ & ? & _).
Qed.

Lemma plain_segment_bytes s : plain_segment s -> Forall (fun b => b <> 47) s /\ Forall plain_byte s.
Proof.
  intros (_ & _ & _ & Hb). split; (eapply Forall_impl; [exact Hb|]); intros b Hub; [|by right].
  by apply unreserved_cases in Hub as (_ & _ & _ & ? & _).
Qed.

Lemma rooted_plain segs : Forall plain_segment segs -> Forall plain_byte (rooted segs).
Proof.
  intros Hs. destruct segs as [|s segs]; [by repeat constructor; left|].
  cbn [rooted]. generalize (s :: segs) Hs. clear. intros segs Hs. induction Hs as [|s segs Hp _ IH]; [done|]. cbn.
  constructor; [by left|]. apply Forall_app. split; [by apply plain_segment_bytes|done].
Qed.

Lemma split_segment s rest : Forall (fun b => b <> 47) s ->
  split_slash (s ++ 47 :: rest) = s :: split_slash rest.
Proof.
  induction 1 as [|b s Hb _ IH]; [done|]. cbn. rewrite IH. by destruct (Z.eqb_spec b 47).
Qed.
Lemma split_last s : Forall (fun b => b <> 47) s -> split_slash s = [s].
Proof. induction 1 as [|b s Hb _ IH]; [done|]. cbn. rewrite IH. by destruct (Z.eqb_spec b 47). Qed.

Lemma split_rooted segs : segs <> [] -> Forall plain_segment segs -> split_slash (rooted segs) = [] :: segs.
Proof.
  intros Hne Hs. destruct segs as [|s segs]; [done|]. clear Hne. cbn [rooted].
  change ((s :: segs) ≫= (fun s => 47 :: s)) with (47 :: s ++ (segs ≫= (fun s => 47 :: s))).
  cbn [split_slash]. rewrite Z.eqb_refl. f_equal. revert s Hs. induction segs as [|s' segs IH]; intros s Hs.
  - apply Forall_cons in Hs as [Hp _]. cbn. rewrite app_nil_r. apply split_last. by apply plain_segment_bytes.
  - apply Forall_cons in Hs as [Hp Hs].
    change ((s' :: segs) ≫= (fun s => 47 :: s)) with (47 :: s' ++ (segs ≫= (fun s => 47 :: s))).
    rewrite split_segment by by apply plain_segment_bytes. by rewrite IH.
Qed.

Lemma clean_plain acc segs : Forall plain_segment segs -> clean_segments acc segs = reverse segs ++ acc.
Proof.
  intros Hs. revert acc. induction Hs as [|s segs (H1 & H2 & H3 & _) _ IH]; intros acc; [done|]. cbn [clean_segments].
  rewrite !bool_decide_false by done. cbn [orb]. rewrite IH. by rewrite reverse_cons, <- app_assoc.
Qed.

Lemma last_rooted segs : segs <> [] -> Forall plain_segment segs -> last (rooted segs) <> Some 47.
Proof.
  intros Hne Hs. destruct segs as [|s0 segs]; [done|]. cbn [rooted]. clear Hne. revert s0 Hs.
  induction segs as [|s' segs IH]; intros s0 Hs; apply Forall_cons in Hs as [(Hp & _ & _ & Hu) Hs].
  - cbn. rewrite app_nil_r. destruct s0 as [|b s0] using rev_ind; [done|]. change (47 :: s0 ++ [b]) with ((47 :: s0) ++ [b]). rewrite last_snoc. intros [= ->].
    apply Forall_app in Hu as [_ Hu]. apply Forall_cons in Hu as [Hu _]. by apply unreserved_cases in Hu as (_ & _ & _ & ? & _).
  - change ((s0 :: s' :: segs) ≫= (fun s => 47 :: s)) with ((47 :: s0) ++ ((s' :: segs) ≫= (fun s => 47 :: s))).
    rewrite last_app. specialize (IH s' Hs). destruct (last ((s' :: segs) ≫= (fun s => 47 :: s))) eqn:E; [done|].
    apply last_None in E. done.
Qed.

Lemma clean_rooted segs : segs <> [] -> Forall plain_segment segs -> clean_path (rooted segs) = rooted segs.
Proof.
  intros Hne Hs. unfold clean_path.
  assert (exists rest, rooted segs = 47 :: rest) as [rest Hr] by (destruct segs; [done|by eexists]).
  assert ((match rooted segs with [] => [47] | b :: _ => if b =? 47 then rooted segs else 47 :: rooted segs end) = rooted segs) as ->
    by (by rewrite Hr).
  rewrite split_rooted by done. change (clean_segments [] ([] :: segs)) with (clean_segments [] segs).
  rewrite clean_plain by done. rewrite app_nil_r, reverse_involutive.
  rewrite bool_decide_false by by apply last_rooted. done.
Qed.

Lemma segments_rooted segs : segs <> [] -> Forall plain_segment segs -> path_segments (rooted segs) = of_bytes <$> segs.
Proof.
  intros Hne Hs. unfold path_segments. rewrite split_rooted by done. cbn [tail]. clear Hne.
  induction Hs as [|s segs Hp _ IH]; [done|]. cbn. f_equal; [|exact IH]. unfold decode_segment.
  destruct s as [|b s]; [by destruct Hp|]. rewrite unescape_plain; [done|]. by apply plain_segment_bytes.
Qed.

(** *** Texts *)

Definition plain_text (s : string) : Prop := plain_segment (go_bytes s).
Definition plain_textb (s : string) : bool :=
  negb (bool_decide (s = ""%string)) && negb (bool_decide (s = "."%string)) && negb (bool_decide (s = ".."%string))
  && forallb unreserved (go_bytes s).

Definition slash_join (segs : list string) : string := foldr (fun s r => "/" +:+ s +:+ r) ""%string segs.

Lemma slash_join_bytes segs : segs <> [] -> go_bytes (slash_join segs) = rooted (go_bytes <$> segs).
Proof.
  intros Hne. assert (rooted (go_bytes <$> segs) = (go_bytes <$> segs) ≫= (fun s => 47 :: s)) as -> by (by destruct segs).
  clear Hne. induction segs as [|s segs IH]; [done|]. cbn [slash_join foldr fmap list_fmap mbind list_bind].
  fold (slash_join segs). rewrite !go_bytes_app, IH. done.
Qed.

Lemma plain_text_true s : plain_textb s = true -> plain_text s.
Proof.
  unfold plain_textb, plain_text, plain_segment. intros Hs. bool_to_prop. split_and!.
  - intros E. destruct s; [done|discriminate E].
  - intros E. assert (s = "."%string) by (by apply go_bytes_inj). done.
  - intros E. assert (s = ".."%string) by (by apply go_bytes_inj). done.
  - match goal with Hf : forallb _ _ = true |- _ => rewrite forallb_forall in Hf; apply Forall_forall; intros b Hb; apply Hf end.
    by apply list_elem_of_In.
Qed.

(** What the mux sees of a path made of plain texts. *)
Lemma plain_path segs : segs <> [] -> Forall plain_text segs ->
  request_path (go_bytes (slash_join segs)) = Some (go_bytes (slash_join segs))
  /\ clean_path (go_bytes (slash_join segs)) = go_bytes (slash_join segs)
  /\ path_segments (go_bytes (slash_join segs)) = segs.
Proof.
  intros Hne Hs. rewrite slash_join_bytes by done.
  assert (go_bytes <$> segs <> []) as Hne' by (by destruct segs).
  assert (Forall plain_segment (go_bytes <$> segs)) as Hs' by (by rewrite Forall_fmap).
  split_and!; [by apply request_plain, rooted_plain|by apply clean_rooted|].
  rewrite segments_rooted by done. rewrite <- list_fmap_compose. rewrite <- (list_fmap_id segs) at 2.
  apply list_fmap_ext. intros i s _. apply of_bytes_go_bytes.
Qed.

Lemma dispatch_plain {A} (routes : list (Route A)) method segs : segs <> [] -> Forall plain_text segs ->
  dispatch routes method (go_bytes (slash_join segs))
  = match find_route routes method segs with
    | Some (h, values) => Routed h values
    | None => if path_known routes segs then MethodNotAllowed else PageNotFound
    end.
Proof.
  intros Hne Hs. destruct (plain_path segs Hne Hs) as (_ & Hc & Hp). unfold dispatch.
  rewrite Hc, bool_decide_true by done. cbn [negb]. by rewrite Hp.
Qed.
