(* ===== verification/Routes.v ===== *)
(** * The routes of the control plane ([ConfigureMux], [registerHealthEndpoints])

    The table of the mux with the handler each pattern names, and a service of
    the requests that a route takes.  No two patterns overlap, so the order of
    the table does not matter. *)

From S2P Require Import Prelude GoStr GoCrypto GoUrl.
From stdpp Require Import options.
Local Open Scope Z_scope.

Inductive Endpoint :=
| EpLivez | EpReadyz | EpHealth
| EpCreatePolicy | EpUpdatePolicy | EpDeletePolicy | EpPublishPolicy
| EpSimulate | EpSchema | EpPrewarm
| EpDecisions | EpExplain
| EpMetrics.
Global Instance Endpoint_eq_dec : EqDecision Endpoint.
Proof. solve_decision. Defined.

Definition under_api (rest : list Segment) : list Segment := Literal "api" :: Literal "v1" :: rest.
Definition under_tenant (rest : list Segment) : list Segment := under_api (Literal "tenants" :: Wildcard "tenant_id" :: rest).
Definition under_policy (rest : list Segment) : list Segment := under_tenant (Literal "policies" :: Wildcard "policy_id" :: rest).

Definition health_routes : list (Route Endpoint) :=
  [mkRoute "GET" [Literal "livez"] EpLivez; mkRoute "GET" [Literal "readyz"] EpReadyz;
   mkRoute "GET" (under_api [Literal "health"]) EpHealth].

Definition ConfigureMux : list (Route Endpoint) :=
  health_routes ++
  [mkRoute "POST" (under_tenant [Literal "policies"]) EpCreatePolicy;
   mkRoute "PUT" (under_policy []) EpUpdatePolicy;
   mkRoute "DELETE" (under_policy []) EpDeletePolicy;
   mkRoute "POST" (under_policy [Literal "publish"]) EpPublishPolicy;
   mkRoute "POST" (under_tenant [Literal "simulate"]) EpSimulate;
   mkRoute "GET" (under_tenant [Literal "schema"]) EpSchema;
   mkRoute "POST" (under_tenant [Literal "prewarm"]) EpPrewarm;
   mkRoute "POST" (under_api [Literal "decisions"]) EpDecisions;
   mkRoute "POST" (under_api [Literal "decisions"; Literal "explain"]) EpExplain;
   mkRoute "GET" [Literal "metrics"] EpMetrics].

(** The mux of [StartReadinessServer] has the health routes alone. *)
Definition readiness_mux : list (Route Endpoint) := health_routes.

(** ** The table is unambiguous *)

Fixpoint patterns_meet (p q : list Segment) : bool :=
  match p, q with
  | [], [] => true
  | Literal a :: p', Literal b :: q' => bool_decide (a = b) && patterns_meet p' q'
  | Wildcard _ :: p', Wildcard _ :: q' => patterns_meet p' q'
  | Literal a :: p', Wildcard _ :: q' | Wildcard _ :: p', Literal a :: q' => bool_decide (a <> "/"%string) && patterns_meet p' q'
  | _, _ => false
  end.
Definition methods_meet (m n : string) : bool :=
  bool_decide (m = n) || (bool_decide (m = "GET"%string) && bool_decide (n = "HEAD"%string))
  || (bool_decide (n = "GET"%string) && bool_decide (m = "HEAD"%string)).

Lemma match_meet p q path v w : match_segments p path = Some v -> match_segments q path = Some w -> patterns_meet p q = true.
Proof.
  revert q path v w. induction p as [|[a|a] p IH]; intros [|[b|b] q] [|s path] v w; cbn; try done.
  - case_bool_decide; [|done]. case_bool_decide; [|done]. intros Hp Hq. rewrite bool_decide_true by congruence. by eapply IH.
  - case_bool_decide; [|done]. case_bool_decide; [done|]. intros Hp Hq. destruct (match_segments q path) eqn:E; [|done].
    rewrite bool_decide_true by congruence. by eapply IH.
  - case_bool_decide; [done|]. case_bool_decide; [|done]. intros Hp Hq. destruct (match_segments p path) eqn:E; [|done].
    rewrite bool_decide_true by congruence. by eapply IH.
  - case_bool_decide; [done|]. intros Hp Hq. destruct (match_segments p path) eqn:Ep; [|done].
    destruct (match_segments q path) eqn:Eq; [|done]. by eapply IH.
Qed.

Lemma method_meet m n k : method_matches m k = true -> method_matches n k = true -> methods_meet m n = true.
Proof. unfold method_matches, methods_meet. repeat case_bool_decide; simplify_eq; done. Qed.

Fixpoint unambiguous (routes : list (Route Endpoint)) : bool :=
  match routes with
  | [] => true
  | r :: routes' =>
      forallb (fun r' => negb (methods_meet (rt_method r) (rt_method r') && patterns_meet (rt_pattern r) (rt_pattern r'))) routes'
      && unambiguous routes'
  end.
Lemma table_unambiguous : unambiguous ConfigureMux = true.
Proof. vm_compute. reflexivity. Qed.

Definition route_takes (r : Route Endpoint) (method : string) (path values : list string) : Prop :=
  method_matches (rt_method r) method = true /\ match_segments (rt_pattern r) path = Some values.

(** The search finds the one route that takes a request. *)
Lemma find_route_unique routes method path r values : unambiguous routes = true ->
  r ∈ routes -> route_takes r method path values -> find_route routes method path = Some (rt_handler r, values).
Proof.
  induction routes as [|r0 routes IH]; intros Hu Hin Ht; [by apply not_elem_of_nil in Hin|]. cbn in Hu. apply andb_true_iff in Hu as [Hf Hu].
  cbn. apply elem_of_cons in Hin as [->|Hin]; destruct Ht as [Hm Hv].
  - by rewrite Hm, Hv.
  - destruct (method_matches (rt_method r0) method) eqn:Em; [|by apply IH].
    destruct (match_segments (rt_pattern r0) path) as [v0|] eqn:Ev; [|by apply IH].
    exfalso. rewrite forallb_forall in Hf. specialize (Hf r ltac:(by apply list_elem_of_In)).
    by rewrite (method_meet _ _ _ Em Hm), (match_meet _ _ _ _ _ Ev Hv) in Hf.
Qed.
Lemma find_route_sound routes method path h values : find_route routes method path = Some (h, values) ->
  exists r, r ∈ routes /\ rt_handler r = h /\ route_takes r method path values.
Proof.
  induction routes as [|r0 routes IH]; cbn; [done|]. intros Hf.
  destruct (method_matches (rt_method r0) method) eqn:Em.
  - destruct (match_segments (rt_pattern r0) path) as [v0|] eqn:Ev; [injection Hf as <- <-; exists r0|apply IH in Hf as (r & ? & ?); exists r];
      (split; [by constructor|done]).
  - apply IH in Hf as (r & ? & ?). exists r. split; [by constructor|done].
Qed.
