(* ===== verification/PectlClient.v ===== *)
(** * The client of the command line ([internal/pectl/client.go], [config.go])

    [Request] with its retries.  The network is a function of the state of the
    world: it gets a request and returns a failure or an answer.  The first
    part of a URL, up to its authority, is parsed by a class; the rest is
    parsed by [request_path]. *)

From S2P Require Import Prelude GoStr GoJson GoDuration GoCrypto GoUrl.
From stdpp Require Import options.
Local Open Scope Z_scope.

(** ** Problem details *)

Record InvalidParam := mkInvalidParam { ip_Name : string; ip_Reason : string }.
Record APIError := mkAPIError {
  ae_Type : string;
  ae_Title : string;
  ae_Status : Z;
  ae_Detail : string;
  ae_Instance : string;
  ae_InvalidParams : list InvalidParam
}.

(** [Error]. *)
Definition api_error_text (e : APIError) : string :=
  "[" +:+ FormatInt (ae_Status e) +:+ "] " +:+ ae_Title e
  +:+ (if bool_decide (ae_Detail e = ""%string) then ""%string else ": " +:+ ae_Detail e)
  +:+ match ae_InvalidParams e with
      | [] => ""%string
      | ps => " (params:" +:+ join ((fun p => " " +:+ ip_Name p +:+ "=" +:+ ip_Reason p) <$> ps) ""%string +:+ ")"
      end.

Definition param_names : list string := ["name"; "reason"]%string.
Definition into_param (v : json) : option InvalidParam :=
  match v with
  | JObject kvs =>
      name ← decode_field param_names "name" into_str ""%string kvs;
      reason ← decode_field param_names "reason" into_str ""%string kvs;
      Some (mkInvalidParam name reason)
  | JNull => Some (mkInvalidParam "" "")
  | _ => None
  end.
Definition into_params (_ : list InvalidParam) (v : json) : option (list InvalidParam) :=
  match v with JArray vs => mapM into_param vs | JNull => Some [] | _ => None end.

Definition api_error_names : list string := ["type"; "title"; "status"; "detail"; "instance"; "invalid_params"]%string.
Definition into_api_error (v : json) : option APIError :=
  match v with
  | JObject kvs =>
      let str k := decode_field api_error_names k into_str ""%string kvs in
      type ← str "type"%string; title ← str "title"%string; status ← decode_field api_error_names "status" into_int 0 kvs;
      detail ← str "detail"%string; instance ← str "instance"%string;
      params ← decode_field api_error_names "invalid_params" into_params [] kvs;
      Some (mkAPIError type title status detail instance params)
  | JNull => Some (mkAPIError "" "" 0 "" "" [])
  | _ => None
  end.

(** ** The client *)

Record Client := mkClient { cl_baseURL : string; cl_token : string; cl_timeout : Z; cl_maxRetries : nat }.

Definition NewClient (baseURL token : string) (timeout : Z) : Client := mkClient (trim_suffix baseURL "/") token timeout 3.

(** What is sent; the two content headers are the same for all requests. *)
Record HttpRequest := mkHttpRequest {
  hr_method : string;
  hr_url : string;
  hr_path : Bytes;
  hr_authorization : option string;
  hr_body : option string
}.

(** [httpClient.Do] fails, the body of its answer cannot be read, or the answer is there. *)
Inductive Exchange := DoFailed | BodyFailed | Answered (status : Z) (body : string).

Inductive ClientError :=
| MarshalFailed | BadRequestURL | ContextDone | DecodeFailed
| TransportFailed | ReadFailed | ProblemAnswer (e : APIError) | StatusAnswer (status : Z) (body : string)
| RetriesExhausted (last : option ClientError).

Definition backoff_start : Z := 100000000.
Definition maxBackoff : Z := 2000000000.

(** The doubling goes through float64, which is exact for these numbers. *)
Definition next_backoff (backoff : Z) : Z := Z.min (backoff * 2) maxBackoff.

(** The error of an answer that is no success. *)
Definition answer_error (status : Z) (body : string) : ClientError :=
  match json_parse body ≫= into_api_error with
  | Some e => if bool_decide (ae_Title e = ""%string) then StatusAnswer status body
              else ProblemAnswer (mkAPIError (ae_Type e) (ae_Title e) status (ae_Detail e) (ae_Instance e) (ae_InvalidParams e))
  | None => StatusAnswer status body
  end.
Definition is_success (status : Z) : bool := (200 <=? status) && (status <? 300).

(** What follows the authority of a URL, [None] when that part does not parse. *)
Class UrlAuthority := url_rest : string -> option string.

Section Request.
Context `{UrlAuthority}.
Context {W A : Type}.

(** The network, the instants at which the context is done during the wait
    before an attempt, and the decoding of the answer. *)
Variable exchange : HttpRequest -> W -> W * Exchange.
Variable done_before : nat -> bool.
Variable unmarshal : string -> option A.

Definition new_request (c : Client) (method path : string) (body : option string) : option HttpRequest :=
  let url := cl_baseURL c +:+ path in
  rest ← url_rest url;
  p ← request_path (go_bytes rest);
  Some (mkHttpRequest method url p
          (if bool_decide (cl_token c = ""%string) then None else Some ("Bearer " +:+ cl_token c)) body).

(** One pass of the loop: the next error to remember, or the end of the request. *)
Definition attempt_once (c : Client) (req : HttpRequest) (w : W) : W * (ClientError + result ClientError (option A)) :=
  match exchange req w with
  | (w', DoFailed) => (w', inl TransportFailed)
  | (w', BodyFailed) => (w', inl ReadFailed)
  | (w', Answered status body) =>
      (w', if is_success status then
             inr (if bool_decide (body = ""%string) then Ok None
                  else match unmarshal body with Some a => Ok (Some a) | None => Err DecodeFailed end)
           else if status <? 500 then inr (Err (answer_error status body))
           else inl (answer_error status body))
  end.

(** [left] passes are left after [attempt] of them; the durations are those waited. *)
Fixpoint attempts (c : Client) (method path : string) (body : option string) (left attempt : nat) (backoff : Z)
    (lastErr : option ClientError) (w : W) : W * result ClientError (option A) * list Z :=
  match left with
  | O => (w, Err (RetriesExhausted lastErr), [])
  | S left' =>
      if (0 <? attempt)%nat && done_before attempt then (w, Err ContextDone, [])
      else
        let waited := if (0 <? attempt)%nat then [backoff] else [] in
        let backoff' := if (0 <? attempt)%nat then next_backoff backoff else backoff in
        match new_request c method path body with
        | None => (w, Err BadRequestURL, waited)
        | Some req =>
            match attempt_once c req w with
            | (w', inr r) => (w', r, waited)
            | (w', inl e) =>
                let '(w'', r, waits) := attempts c method path body left' (S attempt) backoff' (Some e) w' in
                (w'', r, waited ++ waits)
            end
        end
  end.

(** [payload] is the text of the payload, [Some None] when it cannot be encoded. *)
Definition Request (c : Client) (method path : string) (payload : option (option string)) (w : W) :
    W * result ClientError (option A) * list Z :=
  match payload with
  | Some None => (w, Err MarshalFailed, [])
  | _ => attempts c method path (mjoin payload) (S (cl_maxRetries c)) 0 backoff_start None w
  end.
End Request.

(** ** Configuration *)

Record PectlConfig := mkPectlConfig { pc_Server : string; pc_Token : string; pc_Output : string; pc_Timeout : Z }.

(** The outcome of viper's [ReadInConfig]. *)
Inductive ConfigFile := FileRead | FileNotFound | FileBroken.
Global Instance ConfigFile_eq_dec : EqDecision ConfigFile.
Proof. solve_decision. Defined.
Inductive PectlError := ConfigFileError | InvalidTimeout | InvalidOutput (o : string).

(** [get] is viper's [GetString], over the environment, the file and the defaults. *)
Definition LoadConfig (configFile : string) (read : ConfigFile) (get : string -> string) : result PectlError PectlConfig :=
  guard? bool_decide (read = FileBroken) && negb (bool_decide (configFile = ""%string)) else ConfigFileError;
  Ok (mkPectlConfig (get "server"%string) (get "token"%string) (get "output"%string)
        (default 10000000000 (ParseDuration (get "timeout"%string)))).

(** The flags of the root command, [None] when not given. *)
Record RootFlags := mkRootFlags {
  fl_server : option string;
  fl_token : option string;
  fl_output : option string;
  fl_timeout : option string
}.

Definition output_ok (o : string) : bool := bool_decide (o ∈ ["table"; "json"; "yaml"]%string).

(** [PersistentPreRunE]. *)
Definition active_config (flags : RootFlags) (loaded : result PectlError PectlConfig) : result PectlError PectlConfig :=
  let? cfg := loaded in
  let server := default (pc_Server cfg) (fl_server flags) in
  let token := default (pc_Token cfg) (fl_token flags) in
  let output := default (pc_Output cfg) (fl_output flags) in
  match (match fl_timeout flags with None => Some (pc_Timeout cfg) | Some t => ParseDuration t end) with
  | None => Err InvalidTimeout
  | Some timeout =>
      guard? negb (output_ok output) else InvalidOutput output;
      Ok (mkPectlConfig server token output timeout)
  end.
Definition GetClient (cfg : PectlConfig) : Client := NewClient (pc_Server cfg) (pc_Token cfg) (pc_Timeout cfg).
