(* ===== verification/PectlCommands.v ===== *)
(** * The commands of pectl and the bodies both sides exchange
    ([internal/pectl/commands], [types.go], the request types of [internal/server])

    A command is the request it sends and the type it decodes the answer into;
    the server side is what its handlers decode from that request and the text
    they answer with.  [PectlMain] runs the commands and prints what they get. *)

From S2P Require Import Prelude GoStr GoJson GoCrypto GoUrl Routes Ast Dag Trie Evaluator Decision Parser Compiler Engine Simulate.
From S2P Require Import Sync Server Storage HttpServer GoTime AuditRecord PectlClient.
From stdpp Require Import options.
Local Open Scope Z_scope.

(** ** Commands *)

(** The arguments and flags of each command; a file is named by its path. *)
Inductive Command :=
| PolicyCreate (tenant effect file : string)
| PolicyUpdate (tenant policy file : string)
| PolicyPublish (tenant policy : string)
| PolicyDelete (tenant policy : string)
| PolicyList (tenant : string)
| PolicyGet (tenant policy : string)
| SimulateCmd (tenant subject action resource contextFile draftFile : string) (includeActive : bool)
| CheckCmd (tenant subject action resource : string)
| ExplainCmd (tenant subject action resource : string)
| TenantList
| TenantGet (tenant : string)
| TenantStatus (tenant : string)
| MetricsCmd
| HealthCmd.

Definition tenants_path : string := "/api/v1/tenants".
Definition tenant_path (tenant : string) : string := "/api/v1/tenants/" +:+ tenant.
Definition policies_path (tenant : string) : string := "/api/v1/tenants/" +:+ tenant +:+ "/policies".
Definition policy_path (tenant policy : string) : string := "/api/v1/tenants/" +:+ tenant +:+ "/policies/" +:+ policy.

(** Method and path. *)
Definition command_target (cmd : Command) : string * string :=
  match cmd with
  | PolicyCreate t _ _ => ("POST", policies_path t)
  | PolicyUpdate t p _ => ("PUT", policy_path t p)
  | PolicyPublish t p => ("POST", policy_path t p +:+ "/publish")
  | PolicyDelete t p => ("DELETE", policy_path t p)
  | PolicyList t => ("GET", policies_path t)
  | PolicyGet t p => ("GET", policy_path t p)
  | SimulateCmd t _ _ _ _ _ _ => ("POST", tenant_path t +:+ "/simulate")
  | CheckCmd _ _ _ _ => ("POST", "/api/v1/decisions")
  | ExplainCmd _ _ _ _ => ("POST", "/api/v1/decisions/explain")
  | TenantList => ("GET", tenants_path)
  | TenantGet t => ("GET", tenant_path t)
  | TenantStatus t => ("GET", tenant_path t +:+ "/status")
  | MetricsCmd => ("GET", "/api/v1/metrics")
  | HealthCmd => ("GET", "/api/v1/health")
  end%string.

(** ** What is sent *)

Definition create_json (effect text : string) : json := JObject (str_member "effect" effect ++ str_member "policy_text" text).
Definition update_json (text : string) : json := JObject (str_member "policy_text" text).
Definition context_json (context : option (gmap string string)) : json :=
  match context with None => JNull | Some m => json_map m end.
Definition draft_json (draft : option string) : json :=
  match draft with
  | None => JNull
  | Some text => JArray [JObject (str_member "id" "draft-policy" ++ str_member "policy_text" text)]
  end.
Definition simulate_json (subject action resource : string) (context : option (gmap string string)) (draft : option string)
    (includeActive : bool) : json :=
  JObject (str_member "subject" subject ++ str_member "action" action ++ str_member "resource" resource
           ++ [("context"%string, context_json context); ("policies"%string, draft_json draft); ("include_active"%string, JBool includeActive)]).
Definition decision_json (tenant subject action resource : string) : json :=
  JObject (str_member "tenant_id" tenant ++ str_member "subject" subject ++ str_member "action" action
           ++ str_member "resource" resource ++ [("context"%string, JNull)]).

Inductive CommandError := FileRequired | FileUnreadable | BadContext.

(** [os.ReadFile] of a required flag. *)
Definition required_file (read : string -> option string) (file : string) : result CommandError string :=
  guard? bool_decide (file = ""%string) else FileRequired;
  match read file with Some text => Ok text | None => Err FileUnreadable end.
Definition optional_file (read : string -> option string) (file : string) : result CommandError (option string) :=
  if bool_decide (file = ""%string) then Ok None
  else match read file with Some text => Ok (Some text) | None => Err FileUnreadable end.
Definition context_file (read : string -> option string) (file : string) : result CommandError (option (gmap string string)) :=
  let? text := optional_file read file in
  match text with
  | None => Ok None
  | Some text =>
      (* a null leaves the map nil *)
      match json_parse text with
      | Some JNull => Ok None
      | _ => match unmarshal_map text with Some m => Ok (Some m) | None => Err BadContext end
      end
  end.

(** The payload, [None] for a request without a body. *)
Definition command_payload (read : string -> option string) (cmd : Command) : result CommandError (option json) :=
  match cmd with
  | PolicyCreate _ effect file => let? text := required_file read file in Ok (Some (create_json effect text))
  | PolicyUpdate _ _ file => let? text := required_file read file in Ok (Some (update_json text))
  | SimulateCmd _ s a r contextFile draftFile includeActive =>
      let? context := context_file read contextFile in
      let? draft := optional_file read draftFile in
      Ok (Some (simulate_json s a r context draft includeActive))
  | CheckCmd t s a r | ExplainCmd t s a r => Ok (Some (decision_json t s a r))
  | _ => Ok None
  end.

(** ** What the handlers decode *)

(** [json.NewDecoder(body).Decode]: the first value of the body. *)
Definition decode_body (body : string) : option json :=
  let rs := runes_of body in
  '(v, _) ← read_value (2 * length rs + 2) 0 rs; Some v.

Definition create_names : list string := ["effect"; "policy_text"]%string.
Definition into_create_request (v : json) : option (string * string) :=
  match v with
  | JObject kvs =>
      effect ← decode_field create_names "effect" into_str ""%string kvs;
      text ← decode_field create_names "policy_text" into_str ""%string kvs;
      Some (effect, text)
  | JNull => Some (""%string, ""%string)
  | _ => None
  end.
Definition update_names : list string := ["policy_text"]%string.
Definition into_update_request (v : json) : option string :=
  match v with
  | JObject kvs => decode_field update_names "policy_text" into_str ""%string kvs
  | JNull => Some ""%string
  | _ => None
  end.
Definition decision_names : list string := ["tenant_id"; "subject"; "action"; "resource"; "context"]%string.
Definition into_decision_request (v : json) : option DecisionRequest :=
  match v with
  | JObject kvs =>
      let str k := decode_field decision_names k into_str ""%string kvs in
      tenant ← str "tenant_id"%string; subject ← str "subject"%string; action ← str "action"%string;
      resource ← str "resource"%string; context ← decode_field decision_names "context" into_map_field None kvs;
      Some (mkDecisionRequest tenant subject action resource (default ∅ context))
  | JNull => Some (mkDecisionRequest "" "" "" "" ∅)
  | _ => None
  end.
Definition simulate_names : list string := ["policy_text"; "subject"; "action"; "resource"; "context"]%string.
Definition into_simulate_request (v : json) : option SimulateRequest :=
  match v with
  | JObject kvs =>
      let str k := decode_field simulate_names k into_str ""%string kvs in
      text ← str "policy_text"%string; subject ← str "subject"%string; action ← str "action"%string;
      resource ← str "resource"%string; context ← decode_field simulate_names "context" into_map_field None kvs;
      Some (mkSimulateRequest text subject action resource (default ∅ context))
  | JNull => Some (mkSimulateRequest "" "" "" "" ∅)
  | _ => None
  end.

(** ** What the handlers answer *)

(** The answer of [handleExplain]: [matched] is [None] for a nil slice; the
    obligations, which the client ignores, are members that follow. *)
Definition explain_answer (decision reason : string) (matched : option (list string)) (obligations : list (string * json)) : json :=
  JObject (str_member "decision" decision ++ str_member "final_reason" reason
           ++ [("matched_policies"%string, match matched with None => JNull | Some l => JArray (JString <$> l) end)] ++ obligations).
Definition decision_answer (decision matched : string) (obligations : list (string * json)) : json :=
  JObject (str_member "decision" decision ++ opt_member "matched_policy_id" matched ++ obligations).

(** The answers that are written with [Sprintf], where nothing is escaped. *)
Definition dquote : string := of_bytes [34].
Definition raw_string (s : string) : string := dquote +:+ s +:+ dquote.
Definition raw_member (k v : string) : string := raw_string k +:+ ":" +:+ v.
Definition raw_object (members : list string) : string := "{" +:+ join members "," +:+ "}".

Definition created_message : string := "Tạo chính sách thành công".
Definition updated_message : string := "Cập nhật chính sách thành công".
Definition deleted_message : string := "Xóa chính sách thành công".
Definition published_message : string := "Xuất bản chính sách thành công".

Definition created_text (id : string) : string :=
  raw_object [raw_member "id" (raw_string id); raw_member "policy_id" (raw_string id);
              raw_member "status" (raw_string "DRAFT"); raw_member "message" (raw_string created_message)].
Definition updated_text : string :=
  raw_object [raw_member "status" (raw_string "DRAFT"); raw_member "message" (raw_string updated_message)].
Definition deleted_text : string := raw_object [raw_member "message" (raw_string deleted_message)].
Definition published_text (version : Z) : string :=
  raw_object [raw_member "status" (raw_string "ACTIVE"); raw_member "version" (FormatInt version);
              raw_member "message" (raw_string published_message)].

(** The answer of [handleSimulate], over several lines; the two lists are JSON texts. *)
Definition strings_json (l : option (list string)) : json :=
  match l with None => JNull | Some l => JArray (JString <$> l) end.
Definition line_break (tabs : nat) : string := of_bytes (10 :: replicate tabs 9).
Definition spaced_member (k v : string) : string := line_break 2 +:+ raw_string k +:+ ": " +:+ v.
Definition simulated_text (decision reason : string) (matched errors : option (list string)) (tenant : string) : string :=
  "{" +:+ join [spaced_member "decision" (raw_string decision); spaced_member "reason" (raw_string reason);
                spaced_member "matched_policies" (json_text (strings_json matched));
                spaced_member "compile_errors" (json_text (strings_json errors));
                spaced_member "tenant_id" (raw_string tenant)] ","
      +:+ line_break 1 +:+ "}".

(** The health answer; [message] gives the texts that the model of the handler leaves out. *)
Definition status_text (s : SyncStatus) : string :=
  match s with SyncStatusHealthy => "healthy" | SyncStatusDegraded => "degraded" | SyncStatusNotReady => "not_ready" end.
Definition component_json (message : string) (s : SyncStatus) : json :=
  JObject (str_member "status" (status_text s) ++ opt_member "message" message).
Definition health_json (message : string -> string) (h : healthResponse) : json :=
  JObject (str_member "status" (status_text (h_status h))
           ++ [("components"%string, JObject ((fun k =>
                  (k, component_json (message k) (default SyncStatusHealthy (h_components h !! k))))
                <$> sort_strings (map_to_list (h_components h)).*1))]).

(** ** What the commands decode *)

Record CreatePolicyResp := mkCreateResp { cr_PolicyID : string; cr_Status : string }.
Record PublishPolicyResp := mkPublishResp {
  pr_PolicyID : string;
  pr_Status : string;
  pr_PublishedVersion : Z;
  pr_PublishedAt : civil;
  pr_SyncEventSent : bool
}.
Record SimulateResp := mkSimulateResp {
  sr_SimulatedDecision : string;
  sr_Reason : string;
  sr_MatchedPolicies : list string;
  sr_CompileErrors : list string;
  sr_TenantID : string
}.
Record DecisionResp := mkDecisionResp { dp_Decision : string; dp_MatchedPolicyID : string; dp_EvaluatedAt : civil }.
Record MatchedPolicyMetadata := mkMatched { mp_ID : string; mp_Effect : string; mp_PolicyText : string }.
Record ExplainResp := mkExplainResp { er_Decision : string; er_FinalReason : string; er_MatchedPolicies : list MatchedPolicyMetadata }.

(** The zero [time.Time], and a time of an answer in the zone it is written in. *)
Definition zero_time : civil := mkCivil 1 1 1 0 0 0 0 0.
Definition into_civil (old : civil) (v : json) : option civil :=
  match v with
  | JString s => if strict_rfc3339 (go_bytes s) then ParseRFC3339 s else None
  | JNull => Some old
  | _ => None
  end.

Definition into_strings (_ : list string) (v : json) : option (list string) :=
  match v with JArray vs => mapM (into_str "") vs | JNull => Some [] | _ => None end.

(** An object, decoded by [f]; a null leaves the zero value. *)
Definition into_struct {A} (zero : A) (f : list (string * json) -> option A) (v : json) : option A :=
  match v with JObject kvs => f kvs | JNull => Some zero | _ => None end.

Definition into_create_resp : json -> option CreatePolicyResp :=
  into_struct (mkCreateResp "" "") (fun kvs =>
    let names := ["policy_id"; "status"]%string in
    id ← decode_field names "policy_id" into_str ""%string kvs; status ← decode_field names "status" into_str ""%string kvs;
    Some (mkCreateResp id status)).
Definition into_update_resp : json -> option string :=
  into_struct ""%string (decode_field ["status"%string] "status" into_str ""%string).
Definition into_publish_resp : json -> option PublishPolicyResp :=
  into_struct (mkPublishResp "" "" 0 zero_time false) (fun kvs =>
    let names := ["policy_id"; "status"; "published_version"; "published_at"; "sync_event_sent"]%string in
    id ← decode_field names "policy_id" into_str ""%string kvs; status ← decode_field names "status" into_str ""%string kvs;
    version ← decode_field names "published_version" into_int 0 kvs;
    at_time ← decode_field names "published_at" into_civil zero_time kvs;
    sent ← decode_field names "sync_event_sent" into_bool false kvs;
    Some (mkPublishResp id status version at_time sent)).
Definition into_delete_resp : json -> option (gmap string string) := into_string_map.
Definition into_simulate_resp : json -> option SimulateResp :=
  into_struct (mkSimulateResp "" "" [] [] "") (fun kvs =>
    let names := ["simulated_decision"; "reason"; "matched_policies"; "compile_errors"; "tenant_id"]%string in
    decision ← decode_field names "simulated_decision" into_str ""%string kvs; reason ← decode_field names "reason" into_str ""%string kvs;
    matched ← decode_field names "matched_policies" into_strings [] kvs; errors ← decode_field names "compile_errors" into_strings [] kvs;
    tenant ← decode_field names "tenant_id" into_str ""%string kvs;
    Some (mkSimulateResp decision reason matched errors tenant)).
Definition into_decision_resp : json -> option DecisionResp :=
  into_struct (mkDecisionResp "" "" zero_time) (fun kvs =>
    let names := ["decision"; "matched_policy_id"; "evaluated_at"]%string in
    decision ← decode_field names "decision" into_str ""%string kvs; matched ← decode_field names "matched_policy_id" into_str ""%string kvs;
    at_time ← decode_field names "evaluated_at" into_civil zero_time kvs;
    Some (mkDecisionResp decision matched at_time)).
Definition into_matched : json -> option MatchedPolicyMetadata :=
  into_struct (mkMatched "" "" "") (fun kvs =>
    let names := ["id"; "effect"; "policy_text"]%string in
    id ← decode_field names "id" into_str ""%string kvs; effect ← decode_field names "effect" into_str ""%string kvs;
    text ← decode_field names "policy_text" into_str ""%string kvs;
    Some (mkMatched id effect text)).
Definition into_matched_list (_ : list MatchedPolicyMetadata) (v : json) : option (list MatchedPolicyMetadata) :=
  match v with JArray vs => mapM into_matched vs | JNull => Some [] | _ => None end.
Definition into_explain_resp : json -> option ExplainResp :=
  into_struct (mkExplainResp "" "" []) (fun kvs =>
    let names := ["decision"; "final_reason"; "matched_policies"; "latency"]%string in
    decision ← decode_field names "decision" into_str ""%string kvs; reason ← decode_field names "final_reason" into_str ""%string kvs;
    matched ← decode_field names "matched_policies" into_matched_list [] kvs;
    _ ← decode_field names "latency" into_str ""%string kvs;
    Some (mkExplainResp decision reason matched)).

(** A component: its status and its message. *)
Definition into_component : json -> option (string * string) :=
  into_struct (""%string, ""%string) (fun kvs =>
    let names := ["status"; "message"]%string in
    status ← decode_field names "status" into_str ""%string kvs; message ← decode_field names "message" into_str ""%string kvs;
    Some (status, message)).
Definition into_components (init : gmap string (string * string)) (v : json) : option (gmap string (string * string)) :=
  match v with
  | JNull => Some ∅
  | JObject kvs => foldl (fun acc kv => m ← acc; c ← into_component kv.2; Some (<[kv.1 := c]> m)) (Some init) kvs
  | _ => None
  end.
Record HealthResp := mkHealthResp { hl_Status : string; hl_Components : gmap string (string * string) }.
Definition into_health_resp : json -> option HealthResp :=
  into_struct (mkHealthResp "" ∅) (fun kvs =>
    let names := ["status"; "components"]%string in
    status ← decode_field names "status" into_str ""%string kvs; components ← decode_field names "components" into_components ∅ kvs;
    Some (mkHealthResp status components)).
