(* ===== verification/PectlPrinter.v ===== *)
(** * What pectl prints ([internal/pectl/printer], [internal/pectl/commands/root.go])

    The tables go through package text/tabwriter, whose layout of a text into
    columns is here; the other formats are encoding/json with an indentation
    and an encoder of YAML, which is a parameter.  Everything printed is
    bytes. *)

From S2P Require Import Prelude GoStr GoTime GoJson GoJsonFacts AuditRecord PectlClient PectlCommands.
From stdpp Require Import options.
Local Open Scope Z_scope.

(** ** The writer of package text/tabwriter *)

Definition cell : Type := list Z.
(** The cells of a line: the text after its last tab is the last one. *)
Definition tab_line : Type := list cell.

Definition rune_count (c : cell) : nat := length (utf8_chunks c).
(** No minimal width, two blanks of padding. *)
Definition padding : nat := 2.

Definition has_cell (column : nat) (line : tab_line) : bool := (column <? pred (length line))%nat.
(** The leading lines that have a cell in the column, and the rest. *)
Fixpoint cut_block (column : nat) (lines : list tab_line) : list tab_line * list tab_line :=
  match lines with
  | [] => ([], [])
  | line :: lines' =>
      if has_cell column line then let '(block, rest) := cut_block column lines' in (line :: block, rest) else ([], lines)
  end.
Definition column_width (column : nat) (block : list tab_line) : nat :=
  fold_right (fun line w => Nat.max (rune_count (default [] (line !! column)) + padding) w) 0%nat block.

(** A line under the widths of its columns. *)
Fixpoint write_line (widths : list nat) (line : tab_line) : list Z :=
  match line, widths with
  | [], _ => []
  | c :: line', w :: widths' => c ++ replicate (w - rune_count c) 32 ++ write_line widths' line'
  | c :: line', [] => c ++ write_line [] line'
  end.

(** [Writer.format]: a block of lines that go on in the next column is laid out under its width. *)
Fixpoint format_lines (fuel : nat) (widths : list nat) (lines : list tab_line) : list (list Z) :=
  match fuel with
  | O => []
  | S fuel' =>
      match lines with
      | [] => []
      | line :: lines' =>
          let column := length widths in
          if has_cell column line then
            let '(block, rest) := cut_block column lines in
            format_lines fuel' (widths ++ [column_width column block]) block ++ format_lines fuel' widths rest
          else write_line widths line :: format_lines fuel' widths lines'
      end
  end.
(** Every call consumes a line or a column of one. *)
Definition lines_left (column : nat) (lines : list tab_line) : nat := list_sum ((fun line => S (pred (length line) - column)) <$> lines).

Fixpoint join_lines (ls : list (list Z)) : list Z :=
  match ls with
  | [] => []
  | [l] => l
  | l :: ls' => l ++ 10 :: join_lines ls'
  end.
Definition print_lines (lines : list tab_line) : list Z := join_lines (format_lines (lines_left 0 lines) [] lines).

(** [Write] and the final [Flush]: tabs end a cell, line feeds a line, form feeds a line and the block.  The escape byte 255 is not
    handled: the strings of an answer are valid UTF-8. *)
Fixpoint tab_write (bs : list Z) (c : cell) (line : tab_line) (lines : list tab_line) : list Z :=
  match bs with
  | [] => print_lines (lines ++ [match c with [] => line | _ => line ++ [c] end])
  | b :: bs' =>
      if (b =? 9) || (b =? 11) then tab_write bs' [] (line ++ [c]) lines
      else if b =? 10 then tab_write bs' [] [] (lines ++ [line ++ [c]])
      else if b =? 12 then print_lines (lines ++ [line ++ [c]; []]) ++ tab_write bs' [] [] []
      else tab_write bs' (c ++ [b]) line lines
  end.

(** ** Numbers and times *)

(** The zone [Z07:00]. *)
Definition zone_text (offset : Z) : list Z :=
  if offset =? 0 then [90]
  else let z := Z.quot offset 60 in
       (if z <? 0 then 45 else 43) :: fixed_digits 2 (Z.quot (Z.abs z) 60) [] ++ [58] ++ fixed_digits 2 (Z.rem (Z.abs z) 60) [].
(** [t.Format(time.RFC3339)]. *)
Definition format_rfc3339 (t : civil) : list Z :=
  format_date t ++ [84] ++ fixed_digits 2 (hour t) [] ++ [58] ++ fixed_digits 2 (minute t) [] ++ [58] ++ fixed_digits 2 (second t) []
  ++ zone_text (offset t).

(** A finite float64 by its sign, its significand and its exponent of two. *)
Record Float64 := mkFloat64 { f_negative : bool; f_mantissa : Z; f_exponent : Z }.
(** The quotient rounded to the nearest integer, half to even. *)
Definition round_half_even (n d : Z) : Z :=
  let q := n / d in let r := 2 * (n mod d) in
  if r <? d then q else if d <? r then q + 1 else if Z.even q then q else q + 1.
(** The verb [%.nf] with [n > 0]; 310 digits hold the integer part of every float64. *)
Definition format_fixed (prec : nat) (f : Float64) : list Z :=
  let m := f_mantissa f * 10 ^ Z.of_nat prec in
  let n := if 0 <=? f_exponent f then m * 2 ^ f_exponent f else round_half_even m (2 ^ (- f_exponent f)) in
  (if f_negative f then [45] else []) ++ dec_digits 310 (n / 10 ^ Z.of_nat prec) [] ++ [46] ++ fixed_digits prec (n mod 10 ^ Z.of_nat prec) [].

Example float_ex1 : of_bytes (format_fixed 2 (mkFloat64 false 5 (-3))) = "0.62"%string.
Proof. reflexivity. Qed.
Example float_ex2 : of_bytes (format_fixed 3 (mkFloat64 true 25 (-1))) = "-12.500"%string.
Proof. reflexivity. Qed.
Example time_ex1 : of_bytes (format_rfc3339 (mkCivil 2024 2 29 12 5 9 1 (-19800))) = "2024-02-29T12:05:09-05:30"%string.
Proof. reflexivity. Qed.

(** ** The tables *)

Fixpoint join_cells (cells : list cell) : list Z :=
  match cells with
  | [] => []
  | [c] => c
  | c :: cells' => c ++ 9 :: join_cells cells'
  end.
(** One [Fprintf]. *)
Definition row_text (cells : tab_line) : list Z := join_cells cells ++ [10].
Definition table_text (rows : list tab_line) : list Z := tab_write (rows ≫= row_text) [] [] [].

Definition text (s : string) : cell := go_bytes s.
Definition number (n : Z) : cell := format_int_bytes n.
Definition truth_text (b : bool) : cell := text (if b then "true" else "false").

Record Policy := mkPolicyRow {
  po_ID : string; po_TenantID : string; po_Effect : string; po_PolicyText : string; po_Version : Z; po_Status : string;
  po_CreatedAt : civil; po_UpdatedAt : civil
}.
Record Tenant := mkTenantRow { te_ID : string; te_Name : string; te_CreatedAt : civil; te_UpdatedAt : civil }.
Record TenantState := mkTenantStatus {
  ts_Active : bool; ts_Evicted : bool; ts_MemoryUsage : string; ts_PolicyCount : Z; ts_LastActivity : civil
}.
Record MetricsResp := mkMetrics {
  me_DecisionRate : Float64; me_QPS : Float64; me_LatencyP50 : Float64; me_LatencyP95 : Float64; me_LatencyP99 : Float64;
  me_MemoryUsage : Z; me_GCStatistics : string
}.

Definition policies_rows (policies : list Policy) : list tab_line :=
  (text <$> ["POLICY ID"; "EFFECT"; "STATUS"; "VERSION"; "UPDATED AT"]%string)
  :: ((fun p => [text (po_ID p); text (po_Effect p); text (po_Status p); number (po_Version p); format_rfc3339 (po_UpdatedAt p)]) <$> policies).
Definition PrintPoliciesTable (policies : list Policy) : list Z := table_text (policies_rows policies).

(** [strings.ReplaceAll(s, line feed, blank)]. *)
Definition one_line (s : string) : cell := (fun b => if b =? 10 then 32 else b) <$> go_bytes s.
Definition detail_rows (p : Policy) : list tab_line :=
  [[text "Field"; text "Value"]; [text "Policy ID"; text (po_ID p)]; [text "Tenant ID"; text (po_TenantID p)];
   [text "Effect"; text (po_Effect p)]; [text "Status"; text (po_Status p)]; [text "Version"; number (po_Version p)];
   [text "Created At"; format_rfc3339 (po_CreatedAt p)]; [text "Updated At"; format_rfc3339 (po_UpdatedAt p)];
   [text "Policy Text"; one_line (po_PolicyText p)]].
Definition PrintPolicyDetailTable (p : Policy) : list Z := table_text (detail_rows p).

Definition simulation_rows (res : SimulateResp) : list tab_line :=
  [[text "Simulated Decision:"; text (sr_SimulatedDecision res)]; [text "Reason:"; text (sr_Reason res)];
   [text "Tenant ID:"; text (sr_TenantID res)];
   [text "Matched Policies:"; text (match sr_MatchedPolicies res with [] => "None"%string | l => join l ", " end)]]
  ++ match sr_CompileErrors res with [] => [] | l => [[text "Compile Errors:"; text (join l "; ")]] end.
Definition PrintSimulationTable (res : SimulateResp) : list Z := table_text (simulation_rows res).

Definition decision_rows (res : DecisionResp) : list tab_line :=
  [[text "Decision:"; text (dp_Decision res)]; [text "Matched Policy:"; text (dp_MatchedPolicyID res)];
   [text "Evaluated At:"; format_rfc3339 (dp_EvaluatedAt res)]].
Definition PrintDecisionTable (res : DecisionResp) : list Z := table_text (decision_rows res).

Definition explain_rows (res : ExplainResp) (latency : cell) : list tab_line :=
  [[text "Decision:"; text (er_Decision res)]; [text "Latency:"; latency]; [text "Final Reason:"; text (er_FinalReason res)]].
Definition matched_rows (matched : list MatchedPolicyMetadata) : list tab_line :=
  [text "POLICY ID"; text "EFFECT"; text "CLAUSE"] :: ((fun mp => [text (mp_ID mp); text (mp_Effect mp); text (mp_PolicyText mp)]) <$> matched).
Definition PrintExplainTable (res : ExplainResp) (latency : cell) : list Z :=
  table_text (explain_rows res latency)
  ++ match er_MatchedPolicies res with
     | [] => []
     | matched => 10 :: text "Matched Policies:" ++ [10] ++ table_text (matched_rows matched)
     end.

Definition tenants_rows (tenants : list Tenant) : list tab_line :=
  [text "TENANT ID"; text "NAME"; text "CREATED AT"]
  :: ((fun t => [text (te_ID t); text (te_Name t); format_rfc3339 (te_CreatedAt t)]) <$> tenants).
Definition PrintTenantsTable (tenants : list Tenant) : list Z := table_text (tenants_rows tenants).

Definition tenant_status_rows (tenantID : string) (status : TenantState) : list tab_line :=
  [[text "PROPERTY"; text "VALUE"]; [text "Tenant ID"; text tenantID]; [text "Active"; truth_text (ts_Active status)];
   [text "Evicted"; truth_text (ts_Evicted status)]; [text "Memory Usage"; text (ts_MemoryUsage status)];
   [text "Policy Count"; number (ts_PolicyCount status)]; [text "Last Activity"; format_rfc3339 (ts_LastActivity status)]].
Definition PrintTenantStatusTable (tenantID : string) (status : TenantState) : list Z := table_text (tenant_status_rows tenantID status).

Definition metrics_rows (m : MetricsResp) : list tab_line :=
  [[text "METRIC"; text "VALUE"]; [text "Decision Rate"; format_fixed 2 (me_DecisionRate m) ++ text "/s"];
   [text "QPS"; format_fixed 2 (me_QPS m)]; [text "Latency P50"; format_fixed 3 (me_LatencyP50 m) ++ text " ms"];
   [text "Latency P95"; format_fixed 3 (me_LatencyP95 m) ++ text " ms"]; [text "Latency P99"; format_fixed 3 (me_LatencyP99 m) ++ text " ms"];
   [text "Memory Usage"; number (me_MemoryUsage m) ++ text " bytes"]; [text "GC Statistics"; text (me_GCStatistics m)]].
Definition PrintMetricsTable (m : MetricsResp) : list Z := table_text (metrics_rows m).

(** [components] are the components in the order of the [range]. *)
Definition health_rows (components : list (string * (string * string))) : list tab_line :=
  [text "COMPONENT"; text "STATUS"; text "MESSAGE"] :: ((fun kc => [text kc.1; text kc.2.1; text kc.2.2]) <$> components).
Definition health_text (status : string) (components : list (string * (string * string))) : list Z :=
  row_text [text "Overall Health:"; text status] ++ [10] ++ (health_rows components ≫= row_text).
Definition PrintHealthTable (status : string) (components : list (string * (string * string))) : list Z :=
  tab_write (health_text status components) [] [] [].

(** ** Theorems about the layout *)

Lemma lines_left_app k a b : lines_left k (a ++ b) = (lines_left k a + lines_left k b)%nat.
Proof. unfold lines_left. rewrite fmap_app. apply list_sum_app. Qed.
Lemma lines_left_cons k line lines : lines_left k (line :: lines) = (S (pred (length line) - k) + lines_left k lines)%nat.
Proof. done. Qed.

Lemma cut_block_spec k lines : forall block rest, cut_block k lines = (block, rest) ->
  lines = block ++ rest /\ Forall (fun line => has_cell k line = true) block.
Proof.
  induction lines as [|line lines IH]; intros block rest; cbn [cut_block]; [by intros [= <- <-]|].
  destruct (has_cell k line) eqn:E; [|intros Hc; by injection Hc as <- <-]. destruct (cut_block k lines) as [b r]. intros Hc. injection Hc as <- <-.
  destruct (IH b r eq_refl) as [-> Hb]. split; [done|by constructor].
Qed.
(** A block has one cell less to lay out in every line. *)
Lemma block_left k block : Forall (fun line => has_cell k line = true) block ->
  (lines_left (S k) block + length block = lines_left k block)%nat.
Proof.
  induction 1 as [|line block Hl _ IH]; [done|]. rewrite !lines_left_cons. cbn [length]. unfold has_cell in Hl. apply Nat.ltb_lt in Hl. lia.
Qed.

(** The fuel is enough: every line of a text is printed, whatever its cells. *)
Lemma format_lines_all fuel : forall widths lines, (lines_left (length widths) lines <= fuel)%nat ->
  length (format_lines fuel widths lines) = length lines.
Proof.
  induction fuel as [|fuel IH]; intros widths lines Hf.
  { destruct lines as [|line lines]; [done|]. rewrite lines_left_cons in Hf. lia. }
  destruct lines as [|line lines]; [done|]. cbn [format_lines]. destruct (has_cell (length widths) line) eqn:E.
  - destruct (cut_block (length widths) (line :: lines)) as [block rest] eqn:Ec.
    pose proof (cut_block_spec _ _ _ _ Ec) as [Heq Hb]. rewrite Heq in Hf |- *. rewrite lines_left_app in Hf.
    assert (0 < length block)%nat. { cbn [cut_block] in Ec. rewrite E in Ec. destruct (cut_block _ lines). injection Ec as <- <-. cbn. lia. }
    pose proof (block_left _ _ Hb) as Hl. rewrite length_app, IH, IH, length_app; [done|lia|rewrite length_app; cbn [length]; rewrite Nat.add_1_r; lia].
  - cbn [length]. rewrite IH; [done|]. rewrite lines_left_cons in Hf. lia.
Qed.

(** *** A rectangular table *)

(** The widths of the columns from [k] on, all but the last. *)
Definition widths_from (rows : list tab_line) (k n : nat) : list nat := (fun j => column_width j rows) <$> seq k (n - k).

Lemma cut_block_full k rows rest : Forall (fun line => has_cell k line = true) rows ->
  match rest with [] => True | line :: _ => has_cell k line = false end -> cut_block k (rows ++ rest) = (rows, rest).
Proof.
  intros Hr Hrest. induction Hr as [|line rows Hl _ IH]; cbn [app cut_block].
  - destruct rest as [|line rest]; [done|]. cbn [cut_block]. by rewrite Hrest.
  - by rewrite Hl, IH.
Qed.

Lemma format_last fuel n rows : forall widths, length widths = n -> Forall (fun line => length line = S n) rows ->
  (lines_left n rows <= fuel)%nat -> format_lines fuel widths rows = write_line widths <$> rows.
Proof.
  revert rows. induction fuel as [|fuel IH]; intros rows widths Hn Hr Hf; (destruct rows as [|line rows]; [done|]); rewrite lines_left_cons in Hf; [lia|].
  apply Forall_cons in Hr as [Hl Hr]. cbn [format_lines]. unfold has_cell. rewrite Hl, Hn. cbn [pred]. rewrite Nat.ltb_irrefl.
  cbn [fmap list_fmap]. f_equal. apply IH; [done|done|lia].
Qed.

Lemma format_rectangle fuel n rows : forall widths, (length widths <= n)%nat -> Forall (fun line => length line = S n) rows ->
  (lines_left (length widths) rows <= fuel)%nat ->
  format_lines fuel widths rows = write_line (widths ++ widths_from rows (length widths) n) <$> rows.
Proof.
  induction fuel as [|fuel IH]; intros widths Hk Hr Hf.
  { destruct rows as [|line rows]; [done|]. rewrite lines_left_cons in Hf. lia. }
  destruct (decide (length widths = n)) as [Hn|Hn].
  { unfold widths_from. rewrite Hn, Nat.sub_diag. cbn [seq fmap list_fmap]. rewrite app_nil_r.
    apply (format_last _ n); [done|done|by rewrite <- Hn at 1]. }
  destruct rows as [|line rows]; [done|]. set (all := line :: rows) in *.
  assert (Forall (fun line => has_cell (length widths) line = true) all) as Hb.
  { eapply Forall_impl; [exact Hr|]. intros l Hl. unfold has_cell. cbn in Hl. rewrite Hl. apply Nat.ltb_lt. cbn. lia. }
  assert (cut_block (length widths) all = (all, [])) as Ec by (rewrite <- (app_nil_r all) at 1; by apply cut_block_full).
  cbn [format_lines]. unfold all at 1. rewrite (Forall_inv Hb). fold all. rewrite Ec.
  pose proof (block_left _ _ Hb) as Hl. assert (0 < @length tab_line all)%nat by (cbn; lia).
  rewrite (IH (widths ++ [column_width (length widths) all])); [|rewrite length_app; cbn; lia|done|rewrite length_app; cbn [length]; rewrite Nat.add_1_r; lia].
  assert (format_lines fuel widths [] = []) as -> by by destruct fuel. rewrite app_nil_r.
  f_equal. f_equal. rewrite <- app_assoc. f_equal. rewrite length_app. cbn [length].
  unfold widths_from. replace (n - length widths)%nat with (S (n - (length widths + 1))) by lia. cbn [seq fmap list_fmap app].
  by rewrite Nat.add_1_r.
Qed.

(** A cell without tabs and line breaks. *)
Definition plain_cell (c : cell) : Prop := Forall (fun b => b <> 9 /\ b <> 10 /\ b <> 11 /\ b <> 12) c.

Lemma write_plain c : forall bs c0 line lines, plain_cell c -> tab_write (c ++ bs) c0 line lines = tab_write bs (c0 ++ c) line lines.
Proof.
  induction c as [|b c IH]; intros bs c0 line lines Hc; cbn [app]; [by rewrite app_nil_r|].
  apply Forall_cons in Hc as [(H1 & H2 & H3 & H4) Hc]. cbn [tab_write].
  replace (b =? 9) with false by lia. replace (b =? 10) with false by lia. replace (b =? 11) with false by lia.
  replace (b =? 12) with false by lia. cbn [orb]. rewrite IH by done. by rewrite <- app_assoc.
Qed.

Lemma write_row row : forall bs line lines, row <> [] -> Forall plain_cell row ->
  tab_write (row_text row ++ bs) [] line lines = tab_write bs [] [] (lines ++ [line ++ row]).
Proof.
  induction row as [|c row IH]; intros bs line lines Hne Hp; [done|]. apply Forall_cons in Hp as [Hc Hp]. unfold row_text.
  destruct row as [|c' row].
  - cbn [join_cells]. rewrite <- app_assoc, write_plain by done. cbn [app tab_write]. done.
  - change (join_cells (c :: c' :: row)) with (c ++ 9 :: join_cells (c' :: row)). rewrite <- !app_assoc, write_plain by done.
    cbn [app tab_write Z.eqb Pos.eqb orb]. specialize (IH bs (line ++ [c]) lines ltac:(done) Hp). unfold row_text in IH.
    rewrite <- app_assoc in IH. cbn [app] in IH |- *. rewrite IH. by rewrite <- app_assoc.
Qed.
Lemma write_rows rows : forall bs lines, Forall (fun row => row <> [] /\ Forall plain_cell row) rows ->
  tab_write ((rows ≫= row_text) ++ bs) [] [] lines = tab_write bs [] [] (lines ++ rows).
Proof.
  induction rows as [|row rows IH]; intros bs lines Hr; csimpl; [by rewrite app_nil_r|].
  apply Forall_cons in Hr as [[Hne Hp] Hr]. rewrite <- app_assoc, write_row by done. rewrite IH by done. by rewrite <- app_assoc.
Qed.

Lemma join_lines_last ls : join_lines (ls ++ [[]]) = ls ≫= fun l => l ++ [10].
Proof.
  induction ls as [|l ls IH]; [done|]. destruct ls as [|l' ls]; [csimpl; by rewrite app_nil_r|].
  change (l ++ 10 :: join_lines ((l' :: ls) ++ [[]]) = (l ++ [10]) ++ ((l' :: ls) ≫= fun l => l ++ [10])). by rewrite IH, <- app_assoc.
Qed.

(** The lines of rows of one length, laid out under the widths of their columns. *)
Definition layout (n : nat) (rows : list tab_line) : list Z := rows ≫= fun row => write_line (widths_from rows 0 n) row ++ [10].

(** Any fuel that is enough prints the same. *)
Lemma format_fuel f1 : forall f2 widths lines, (lines_left (length widths) lines <= f1)%nat -> (lines_left (length widths) lines <= f2)%nat ->
  format_lines f1 widths lines = format_lines f2 widths lines.
Proof.
  induction f1 as [|f1 IH]; intros f2 widths lines H1 H2; (destruct lines as [|line lines]; [by destruct f2|]);
    pose proof H1 as H1'; pose proof H2 as H2'; rewrite lines_left_cons in H1', H2'; [lia|].
  destruct f2 as [|f2]; [lia|]. cbn [format_lines]. destruct (has_cell (length widths) line) eqn:E.
  - destruct (cut_block (length widths) (line :: lines)) as [block rest] eqn:Ec.
    pose proof (cut_block_spec _ _ _ _ Ec) as [Heq Hb]. rewrite Heq, lines_left_app in H1, H2.
    assert (0 < @length tab_line block)%nat. { cbn [cut_block] in Ec. rewrite E in Ec. destruct (cut_block _ lines). injection Ec as <- <-. cbn. lia. }
    pose proof (block_left _ _ Hb) as Hl.
    assert (length (widths ++ [column_width (length widths) block]) = S (length widths)) as Hw by (rewrite length_app; cbn; lia).
    f_equal; apply IH; rewrite ?Hw; lia.
  - f_equal. apply IH; lia.
Qed.

(** The layout of a table does not look past the line that ends it. *)
Lemma format_table n rows rest : (0 < n)%nat -> Forall (fun line => length line = S n) rows ->
  match rest with [] => True | line :: _ => has_cell 0 line = false end ->
  format_lines (lines_left 0 (rows ++ rest)) [] (rows ++ rest)
  = (write_line (widths_from rows 0 n) <$> rows) ++ format_lines (lines_left 0 rest) [] rest.
Proof.
  intros Hn Hr Hrest. destruct rows as [|line rows]; [done|]. set (all := line :: rows) in *.
  assert (Forall (fun line => has_cell 0 line = true) all) as Hb.
  { eapply Forall_impl; [exact Hr|]. intros l Hl. unfold has_cell. cbn in Hl. rewrite Hl. apply Nat.ltb_lt. cbn. lia. }
  pose proof (block_left _ _ Hb) as Hl. assert (0 < @length tab_line all)%nat by (cbn; lia).
  rewrite (format_fuel _ (S (lines_left 0 (all ++ rest)))) by (cbn [length]; lia).
  assert (cut_block 0 (all ++ rest) = (all, rest)) as Ec by by apply cut_block_full.
  cbn [format_lines length]. unfold all at 1. cbn [app]. rewrite (Forall_inv Hb).
  change (line :: rows ++ rest) with (all ++ rest). rewrite Ec. rewrite lines_left_app.
  rewrite (format_rectangle _ n all [column_width 0 all]); [|done|done|cbn [length]; lia].
  rewrite (format_fuel _ (lines_left 0 rest) [] rest) by (cbn [length]; lia).
  f_equal. f_equal. f_equal. unfold widths_from. cbn [length]. replace (n - 0)%nat with (S (n - 1)) by lia. done.
Qed.

Lemma join_layout n rows rest : join_lines ((write_line (widths_from rows 0 n) <$> rows) ++ rest ++ [[]]) = layout n rows ++ join_lines (rest ++ [[]]).
Proof.
  rewrite !join_lines_last, app_assoc, join_lines_last, bind_app. f_equal. unfold layout. generalize (widths_from rows 0 n). intros ws. clear.
  induction rows as [|row rows IH]; [done|]. csimpl. by rewrite IH.
Qed.
Lemma print_rectangle n rows : (0 < n)%nat -> Forall (fun line => length line = S n) rows -> print_lines (rows ++ [[]]) = layout n rows.
Proof.
  intros Hn Hr. unfold print_lines. rewrite (format_table n) by done. pose proof (join_layout n rows []) as Hj. cbn [app join_lines] in Hj.
  rewrite app_nil_r in Hj. exact Hj.
Qed.
(** Two tables with an empty line between them. *)
Lemma print_two n1 rows1 n2 rows2 : (0 < n1)%nat -> (0 < n2)%nat -> Forall (fun line => length line = S n1) rows1 ->
  Forall (fun line => length line = S n2) rows2 -> print_lines (rows1 ++ [[]] :: rows2 ++ [[]]) = layout n1 rows1 ++ 10 :: layout n2 rows2.
Proof.
  intros H1 H2 Hr1 Hr2. unfold print_lines. rewrite (format_table n1) by done.
  assert (format_lines (lines_left 0 ([[]] :: rows2 ++ [[]])) [] ([[]] :: rows2 ++ [[]]) = [] :: (write_line (widths_from rows2 0 n2) <$> rows2) ++ [[]]) as ->.
  { rewrite lines_left_cons. cbn [length pred Nat.sub Nat.add format_lines]. change (has_cell 0 [[]]) with false. cbn [write_line app].
    f_equal. rewrite (format_table n2) by done. reflexivity. }
  change ([] :: (write_line (widths_from rows2 0 n2) <$> rows2) ++ [[]]) with (([] :: (write_line (widths_from rows2 0 n2) <$> rows2)) ++ [[] : list Z]).
  rewrite join_layout. f_equal. cbn [app]. pose proof (join_layout n2 rows2 []) as Hj. cbn [app join_lines] in Hj. rewrite app_nil_r in Hj. rewrite <- Hj.
  by destruct rows2.
Qed.

Definition table_ok (n : nat) (rows : list tab_line) : Prop := Forall (fun line => length line = S n /\ Forall plain_cell line) rows.

Lemma table_ok_rows n rows : table_ok n rows -> Forall (fun line => length line = S n) rows /\ Forall (fun row => row <> [] /\ Forall plain_cell row) rows.
Proof.
  intros Hr. split; (eapply Forall_impl; [exact Hr|]); intros row [Hl Hp]; [done|]. split; [by destruct row|done].
Qed.

Lemma table_layout n rows : (0 < n)%nat -> table_ok n rows -> table_text rows = layout n rows.
Proof.
  intros Hn [Hl Hp]%table_ok_rows. unfold table_text. rewrite <- (app_nil_r (rows ≫= row_text)), write_rows by done.
  cbn [tab_write]. by apply print_rectangle.
Qed.

(** A column is at least two wider than each of its cells. *)
Lemma column_fits j (rows : list tab_line) row : row ∈ rows -> (rune_count (default [] (row !! j)) + padding <= column_width j rows)%nat.
Proof.
  unfold column_width. induction rows as [|r rows IH]; [by intros ?%not_elem_of_nil|]. cbn [fold_right].
  intros [->|Hin]%elem_of_cons; [lia|]. specialize (IH Hin). lia.
Qed.

Lemma layout_fits n rows j w row : widths_from rows 0 n !! j = Some w -> row ∈ rows ->
  (rune_count (default [] (row !! j)) + padding <= w)%nat.
Proof.
  unfold widths_from. rewrite list_lookup_fmap. intros (i & Hi & ->)%fmap_Some Hin. apply lookup_seq in Hi as [-> _]. by apply column_fits.
Qed.

(** *** Which cells are plain *)

Definition plain_string (s : string) : Prop := plain_cell (go_bytes s).
Definition byte_plain (b : Z) : bool := negb ((b =? 9) || (b =? 10) || (b =? 11) || (b =? 12)).
Lemma plain_bool c : forallb byte_plain c = true -> plain_cell c.
Proof. unfold plain_cell. intros Hc. rewrite Forall_forall. intros b Hb. rewrite forallb_forall in Hc.
  apply list_elem_of_In in Hb. specialize (Hc b Hb). unfold byte_plain in Hc. lia. Qed.

Definition digit_like (b : Z) : Prop := 43 <= b <= 90.
Lemma digits_plain c : Forall digit_like c -> plain_cell c.
Proof. intros Hc. eapply Forall_impl; [exact Hc|]. unfold digit_like. intros b Hb. lia. Qed.
Lemma fixed_digits_like w : forall n acc, Forall digit_like acc -> Forall digit_like (fixed_digits w n acc).
Proof.
  induction w as [|w IH]; intros n acc Ha; cbn [fixed_digits]; [done|]. apply IH. constructor; [|done].
  pose proof (Z.mod_pos_bound n 10 ltac:(lia)). unfold digit_like. lia.
Qed.
Lemma dec_digits_like fuel : forall m acc, Forall digit_like acc -> Forall digit_like (dec_digits fuel m acc).
Proof.
  induction fuel as [|fuel IH]; intros m acc Ha; cbn [dec_digits]; [done|]. pose proof (Z.mod_pos_bound m 10 ltac:(lia)).
  assert (Forall digit_like ((48 + m mod 10) :: acc)) by (constructor; [unfold digit_like; lia|done]). destruct (m <? 10); auto.
Qed.
Lemma format_int_like n : Forall digit_like (format_int_bytes n).
Proof. unfold format_int_bytes. destruct (n <? 0); [constructor; [unfold digit_like; lia|]|]; by apply dec_digits_like. Qed.
Lemma time_like t : Forall digit_like (format_rfc3339 t).
Proof.
  unfold format_rfc3339, format_date, zone_text. rewrite !Forall_app.
  assert (Forall digit_like [45] /\ Forall digit_like [58] /\ Forall digit_like [84] /\ Forall digit_like [90]) as (?&?&?&?)
    by (repeat split; repeat constructor; unfold digit_like; lia).
  split_and!; try done; try (apply fixed_digits_like; constructor).
  destruct (offset t =? 0); [done|]. constructor; [destruct (_ <? 0); unfold digit_like; lia|].
  rewrite !Forall_app. split_and!; try done; apply fixed_digits_like; constructor.
Qed.
Lemma number_plain n : plain_cell (number n).
Proof. apply digits_plain, format_int_like. Qed.
Lemma time_plain t : plain_cell (format_rfc3339 t).
Proof. apply digits_plain, time_like. Qed.
Lemma truth_plain b : plain_cell (truth_text b).
Proof. destruct b; by apply plain_bool. Qed.
Lemma plain_app a b : plain_cell a -> plain_cell b -> plain_cell (a ++ b).
Proof. intros Ha Hb. by apply Forall_app. Qed.
(** The text of a policy may have line feeds where it is put on one line. *)
Definition flat_text (s : string) : Prop := Forall (fun b => b <> 9 /\ b <> 11 /\ b <> 12) (go_bytes s).
Lemma one_line_plain s : flat_text s -> plain_cell (one_line s).
Proof.
  unfold flat_text, one_line, plain_cell. intros Hs. apply Forall_fmap. eapply Forall_impl; [exact Hs|]. intros b (?&?&?). cbn.
  destruct (Z.eqb_spec b 10); lia.
Qed.
Lemma join_plain l sep : Forall plain_string l -> plain_string sep -> plain_string (join l sep).
Proof.
  unfold plain_string. intros Hl Hs. induction Hl as [|s l Hp Hl IH]; [by constructor|]. destruct l as [|s' l]; [done|].
  change (join (s :: s' :: l) sep) with (s +:+ sep +:+ join (s' :: l) sep). rewrite !go_bytes_app. by repeat apply plain_app.
Qed.
Create HintDb plain_cells.
#[export] Hint Resolve number_plain time_plain truth_plain one_line_plain plain_app : plain_cells.
(** A row of cells that are constants, plain by hypothesis or plain by their making. *)
Ltac plain_row :=
  split; [reflexivity|]; repeat (apply Forall_cons_2; [first [assumption|by apply plain_bool|solve [auto with plain_cells]]|]); apply Forall_nil_2.


(** *** The tables of pectl *)

Lemma flat_text_bool s : forallb (fun b => negb ((b =? 9) || (b =? 11) || (b =? 12))) (go_bytes s) = true -> flat_text s.
Proof.
  unfold flat_text. rewrite forallb_forall, Forall_forall. intros Hs b Hb. apply list_elem_of_In in Hb. specialize (Hs b Hb). cbn in Hs. lia.
Qed.

Lemma rows_ok {A} n (f : A -> tab_line) l : Forall (fun a => length (f a) = S n /\ Forall plain_cell (f a)) l -> table_ok n (f <$> l).
Proof. intros Hl. by apply Forall_fmap. Qed.

Definition plain_policy (p : Policy) : Prop :=
  plain_string (po_ID p) /\ plain_string (po_TenantID p) /\ plain_string (po_Effect p) /\ plain_string (po_Status p) /\ flat_text (po_PolicyText p).
Definition plain_tenant (t : Tenant) : Prop := plain_string (te_ID t) /\ plain_string (te_Name t).
Definition plain_match (mp : MatchedPolicyMetadata) : Prop := plain_string (mp_ID mp) /\ plain_string (mp_Effect mp) /\ plain_string (mp_PolicyText mp).

Lemma policies_ok ps : Forall plain_policy ps -> table_ok 4 (policies_rows ps).
Proof.
  intros Hp. constructor; [plain_row|]. apply rows_ok. eapply Forall_impl; [exact Hp|]. intros p (?&?&?&?&?). plain_row.
Qed.
Lemma tenants_ok ts : Forall plain_tenant ts -> table_ok 2 (tenants_rows ts).
Proof.
  intros Hp. constructor; [plain_row|]. apply rows_ok. eapply Forall_impl; [exact Hp|]. intros p (?&?). plain_row.
Qed.
Lemma matched_ok ms : Forall plain_match ms -> table_ok 2 (matched_rows ms).
Proof.
  intros Hp. constructor; [plain_row|]. apply rows_ok. eapply Forall_impl; [exact Hp|]. intros p (?&?&?). plain_row.
Qed.
Lemma detail_ok p : plain_policy p -> table_ok 1 (detail_rows p).
Proof. intros (?&?&?&?&?). unfold detail_rows. repeat (constructor; [plain_row|]). constructor. Qed.

(** What a table promises: its rows are its lines, and a column starts at one place in all of them, past the longest of the cells before. *)
Definition aligned (n : nat) (rows : list tab_line) (out : list Z) : Prop :=
  exists widths, length widths = n /\ out = (rows ≫= fun row => write_line widths row ++ [10])
    /\ forall row j w, row ∈ rows -> widths !! j = Some w -> (rune_count (default [] (row !! j)) + padding <= w)%nat.

Lemma layout_aligned n rows : aligned n rows (layout n rows).
Proof.
  exists (widths_from rows 0 n). split; [unfold widths_from; rewrite length_fmap, length_seq; lia|].
  split; [done|]. intros row j w Hin Hw. by eapply layout_fits.
Qed.
Lemma table_aligned n rows : (0 < n)%nat -> table_ok n rows -> aligned n rows (table_text rows).
Proof. intros Hn Hr. rewrite (table_layout n) by done. apply layout_aligned. Qed.

Lemma simulation_ok res : plain_string (sr_SimulatedDecision res) -> plain_string (sr_Reason res) -> plain_string (sr_TenantID res) ->
  Forall plain_string (sr_MatchedPolicies res) -> Forall plain_string (sr_CompileErrors res) -> table_ok 1 (simulation_rows res).
Proof.
  intros ??? Hm He. unfold simulation_rows. apply Forall_app. split.
  - assert (plain_cell (text match sr_MatchedPolicies res with [] => "None"%string | l => join l ", " end)) as Hj.
    { destruct (sr_MatchedPolicies res); [by apply plain_bool|]. apply join_plain; [done|by apply plain_bool]. }
    repeat (apply Forall_cons_2; [plain_row|]). apply Forall_nil_2.
  - destruct (sr_CompileErrors res) eqn:E; [constructor|]. assert (plain_string (join (s :: l) "; ")) by (apply join_plain; [done|by apply plain_bool]).
    apply Forall_cons_2; [plain_row|apply Forall_nil_2].
Qed.
Lemma status_ok id st : plain_string id -> plain_string (ts_MemoryUsage st) -> table_ok 1 (tenant_status_rows id st).
Proof. intros ??. unfold tenant_status_rows. repeat (apply Forall_cons_2; [plain_row|]). apply Forall_nil_2. Qed.

Lemma format_fixed_like prec f : Forall digit_like (format_fixed prec f).
Proof.
  unfold format_fixed. rewrite !Forall_app. split_and!; [destruct (f_negative f); repeat constructor; unfold digit_like; lia|by apply dec_digits_like| |].
  - repeat constructor; unfold digit_like; lia.
  - apply fixed_digits_like. constructor.
Qed.
Lemma fixed_plain prec f : plain_cell (format_fixed prec f).
Proof. apply digits_plain, format_fixed_like. Qed.
#[export] Hint Resolve fixed_plain : plain_cells.
#[export] Hint Extern 3 (plain_cell (text _)) => by apply plain_bool : plain_cells.

Lemma metrics_ok m : plain_string (me_GCStatistics m) -> table_ok 1 (metrics_rows m).
Proof. intros ?. unfold metrics_rows. repeat (apply Forall_cons_2; [plain_row|]). apply Forall_nil_2. Qed.

(** A policy whose identifiers have no tab and no line break is one line of the list, whatever its text, and the columns of the list
    start at one place in every line; the details of a policy are aligned so too, its text on one line although it may have line feeds. *)
Theorem policy_tables_align (ps : list Policy) (Hps : Forall plain_policy ps) :
  aligned 4 (policies_rows ps) (PrintPoliciesTable ps)
  /\ (forall p, p ∈ ps -> aligned 1 (detail_rows p) (PrintPolicyDetailTable p)).
Proof.
  split; [apply table_aligned; [lia|by apply policies_ok]|]. intros p Hp. apply table_aligned; [lia|]. apply detail_ok.
  rewrite Forall_forall in Hps. by apply Hps.
Qed.

(** The other tables keep their columns when the strings of the answer have no tab and no line break. *)
Theorem answer_tables_align (res : SimulateResp) (ts : list Tenant) (id : string) (st : TenantState) (m : MetricsResp)
    (Hres : plain_string (sr_SimulatedDecision res) /\ plain_string (sr_Reason res) /\ plain_string (sr_TenantID res)
            /\ Forall plain_string (sr_MatchedPolicies res) /\ Forall plain_string (sr_CompileErrors res))
    (Hts : Forall plain_tenant ts) (Hst : plain_string id /\ plain_string (ts_MemoryUsage st)) (Hm : plain_string (me_GCStatistics m)) :
  aligned 1 (simulation_rows res) (PrintSimulationTable res) /\ aligned 2 (tenants_rows ts) (PrintTenantsTable ts)
  /\ aligned 1 (tenant_status_rows id st) (PrintTenantStatusTable id st) /\ aligned 1 (metrics_rows m) (PrintMetricsTable m).
Proof.
  destruct Hres as (?&?&?&?&?), Hst as [??]. split_and!; (apply table_aligned; [lia|]).
  - by apply simulation_ok.
  - by apply tenants_ok.
  - by apply status_ok.
  - by apply metrics_ok.
Qed.

Definition plain_component (kc : string * (string * string)) : Prop := plain_string kc.1 /\ plain_string kc.2.1 /\ plain_string kc.2.2.
(** The health of the plane is two tables, each with its columns, with an empty line between them. *)
Theorem health_table_aligns (status : string) (components : list (string * (string * string)))
    (Hstatus : plain_string status) (Hcomponents : Forall plain_component components) :
  exists above below, PrintHealthTable status components = above ++ 10 :: below
    /\ aligned 1 [[text "Overall Health:"; text status]] above /\ aligned 2 (health_rows components) below.
Proof.
  assert (table_ok 1 [[text "Overall Health:"; text status]]) as [Hl1 Hp1]%table_ok_rows by (apply Forall_cons_2; [plain_row|apply Forall_nil_2]).
  assert (table_ok 2 (health_rows components)) as [Hl2 Hp2]%table_ok_rows.
  { constructor; [plain_row|]. apply rows_ok. eapply Forall_impl; [exact Hcomponents|]. intros kc (?&?&?). plain_row. }
  eexists _, _. split; [|split; apply layout_aligned]. unfold PrintHealthTable.
  unfold health_text. rewrite <- (app_nil_r (health_rows components ≫= row_text)).
  apply Forall_cons in Hp1 as [[Hne Hp] _]. rewrite write_row by done. cbn [app tab_write Z.eqb Pos.eqb orb]. rewrite write_rows by done.
  cbn [tab_write]. rewrite <- app_assoc.
  apply (print_two 1 [[text "Overall Health:"; text status]]); [lia|lia|done|done].
Qed.

Definition noon : civil := mkCivil 2026 7 4 12 0 0 0 0.
Definition sample_policy : Policy :=
  mkPolicyRow "policy-1" "acme" "permit" ("permit (" +:+ String (Ascii.ascii_of_nat 10) "principal);") 2 "ACTIVE" noon noon.

Lemma policy_tables_align_witness :
  aligned 4 (policies_rows [sample_policy]) (PrintPoliciesTable [sample_policy])
  /\ (forall p, p ∈ [sample_policy] -> aligned 1 (detail_rows p) (PrintPolicyDetailTable p)).
Proof.
  apply policy_tables_align. constructor; [|constructor]. unfold plain_policy.
  split; [by apply plain_bool|]. split; [by apply plain_bool|]. split; [by apply plain_bool|]. split; [by apply plain_bool|].
  apply flat_text_bool. reflexivity.
Defined.
Lemma answer_tables_align_witness :
  aligned 1 (simulation_rows (mkSimulateResp "DENY" "none" ["p1"%string; "p2"%string] [] "acme"))
    (PrintSimulationTable (mkSimulateResp "DENY" "none" ["p1"%string; "p2"%string] [] "acme")).
Proof.
  apply (answer_tables_align (mkSimulateResp "DENY" "none" ["p1"%string; "p2"%string] [] "acme") [] "acme" (mkTenantStatus true false "1 MB" 3 noon)
           (mkMetrics (mkFloat64 false 5 (-3)) (mkFloat64 false 5 (-3)) (mkFloat64 false 5 (-3)) (mkFloat64 false 5 (-3)) (mkFloat64 false 5 (-3)) 7 "")).
  - cbn. split; [by apply plain_bool|]. split; [by apply plain_bool|]. split; [by apply plain_bool|].
    split; [|constructor]. repeat (apply Forall_cons_2; [by apply plain_bool|]). apply Forall_nil_2.
  - constructor.
  - split; by apply plain_bool.
  - by apply plain_bool.
Defined.

Lemma health_table_aligns_witness :
  exists above below, PrintHealthTable "healthy" [("postgresql", ("healthy", ""))]%string = above ++ 10 :: below
    /\ aligned 1 [[text "Overall Health:"; text "healthy"]] above /\ aligned 2 (health_rows [("postgresql", ("healthy", ""))]%string) below.
Proof.
  apply health_table_aligns; [by apply plain_bool|]. constructor; [|constructor]. split_and!; by apply plain_bool.
Defined.

Example policies_sample : of_bytes (PrintPoliciesTable [sample_policy])
  = ("POLICY ID  EFFECT  STATUS  VERSION  UPDATED AT" +:+ String (Ascii.ascii_of_nat 10)
     ("policy-1   permit  ACTIVE  2        2026-07-04T12:00:00Z" +:+ String (Ascii.ascii_of_nat 10) ""))%string.
Proof. vm_compute. reflexivity. Qed.

(** A clause of two lines breaks the table of the matched policies: its second line is a line of its own, at the left margin, while the
    details of a policy print the same text on one line. *)
Theorem explain_prints_clause_raw :
  (exists before after, PrintExplainTable (mkExplainResp "ALLOW" "" [mkMatched "p1" "permit" (po_PolicyText sample_policy)]) (text "1ms")
     = before ++ [10] ++ text "principal);" ++ after)
  /\ (exists before after, PrintPolicyDetailTable sample_policy = before ++ text "permit ( principal);" ++ after).
Proof.
  split.
  - exists (take 128 (PrintExplainTable (mkExplainResp "ALLOW" "" [mkMatched "p1" "permit" "permit ("]) (text "1ms"))), [10].
    vm_compute. reflexivity.
  - exists (take (length (PrintPolicyDetailTable sample_policy) - 21) (PrintPolicyDetailTable sample_policy)), [10].
    vm_compute. reflexivity.
Qed.
