(* ===== verification/PectlFacts.v ===== *)
(** * Theorems about pectl

    What a command sends reaches the endpoint it names with the identifiers it
    was given; the server decodes what was encoded, with the exceptions stated;
    a request is repeated only after a failure that may pass, a bounded number
    of times, and its result is that of its last exchange. *)

From S2P Require Import Prelude GoStr GoJson GoJsonFacts GoCrypto GoUrl Routes Ast Dag Trie Evaluator Decision.
From S2P Require Import Parser Compiler Engine Simulate Sync Server Storage HttpServer GoTime AuditRecord AuditRecordFacts PectlClient PectlCommands.
From stdpp Require Import options.
Local Open Scope Z_scope.

(** ** Bodies *)

(** A handler decodes the value that was encoded. *)
Lemma decode_body_text v : json_ok v -> json_depth v <= max_nesting -> decode_body (json_text v) = Some v.
Proof.
  intros Hok Hd. unfold decode_body, json_text. rewrite runes_of_encode by by apply json_runes_scalar.
  pose proof (json_reads v Hok (2 * length (json_runes v) + 2)%nat 0 []) as Hr. rewrite app_nil_r in Hr.
  rewrite Hr; [done| |lia|done]. pose proof (json_size_runes v Hok). lia.
Qed.

Definition valid_texts (l : list string) : Prop := Forall (fun s => utf8_valid s = true) l.

Ltac object_ok := apply json_ok_object; repeat constructor; cbn; auto.

(** The server reads from the bodies of [policy create], [policy update],
    [check] and [explain] the values the user gave. *)
Theorem requests_understood (effect text tenant subject action resource : string)
    (Hutf8 : valid_texts [effect; text; tenant; subject; action; resource]) :
  (decode_body (json_text (create_json effect text)) ≫= into_create_request) = Some (effect, text)
  /\ (decode_body (json_text (update_json text)) ≫= into_update_request) = Some text
  /\ (decode_body (json_text (decision_json tenant subject action resource)) ≫= into_decision_request)
     = Some (mkDecisionRequest tenant subject action resource ∅).
Proof.
  unfold valid_texts in Hutf8. rewrite !Forall_cons in Hutf8. destruct Hutf8 as (? & ? & ? & ? & ? & ? & _). split_and!.
  - rewrite decode_body_text; [done|object_ok|vm_compute; discriminate].
  - rewrite decode_body_text; [done|object_ok|vm_compute; discriminate].
  - rewrite decode_body_text; [done|object_ok|vm_compute; discriminate].
Qed.

Definition valid_map (context : option (gmap string string)) : Prop :=
  map_Forall (fun k v => utf8_valid k = true /\ utf8_valid v = true) (default ∅ context).

Lemma context_ok context : valid_map context -> json_ok (context_json context).
Proof. destruct context as [m|]; [|done]. apply json_map_ok. Qed.

Lemma context_depth context : json_depth (context_json context) <= 1.
Proof.
  destruct context as [m|]; [|cbn; lia]. unfold context_json, json_map. cbn [json_depth].
  generalize (sort_strings (map_to_list m).*1). intros ks.
  assert (fold_right (fun (kv : string * json) d => Z.max (json_depth kv.2) d) 0
    ((fun k => (k, JString (default ""%string (m !! k)))) <$> ks) = 0) as ->; [|lia].
  induction ks as [|k ks IH]; [done|]. cbn. by rewrite IH.
Qed.

Lemma context_decodes context : into_map_field None (context_json context) = Some context.
Proof.
  destruct context as [m|]; [|done]. unfold context_json, json_map. cbn [into_map_field].
  destruct (into_map_entries (fun k => default ""%string (m !! k)) (sort_strings (map_to_list m).*1) ∅) as (m' & Hm & Hl).
  change (default ∅ None) with (∅ : gmap string string). rewrite Hm. cbn [mbind option_bind]. do 2 f_equal.
  apply map_eq. intros k. rewrite Hl. unfold sort_strings. destruct (decide _) as [Hk|Hk]; rewrite merge_sort_Permutation in Hk.
  - apply list_elem_of_fmap in Hk as ([k' v] & -> & Hk%elem_of_map_to_list). cbn [fst]. by rewrite Hk.
  - rewrite lookup_empty. destruct (m !! k) as [v|] eqn:E; [|done]. exfalso. apply Hk.
    apply list_elem_of_fmap. exists (k, v). split; [done|]. by apply elem_of_map_to_list.
Qed.

(** [pectl simulate] sends its draft in a member the handler does not read: the
    server decodes the request, context included, without a policy, and
    whatever the draft and [--include-active] are it evaluates the same thing. *)
Theorem simulate_ignores_draft `{UnicodeTable} (subject action resource tenant : string) (context : option (gmap string string))
    (draft : option string) (includeActive canceled : bool) (h : Heap) (trie : option HTrie)
    (Hutf8 : valid_texts [subject; action; resource; default ""%string draft]) (Hcontext : valid_map context) :
  let body := json_text (simulate_json subject action resource context draft includeActive) in
  let request := mkSimulateRequest "" subject action resource (default ∅ context) in
  (decode_body body ≫= into_simulate_request) = Some request
  /\ handleSimulate canceled h trie tenant (decode_body body ≫= into_simulate_request)
     = (if bool_decide (tenant = ""%string) then (h, fail_with 400)
        else let '(h', r) := SimulateDecision canceled h trie tenant None subject action resource (default ∅ context) in
             (h', Respond 200 (BodySimulated r false tenant))).
Proof.
  cbv zeta. unfold valid_texts in Hutf8. rewrite !Forall_cons in Hutf8. destruct Hutf8 as (? & ? & ? & ? & _).
  assert ((decode_body (json_text (simulate_json subject action resource context draft includeActive)) ≫= into_simulate_request)
          = Some (mkSimulateRequest "" subject action resource (default ∅ context))) as Hd.
  { rewrite decode_body_text.
    - cbn [mbind option_bind into_simulate_request simulate_json].
      cbn [str_member app].
      assert (forall kvs, decode_field simulate_names "context" into_map_field None
        (("subject", JString subject) :: ("action", JString action) :: ("resource", JString resource)
         :: ("context", context_json context) :: kvs)%string = decode_field simulate_names "context" into_map_field context kvs) as Hc.
      { intros kvs. decode_skips. apply decode_take; [vm_compute; reflexivity|apply context_decodes]. }
      rewrite Hc. done.
    - unfold simulate_json. apply json_ok_object. cbn [str_member app]. rewrite !Forall_cons. cbn [fst snd json_ok].
      pose proof (context_ok context Hcontext). split_and!; try done. destruct draft as [t|]; [|done].
      apply json_ok_array, Forall_singleton, json_ok_object. by repeat constructor.
    - unfold simulate_json. cbn [str_member app json_depth fold_right snd]. pose proof (context_depth context).
      assert (json_depth (draft_json draft) <= 2) by (destruct draft; vm_compute; discriminate). unfold max_nesting. lia. }
  split; [done|]. rewrite Hd. unfold handleSimulate, simulation_candidate.
  case_bool_decide; [done|]. cbn [sr_PolicyText sr_Subject sr_Action sr_Resource sr_Context].
  by rewrite bool_decide_true by done.
Qed.

(** ** Retries *)

Section Retries.
Context `{UrlAuthority} {W A : Type}.
Variable exchange : HttpRequest -> W -> W * Exchange.
Variable done_before : nat -> bool.
Variable unmarshal : string -> option A.

(** [n] exchanges of the same request, one after the other. *)
Fixpoint play (req : HttpRequest) (n : nat) (w : W) : W * list Exchange :=
  match n with
  | O => (w, [])
  | S n' => let '(w1, x) := exchange req w in let '(w2, xs) := play req n' w1 in (w2, x :: xs)
  end.

(** A failure that may pass: of the network, or a status of 500 and above. *)
Definition passing (x : Exchange) : bool :=
  match x with DoFailed | BodyFailed => true | Answered status _ => 500 <=? status end.
Definition exchange_error (x : Exchange) : ClientError :=
  match x with DoFailed => TransportFailed | BodyFailed => ReadFailed | Answered status body => answer_error status body end.
(** What an answer means that is not repeated. *)
Definition final_result (x : Exchange) : result ClientError (option A) :=
  match x with
  | Answered status body =>
      if is_success status then
        if bool_decide (body = ""%string) then Ok None
        else match unmarshal body with Some a => Ok (Some a) | None => Err DecodeFailed end
      else Err (answer_error status body)
  | x => Err (exchange_error x)
  end.

Lemma attempt_once_spec c req w :
  attempt_once exchange unmarshal c req w
  = let '(w', x) := exchange req w in (w', if passing x then inl (exchange_error x) else inr (final_result x)).
Proof.
  unfold attempt_once. destruct (exchange req w) as [w' [| |status body]]; try done. cbn. unfold is_success.
  destruct (Z.leb_spec 500 status), (Z.ltb_spec status 500), (Z.leb_spec 200 status), (Z.ltb_spec status 300); cbn; try lia; done.
Qed.

Fixpoint schedule (backoff : Z) (n : nat) : list Z :=
  match n with O => [] | S n' => backoff :: schedule (next_backoff backoff) n' end.

(** How a request that met the exchanges [xs] ends. *)
Inductive ends_with (left attempt : nat) (lastErr : option ClientError) : list Exchange -> result ClientError (option A) -> Prop :=
| EndsAnswered ys x : Forall (fun y => passing y = true) ys -> passing x = false -> (length ys < left)%nat ->
    ends_with left attempt lastErr (ys ++ [x]) (final_result x)
| EndsExhausted xs : Forall (fun y => passing y = true) xs -> length xs = left ->
    ends_with left attempt lastErr xs (Err (RetriesExhausted (match last xs with Some x => Some (exchange_error x) | None => lastErr end)))
| EndsDone xs : Forall (fun y => passing y = true) xs -> (length xs < left)%nat -> (0 < attempt + length xs)%nat ->
    done_before (attempt + length xs) = true -> ends_with left attempt lastErr xs (Err ContextDone).

Lemma ends_cons left attempt lastErr x xs r : passing x = true ->
  ends_with left (S attempt) (Some (exchange_error x)) xs r -> ends_with (S left) attempt lastErr (x :: xs) r.
Proof.
  intros Hx [ys y Hys Hy Hl|ys Hys Hl|ys Hys Hl H0 Hd].
  - change (x :: ys ++ [y]) with ((x :: ys) ++ [y]). apply EndsAnswered; [by constructor|done|cbn; lia].
  - assert (match last ys with Some x0 => Some (exchange_error x0) | None => Some (exchange_error x) end
      = match last (x :: ys) with Some x0 => Some (exchange_error x0) | None => lastErr end) as ->.
    { destruct ys as [|y ys] using rev_ind; [done|]. change (x :: ys ++ [y]) with ((x :: ys) ++ [y]). by rewrite !last_snoc. }
    apply EndsExhausted; [by constructor|cbn; lia].
  - apply EndsDone; [by constructor|cbn; lia|cbn; lia|]. cbn. by rewrite Nat.add_succ_r.
Qed.

Lemma attempts_spec c method path body req left : forall attempt backoff lastErr w,
  new_request c method path body = Some req ->
  exists n w' xs r,
    attempts exchange done_before unmarshal c method path body left attempt backoff lastErr w
      = (w', r, schedule backoff (if (0 <? attempt)%nat then n else pred n))
    /\ play req n w = (w', xs) /\ length xs = n /\ ends_with left attempt lastErr xs r.
Proof.
  induction left as [|left IH]; intros attempt backoff lastErr w Hreq.
  { exists 0%nat, w, [], (Err (RetriesExhausted lastErr)). split_and!; [by destruct (0 <? attempt)%nat|done..|].
    by apply (EndsExhausted 0 attempt lastErr []). }
  cbn [attempts]. rewrite Hreq, attempt_once_spec.
  destruct ((0 <? attempt)%nat && done_before attempt) eqn:Ed.
  { apply andb_true_iff in Ed as [Ha Hd]. exists 0%nat, w, [], (Err ContextDone). split_and!; [by rewrite Ha|done..|].
    apply EndsDone; [done|cbn; lia| |cbn; by rewrite Nat.add_0_r]. apply Nat.ltb_lt in Ha. cbn. lia. }
  destruct (exchange req w) as [w1 x] eqn:Ex. destruct (passing x) eqn:Ep.
  - destruct (IH (S attempt) (if (0 <? attempt)%nat then next_backoff backoff else backoff) (Some (exchange_error x)) w1 Hreq)
      as (n & w' & xs & r & Hat & Hpl & Hlen & Hend). rewrite Hat.
    exists (S n), w', (x :: xs), r. split_and!.
    + change (0 <? S attempt)%nat with true. by destruct (0 <? attempt)%nat.
    + cbn. by rewrite Ex, Hpl.
    + cbn. by rewrite Hlen.
    + by apply ends_cons.
  - exists 1%nat, w1, [x], (final_result x). split_and!.
    + by destruct (0 <? attempt)%nat.
    + cbn. by rewrite Ex.
    + done.
    + apply (EndsAnswered _ _ _ [] x); [done|done|cbn; lia].
Qed.

Lemma schedule_bounded n : forall b, 0 <= b <= maxBackoff -> Forall (fun d => 0 <= d <= maxBackoff) (schedule b n).
Proof.
  induction n as [|n IH]; intros b Hb; [constructor|]. constructor; [done|]. apply IH. unfold next_backoff, maxBackoff in *. lia.
Qed.
End Retries.

(** C33: A request is sent again only after a failure of the network or a status of
    500 and above, at most [maxRetries] times, after waits that double up to
    two seconds; any other answer ends it, and its result is that of the last
    exchange, or the end of the context during a wait.  A client of [NewClient]
    sends four times at most and waits 700 milliseconds in all at most. *)
Theorem request_retries `{UrlAuthority} {W A : Type} (exchange : HttpRequest -> W -> W * Exchange) (done_before : nat -> bool)
    (unmarshal : string -> option A) (c : Client) (method path : string) (body : option string) (req : HttpRequest) (w : W)
    (Hreq : new_request c method path body = Some req) :
  exists n w' xs r,
    Request exchange done_before unmarshal c method path (Some <$> body) w = (w', r, schedule backoff_start (pred n))
    /\ play exchange req n w = (w', xs) /\ length xs = n /\ (1 <= n <= S (cl_maxRetries c))%nat
    /\ ends_with done_before unmarshal (S (cl_maxRetries c)) 0 None xs r
    /\ Forall (fun d => 0 <= d <= maxBackoff) (schedule backoff_start (pred n))
    /\ forall base token timeout, c = NewClient base token timeout ->
         (n <= 4)%nat /\ foldr Z.add 0 (schedule backoff_start (pred n)) <= 700000000.
Proof.
  assert (mjoin (Some <$> body) = body) as Hb by (by destruct body).
  destruct (attempts_spec exchange done_before unmarshal c method path body req (S (cl_maxRetries c)) 0 backoff_start None w Hreq)
    as (n & w' & xs & r & Hat & Hpl & Hlen & Hend).
  assert (1 <= n <= S (cl_maxRetries c))%nat as Hn.
  { destruct Hend as [ys x _ _ Hl|ys _ Hl|ys _ Hl H0 _]; subst; rewrite ?length_app; cbn in *; lia. }
  exists n, w', xs, r. split_and!; try done; try lia.
  - unfold Request. destruct body as [b|]; cbn [fmap option_fmap option_map]; exact Hat.
  - apply schedule_bounded. unfold backoff_start, maxBackoff. lia.
  - intros base token timeout ->. cbn in Hn. split; [lia|].
    destruct n as [|[|[|[|[|n]]]]]; try lia; vm_compute; discriminate.
Qed.

(** ** Routes *)

(** The identifiers a command puts into its path. *)
Definition path_ids (cmd : Command) : list string :=
  match cmd with
  | PolicyCreate t _ _ | PolicyList t | SimulateCmd t _ _ _ _ _ _ | TenantGet t | TenantStatus t => [t]
  | PolicyUpdate t p _ | PolicyPublish t p | PolicyDelete t p | PolicyGet t p => [t; p]
  | CheckCmd _ _ _ _ | ExplainCmd _ _ _ _ | TenantList | MetricsCmd | HealthCmd => []
  end.

(** The handler a command is for, where the control plane has one. *)
Definition command_endpoint (cmd : Command) : option Endpoint :=
  match cmd with
  | PolicyCreate _ _ _ => Some EpCreatePolicy
  | PolicyUpdate _ _ _ => Some EpUpdatePolicy
  | PolicyPublish _ _ => Some EpPublishPolicy
  | PolicyDelete _ _ => Some EpDeletePolicy
  | SimulateCmd _ _ _ _ _ _ _ => Some EpSimulate
  | CheckCmd _ _ _ _ => Some EpDecisions
  | ExplainCmd _ _ _ _ => Some EpExplain
  | HealthCmd => Some EpHealth
  | PolicyList _ | PolicyGet _ _ | TenantList | TenantGet _ | TenantStatus _ | MetricsCmd => None
  end.

Definition command_segments (cmd : Command) : list string :=
  ["api"; "v1"]%string ++
  match cmd with
  | PolicyCreate t _ _ | PolicyList t => ["tenants"; t; "policies"]
  | PolicyUpdate t p _ | PolicyDelete t p | PolicyGet t p => ["tenants"; t; "policies"; p]
  | PolicyPublish t p => ["tenants"; t; "policies"; p; "publish"]
  | SimulateCmd t _ _ _ _ _ _ => ["tenants"; t; "simulate"]
  | CheckCmd _ _ _ _ => ["decisions"]
  | ExplainCmd _ _ _ _ => ["decisions"; "explain"]
  | TenantList => ["tenants"]
  | TenantGet t => ["tenants"; t]
  | TenantStatus t => ["tenants"; t; "status"]
  | MetricsCmd => ["metrics"]
  | HealthCmd => ["health"]
  end%string.

Lemma command_path cmd : (command_target cmd).2 = slash_join (command_segments cmd).
Proof.
  apply go_bytes_inj. destruct cmd; unfold command_target, command_segments, policies_path, policy_path, tenant_path, tenants_path;
    cbn [snd slash_join foldr app]; rewrite !go_bytes_app, <- ?app_assoc, ?app_nil_r; reflexivity.
Qed.

Lemma command_segments_plain cmd : Forall plain_text (path_ids cmd) -> Forall plain_text (command_segments cmd).
Proof.
  assert (forall l, forallb plain_textb l = true -> Forall plain_text l) as Hfix.
  { intros l Hl. rewrite forallb_forall in Hl. apply Forall_forall. intros s Hs. apply plain_text_true, Hl. by apply list_elem_of_In. }
  intros Hids. unfold command_segments. apply Forall_app. split; [by apply Hfix|].
  destruct cmd; cbn [path_ids] in Hids; rewrite ?Forall_cons in Hids; rewrite ?Forall_cons; destruct_and?; split_and!; try done;
    by apply plain_text_true.
Qed.

(** The handler a command reaches. *)
Definition command_dispatch (cmd : Command) : Dispatch Endpoint :=
  match command_endpoint cmd with
  | Some ep => Routed ep (path_ids cmd)
  | None => match cmd with PolicyList _ | PolicyGet _ _ => MethodNotAllowed | _ => PageNotFound end
  end.

Lemma command_routed `{UrlAuthority} (c : Client) (cmd : Command) (body : option string) :
  (forall rest, url_rest (cl_baseURL c +:+ "/" +:+ rest) = Some ("/" +:+ rest)) -> Forall plain_text (path_ids cmd) ->
  exists req, new_request c (command_target cmd).1 (command_target cmd).2 body = Some req
    /\ dispatch ConfigureMux (hr_method req) (hr_path req) = command_dispatch cmd.
Proof.
  intros Hauthority Hplain.
  pose proof (command_segments_plain cmd Hplain) as Hsegs. assert (command_segments cmd <> []) as Hne by done.
  destruct (plain_path _ Hne Hsegs) as (Hreq & _ & _). unfold new_request. rewrite command_path.
  assert (exists rest, slash_join (command_segments cmd) = "/" +:+ rest) as [rest Hrest] by (by eexists).
  rewrite Hrest, Hauthority. cbn [mbind option_bind]. rewrite <- Hrest, Hreq. cbn [mbind option_bind].
  eexists. split; [done|]. cbn [hr_method hr_path]. rewrite dispatch_plain by done.
  assert (Forall (fun s => bool_decide (s = "/"%string) = false) (path_ids cmd)) as Hslash.
  { eapply Forall_impl; [exact Hplain|]. intros s (_ & _ & _ & Hs). apply bool_decide_eq_false. intros ->.
    by apply Forall_cons in Hs as [? _]. }
  clear -Hslash. destruct cmd; cbn [path_ids] in Hslash; rewrite ?Forall_cons in Hslash; destruct_and?;
    cbn; repeat match goal with E : bool_decide _ = false |- _ => rewrite ?E; clear E end; reflexivity.
Qed.

(** What else a request holds. *)
Lemma new_request_fields `{UrlAuthority} c method path body req : new_request c method path body = Some req ->
  default ""%string (hr_authorization req) = (if bool_decide (cl_token c = ""%string) then "" else "Bearer " +:+ cl_token c)
  /\ hr_body req = body.
Proof.
  unfold new_request. intros Hreq. apply bind_Some in Hreq as (rest & _ & Hreq). apply bind_Some in Hreq as (p & _ & [= <-]).
  cbn. by case_bool_decide.
Qed.

(** Every command of pectl whose identifiers are plain reaches, through the
    client's URL and the server's mux, the handler it is for with exactly those
    identifiers; the six commands that only read policies, tenants and metrics
    reach none: the control plane answers them with 405 or 404. *)
Theorem command_reaches_endpoint `{UrlAuthority} (c : Client) (cmd : Command) (body : option string)
    (Hauthority : forall rest, url_rest (cl_baseURL c +:+ "/" +:+ rest) = Some ("/" +:+ rest))
    (Hplain : Forall plain_text (path_ids cmd)) :
  exists req, new_request c (command_target cmd).1 (command_target cmd).2 body = Some req
    /\ dispatch ConfigureMux (hr_method req) (hr_path req)
       = match command_endpoint cmd with
         | Some ep => Routed ep (path_ids cmd)
         | None => match cmd with PolicyList _ | PolicyGet _ _ => MethodNotAllowed | _ => PageNotFound end
         end.
Proof. by apply command_routed. Qed.

(** ** Answers *)

Lemma of_bytes_app a b : of_bytes (a ++ b) = of_bytes a +:+ of_bytes b.
Proof.
  unfold of_bytes, of_chars. rewrite fmap_app. induction (ascii_of <$> a) as [|x l IH]; [done|]. cbn. by rewrite IH.
Qed.
Lemma string_of_runes_app a b : string_of_runes (a ++ b) = string_of_runes a +:+ string_of_runes b.
Proof. unfold string_of_runes. by rewrite fmap_app, join_app, of_bytes_app. Qed.
Lemma string_of_runes_cons r rs : string_of_runes (r :: rs) = string_of_runes [r] +:+ string_of_runes rs.
Proof. exact (string_of_runes_app [r] rs). Qed.

Lemma string_of_ascii bs : Forall (fun b => 0 <= b < 128) bs -> string_of_runes bs = of_bytes bs.
Proof.
  intros Hb. unfold string_of_runes. f_equal. induction Hb as [|b bs Hb _ IH]; [done|]. cbn. rewrite encode_rune1 by done.
  cbn. f_equal. exact IH.
Qed.

Lemma unreserved_ascii b : unreserved b = true -> 0 <= b < 128.
Proof. unfold unreserved, alphanumeric, is_digit_byte. intros Hb. bool_to_prop. lia. Qed.

Lemma chunks_ascii bs : Forall (fun b => 0 <= b < 128) bs -> utf8_chunks bs = (fun b => (b, [b])) <$> bs.
Proof.
  induction 1 as [|b bs Hb _ IH]; [done|]. cbn [utf8_chunks]. destruct (Z.ltb_spec b 128); [|lia]. csimpl. by rewrite IH.
Qed.

Lemma escape_plain b : unreserved b = true -> escape_chunk (b, [b]) = [b].
Proof.
  intros Hb. pose proof (unreserved_ascii b Hb) as Hr.
  assert (forallb (fun b => negb (unreserved b) || bool_decide (escape_chunk (b, [b]) = [b])) (seqZ 0 128) = true) as Hall by (vm_compute; reflexivity).
  rewrite forallb_forall in Hall. specialize (Hall b ltac:(apply list_elem_of_In, elem_of_seqZ; lia)).
  rewrite Hb in Hall. by apply bool_decide_eq_true in Hall.
Qed.

(** An identifier of unreserved characters needs no escape. *)
Lemma quote_plain s : Forall (fun b => unreserved b = true) (go_bytes s) -> string_of_runes (quote s) = raw_string s.
Proof.
  intros Hs. assert (Forall (fun b => 0 <= b < 128) (go_bytes s)) as Ha by (eapply Forall_impl; [exact Hs|apply unreserved_ascii]).
  unfold quote. rewrite chunks_ascii by done.
  assert (((fun b => (b, [b])) <$> go_bytes s) ≫= escape_chunk = go_bytes s) as ->.
  { induction Hs as [|b bs Hb _ IH]; [done|]. apply Forall_cons in Ha as [Hr Ha]. csimpl. rewrite IH by done.
    by rewrite escape_plain. }
  rewrite string_of_runes_cons, string_of_runes_app, (string_of_ascii (go_bytes s)) by done. by rewrite of_bytes_go_bytes.
Qed.

Definition created_answer (id : string) : json :=
  JObject (str_member "id" id ++ str_member "policy_id" id ++ str_member "status" "DRAFT" ++ str_member "message" created_message).
Definition published_answer (version : Z) : json :=
  JObject (str_member "status" "ACTIVE" ++ [("version"%string, json_int version)] ++ str_member "message" published_message).

(** The texts written by hand are those of JSON values. *)
Lemma created_text_json id : Forall (fun b => unreserved b = true) (go_bytes id) -> created_text id = json_text (created_answer id).
Proof.
  intros Hid. unfold json_text, created_answer. cbn [json_runes str_member app map join_runes fst snd].
  repeat rewrite ?string_of_runes_app, ?(string_of_runes_cons _ (_ :: _)), ?(string_of_runes_cons _ (_ ++ _)),
    ?(string_of_runes_cons 58 (quote id)), ?(quote_plain id Hid).
  apply go_bytes_inj. unfold created_text, raw_object, raw_member. cbn [join]. rewrite !go_bytes_app.
  rewrite <- !app_assoc. reflexivity.
Qed.

Lemma published_text_json version : - 2 ^ 63 <= version < 2 ^ 64 -> published_text version = json_text (published_answer version).
Proof.
  intros Hver. unfold json_text, published_answer. cbn [json_runes str_member app map join_runes fst snd json_int].
  assert (string_of_runes (rune_lit (FormatInt version)) = FormatInt version) as Hv.
  { unfold rune_lit. rewrite string_of_ascii; [apply of_bytes_go_bytes|]. by apply number_ok_FormatInt. }
  repeat rewrite ?string_of_runes_app, ?(string_of_runes_cons _ (_ :: _)), ?(string_of_runes_cons _ (_ ++ _)),
    ?(string_of_runes_cons 58 (rune_lit _)), ?Hv.
  apply go_bytes_inj. unfold published_text, raw_object, raw_member. cbn [join]. rewrite !go_bytes_app.
  rewrite <- !app_assoc. reflexivity.
Qed.

Definition obligations_member (v : option json) : list (string * json) :=
  match v with None => [] | Some v => [("obligations"%string, v)] end.
Definition obligations_ok (v : option json) : Prop :=
  match v with None => True | Some v => json_ok v /\ json_depth v < max_nesting end.

Lemma obligations_object members v : Forall (fun kv => utf8_valid kv.1 = true /\ json_ok kv.2) members ->
  Forall (fun kv => json_depth kv.2 < max_nesting) members -> obligations_ok v ->
  json_ok (JObject (members ++ obligations_member v)) /\ json_depth (JObject (members ++ obligations_member v)) <= max_nesting.
Proof.
  intros Hm Hd Hv. split.
  - apply json_ok_object, Forall_app. split; [done|]. destruct v as [v|]; [|done]. apply Forall_singleton. by destruct Hv.
  - cbn [json_depth].
    assert (fold_right (fun kv d => Z.max (json_depth kv.2) d) 0 (members ++ obligations_member v) < max_nesting); [|lia].
    induction Hd as [|kv members Hkv _ IH]; cbn [app fold_right].
    + destruct v as [v|]; [|done]. destruct Hv as [_ Hv]. cbn [obligations_member fold_right snd]. unfold max_nesting in *. lia.
    + apply Forall_cons in Hm as [_ Hm]. specialize (IH Hm). lia.
Qed.

Lemma created_read id : Forall (fun b => unreserved b = true) (go_bytes id) -> utf8_valid id = true ->
  (json_parse (created_text id) ≫= into_create_resp) = Some (mkCreateResp id "DRAFT").
Proof.
  intros Hid Hutf8. rewrite created_text_json by done. rewrite json_round_trip; [done|object_ok|vm_compute; discriminate].
Qed.

(** The command line shows what the server answered to a creation, an update, a
    deletion and a check. *)
Theorem answers_read (id decision matched : string) (obligations : option json)
    (Hid : Forall (fun b => unreserved b = true) (go_bytes id)) (Hutf8 : valid_texts [id; decision; matched])
    (Hobligations : obligations_ok obligations) :
  (json_parse (created_text id) ≫= into_create_resp) = Some (mkCreateResp id "DRAFT")
  /\ (json_parse updated_text ≫= into_update_resp) = Some "DRAFT"%string
  /\ (json_parse deleted_text ≫= into_delete_resp) = Some {["message"%string := deleted_message]}
  /\ (json_parse (json_text (decision_answer decision matched (obligations_member obligations))) ≫= into_decision_resp)
     = Some (mkDecisionResp decision matched zero_time).
Proof.
  unfold valid_texts in Hutf8. rewrite !Forall_cons in Hutf8. destruct Hutf8 as (? & ? & ? & _). split_and!.
  - by apply created_read.
  - vm_compute. reflexivity.
  - vm_compute. reflexivity.
  - unfold decision_answer, opt_member. rewrite app_assoc.
    destruct (obligations_object (str_member "decision" decision ++ (if bool_decide (matched = ""%string) then []
      else [("matched_policy_id"%string, JString matched)])) obligations) as [Hok Hd];
      [by case_bool_decide; repeat constructor|by case_bool_decide; repeat constructor|done|].
    rewrite json_round_trip by done.
    cbn [mbind option_bind]. case_bool_decide; subst; destruct obligations; reflexivity.
Qed.

(** What it cannot show: the version of a publication, which the server names
    otherwise, is always zero; an explanation with a matched policy does not
    decode at all, because the server lists identifiers where the client
    expects records; and a simulated decision is always empty. *)
Theorem answers_misread (version : Z) (decision reason matched : string) (others : list string) (obligations : option json)
    (Hversion : 1 <= version <= max_int32) (Hutf8 : valid_texts (decision :: reason :: matched :: others))
    (Hobligations : obligations_ok obligations) :
  (json_parse (published_text version) ≫= into_publish_resp) = Some (mkPublishResp "" "ACTIVE" 0 zero_time false)
  /\ (json_parse (json_text (explain_answer decision reason (Some (matched :: others)) (obligations_member obligations)))
        ≫= into_explain_resp) = None
  /\ (json_parse (simulated_text "ALLOW" "ALLOW_EXPLICIT_PERMIT" (Some ["p-1"%string]) None "t") ≫= into_simulate_resp)
     = Some (mkSimulateResp "" "ALLOW_EXPLICIT_PERMIT" ["p-1"%string] [] "t").
Proof.
  unfold valid_texts in Hutf8. rewrite !Forall_cons in Hutf8. destruct Hutf8 as (? & ? & ? & Hothers). split_and!.
  - assert (- 2 ^ 63 <= version < 2 ^ 64) as Hr by (unfold max_int32 in *; lia).
    rewrite published_text_json by done. rewrite json_round_trip; [reflexivity| |vm_compute; discriminate].
    apply json_ok_object. unfold published_answer, json_int, str_member. cbn [app]. rewrite !Forall_cons; cbn [fst snd json_ok].
    pose proof (number_ok_FormatInt version Hr) as Hn. split_and!; try done; apply Hn.
  - unfold explain_answer. rewrite !app_assoc.
    destruct (obligations_object ((str_member "decision" decision ++ str_member "final_reason" reason)
      ++ [("matched_policies"%string, JArray (JString <$> matched :: others))]) obligations) as [Hok Hd]; [| |done|].
    + unfold str_member. cbn [app]. rewrite !Forall_cons. cbn [fst snd json_ok].
      split_and!; try done. apply json_ok_array, Forall_fmap. by constructor.
    + repeat constructor. cbn [snd json_depth fmap list_fmap fold_right].
      assert (fold_right (fun x d => Z.max (json_depth x) d) 0 (JString <$> others) = 0) as ->; [|done].
      clear. induction others as [|o others IH]; [done|]. cbn. by rewrite IH.
    + rewrite json_round_trip by done. cbn [mbind option_bind into_explain_resp into_struct str_member app].
      assert (forall kvs, decode_field ["decision"; "final_reason"; "matched_policies"; "latency"]%string "matched_policies"
        into_matched_list [] (("decision", JString decision) :: ("final_reason", JString reason)
          :: ("matched_policies", JArray (JString <$> matched :: others)) :: kvs)%string = None) as Hm.
      { intros kvs. decode_skips. apply decode_fail; [vm_compute; reflexivity|reflexivity]. }
      rewrite Hm. by destruct (decode_field _ "decision" _ _ _), (decode_field _ "final_reason" _ _ _).
  - vm_compute. reflexivity.
Qed.
