(* ===== verification/PectlSession.v ===== *)
(** * A command of pectl against the control plane

    The exchange of [policy create] through the client's request, the mux, the
    decoding of the body, the authorisation and the handler, with answers that
    may be lost on the way back. *)

From S2P Require Import Prelude GoStr Ast GoTime GoCrypto Delegation Parser ParserFacts Dag Trie Compiler Evaluator Decision.
From S2P Require Import Engine Sync Simulate Jwt Identity Server Storage HttpServer ServerSamples GoJson GoJsonFacts.
From S2P Require Import AuditRecord GoUrl Routes PectlClient PectlCommands PectlFacts.
From stdpp Require Import options.
Local Open Scope Z_scope.

Section Session.
Context `{UrlAuthority} `{JwtLibrary}.
Variable now : Z.
Variable validator : option JWTValidator.
(** The text of an error answer, the identifiers the database generates, and
    the exchanges whose answer is lost. *)
Variable problem : Z -> string.
Variable id_of : nat -> string.
Variable lost : nat -> bool.

(** What the server does with a request; [k] counts the requests it got. *)
Definition create_exchange (req : HttpRequest) (w : nat * Stores) : (nat * Stores) * Exchange :=
  let '(k, st) := w in
  match dispatch ConfigureMux (hr_method req) (hr_path req) with
  | Routed EpCreatePolicy [tenant] =>
      let '(st', out) := serve_create now validator (default ""%string (hr_authorization req)) tenant TxCommitted (id_of k) st
                           (decode_body (default ""%string (hr_body req)) ≫= into_create_request) in
      ((S k, st'),
       if lost k then DoFailed
       else match out with
            | Respond status (BodyCreated id) => Answered status (created_text id)
            | Respond status _ => Answered status (problem status)
            | Panic => DoFailed
            end)
  | _ => ((S k, st), Answered 404 (problem 404))
  end.
End Session.

Section Creation.
Context `{UrlAuthority} `{JwtLibrary}.
Variables (now : Z) (validator : option JWTValidator) (problem : Z -> string) (id_of : nat -> string) (lost : nat -> bool).
Variables (tenant effect text : string).

Let draft : DBPolicy := mkDBPolicy tenant (to_upper (trim_space effect)) text None 1 Draft.

(** The database after [n] creations from the [k]-th on. *)
Fixpoint drafts (k n : nat) (db : Database) : Database :=
  match n with O => db | S n' => drafts (S k) n' (set_policies db (<[id_of k := draft]> (db_policies db))) end.

Lemma drafts_lookup n : forall k db,
  (forall i j, (k <= i < k + n)%nat -> (k <= j < k + n)%nat -> id_of i = id_of j -> i = j) ->
  db_tenants (drafts k n db) = db_tenants db
  /\ (forall j, (k <= j < k + n)%nat -> db_policies (drafts k n db) !! id_of j = Some draft)
  /\ (forall id, (forall j, (k <= j < k + n)%nat -> id_of j <> id) -> db_policies (drafts k n db) !! id = db_policies db !! id).
Proof.
  induction n as [|n IH]; intros k db Hinj; [split_and!; [done|lia|done]|]. cbn [drafts].
  destruct (IH (S k) (set_policies db (<[id_of k := draft]> (db_policies db)))) as (Ht & Hin & Hout).
  { intros i j Hi Hj. apply Hinj; lia. }
  split_and!; [done| |].
  - intros j Hj. destruct (decide (j = k)) as [->|]; [|apply Hin; lia].
    rewrite Hout; [by apply lookup_insert_eq|]. intros i Hi Heq. apply Hinj in Heq; lia.
  - intros id Hid. rewrite Hout by (intros j Hj; apply Hid; lia). apply lookup_insert_ne, Hid. lia.
Qed.

Variable req : HttpRequest.
Hypothesis Hroute : dispatch ConfigureMux (hr_method req) (hr_path req) = Routed EpCreatePolicy [tenant].
Hypothesis Hbody : (decode_body (default ""%string (hr_body req)) ≫= into_create_request) = Some (effect, text).
Hypothesis Htenant : tenant <> ""%string.
Hypothesis Heffect : (to_upper (trim_space effect) ∈ ["PERMIT"; "FORBID"])%string.
Hypothesis Htext : blank text = false.

(** An authorised request adds a draft, whether or not its answer arrives. *)
Lemma create_exchange_adds i k db erp :
  TenantAuthMiddleware now validator (default ""%string (hr_authorization req)) tenant = Ok i ->
  RequirePermission "policy:write" (Some i) = Ok i ->
  is_Some (db_tenants db !! tenant) -> db_policies db !! id_of k = None ->
  create_exchange now validator problem id_of lost req (k, mkStores db erp)
  = ((S k, mkStores (set_policies db (<[id_of k := draft]> (db_policies db))) erp),
     if lost k then DoFailed else Answered 201 (created_text (id_of k))).
Proof using All.
  intros Hauth Hperm Ht Hid. unfold create_exchange. rewrite Hroute, Hbody. unfold serve_create, protect. rewrite Hauth, Hperm.
  unfold handleCreatePolicy. rewrite bool_decide_false by done. cbv zeta.
  assert (negb (bool_decide (to_upper (trim_space effect) = "PERMIT"%string))
          && negb (bool_decide (to_upper (trim_space effect) = "FORBID"%string)) = false) as ->.
  { set_unfold in Heffect. destruct Heffect as [->|[->|[]]]; reflexivity. }
  rewrite Htext. unfold CreatePolicy. cbn [st_db transaction]. rewrite bool_decide_true by done.
  rewrite (bool_decide_false (is_Some (db_policies db !! id_of k))) by (rewrite Hid; by intros [? [=]]).
  cbn [negb orb st_erp]. reflexivity.
Qed.

Variable done_before : nat -> bool.
Variables (c : Client) (path body : string) (i : authenticatedIdentity) (erp : option ErpDatabase).
Hypothesis Hreq : new_request c "POST" path (Some body) = Some req.
Hypothesis Hauth : TenantAuthMiddleware now validator (default ""%string (hr_authorization req)) tenant = Ok i.
Hypothesis Hperm : RequirePermission "policy:write" (Some i) = Ok i.

(** The attempts from the [k]-th on, of which the last, after [n] lost answers, is answered. *)
Lemma attempts_create (read : string -> option CreatePolicyResp) n : forall k left backoff lastErr db,
  (n <= left)%nat -> (forall j, (k <= j < k + n)%nat -> lost j = true) -> lost (k + n)%nat = false ->
  (forall j, (k <= j <= k + n)%nat -> done_before j = false) ->
  (forall j, (k <= j <= k + n)%nat -> db_policies db !! id_of j = None) ->
  (forall x y, (k <= x <= k + n)%nat -> (k <= y <= k + n)%nat -> id_of x = id_of y -> x = y) ->
  is_Some (db_tenants db !! tenant) -> read (created_text (id_of (k + n)%nat)) = Some (mkCreateResp (id_of (k + n)%nat) "DRAFT") ->
  exists waits, attempts (create_exchange now validator problem id_of lost) done_before read c "POST" path (Some body) (S left) k backoff lastErr
      (k, mkStores db erp)
    = ((S (k + n), mkStores (drafts k (S n) db) erp), Ok (Some (mkCreateResp (id_of (k + n)%nat) "DRAFT")), waits).
Proof using All.
  induction n as [|n IH]; intros k left backoff lastErr db Hleft Hlost Hlast Hdone Hnew Hinj Ht Hread;
    cbn [attempts]; rewrite (Hdone k), andb_false_r, Hreq by lia; unfold attempt_once;
    rewrite (create_exchange_adds i k db erp Hauth Hperm Ht) by (apply Hnew; lia).
  - rewrite Nat.add_0_r in *. rewrite Hlast. change (is_success 201) with true. cbv iota.
    rewrite bool_decide_false, Hread; [by eexists|]. intros Hempty. by apply (f_equal go_bytes) in Hempty.
  - rewrite (Hlost k) by lia. destruct left as [|left]; [lia|].
    set (db1 := set_policies db (<[id_of k := draft]> (db_policies db))).
    edestruct (IH (S k) left) as [waits Hw]; [..|]; cycle -1.
    + rewrite Hw, Nat.add_succ_comm. by eexists.
    + lia.
    + intros j Hj. apply Hlost. lia.
    + rewrite Nat.add_succ_comm. exact Hlast.
    + intros j Hj. apply Hdone. lia.
    + intros j Hj. cbn. rewrite lookup_insert_ne; [apply Hnew; lia|]. intros Heq. apply Hinj in Heq; lia.
    + intros x y Hx Hy. apply Hinj; lia.
    + exact Ht.
    + rewrite Nat.add_succ_comm. exact Hread.
Qed.
End Creation.

(** C34: A [policy create] whose first [n] answers are lost, three at most, succeeds
    and shows the identifier of one draft; the tenant then has a draft of the
    same text for each of the [n + 1] attempts. *)
Theorem lost_answers_duplicate_drafts `{UrlAuthority} `{JwtLibrary} (now : Z) (validator : option JWTValidator) (problem : Z -> string)
    (id_of : nat -> string) (lost done_before : nat -> bool) (n : nat) (server token tenant effect text file : string) (timeout : Z)
    (i : authenticatedIdentity) (db : Database) (erp : option ErpDatabase)
    (Hserver : forall rest, url_rest (trim_suffix server "/" +:+ "/" +:+ rest) = Some ("/" +:+ rest))
    (Hauth : TenantAuthMiddleware now validator (if bool_decide (token = ""%string) then "" else "Bearer " +:+ token) tenant = Ok i)
    (Hperm : RequirePermission "policy:write" (Some i) = Ok i)
    (Htenant : plain_text tenant) (Hknown : is_Some (db_tenants db !! tenant)) (Hutf8 : valid_texts [effect; text])
    (Heffect : (to_upper (trim_space effect) ∈ ["PERMIT"; "FORBID"])%string) (Htext : blank text = false)
    (Hn : (n <= 3)%nat) (Hlost : forall j, (j < n)%nat -> lost j = true) (Hlast : lost n = false)
    (Hwait : forall j, (j <= n)%nat -> done_before j = false)
    (Hid : Forall (fun b => unreserved b = true) (go_bytes (id_of n)) /\ utf8_valid (id_of n) = true)
    (Hdistinct : forall x y, (x <= n)%nat -> (y <= n)%nat -> id_of x = id_of y -> x = y)
    (Hnew : forall j, (j <= n)%nat -> db_policies db !! id_of j = None) :
  let cmd := PolicyCreate tenant effect file in
  exists db' waits,
    Request (create_exchange now validator problem id_of lost) done_before (fun answer => json_parse answer ≫= into_create_resp)
      (NewClient server token timeout) (command_target cmd).1 (command_target cmd).2
      (Some (Some (json_text (create_json effect text)))) (0%nat, mkStores db erp)
    = ((S n, mkStores db' erp), Ok (Some (mkCreateResp (id_of n) "DRAFT")), waits)
    /\ forall j, (j <= n)%nat ->
         db_policies db' !! id_of j = Some (mkDBPolicy tenant (to_upper (trim_space effect)) text None 1 Draft).
Proof.
  intros cmd. unfold valid_texts in Hutf8. rewrite !Forall_cons in Hutf8. destruct Hutf8 as (? & ? & _).
  assert (Forall plain_text (path_ids cmd)) as Hplain by by constructor.
  destruct (command_routed (NewClient server token timeout) cmd (Some (json_text (create_json effect text))) Hserver Hplain)
    as (req & Hreq & Hroute).
  pose proof Hreq as Hfields. apply new_request_fields in Hfields as [Ha Hb].
  destruct (attempts_create now validator problem id_of lost tenant effect text req Hroute) with
    (done_before := done_before) (c := NewClient server token timeout) (path := (command_target cmd).2)
    (body := json_text (create_json effect text)) (i := i) (erp := erp)
    (read := fun answer => json_parse answer ≫= into_create_resp) (n := n) (k := 0%nat) (left := 3%nat)
    (backoff := backoff_start) (lastErr := None (A := ClientError)) (db := db) as [waits Hw]; try done.
  - assert (default ""%string (hr_body req) = json_text (create_json effect text)) as -> by by rewrite Hb.
    rewrite decode_body_text; [done|object_ok|vm_compute; discriminate].
  - intros ->. by destruct Htenant.
  - by rewrite Ha.
  - intros j Hj. apply Hlost. lia.
  - intros j Hj. apply Hwait. lia.
  - intros j Hj. apply Hnew. lia.
  - intros x y Hx Hy. apply Hdistinct; lia.
  - destruct Hid. by apply created_read.
  - exists (drafts id_of tenant effect text 0 (S n) db), waits. split; [exact Hw|].
    intros j Hj. apply drafts_lookup; [intros x y Hx Hy; apply Hdistinct; lia|lia].
Qed.

(** ** The health of the plane *)

(** The server answers the health route with its readiness. *)
Definition health_exchange (message : string -> string) (database : option bool) (syncer : option (SyncStatus * bool))
    (req : HttpRequest) (k : nat) : nat * Exchange :=
  (S k, match dispatch ConfigureMux (hr_method req) (hr_path req) with
        | Routed EpHealth [] =>
            let '(status, h) := readiness database syncer in Answered status (json_text (health_json message h))
        | _ => Answered 404 ""
        end).

Definition all_healthy : HealthResp :=
  mkHealthResp "healthy" {["postgresql"%string := ("healthy"%string, ""%string); "policy_sync"%string := ("healthy"%string, ""%string)]}.

(** A component that is well has no message. *)
Definition silent_when_healthy (message : string -> string) (database : option bool) (syncer : option (SyncStatus * bool)) : Prop :=
  (database = Some true -> message "postgresql"%string = ""%string)
  /\ ((exists st, syncer = Some (st, false)) -> message "policy_sync"%string = ""%string).

Definition health_form (message : string -> string) (overall sync pg : SyncStatus) : json :=
  JObject [("status"%string, JString (status_text overall));
           ("components"%string, JObject [("policy_sync"%string, component_json (message "policy_sync"%string) sync);
                                          ("postgresql"%string, component_json (message "postgresql"%string) pg)])].

Lemma health_json_form message database syncer : exists overall sync pg,
  health_json message (readiness database syncer).2 = health_form message overall sync pg
  /\ ((readiness database syncer).1 = 503
      \/ (readiness database syncer).1 = 200 /\ overall = SyncStatusHealthy /\ sync = SyncStatusHealthy /\ pg = SyncStatusHealthy
         /\ database = Some true /\ exists st, syncer = Some (st, false)).
Proof.
  assert (forall sync pg : SyncStatus, sort_strings (map_to_list ({["postgresql"%string := pg; "policy_sync"%string := sync]} : gmap string SyncStatus)).*1
            = ["policy_sync"; "postgresql"]%string) as Hkeys by (intros [] []; vm_compute; reflexivity).
  unfold readiness, health_json.
  destruct database as [[]|], syncer as [[[] []]|]; cbn [negb h_status h_components fst snd]; rewrite Hkeys; eexists _, _, _;
    (split; [reflexivity|]); cbn; first [by left|right; eauto 10].
Qed.

Lemma component_ok message s : utf8_valid message = true -> json_ok (component_json message s) /\ json_depth (component_json message s) = 1.
Proof.
  intros Hm. unfold component_json, opt_member. split.
  - apply json_ok_object, Forall_app. split; [by destruct s; repeat constructor|]. case_bool_decide; repeat constructor. exact Hm.
  - by case_bool_decide.
Qed.

Lemma health_form_parses message overall sync pg : (forall k, utf8_valid (message k) = true) ->
  json_parse (json_text (health_form message overall sync pg)) = Some (health_form message overall sync pg).
Proof.
  intros Hm. destruct (component_ok (message "policy_sync"%string) sync (Hm _)) as [H1 D1], (component_ok (message "postgresql"%string) pg (Hm _)) as [H2 D2].
  apply json_round_trip.
  - unfold health_form. apply json_ok_object. rewrite !Forall_cons. cbn [fst snd].
    split; [by destruct overall|]. split; [|done]. split; [done|].
    apply json_ok_object. rewrite !Forall_cons. cbn [fst snd]. done.
  - unfold health_form. cbn [json_depth fold_right snd]. rewrite D1, D2. vm_compute. discriminate.
Qed.

(** [pectl health] shows a status only of a plane that is well in all its parts:
    any other answer is a 503, which the client asks for three times more and
    then reports as the error of its last exchange. *)
Theorem health_shows_only_healthy `{UrlAuthority} (message : string -> string) (database : option bool)
    (syncer : option (SyncStatus * bool)) (server token : string) (timeout : Z)
    (Hserver : forall rest, url_rest (trim_suffix server "/" +:+ "/" +:+ rest) = Some ("/" +:+ rest))
    (Hmessage : forall k, utf8_valid (message k) = true) (Hsilent : silent_when_healthy message database syncer) :
  let '(status, h) := readiness database syncer in
  Request (health_exchange message database syncer) (fun _ => false) (fun text => json_parse text ≫= into_health_resp)
    (NewClient server token timeout) (command_target HealthCmd).1 (command_target HealthCmd).2 None 0%nat
  = if status =? 200 then (1%nat, Ok (Some all_healthy), [])
    else (4%nat, Err (RetriesExhausted (Some (StatusAnswer 503 (json_text (health_json message h))))), [100000000; 200000000; 400000000]).
Proof.
  destruct (command_routed (NewClient server token timeout) HealthCmd None Hserver ltac:(constructor)) as (req & Hreq & Hroute).
  pose proof (health_json_form message database syncer) as (overall & sync & pg & Hform & Hcases).
  destruct (readiness database syncer) as [status h] eqn:Er. cbn [fst snd] in *.
  assert (forall k, health_exchange message database syncer req k = (S k, Answered status (json_text (health_json message h)))) as Hex.
  { intros k. unfold health_exchange. by rewrite Hroute, Er. }
  pose proof (health_form_parses message overall sync pg Hmessage) as Hparse.
  unfold Request. cbn [cl_maxRetries NewClient mjoin option_join].
  destruct Hcases as [->|(-> & -> & -> & -> & Hdb & Hsy)].
  - assert (answer_error 503 (json_text (health_json message h)) = StatusAnswer 503 (json_text (health_json message h))) as He.
    { unfold answer_error. by rewrite Hform, Hparse. }
    cbn [attempts]. rewrite Hreq. unfold attempt_once. rewrite !Hex.
    change (is_success 503) with false. change (503 <? 500) with false. cbv iota. rewrite !He. reflexivity.
  - cbn [attempts]. rewrite Hreq. unfold attempt_once. rewrite Hex, Hform, Hparse.
    change (is_success 200) with true. cbv iota. rewrite bool_decide_false by (by intros E; apply (f_equal go_bytes) in E).
    assert ((Some (health_form message SyncStatusHealthy SyncStatusHealthy SyncStatusHealthy) ≫= into_health_resp) = Some all_healthy) as ->;
      [|done].
    destruct Hsilent as [Hs1 Hs2]. unfold health_form, component_json. rewrite (Hs1 Hdb), (Hs2 Hsy). vm_compute. reflexivity.
Qed.

(** ** Samples of pectl

    Concrete requests in which the hypotheses of the theorems about pectl hold. *)

#[local] Existing Instance ascii_table.
#[local] Existing Instance token_table.

(** What follows the authority of an [http] URL. *)
Fixpoint from_slash (s : string) : string :=
  match s with
  | EmptyString => ""%string
  | String a s' => if (a =? "/")%char then s else from_slash s'
  end.
Fixpoint after (p s : string) : option string :=
  match p, s with
  | EmptyString, _ => Some s
  | String a p', String b s' => if (a =? b)%char then after p' s' else None
  | _, EmptyString => None
  end.
#[local] Instance http_authority : UrlAuthority := fun url => s ← after "http://" url; Some (from_slash s).

Definition plane : string := "http://control-plane:8080".
Lemma plane_rest rest : url_rest (plane +:+ "/" +:+ rest) = Some ("/" +:+ rest).
Proof. reflexivity. Qed.

Definition plane_client : Client := NewClient (plane +:+ "/") "root-token" 10000000000.

Lemma plane_client_rest rest : url_rest (cl_baseURL plane_client +:+ "/" +:+ rest) = Some ("/" +:+ rest).
Proof. assert (cl_baseURL plane_client = plane) as -> by (vm_compute; reflexivity). apply plane_rest. Qed.

Lemma requests_understood_witness :
  (decode_body (json_text (create_json "permit" permit_text)) ≫= into_create_request) = Some ("permit"%string, permit_text)
  /\ (decode_body (json_text (update_json permit_text)) ≫= into_update_request) = Some permit_text
  /\ (decode_body (json_text (decision_json "t" "user:bob" "READ" "file:report")) ≫= into_decision_request)
     = Some (mkDecisionRequest "t" "user:bob" "READ" "file:report" ∅).
Proof. apply requests_understood. repeat constructor. Defined.

Definition bob_context : option (gmap string string) := Some {["department"%string := "finance"%string]}.
Lemma simulate_ignores_draft_witness :
  let body := json_text (simulate_json "user:bob" "READ" "file:report" bob_context (Some permit_text) true) in
  (decode_body body ≫= into_simulate_request)
    = Some (mkSimulateRequest "" "user:bob" "READ" "file:report" {["department"%string := "finance"%string]})
  /\ handleSimulate false ∅ None "t" (decode_body body ≫= into_simulate_request)
     = (if bool_decide ("t"%string = ""%string) then (∅, fail_with 400)
        else let '(h', r) := SimulateDecision false ∅ None "t" None "user:bob" "READ" "file:report" {["department"%string := "finance"%string]} in
             (h', Respond 200 (BodySimulated r false "t"))).
Proof.
  apply (simulate_ignores_draft "user:bob" "READ" "file:report" "t" bob_context (Some permit_text) true false ∅ None).
  - repeat constructor.
  - intros k v Hkv. unfold bob_context in Hkv. cbn in Hkv. apply lookup_singleton_Some in Hkv as [<- <-]. done.
Defined.

(** A network that fails twice, an overloaded server, and an answer. *)
Definition unsteady (_ : HttpRequest) (k : nat) : nat * Exchange :=
  (S k, nth k [DoFailed; BodyFailed; Answered 503 "overloaded"] (Answered 200 updated_text)).
Definition update_cmd : Command := PolicyUpdate "t" "p-1" "p.policy".
Definition update_request : HttpRequest :=
  default (mkHttpRequest "" "" [] None None) (new_request plane_client (command_target update_cmd).1 (command_target update_cmd).2 (Some "{}"%string)).

Lemma request_retries_witness : exists n w' xs r,
  Request unsteady (fun _ => false) (fun text => json_parse text ≫= into_update_resp) plane_client (command_target update_cmd).1
    (command_target update_cmd).2 (Some (Some "{}"%string)) 0%nat = (w', r, schedule backoff_start (pred n))
  /\ play unsteady update_request n 0%nat = (w', xs) /\ length xs = n /\ (1 <= n <= S (cl_maxRetries plane_client))%nat
  /\ ends_with (fun _ => false) (fun text => json_parse text ≫= into_update_resp) (S (cl_maxRetries plane_client)) 0 None xs r
  /\ Forall (fun d => 0 <= d <= maxBackoff) (schedule backoff_start (pred n))
  /\ forall base token timeout, plane_client = NewClient base token timeout ->
       (n <= 4)%nat /\ foldr Z.add 0 (schedule backoff_start (pred n)) <= 700000000.
Proof.
  apply (request_retries unsteady (fun _ => false) (fun text => json_parse text ≫= into_update_resp) plane_client
    (command_target update_cmd).1 (command_target update_cmd).2 (Some "{}"%string) update_request 0%nat).
  vm_compute. reflexivity.
Defined.
Example update_takes_four :
  Request unsteady (fun _ => false) (fun text => json_parse text ≫= into_update_resp) plane_client (command_target update_cmd).1
    (command_target update_cmd).2 (Some (Some "{}"%string)) 0%nat
  = (4%nat, Ok (Some "DRAFT"%string), [100000000; 200000000; 400000000]).
Proof. vm_compute. reflexivity. Qed.

Lemma command_reaches_endpoint_witness : exists req,
  new_request plane_client (command_target (PolicyPublish "t" "p-1")).1 (command_target (PolicyPublish "t" "p-1")).2 None = Some req
  /\ dispatch ConfigureMux (hr_method req) (hr_path req) = Routed EpPublishPolicy ["t"; "p-1"]%string.
Proof.
  assert (Forall plain_text (path_ids (PolicyPublish "t" "p-1"))) as Hplain.
  { cbn [path_ids]. rewrite !Forall_cons. split_and!; [apply plain_text_true; vm_compute; reflexivity..|constructor]. }
  destruct (command_reaches_endpoint plane_client (PolicyPublish "t" "p-1") None plane_client_rest Hplain) as (req & Hreq & Hd).
  exists req. split; [exact Hreq|]. exact Hd.
Defined.

Definition read_obligations : option json := Some (JArray [JObject [("type"%string, JString "log")]]).

Lemma answers_read_witness :
  (json_parse (created_text "p-2") ≫= into_create_resp) = Some (mkCreateResp "p-2" "DRAFT")
  /\ (json_parse updated_text ≫= into_update_resp) = Some "DRAFT"%string
  /\ (json_parse deleted_text ≫= into_delete_resp) = Some {["message"%string := deleted_message]}
  /\ (json_parse (json_text (decision_answer "ALLOW" "p-1" (obligations_member read_obligations))) ≫= into_decision_resp)
     = Some (mkDecisionResp "ALLOW" "p-1" zero_time).
Proof.
  apply (answers_read "p-2" "ALLOW" "p-1" read_obligations).
  - repeat constructor.
  - repeat constructor.
  - vm_compute. repeat split.
Defined.

Lemma answers_misread_witness :
  (json_parse (published_text 2) ≫= into_publish_resp) = Some (mkPublishResp "" "ACTIVE" 0 zero_time false)
  /\ (json_parse (json_text (explain_answer "ALLOW" "ALLOW_EXPLICIT_PERMIT" (Some ["p-1"%string]) (obligations_member read_obligations)))
        ≫= into_explain_resp) = None
  /\ (json_parse (simulated_text "ALLOW" "ALLOW_EXPLICIT_PERMIT" (Some ["p-1"%string]) None "t") ≫= into_simulate_resp)
     = Some (mkSimulateResp "" "ALLOW_EXPLICIT_PERMIT" ["p-1"%string] [] "t").
Proof.
  apply (answers_misread 2 "ALLOW" "ALLOW_EXPLICIT_PERMIT" "p-1" [] read_obligations).
  - done.
  - repeat constructor.
  - vm_compute. repeat split.
Defined.

(** Two answers are lost: three drafts. *)
Definition draft_ids (j : nat) : string := nth j ["d-1"; "d-2"; "d-3"]%string ""%string.
Definition two_lost (j : nat) : bool := (j <? 2)%nat.

Lemma lost_answers_duplicate_drafts_witness : exists db' waits,
  Request (create_exchange (1800000100 * nanosecond) (Some validator) (fun _ => ""%string) draft_ids two_lost) (fun _ => false)
    (fun answer => json_parse answer ≫= into_create_resp) (NewClient plane "root-token" 10000000000)
    (command_target (PolicyCreate "t" "permit" "p.policy")).1 (command_target (PolicyCreate "t" "permit" "p.policy")).2
    (Some (Some (json_text (create_json "permit" permit_text)))) (0%nat, mkStores (policy_db permit_text) None)
  = ((3%nat, mkStores db' None), Ok (Some (mkCreateResp "d-3" "DRAFT")), waits)
  /\ forall j, (j <= 2)%nat -> db_policies db' !! draft_ids j = Some (mkDBPolicy "t" "PERMIT" permit_text None 1 Draft).
Proof.
  apply (lost_answers_duplicate_drafts (1800000100 * nanosecond) (Some validator) (fun _ => ""%string) draft_ids two_lost (fun _ => false)
    2 plane "root-token" "t" "permit" permit_text "p.policy" 10000000000 root_identity (policy_db permit_text) None).
  - assert (trim_suffix plane "/" = plane) as -> by (vm_compute; reflexivity). exact plane_rest.
  - vm_compute. reflexivity.
  - reflexivity.
  - apply plain_text_true. vm_compute. reflexivity.
  - vm_compute. by eexists.
  - repeat constructor.
  - vm_compute. repeat constructor.
  - reflexivity.
  - lia.
  - intros [|[|j]] Hj; [done|done|lia].
  - done.
  - done.
  - split; [repeat constructor|done].
  - intros [|[|[|x]]] [|[|[|y]]] Hx Hy; try lia; done.
  - intros [|[|[|j]]] Hj; try lia; done.
Defined.

(** The syncer lost its connection: the command shows an error. *)
Definition lag_message (k : string) : string := if bool_decide (k = "policy_sync"%string) then "policy sync is degraded" else "".

Lemma health_shows_only_healthy_witness :
  let '(status, h) := readiness (Some true) (Some (SyncStatusDegraded, true)) in
  Request (health_exchange lag_message (Some true) (Some (SyncStatusDegraded, true))) (fun _ => false)
    (fun text => json_parse text ≫= into_health_resp)
    (NewClient plane "" 10000000000) (command_target HealthCmd).1 (command_target HealthCmd).2 None 0%nat
  = if status =? 200 then (1%nat, Ok (Some all_healthy), [])
    else (4%nat, Err (RetriesExhausted (Some (StatusAnswer 503 (json_text (health_json lag_message h))))), [100000000; 200000000; 400000000]).
Proof.
  apply (health_shows_only_healthy lag_message (Some true) (Some (SyncStatusDegraded, true)) plane "" 10000000000).
  - assert (trim_suffix plane "/" = plane) as -> by (vm_compute; reflexivity). exact plane_rest.
  - intros k. unfold lag_message. by case_bool_decide.
  - split; [done|intros [st [=]]].
Defined.
