(* ===== verification/PectlMain.v ===== *)
(** * A run of pectl ([internal/pectl/printer/json.go], [internal/pectl/commands])

    What a command leaves behind: the text on its standard output, the error
    it ends with and its exit code, over the request of the client and the
    output mode of the configuration.  An indented JSON text is read back as
    the value it was printed from. *)

From S2P Require Import Prelude GoStr GoCrypto GoTime GoJson GoJsonFacts GoUrl Routes Storage AuditRecord.
From S2P Require Import PectlClient PectlCommands PectlFacts PectlSession PectlPrinter.
From stdpp Require Import options.
Local Open Scope Z_scope.

(** ** Indented JSON *)

(** A new line under [SetIndent] with two blanks. *)
Definition line_start (depth : nat) : list Z := 10 :: replicate (2 * depth) 32.

Fixpoint indent_runes (depth : nat) (v : json) : list Z :=
  match v with
  | JArray ((_ :: _) as l) =>
      91 :: join_runes (map (fun x => line_start (S depth) ++ indent_runes (S depth) x) l) ++ line_start depth ++ [93]
  | JObject ((_ :: _) as kvs) =>
      123 :: join_runes (map (fun kv => line_start (S depth) ++ quote kv.1 ++ 58 :: 32 :: indent_runes (S depth) kv.2) kvs)
      ++ line_start depth ++ [125]
  | _ => json_runes v
  end.

(** [Encoder.Encode] ends the text with a line feed. *)
Definition PrintJSON (data : json) : list Z := go_bytes (string_of_runes (indent_runes 0 data ++ [10])).

(** ** What is read back *)

Lemma line_start_spaces depth : spaces (line_start depth).
Proof. constructor; [done|]. apply Forall_replicate. done. Qed.
#[local] Hint Resolve line_start_spaces no_spaces : core.

Lemma indent_head depth v : json_ok v -> exists r rs, indent_runes depth v = r :: rs /\ json_space r = false /\ r <> 93 /\ r <> 125.
Proof. intros Hok. destruct v as [| | | |[|x l]|[|kv kvs]]; try by apply json_runes_head. all: by eexists _, _. Qed.

Lemma indent_reads v : json_ok v -> forall depth, reads_from (indent_runes depth v) v.
Proof.
  induction v as [|b|t|s|l IH|kvs IH] using json_induction; intros Hok depth; try by apply json_reads.
  - destruct l as [|x l]; [by apply json_reads|]. apply json_ok_array in Hok.
    apply (reads_array_text (fun y => line_start (S depth) ++ indent_runes (S depth) y) (line_start depth)); [done|done| |].
    + rewrite Forall_forall in IH, Hok |- *. intros y Hy. apply reads_from_spaces; [done|]. apply IH; [done|by apply Hok].
    + eapply Forall_impl; [exact Hok|]. intros y Hy tail. destruct (indent_head (S depth) y Hy) as (c & rs & Hr & Hc & Hne & _).
      rewrite <- app_assoc, skip_ws_spaces, Hr by done. exists c, (rs ++ tail). split; [|done]. by apply skip_ws_cons.
  - destruct kvs as [|kv kvs]; [by apply json_reads|]. apply json_ok_object in Hok.
    apply (reads_object_text (fun y => 32 :: indent_runes (S depth) y) (line_start (S depth)) (line_start depth)); [done|done|done|].
    rewrite Forall_forall in IH, Hok |- *. intros y Hy. destruct (Hok y Hy) as [Hk Hv]. split; [done|].
    apply (reads_from_spaces [32]); [by repeat constructor|]. by apply IH.
Qed.

Lemma line_scalar depth : Forall scalar (line_start depth).
Proof. constructor; [by apply ascii_scalar|]. apply Forall_replicate. by apply ascii_scalar. Qed.

Lemma indent_scalar v : json_ok v -> forall depth, Forall scalar (indent_runes depth v).
Proof.
  induction v as [|b|t|s|l IH|kvs IH] using json_induction; intros Hok depth; try by apply json_runes_scalar.
  - destruct l as [|x l]; [by apply json_runes_scalar|]. apply json_ok_array in Hok. cbn [indent_runes]. generalize dependent (x :: l). intros l' IH Hok.
    constructor; [by apply ascii_scalar|]. apply Forall_app. split; [|apply Forall_app; split; [apply line_scalar|by apply ascii_scalars]].
    apply join_scalar, Forall_forall. intros p (y & -> & Hy)%list_elem_of_fmap. rewrite Forall_forall in IH, Hok.
    apply Forall_app. split; [apply line_scalar|]. apply IH; [done|by apply Hok].
  - destruct kvs as [|kv kvs]; [by apply json_runes_scalar|]. apply json_ok_object in Hok. cbn [indent_runes]. generalize dependent (kv :: kvs). intros l' IH Hok.
    constructor; [by apply ascii_scalar|]. apply Forall_app. split; [|apply Forall_app; split; [apply line_scalar|by apply ascii_scalars]].
    apply join_scalar, Forall_forall. intros p (y & -> & Hy)%list_elem_of_fmap. rewrite Forall_forall in IH, Hok.
    apply Forall_app. split; [apply line_scalar|]. apply Forall_app. split; [apply quote_scalar|].
    do 2 (constructor; [by apply ascii_scalar|]). apply IH; [done|by apply Hok].
Qed.

Lemma indent_size v : json_ok v -> forall depth, (json_size v <= length (indent_runes depth v))%nat.
Proof.
  induction v as [|b|t|s|l IH|kvs IH] using json_induction; intros Hok depth; try by apply json_size_runes.
  - destruct l as [|x l]; [by apply json_size_runes|]. apply json_ok_array in Hok. cbn [indent_runes json_size]. generalize dependent (x :: l). intros l' IH Hok.
    cbn [length]. rewrite !length_app. cbn [length].
    pose proof (join_length (fun x => line_start (S depth) ++ indent_runes (S depth) x) json_size l') as Hj.
    cbv beta in Hj. match type of Hj with _ -> ?P => enough P by lia end.
    apply Hj. rewrite Forall_forall in IH, Hok |- *. intros y Hy. rewrite length_app. specialize (IH y Hy (Hok y Hy) (S depth)). lia.
  - destruct kvs as [|kv kvs]; [by apply json_size_runes|]. apply json_ok_object in Hok. cbn [indent_runes json_size]. generalize dependent (kv :: kvs). intros l' IH Hok.
    cbn [length]. rewrite !length_app. cbn [length].
    pose proof (join_length (fun kv => line_start (S depth) ++ quote kv.1 ++ 58 :: 32 :: indent_runes (S depth) kv.2) (fun kv => json_size kv.2) l') as Hj.
    cbv beta in Hj. match type of Hj with _ -> ?P => enough P by lia end.
    apply Hj. rewrite Forall_forall in IH, Hok |- *. intros y Hy. rewrite !length_app. cbn [length].
    assert (json_size y.2 <= length (indent_runes (S depth) y.2))%nat by (apply IH; [done|by apply Hok]). lia.
Qed.

(** What [pectl -o json] prints is read back as the answer it shows: the indentation changes nothing. *)
Theorem printed_json_reads_back (data : json) (Hok : json_ok data) (Hdepth : json_depth data <= max_nesting) :
  json_parse (of_bytes (PrintJSON data)) = Some data.
Proof.
  unfold PrintJSON. rewrite of_bytes_go_bytes. unfold json_parse. set (text := indent_runes 0 data ++ [10]). rewrite runes_of_encode.
  - pose proof (indent_reads data Hok 0%nat (2 * length text + 2)%nat 0 [10]) as Hr.
    unfold text at 2. rewrite Hr; [done| |lia|done]. pose proof (indent_size data Hok 0%nat). unfold text. rewrite length_app. lia.
  - apply Forall_app. split; [by apply indent_scalar|by apply ascii_scalars].
Qed.

Example json_ex1 : of_bytes (PrintJSON (JObject [("a", JArray [JBool true; JNull]); ("b", JObject []); ("c", JString "x")]%string))
  = (let nl := of_bytes [10] in let q s := raw_string s in
     "{" +:+ nl +:+ "  " +:+ q "a" +:+ ": [" +:+ nl +:+ "    true," +:+ nl +:+ "    null" +:+ nl +:+ "  ]," +:+ nl
     +:+ "  " +:+ q "b" +:+ ": {}," +:+ nl +:+ "  " +:+ q "c" +:+ ": " +:+ q "x" +:+ nl +:+ "}" +:+ nl)%string.
Proof. vm_compute. reflexivity. Qed.

(** ** The other answers the commands decode *)

Definition digits_value (ds : list Z) : Z := fold_left (fun n b => n * 10 + (b - 48)) ds 0.
(** The sign, the digits and the power of ten of a number's literal. *)
Definition literal_decimal (t : string) : bool * Z * Z :=
  let '(negative, bs) := match go_bytes t with b :: bs' => if b =? 45 then (true, bs') else (false, b :: bs') | [] => (false, []) end in
  let '(int, bs) := span_digits bs in
  let '(frac, bs) := match bs with b :: bs' => if b =? 46 then span_digits bs' else ([], bs) | [] => ([], []) end in
  let exponent := match bs with
                  | _ :: s :: ds => if s =? 45 then - digits_value ds else if s =? 43 then digits_value ds else digits_value (s :: ds)
                  | _ => 0
                  end in
  (negative, digits_value (int ++ frac), exponent - Z.of_nat (length frac)).

(** [n / d] in binary64, to the nearest and half to even: the significand and the exponent, [None] when it is too large. *)
Definition nearest_float (n d : Z) : option (Z * Z) :=
  if n =? 0 then Some (0, 0)
  else
    let e0 := Z.log2 n - Z.log2 d - 53 in
    let small e := if 0 <=? e + 53 then n <? d * 2 ^ (e + 53) else n * 2 ^ (- (e + 53)) <? d in
    let e := Z.max (-1074) (if small e0 then e0 else e0 + 1) in
    let m := if 0 <=? e then round_half_even n (d * 2 ^ e) else round_half_even (n * 2 ^ (- e)) d in
    if (971 <? e) || ((e =? 971) && (2 ^ 53 <=? m)) then None else Some (m, e).
Definition ParseFloat (t : string) : option Float64 :=
  let '(negative, n, k) := literal_decimal t in
  '(m, e) ← (if 0 <=? k then nearest_float (n * 10 ^ k) 1 else nearest_float n (10 ^ (- k)));
  Some (mkFloat64 negative m e).
Definition into_float (old : Float64) (v : json) : option Float64 :=
  match v with JNumber t => ParseFloat t | JNull => Some old | _ => None end.

Example float_parse_ex1 : ParseFloat "0.1" = Some (mkFloat64 false 7205759403792794 (-56)).
Proof. vm_compute. reflexivity. Qed.
Example float_parse_ex2 : format_fixed 2 <$> ParseFloat "-1234.565e0" = Some (go_bytes "-1234.57") /\ ParseFloat "1e309" = None.
Proof. vm_compute. split; reflexivity. Qed.

Definition zero_policy : Policy := mkPolicyRow "" "" "" "" 0 "" zero_time zero_time.
Definition into_policy : json -> option Policy :=
  into_struct zero_policy (fun kvs =>
    let names := ["id"; "tenant_id"; "effect"; "policy_text"; "version"; "status"; "created_at"; "updated_at"]%string in
    let str k := decode_field names k into_str ""%string kvs in
    id ← str "id"%string; tenant ← str "tenant_id"%string; effect ← str "effect"%string; text ← str "policy_text"%string;
    version ← decode_field names "version" into_int 0 kvs; status ← str "status"%string;
    created ← decode_field names "created_at" into_civil zero_time kvs; updated ← decode_field names "updated_at" into_civil zero_time kvs;
    Some (mkPolicyRow id tenant effect text version status created updated)).
Definition zero_tenant : Tenant := mkTenantRow "" "" zero_time zero_time.
Definition into_tenant : json -> option Tenant :=
  into_struct zero_tenant (fun kvs =>
    let names := ["id"; "name"; "created_at"; "updated_at"]%string in
    id ← decode_field names "id" into_str ""%string kvs; name ← decode_field names "name" into_str ""%string kvs;
    created ← decode_field names "created_at" into_civil zero_time kvs; updated ← decode_field names "updated_at" into_civil zero_time kvs;
    Some (mkTenantRow id name created updated)).
Definition zero_status : TenantState := mkTenantStatus false false "" 0 zero_time.
Definition into_tenant_status : json -> option TenantState :=
  into_struct zero_status (fun kvs =>
    let names := ["active"; "evicted"; "memory_usage"; "policy_count"; "last_activity"]%string in
    active ← decode_field names "active" into_bool false kvs; evicted ← decode_field names "evicted" into_bool false kvs;
    memory ← decode_field names "memory_usage" into_str ""%string kvs; policies ← decode_field names "policy_count" into_int 0 kvs;
    last ← decode_field names "last_activity" into_civil zero_time kvs;
    Some (mkTenantStatus active evicted memory policies last)).
Definition zero_float : Float64 := mkFloat64 false 0 0.
Definition zero_metrics : MetricsResp := mkMetrics zero_float zero_float zero_float zero_float zero_float 0 "".
Definition into_metrics : json -> option MetricsResp :=
  into_struct zero_metrics (fun kvs =>
    let names := ["decision_rate"; "qps"; "latency_p50_ms"; "latency_p95_ms"; "latency_p99_ms"; "memory_usage_bytes"; "gc_statistics"]%string in
    let float k := decode_field names k into_float zero_float kvs in
    rate ← float "decision_rate"%string; qps ← float "qps"%string; p50 ← float "latency_p50_ms"%string;
    p95 ← float "latency_p95_ms"%string; p99 ← float "latency_p99_ms"%string;
    memory ← decode_field names "memory_usage_bytes" into_uint 0 kvs; gc ← decode_field names "gc_statistics" into_str ""%string kvs;
    Some (mkMetrics rate qps p50 p95 p99 memory gc)).
Definition into_list {A} (into : json -> option A) (v : json) : option (list A) :=
  match v with JArray vs => mapM into vs | JNull => Some [] | _ => None end.

(** ** What a command prints *)

(** [fmtFrac] and [Duration.String]; a duration under a second has a smaller unit. *)
Definition frac_text (prec : nat) (v : Z) : list Z :=
  match reverse (drop_while (fun b => b =? 48) (reverse (fixed_digits prec (v mod 10 ^ Z.of_nat prec) []))) with [] => [] | ds => 46 :: ds end.
Definition duration_text (d : Z) : list Z :=
  let u := Z.abs d in
  let int n := format_int_bytes n in
  (if d <? 0 then [45] else [])
  ++ if u =? 0 then text "0s"
     else if u <? 1000 then int u ++ text "ns"
     else if u <? 1000000 then int (u / 1000) ++ frac_text 3 u ++ [194; 181; 115]
     else if u <? 1000000000 then int (u / 1000000) ++ frac_text 6 u ++ text "ms"
     else
       let s := u / 1000000000 in
       (if 3600 <=? s then int (s / 3600) ++ text "h" else []) ++ (if 60 <=? s then int (s / 60 mod 60) ++ text "m" else [])
       ++ int (s mod 60) ++ frac_text 9 u ++ text "s".
(** [elapsed.Round(time.Microsecond)] of a duration that is not negative and far from the largest. *)
Definition round_micro (d : Z) : Z := let r := d mod 1000 in if r + r <? 1000 then d - r else d + 1000 - r.
Definition latency_text (elapsed : Z) : list Z := duration_text (round_micro elapsed).

Example latency_ex1 : of_bytes (latency_text 3725000400499) = "1h2m5.0004s"%string.
Proof. vm_compute. reflexivity. Qed.
Example latency_ex2 : of_bytes (latency_text 1250500) = "1.251ms"%string /\ of_bytes (latency_text 499) = "0s"%string.
Proof. vm_compute. split; reflexivity. Qed.

Definition line (parts : list (list Z)) : list Z := concat parts ++ [10].

Definition created_lines (r : CreatePolicyResp) : list Z :=
  line [text "Policy created successfully. ID: "; text (cr_PolicyID r); text " (Status: "; text (cr_Status r); text ")"].
Definition updated_lines (policy status : string) : list Z :=
  line [text "Policy "; text policy; text " updated successfully (Status: "; text status; text ")"].
(** [time_string] is the verb [%v] of a time, which names its zone. *)
Definition published_lines (time_string : civil -> list Z) (r : PublishPolicyResp) : list Z :=
  line [text "Policy "; text (pr_PolicyID r); text " published successfully."] ++ line [text "Version: "; number (pr_PublishedVersion r)]
  ++ line [text "Published At: "; time_string (pr_PublishedAt r)] ++ line [text "Sync Cluster Event: "; truth_text (pr_SyncEventSent r)].
Definition deleted_lines (policy : string) (r : gmap string string) : list Z :=
  match r !! "message"%string with
  | Some msg => line [text msg]
  | None => line [text "Policy "; text policy; text " deleted successfully."]
  end.
Definition version_lines (version commit build : string) : list Z :=
  line [text "pectl version: "; text version] ++ line [text "Git Commit:    "; text commit] ++ line [text "Build Time:    "; text build].

(** The value a command passes to [PrintResult]. *)
Inductive Answer :=
| ACreated (r : CreatePolicyResp) | AUpdated (status : string) | APublished (r : PublishPolicyResp) | ADeleted (r : gmap string string)
| APolicies (l : list Policy) | APolicy (p : Policy) | ASimulated (r : SimulateResp) | ADecision (r : DecisionResp)
| AExplained (r : ExplainResp) (latency : list Z) | ATenants (l : list Tenant) | ATenant (t : Tenant) | AStatus (s : TenantState)
| AMetrics (m : MetricsResp) | AHealth (h : HealthResp).

Inductive CliError := BadArguments (e : CommandError) | RequestFailed (e : ClientError) | PrintFailed.
(** The standard output, the error that goes to the standard error, and the exit code. *)
Record Outcome := mkOutcome { out_stdout : list Z; out_error : option CliError; out_code : Z }.
(** [HandleError] of an error ends the process; nothing was printed before. *)
Definition HandleError (e : CliError) : Outcome := mkOutcome [] (Some e) 1.

Section Run.
Context `{UrlAuthority} {W : Type}.
Variables (exchange : HttpRequest -> W -> W * Exchange) (done_before : nat -> bool) (read_file : string -> option string).
Variable ActiveConfig : PectlConfig.
(** The value as [encoding/json] sees it, the text of the encoder of YAML, the verb [%v] of a time, the order in which [range] visits
    the components and the time the request took. *)
Variables (json_of : Answer -> json) (PrintYAML : Answer -> option (list Z)) (time_string : civil -> list Z).
Variables (range : gmap string (string * string) -> list (string * (string * string))) (elapsed : Z).

Definition PrintResult (data : Answer) (table : list Z) : option (list Z) :=
  if bool_decide (pc_Output ActiveConfig = "json"%string) then Some (PrintJSON (json_of data))
  else if bool_decide (pc_Output ActiveConfig = "yaml"%string) then PrintYAML data
  else Some table.

(** The [Run] of a command: the payload, the request and the printing, each ending the process with its error. *)
Definition run_command {A} (cmd : Command) (zero : A) (into : json -> option A) (answer : A -> Answer) (table : A -> list Z) (w : W) : W * Outcome :=
  match command_payload read_file cmd with
  | Err e => (w, HandleError (BadArguments e))
  | Ok payload =>
      let '(w', r, _) := Request exchange done_before (fun body => json_parse body ≫= into) (GetClient ActiveConfig) (command_target cmd).1
                           (command_target cmd).2 ((fun v => Some (json_text v)) <$> payload) w in
      (w', match r with
           | Err e => HandleError (RequestFailed e)
           | Ok resp => let a := default zero resp in
                        match PrintResult (answer a) (table a) with Some out => mkOutcome out None 0 | None => HandleError PrintFailed end
           end)
  end.

(** *** The commands *)

Definition createPolicyCmd t effect file := run_command (PolicyCreate t effect file) (mkCreateResp "" "") into_create_resp ACreated created_lines.
Definition updatePolicyCmd t p file := run_command (PolicyUpdate t p file) ""%string into_update_resp AUpdated (updated_lines p).
Definition publishPolicyCmd t p :=
  run_command (PolicyPublish t p) (mkPublishResp "" "" 0 zero_time false) into_publish_resp APublished (published_lines time_string).
Definition deletePolicyCmd t p := run_command (PolicyDelete t p) ∅ into_delete_resp ADeleted (deleted_lines p).
Definition listPoliciesCmd t := run_command (PolicyList t) [] (into_list into_policy) APolicies PrintPoliciesTable.
Definition getPolicyCmd t p := run_command (PolicyGet t p) zero_policy into_policy APolicy PrintPolicyDetailTable.
Definition simulateCmd t s a r contextFile draftFile includeActive :=
  run_command (SimulateCmd t s a r contextFile draftFile includeActive) (mkSimulateResp "" "" [] [] "") into_simulate_resp ASimulated
    PrintSimulationTable.
Definition checkCmd t s a r :=
  run_command (CheckCmd t s a r) (mkDecisionResp "" "" zero_time) into_decision_resp ADecision
    (fun resp => PrintDecisionTable resp ++ line [text "Latency: "; latency_text elapsed]).
Definition explainCmd t s a r :=
  run_command (ExplainCmd t s a r) (mkExplainResp "" "" []) into_explain_resp (fun resp => AExplained resp (latency_text elapsed))
    (fun resp => PrintExplainTable resp (latency_text elapsed)).
Definition tenantListCmd := run_command TenantList [] (into_list into_tenant) ATenants PrintTenantsTable.
Definition tenantGetCmd t := run_command (TenantGet t) zero_tenant into_tenant ATenant (fun resp => PrintTenantsTable [resp]).
Definition tenantStatusCmd t := run_command (TenantStatus t) zero_status into_tenant_status AStatus (PrintTenantStatusTable t).
Definition metricsCmd := run_command MetricsCmd zero_metrics into_metrics AMetrics PrintMetricsTable.
Definition healthCmd :=
  run_command HealthCmd (mkHealthResp "" ∅) into_health_resp AHealth (fun resp => PrintHealthTable (hl_Status resp) (range (hl_Components resp))).

Definition run (cmd : Command) : W -> W * Outcome :=
  match cmd with
  | PolicyCreate t effect file => createPolicyCmd t effect file
  | PolicyUpdate t p file => updatePolicyCmd t p file
  | PolicyPublish t p => publishPolicyCmd t p
  | PolicyDelete t p => deletePolicyCmd t p
  | PolicyList t => listPoliciesCmd t
  | PolicyGet t p => getPolicyCmd t p
  | SimulateCmd t s a r contextFile draftFile includeActive => simulateCmd t s a r contextFile draftFile includeActive
  | CheckCmd t s a r => checkCmd t s a r
  | ExplainCmd t s a r => explainCmd t s a r
  | TenantList => tenantListCmd
  | TenantGet t => tenantGetCmd t
  | TenantStatus t => tenantStatusCmd t
  | MetricsCmd => metricsCmd
  | HealthCmd => healthCmd
  end.
End Run.

(** ** Theorems about a run *)

(** An answer that ends the first attempt is the result of the request. *)
Lemma request_first `{UrlAuthority} {W A} (exchange : HttpRequest -> W -> W * Exchange) done_before (unmarshal : string -> option A) c method path
    (payload : option string) req w w' r :
  new_request c method path payload = Some req -> attempt_once exchange unmarshal c req w = (w', inr r) ->
  Request exchange done_before unmarshal c method path (Some <$> payload) w = (w', r, []).
Proof.
  intros Hreq Ho. unfold Request. assert (mjoin (Some <$> payload) = payload) as Hj by by destruct payload.
  destruct payload; cbn [fmap option_fmap option_map] in *; rewrite Hj; cbn [attempts Nat.ltb Nat.leb andb]; by rewrite Hreq, Ho.
Qed.

Section Plane.
Context `{UrlAuthority} {W : Type}.
Variables (handler : Endpoint -> list string -> HttpRequest -> W -> W * Exchange) (page : Z -> string).
Variable follow : Bytes -> HttpRequest -> W -> W * Exchange.

(** The mux of the control plane in front of its handlers; the transport follows a redirection. *)
Definition mux_exchange (req : HttpRequest) (w : W) : W * Exchange :=
  match dispatch ConfigureMux (hr_method req) (hr_path req) with
  | Routed ep ids => handler ep ids req w
  | MethodNotAllowed => (w, Answered 405 (page 405))
  | MovedPermanently path => follow path req w
  | PageNotFound => (w, Answered 404 (page 404))
  end.

Variables (done_before : nat -> bool) (read_file : string -> option string) (cfg : PectlConfig).
Hypothesis Hauthority : forall rest, url_rest (trim_suffix (pc_Server cfg) "/" +:+ "/" +:+ rest) = Some ("/" +:+ rest).

Lemma request_served {A} (unmarshal : string -> option A) cmd payload w w' x r : Forall plain_text (path_ids cmd) ->
  (forall req, dispatch ConfigureMux (hr_method req) (hr_path req) = command_dispatch cmd -> hr_body req = payload -> mux_exchange req w = (w', x)) ->
  (forall c req, attempt_once (fun _ v => (v, x)) unmarshal c req w' = (w', inr r)) ->
  Request mux_exchange done_before unmarshal (GetClient cfg) (command_target cmd).1 (command_target cmd).2 (Some <$> payload) w = (w', r, []).
Proof using Hauthority.
  intros Hplain Hx Ho. destruct (command_routed (GetClient cfg) cmd payload Hauthority Hplain) as (req & Hreq & Hroute).
  eapply request_first; [exact Hreq|]. specialize (Ho (GetClient cfg) req). unfold attempt_once in Ho |- *.
  rewrite (Hx req Hroute); [exact Ho|]. by apply new_request_fields in Hreq as [_ ->].
Qed.

Lemma answered_ok {A} (unmarshal : string -> option A) w body a c req : body <> ""%string -> unmarshal body = Some a ->
  attempt_once (fun _ (v : W) => (v, Answered 200 body)) unmarshal c req w = (w, inr (Ok (Some a))).
Proof. intros Hb Ha. unfold attempt_once. change (is_success 200) with true. cbv iota. by rewrite bool_decide_false, Ha. Qed.
Lemma answered_undecoded {A} (unmarshal : string -> option A) w body c req : body <> ""%string -> unmarshal body = None ->
  attempt_once (fun _ (v : W) => (v, Answered 200 body)) unmarshal c req w = (w, inr (Err DecodeFailed)).
Proof. intros Hb Ha. unfold attempt_once. change (is_success 200) with true. cbv iota. by rewrite bool_decide_false, Ha. Qed.

Variables (json_of : Answer -> json) (PrintYAML : Answer -> option (list Z)) (time_string : civil -> list Z).
Variables (range : gmap string (string * string) -> list (string * (string * string))) (elapsed : Z).

Let run' := run mux_exchange done_before read_file cfg json_of PrintYAML time_string range elapsed.

(** The six commands that read policies, tenants and metrics. *)
Lemma reading_run cmd w : command_endpoint cmd = None -> Forall plain_text (path_ids cmd) -> exists status,
  status ∈ [404; 405] /\ run' cmd w = (w, HandleError (RequestFailed (answer_error status (page status)))).
Proof using Hauthority.
  intros Hep Hplain.
  assert (exists status, status ∈ [404; 405] /\ forall req, dispatch ConfigureMux (hr_method req) (hr_path req) = command_dispatch cmd ->
            mux_exchange req w = (w, Answered status (page status))) as (status & Hs & Hx).
  { unfold command_dispatch, mux_exchange. rewrite Hep.
    destruct cmd; try discriminate Hep; first [exists 405; split; [set_solver|by intros req ->]|exists 404; split; [set_solver|by intros req ->]]. }
  exists status. split; [done|].
  assert (forall A (unmarshal : string -> option A),
    Request mux_exchange done_before unmarshal (GetClient cfg) (command_target cmd).1 (command_target cmd).2 None w
    = (w, Err (answer_error status (page status)), [])) as Hr.
  { intros A unmarshal. apply (request_served unmarshal cmd None w w (Answered status (page status))); [done|intros req Hroute _; by apply Hx|].
    intros c req. unfold attempt_once. set_unfold in Hs. by destruct Hs as [->|[->|[]]]. }
  unfold run', run. destruct cmd; try discriminate Hep;
    unfold listPoliciesCmd, getPolicyCmd, tenantListCmd, tenantGetCmd, tenantStatusCmd, metricsCmd, run_command;
    cbn [command_payload fmap option_fmap option_map]; by rewrite Hr.
Qed.

Lemma published_run t p version w w' : Forall plain_text [t; p] -> 1 <= version <= max_int32 -> pc_Output cfg = "table"%string ->
  (forall req, handler EpPublishPolicy [t; p] req w = (w', Answered 200 (published_text version))) ->
  run' (PolicyPublish t p) w = (w', mkOutcome (published_lines time_string (mkPublishResp "" "ACTIVE" 0 zero_time false)) None 0).
Proof using Hauthority.
  intros Hplain Hv Hout Hh. unfold run', run, publishPolicyCmd, run_command. cbn [command_payload fmap option_fmap option_map].
  rewrite (request_served (fun body => json_parse body ≫= into_publish_resp) (PolicyPublish t p) None w w' (Answered 200 (published_text version))
             (Ok (Some (mkPublishResp "" "ACTIVE" 0 zero_time false)))).
  - cbn [default from_option]. unfold PrintResult. rewrite Hout. reflexivity.
  - exact Hplain.
  - intros req Hroute _. unfold mux_exchange. rewrite Hroute. apply Hh.
  - intros c req. apply answered_ok; [by intros E; apply (f_equal go_bytes) in E|].
    apply (answers_misread version "" "" "" [] None); [done|by repeat constructor|done].
Qed.

Lemma explained_run t s a r decision reason matched others obligations w w' : Forall plain_text [] -> valid_texts (decision :: reason :: matched :: others) ->
  obligations_ok obligations ->
  (forall req, handler EpExplain [] req w
     = (w', Answered 200 (json_text (explain_answer decision reason (Some (matched :: others)) (obligations_member obligations))))) ->
  run' (ExplainCmd t s a r) w = (w', HandleError (RequestFailed DecodeFailed)).
Proof using Hauthority.
  intros Hplain Hv Hob Hh. unfold run', run, explainCmd, run_command. cbn [command_payload fmap option_fmap option_map].
  set (answer := json_text _) in Hh.
  rewrite (request_served (fun body => json_parse body ≫= into_explain_resp) (ExplainCmd t s a r) (Some (json_text (decision_json t s a r))) w w' (Answered 200 answer)
             (Err DecodeFailed)).
  - reflexivity.
  - exact Hplain.
  - intros req Hroute _. unfold mux_exchange. rewrite Hroute. apply Hh.
  - intros c req. apply answered_undecoded; [|by apply (answers_misread 1 decision reason matched others obligations)].
    unfold answer, json_text, explain_answer. cbn [json_runes]. rewrite string_of_runes_cons. by intros E; apply (f_equal go_bytes) in E.
Qed.
End Plane.

(** C32: What a user of pectl sees of a plane that does its part: the commands that read policies, tenants and metrics end with exit code 1 and
    print nothing, because no handler serves them; a publication that succeeded is reported, with exit code 0, as version 0 of a policy
    without a name that was published at the zero time and sent no event; and the explanation of any decision with a matched policy is an
    error of decoding. *)
Theorem what_pectl_shows `{UrlAuthority} {W : Type} (handler : Endpoint -> list string -> HttpRequest -> W -> W * Exchange)
    (page : Z -> string) (follow : Bytes -> HttpRequest -> W -> W * Exchange) (done_before : nat -> bool) (read_file : string -> option string)
    (cfg : PectlConfig) (json_of : Answer -> json) (PrintYAML : Answer -> option (list Z)) (time_string : civil -> list Z)
    (range : gmap string (string * string) -> list (string * (string * string))) (elapsed : Z) (tenant policy decision reason matched : string)
    (others : list string) (obligations : option json) (version : Z) (w w' : W)
    (Hauthority : forall rest, url_rest (trim_suffix (pc_Server cfg) "/" +:+ "/" +:+ rest) = Some ("/" +:+ rest))
    (Houtput : pc_Output cfg = "table"%string) (Hplain : Forall plain_text [tenant; policy]) (Hversion : 1 <= version <= max_int32)
    (Htexts : valid_texts (decision :: reason :: matched :: others)) (Hobligations : obligations_ok obligations)
    (Hpublish : forall req, handler EpPublishPolicy [tenant; policy] req w = (w', Answered 200 (published_text version)))
    (Hexplain : forall req, handler EpExplain [] req w
       = (w', Answered 200 (json_text (explain_answer decision reason (Some (matched :: others)) (obligations_member obligations))))) :
  let pectl := run (mux_exchange handler page follow) done_before read_file cfg json_of PrintYAML time_string range elapsed in
  (forall cmd, command_endpoint cmd = None -> Forall plain_text (path_ids cmd) ->
     exists e, pectl cmd w = (w, mkOutcome [] (Some (RequestFailed e)) 1))
  /\ pectl (PolicyPublish tenant policy) w
     = (w', mkOutcome (line [text "Policy  published successfully."] ++ line [text "Version: 0"]
                       ++ line [text "Published At: "; time_string zero_time] ++ line [text "Sync Cluster Event: false"]) None 0)
  /\ (forall t s a r, pectl (ExplainCmd t s a r) w = (w', mkOutcome [] (Some (RequestFailed DecodeFailed)) 1)).
Proof.
  cbv zeta. split_and!.
  - intros cmd Hep Hids. edestruct (reading_run handler page follow done_before read_file cfg Hauthority) as (status & _ & ->); [done|done|].
    by eexists.
  - by erewrite published_run.
  - intros t s a r. by erewrite explained_run; [|done|constructor|exact Htexts|exact Hobligations|exact Hexplain].
Qed.

(** ** Samples *)

Definition sample_json : json :=
  JObject [("decision"%string, JString "ALLOW"); ("matched"%string, JArray [JString "p-1"; JNull]); ("more"%string, JObject [])].
Lemma printed_json_reads_back_witness : json_parse (of_bytes (PrintJSON sample_json)) = Some sample_json.
Proof. apply printed_json_reads_back; [repeat split|vm_compute; discriminate]. Defined.

Definition sample_handler (ep : Endpoint) (_ : list string) (_ : HttpRequest) (w : nat) : nat * Exchange :=
  match ep with
  | EpPublishPolicy => (S w, Answered 200 (published_text 3))
  | EpExplain => (S w, Answered 200 (json_text (explain_answer "ALLOW" "ALLOW_EXPLICIT_PERMIT" (Some ["p-1"%string]) (obligations_member None))))
  | _ => (w, DoFailed)
  end.
Definition sample_config : PectlConfig := mkPectlConfig plane "root-token" "table" 10000000000.

#[local] Existing Instance http_authority.
Lemma what_pectl_shows_witness :
  let pectl := run (mux_exchange sample_handler (fun _ => ""%string) (fun _ _ w => (w, DoFailed))) (fun _ => false) (fun _ => None) sample_config
                 (fun _ => JNull) (fun _ => None) format_rfc3339 map_to_list 0 in
  (forall cmd, command_endpoint cmd = None -> Forall plain_text (path_ids cmd) ->
     exists e, pectl cmd 0%nat = (0%nat, mkOutcome [] (Some (RequestFailed e)) 1))
  /\ pectl (PolicyPublish "t" "p-1") 0%nat
     = (1%nat, mkOutcome (line [text "Policy  published successfully."] ++ line [text "Version: 0"]
                          ++ line [text "Published At: "; format_rfc3339 zero_time] ++ line [text "Sync Cluster Event: false"]) None 0)
  /\ (forall t s a r, pectl (ExplainCmd t s a r) 0%nat = (1%nat, mkOutcome [] (Some (RequestFailed DecodeFailed)) 1)).
Proof.
  apply (what_pectl_shows sample_handler (fun _ => ""%string) (fun _ _ w => (w, DoFailed)) (fun _ => false) (fun _ => None) sample_config
           (fun _ => JNull) (fun _ => None) format_rfc3339 map_to_list 0 "t" "p-1" "ALLOW" "ALLOW_EXPLICIT_PERMIT" "p-1" [] None 3 0%nat 1%nat).
  - assert (trim_suffix (pc_Server sample_config) "/" = plane) as -> by (vm_compute; reflexivity). exact plane_rest.
  - reflexivity.
  - rewrite !Forall_cons. split_and!; [apply plain_text_true; vm_compute; reflexivity..|constructor].
  - vm_compute. split; discriminate.
  - repeat constructor.
  - exact I.
  - reflexivity.
  - reflexivity.
Defined.
