(* ===== verification/SyncWorkers.v ===== *)
(** * The goroutines of the policy syncer ([internal/engine/sync.go])

    A node is a syncer with the goroutines that work on it: the subscriber of
    the notifications, the reconciliation worker, and the loads of tenants on
    demand.  A step is what one of them does between two points where another
    can run: a read of the database, a publication, the return of a call.  A
    bundle is read in one step and published in a later one, so two of them
    can pass each other.  The database steps on its own.  A readiness probe is
    a goroutine too: it asks the database tenant by tenant, and the node moves
    between its questions. *)

From S2P Require Import Prelude GoStr Ast Dag Trie Evaluator Decision Parser Compiler Engine Badger Sync Storage.
From stdpp Require Import options.
Local Open Scope Z_scope.

(** A bundle on its way from the database to memory: the arguments of
    [SyncTenantWithRevision] and what it read, [None] for an error. *)
Record Load := mkLoad {
  ld_tenant : string;
  ld_revision : Z;
  ld_bundle : option TenantPolicyBundle
}.

(** Where [postgresEventSubscriber] is: at the head of its loop or acquiring a
    connection, between [LISTEN] and [onReady], waiting for the notification
    of index [pos], in the callback of that notification, waiting for the
    timer, or returned. *)
Inductive Subscriber :=
| SubConnecting
| SubListened (pos : nat)
| SubWaiting (pos : nat)
| SubLoading (pos : nat) (ev : DBPolicyUpdateEvent)
| SubPublishing (pos : nat) (l : Load)
| SubBackoff
| SubReturned.

(** Where [reconciliationWorker] is: waiting for a tick, in a round with the
    tenants [todo] left, after the read of the revision of a tenant, before and
    after the read of its bundle, or returned. *)
Inductive Reconciler :=
| RecWaiting
| RecRound (todo : list string)
| RecCompare (tid : string) (dbRev : Z) (todo : list string)
| RecLoading (tid : string) (dbRev : Z) (todo : list string)
| RecPublishing (l : Load) (todo : list string)
| RecReturned.

(** [nd_workers] is [None] before [Start]; [nd_canceled] is the state of their
    context.  [nd_tried] is a history that no step reads: the policies that
    simulations tried, each for its tenant. *)
Record Node := mkNode {
  nd_db : Database;
  nd_syncer : Syncer;
  nd_canceled : bool;
  nd_started : bool;
  nd_stopped : bool;
  nd_workers : option (Subscriber * Reconciler);
  nd_loads : list Load;
  nd_tried : list (string * PolicyNode)
}.

Definition set_db (n : Node) (db : Database) : Node :=
  mkNode db (nd_syncer n) (nd_canceled n) (nd_started n) (nd_stopped n) (nd_workers n) (nd_loads n) (nd_tried n).
Definition set_syncer (n : Node) (s : Syncer) : Node :=
  mkNode (nd_db n) s (nd_canceled n) (nd_started n) (nd_stopped n) (nd_workers n) (nd_loads n) (nd_tried n).
Definition set_workers (n : Node) (w : Subscriber * Reconciler) : Node :=
  mkNode (nd_db n) (nd_syncer n) (nd_canceled n) (nd_started n) (nd_stopped n) (Some w) (nd_loads n) (nd_tried n).
Definition set_loads (n : Node) (ls : list Load) : Node :=
  mkNode (nd_db n) (nd_syncer n) (nd_canceled n) (nd_started n) (nd_stopped n) (nd_workers n) ls (nd_tried n).

(** A simulation that has looked the index of the tenant up. *)
Definition simulate_node (n : Node) (tid : string) (simPolicy : option PolicyNode) : Node :=
  mkNode (nd_db n) (set_engine (nd_syncer n) (simulate_live (sy_engine (nd_syncer n)) tid simPolicy)) (nd_canceled n)
    (nd_started n) (nd_stopped n) (nd_workers n) (nd_loads n)
    (nd_tried n ++ match simPolicy with Some p => [(tid, p)] | None => [] end).

Definition NewNode (db : Database) (e : EngineWithGC) : Node := mkNode db (NewSyncer e) false false false None [] [].

(** ** Start and stop *)

(** The two goroutines start once. *)
Definition Start (n : Node) : Node :=
  if nd_started n then n
  else mkNode (nd_db n) (nd_syncer n) (nd_canceled n) true (nd_stopped n) (Some (SubConnecting, RecWaiting)) (nd_loads n) (nd_tried n).

(** [Stop] up to its wait: a [cancel] is there only after [Start]. *)
Definition Stop (n : Node) : Node :=
  if nd_stopped n then n
  else mkNode (nd_db n) (nd_syncer n) (nd_canceled n || nd_started n) (nd_started n) true (nd_workers n) (nd_loads n) (nd_tried n).

(** [wg.Wait] returns. *)
Definition stop_returns (n : Node) : bool :=
  match nd_workers n with
  | None => true
  | Some (SubReturned, RecReturned) => true
  | Some _ => false
  end.

(** ** Steps of the goroutines *)

(** What the worker does with the error of a synchronisation. *)
Definition degrade (r : Syncer * option SyncError) : Syncer :=
  match r with
  | (s, None) => s
  | (s, Some _) => setSyncStatus s SyncStatusDegraded
  end.

Section Workers.
Context `{UnicodeTable} `{RangeOrder} `{RowOrder}.

(** The read of a synchronisation, and the rest of it. *)
Definition start_load (seed : nat) (ok : bool) (db : Database) (tid : string) (revision : Z) : Load :=
  mkLoad tid revision (match GetTenantPolicyBundle seed ok db tid with Ok b => Some b | Err _ => None end).
Definition finish_load (seed : nat) (now clock : Z) (store_ok : bool) (s : Syncer) (l : Load) : Syncer * option SyncError :=
  SyncTenantWithRevision seed now clock store_ok (ld_bundle l) s (ld_tenant l) (ld_revision l).

(** [store_ok] is the outcome of the write to the snapshot store. *)
Inductive SubEvent :=
| SubCheckContext
| SubListen
| SubListenFailed
| SubReady
| SubNotification
| SubRead (seed : nat) (ok : bool)
| SubPublish (seed : nat) (now clock : Z) (store_ok : bool)
| SubLost
| SubTimer
| SubAbandon.

(** [ListenPolicyEvents] returned an error. *)
Definition listen_error (canceled : bool) (s : Syncer) : Subscriber * Syncer :=
  if canceled then (SubReturned, s) else (SubBackoff, on_listen_error s).

(** [None] for a step that is not the next one of the goroutine.  A call on a
    context that is done returns its error. *)
Definition subscriber_step (canceled : bool) (db : Database) (s : Syncer) (w : Subscriber) (ev : SubEvent) :
    option (Subscriber * Syncer) :=
  match ev, w with
  | SubCheckContext, SubConnecting => if canceled then Some (SubReturned, s) else None
  | SubListen, SubConnecting => if canceled then None else Some (SubListened (length (db_policy_events db)), s)
  | SubListenFailed, SubConnecting => Some (listen_error canceled s)
  | SubReady, SubListened pos => Some (SubWaiting pos, on_listening s)
  | SubNotification, SubWaiting pos =>
      if canceled then None
      else match db_policy_events db !! pos with
           | None => None
           | Some ev =>
               if shouldSyncRevision (gc_GetTenantRevision (sy_engine s) (pe_TenantID ev)) (pe_Revision ev)
               then Some (SubLoading pos ev, s)
               else Some (SubWaiting (S pos), s)
           end
  | SubRead seed ok, SubLoading pos ev =>
      Some (SubPublishing pos (start_load seed (ok && negb canceled) db (pe_TenantID ev) (pe_Revision ev)), s)
  | SubPublish seed now clock store_ok, SubPublishing pos l =>
      Some (SubWaiting (S pos), degrade (finish_load seed now clock store_ok s l))
  | SubLost, SubWaiting _ => Some (listen_error canceled s)
  | SubTimer, SubBackoff => Some (SubConnecting, s)
  | SubAbandon, SubBackoff => if canceled then Some (SubReturned, s) else None
  | _, _ => None
  end.

Inductive RecEvent :=
| RecTick (seed : nat)
| RecReadRevision (ok : bool)
| RecCompareRevision
| RecRead (seed : nat) (ok : bool)
| RecPublish (seed : nat) (now clock : Z) (store_ok : bool)
| RecEndRound
| RecCanceled.

Definition reconciler_step (canceled : bool) (db : Database) (s : Syncer) (w : Reconciler) (ev : RecEvent) :
    option (Reconciler * Syncer) :=
  match ev, w with
  | RecTick seed, RecWaiting => Some (RecRound (range_keys seed (dom (gc_state (sy_engine s)))), s)
  | RecReadRevision ok, RecRound (tid :: todo) =>
      match Storage.GetTenantRevision (ok && negb canceled) db tid with
      | Err _ => Some (RecRound todo, setSyncStatus s SyncStatusDegraded)
      | Ok dbRev => Some (RecCompare tid dbRev todo, s)
      end
  | RecCompareRevision, RecCompare tid dbRev todo =>
      if gc_GetTenantRevision (sy_engine s) tid <? dbRev then Some (RecLoading tid dbRev todo, s)
      else Some (RecRound todo, s)
  | RecRead seed ok, RecLoading tid dbRev todo =>
      Some (RecPublishing (start_load seed (ok && negb canceled) db tid dbRev) todo, s)
  | RecPublish seed now clock store_ok, RecPublishing l todo =>
      Some (RecRound todo, degrade (finish_load seed now clock store_ok s l))
  | RecEndRound, RecRound [] => Some (RecWaiting, s)
  | RecCanceled, RecWaiting => if canceled then Some (RecReturned, s) else None
  | _, _ => None
  end.

(** ** The node *)

Inductive NodeEvent :=
| EvStart
| EvStop
| EvSubscriber (ev : SubEvent)
| EvReconciler (ev : RecEvent)
| EvDemand (seed : nat) (ok : bool) (tid : string)
| EvInstall (i : nat) (seed : nat) (now clock : Z) (store_ok : bool)
| EvTouch (now : Z) (tid : string) (count : Z)
| EvUnload (tid : string)
| EvSimulate (tid : string) (simPolicy : option PolicyNode).

(** [EvDemand] and [EvInstall] are the [SyncTenant] of the lazy loader, [EvTouch]
    and [EvUnload] the critical sections of requests and of the collector, and
    [EvSimulate] is [SimulateDecision] once it has the index, which only the
    simulate route of the control plane calls. *)
Definition node_event (n : Node) (ev : NodeEvent) : option Node :=
  let s := nd_syncer n in
  match ev with
  | EvStart => Some (Start n)
  | EvStop => Some (Stop n)
  | EvSubscriber sev =>
      match nd_workers n with
      | None => None
      | Some (w, r) =>
          match subscriber_step (nd_canceled n) (nd_db n) s w sev with
          | None => None
          | Some (w', s') => Some (set_workers (set_syncer n s') (w', r))
          end
      end
  | EvReconciler rev =>
      match nd_workers n with
      | None => None
      | Some (w, r) =>
          match reconciler_step (nd_canceled n) (nd_db n) s r rev with
          | None => None
          | Some (r', s') => Some (set_workers (set_syncer n s') (w, r'))
          end
      end
  | EvDemand seed ok tid => Some (set_loads n (nd_loads n ++ [start_load seed ok (nd_db n) tid 0]))
  | EvInstall i seed now clock store_ok =>
      match nd_loads n !! i with
      | None => None
      | Some l => Some (set_loads (set_syncer n (finish_load seed now clock store_ok s l).1) (delete i (nd_loads n)))
      end
  | EvTouch now tid count => Some (set_syncer n (set_engine s (touchTenant now (sy_engine s) tid count)))
  | EvUnload tid => Some (set_syncer n (set_engine s (UnloadTenant (sy_engine s) tid)))
  | EvSimulate tid simPolicy => Some (simulate_node n tid simPolicy)
  end.

Fixpoint run_node (n : Node) (evs : list NodeEvent) : option Node :=
  match evs with
  | [] => Some n
  | ev :: evs' => match node_event n ev with None => None | Some n' => run_node n' evs' end
  end.

(** ** The readiness probe *)

(** Where [Syncer.Readiness] is: before it reads the status, before it reads the
    state of the engine, in the loop over the tenants of that state with [todo]
    left, or returned with a status and whether there is an error. *)
Inductive Probe :=
| ProbeBegun
| ProbeListening
| ProbeAsking (todo : list (string * TrieRoot))
| ProbeReturned (status : SyncStatus) (failed : bool).

(** The state the loop ranges over, in the order of the map. *)
Definition probe_todo (seed : nat) (st : Tenants) : list (string * TrieRoot) :=
  omap (fun tid => (fun t => (tid, t)) <$> st !! tid) (range_keys seed (dom st)).

(** [ok] is the outcome of the read of one revision. *)
Definition probe_step (seed : nat) (ok : bool) (n : Node) (p : Probe) : option Probe :=
  match p with
  | ProbeBegun =>
      Some (if decide (sy_status (nd_syncer n) = SyncStatusHealthy) then ProbeListening
            else ProbeReturned (sy_status (nd_syncer n)) true)
  | ProbeListening => Some (ProbeAsking (probe_todo seed (gc_state (sy_engine (nd_syncer n)))))
  | ProbeAsking [] => Some (ProbeReturned SyncStatusHealthy false)
  | ProbeAsking ((tid, t) :: todo) =>
      match Storage.GetTenantRevision ok (nd_db n) tid with
      | Err _ => Some (ProbeReturned SyncStatusDegraded true)
      | Ok revision => if bool_decide (revision = Revision t) then Some (ProbeAsking todo)
                       else Some (ProbeReturned SyncStatusDegraded true)
      end
  | ProbeReturned _ _ => None
  end.

End Workers.
