(* ===== verification/SyncWorkersFacts.v ===== *)
(** * A node serves what the database committed

    Whatever the order in which the goroutines of a node, its requests and the
    writers of the database take their steps, a tenant is served from one
    committed state of the database; a ready node serves the current one; a
    round of reconciliation catches up with the state it started from; and
    [Stop] ends the goroutines.  A tenant may be answered from what simulations
    tried for it too, because they leave it in the live index. *)

From S2P Require Import Prelude GoStr GoCrypto Ast Dag DagFacts Trie TrieFacts Evaluator Decision DecisionFacts.
From S2P Require Import Lexer Parser Roles Compiler CompilerFacts Engine EngineFacts Badger Canonical Intent Delegation Revocation.
From S2P Require Import Sync SyncFacts Server Storage StorageFacts SyncWorkers.
From stdpp Require Import relations fin_sets options.
Local Open Scope Z_scope.

(** ** What a database has announced *)

(** Revisions start at one, and no notification is ahead of the revision of its tenant. *)
Record db_sound (db : Database) : Prop := {
  do_positive : forall t rev, db_tenants db !! t = Some rev -> 0 < rev;
  do_events : forall e, e ∈ db_policy_events db ->
    exists rev, db_tenants db !! pe_TenantID e = Some rev /\ pe_Revision e <= rev
}.

Section Database.
Context `{RangeOrder}.

(** A step keeps the tenants and the notifications, or advances one tenant and
    announces it, or adds one at revision one. *)
Inductive moved (db db' : Database) : Prop :=
| MovedNot : db_tenants db' = db_tenants db -> db_policy_events db' = db_policy_events db -> moved db db'
| MovedNew t : db_tenants db !! t = None -> db_tenants db' = <[t := 1]> (db_tenants db) ->
    db_policy_events db' = db_policy_events db -> moved db db'
| MovedOn t cur pol act : db_tenants db !! t = Some cur -> db_tenants db' = <[t := cur + 1]> (db_tenants db) ->
    db_policy_events db' = db_policy_events db ++ [mkPolicyEvent t pol act (cur + 1)] -> moved db db'.

Lemma increment_moved db1 db t pol act db' rev :
  db_tenants db1 = db_tenants db -> db_policy_events db1 = db_policy_events db ->
  incrementTenantRevisionAndNotify db1 t pol act = Ok (db', rev) -> moved db db'.
Proof.
  intros Ht He Hi. apply increment_ok in Hi as (cur & Hcur & -> & ->). rewrite Ht in Hcur.
  apply (MovedOn _ _ t cur pol act); [done|cbn; by rewrite Ht|cbn; by rewrite He].
Qed.

Ltac tx H := apply transaction_cases in H as [->|(? & H)]; [by apply MovedNot|].

Lemma step_moved db db' : storage_step db db' -> moved db db'.
Proof.
  intros Hstep. destruct Hstep as [o id db name db' r Hc|o id db own eff text db' r Hc|o db own id text db' r Hc
    |o db own id ast db' r Hc|o db own id db' r Hc|seed o db own pairs db' r Hc|o db rec db' r Hc].
  - unfold CreateTenant in Hc. tx Hc. destruct (db_names db !! name); [apply Ok_inj in Hc as [= <- _]; by apply MovedNot|].
    case_bool_decide as Hid; [done|]. apply Ok_inj in Hc as [= <- _]. apply (MovedNew _ _ id); [|done..].
    by apply eq_None_not_Some.
  - unfold CreatePolicy in Hc. tx Hc. destruct (_ || _); [done|]. apply Ok_inj in Hc as [= <- _]. by apply MovedNot.
  - unfold updatePolicy in Hc. tx Hc. apply rbind_ok in Hc as (p & _ & Hc). case_bool_decide.
    + apply rbind_ok in Hc as ([db2 rev] & Hi & Hc). apply Ok_inj in Hc as [= <- _]. by eapply increment_moved; [| |exact Hi].
    + apply Ok_inj in Hc as [= <- _]. by apply MovedNot.
  - unfold publishPolicy in Hc. tx Hc. apply rbind_ok in Hc as (p & _ & Hc). destruct (max_int32 <=? _); [done|].
    apply rbind_ok in Hc as ([db2 rev] & Hi & Hc). apply Ok_inj in Hc as [= <- _]. by eapply increment_moved; [| |exact Hi].
  - unfold deletePolicy in Hc. tx Hc. apply rbind_ok in Hc as (p & _ & Hc).
    apply rbind_ok in Hc as ([db2 rev] & Hi & Hc). apply Ok_inj in Hc as [= <- _]. by eapply increment_moved; [| |exact Hi].
  - unfold replaceRoleInheritances in Hc. destruct (validateRoleInheritances seed pairs); [|injection Hc as <- _; by apply MovedNot].
    tx Hc. destruct (negb _); [done|]. apply rbind_ok in Hc as ([db2 rev] & Hi & Hc). apply Ok_inj in Hc as [= <- _].
    by eapply increment_moved; [| |exact Hi].
  - unfold PersistRevocation in Hc. tx Hc. destruct (_ || _); [done|]. apply Ok_inj in Hc as [= <- _]. by apply MovedNot.
Qed.

Lemma moved_ok db db' : moved db db' -> db_sound db -> db_sound db'.
Proof.
  intros Hm [Hp He]. destruct Hm as [Ht Hv|t Hn Ht Hv|t cur pol act Hc Ht Hv]; constructor; rewrite ?Ht, ?Hv; try done.
  - intros t' rev [[<- <-]|[_ ?]]%lookup_insert_Some; [lia|eauto].
  - intros e Hin. destruct (He e Hin) as (rev & Hr & Hle). exists rev. split; [|done].
    rewrite lookup_insert_ne; [done|]. intros ->. congruence.
  - intros t' rev [[<- <-]|[_ ?]]%lookup_insert_Some; [|eauto]. specialize (Hp _ _ Hc). lia.
  - intros e [Hin| ->%list_elem_of_singleton]%elem_of_app.
    + destruct (He e Hin) as (rev & Hr & Hle). destruct (decide (t = pe_TenantID e)) as [->|Hne].
      * exists (cur + 1). rewrite lookup_insert_eq. split; [done|]. assert (rev = cur) by congruence. lia.
      * exists rev. by rewrite lookup_insert_ne.
    + exists (cur + 1). cbn. rewrite lookup_insert_eq. split; [done|lia].
Qed.

Lemma steps_ok db db' : rtc storage_step db db' -> db_sound db -> db_sound db'.
Proof. induction 1 as [|x y z Hs _ IH]; [done|]. intros ?. apply IH. by eapply moved_ok; [apply step_moved|]. Qed.

Lemma steps_tracks t db db' : rtc storage_step db db' -> tracks t db db'.
Proof. induction 1 as [|x y z Hs _ IH]; [apply tracks_refl|]. eapply tracks_trans; [by apply step_tracks|done]. Qed.

Lemma steps_events db db' : rtc storage_step db db' -> exists es, db_policy_events db' = db_policy_events db ++ es.
Proof.
  induction 1 as [|x y z Hs _ [es IH]]; [exists []; by rewrite app_nil_r|].
  apply step_moved in Hs as [_ E|? _ _ E|? ? ? ? _ _ E]; rewrite IH, E; [by exists es..|].
  eexists. by rewrite <- app_assoc.
Qed.

Lemma steps_revision t db db' rev : rtc storage_step db db' -> db_tenants db !! t = Some rev ->
  exists rev', db_tenants db' !! t = Some rev' /\ rev <= rev'.
Proof. intros Hs Hr. destruct (steps_tracks t _ _ Hs rev Hr) as (rev' & ? & ? & ? & _). by exists rev'. Qed.
End Database.

(** ** Committed states *)

Section Node.
Context `{UnicodeTable} `{RangeOrder} `{RowOrder}.

(** [b] is what a read of tenant [tid] returned in some committed state up to [db]. *)
Definition committed (db0 db : Database) (tid : string) (b : TenantPolicyBundle) : Prop :=
  exists past seed, rtc storage_step db0 past /\ rtc storage_step past db
    /\ GetTenantPolicyBundle seed true past tid = Ok b.

(** The index of a tenant is that of a committed bundle, with policies
    simulations [tried] for the tenant, if any, that leaked into it. *)
Definition serves (tried : list (string * PolicyNode)) (db0 db : Database) (tid : string) (t : TrieRoot) : Prop :=
  exists b compiled leaked, committed db0 db tid b /\ CompilePolicySet (pb_policies b) = Ok compiled
    /\ (forall p, p ∈ leaked -> (tid, p) ∈ tried)
    /\ represents_and tid (mkBundle compiled (pb_inheritances b) (pb_revision b)) leaked t.

Lemma serves_untried db0 db tid b compiled t tried :
  committed db0 db tid b -> CompilePolicySet (pb_policies b) = Ok compiled ->
  represents tid (mkBundle compiled (pb_inheritances b) (pb_revision b)) t -> serves tried db0 db tid t.
Proof.
  intros Hb Hc Hr. exists b, compiled, []. split_and!; [done|done|by intros p ?%not_elem_of_nil|by apply represents_and_nil].
Qed.

(** A bundle that was read belongs to the tenant of the load, and is not older
    than the revision the load was started for. *)
Definition load_ok (db0 db : Database) (l : Load) : Prop :=
  forall b, ld_bundle l = Some b -> committed db0 db (ld_tenant l) b /\ ld_revision l <= pb_revision b.

Definition known (db : Database) (tid : string) (rev : Z) : Prop :=
  exists cur, db_tenants db !! tid = Some cur /\ rev <= cur.

Definition subscriber_ok (db0 db : Database) (w : Subscriber) : Prop :=
  match w with
  | SubLoading _ ev => known db (pe_TenantID ev) (pe_Revision ev)
  | SubPublishing _ l => load_ok db0 db l
  | _ => True
  end.
Definition reconciler_ok (db0 db : Database) (r : Reconciler) : Prop :=
  match r with
  | RecCompare tid rev _ | RecLoading tid rev _ => known db tid rev
  | RecPublishing l _ => load_ok db0 db l
  | _ => True
  end.
Definition tries_ok (tried : list (string * PolicyNode)) (db0 db : Database) (st : Tenants) : Prop :=
  forall tid t, st !! tid = Some t -> serves tried db0 db tid t.

Record node_ok (db0 : Database) (n : Node) : Prop := {
  no_history : rtc storage_step db0 (nd_db n);
  no_tries : tries_ok (nd_tried n) db0 (nd_db n) (gc_state (sy_engine (nd_syncer n)));
  no_subscriber : forall w r, nd_workers n = Some (w, r) -> subscriber_ok db0 (nd_db n) w;
  no_reconciler : forall w r, nd_workers n = Some (w, r) -> reconciler_ok db0 (nd_db n) r;
  no_loads : Forall (load_ok db0 (nd_db n)) (nd_loads n);
  no_started : nd_started n = true <-> is_Some (nd_workers n)
}.

Inductive node_step : Node -> Node -> Prop :=
| NodeMoves n ev n' : node_event n ev = Some n' -> node_step n n'
| DatabaseMoves n db : storage_step (nd_db n) db -> node_step n (set_db n db).

(** Everything known stays known as the database moves. *)
Lemma committed_mono db0 db db' tid b : storage_step db db' -> committed db0 db tid b -> committed db0 db' tid b.
Proof.
  intros Hs (past & seed & Ha & Hb & Hc). exists past, seed. split_and!; [done| |done]. by eapply rtc_r.
Qed.
Lemma load_ok_mono db0 db db' l : storage_step db db' -> load_ok db0 db l -> load_ok db0 db' l.
Proof. intros Hs Hl b Hb. destruct (Hl b Hb). split; [by eapply committed_mono|done]. Qed.
Lemma known_mono db db' tid rev : storage_step db db' -> known db tid rev -> known db' tid rev.
Proof.
  intros Hs (cur & Hc & Hle). destruct (steps_revision tid db db' cur (rtc_once _ _ Hs) Hc) as (cur' & ? & ?).
  exists cur'. split; [done|lia].
Qed.
Lemma tries_ok_mono tried db0 db db' st : storage_step db db' -> tries_ok tried db0 db st -> tries_ok tried db0 db' st.
Proof.
  intros Hs Ht tid t Hl. destruct (Ht tid t Hl) as (b & c & leaked & Ha & Hb & Hc & Hr). exists b, c, leaked.
  split_and!; [by eapply committed_mono|done..].
Qed.

Lemma database_step_ok db0 n db : storage_step (nd_db n) db -> node_ok db0 n -> node_ok db0 (set_db n db).
Proof.
  intros Hs [Hh Ht Hsub Hrec Hl Hst]. constructor; cbn; try done.
  - by eapply rtc_r.
  - by eapply tries_ok_mono.
  - intros w r Hw. specialize (Hsub w r Hw). destruct w; cbn in *; try done; [by eapply known_mono|by eapply load_ok_mono].
  - intros w r Hw. specialize (Hrec w r Hw). destruct r; cbn in *; try done; first [by eapply known_mono|by eapply load_ok_mono].
  - eapply Forall_impl; [exact Hl|]. intros l. by apply load_ok_mono.
Qed.

(** ** Reads and publications *)

Lemma bundle_revision seed db tid b : GetTenantPolicyBundle seed true db tid = Ok b ->
  db_tenants db !! tid = Some (pb_revision b).
Proof.
  unfold GetTenantPolicyBundle. cbn [negb]. destruct (db_tenants db !! tid); [|done]. intros E. by apply Ok_inj in E as <-.
Qed.

Lemma start_load_ok db0 seed ok db tid rev :
  rtc storage_step db0 db -> known db tid rev -> load_ok db0 db (start_load seed ok db tid rev).
Proof.
  intros Hh (cur & Hc & Hle) b. unfold start_load. cbn [ld_bundle ld_tenant ld_revision].
  destruct (GetTenantPolicyBundle seed ok db tid) as [b'|] eqn:E; [|done]. intros [= ->].
  destruct ok; [|done]. split; [|by rewrite (bundle_revision _ _ _ _ E) in Hc; simplify_eq].
  exists db, seed. by split_and!; [|apply rtc_refl|].
Qed.

Lemma start_demand_ok db0 seed ok db tid : db_sound db ->
  rtc storage_step db0 db -> load_ok db0 db (start_load seed ok db tid 0).
Proof.
  intros [Hp _] Hh b Hb. destruct (db_tenants db !! tid) as [cur|] eqn:E.
  - refine (start_load_ok db0 seed ok db tid 0 Hh _ b Hb). exists cur. split; [done|]. specialize (Hp _ _ E). lia.
  - unfold start_load in Hb. cbn [ld_bundle] in Hb. unfold GetTenantPolicyBundle in Hb. rewrite E in Hb. by destruct ok.
Qed.

(** A load leaves the indexes as they are or installs its bundle, and never fails for being ahead. *)
Lemma finish_load_spec db0 db seed now clock store_ok s l :
  load_ok db0 db l ->
  let r := finish_load seed now clock store_ok s l in
  (gc_state (sy_engine r.1) = gc_state (sy_engine s)
   \/ exists b compiled t, ld_bundle l = Some b /\ CompilePolicySet (pb_policies b) = Ok compiled
        /\ represents (ld_tenant l) (mkBundle compiled (pb_inheritances b) (pb_revision b)) t
        /\ gc_state (sy_engine r.1) = <[ld_tenant l := t]> (gc_state (sy_engine s))
        /\ forall cur, gc_state (sy_engine s) !! ld_tenant l = Some cur -> pb_revision b <= 0 \/ Revision cur < pb_revision b)
  /\ forall received bundle, r.2 <> Some (SyncAhead received bundle).
Proof.
  intros Hl. cbv zeta. unfold finish_load, SyncTenantWithRevision.
  destruct (ld_bundle l) as [b|] eqn:Eb; [|cbn; by split; [left|]].
  destruct (CompilePolicySet (pb_policies b)) as [compiled|] eqn:Ec; [|cbn; by split; [left|]].
  destruct (Z.ltb_spec (pb_revision b) (ld_revision l)); [destruct (Hl b Eb); lia|].
  unfold gc_UpdateTenantPoliciesWithRevision. destruct (buildTenantTrie _ _ _ _ _) as [t|] eqn:Et; cbn [rbind].
  2: { destruct (is_stale_error _); cbn; by split; [left|]. }
  apply buildTenantTrie_ok in Et.
  pose proof (publish_at_spec (gc_state (sy_engine s)) (ld_tenant l) t (pb_revision b)) as Hp.
  destruct (publish_at _ _ _ _) as [[st sw]|]; cbn [rbind];
    [|destruct (is_stale_error _); cbn; by split; [left|]].
  assert (forall e', gc_state e' = st ->
    gc_state e' = gc_state (sy_engine s)
    \/ exists b0 compiled0 t0, Some b = Some b0 /\ CompilePolicySet (pb_policies b0) = Ok compiled0
        /\ represents (ld_tenant l) (mkBundle compiled0 (pb_inheritances b0) (pb_revision b0)) t0
        /\ gc_state e' = <[ld_tenant l := t0]> (gc_state (sy_engine s))
        /\ forall cur, gc_state (sy_engine s) !! ld_tenant l = Some cur -> pb_revision b0 <= 0 \/ Revision cur < pb_revision b0) as Hst.
  { intros e' ->. destruct sw; destruct Hp as [-> Hcur]; [right|by left]. exists b, compiled, t. by split_and!. }
  destruct sw; (destruct (sy_badger s) as [store|]; [destruct (SavePolicySnapshot _ _ _)|]).
  all: cbn [fst snd sy_engine set_engine SetBadgerStore]. all: split; [apply Hst; first [done|by destruct Hp as [-> _]]|done].
Qed.

Lemma finish_load_ok tried db0 db seed now clock store_ok s l :
  load_ok db0 db l -> tries_ok tried db0 db (gc_state (sy_engine s)) ->
  tries_ok tried db0 db (gc_state (sy_engine (finish_load seed now clock store_ok s l).1)).
Proof.
  intros Hl Ht. destruct (finish_load_spec db0 db seed now clock store_ok s l Hl) as [[->|Hin] _]; [done|].
  destruct Hin as (b & compiled & t & Hb & Hc & Hr & -> & _). intros tid t' [[<- <-]|[_ ?]]%lookup_insert_Some; [|by apply Ht].
  eapply serves_untried; [by apply Hl|done..].
Qed.

Lemma degrade_engine r : sy_engine (degrade r) = sy_engine r.1.
Proof. by destruct r as [s [e|]]. Qed.

Lemma start_load_tenant seed ok db tid rev : ld_tenant (start_load seed ok db tid rev) = tid.
Proof. done. Qed.

(** ** The steps of the goroutines *)

Lemma subscriber_step_ok tried db0 canceled db s w ev w' s' :
  db_sound db -> rtc storage_step db0 db -> subscriber_ok db0 db w -> tries_ok tried db0 db (gc_state (sy_engine s)) ->
  subscriber_step canceled db s w ev = Some (w', s') ->
  subscriber_ok db0 db w' /\ tries_ok tried db0 db (gc_state (sy_engine s')).
Proof.
  intros Hdb Hh Hw Ht. unfold subscriber_step, listen_error.
  destruct ev, w; try done; try (destruct canceled; [intros [= <- <-]; done|]; intros [= <- <-]; done);
    try (by intros [= <- <-]); try (destruct canceled; [done|]; by intros [= <- <-]).
  - destruct canceled; [done|]. destruct (db_policy_events db !! pos) as [ev|] eqn:E; [|done].
    destruct (shouldSyncRevision _ _); intros [= <- <-]; [|done]. split; [|done]. cbn.
    apply list_elem_of_lookup_2 in E. by apply Hdb in E.
  - intros [= <- <-]. split; [|done]. by apply start_load_ok.
  - intros [= <- <-]. split; [done|]. rewrite degrade_engine. by apply finish_load_ok.
Qed.

Lemma reconciler_step_ok tried db0 canceled db s r ev r' s' :
  rtc storage_step db0 db -> reconciler_ok db0 db r -> tries_ok tried db0 db (gc_state (sy_engine s)) ->
  reconciler_step canceled db s r ev = Some (r', s') ->
  reconciler_ok db0 db r' /\ tries_ok tried db0 db (gc_state (sy_engine s')).
Proof.
  intros Hh Hr Ht. unfold reconciler_step. destruct ev, r; try done; try (by intros [= <- <-]).
  - destruct todo as [|tid todo]; [done|]. unfold Storage.GetTenantRevision. destruct (negb _); [by intros [= <- <-]|].
    destruct (db_tenants db !! tid) as [cur|] eqn:E; intros [= <- <-]; [|done]. split; [|done]. exists cur. by split.
  - destruct (_ <? _); by intros [= <- <-].
  - intros [= <- <-]. split; [|done]. by apply start_load_ok.
  - intros [= <- <-]. split; [done|]. rewrite degrade_engine. by apply finish_load_ok.
  - destruct todo; [|done]. by intros [= <- <-].
  - destruct canceled; [|done]. by intros [= <- <-].
Qed.

Lemma tries_ok_tried tried tried' db0 db st : tried ⊆ tried' -> tries_ok tried db0 db st -> tries_ok tried' db0 db st.
Proof.
  intros Hsub Ht tid t Hl. destruct (Ht tid t Hl) as (b & c & leaked & Ha & Hb & Hc & Hr). exists b, c, leaked.
  split_and!; [done|done| |done]. intros p Hp. by apply Hsub, Hc.
Qed.

(** A simulation may leave the policy it tried in the index. *)
Lemma simulate_tries_ok tried db0 db e tid p : tries_ok tried db0 db (gc_state e) ->
  tries_ok (tried ++ match p with Some q => [(tid, q)] | None => [] end) db0 db (gc_state (simulate_live e tid p)).
Proof.
  intros Ht. change (gc_state (simulate_live e tid p)) with (alter (fun t => simulated_live t p) tid (gc_state e)).
  destruct p as [q|]; [|rewrite app_nil_r].
  - intros tid' t' [(<- & t & Hl & ->)|[_ Hl]]%lookup_alter_Some.
    + destruct (Ht tid t Hl) as (b & c & leaked & Ha & Hb & Hc & Hr). eexists b, c, _.
      split_and!; [done|done| |by apply simulated_represents]. intros p Hp. apply elem_of_app.
      destruct (leaks t (Some q)); [|by left; apply Hc].
      apply elem_of_app in Hp as [?| ->%list_elem_of_singleton]; [by left; apply Hc|right; by left].
    + eapply (tries_ok_tried tried); [set_solver|exact Ht|exact Hl].
  - intros tid' t' [(<- & t & Hl & ->)|[_ Hl]]%lookup_alter_Some; [by apply Ht|by apply Ht].
Qed.

Lemma node_event_ok db0 n ev n' : db_sound db0 -> node_ok db0 n -> node_event n ev = Some n' -> node_ok db0 n'.
Proof.
  intros Hdb0 Hn. pose proof Hn as [Hh Ht Hsub Hrec Hl Hst]. assert (db_sound (nd_db n)) as Hdb by (by eapply steps_ok).
  destruct ev as [| |sev|rev|seed ok tid|i seed now clock store_ok|now tid count|tid|tid p]; cbn [node_event].
  - intros [= <-]. unfold Start. destruct (nd_started n); [done|]. constructor; cbn; try done; by intros w r [= <- <-].
  - intros [= <-]. unfold Stop. by destruct (nd_stopped n).
  - destruct (nd_workers n) as [[w r]|] eqn:Ew; [|done].
    destruct (subscriber_step _ _ _ _ _) as [[w' s']|] eqn:E; [|done]. intros [= <-].
    apply (subscriber_step_ok (nd_tried n) db0) in E as [Hw' Ht']; [|by eauto..]. constructor; cbn; try done.
    + by intros ?? [= <- <-].
    + intros ?? [= <- <-]. by eapply Hrec.
    + rewrite Hst. split; by eexists.
  - destruct (nd_workers n) as [[w r]|] eqn:Ew; [|done].
    destruct (reconciler_step _ _ _ _ _) as [[r' s']|] eqn:E; [|done]. intros [= <-].
    apply (reconciler_step_ok (nd_tried n) db0) in E as [Hr' Ht']; [|by eauto..]. constructor; cbn; try done.
    + intros ?? [= <- <-]. by eapply Hsub.
    + by intros ?? [= <- <-].
    + rewrite Hst. split; by eexists.
  - intros [= <-]. constructor; cbn; try done. apply Forall_app. split; [done|]. constructor; [|done].
    by apply start_demand_ok.
  - destruct (nd_loads n !! i) as [l|] eqn:E; [|done]. intros [= <-]. constructor; cbn; try done.
    + apply finish_load_ok; [|done]. by eapply (Forall_lookup_1 _ _ _ _ Hl).
    + by apply Forall_delete.
  - intros [= <-]. by constructor.
  - intros [= <-]. constructor; cbn; try done. rewrite UnloadTenant_state.
    intros tid' t [_ Hlk]%lookup_delete_Some. by apply Ht.
  - intros [= <-]. constructor; cbn; try done. by apply simulate_tries_ok.
Qed.

Lemma node_step_ok db0 n n' : db_sound db0 -> node_step n n' -> node_ok db0 n -> node_ok db0 n'.
Proof. intros Hdb0 [] Hn; [by eapply node_event_ok|by apply database_step_ok]. Qed.

Lemma new_node_ok db cfg : node_ok db (NewNode db (NewEngineWithGC cfg)).
Proof. by constructor; cbn. Qed.

Lemma reachable_node_ok db cfg n : db_sound db -> rtc node_step (NewNode db (NewEngineWithGC cfg)) n -> node_ok db n.
Proof.
  intros Hdb Hr. assert (node_ok db (NewNode db (NewEngineWithGC cfg))) as Hinit by apply new_node_ok.
  induction Hr as [|x y z Hs _ IH]; [done|]. apply IH. by eapply node_step_ok.
Qed.

(** ** A ready node *)

(** The rows a bundle is read from determine it. *)
Lemma bundle_same seed db db' tid :
  db_tenants db' !! tid = db_tenants db !! tid -> active_policies db' tid = active_policies db tid ->
  tenant_roles db' tid = tenant_roles db tid ->
  GetTenantPolicyBundle seed true db' tid = GetTenantPolicyBundle seed true db tid.
Proof. intros Ht Ha Hr. unfold GetTenantPolicyBundle, select_active. by rewrite Ht, Ha, Hr. Qed.

Lemma committed_current db0 db tid b : committed db0 db tid b -> db_tenants db !! tid = Some (pb_revision b) ->
  exists seed, GetTenantPolicyBundle seed true db tid = Ok b.
Proof.
  intros (past & seed & _ & Hs & Hb) Hcur. exists seed. pose proof (bundle_revision _ _ _ _ Hb) as Hrev.
  destruct (steps_tracks tid _ _ Hs _ Hrev) as (rev' & es & Hrev' & _ & Hsame & _).
  destruct Hsame as [Ha Hr]; [congruence|]. rewrite <- Hb. apply bundle_same; [congruence|done..].
Qed.

(** What a tenant of a node is answered from: the policies and roles of [b], at
    its revision, and policies simulations [tried] for the tenant, if any. *)
Definition answers_from (tried : list (string * PolicyNode)) (e : EngineWithGC) (tid : string) (t : TrieRoot)
    (b : TenantPolicyBundle) : Prop :=
  exists compiled leaked, CompilePolicySet (pb_policies b) = Ok compiled /\ Revision t = pb_revision b
    /\ (forall p, p ∈ leaked -> (tid, p) ∈ tried)
    /\ forall loader now rq, hash_separates (normalizeAction (rq_action rq)) ->
         answers_for (mkBundle (compiled ++ leaked) (pb_inheritances b) (pb_revision b)) rq (answer loader now e tid rq).

Lemma serves_answers tried db0 db e tid t : gc_state e !! tid = Some t -> serves tried db0 db tid t ->
  exists b, committed db0 db tid b /\ answers_from tried e tid t b.
Proof.
  intros Ht (b & compiled & leaked & Hb & Hc & Hl & Hr). exists b. split; [done|]. exists compiled, leaked.
  split_and!; [done|by apply represents_and_fields in Hr as [_ ->]|done|]. intros loader now rq Hsep.
  by eapply (answer_represents_and loader now e tid t (mkBundle compiled (pb_inheritances b) (pb_revision b))).
Qed.

(** Without a simulation that tried a policy for the tenant the answers are
    those of the bundle alone. *)
Lemma answers_from_untried tried e tid t b : (forall p, (tid, p) ∉ tried) -> answers_from tried e tid t b ->
  exists compiled, CompilePolicySet (pb_policies b) = Ok compiled /\ Revision t = pb_revision b
    /\ forall loader now rq, hash_separates (normalizeAction (rq_action rq)) ->
         answers_for (mkBundle compiled (pb_inheritances b) (pb_revision b)) rq (answer loader now e tid rq).
Proof.
  intros Hno (compiled & leaked & Hc & Hr & Hl & Ha). exists compiled.
  destruct leaked as [|p leaked]; [rewrite app_nil_r in Ha; by split_and!|]. destruct (Hno p). apply Hl. by left.
Qed.

(** ** A round of reconciliation *)

Definition memory_revision (n : Node) (tid : string) : Z := current_revision (gc_state (sy_engine (nd_syncer n))) tid.

(** The reads and publications of the reconciliation worker succeed. *)
Definition reconciler_succeeds (n : Node) (ev : NodeEvent) : Prop :=
  match ev, nd_workers n with
  | EvReconciler (RecReadRevision ok), Some (_, RecRound (tid :: _)) =>
      exists rev, Storage.GetTenantRevision (ok && negb (nd_canceled n)) (nd_db n) tid = Ok rev
  | EvReconciler (RecPublish seed now clock store_ok), Some (_, RecPublishing l _) =>
      (finish_load seed now clock store_ok (nd_syncer n) l).2 = None
  | EvUnload _, _ => False
  | _, _ => True
  end.

(** Any step but an unload and a failure of the reconciliation worker. *)
Inductive calm_step : Node -> Node -> Prop :=
| CalmEvent n ev n' : reconciler_succeeds n ev -> node_event n ev = Some n' -> calm_step n n'
| CalmDatabase n db : storage_step (nd_db n) db -> calm_step n (set_db n db).

Lemma calm_node_step n n' : calm_step n n' -> node_step n n'.
Proof. destruct 1; [by eapply NodeMoves|by apply DatabaseMoves]. Qed.

Lemma load_positive db0 db l b : db_sound db0 -> load_ok db0 db l -> ld_bundle l = Some b -> 0 < pb_revision b.
Proof.
  intros Hdb Hl Hb. destruct (Hl b Hb) as [(past & seed & Hp & _ & Hg) _].
  eapply (steps_ok _ _ Hp Hdb). by eapply bundle_revision.
Qed.

(** A publication never lowers a revision. *)
Lemma finish_load_mono db0 db seed now clock store_ok s l tid : db_sound db0 -> load_ok db0 db l ->
  current_revision (gc_state (sy_engine s)) tid
  <= current_revision (gc_state (sy_engine (finish_load seed now clock store_ok s l).1)) tid.
Proof.
  intros Hdb Hl. destruct (finish_load_spec db0 db seed now clock store_ok s l Hl) as [[->|Hin] _]; [done|].
  destruct Hin as (b & compiled & t & Hb & _ & Hr & -> & Hcur). pose proof (load_positive _ _ _ _ Hdb Hl Hb) as Hpos.
  apply represents_fields in Hr as [_ Hr]. cbn in Hr. unfold current_revision.
  destruct (decide (ld_tenant l = tid)) as [<-|Hne]; [|by rewrite lookup_insert_ne].
  rewrite lookup_insert_eq. cbn. rewrite Hr. destruct (gc_state (sy_engine s) !! ld_tenant l) as [cur|] eqn:E; cbn; [|lia].
  destruct (Hcur cur eq_refl); lia.
Qed.

(** A synchronisation without an error reaches the revision it was started for. *)
Lemma finish_load_reaches db0 db seed now clock store_ok s l : db_sound db0 -> load_ok db0 db l ->
  let r := finish_load seed now clock store_ok s l in
  r.2 = None -> ld_revision l <= current_revision (gc_state (sy_engine r.1)) (ld_tenant l).
Proof.
  intros Hdb Hl. cbv zeta. unfold finish_load, SyncTenantWithRevision. pose proof (load_positive db0 db l) as Hpos.
  destruct (ld_bundle l) as [b|] eqn:Eb; [|done]. specialize (Hpos b Hdb Hl eq_refl).
  destruct (Hl b Eb) as [_ Hle]. destruct (CompilePolicySet (pb_policies b)) as [compiled|]; [|done].
  destruct (_ <? _); [done|]. unfold gc_UpdateTenantPoliciesWithRevision.
  destruct (buildTenantTrie _ _ _ _ _) as [t|e] eqn:Et; cbn [rbind].
  2: { unfold buildTenantTrie in Et. destruct (add_inheritances _ _ _); [done|]. by injection Et as <-. }
  apply buildTenantTrie_ok, represents_fields in Et as [_ Et]. cbn in Et.
  pose proof (publish_at_spec (gc_state (sy_engine s)) (ld_tenant l) t (pb_revision b)) as Hp.
  destruct (publish_at _ _ _ _) as [[st sw]|e]; cbn [rbind].
  - assert (forall e', gc_state e' = st -> ld_revision l <= current_revision (gc_state e') (ld_tenant l)) as Hst.
    { intros e' ->. unfold current_revision. destruct sw.
      - destruct Hp as [-> _]. rewrite lookup_insert_eq. cbn. lia.
      - destruct Hp as [-> (cur & -> & Hcur & _)]. cbn. lia. }
    destruct sw; (destruct (sy_badger s) as [store|]; [destruct (SavePolicySnapshot _ _ _)|]); cbn [fst snd]; intros Hn;
      try done; apply Hst; first [done|by destruct Hp as [-> _]].
  - destruct Hp as (cur & Hc & Hlt & ->). cbn. intros _. unfold current_revision. rewrite Hc. cbn. lia.
Qed.

Lemma subscriber_step_mono db0 canceled db s w ev w' s' tid : db_sound db0 -> subscriber_ok db0 db w ->
  subscriber_step canceled db s w ev = Some (w', s') ->
  current_revision (gc_state (sy_engine s)) tid <= current_revision (gc_state (sy_engine s')) tid.
Proof.
  intros Hdb Hw Hs. assert (sy_engine s' = sy_engine s \/ exists pos l seed now clock store_ok, w = SubPublishing pos l
      /\ s' = degrade (finish_load seed now clock store_ok s l)) as [->|Hp].
  { unfold subscriber_step, listen_error in Hs. destruct ev, w; try done; repeat case_match; simplify_eq; eauto 10. }
  - done.
  - destruct Hp as (pos & l & seed & now & clock & store_ok & -> & ->). rewrite degrade_engine. by eapply finish_load_mono.
Qed.

Lemma simulated_revision t p : Revision (simulated_live t p) = Revision t.
Proof. unfold simulated_live. by destruct (leaks t p). Qed.

Lemma simulate_revisions e tid p tid' :
  current_revision (gc_state (simulate_live e tid p)) tid' = current_revision (gc_state e) tid'.
Proof.
  unfold current_revision. change (gc_state (simulate_live e tid p)) with (alter (fun t => simulated_live t p) tid (gc_state e)).
  destruct (decide (tid' = tid)) as [->|Hne]; [rewrite lookup_alter_eq|by rewrite lookup_alter_ne].
  destruct (gc_state e !! tid); cbn [fmap option_fmap option_map default]; [by rewrite simulated_revision|done].
Qed.

(** [tid] is left to the round, with a revision read for it that is at least [rev]. *)
Definition pending (tid : string) (rev : Z) (r : Reconciler) : Prop :=
  match r with
  | RecRound todo => tid ∈ todo
  | RecCompare tid' rev' todo | RecLoading tid' rev' todo => tid' = tid /\ rev <= rev' \/ tid ∈ todo
  | RecPublishing l todo => ld_tenant l = tid /\ rev <= ld_revision l \/ tid ∈ todo
  | RecWaiting | RecReturned => False
  end.

Definition on_course (tid : string) (rev : Z) (n : Node) : Prop :=
  rev <= memory_revision n tid \/ exists w r, nd_workers n = Some (w, r) /\ pending tid rev r.

Lemma reconciler_on_course db0 n r ev r' s' tid rev w :
  db_sound db0 -> node_ok db0 n -> nd_workers n = Some (w, r) -> known (nd_db n) tid rev ->
  reconciler_succeeds n (EvReconciler ev) ->
  reconciler_step (nd_canceled n) (nd_db n) (nd_syncer n) r ev = Some (r', s') ->
  memory_revision n tid <= current_revision (gc_state (sy_engine s')) tid
  /\ (pending tid rev r -> rev <= current_revision (gc_state (sy_engine s')) tid \/ pending tid rev r').
Proof.
  intros Hdb Hn Hw (cur & Hcur & Hle) Hsucc. pose proof (no_reconciler _ _ Hn _ _ Hw) as Hr. unfold memory_revision.
  unfold reconciler_succeeds in Hsucc. rewrite Hw in Hsucc. unfold reconciler_step.
  destruct ev, r; try done.
  - intros [= <- <-]. by split.
  - destruct todo as [|t' todo]; [done|]. destruct Hsucc as [rv Hrv]. rewrite Hrv. intros [= <- <-]. split; [done|].
    unfold Storage.GetTenantRevision in Hrv. destruct (negb _); [done|]. cbn [pending]. rewrite elem_of_cons.
    intros [->|]; [|by right; right]. right. left. split; [done|]. rewrite Hcur in Hrv. apply Ok_inj in Hrv. lia.
  - unfold gc_GetTenantRevision, Engine.GetTenantRevision, GetTenantTrie, current_revision. cbn [pending].
    destruct (Z.ltb_spec (match gc_state (sy_engine (nd_syncer n)) !! tid0 with Some t => Revision t | None => 0 end) dbRev);
      intros [= <- <-]; (split; [done|]); intros [[-> ?]|]; cbn [pending]; auto.
    left. destruct (gc_state _ !! tid); cbn in *; lia.
  - intros [= <- <-]. split; [done|]. cbn [pending]. intros [[-> ?]|]; auto.
  - intros [= <- <-]. rewrite degrade_engine. split; [by eapply finish_load_mono|]. cbn [pending].
    intros [[<- ?]|]; [left|by right]. pose proof (finish_load_reaches _ _ _ _ _ _ _ _ Hdb Hr Hsucc). lia.
  - destruct todo; [|done]. intros [= <- <-]. split; [done|]. by intros ?%not_elem_of_nil.
  - destruct (nd_canceled n); [|done]. by intros [= <- <-].
Qed.

Lemma calm_on_course db0 n n' tid rev : db_sound db0 -> node_ok db0 n -> known (nd_db n) tid rev ->
  calm_step n n' -> on_course tid rev n -> on_course tid rev n' /\ known (nd_db n') tid rev.
Proof.
  intros Hdb Hn Hk Hs. destruct Hs as [n ev n' Hsucc Hev|n db Hst]; [|by split; [|eapply known_mono]].
  destruct ev as [| |sev|rv|seed ok t'|i seed now clock store_ok|now t' count|t'|t' p]; cbn [node_event] in Hev; unfold on_course, memory_revision.
  - injection Hev as <-. unfold Start. destruct (nd_started n) eqn:Es; [done|]. cbn. intros [?|(w & r & Hw & Hp)]; (split; [|done]); [by left|].
    exfalso. assert (nd_started n = true) by (apply (no_started _ _ Hn); by eexists). congruence.
  - injection Hev as <-. unfold Stop. by destruct (nd_stopped n).
  - destruct (nd_workers n) as [[w r]|] eqn:Ew; [|done].
    destruct (subscriber_step _ _ _ _ _) as [[w' s']|] eqn:E; [|done]. injection Hev as <-. cbn.
    pose proof (subscriber_step_mono db0 _ _ _ _ _ _ _ tid Hdb (no_subscriber _ _ Hn _ _ Ew) E).
    intros [?|(? & ? & [= <- <-] & ?)]; (split; [|done]); [left; lia|right; eauto].
  - destruct (nd_workers n) as [[w r]|] eqn:Ew; [|done].
    destruct (reconciler_step _ _ _ _ _) as [[r' s']|] eqn:E; [|done]. injection Hev as <-. cbn.
    destruct (reconciler_on_course db0 n r rv r' s' tid rev w Hdb Hn Ew Hk Hsucc E) as [Hm Hp]. unfold memory_revision in Hm.
    intros [?|(? & ? & [= <- <-] & Hpr)]; (split; [|done]); [left; lia|].
    destruct (Hp Hpr); [by left|right; eauto].
  - injection Hev as <-. done.
  - destruct (nd_loads n !! i) as [l|] eqn:E; [|done]. injection Hev as <-. cbn.
    pose proof (finish_load_mono db0 (nd_db n) seed now clock store_ok (nd_syncer n) l tid Hdb
      (Forall_lookup_1 _ _ _ _ (no_loads _ _ Hn) E)).
    intros [?|?]; (split; [|done]); [left; lia|by right].
  - injection Hev as <-. done.
  - done.
  - injection Hev as <-. cbn [simulate_node nd_syncer nd_workers nd_db sy_engine set_engine].
    rewrite simulate_revisions. intros ?. by split.
Qed.

Lemma calm_run db0 n n' tid rev : db_sound db0 -> node_ok db0 n -> known (nd_db n) tid rev ->
  rtc calm_step n n' -> on_course tid rev n -> on_course tid rev n'.
Proof.
  intros Hdb Hn Hk Hr. induction Hr as [|x y z Hs _ IH]; [done|]. intros Hc.
  destruct (calm_on_course db0 x y tid rev Hdb Hn Hk Hs Hc) as [Hc' Hk'].
  apply IH; [by eapply node_step_ok; [|apply calm_node_step|]|done..].
Qed.

(** ** The end of the goroutines *)

(** The steps a goroutine can still take once its context is done, ticks apart. *)
Definition subscriber_left (w : Subscriber) : nat :=
  match w with
  | SubLoading _ _ => 3
  | SubPublishing _ _ | SubListened _ => 2
  | SubConnecting | SubWaiting _ => 1
  | SubBackoff => 2
  | SubReturned => 0
  end.
Definition reconciler_left (r : Reconciler) : nat :=
  match r with
  | RecRound todo => 2 + 4 * length todo
  | RecCompare _ _ todo => 5 + 4 * length todo
  | RecLoading _ _ todo => 4 + 4 * length todo
  | RecPublishing _ todo => 3 + 4 * length todo
  | RecWaiting => 1
  | RecReturned => 0
  end.
Definition workers_left (n : Node) : nat :=
  match nd_workers n with Some (w, r) => subscriber_left w + reconciler_left r | None => 0 end.

Definition is_worker (ev : NodeEvent) : bool :=
  match ev with EvSubscriber _ | EvReconciler _ => true | _ => false end.
Definition is_tick (ev : NodeEvent) : bool :=
  match ev with EvReconciler (RecTick _) => true | _ => false end.

Lemma canceled_worker n ev n' : nd_canceled n = true -> is_worker ev = true -> is_tick ev = false ->
  node_event n ev = Some n' -> (workers_left n' < workers_left n)%nat /\ nd_canceled n' = true.
Proof.
  intros Hc Hw Ht Hev. unfold workers_left. destruct ev as [| |sev|rev| | | | |]; try done; cbn [node_event] in Hev;
    destruct (nd_workers n) as [[w r]|] eqn:Ew; try done.
  - destruct (subscriber_step _ _ _ _ _) as [[w' s']|] eqn:E; [|done]. injection Hev as <-. cbn. split; [|done].
    rewrite Hc in E. destruct sev, w; cbn in E; simplify_eq; cbn; lia.
  - destruct (reconciler_step _ _ _ _ _) as [[r' s']|] eqn:E; [|done]. injection Hev as <-. cbn. split; [|done].
    rewrite Hc in E. destruct rev, r; cbn in E; try done; repeat case_match; simplify_eq; cbn; lia.
Qed.

Lemma canceled_other n ev n' : nd_canceled n = true -> nd_started n = true -> is_worker ev = false ->
  node_event n ev = Some n' -> workers_left n' = workers_left n /\ nd_canceled n' = true /\ nd_started n' = true.
Proof.
  intros Hc Hs Hw Hev. destruct ev; try done; cbn [node_event] in Hev.
  - injection Hev as <-. unfold Start. by rewrite Hs.
  - injection Hev as <-. unfold Stop. destruct (nd_stopped n); [done|]. unfold workers_left. cbn. by rewrite Hc.
  - by injection Hev as <-.
  - destruct (nd_loads n !! i); [|done]. by injection Hev as <-.
  - by injection Hev as <-.
  - by injection Hev as <-.
  - by injection Hev as <-.
Qed.

(** A run after the context is done, with the number of steps of the goroutines. *)
Inductive canceled_run : nat -> Node -> Node -> Prop :=
| RunEnd n : canceled_run 0 n n
| RunWorker k n ev n1 n2 : is_worker ev = true -> is_tick ev = false -> node_event n ev = Some n1 ->
    canceled_run k n1 n2 -> canceled_run (S k) n n2
| RunOther k n ev n1 n2 : is_worker ev = false -> node_event n ev = Some n1 ->
    canceled_run k n1 n2 -> canceled_run k n n2
| RunDatabase k n db n2 : storage_step (nd_db n) db -> canceled_run k (set_db n db) n2 -> canceled_run k n n2.

Lemma worker_started n ev n' : is_worker ev = true -> node_event n ev = Some n' -> nd_started n' = nd_started n.
Proof. intros Hw Hev. destruct ev; try done; cbn [node_event] in Hev; repeat case_match; by simplify_eq. Qed.

Lemma canceled_run_left k n n' : canceled_run k n n' -> nd_canceled n = true -> nd_started n = true ->
  (k + workers_left n' <= workers_left n)%nat /\ nd_canceled n' = true.
Proof.
  induction 1 as [n|k n ev n1 n2 Hw Ht Hev _ IH|k n ev n1 n2 Hw Hev _ IH|k n db n2 Hs _ IH]; intros Hc Hst.
  - by split.
  - destruct (canceled_worker n ev n1 Hc Hw Ht Hev) as [Hlt Hc1].
    destruct IH as [Hle ?]; [done|by rewrite (worker_started _ _ _ Hw Hev)|]. split; [lia|done].
  - destruct (canceled_other n ev n1 Hc Hst Hw Hev) as (<- & Hc1 & Hst1). auto.
  - by apply IH.
Qed.

(** The next step of a goroutine that has not returned. *)
Definition next_worker_event (n : Node) : option NodeEvent :=
  match nd_workers n with
  | None | Some (SubReturned, RecReturned) => None
  | Some (SubConnecting, _) => Some (EvSubscriber SubCheckContext)
  | Some (SubListened _, _) => Some (EvSubscriber SubReady)
  | Some (SubWaiting _, _) => Some (EvSubscriber SubLost)
  | Some (SubLoading _ _, _) => Some (EvSubscriber (SubRead 0 false))
  | Some (SubPublishing _ _, _) => Some (EvSubscriber (SubPublish 0 0 0 false))
  | Some (SubBackoff, _) => Some (EvSubscriber SubAbandon)
  | Some (SubReturned, RecWaiting) => Some (EvReconciler RecCanceled)
  | Some (SubReturned, RecRound []) => Some (EvReconciler RecEndRound)
  | Some (SubReturned, RecRound _) => Some (EvReconciler (RecReadRevision false))
  | Some (SubReturned, RecCompare _ _ _) => Some (EvReconciler RecCompareRevision)
  | Some (SubReturned, RecLoading _ _ _) => Some (EvReconciler (RecRead 0 false))
  | Some (SubReturned, RecPublishing _ _) => Some (EvReconciler (RecPublish 0 0 0 false))
  end.

Lemma canceled_progress n : nd_canceled n = true -> stop_returns n = false ->
  exists ev n', is_worker ev = true /\ is_tick ev = false /\ node_event n ev = Some n'.
Proof.
  intros Hc Hr. unfold stop_returns in Hr. destruct (next_worker_event n) as [ev|] eqn:E; unfold next_worker_event in E.
  - exists ev. assert (is_Some (node_event n ev)) as [n' Hn'].
    { cbn [node_event]. destruct (nd_workers n) as [[w r]|] eqn:Ew; [|done].
      destruct w, r; try done; repeat case_match; simplify_eq; cbn [node_event]; rewrite ?Ew, ?Hc; cbn;
        repeat case_match; try done; try by eexists. }
    exists n'. split_and!; [..|done]; repeat case_match; by simplify_eq.
  - repeat case_match; by simplify_eq.
Qed.

Lemma returned_no_step n ev : stop_returns n = true -> is_worker ev = true -> node_event n ev = None.
Proof.
  unfold stop_returns. intros Hr Hw. destruct ev as [| |sev|rev| | | | |]; try done; cbn [node_event];
    destruct (nd_workers n) as [[[] []]|]; try done; by destruct sev || destruct rev.
Qed.

(** ** Undisturbed *)

(** Without another step in between, the steps of a notification are the
    callback as one function, and those of a tenant of a round its reconciliation. *)
Lemma undisturbed_notification seed now clock store_ok db s pos ev : db_policy_events db !! pos = Some ev ->
  let l := start_load seed true db (pe_TenantID ev) (pe_Revision ev) in
  let final := (SubWaiting (S pos),
                on_policy_event seed now clock store_ok (ld_bundle l) s (mkEvent (pe_TenantID ev) (pe_Revision ev))) in
  subscriber_step false db s (SubWaiting pos) SubNotification = Some final
  \/ exists w1 w2, subscriber_step false db s (SubWaiting pos) SubNotification = Some (w1, s)
       /\ subscriber_step false db s w1 (SubRead seed true) = Some (w2, s)
       /\ subscriber_step false db s w2 (SubPublish seed now clock store_ok) = Some final.
Proof.
  intros Hev. cbv zeta. cbn [subscriber_step]. rewrite Hev. unfold on_policy_event. cbn [ev_tenant ev_revision].
  destruct (shouldSyncRevision _ _); [right|by left]. eexists _, _. split_and!; [done..|].
  cbn [subscriber_step]. unfold finish_load, degrade. cbn [ld_tenant ld_revision].
  by destruct (SyncTenantWithRevision _ _ _ _ _ _ _ _) as [s' [e|]].
Qed.

Lemma undisturbed_tenant seed now clock store_ok db s tid todo :
  let dbRev := match Storage.GetTenantRevision true db tid with Ok r => Some r | Err _ => None end in
  let final := (RecRound todo,
                degrade (reconcileTenantRevision seed now clock store_ok dbRev
                           (ld_bundle (start_load seed true db tid (default 0 dbRev))) s tid)) in
  reconciler_step false db s (RecRound (tid :: todo)) (RecReadRevision true) = Some final
  \/ exists w1, reconciler_step false db s (RecRound (tid :: todo)) (RecReadRevision true) = Some (w1, s)
     /\ (reconciler_step false db s w1 RecCompareRevision = Some final
         \/ exists w2 w3, reconciler_step false db s w1 RecCompareRevision = Some (w2, s)
              /\ reconciler_step false db s w2 (RecRead seed true) = Some (w3, s)
              /\ reconciler_step false db s w3 (RecPublish seed now clock store_ok) = Some final).
Proof.
  cbv zeta. cbn [reconciler_step andb negb]. destruct (Storage.GetTenantRevision true db tid) as [r|]; [right|by left].
  eexists. split; [done|]. cbn [reconciler_step default]. unfold reconcileTenantRevision.
  destruct (_ <? r); [right|by left]. eexists _, _. by split_and!.
Qed.

(** ** The health status *)

(** Any step but the [onReady] of a new connection. *)
Inductive same_connection : Node -> Node -> Prop :=
| SameEvent n ev n' : ev <> EvSubscriber SubReady -> node_event n ev = Some n' -> same_connection n n'
| SameDatabase n db : storage_step (nd_db n) db -> same_connection n (set_db n db).

Lemma finish_load_status seed now clock store_ok s l : sy_status (finish_load seed now clock store_ok s l).1 = sy_status s.
Proof.
  unfold finish_load. destruct (SyncTenantWithRevision _ _ _ _ _ _ _ _) as [s' err] eqn:E. cbn. by apply sync_spec in E as [-> _].
Qed.

Lemma degrade_status seed now clock store_ok s l : sy_status s = SyncStatusDegraded ->
  sy_status (degrade (finish_load seed now clock store_ok s l)) = SyncStatusDegraded.
Proof.
  intros Hs. pose proof (finish_load_status seed now clock store_ok s l) as Hf.
  destruct (finish_load _ _ _ _ _ _) as [s' [e|]]; cbn in *; [done|congruence].
Qed.

Lemma same_connection_degraded n n' : same_connection n n' ->
  sy_status (nd_syncer n) = SyncStatusDegraded -> sy_status (nd_syncer n') = SyncStatusDegraded.
Proof.
  intros Hs Hd. destruct Hs as [n ev n' Hne Hev|]; [|done].
  destruct ev as [| |sev|rv|seed ok t'|i seed now clock store_ok|now t' count|t'|t' p]; cbn [node_event] in Hev.
  - injection Hev as <-. unfold Start. by destruct (nd_started n).
  - injection Hev as <-. unfold Stop. by destruct (nd_stopped n).
  - destruct (nd_workers n) as [[w r]|]; [|done].
    destruct (subscriber_step _ _ _ _ _) as [[w' s']|] eqn:E; [|done]. injection Hev as <-. cbn.
    unfold subscriber_step, listen_error in E. destruct sev, w; try done; repeat case_match; simplify_eq; try done.
    by apply degrade_status.
  - destruct (nd_workers n) as [[w r]|]; [|done].
    destruct (reconciler_step _ _ _ _ _) as [[r' s']|] eqn:E; [|done]. injection Hev as <-. cbn.
    unfold reconciler_step in E. destruct rv, r; try done; repeat case_match; simplify_eq; try done.
    by apply degrade_status.
  - by injection Hev as <-.
  - destruct (nd_loads n !! i); [|done]. injection Hev as <-. cbn. by rewrite finish_load_status.
  - by injection Hev as <-.
  - by injection Hev as <-.
  - by injection Hev as <-.
Qed.

Lemma run_steps evs : forall n n', run_node n evs = Some n' -> rtc node_step n n'.
Proof.
  induction evs as [|ev evs IH]; intros n n'; cbn; [intros [= <-]; apply rtc_refl|].
  destruct (node_event n ev) as [n1|] eqn:E; [|done]. intros Hr. eapply rtc_l; [by eapply NodeMoves|by apply IH].
Qed.

(** ** The probe of readiness *)

(** A probe and the node it asks, step by step. *)
Inductive probe_move : Node * Probe -> Node * Probe -> Prop :=
| ProbeMoves n p seed ok p' : probe_step seed ok n p = Some p' -> probe_move (n, p) (n, p')
| NodeMovesOn n n' p : node_step n n' -> probe_move (n, p) (n', p).

(** [tid] was asked for while the node went from [n] to [n'], and had revision [rev] in the database. *)
Definition asked_between (n n' : Node) (tid : string) (rev : Z) : Prop :=
  exists ni, rtc node_step n ni /\ rtc node_step ni n' /\ db_tenants (nd_db ni) !! tid = Some rev.
(** The state the loop ranges over was read in between, and each of its tenants asked for after it. *)
Definition listed_between (n n' : Node) : Prop :=
  exists ns, rtc node_step n ns /\ rtc node_step ns n'
    /\ forall tid t, gc_state (sy_engine (nd_syncer ns)) !! tid = Some t -> asked_between ns n' tid (Revision t).

(** What is still to come of a probe at [p] that returns healthy. *)
Definition probe_promise (n : Node) (p : Probe) (n' : Node) : Prop :=
  match p with
  | ProbeBegun | ProbeListening => listed_between n n'
  | ProbeAsking todo => forall tid t, (tid, t) ∈ todo -> asked_between n n' tid (Revision t)
  | ProbeReturned status failed => status = SyncStatusHealthy /\ failed = false
  end.

Lemma probe_todo_elem seed st tid t : (tid, t) ∈ probe_todo seed st <-> st !! tid = Some t.
Proof.
  unfold probe_todo. rewrite list_elem_of_omap. split.
  - intros (k & _ & Hk). destruct (st !! k) as [t'|] eqn:E; [|done]. by injection Hk as <- <-.
  - intros Ht. exists tid. rewrite range_keys_perm, elem_of_elements, elem_of_dom, Ht. by split; [eexists|].
Qed.

Lemma asked_earlier n1 n2 n' tid rev : node_step n1 n2 -> asked_between n2 n' tid rev -> asked_between n1 n' tid rev.
Proof. intros Hs (ni & ? & ? & ?). exists ni. split_and!; [by eapply rtc_l|done..]. Qed.

Lemma probe_step_promise seed ok n p p' n' : rtc node_step n n' -> probe_step seed ok n p = Some p' ->
  probe_promise n p' n' -> probe_promise n p n'.
Proof.
  intros Hn Hp. unfold probe_step in Hp. destruct p as [| |[|[tid t] todo]|]; [| | | |done].
  - destruct (decide _); injection Hp as <-; [done|by intros [_ [=]]].
  - injection Hp as <-. cbn. intros Hall. exists n. split_and!; [apply rtc_refl|done|].
    intros tid t Ht. apply Hall. by apply probe_todo_elem.
  - injection Hp as <-. cbn. by intros _ tid t ?%not_elem_of_nil.
  - unfold Storage.GetTenantRevision in Hp. destruct (negb ok); [injection Hp as <-; by intros [_ [=]]|].
    destruct (db_tenants (nd_db n) !! tid) as [rev|] eqn:E; [|injection Hp as <-; by intros [_ [=]]].
    case_bool_decide as Hrev; injection Hp as <-; [|by intros [_ [=]]]. cbn. intros Hall tid' t' [[= -> ->]|Hin]%elem_of_cons; [|by apply Hall].
    exists n. split_and!; [apply rtc_refl|done|by rewrite E, Hrev].
Qed.

Lemma node_step_promise n1 n2 p n' : node_step n1 n2 -> probe_promise n2 p n' -> probe_promise n1 p n'.
Proof.
  intros Hs. assert (listed_between n2 n' -> listed_between n1 n') as Hl.
  { intros (ns & ? & ? & ?). exists ns. split_and!; [by eapply rtc_l|done..]. }
  destruct p as [| |todo|]; [done|done| |done]. cbn. intros Hall tid t Hin. eapply asked_earlier; [done|]. by apply Hall.
Qed.

Lemma healthy_probe x y : rtc probe_move x y -> y.2 = ProbeReturned SyncStatusHealthy false ->
  rtc node_step x.1 y.1 /\ probe_promise x.1 x.2 y.1.
Proof.
  intros Hr Hy. induction Hr as [x|x y z Hs _ IH]; [rewrite Hy; by split; [apply rtc_refl|]|].
  destruct (IH Hy) as [Hn Hp]. destruct Hs as [n p seed ok p' Hs|n n1 p Hs]; cbn in *.
  - split; [done|]. by eapply probe_step_promise.
  - split; [by eapply rtc_l|]. by eapply node_step_promise.
Qed.

(** Asked at once, with every read succeeding, the probe is [Readiness]. *)
Definition quiet_probe (n : Node) (p p' : Probe) : Prop := exists seed, probe_step seed true n p = Some p'.

Lemma quiet_asking n todo :
  rtc (quiet_probe n) (ProbeAsking todo)
    (let '(status, failed) := readiness_loop (fun tid => db_tenants (nd_db n) !! tid) todo in ProbeReturned status failed).
Proof.
  induction todo as [|[tid t] todo IH]; [apply rtc_once; by exists 0%nat|]. cbn [readiness_loop].
  destruct (db_tenants (nd_db n) !! tid) as [rev|] eqn:E.
  - destruct (Z.eqb_spec rev (Revision t)) as [Hr|Hr]; cbn [negb].
    + eapply rtc_l; [|exact IH]. exists 0%nat. cbn. unfold Storage.GetTenantRevision. cbn [negb]. rewrite E.
      by rewrite bool_decide_true.
    + apply rtc_once. exists 0%nat. cbn. unfold Storage.GetTenantRevision. cbn [negb]. rewrite E. by rewrite bool_decide_false.
  - apply rtc_once. exists 0%nat. cbn. unfold Storage.GetTenantRevision. cbn [negb]. by rewrite E.
Qed.

Lemma asked_loop_current (rev : string -> option Z) todo :
  readiness_loop rev todo
  = if bool_decide (Forall (fun kt => rev kt.1 = Some (Revision kt.2)) todo) then (SyncStatusHealthy, false) else (SyncStatusDegraded, true).
Proof.
  induction todo as [|[tid t] todo IH]; cbn [readiness_loop]; [by rewrite bool_decide_true|].
  destruct (rev tid) as [r|] eqn:E; [|rewrite bool_decide_false; [done|]; rewrite Forall_cons; cbn; rewrite E; by intros []].
  destruct (Z.eqb_spec r (Revision t)) as [Hr|Hr]; cbn [negb].
  - rewrite IH. erewrite bool_decide_ext; [reflexivity|]. rewrite Forall_cons. cbn. rewrite E, Hr. naive_solver.
  - rewrite bool_decide_false; [done|]. rewrite Forall_cons. cbn. rewrite E. intros [[=] _]. done.
Qed.

Lemma undisturbed_probe n :
  rtc (quiet_probe n) ProbeBegun
    (let '(status, failed) := Readiness (fun tid => db_tenants (nd_db n) !! tid) (nd_syncer n) in ProbeReturned status failed).
Proof.
  unfold Readiness. case_bool_decide as Hs; cbn [negb].
  - eapply rtc_l; [exists 0%nat; cbn; by rewrite decide_True|]. eapply rtc_l; [by exists 0%nat|].
    pose proof (quiet_asking n (probe_todo 0 (gc_state (sy_engine (nd_syncer n))))) as Hq. rewrite !asked_loop_current in *.
    erewrite bool_decide_ext; [exact Hq|]. rewrite !Forall_forall.
    split; intros Hall [tid t] Hin; apply (Hall (tid, t)); [by apply elem_of_map_to_list, (probe_todo_elem 0)|].
    by apply (probe_todo_elem 0), elem_of_map_to_list.
  - apply rtc_once. exists 0%nat. cbn. by rewrite decide_False.
Qed.

(** What a node answers from is what [db] has. *)
Definition answers_current (n : Node) (db : Database) (tid : string) (t : TrieRoot) : Prop :=
  exists seed b, GetTenantPolicyBundle seed true db tid = Ok b
    /\ answers_from (nd_tried n) (sy_engine (nd_syncer n)) tid t b.

(** An index as new as the database, and one the database has the revision of. *)
Lemma held_answers_current db0 n tid t db : node_ok db0 n -> rtc storage_step (nd_db n) db ->
  gc_state (sy_engine (nd_syncer n)) !! tid = Some t ->
  (exists cur, db_tenants db !! tid = Some cur /\ cur <= Revision t) -> answers_current n db tid t.
Proof.
  intros Hn Hs Ht (cur & Hcur & Hle).
  destruct (serves_answers _ _ _ _ _ _ Ht (no_tries _ _ Hn _ _ Ht)) as (b & (past & sd & Hp & Hb & Hg) & Ha).
  assert (committed db0 db tid b) as Hcomm by (exists past, sd; split_and!; [done|by etransitivity|done]).
  assert (Revision t = pb_revision b) as Hr by (by destruct Ha as (? & ? & _ & ? & _)).
  assert (pb_revision b <= cur) as Hle'.
  { apply bundle_revision in Hg. assert (rtc storage_step past db) as Hs' by (by etransitivity).
    destruct (steps_revision tid _ _ _ Hs' Hg) as (cur' & Hcur' & ?). rewrite Hcur in Hcur'. by injection Hcur' as <-. }
  destruct (committed_current _ _ _ _ Hcomm) as [seed Hseed]; [rewrite Hcur; f_equal; lia|]. by exists seed, b.
Qed.

Lemma node_run_ok db0 n n' : db_sound db0 -> node_ok db0 n -> rtc node_step n n' -> node_ok db0 n'.
Proof. intros Hdb Hn Hr. induction Hr as [|x y z Hs _ IH]; [done|]. apply IH. by eapply node_step_ok. Qed.

Lemma node_event_db n ev n' : node_event n ev = Some n' -> nd_db n' = nd_db n.
Proof.
  intros Hev. destruct ev; cbn [node_event] in Hev; repeat case_match; simplify_eq; try done.
  - unfold Start. by destruct (nd_started n).
  - unfold Stop. by destruct (nd_stopped n).
Qed.

Lemma node_run_db n n' : rtc node_step n n' -> rtc storage_step (nd_db n) (nd_db n').
Proof.
  induction 1 as [|x y z Hs _ IH]; [apply rtc_refl|]. etransitivity; [|exact IH].
  destruct Hs as [n ev n' Hev|n db Hs]; [apply node_event_db in Hev as ->; apply rtc_refl|by apply rtc_once].
Qed.
End Node.

(** ** Properties *)

(** Any step but an unload. *)
Inductive kept_step `{UnicodeTable} `{RangeOrder} `{RowOrder} : Node -> Node -> Prop :=
| KeptEvent n ev n' : (forall tid, ev <> EvUnload tid) -> node_event n ev = Some n' -> kept_step n n'
| KeptDatabase n db : storage_step (nd_db n) db -> kept_step n (set_db n db).

Lemma kept_revision `{UnicodeTable} `{RangeOrder} `{RowOrder} db0 n n' tid : db_sound db0 -> node_ok db0 n ->
  kept_step n n' -> memory_revision n tid <= memory_revision n' tid.
Proof.
  intros Hdb Hn Hs. destruct Hs as [n ev n' Hne Hev|]; [|done]. unfold memory_revision.
  destruct ev as [| |sev|rv|seed ok t'|i seed now clock store_ok|now t' count|t'|t' p]; cbn [node_event] in Hev.
  - injection Hev as <-. unfold Start. by destruct (nd_started n).
  - injection Hev as <-. unfold Stop. by destruct (nd_stopped n).
  - destruct (nd_workers n) as [[w r]|] eqn:Ew; [|done].
    destruct (subscriber_step _ _ _ _ _) as [[w' s']|] eqn:E; [|done]. injection Hev as <-.
    exact (subscriber_step_mono db0 _ _ _ _ _ _ _ tid Hdb (no_subscriber _ _ Hn _ _ Ew) E).
  - destruct (nd_workers n) as [[w r]|] eqn:Ew; [|done].
    destruct (reconciler_step _ _ _ _ _) as [[r' s']|] eqn:E; [|done]. injection Hev as <-.
    pose proof (no_reconciler _ _ Hn _ _ Ew) as Hr. cbn [set_workers set_syncer nd_syncer].
    destruct rv, r; cbn in E; repeat case_match; simplify_eq; try done.
    rewrite degrade_engine. by eapply finish_load_mono.
  - by injection Hev as <-.
  - destruct (nd_loads n !! i) as [l|] eqn:E; [|done]. injection Hev as <-.
    exact (finish_load_mono db0 (nd_db n) seed now clock store_ok (nd_syncer n) l tid Hdb
      (Forall_lookup_1 _ _ _ _ (no_loads _ _ Hn) E)).
  - by injection Hev as <-.
  - by destruct (Hne t').
  - injection Hev as <-. cbn [simulate_node nd_syncer sy_engine set_engine]. by rewrite simulate_revisions.
Qed.

(** While nothing is unloaded a node never holds an older copy than it held. *)
Theorem held_never_older `{UnicodeTable} `{RangeOrder} `{RowOrder} (db : Database) (cfg : GCConfig) (n n' : Node) (tid : string)
    (Hdb : db_sound db) (Hreach : rtc node_step (NewNode db (NewEngineWithGC cfg)) n) (Hrun : rtc kept_step n n') :
  memory_revision n tid <= memory_revision n' tid.
Proof.
  apply (reachable_node_ok db cfg n Hdb) in Hreach as Hn. clear Hreach.
  induction Hrun as [|x y z Hs _ IH]; [done|]. transitivity (memory_revision y tid); [by eapply kept_revision|].
  apply IH. eapply node_step_ok; [done| |done]. destruct Hs; [by eapply NodeMoves|by apply DatabaseMoves].
Qed.

(** A synchronisation that has read its bundle and not published it yet. *)
Definition in_flight (n : Node) (l : Load) : Prop :=
  (exists pos r, nd_workers n = Some (SubPublishing pos l, r))
  \/ (exists w todo, nd_workers n = Some (w, RecPublishing l todo))
  \/ l ∈ nd_loads n.

(** C9: In every interleaving of the goroutines of a node, its requests, its
    simulations and the writers of the database, a tenant in memory is answered
    from one bundle that was committed for it, at the revision of that bundle
    (an action whose hash is the wildcard's apart), with nothing added to its
    policies but what simulations tried for that tenant; and no synchronisation
    in flight, of the subscriber, of a round or on demand, finds its event ahead
    of the bundle it read. *)
Theorem node_serves_committed_state `{UnicodeTable} `{RangeOrder} `{RowOrder} (db : Database) (cfg : GCConfig) (n : Node)
    (Hdb : db_sound db) (Hreach : rtc node_step (NewNode db (NewEngineWithGC cfg)) n) :
  let e := sy_engine (nd_syncer n) in
  (forall tid t, gc_state e !! tid = Some t ->
     exists b, committed db (nd_db n) tid b /\ answers_from (nd_tried n) e tid t b)
  /\ forall l, in_flight n l -> load_ok db (nd_db n) l
     /\ forall seed now clock store_ok received bundle,
          (finish_load seed now clock store_ok (nd_syncer n) l).2 <> Some (SyncAhead received bundle).
Proof.
  apply (reachable_node_ok db cfg n Hdb) in Hreach as Hn. cbv zeta. split.
  - intros tid t Ht. eapply serves_answers; [done|]. by apply (no_tries _ _ Hn).
  - intros l Hl. assert (load_ok db (nd_db n) l) as Hok.
    { destruct Hl as [(pos & r & Hw)|[(w & todo & Hw)|Hl]].
      - exact (no_subscriber _ _ Hn _ _ Hw).
      - exact (no_reconciler _ _ Hn _ _ Hw).
      - pose proof (no_loads _ _ Hn) as Hall. rewrite Forall_forall in Hall. by apply Hall. }
    split; [done|]. intros seed now clock store_ok received bundle.
    exact (proj2 (finish_load_spec _ _ seed now clock store_ok _ l Hok) received bundle).
Qed.

(** C5: A probe of readiness asks the database tenant by tenant while the node and
    the writers go on.  When it answers healthy, every tenant the node held when
    the probe read its state was answered, then, from the policies and roles the
    database had at the moment it was asked for that tenant; and what the node
    holds of it at that moment, unless it is an older copy loaded after an
    unload, is answered from them too.  (Policies simulations tried for the
    tenant, and actions whose hash is the wildcard's, apart.) *)
Theorem ready_node_is_current `{UnicodeTable} `{RangeOrder} `{RowOrder} (db : Database) (cfg : GCConfig) (n n' : Node)
    (Hdb : db_sound db) (Hreach : rtc node_step (NewNode db (NewEngineWithGC cfg)) n)
    (Hprobe : rtc probe_move (n, ProbeBegun) (n', ProbeReturned SyncStatusHealthy false)) :
  exists ns, rtc node_step n ns /\ rtc node_step ns n' /\
    forall tid t, gc_state (sy_engine (nd_syncer ns)) !! tid = Some t ->
      exists ni, rtc node_step ns ni /\ rtc node_step ni n'
        /\ answers_current ns (nd_db ni) tid t
        /\ forall ti, gc_state (sy_engine (nd_syncer ni)) !! tid = Some ti -> Revision t <= Revision ti ->
             answers_current ni (nd_db ni) tid ti.
Proof.
  apply (reachable_node_ok db cfg n Hdb) in Hreach as Hn.
  destruct (healthy_probe _ _ Hprobe eq_refl) as [_ (ns & Hs & Hs' & Hall)]. cbn [fst] in *.
  exists ns. split_and!; [done..|]. intros tid t Ht. destruct (Hall tid t Ht) as (ni & Hi & Hi' & Hrev).
  exists ni. pose proof (node_run_ok _ _ _ Hdb Hn Hs) as Hns. pose proof (node_run_ok _ _ _ Hdb Hns Hi) as Hni.
  split_and!; [done..| |].
  - eapply held_answers_current; [done|by apply node_run_db|done|]. by exists (Revision t).
  - intros ti Hti Hle. eapply held_answers_current; [done|apply rtc_refl|done|]. by exists (Revision t).
Qed.

(** A probe that nothing disturbs: a node that is ready answers every tenant it
    holds from what the database has. *)
Theorem ready_at_once `{UnicodeTable} `{RangeOrder} `{RowOrder} (db : Database) (cfg : GCConfig) (n : Node)
    (Hdb : db_sound db) (Hreach : rtc node_step (NewNode db (NewEngineWithGC cfg)) n)
    (Hready : Readiness (fun tid => db_tenants (nd_db n) !! tid) (nd_syncer n) = (SyncStatusHealthy, false)) :
  forall tid t, gc_state (sy_engine (nd_syncer n)) !! tid = Some t -> answers_current n (nd_db n) tid t.
Proof.
  intros tid t Ht. apply (reachable_node_ok db cfg n Hdb) in Hreach as Hn.
  apply readiness_spec in Hready as [_ Hrev]. eapply held_answers_current; [done|apply rtc_refl|done|].
  exists (Revision t). by rewrite (Hrev tid t Ht).
Qed.

(** C11: A round of reconciliation that meets no error, and during which the
    collector unloads nothing, leaves every tenant it began with at least at the
    revision the database had then, whatever the subscriber, the requests, the
    simulations and the writers do meanwhile; and a tenant the writers left
    alone is answered from what the database has. *)
Theorem round_catches_up `{UnicodeTable} `{RangeOrder} `{RowOrder} (db : Database) (cfg : GCConfig) (n n' : Node)
    (w w' : Subscriber) (todo : list string) (tid : string) (rev : Z)
    (Hdb : db_sound db) (Hreach : rtc node_step (NewNode db (NewEngineWithGC cfg)) n)
    (Hround : nd_workers n = Some (w, RecRound todo)) (Hin : tid ∈ todo)
    (Hrev : db_tenants (nd_db n) !! tid = Some rev)
    (Hrun : rtc calm_step n n') (Hend : nd_workers n' = Some (w', RecRound [])) :
  exists t, gc_state (sy_engine (nd_syncer n')) !! tid = Some t /\ rev <= Revision t
    /\ (db_tenants (nd_db n') !! tid = Some rev -> answers_current n' (nd_db n') tid t).
Proof.
  apply (reachable_node_ok db cfg n Hdb) in Hreach as Hn.
  assert (node_ok db n') as Hn'.
  { clear -Hdb Hn Hrun. induction Hrun as [|x y z Hs _ IH]; [done|]. apply IH. by eapply node_step_ok; [|apply calm_node_step|]. }
  assert (on_course tid rev n') as Hc.
  { eapply (calm_run db n n' tid rev Hdb Hn); [by exists rev|done|]. right. exists w, (RecRound todo). by split. }
  assert (0 < rev) as Hpos by (eapply (steps_ok _ _ (no_history _ _ Hn) Hdb); exact Hrev).
  destruct Hc as [Hle|(? & ? & Hw & Hp)]; [|rewrite Hend in Hw; injection Hw as <- <-; by apply not_elem_of_nil in Hp].
  unfold memory_revision, current_revision in Hle.
  destruct (gc_state (sy_engine (nd_syncer n')) !! tid) as [t|] eqn:Et; [|cbn in Hle; lia]. cbn in Hle.
  exists t. split_and!; [done..|]. intros Hcur.
  eapply held_answers_current; [done|apply rtc_refl|done|]. by exists rev.
Qed.

(** C22: After the first [Stop] of a syncer that was started, in a run without
    further ticks of the reconciliation, the goroutines take a bounded number of
    steps whatever else happens; they can always take the next one until both have
    returned; and then [Stop] returns and no step of theirs is left. *)
Theorem stop_ends_goroutines `{UnicodeTable} `{RangeOrder} `{RowOrder} (k : nat) (n n' : Node)
    (Hstarted : nd_started n = true) (Hstop : nd_stopped n = false) (Hrun : canceled_run k (Stop n) n') :
  (k <= workers_left n)%nat
  /\ (stop_returns n' = false -> exists ev n2, is_worker ev = true /\ is_tick ev = false /\ node_event n' ev = Some n2)
  /\ (stop_returns n' = true -> forall ev, is_worker ev = true -> node_event n' ev = None).
Proof.
  assert (Stop n = mkNode (nd_db n) (nd_syncer n) true true true (nd_workers n) (nd_loads n) (nd_tried n)) as E.
  { unfold Stop. by rewrite Hstop, Hstarted, orb_true_r. }
  destruct (canceled_run_left k (Stop n) n' Hrun) as [Hle Hc]; [by rewrite E..|].
  split_and!.
  - assert (workers_left (Stop n) = workers_left n) as Ew by (by rewrite E). lia.
  - intros Hr. by apply canceled_progress.
  - intros Hr ev Hev. by apply returned_no_step.
Qed.

(** A status that one failed synchronisation or read has degraded stays so, and
    the node not ready, until a new connection listens: no later success of the
    subscriber or of the reconciliation worker restores it. *)
Theorem degraded_until_reconnected `{UnicodeTable} `{RangeOrder} `{RowOrder} (n n' : Node) (db_revision : string -> option Z)
    (Hdegraded : sy_status (nd_syncer n) = SyncStatusDegraded) (Hrun : rtc same_connection n n') :
  sy_status (nd_syncer n') = SyncStatusDegraded /\ Readiness db_revision (nd_syncer n') = (SyncStatusDegraded, true).
Proof.
  assert (sy_status (nd_syncer n') = SyncStatusDegraded) as Hd.
  { induction Hrun as [|x y z Hs _ IH]; [done|]. apply IH. by eapply same_connection_degraded. }
  split; [done|]. unfold Readiness. by rewrite Hd.
Qed.

(** A syncer stopped before it is started is not stopped: [Stop] then returns
    at once, a later [Start] runs the goroutines, and no [Stop] ends them. *)
Theorem stop_before_start_is_lost (db : Database) (e : EngineWithGC) :
  let n := Start (Stop (NewNode db e)) in
  stop_returns (Stop (NewNode db e)) = true /\ nd_workers n = Some (SubConnecting, RecWaiting)
  /\ nd_canceled (Stop n) = false /\ Stop n = n /\ stop_returns (Stop n) = false.
Proof. done. Qed.
