(* ===== verification/EmbeddedWorkers.v ===== *)
(** * The goroutines of the embedded decision point ([pkg/pdp/embedded.go])

    An embedded decision point with its ticker and its subscriber to Redis, in
    the style of [SyncWorkers]: a step is a read of the database, a
    publication, a message, a tick or the return of a goroutine, and the
    database steps on its own.  A message is the text of its payload. *)

From S2P Require Import Prelude GoStr GoJson Ast Dag Trie TrieFacts Evaluator Decision DecisionFacts Parser Compiler Engine EngineFacts Badger.
From S2P Require Import Sync SyncFacts Storage StorageFacts SyncWorkers SyncWorkersFacts.
From stdpp Require Import relations fin_sets options.
Local Open Scope Z_scope.

(** [engine.PolicyUpdateEvent] as a message carries it; the fields that are not used must decode too. *)
Definition event_names : list string := ["tenant_id"; "policy_id"; "action"; "revision"]%string.
Definition into_event (v : json) : option PolicyUpdateEvent :=
  match v with
  | JObject kvs =>
      tenant ← decode_field event_names "tenant_id" into_str ""%string kvs;
      _ ← decode_field event_names "policy_id" into_str ""%string kvs;
      _ ← decode_field event_names "action" into_str ""%string kvs;
      revision ← decode_field event_names "revision" into_uint 0 kvs;
      Some (mkEvent tenant revision)
  | JNull => Some (mkEvent "" 0)
  | _ => None
  end.
Definition decode_event (payload : string) : option PolicyUpdateEvent := json_parse payload ≫= into_event.

(** Where [syncLoop] and [redisSubscriber] are. *)
Inductive LoopState :=
| LoopWaiting
| LoopRound (todo : list string)
| LoopPublishing (l : Load) (todo : list string)
| LoopReturned.
Inductive RedisState :=
| RedisWaiting
| RedisLoading (tid : string)
| RedisPublishing (l : Load)
| RedisReturned.

(** [eb_redis] is [None] without a client; [eb_closed] is the state of [stopChan]. *)
Record Embedded := mkEmb {
  eb_db : Database;
  eb_pdp : EmbeddedPDP;
  eb_closed : bool;
  eb_loop : LoopState;
  eb_redis : option RedisState
}.

Definition with_eb_db (e : Embedded) (db : Database) : Embedded := mkEmb db (eb_pdp e) (eb_closed e) (eb_loop e) (eb_redis e).
Definition with_loop (e : Embedded) (p : EmbeddedPDP) (w : LoopState) : Embedded := mkEmb (eb_db e) p (eb_closed e) w (eb_redis e).
Definition with_redis (e : Embedded) (p : EmbeddedPDP) (w : RedisState) : Embedded := mkEmb (eb_db e) p (eb_closed e) (eb_loop e) (Some w).

(** The default of [SyncInterval]. *)
Definition sync_interval (configured : Z) : Z := if configured <=? 0 then 10000000000 else configured.

Section Embedded.
Context `{UnicodeTable} `{RangeOrder} `{RowOrder}.

(** [New] up to its goroutines: without a storage, or when the first load of a
    tenant fails, nothing is started. *)
Definition New (storage : bool) (redis : bool) (seed : nat) (allowed : list string) (bundles : string -> option TenantPolicyBundle)
    (db : Database) : option Embedded :=
  if negb storage then None
  else match embedded_New seed allowed bundles with
       | Err _ => None
       | Ok p => Some (mkEmb db p false LoopWaiting (if redis then Some RedisWaiting else None))
       end.

(** [Close] up to its wait; closing a closed channel panics. *)
Definition Close (e : Embedded) : option Embedded :=
  if eb_closed e then None else Some (mkEmb (eb_db e) (eb_pdp e) true (eb_loop e) (eb_redis e)).
Definition close_returns (e : Embedded) : bool :=
  match eb_loop e, eb_redis e with LoopReturned, (None | Some RedisReturned) => true | _, _ => false end.

(** The publication of a bundle that was read; its error is dropped. *)
Definition publish_load (seed : nat) (p : EmbeddedPDP) (l : Load) : EmbeddedPDP :=
  match embedded_syncTenant seed (ld_bundle l) p (ld_tenant l) with Ok p' => p' | Err _ => p end.

Inductive EmbeddedEvent :=
| TickFired (seed : nat)
| LoopRead (seed : nat) (ok : bool)
| LoopPublish (seed : nat)
| LoopRoundOver
| LoopStopped
| MessageReceived (payload : string)
| RedisRead (seed : nat) (ok : bool)
| RedisPublish (seed : nat)
| ChannelEnded
| RedisStopped.

Definition loop_step (e : Embedded) (ev : EmbeddedEvent) : option Embedded :=
  match ev, eb_loop e with
  | TickFired seed, LoopWaiting => Some (with_loop e (eb_pdp e) (LoopRound (range_keys seed (allowedTenants (eb_pdp e)))))
  | LoopRead seed ok, LoopRound (tid :: todo) =>
      Some (with_loop e (eb_pdp e) (LoopPublishing (start_load seed ok (eb_db e) tid 0) todo))
  | LoopPublish seed, LoopPublishing l todo => Some (with_loop e (publish_load seed (eb_pdp e) l) (LoopRound todo))
  | LoopRoundOver, LoopRound [] => Some (with_loop e (eb_pdp e) LoopWaiting)
  | LoopStopped, LoopWaiting => if eb_closed e then Some (with_loop e (eb_pdp e) LoopReturned) else None
  | _, _ => None
  end.

Definition redis_step (e : Embedded) (ev : EmbeddedEvent) : option Embedded :=
  match ev, eb_redis e with
  | MessageReceived payload, Some RedisWaiting =>
      Some (with_redis e (eb_pdp e)
              match decode_event payload with
              | Some msg => if bool_decide (ev_tenant msg ∈ allowedTenants (eb_pdp e)) then RedisLoading (ev_tenant msg) else RedisWaiting
              | None => RedisWaiting
              end)
  | RedisRead seed ok, Some (RedisLoading tid) => Some (with_redis e (eb_pdp e) (RedisPublishing (start_load seed ok (eb_db e) tid 0)))
  | RedisPublish seed, Some (RedisPublishing l) => Some (with_redis e (publish_load seed (eb_pdp e) l) RedisWaiting)
  | ChannelEnded, Some RedisWaiting => Some (with_redis e (eb_pdp e) RedisReturned)
  | RedisStopped, Some RedisWaiting => if eb_closed e then Some (with_redis e (eb_pdp e) RedisReturned) else None
  | _, _ => None
  end.

Definition embedded_event (e : Embedded) (ev : EmbeddedEvent) : option Embedded :=
  match ev with
  | TickFired _ | LoopRead _ _ | LoopPublish _ | LoopRoundOver | LoopStopped => loop_step e ev
  | _ => redis_step e ev
  end.

Inductive embedded_moves : Embedded -> Embedded -> Prop :=
| EmbeddedMoves e ev e' : embedded_event e ev = Some e' -> embedded_moves e e'
| EmbeddedClose e e' : Close e = Some e' -> embedded_moves e e'
| EmbeddedDatabase e db : storage_step (eb_db e) db -> embedded_moves e (with_eb_db e db).
End Embedded.

(** ** Invariants *)

Section Facts.
Context `{UnicodeTable} `{RangeOrder} `{RowOrder}.

Definition loop_ok (db0 db : Database) (allowed : gset string) (w : LoopState) : Prop :=
  match w with
  | LoopRound todo => Forall (fun tid => tid ∈ allowed) todo
  | LoopPublishing l todo => load_ok db0 db l /\ ld_tenant l ∈ allowed /\ Forall (fun tid => tid ∈ allowed) todo
  | _ => True
  end.
Definition redis_ok (db0 db : Database) (allowed : gset string) (w : option RedisState) : Prop :=
  match w with
  | Some (RedisLoading tid) => tid ∈ allowed
  | Some (RedisPublishing l) => load_ok db0 db l /\ ld_tenant l ∈ allowed
  | _ => True
  end.

Record embedded_ok (db0 : Database) (allowed : gset string) (e : Embedded) : Prop := {
  eo_history : rtc storage_step db0 (eb_db e);
  eo_tries : tries_ok [] db0 (eb_db e) (em_engine (eb_pdp e));
  eo_scoped : scoped allowed (eb_pdp e);
  eo_loop : loop_ok db0 (eb_db e) allowed (eb_loop e);
  eo_redis : redis_ok db0 (eb_db e) allowed (eb_redis e)
}.

(** A publication installs the bundle it was given, at a newer revision, or nothing. *)
Lemma embedded_sync_spec seed bundle p tid p' : embedded_syncTenant seed bundle p tid = Ok p' ->
  allowedTenants p' = allowedTenants p
  /\ (em_engine p' = em_engine p
      \/ exists b compiled t, bundle = Some b /\ CompilePolicySet (pb_policies b) = Ok compiled
           /\ represents tid (mkBundle compiled (pb_inheritances b) (pb_revision b)) t
           /\ em_engine p' = <[tid := t]> (em_engine p)
           /\ forall cur, em_engine p !! tid = Some cur -> pb_revision b <= 0 \/ Revision cur < pb_revision b).
Proof.
  unfold embedded_syncTenant. destruct bundle as [b|]; [|done].
  destruct (CompilePolicySet _) as [compiled|] eqn:Ec; [|done]. unfold UpdateTenantPoliciesWithRevision.
  destruct (buildTenantTrie _ _ _ _ _) as [t|] eqn:Et; [|done]. cbn [rbind]. apply buildTenantTrie_ok in Et.
  pose proof (publish_at_spec (em_engine p) tid t (pb_revision b)) as Hp.
  destruct (publish_at _ _ _ _) as [[st []]|]; cbn [rbind fst]; [| |done]; intros [= <-]; (split; [done|]); cbn.
  - destruct Hp as [-> Hcur]. right. by exists b, compiled, t.
  - destruct Hp as [-> _]. by left.
Qed.

Lemma publish_load_spec db0 db seed p l : load_ok db0 db l ->
  em_engine (publish_load seed p l) = em_engine p
  \/ exists b t, committed db0 db (ld_tenant l) b /\ serves [] db0 db (ld_tenant l) t /\ Revision t = pb_revision b
       /\ em_engine (publish_load seed p l) = <[ld_tenant l := t]> (em_engine p)
       /\ forall cur, em_engine p !! ld_tenant l = Some cur -> pb_revision b <= 0 \/ Revision cur < pb_revision b.
Proof.
  intros Hl. unfold publish_load. destruct (embedded_syncTenant _ _ _ _) as [p'|] eqn:E; [|by left].
  apply embedded_sync_spec in E as [_ [->|(b & compiled & t & Hb & Hc & Hr & -> & Hcur)]]; [by left|]. right.
  exists b, t. split_and!; [by apply Hl|eapply serves_untried; [by apply Hl|done..]| |done|done].
  by apply represents_fields in Hr as [_ ->].
Qed.

Lemma publish_load_ok db0 db allowed seed p l : load_ok db0 db l -> ld_tenant l ∈ allowed ->
  tries_ok [] db0 db (em_engine p) -> scoped allowed p ->
  tries_ok [] db0 db (em_engine (publish_load seed p l)) /\ scoped allowed (publish_load seed p l).
Proof.
  intros Hl Hin Ht Hs. split.
  - destruct (publish_load_spec db0 db seed p l Hl) as [->|(b & t & _ & Hsv & _ & -> & _)]; [done|].
    intros tid t' [[<- <-]|[_ ?]]%lookup_insert_Some; [done|by apply Ht].
  - unfold publish_load. destruct (embedded_syncTenant _ _ _ _) as [p'|] eqn:E; [|done]. by eapply embedded_sync_scoped.
Qed.

Lemma embedded_moves_ok db0 allowed e e' : db_sound db0 -> embedded_moves e e' -> embedded_ok db0 allowed e -> embedded_ok db0 allowed e'.
Proof.
  intros Hdb Hm [Hh Ht Hs Hl Hr]. assert (db_sound (eb_db e)) as Hdb' by (by eapply steps_ok).
  destruct Hm as [e ev e' Hev|e e' Hc|e db Hst].
  - unfold embedded_event, loop_step, redis_step in Hev.
    destruct ev as [seed|seed ok|seed| | |payload|seed ok|seed| |];
      match type of Hev with
      | context [eb_loop e] => destruct (eb_loop e) as [|[|tid todo]|l todo|] eqn:Ew; try done
      | _ => destruct (eb_redis e) as [[|tid|l|]|] eqn:Ew; try done
      end; try (destruct (eb_closed e); [|done]); injection Hev as <-; constructor; cbn; try done.
    + apply Forall_forall. intros tid. rewrite range_keys_perm, elem_of_elements. by destruct Hs as [-> _].
    + apply Forall_cons in Hl as [Hin Hl]. split_and!; [by apply start_demand_ok|done..].
    + destruct Hl as (Hl & Hin & _). by eapply publish_load_ok.
    + destruct Hl as (Hl & Hin & _). by eapply publish_load_ok.
    + by destruct Hl as (_ & _ & ?).
    + destruct (_ ≫= into_event) as [msg|]; [|done]. case_bool_decide; [|done]. cbn. by destruct Hs as [<- _].
    + split; [by apply start_demand_ok|done].
    + destruct Hr as [Hl' Hin]. by eapply publish_load_ok.
    + destruct Hr as [Hl' Hin]. by eapply publish_load_ok.
  - unfold Close in Hc. destruct (eb_closed e); [done|]. by injection Hc as <-.
  - constructor; cbn.
    + by eapply rtc_r.
    + by eapply tries_ok_mono.
    + done.
    + destruct (eb_loop e) as [| |l todo|]; try done. destruct Hl as (Hl & ?). split; [by eapply load_ok_mono|done].
    + destruct (eb_redis e) as [[| |l|]|]; try done. destruct Hr as (Hl' & ?). split; [by eapply load_ok_mono|done].
Qed.

Lemma new_tries db0 db seed allowed bundles p :
  (forall tid b, bundles tid = Some b -> committed db0 db tid b) ->
  embedded_New seed allowed bundles = Ok p -> tries_ok [] db0 db (em_engine p).
Proof.
  intros Hb. unfold embedded_New. generalize (range_keys seed (list_to_set allowed)). intros ks.
  assert (forall q, tries_ok [] db0 db (em_engine q) ->
    foldl (fun r tid => let? p := r in embedded_syncTenant seed (bundles tid) p tid) (Ok q) ks = Ok p ->
    tries_ok [] db0 db (em_engine p)) as Hfold; [|apply Hfold; intros tid t Hl; cbn in Hl; unfold NewEngine in Hl; by rewrite lookup_empty in Hl].
  induction ks as [|k ks IH]; intros q Hq; cbn; [by intros [= <-]|].
  destruct (embedded_syncTenant seed (bundles k) q k) as [q'|err] eqn:E.
  - apply IH. apply embedded_sync_spec in E as [_ [->|(b & compiled & t & Hbk & Hc & Hr & -> & _)]]; [done|].
    intros tid t' [[<- <-]|[_ ?]]%lookup_insert_Some; [|by apply Hq]. eapply serves_untried; [by apply Hb|done..].
  - intros Hf. exfalso. clear -Hf. induction ks as [|k' ks IH]; cbn in Hf; [done|by apply IH].
Qed.
End Facts.

(** ** Properties *)

Section Properties.
Context `{UnicodeTable} `{RangeOrder} `{RowOrder}.

Lemma embedded_starts_ok (redis : bool) seed allowed bundles (db0 db : Database) e :
  rtc storage_step db0 db -> (forall tid b, bundles tid = Some b -> committed db0 db tid b) ->
  New true redis seed allowed bundles db = Some e -> embedded_ok db0 (list_to_set allowed) e.
Proof.
  intros Hh Hb. unfold New. cbn [negb]. destruct (embedded_New seed allowed bundles) as [p|] eqn:E; [|done]. intros [= <-].
  constructor; cbn; try done.
  - by eapply new_tries.
  - by eapply embedded_New_scoped.
  - by destruct redis.
Qed.

Lemma run_ok db0 allowed e e' : db_sound db0 -> rtc embedded_moves e e' -> embedded_ok db0 allowed e -> embedded_ok db0 allowed e'.
Proof. intros Hdb. induction 1 as [|x y z Hs _ IH]; [done|]. intros He. apply IH. by eapply embedded_moves_ok. Qed.

Lemma publish_load_mono db0 db seed p l tid : db_sound db0 -> load_ok db0 db l ->
  current_revision (em_engine p) tid <= current_revision (em_engine (publish_load seed p l)) tid.
Proof.
  intros Hdb Hl. destruct (publish_load_spec db0 db seed p l Hl) as [->|(b & t & Hb & _ & Hr & -> & Hcur)]; [done|].
  assert (0 < pb_revision b) as Hpos.
  { destruct Hb as (past & sd & Hp & _ & Hg). eapply (steps_ok _ _ Hp Hdb). by eapply bundle_revision. }
  unfold current_revision. destruct (decide (ld_tenant l = tid)) as [<-|Hne]; [|by rewrite lookup_insert_ne].
  rewrite lookup_insert_eq. cbn. rewrite Hr. destruct (em_engine p !! ld_tenant l) as [cur|] eqn:E; cbn; [|lia].
  destruct (Hcur cur eq_refl); lia.
Qed.

Lemma embedded_moves_mono db0 allowed e e' tid : db_sound db0 -> embedded_ok db0 allowed e -> embedded_moves e e' ->
  current_revision (em_engine (eb_pdp e)) tid <= current_revision (em_engine (eb_pdp e')) tid.
Proof.
  intros Hdb He Hm. destruct Hm as [e ev e' Hev|e e' Hc|]; [| |done].
  - assert (eb_pdp e' = eb_pdp e \/ exists seed l, load_ok db0 (eb_db e) l /\ eb_pdp e' = publish_load seed (eb_pdp e) l) as [->|Hp].
    { pose proof (eo_loop _ _ _ He) as Hl. pose proof (eo_redis _ _ _ He) as Hr.
      unfold embedded_event, loop_step, redis_step in Hev. destruct ev; repeat case_match; simplify_eq; cbn;
        first [by left|right; eexists _, _; split; [|done]; first [by apply Hl|by apply Hr]]. }
    + done.
    + destruct Hp as (seed & l & Hl & ->). by eapply publish_load_mono.
  - unfold Close in Hc. destruct (eb_closed e); [done|]. by injection Hc as <-.
Qed.

Lemma run_mono db0 allowed e e' tid : db_sound db0 -> embedded_ok db0 allowed e -> rtc embedded_moves e e' ->
  current_revision (em_engine (eb_pdp e)) tid <= current_revision (em_engine (eb_pdp e')) tid.
Proof.
  intros Hdb He Hr. induction Hr as [|x y z Hs _ IH]; [done|].
  transitivity (current_revision (em_engine (eb_pdp y)) tid); [by eapply embedded_moves_mono|].
  apply IH. by eapply embedded_moves_ok.
Qed.

(** The steps the goroutines can still take once the channel is closed, ticks and messages apart. *)
Definition loop_left (w : LoopState) : nat :=
  match w with
  | LoopWaiting => 1
  | LoopRound todo => 2 + 2 * length todo
  | LoopPublishing _ todo => 3 + 2 * length todo
  | LoopReturned => 0
  end.
Definition redis_left (w : option RedisState) : nat :=
  match w with Some RedisWaiting => 1 | Some (RedisLoading _) => 3 | Some (RedisPublishing _) => 2 | _ => 0 end.
Definition embedded_left (e : Embedded) : nat := loop_left (eb_loop e) + redis_left (eb_redis e).
Definition brings_work (ev : EmbeddedEvent) : bool := match ev with TickFired _ | MessageReceived _ => true | _ => false end.

Lemma embedded_event_left e ev e' : brings_work ev = false -> embedded_event e ev = Some e' ->
  (embedded_left e' < embedded_left e)%nat.
Proof.
  intros Hb Hev. unfold embedded_left. unfold embedded_event, loop_step, redis_step in Hev.
  destruct ev; try done; repeat case_match; simplify_eq; cbn;
    repeat match goal with E : eb_loop _ = _ |- _ => rewrite E | E : eb_redis _ = _ |- _ => rewrite E end; cbn; lia.
Qed.

Lemma closed_progress e : eb_closed e = true -> close_returns e = false ->
  exists ev e', brings_work ev = false /\ embedded_event e ev = Some e'.
Proof.
  intros Hc Hr. unfold close_returns in Hr. destruct (eb_loop e) as [|[|tid todo]|l todo|] eqn:El.
  - exists LoopStopped. eexists. split; [done|]. cbn. by rewrite El, Hc.
  - exists LoopRoundOver. eexists. split; [done|]. cbn. by rewrite El.
  - exists (LoopRead 0 false). eexists. split; [done|]. cbn. by rewrite El.
  - exists (LoopPublish 0). eexists. split; [done|]. cbn. by rewrite El.
  - destruct (eb_redis e) as [[|tid|l|]|] eqn:Er; [| | |done|done].
    + exists RedisStopped. eexists. split; [done|]. cbn. by rewrite Er, Hc.
    + exists (RedisRead 0 false). eexists. split; [done|]. cbn. by rewrite Er.
    + exists (RedisPublish 0). eexists. split; [done|]. cbn. by rewrite Er.
Qed.

(** What an embedded decision point answers from. *)
Lemma embedded_answers db0 db p tid s a r ctx res : tries_ok [] db0 db (em_engine p) ->
  embedded_CheckPermission false p tid s a r ctx = Some res -> hash_separates (normalizeAction a) ->
  (em_engine p !! tid = None /\ res = deny ReasonDenyTenantNotFound)
  \/ exists b compiled, committed db0 db tid b /\ CompilePolicySet (pb_policies b) = Ok compiled
       /\ match res_decision res with
          | DecisionAllow => bundle_allows (mkBundle compiled (pb_inheritances b) (pb_revision b)) (mkRequest s a r ctx)
          | DecisionDeny => bundle_denies (mkBundle compiled (pb_inheritances b) (pb_revision b)) (mkRequest s a r ctx)
          end.
Proof.
  intros Ht. unfold embedded_CheckPermission, engine_CheckPermission, GetTenantTrie. destruct (_ && _); [done|]. intros [= <-] Hsep.
  destruct (em_engine p !! tid) as [t|] eqn:E; [right|by left].
  destruct (Ht tid t E) as (b & compiled & leaked & Hb & Hc & Hl & Hr). exists b, compiled. split_and!; [done..|].
  destruct leaked as [|q leaked]; [|by specialize (Hl q ltac:(by left)); apply not_elem_of_nil in Hl].
  pose proof (represents_decides tid _ [] t (mkRequest s a r ctx) Hr Hsep) as Hd. by rewrite and_leaked_nil in Hd.
Qed.

Lemma returned_takes_no_step e ev : close_returns e = true -> embedded_event e ev = None.
Proof.
  unfold close_returns. intros Hr. destruct ev; cbn; destruct (eb_loop e), (eb_redis e) as [[]|]; done.
Qed.
End Properties.

(** C21: Through every interleaving of its ticker, its messages, the writers of the
    database and its closing, an embedded decision point holds only tenants of
    its whitelist, refuses every other one, and answers a tenant it holds from
    the policies and roles of one bundle committed for it (an action whose hash
    is the wildcard's apart), and never takes a revision back.  Once it is
    closed a second [Close] panics; each step of a goroutine other than a tick
    that fires or a message that arrives brings its return nearer, there is one
    until both have returned, and none after. *)
Theorem embedded_runs_safely `{UnicodeTable} `{RangeOrder} `{RowOrder} (redis : bool) (seed : nat) (allowed : list string)
    (bundles : string -> option TenantPolicyBundle) (db0 db : Database) (e e1 e2 : Embedded)
    (Hdb : db_sound db0) (Hhist : rtc storage_step db0 db)
    (Hbundles : forall tid b, bundles tid = Some b -> committed db0 db tid b)
    (Hnew : New true redis seed allowed bundles db = Some e)
    (Hrun : rtc embedded_moves e e1) (Hrun' : rtc embedded_moves e1 e2) :
  (forall tid t, em_engine (eb_pdp e1) !! tid = Some t -> tid ∈ allowed /\ serves [] db0 (eb_db e1) tid t)
  /\ (forall tid s a r ctx, allowed <> [] -> tid ∉ allowed -> embedded_CheckPermission false (eb_pdp e1) tid s a r ctx = None)
  /\ (forall tid s a r ctx res, embedded_CheckPermission false (eb_pdp e1) tid s a r ctx = Some res ->
        hash_separates (normalizeAction a) ->
        (em_engine (eb_pdp e1) !! tid = None /\ res = deny ReasonDenyTenantNotFound)
        \/ exists b compiled, committed db0 (eb_db e1) tid b /\ CompilePolicySet (pb_policies b) = Ok compiled
             /\ match res_decision res with
                | DecisionAllow => bundle_allows (mkBundle compiled (pb_inheritances b) (pb_revision b)) (mkRequest s a r ctx)
                | DecisionDeny => bundle_denies (mkBundle compiled (pb_inheritances b) (pb_revision b)) (mkRequest s a r ctx)
                end)
  /\ (forall tid, current_revision (em_engine (eb_pdp e1)) tid <= current_revision (em_engine (eb_pdp e2)) tid)
  /\ (forall ev e', brings_work ev = false -> embedded_event e1 ev = Some e' -> (embedded_left e' < embedded_left e1)%nat)
  /\ (eb_closed e1 = true ->
        Close e1 = None
        /\ (close_returns e1 = false -> exists ev e', brings_work ev = false /\ embedded_event e1 ev = Some e')
        /\ (close_returns e1 = true -> forall ev, embedded_event e1 ev = None)).
Proof.
  pose proof (embedded_starts_ok redis seed allowed bundles db0 db e Hhist Hbundles Hnew) as He.
  pose proof (run_ok db0 _ e e1 Hdb Hrun He) as He1. split_and!.
  - intros tid t Ht. split; [|by apply (eo_tries _ _ _ He1)].
    assert (tid ∈ (list_to_set allowed : gset string)) as Hin by (apply (eo_scoped _ _ _ He1); by rewrite Ht).
    by apply elem_of_list_to_set in Hin.
  - intros tid s a r ctx Hne Hout. destruct (eo_scoped _ _ _ He1) as [Ha _]. unfold embedded_CheckPermission. rewrite Ha.
    rewrite (bool_decide_false (_ = ∅)) by (destruct allowed; [done|set_solver]).
    by rewrite (bool_decide_false (tid ∈ _)) by set_solver.
  - intros tid s a r ctx res. apply embedded_answers. exact (eo_tries _ _ _ He1).
  - intros tid. by apply (run_mono db0 (list_to_set allowed)).
  - intros ev e'. apply embedded_event_left.
  - intros Hc. split; [unfold Close; by rewrite Hc|].
    split; [by apply closed_progress|]. intros Hr ev. by apply returned_takes_no_step.
Qed.
