(* ===== verification/SyncWorkersSamples.v ===== *)
(** * Nodes at work

    One node follows a database with one tenant through a publication, a lost
    connection and a round of reconciliation, and an embedded decision point
    follows it through a message: the hypotheses of the theorems about the
    goroutines hold of them. *)

From S2P Require Import Prelude GoStr GoCrypto Ast Dag Trie Evaluator Decision DecisionFacts.
From S2P Require Import Parser ParserFacts Compiler Engine EngineFacts Badger Canonical Intent Delegation Revocation.
From S2P Require Import GoJson Sync SyncFacts Server Storage StorageFacts ServerSamples SyncWorkers SyncWorkersFacts EmbeddedWorkers.
From stdpp Require Import relations options.
Local Open Scope Z_scope.

#[local] Existing Instance sorted_range.
#[local] Existing Instance ascii_table.
#[local] Existing Instance insertion_order.

Definition draft_db : Database := policy_db permit_text.

Lemma draft_db_sound : db_sound draft_db.
Proof.
  constructor.
  - intros t rev Hl. cbn in Hl. apply lookup_singleton_Some in Hl as [_ <-]. done.
  - intros e He. by apply not_elem_of_nil in He.
Qed.

Definition nothing : Node := NewNode draft_db (NewEngineWithGC sample_config).
Definition after (n : Node) (evs : list NodeEvent) : Node := default nothing (run_node n evs).

Definition runs (n : Node) (evs : list NodeEvent) : bool := match run_node n evs with Some _ => true | None => false end.

Lemma after_steps n evs : runs n evs = true -> rtc node_step n (after n evs).
Proof. unfold runs, after. destruct (run_node n evs) eqn:E; [|done]. intros _. by apply (run_steps evs). Qed.

(** The node listens; a publication commits and is delivered. *)
Definition listening : Node := after nothing [EvStart; EvSubscriber SubListen; EvSubscriber SubReady].
Definition notified : Node := set_db listening published_db.
Definition callback : list NodeEvent :=
  [EvSubscriber SubNotification; EvSubscriber (SubRead 0 true); EvSubscriber (SubPublish 0 7 8 true)].
Definition following : Node := after notified callback.

Lemma published_step : storage_step draft_db published_db.
Proof. eapply (step_publish TxCommitted _ "t" "p-1" "{}"). vm_compute. reflexivity. Qed.
Lemma listening_db : nd_db listening = draft_db.
Proof. vm_compute. reflexivity. Qed.
Lemma listening_reachable : rtc node_step nothing listening.
Proof. apply after_steps. vm_compute. reflexivity. Qed.
Lemma notified_reachable : rtc node_step nothing notified.
Proof.
  eapply rtc_r; [exact listening_reachable|]. apply (DatabaseMoves listening). rewrite listening_db. exact published_step.
Qed.
Lemma following_reachable : rtc node_step nothing following.
Proof. etransitivity; [exact notified_reachable|]. apply after_steps. vm_compute. reflexivity. Qed.

Definition served : TrieRoot := default (NewTrieRoot "none") (gc_state (sy_engine (nd_syncer following)) !! "t").

(** A probe of that node; the policy is deleted while the probe asks, after its
    question about the tenant. *)
Definition following_later : Node := set_db following deleted_db.
Lemma following_db : nd_db following = published_db.
Proof. vm_compute. reflexivity. Qed.
Lemma deleted_step : storage_step published_db deleted_db.
Proof. eapply (step_delete TxLost _ "t" "p-1"). vm_compute. reflexivity. Qed.

Lemma probe_run : rtc probe_move (following, ProbeBegun) (following_later, ProbeReturned SyncStatusHealthy false).
Proof.
  eapply rtc_l; [apply (ProbeMoves following ProbeBegun 0 true ProbeListening); vm_compute; reflexivity|].
  eapply rtc_l; [apply (ProbeMoves following ProbeListening 0 true (ProbeAsking [("t"%string, served)])); vm_compute; reflexivity|].
  eapply rtc_l; [apply (ProbeMoves following (ProbeAsking [("t"%string, served)]) 0 true (ProbeAsking [])); vm_compute; reflexivity|].
  eapply rtc_l; [apply (NodeMovesOn following following_later), (DatabaseMoves following); rewrite following_db; exact deleted_step|].
  apply rtc_once. apply (ProbeMoves following_later (ProbeAsking []) 0 true). reflexivity.
Qed.

Lemma ready_node_is_current_witness :
  exists ns, rtc node_step following ns /\ forall tid t, gc_state (sy_engine (nd_syncer ns)) !! tid = Some t ->
    exists ni, rtc node_step ns ni /\ rtc node_step ni following_later /\ answers_current ns (nd_db ni) tid t.
Proof.
  destruct (ready_node_is_current draft_db sample_config following following_later draft_db_sound following_reachable probe_run)
    as (ns & Hs & _ & Hall).
  exists ns. split; [exact Hs|]. intros tid t Ht. destruct (Hall tid t Ht) as (ni & Hi & Hi' & Hc & _). exists ni. by split_and!.
Defined.

(** While the subscriber has read the bundle and not yet published it. *)
Definition reading : Node := after notified (take 2 callback).
Lemma reading_reachable : rtc node_step nothing reading.
Proof. etransitivity; [exact notified_reachable|]. apply after_steps. vm_compute. reflexivity. Qed.
Definition read_load : Load := start_load 0 true published_db "t" 6.

Lemma reading_in_flight : in_flight reading read_load.
Proof. left. eexists _, _. vm_compute. reflexivity. Qed.

Lemma node_serves_committed_state_witness :
  (exists b, committed draft_db published_db "t" b /\ answers_from [] (sy_engine (nd_syncer following)) "t" served b)
  /\ load_ok draft_db published_db read_load
  /\ (finish_load 0 7 8 true (nd_syncer reading) read_load).2 <> Some (SyncAhead 6 5).
Proof.
  split_and!.
  - apply (node_serves_committed_state draft_db sample_config following draft_db_sound following_reachable).
    vm_compute. reflexivity.
  - apply (node_serves_committed_state draft_db sample_config reading draft_db_sound reading_reachable). exact reading_in_flight.
  - apply (node_serves_committed_state draft_db sample_config reading draft_db_sound reading_reachable). exact reading_in_flight.
Defined.

(** The connection is lost, the policy is deleted, and a round finds the new revision. *)
Definition cut_off : Node := set_db (after following [EvSubscriber SubLost]) deleted_db.
Definition round_begins : Node := after cut_off [EvReconciler (RecTick 0)].
Definition round_events : list NodeEvent :=
  [EvReconciler (RecReadRevision true); EvReconciler RecCompareRevision; EvReconciler (RecRead 0 true);
   EvReconciler (RecPublish 0 9 10 true)].
Definition round_over : Node := after round_begins round_events.

Definition disconnected : Node := after following [EvSubscriber SubLost].
Lemma disconnected_db : nd_db disconnected = published_db.
Proof. vm_compute. reflexivity. Qed.
Lemma disconnected_reachable : rtc node_step nothing disconnected.
Proof. etransitivity; [exact following_reachable|]. apply after_steps. vm_compute. reflexivity. Qed.
Lemma round_reachable : rtc node_step nothing round_begins.
Proof.
  etransitivity; [exact disconnected_reachable|].
  apply (rtc_l _ _ cut_off); [apply (DatabaseMoves disconnected); rewrite disconnected_db; exact deleted_step|].
  apply after_steps. vm_compute. reflexivity.
Qed.

Definition reconciler_succeeds_b (n : Node) (ev : NodeEvent) : bool :=
  match ev, nd_workers n with
  | EvReconciler (RecReadRevision ok), Some (_, RecRound (tid :: _)) =>
      is_ok (Storage.GetTenantRevision (ok && negb (nd_canceled n)) (nd_db n) tid)
  | EvReconciler (RecPublish seed now clock store_ok), Some (_, RecPublishing l _) =>
      match (finish_load seed now clock store_ok (nd_syncer n) l).2 with None => true | Some _ => false end
  | EvUnload _, _ => false
  | _, _ => true
  end.
Lemma reconciler_succeeds_true n ev : reconciler_succeeds_b n ev = true -> reconciler_succeeds n ev.
Proof.
  unfold reconciler_succeeds_b, reconciler_succeeds. destruct ev as [| | |rv| | | | |]; try done.
  destruct (nd_workers n) as [[w r]|]; [|by destruct rv]. destruct rv, r as [|[|]| | | |]; try done.
  - destruct (Storage.GetTenantRevision _ _ _); [by eexists|done].
  - by destruct (finish_load _ _ _ _ _ _).2.
Qed.
Fixpoint calm_events (n : Node) (evs : list NodeEvent) : bool :=
  match evs with
  | [] => true
  | ev :: evs' => reconciler_succeeds_b n ev
                  && match node_event n ev with None => false | Some n' => calm_events n' evs' end
  end.
Lemma calm_after evs : forall n, calm_events n evs = true -> rtc calm_step n (default nothing (run_node n evs)).
Proof.
  induction evs as [|ev evs IH]; intros n; cbn; [intros _; apply rtc_refl|]. intros [Hs He]%andb_true_iff.
  destruct (node_event n ev) as [n1|] eqn:E; [|done].
  eapply rtc_l; [by eapply CalmEvent; [apply reconciler_succeeds_true|]|by apply IH].
Qed.
Lemma round_runs : rtc calm_step round_begins round_over.
Proof. apply calm_after. vm_compute. reflexivity. Qed.

Definition served_after : TrieRoot := default (NewTrieRoot "none") (gc_state (sy_engine (nd_syncer round_over)) !! "t").

Lemma round_catches_up_witness :
  exists t, gc_state (sy_engine (nd_syncer round_over)) !! "t"%string = Some t /\ 7 <= Revision t
    /\ (db_tenants deleted_db !! "t"%string = Some 7 -> answers_current round_over deleted_db "t" t).
Proof.
  eapply (round_catches_up draft_db sample_config round_begins round_over SubBackoff SubBackoff ["t"%string] "t" 7
    draft_db_sound round_reachable).
  - vm_compute. reflexivity.
  - by left.
  - vm_compute. reflexivity.
  - exact round_runs.
  - vm_compute. reflexivity.
Defined.

(** [Stop] while a round is under way. *)
Definition stopped_run : list NodeEvent :=
  [EvSubscriber SubAbandon; EvReconciler (RecReadRevision true); EvReconciler RecEndRound; EvReconciler RecCanceled].

Lemma canceled_worker_run evs : forall n, Forall (fun ev => is_worker ev = true /\ is_tick ev = false) evs ->
  runs n evs = true -> canceled_run (length evs) n (default nothing (run_node n evs)).
Proof.
  induction evs as [|ev evs IH]; intros n Hev Hs; cbn; [apply RunEnd|]. unfold runs in Hs. cbn in Hs.
  apply Forall_cons in Hev as [[Hw Ht] Hev]. destruct (node_event n ev) as [n1|] eqn:E; [|done].
  eapply RunWorker; [done..|]. by apply IH.
Qed.

Lemma stop_ends_goroutines_witness :
  (4 <= workers_left round_begins)%nat
  /\ forall ev, is_worker ev = true -> node_event (after (Stop round_begins) stopped_run) ev = None.
Proof.
  destruct (stop_ends_goroutines 4 round_begins (after (Stop round_begins) stopped_run)) as (Hle & _ & Hdone).
  - vm_compute. reflexivity.
  - vm_compute. reflexivity.
  - apply (canceled_worker_run stopped_run); [by repeat constructor|]. vm_compute. reflexivity.
  - split; [exact Hle|]. apply Hdone. vm_compute. reflexivity.
Defined.

(** One revision could not be read; the connection is up and memory is up to
    date, and after a successful round the node is still not ready. *)
Definition hiccup : Node := after following [EvReconciler (RecTick 0); EvReconciler (RecReadRevision false); EvReconciler RecEndRound].
Definition recovered_events : list NodeEvent :=
  [EvReconciler (RecTick 0); EvReconciler (RecReadRevision true); EvReconciler RecCompareRevision; EvReconciler RecEndRound].
Definition recovered : Node := after hiccup recovered_events.

Lemma same_connection_run evs : forall n, Forall (fun ev => ev <> EvSubscriber SubReady) evs ->
  runs n evs = true -> rtc same_connection n (default nothing (run_node n evs)).
Proof.
  induction evs as [|ev evs IH]; intros n Hev Hs; cbn; [apply rtc_refl|]. unfold runs in Hs. cbn in Hs.
  apply Forall_cons in Hev as [Hne Hev]. destruct (node_event n ev) as [n1|] eqn:E; [|done].
  eapply rtc_l; [by eapply SameEvent|]. by apply IH.
Qed.

Lemma degraded_until_reconnected_witness :
  nd_workers recovered = Some (SubWaiting 1, RecWaiting)
  /\ gc_GetTenantRevision (sy_engine (nd_syncer recovered)) "t" = 6
  /\ Readiness (fun tid => db_tenants published_db !! tid) (nd_syncer recovered) = (SyncStatusDegraded, true).
Proof.
  split; [vm_compute; reflexivity|]. split; [vm_compute; reflexivity|].
  apply (degraded_until_reconnected hiccup recovered).
  - vm_compute. reflexivity.
  - apply same_connection_run; [by repeat constructor|]. vm_compute. reflexivity.
Defined.

(** ** An embedded decision point *)

Definition read_now (db : Database) (tid : string) : option TenantPolicyBundle :=
  match GetTenantPolicyBundle 0 true db tid with Ok b => Some b | Err _ => None end.

Lemma read_now_committed db0 db tid b : rtc storage_step db0 db -> read_now db tid = Some b -> committed db0 db tid b.
Proof.
  unfold read_now. intros Hh Hb. destruct (GetTenantPolicyBundle 0 true db tid) as [b'|] eqn:E; [|done].
  injection Hb as ->. exists db, 0%nat. by split_and!; [|apply rtc_refl|].
Qed.

Definition unstarted : Embedded := mkEmb draft_db (mkEmbedded ∅ ∅) true LoopReturned None.
Definition embedded_node : Embedded := default unstarted (New true true 0 ["t"%string] (read_now published_db) published_db).

(** The deletion commits, its message arrives and is followed, and the node is closed. *)
Definition after_embedded (e : Embedded) (evs : list EmbeddedEvent) : Embedded :=
  foldl (fun e ev => default e (embedded_event e ev)) e evs.
Definition deletion_committed : Embedded := with_eb_db embedded_node deleted_db.
Definition deletion_message : string := json_text (JObject [("tenant_id", JString "t"); ("revision", json_int 7)]%string).
Definition deletion_followed : Embedded :=
  after_embedded deletion_committed [MessageReceived deletion_message; RedisRead 0 true; RedisPublish 0].
Definition embedded_closed : Embedded := default unstarted (Close deletion_followed).

Lemma after_embedded_steps evs : forall e, rtc embedded_moves e (after_embedded e evs).
Proof.
  induction evs as [|ev evs IH]; intros e; [apply rtc_refl|]. unfold after_embedded. cbn.
  destruct (embedded_event e ev) as [e'|] eqn:E; cbn; [|apply IH].
  eapply rtc_l; [by eapply EmbeddedMoves|apply IH].
Qed.

Lemma embedded_run : rtc embedded_moves embedded_node embedded_closed.
Proof.
  apply (rtc_l _ _ deletion_committed).
  { apply (EmbeddedDatabase embedded_node).
    assert (eb_db embedded_node = published_db) as -> by (vm_compute; reflexivity). exact deleted_step. }
  eapply rtc_r; [apply (after_embedded_steps [MessageReceived deletion_message; RedisRead 0 true; RedisPublish 0] deletion_committed)|]. apply EmbeddedClose.
  unfold embedded_closed, Close. destruct (eb_closed deletion_followed) eqn:E; [|done].
  assert (eb_closed deletion_followed = false) as Ef by (vm_compute; reflexivity). congruence.
Qed.

Lemma embedded_runs_safely_witness :
  current_revision (em_engine (eb_pdp embedded_closed)) "t" = 7
  /\ (forall tid t, em_engine (eb_pdp embedded_closed) !! tid = Some t ->
        tid ∈ ["t"%string] /\ serves [] draft_db (eb_db embedded_closed) tid t)
  /\ Close embedded_closed = None.
Proof.
  split; [vm_compute; reflexivity|].
  destruct (embedded_runs_safely true 0 ["t"%string] (read_now published_db) draft_db published_db
              embedded_node embedded_closed embedded_closed draft_db_sound) as (Hheld & _ & _ & _ & _ & Hclosed).
  - apply rtc_once. exact published_step.
  - intros tid b Hb. apply read_now_committed; [apply rtc_once; exact published_step|exact Hb].
  - vm_compute. reflexivity.
  - exact embedded_run.
  - apply rtc_refl.
  - split; [exact Hheld|]. assert (eb_closed embedded_closed = true) as Hc by (vm_compute; reflexivity).
    exact (proj1 (Hclosed Hc)).
Defined.
