(* ===== verification/RevocationSync.v ===== *)
(** * The goroutine of the revocation list ([internal/security/revocation_sync.go])

    [RevocationSyncer.run] with its start and stop handshake as a state machine:
    an event is one callback of the store, one return of its watch or one
    expiry of the reconnection timer, or a call of another goroutine on the
    list.  The state keeps what was sent to the channel [ready]. *)

From S2P Require Import Prelude GoStr GoCrypto Canonical Delegation Revocation.
From stdpp Require Import options.
Local Open Scope Z_scope.

(** Where the goroutine is: in [WatchRevocations], waiting for the timer, or returned. *)
Inductive WatchState := Watching | Reconnecting | Finished.

Inductive SyncerReport := ReportReady | ReportCanceled | ReportFailed.

Record RevocationSyncer := mkRevSyncer {
  rs_manager : DelegationManager;
  rs_worker : WatchState;
  rs_initialized : bool;
  rs_ready : list SyncerReport
}.

(** [canceled] is the state of the context when the watch returns. *)
Inductive SyncerEvent :=
| SnapshotDelivered (now : Z) (records : list RevocationRecord)
| RevocationDelivered (now : Z) (record : RevocationRecord)
| WatchReturned (canceled : bool)
| ReconnectTimer
| CanceledWaiting
| CallRevoke (now now' : Z) (tenantID grantID : string)
| CallIsRevoked (now : Z) (tenantID grantID : string).

(** What [Start] leaves to the goroutine. *)
Definition syncer_start (m : DelegationManager) : RevocationSyncer := mkRevSyncer (SetRevocationReady m false) Watching false [].

Definition with_manager (s : RevocationSyncer) (m : DelegationManager) : RevocationSyncer :=
  mkRevSyncer m (rs_worker s) (rs_initialized s) (rs_ready s).

(** [WatchRevocations] returned. *)
Definition watch_returned (s : RevocationSyncer) (canceled : bool) : RevocationSyncer :=
  if canceled then
    mkRevSyncer (SetRevocationReady (rs_manager s) false) Finished (rs_initialized s)
      (if rs_initialized s then rs_ready s else rs_ready s ++ [ReportCanceled])
  else if negb (rs_initialized s) then mkRevSyncer (rs_manager s) Finished false (rs_ready s ++ [ReportFailed])
  else mkRevSyncer (SetRevocationReady (rs_manager s) false) Reconnecting true (rs_ready s).

(** [None] for an event that cannot happen in the state. *)
Definition syncer_event (s : RevocationSyncer) (ev : SyncerEvent) : option RevocationSyncer :=
  match ev, rs_worker s with
  | SnapshotDelivered now records, Watching =>
      Some (mkRevSyncer (on_snapshot now (rs_manager s) records) Watching true
              (if rs_initialized s then rs_ready s else rs_ready s ++ [ReportReady]))
  | RevocationDelivered now record, Watching => Some (with_manager s (on_revocation now (rs_manager s) record))
  | WatchReturned canceled, Watching => Some (watch_returned s canceled)
  | ReconnectTimer, Reconnecting =>
      Some (mkRevSyncer (SetRevocationReady (rs_manager s) false) Watching (rs_initialized s) (rs_ready s))
  | CanceledWaiting, Reconnecting => Some (mkRevSyncer (rs_manager s) Finished (rs_initialized s) (rs_ready s))
  | CallRevoke now now' t g, _ => Some (with_manager s (Revoke now now' (rs_manager s) t g).1)
  | CallIsRevoked now t g, _ => Some (with_manager s (IsRevoked now (rs_manager s) t g).1)
  | _, _ => None
  end.

Fixpoint run_syncer (s : RevocationSyncer) (evs : list SyncerEvent) : option RevocationSyncer :=
  match evs with
  | [] => Some s
  | ev :: evs' => s' ← syncer_event s ev; run_syncer s' evs'
  end.

(** [cancel] and [wg.Wait]: the watch returns, or the timer is abandoned. *)
Definition syncer_stop (s : RevocationSyncer) : RevocationSyncer :=
  match rs_worker s with
  | Watching => watch_returned s true
  | Reconnecting => mkRevSyncer (rs_manager s) Finished (rs_initialized s) (rs_ready s)
  | Finished => s
  end.

(** [Start]: the events of the goroutine until the [select] takes a branch; [timely] says whether it is the one of the report. *)
Definition syncer_Start (m : DelegationManager) (evs : list SyncerEvent) (timely : bool) : option (RevocationSyncer * bool) :=
  s ← run_syncer (syncer_start m) evs;
  match rs_ready s with
  | [ReportReady] => if timely then Some (s, true) else Some (syncer_stop s, false)
  | _ => Some (syncer_stop s, false)
  end.

(** ** What it does to the list *)

(** The step of the list an event is; a watch that fails before the first snapshot leaves it alone. *)
Definition list_events (s : RevocationSyncer) (ev : SyncerEvent) : list RevEvent :=
  match ev with
  | SnapshotDelivered now records => [EvSnapshot now records]
  | RevocationDelivered now record => [EvNotified now record]
  | WatchReturned canceled => if negb canceled && negb (rs_initialized s) then [] else [EvWatch]
  | ReconnectTimer => [EvWatch]
  | CanceledWaiting => []
  | CallRevoke now now' t g => [EvRevoke now now' t g]
  | CallIsRevoked now t g => [EvLookup now t g]
  end.
Fixpoint list_history (s : RevocationSyncer) (evs : list SyncerEvent) : list RevEvent :=
  match evs with
  | [] => []
  | ev :: evs' => list_events s ev ++ match syncer_event s ev with Some s' => list_history s' evs' | None => [] end
  end.

Lemma syncer_event_list s ev s' : syncer_event s ev = Some s' -> rs_manager s' = rev_run (rs_manager s) (list_events s ev).
Proof.
  unfold syncer_event, watch_returned. destruct ev as [| |c| | | |], (rs_worker s); try done; intros [= <-]; try done;
    cbn [list_events]; by destruct c, (rs_initialized s).
Qed.

(** The goroutine is a history of the abstract list: whatever is proved of histories holds of it. *)
Lemma syncer_refines_history evs : forall s s', run_syncer s evs = Some s' -> rs_manager s' = rev_run (rs_manager s) (list_history s evs).
Proof.
  induction evs as [|ev evs IH]; intros s s'; cbn [run_syncer list_history]; [by intros [= <-]|].
  destruct (syncer_event s ev) as [s1|] eqn:E; [|done]. cbn [mbind option_bind]. intros Hr. rewrite (IH _ _ Hr).
  unfold rev_run. rewrite foldl_app. by rewrite (syncer_event_list _ _ _ E).
Qed.

(** ** Its life *)

Record syncer_inv (s : RevocationSyncer) : Prop := {
  si_reports : rs_ready s = [] \/ exists r, rs_ready s = [r];
  si_initialized : rs_initialized s = true <-> rs_ready s = [ReportReady];
  si_waiting : rs_ready s = [] -> rs_worker s = Watching;
  si_live : rs_worker s <> Finished -> rs_ready s = [] \/ rs_ready s = [ReportReady];
  si_ready : RevocationReady (rs_manager s) = true -> rs_worker s = Watching /\ rs_initialized s = true
}.

Lemma start_inv m : syncer_inv (syncer_start m).
Proof. constructor; cbn; auto; done. Qed.

Lemma ready_revoke now now' m t g : RevocationReady (Revoke now now' m t g).1 = RevocationReady m.
Proof. exact (ready_event m (EvRevoke now now' t g)). Qed.
Lemma ready_lookup now m t g : RevocationReady (IsRevoked now m t g).1 = RevocationReady m.
Proof. exact (ready_event m (EvLookup now t g)). Qed.
Lemma ready_notified now m r : RevocationReady (on_revocation now m r) = RevocationReady m.
Proof. exact (ready_event m (EvNotified now r)). Qed.

Lemma with_manager_inv s m : RevocationReady m = RevocationReady (rs_manager s) -> syncer_inv s -> syncer_inv (with_manager s m).
Proof. intros Hm [H1 H2 H3 H4 H5]. constructor; cbn; try done. by rewrite Hm. Qed.

Lemma watch_returned_inv s canceled : rs_worker s = Watching -> syncer_inv s -> syncer_inv (watch_returned s canceled).
Proof.
  intros Hw [H1 H2 H3 H4 H5]. unfold watch_returned.
  assert (rs_initialized s = false -> rs_ready s = []) as Hempty.
  { intros Hi. destruct H4 as [?|E]; [congruence|done|]. apply H2 in E. congruence. }
  destruct canceled.
  - destruct (rs_initialized s) eqn:Ei; (constructor; cbn; try done).
    + intros E. by rewrite (proj1 H2 eq_refl) in E.
    + rewrite Hempty by done. right. by eexists.
    + rewrite Hempty by done. by split.
    + rewrite Hempty by done. done.
  - destruct (rs_initialized s) eqn:Ei; (constructor; cbn; try done).
    + intros E. by rewrite (proj1 H2 eq_refl) in E.
    + intros _. right. by apply H2.
    + rewrite Hempty by done. right. by eexists.
    + rewrite Hempty by done. by split.
    + rewrite Hempty by done. done.
    + intros Hr. destruct (H5 Hr). congruence.
Qed.

Lemma syncer_event_inv s ev s' : syncer_inv s -> syncer_event s ev = Some s' -> syncer_inv s'.
Proof.
  intros Hs. unfold syncer_event. destruct ev as [now rs|now r|c| | |now now' t g|now t g].
  - destruct (rs_worker s) eqn:Ew; try done. intros [= <-]. destruct Hs as [H1 H2 H3 H4 H5].
    destruct (rs_initialized s) eqn:Ei; (constructor; cbn; try done).
    + intros _. right. by apply H2.
    + destruct H4 as [->|E]; [congruence|right; by eexists|]. apply H2 in E. congruence.
    + destruct H4 as [->|E]; [congruence|by split|]. apply H2 in E. congruence.
    + destruct H4 as [->|E]; [congruence|by right|]. apply H2 in E. congruence.
  - destruct (rs_worker s); try done. intros [= <-]. apply with_manager_inv; [apply ready_notified|done].
  - destruct (rs_worker s) eqn:Ew; try done. intros [= <-]. by apply watch_returned_inv.
  - destruct (rs_worker s) eqn:Ew; try done. intros [= <-]. destruct Hs as [H1 H2 H3 H4 H5]. constructor; cbn; try done.
    intros _. apply H4. congruence.
  - destruct (rs_worker s) eqn:Ew; try done. intros [= <-]. destruct Hs as [H1 H2 H3 H4 H5]. constructor; cbn; try done.
    + intros E. apply H3 in E. congruence.
    + intros Hr. destruct (H5 Hr). congruence.
  - intros E. assert (s' = with_manager s (Revoke now now' (rs_manager s) t g).1) as -> by (by destruct (rs_worker s); injection E).
    apply with_manager_inv; [apply ready_revoke|done].
  - intros E. assert (s' = with_manager s (IsRevoked now (rs_manager s) t g).1) as -> by (by destruct (rs_worker s); injection E).
    apply with_manager_inv; [apply ready_lookup|done].
Qed.

Lemma run_syncer_inv evs : forall s s', syncer_inv s -> run_syncer s evs = Some s' -> syncer_inv s'.
Proof.
  induction evs as [|ev evs IH]; intros s s' Hs; cbn [run_syncer]; [by intros [= <-]|].
  destruct (syncer_event s ev) as [s1|] eqn:E; [|done]. cbn [mbind option_bind]. apply IH. by eapply syncer_event_inv.
Qed.

Lemma stop_finished s : syncer_inv s -> syncer_inv (syncer_stop s) /\ rs_worker (syncer_stop s) = Finished.
Proof.
  intros Hs. unfold syncer_stop. destruct (rs_worker s) eqn:Ew; [split; [by apply watch_returned_inv|done]| |done].
  split; [|done]. by apply (syncer_event_inv s CanceledWaiting); [|unfold syncer_event; rewrite Ew].
Qed.

(** C20: In every history of its goroutine the syncer sends at most one report, so the send never blocks, and has sent one when it
    ends; the list is ready only inside a watch that delivered a snapshot, never after the goroutine has ended or [Start] has
    failed; and the list is the fold of the history of its callbacks. *)
Theorem syncer_reports_once (m : DelegationManager) (evs : list SyncerEvent) (s : RevocationSyncer) :
  run_syncer (syncer_start m) evs = Some s ->
  (length (rs_ready s) <= 1)%nat
  /\ (rs_worker s = Finished -> length (rs_ready s) = 1%nat /\ RevocationReady (rs_manager s) = false)
  /\ (RevocationReady (rs_manager s) = true -> rs_worker s = Watching /\ rs_ready s = [ReportReady])
  /\ rs_manager s = rev_run (SetRevocationReady m false) (list_history (syncer_start m) evs)
  /\ forall timely s', syncer_Start m evs timely = Some (s', false) -> rs_worker s' = Finished /\ RevocationReady (rs_manager s') = false.
Proof.
  intros Hr. pose proof (run_syncer_inv _ _ _ (start_inv m) Hr) as Hs. pose proof Hs as [H1 H2 H3 H4 H5].
  assert (forall s0, syncer_inv s0 -> rs_worker s0 = Finished -> RevocationReady (rs_manager s0) = false) as Hfin.
  { intros s0 [_ _ _ _ Hrd] Hw. destruct (RevocationReady (rs_manager s0)); [|done]. destruct (Hrd eq_refl). congruence. }
  split_and!.
  - destruct H1 as [->|[r ->]]; cbn; lia.
  - intros Hw. split; [|by apply Hfin]. destruct H1 as [E|[r ->]]; [|done]. apply H3 in E. congruence.
  - intros Hrd. destruct (H5 Hrd) as [Hw Hi]. split; [done|]. by apply H2.
  - exact (syncer_refines_history _ _ _ Hr).
  - intros timely s' Hst. unfold syncer_Start in Hst. rewrite Hr in Hst. cbn [mbind option_bind] in Hst.
    destruct (stop_finished s Hs) as [Hi Hw].
    assert (s' = syncer_stop s) as -> by (repeat case_match; by simplify_eq).
    split; [done|by apply Hfin].
Qed.
