(* ===== verification/Startup.v ===== *)
(** * Starting the servers ([cmd/pdp-server/main.go], [cmd/control-plane/main.go],
    [internal/server/grpc_server.go], [grpc_transport.go], [http_server.go])

    The wiring of the loaded configuration into the components, up to the
    moment the process serves: each call that can fail ends the process with
    its error.  What the environment answers is an argument, the [World].
    Logging, credentials on disk and the goroutines that are started are left
    out; the connection to a database is its rows. *)

From S2P Require Import Prelude GoStr GoCrypto Delegation Revocation Approval ParserFacts Dag Trie Decision Engine.
From S2P Require Import EngineFacts CacheCollector Badger Sync SyncFacts Jwt Identity DelegationAuth Server ServerFacts.
From S2P Require Import Storage HttpServer Config ConfigFacts AuditCrypto AuditRecord Archive Spill AuditQueue.
From S2P Require Import RevocationSync.
From stdpp Require Import options.
Local Open Scope Z_scope.

Inductive StartupError :=
| ConfigRejected (e : ConfigError)
| EdgeStorage | EdgeRestore (e : RestoreError)
| DatabaseDown | AuditEncryption (e : CryptoError) | AuditArchive (e : ArchiveError) | AuditLoggerSetup (e : LoggerError)
| ListenFailed | ErpFence
| TlsSetup | DelegationRing (e : KeyringError) | ApprovalRing (e : ApprovalError) | RevocationsUnavailable
| HealthPort.

(** ** The gRPC service *)

(** [newGRPCServerWithSecurity]; the evaluation timeout is the deadline of each call. *)
Definition newGRPCServerWithSecurity {DB : Type} (eng : EngineWithGC) (logger : option (list AuditCall)) (sec : SecurityConfig)
    (revocationStore : option DB) : result StartupError (GRPCServer DB) :=
  let '(activeKeyID, delegationKeys) :=
    if bool_decide (DelegationKeys sec = ∅) && negb (bool_decide (DelegationSecret sec = ""%string))
    then ("legacy"%string, {["legacy"%string := DelegationSecret sec]})
    else (DelegationActiveKeyID sec, DelegationKeys sec) in
  let? delegationManager := match NewDelegationManagerWithKeyring activeKeyID delegationKeys with
                            | Ok m => Ok m
                            | Err e => Err (DelegationRing e)
                            end in
  let '(approvalActiveKeyID, approvalKeys) :=
    if bool_decide (ApprovalKeys sec = ∅)
    then ("approval-legacy"%string, {["approval-legacy"%string := "standalone-policy-engine-dev-approval-secret"%string]})
    else (ApprovalActiveKeyID sec, ApprovalKeys sec) in
  let approvalTTL := if ApprovalTTL sec <=? 0 then 15 * minute else ApprovalTTL sec in
  let? approvalManager := match NewApprovalCapabilityManagerWithKeyring approvalActiveKeyID approvalKeys approvalTTL with
                          | Ok m => Ok m
                          | Err e => Err (ApprovalRing e)
                          end in
  Ok (mkServer eng logger (Some (NewJWTValidatorWithConfig (JWTSecret sec) (JWTIssuer sec) (JWTAudience sec)))
        (Some delegationManager) (Some approvalManager) revocationStore).
Definition NewGRPCServerWithSecurity {DB : Type} (eng : EngineWithGC) (logger : option (list AuditCall)) (sec : SecurityConfig) :
    result StartupError (GRPCServer DB) := newGRPCServerWithSecurity eng logger sec None.

(** The arguments are the values of the variables the default constructors read. *)
Definition NewGRPCServer {DB : Type} (jwtSecret jwtIssuer jwtAudience sharedSecret : string) (eng : EngineWithGC)
    (logger : option (list AuditCall)) : GRPCServer DB :=
  mkServer eng logger (Some (NewJWTValidator jwtSecret jwtIssuer jwtAudience)) (Some (NewDelegationManager sharedSecret)) None None.

Inductive Transport := MutualTLS | Insecure.
Definition transport_of (sec : SecurityConfig) : Transport :=
  if negb (bool_decide (TLSCertFile sec = ""%string)) && negb (bool_decide (TLSKeyFile sec = ""%string))
     && negb (bool_decide (TLSCAFile sec = ""%string))
  then MutualTLS else Insecure.

(** [tls] says whether the three files make credentials; [watch] are the events of the revocation syncer while it starts, and
    whether its report comes in time.  A history that cannot happen gives an error. *)
Definition StartGRPCServerWithRevocations {DB : Type} (tls : bool) (watch : list SyncerEvent * bool) (eng : EngineWithGC)
    (logger : option (list AuditCall)) (sec : SecurityConfig) (revocationStore : option DB) :
    result StartupError (GRPCServer DB * Transport) :=
  let transport := transport_of sec in
  guard? match transport with MutualTLS => negb tls | Insecure => false end else TlsSetup;
  let? service := newGRPCServerWithSecurity eng logger sec revocationStore in
  match gs_delegation service, revocationStore with
  | Some m, Some _ =>
      match syncer_Start m watch.1 watch.2 with
      | Some (s, true) => Ok (with_delegation service (Some (rs_manager s)), transport)
      | _ => Err RevocationsUnavailable
      end
  | Some m, None => Ok (with_delegation service (Some (SetRevocationReady m false)), transport)
  | None, _ => Ok (service, transport)
  end.
Definition StartGRPCServer {DB : Type} (tls : bool) (eng : EngineWithGC) (logger : option (list AuditCall)) (sec : SecurityConfig) :
    result StartupError (GRPCServer DB * Transport) :=
  StartGRPCServerWithRevocations tls ([], true) eng logger sec None.

(** ** The decision point *)

Inductive Listener := OnZiti (identity service : string) | OnSocket (path : string) | OnTCP (port : Z).
Definition listener_of (c : ServerConfig) : Listener :=
  if UseZiti c then OnZiti (ZitiIdentityPath c) (ZitiServiceName c)
  else if negb (bool_decide (SocketPath c = ""%string)) then OnSocket (SocketPath c)
  else OnTCP (GRPCPort c).

(** What the process meets while it starts. *)
Record World := mkWorld {
  w_seed : nat;                       (** the iteration order of maps *)
  w_now : Z;
  w_badger : option BadgerStore;      (** the edge store, when it can be opened *)
  w_db : option Database;             (** the database, when it can be reached and migrated *)
  w_archive_client : bool;
  w_spill_made : bool;
  w_listen : Listener -> bool;
  w_erp : string -> option ErpDatabase;
  w_tls : bool;
  w_watch : list SyncerEvent * bool;
  w_health_port : Z -> bool
}.

Definition gc_config (c : EngineConfig) : GCConfig := mkGCConfig (negb (DisableGC c)) (GCInterval c) (GCIdle c) 0.

Definition archive_config (c : AuditConfig) : S3ArchiveConfig :=
  mkS3ArchiveConfig (ArchiveBucket c) (ArchivePrefix c) (ArchiveRegion c) (ArchiveExpectedBucketOwner c).
(** [NewS3ArchiveSink]. *)
Definition NewS3ArchiveSink (client : bool) (cfg : S3ArchiveConfig) : result ArchiveError S3ArchiveConfig :=
  let? _ := validateS3ArchiveConfig cfg in
  guard? negb client else PutFailed;
  newS3ArchiveSink cfg.

Definition batch_config (c : AuditConfig) : BatchConfig :=
  mkBatchConfig (QueueCapacity c) (Config.BatchSize c) (FlushInterval c) (WriteTimeout c) (SpillDir c) (SpillMaxBytes c).

(** The logger of a node with a database, and its archive. *)
Definition start_audit (w : World) (cfg : Config) : result StartupError (LoggerConfig * option S3ArchiveConfig) :=
  let sec := cfg_Security cfg in let audit := cfg_Audit cfg in
  let? crypto := match NewEnvelopeCryptoWithKeyring (AuditActiveKeyID sec) (AuditKeys sec) with
                 | Ok c => Ok c
                 | Err e => Err (AuditEncryption e)
                 end in
  let? archive := if bool_decide (ArchiveBucket audit = ""%string) then Ok None
                  else match NewS3ArchiveSink (w_archive_client w) (archive_config audit) with
                       | Ok c => Ok (Some c)
                       | Err e => Err (AuditArchive e)
                       end in
  match NewBatchAuditLogger (w_spill_made w) "" (Some crypto) (batch_config audit) with
  | Ok l => Ok (l, archive)
  | Err e => Err (AuditLoggerSetup e)
  end.

(** A decision point that serves. *)
Record DecisionPoint := mkDecisionPoint {
  dp_server : GRPCServer Stores;
  dp_transport : Transport;
  dp_listener : Listener;
  dp_audit : option (LoggerConfig * option S3ArchiveConfig);
  dp_syncer : option Syncer
}.

Definition is_edge (cfg : Config) : bool := bool_decide (StorageMode (cfg_Engine cfg) = "edge"%string).

(** The engine, the database and the audit logger of the storage mode. *)
Definition start_storage `{Dag.RangeOrder} `{UnicodeTable} (w : World) (cfg : Config) :
    result StartupError (EngineWithGC * option Database * option (LoggerConfig * option S3ArchiveConfig)) :=
  let eng := NewEngineWithGC (gc_config (cfg_Engine cfg)) in
  if is_edge cfg then
    match w_badger w with
    | None => Err EdgeStorage
    | Some badger =>
        match RestoreEdgeSnapshots (w_seed w) (w_now w) eng badger with
        | Ok eng' => Ok (eng', None, None)
        | Err e => Err (EdgeRestore e)
        end
    end
  else match w_db w with
       | None => Err DatabaseDown
       | Some db => let? audit := start_audit w cfg in Ok (eng, Some db, Some audit)
       end.

(** [NewERPRevocationStore] and [SetERPPolicyFence], when the variable is set. *)
Definition start_fence (w : World) (cfg : Config) (db : option Database) : result StartupError (option Stores) :=
  let url := ERPRevocationURL (cfg_Database cfg) in
  if bool_decide (url = ""%string) then Ok ((fun db => mkStores db None) <$> db)
  else match db, w_erp w url with
       | Some db, Some erp => Ok (Some (mkStores db (Some erp)))
       | _, _ => Err ErpFence
       end.

Definition start_pdp `{Dag.RangeOrder} `{UnicodeTable} (w : World) (cfg : Config) : result StartupError DecisionPoint :=
  let? (eng, db, audit) := start_storage w cfg in
  let listener := listener_of (cfg_Server cfg) in
  guard? negb (w_listen w listener) else ListenFailed;
  let? store := start_fence w cfg db in
  let? (server, transport) := StartGRPCServerWithRevocations (w_tls w) (w_watch w) eng ((fun _ => []) <$> audit)
                                (cfg_Security cfg) store in
  guard? negb (w_health_port w (HTTPPort (cfg_Server cfg))) else HealthPort;
  Ok (mkDecisionPoint server transport listener audit (if db then Some (NewSyncer eng) else None)).

(** [GET /readyz] of the health server: [ping] and [sync] are what the database and the syncer answer. *)
Definition dp_readiness (ping : bool) (sync : SyncStatus * bool) (p : DecisionPoint) : Z * healthResponse :=
  readiness (match gs_store (dp_server p) with Some _ => Some ping | None => None end)
    (match dp_syncer p with Some _ => Some sync | None => None end).

(** [main] of the decision point. *)
Definition pdp_main `{Dag.RangeOrder} `{UnicodeTable} `{LowerTable} `{Config.RangeOrder} (w : World) (env : Environment) :
    result StartupError DecisionPoint :=
  match Load env with Ok cfg => start_pdp w cfg | Err e => Err (ConfigRejected e) end.

(** ** The control plane *)

Record ControlPlane := mkControlPlane { cp_store : Stores; cp_engine : EngineWithGC; cp_syncer : Syncer; cp_jwt : JWTValidator }.

Definition NewHTTPServerWithSecurityAndSync (store : Stores) (eng : EngineWithGC) (syncer : Syncer) (sec : SecurityConfig) : ControlPlane :=
  mkControlPlane store eng syncer (NewJWTValidatorWithConfig (JWTSecret sec) (JWTIssuer sec) (JWTAudience sec)).

Definition control_plane_main `{LowerTable} `{Config.RangeOrder} (w : World) (env : Environment) : result StartupError ControlPlane :=
  match Load env with
  | Err e => Err (ConfigRejected e)
  | Ok cfg =>
      match w_db w with
      | None => Err DatabaseDown
      | Some db =>
          let? store := start_fence w cfg (Some db) in
          match store with
          | None => Err DatabaseDown
          | Some store =>
              let eng := NewEngineWithGC (gc_config (cfg_Engine cfg)) in
              guard? negb (w_health_port w (HTTPPort (cfg_Server cfg))) else HealthPort;
              Ok (NewHTTPServerWithSecurityAndSync store eng (NewSyncer eng) (cfg_Security cfg))
          end
      end
  end.

(** ** Theorems about starting the servers

    What a node serves with is what its configuration says; an edge node
    refuses delegated requests; a loaded configuration starts on a healthy
    world. *)

(** *** The services *)

(** The list changes, the keys do not. *)
Definition same_ring (m m' : DelegationManager) : Prop := activeKeyID m' = activeKeyID m /\ signingKeys m' = signingKeys m.

Lemma same_ring_trans m1 m2 m3 : same_ring m1 m2 -> same_ring m2 m3 -> same_ring m1 m3.
Proof. unfold same_ring. intuition congruence. Qed.
Lemma ApplyRevocation_ring now m r : same_ring m (ApplyRevocation now m r).1.
Proof. unfold ApplyRevocation. by case_match. Qed.
Lemma rev_event_ring m e : same_ring m (rev_event m e).
Proof.
  destruct e as [now now' t g|now t g|now rs|now r|]; cbn [rev_event]; [| | |apply ApplyRevocation_ring|done].
  - unfold Revoke. cbn [fst]. apply (ApplyRevocation_ring now' (cleanupExpired (time_unix_nano now) m)).
  - unfold IsRevoked. by repeat case_match.
  - unfold on_snapshot. assert (forall m0, same_ring m0 (foldl (fun m r => (ApplyRevocation now m r).1) m0 rs)) as Hf.
    { induction rs as [|r rs IH]; intros m0; [done|]. cbn [foldl]. eapply same_ring_trans; [apply ApplyRevocation_ring|apply IH]. }
    apply Hf.
Qed.
Lemma rev_run_ring es : forall m, same_ring m (rev_run m es).
Proof.
  induction es as [|e es IH]; intros m; [done|]. unfold rev_run in *. cbn [foldl]. eapply same_ring_trans; [apply rev_event_ring|apply IH].
Qed.

Lemma syncer_stop_history s : exists es, rs_manager (syncer_stop s) = rev_run (rs_manager s) es.
Proof.
  unfold syncer_stop. destruct (rs_worker s); [|by exists []|by exists []]. exists [EvWatch]. unfold watch_returned. done.
Qed.
Lemma syncer_Start_history m evs timely s b : syncer_Start m evs timely = Some (s, b) -> exists es, rs_manager s = rev_run m es.
Proof.
  unfold syncer_Start. destruct (run_syncer (syncer_start m) evs) as [s0|] eqn:E; [|done]. cbn [mbind option_bind]. intros H.
  apply syncer_refines_history in E.
  assert (rs_manager s0 = rev_run m (EvWatch :: list_history (syncer_start m) evs)) as E0 by (by rewrite E).
  assert (s = s0 \/ s = syncer_stop s0) as [->| ->] by (repeat case_match; simplify_eq; auto); [by eexists|].
  destruct (syncer_stop_history s0) as [es Hes]. rewrite E0 in Hes. eexists. rewrite Hes. unfold rev_run. by rewrite <- foldl_app.
Qed.

Section Service.
Context {DB : Type}.

(** With both rings configured there is no fallback. *)
Lemma newGRPC_ok eng logger sec (store : option DB) s : newGRPCServerWithSecurity eng logger sec store = Ok s ->
  DelegationKeys sec <> ∅ -> ApprovalKeys sec <> ∅ -> 0 < ApprovalTTL sec ->
  s = mkServer eng logger (Some (NewJWTValidatorWithConfig (JWTSecret sec) (JWTIssuer sec) (JWTAudience sec)))
        (Some (mkManager (DelegationActiveKeyID sec) (DelegationKeys sec) MaxDelegationTTL ∅ true))
        (Some (mkApprovalManager (ApprovalActiveKeyID sec) (ApprovalKeys sec) (ApprovalTTL sec))) store.
Proof.
  intros H Hd Ha Ht. unfold newGRPCServerWithSecurity in H. rewrite (bool_decide_false (DelegationKeys sec = ∅)) in H by done.
  cbn [andb] in H. rewrite (bool_decide_false (ApprovalKeys sec = ∅)) in H by done.
  rewrite (proj2 (Z.leb_gt _ _)) in H by lia. unfold NewDelegationManagerWithKeyring, NewApprovalCapabilityManagerWithKeyring in H.
  repeat case_match; inv_result; simplify_eq; done.
Qed.

Lemma newGRPC_total eng logger sec (store : option DB) :
  0 < ApprovalTTL sec <= MaxApprovalCapabilityTTL ->
  validDelegationKeyID (DelegationActiveKeyID sec) = true -> map_Forall ring_entry_ok (DelegationKeys sec) ->
  is_Some (DelegationKeys sec !! DelegationActiveKeyID sec) ->
  approvalKeyIDPattern (ApprovalActiveKeyID sec) = true -> map_Forall approval_key_ok (ApprovalKeys sec) ->
  is_Some (ApprovalKeys sec !! ApprovalActiveKeyID sec) ->
  is_ok (newGRPCServerWithSecurity eng logger sec store) = true.
Proof.
  intros Ht Hd Hring [d Hda] Ha Happ [a Haa].
  assert (DelegationKeys sec <> ∅) as Hd0 by (intros E; by rewrite E, lookup_empty in Hda).
  assert (ApprovalKeys sec <> ∅) as Ha0 by (intros E; by rewrite E, lookup_empty in Haa).
  unfold newGRPCServerWithSecurity. rewrite (bool_decide_false (DelegationKeys sec = ∅)) by done. cbn [andb].
  rewrite (bool_decide_false (ApprovalKeys sec = ∅)) by done. rewrite (proj2 (Z.leb_gt _ _)) by lia.
  unfold NewDelegationManagerWithKeyring, NewApprovalCapabilityManagerWithKeyring.
  rewrite Hd, (bool_decide_false (DelegationKeys sec = ∅)), !(bool_decide_true (map_Forall _ _)), Hda, Ha, Haa by done.
  rewrite !(bool_decide_true (is_Some _)) by by eexists.
  rewrite (proj2 (Z.leb_gt _ _)), (proj2 (Z.ltb_ge _ _)) by lia. done.
Qed.

Lemma newGRPC_frame eng logger sec (store : option DB) s : newGRPCServerWithSecurity eng logger sec store = Ok s ->
  gs_engine s = eng /\ gs_audit s = logger /\ gs_store s = store /\ exists m, gs_delegation s = Some m.
Proof.
  unfold newGRPCServerWithSecurity.
  match goal with |- (let '(_, _) := ?x in _) = _ -> _ => destruct x as [k ks] end.
  destruct (NewDelegationManagerWithKeyring k ks) as [m|]; [|done]. cbn [rbind].
  match goal with |- (let '(_, _) := ?x in _) = _ -> _ => destruct x as [ak aks] end.
  destruct (NewApprovalCapabilityManagerWithKeyring ak aks _) as [a|]; [|done]. cbn [rbind]. intros [= <-]. cbn. split_and!; eauto.
Qed.

(** The service that starts has the keys of its constructor; without a store its list is not ready. *)
Lemma StartGRPC_ok tls watch eng logger sec (store : option DB) s t :
  StartGRPCServerWithRevocations tls watch eng logger sec store = Ok (s, t) ->
  t = transport_of sec /\ exists s0 m m', newGRPCServerWithSecurity eng logger sec store = Ok s0
  /\ gs_delegation s0 = Some m /\ s = with_delegation s0 (Some m') /\ same_ring m m'
  /\ (store = None -> m' = SetRevocationReady m false).
Proof.
  unfold StartGRPCServerWithRevocations. intros H. destruct (transport_of sec) eqn:Et;
    (destruct (newGRPCServerWithSecurity eng logger sec store) as [s0|e] eqn:E0; [|by repeat case_match]).
  all: pose proof (newGRPC_frame _ _ _ _ _ E0) as (_ & _ & _ & m & Hm).
  all: assert (match store with
      | Some _ => match syncer_Start m watch.1 watch.2 with
                  | Some (s, true) => Ok (with_delegation s0 (Some (rs_manager s)), transport_of sec)
                  | _ => Err RevocationsUnavailable end
      | None => Ok (with_delegation s0 (Some (SetRevocationReady m false)), transport_of sec) end = Ok (s, t)) as H'
    by (rewrite Et; cbn in H; try (destruct tls; [|done]); cbn in H; rewrite Hm in H; by destruct store).
  all: clear H; rewrite Et in H'; destruct store as [db|];
    [destruct (syncer_Start m watch.1 watch.2) as [[s1 [|]]|] eqn:Es; [|done|done]|]; injection H' as <- <-; (split; [done|]).
  all: eexists s0, m, _; split; [done|]; split; [done|]; split; [done|]; (split; [|done]); try done.
  all: apply syncer_Start_history in Es as [es ->]; apply rev_run_ring.
Qed.
End Service.

(** *** Decision points *)

Section Start.
Context `{Dag.RangeOrder} `{UnicodeTable} (w : World) (cfg : Config).

Lemma start_pdp_ok p : start_pdp w cfg = Ok p -> exists eng db audit store,
  start_storage w cfg = Ok (eng, db, audit) /\ start_fence w cfg db = Ok store
  /\ StartGRPCServerWithRevocations (w_tls w) (w_watch w) eng ((fun _ => []) <$> audit) (cfg_Security cfg) store
     = Ok (dp_server p, dp_transport p)
  /\ dp_listener p = listener_of (cfg_Server cfg) /\ dp_audit p = audit
  /\ dp_syncer p = if db then Some (NewSyncer eng) else None.
Proof.
  unfold start_pdp. intros Hs. destruct (start_storage w cfg) as [[[eng db] audit]|] eqn:E1; [|done]. cbn [rbind] in Hs. inv_result.
  match goal with x : GRPCServer Stores * Transport |- _ => destruct x as [s t] end. inv_result.
  exists eng, db, audit. eexists. split_and!; [done|eassumption|eassumption|done..].
Qed.

Lemma start_storage_edge eng db audit : is_edge cfg = true -> start_storage w cfg = Ok (eng, db, audit) -> db = None /\ audit = None.
Proof. unfold start_storage. intros ->. repeat case_match; intros; by simplify_eq. Qed.
Lemma start_storage_cloud eng db audit : is_edge cfg = false -> start_storage w cfg = Ok (eng, db, audit) ->
  exists d a, db = Some d /\ audit = Some a /\ w_db w = Some d /\ start_audit w cfg = Ok a.
Proof.
  unfold start_storage. intros ->. destruct (w_db w) as [d|]; [|done]. intros Hs. inv_result. by eexists _, _.
Qed.
Lemma start_fence_edge store : start_fence w cfg None = Ok store -> store = None.
Proof. unfold start_fence. repeat case_match; intros; by simplify_eq. Qed.

Lemma NewBatchAuditLogger_ok made kek crypto bc l : NewBatchAuditLogger made kek (Some crypto) bc = Ok l ->
  lc_crypto l = crypto /\ (0 < lc_batchSize l <= lc_capacity l)%nat.
Proof. unfold NewBatchAuditLogger. intros Hn. inv_result; bool_to_prop; cbn; (split; [done|lia]). Qed.

Lemma start_audit_ok l c : start_audit w cfg = Ok (l, c) ->
  ec_activeKeyID (lc_crypto l) = AuditActiveKeyID (cfg_Security cfg) /\ keks (lc_crypto l) = go_bytes <$> AuditKeys (cfg_Security cfg)
  /\ (ArchiveBucket (cfg_Audit cfg) <> ""%string -> c = Some (archive_config (cfg_Audit cfg)))
  /\ (0 < lc_batchSize l <= lc_capacity l)%nat.
Proof.
  unfold start_audit. cbv zeta. intros Hs.
  destruct (NewEnvelopeCryptoWithKeyring _ _) as [crypto|] eqn:Ec; [|done]. cbn [rbind] in Hs.
  apply NewEnvelopeCrypto_ok in Ec as (_ & _ & Hk & Ha).
  match type of Hs with rbind ?m _ = _ => destruct m as [archive|] eqn:Ear; [|done] end. cbn [rbind] in Hs.
  destruct (NewBatchAuditLogger _ _ _ _) as [l0|] eqn:El; [|done]. injection Hs as <- <-.
  apply NewBatchAuditLogger_ok in El as [-> Hb].
  split_and!; try done; try lia. intros Hne. rewrite bool_decide_false in Ear by done.
  destruct (NewS3ArchiveSink _ _) as [c0|] eqn:Es; [|done]. injection Ear as <-. unfold NewS3ArchiveSink, newS3ArchiveSink in Es. by inv_result.
Qed.

(** *** What a production node serves with *)

Lemma not_blank_nonempty s : Config.blank s = false -> s <> ""%string.
Proof. by intros H1 ->. Qed.

(** C29: A production node serves with exactly what its configuration says and no built-in fallback: mutual TLS, the configured
    validator, the configured delegation and approval rings with their active keys, and, unless it is an edge node, an audit logger
    that seals under the configured ring, within its queue, into the configured archive. *)
Theorem production_node_uses_its_configuration `{LowerTable} `{Config.RangeOrder} (env : Environment) (p : DecisionPoint) :
  (forall m, Config.range_values m ≡ₚ (map_to_list m).*2) ->
  Load env = Ok cfg -> equal_fold (AppEnv cfg) "production" = true -> start_pdp w cfg = Ok p ->
  let sec := cfg_Security cfg in
  dp_transport p = MutualTLS
  /\ gs_jwt (dp_server p) = Some (NewJWTValidatorWithConfig (JWTSecret sec) (JWTIssuer sec) (JWTAudience sec))
  /\ JWTSecret sec <> developmentJWTSecret
  /\ (exists m, gs_delegation (dp_server p) = Some m /\ activeKeyID m = DelegationActiveKeyID sec /\ signingKeys m = DelegationKeys sec)
  /\ gs_approval (dp_server p) = Some (mkApprovalManager (ApprovalActiveKeyID sec) (ApprovalKeys sec) (ApprovalTTL sec))
  /\ (is_edge cfg = false -> exists l, dp_audit p = Some (l, Some (archive_config (cfg_Audit cfg)))
        /\ ec_activeKeyID (lc_crypto l) = AuditActiveKeyID sec /\ keks (lc_crypto l) = go_bytes <$> AuditKeys sec
        /\ (0 < lc_batchSize l <= lc_capacity l)%nat).
Proof.
  intros Horder Hload Hprod Hstart. cbv zeta.
  pose proof (production_checks env cfg Horder Hload Hprod) as (_ & Hjwt & _ & [d Hd] & _ & [a Ha] & _ & _ & _ & _ & Htls & Harch & _).
  apply load_ok in Hload as (_ & _ & _ & Hsec%load_security_ok & _).
  apply start_pdp_ok in Hstart as (eng & db & audit & store & Hst & Hf & Hg & _ & Hau & _).
  apply StartGRPC_ok in Hg as (Ht & s0 & m & m' & Hnew & Hm & Hs & Hring & _).
  apply newGRPC_ok in Hnew as ->; [|intros E; by rewrite E, lookup_empty in Hd|intros E; by rewrite E, lookup_empty in Ha|lia].
  rewrite Hs, Ht. cbn in Hm. injection Hm as <-. destruct Hring as [Hr1 Hr2]. split_and!; try done.
  - unfold transport_of. bool_to_prop. rewrite !bool_decide_false by by apply not_blank_nonempty. done.
  - by exists m'.
  - intros Hcloud. destruct (start_storage_cloud _ _ _ Hcloud Hst) as (_ & [l c] & _ & -> & _ & Hla).
    apply start_audit_ok in Hla as (Hk1 & Hk2 & Hc & Hb). exists l. rewrite Hau, (Hc Harch). done.
Qed.

(** *** An edge node *)

Definition not_a_snapshot (e : RevEvent) : Prop := match e with EvSnapshot _ _ => False | _ => True end.

Lemma unready_without_snapshot m es : Forall not_a_snapshot es -> RevocationReady (rev_run (SetRevocationReady m false) es) = false.
Proof.
  intros Hes. destruct (RevocationReady _) eqn:E; [|done]. apply ready_run in E as (es1 & at_ & rs & es2 & -> & _).
  apply Forall_app in Hes as [_ [[] _]%Forall_cons].
Qed.

Lemma CheckAccess_unready `{JwtLibrary} (loader : LazyLoader) (env : CallEnv (TxOutcome * TxOutcome)) (s : GRPCServer Stores)
    (ctx : Incoming) (corr : option auditCorrelation) (req : CheckAccessRequest) (m : DelegationManager) (g : string) :
  gs_delegation s = Some m -> RevocationReady m = false -> ctx_get (cr_Context req) "delegation_grant_id" = g -> g <> ""%string ->
  exists c, (CheckAccess loader env s ctx corr req).2 = Err c.
Proof.
  intros Hm Hr Hg Hne. unfold CheckAccess. destruct (validateTenantAndGetClaims _ _ _ _) as [claims|c]; [|by exists c].
  unfold bindTrustedIdentity. destruct (ExtractSubjectAttributes claims) as [[sub attrs]|]; [|by eexists].
  cbn [mbind option_bind]. case_match; [by eexists|].
  rewrite ctx_get_merge by done. unfold revocation_gate. rewrite Hg, bool_decide_false, Hm, Hr by done. by eexists.
Qed.

(** C30: A node in edge mode has no database: it never reports ready, it logs no decision, and whatever its list of revocations
    goes through, short of a snapshot, every [CheckAccess] under a delegation grant is refused with an error ([ExplainDecision]
    does not look at the grant). *)
Theorem edge_node_refuses_delegation `{JwtLibrary} (p : DecisionPoint) : is_edge cfg = true -> start_pdp w cfg = Ok p ->
  (forall ping sync, (dp_readiness ping sync p).1 = 503)
  /\ gs_audit (dp_server p) = None
  /\ exists m, gs_delegation (dp_server p) = Some m
  /\ forall (es : list RevEvent) (s : GRPCServer Stores) (loader : LazyLoader) (env : CallEnv (TxOutcome * TxOutcome)) (ctx : Incoming)
        (corr : option auditCorrelation) (req : CheckAccessRequest),
      Forall not_a_snapshot es -> gs_delegation s = Some (rev_run m es) ->
      ctx_get (cr_Context req) "delegation_grant_id" <> ""%string -> exists c, (CheckAccess loader env s ctx corr req).2 = Err c.
Proof.
  intros Hedge Hstart. apply start_pdp_ok in Hstart as (eng & db & audit & store & Hst & Hf & Hg & _ & _ & Hsy).
  apply (start_storage_edge _ _ _ Hedge) in Hst as [-> ->]. apply start_fence_edge in Hf as ->.
  apply StartGRPC_ok in Hg as (_ & s0 & m & m' & Hnew & Hm & Hs & _ & Hnone).
  apply newGRPC_frame in Hnew as (_ & Haud & Hstore & _). specialize (Hnone eq_refl). split_and!.
  - intros ping sync. unfold dp_readiness. rewrite Hs, Hsy. cbn [with_delegation gs_store]. by rewrite Hstore.
  - by rewrite Hs.
  - exists m'. split; [by rewrite Hs|]. intros es s loader env ctx corr req Hes Hd Hgrant.
    by eapply CheckAccess_unready; [exact Hd|rewrite Hnone; by apply unready_without_snapshot|reflexivity|].
Qed.

(** What an edge node restored is in its store, and nothing publishes again what its collector took: the node has no syncer, and
    [main] sets no lazy loader in this mode.  However long it runs, a tenant that was idle once is denied for ever. *)
Theorem edge_node_forgets_idle_tenants (p : DecisionPoint) (tid : string) (t : TrieRoot) : is_edge cfg = true -> start_pdp w cfg = Ok p ->
  let e := gs_engine (dp_server p) in
  gc_state e !! tid = Some t ->
  dp_syncer p = None
  /\ (exists badger, w_badger w = Some badger /\ is_Some (badger !! tid) /\ restore_one (w_seed w) badger tid = Ok t)
  /\ forall (now : Z) (evs : list CacheEvent) (c : Cache), is_idle now e tid ->
       run_cache (with_collector (with_engine_of (NewCache (gc_config (cfg_Engine cfg))) (runGCCycle now e)) GcWaiting) evs = Some c ->
       Forall (publishes_nothing tid) evs ->
       forall (now' : Z) (subject action resource : string) (ctx : gmap string string),
       (gc_CheckPermission None now' false false (ch_engine c) tid subject action resource ctx).2 = deny ReasonGCTenantMissing.
Proof.
  intros Hedge Hstart e Ht. apply start_pdp_ok in Hstart as (eng & db & audit & store & Hst & _ & Hg & _ & _ & Hsy).
  apply StartGRPC_ok in Hg as (_ & s0 & m & m' & Hnew & _ & Hs & _ & _). apply newGRPC_frame in Hnew as (Heng & _ & _ & _).
  assert (e = eng) as -> by (unfold e; by rewrite Hs). clear Hs Heng. pose proof (start_storage_edge _ _ _ Hedge Hst) as [-> ->].
  split_and!; [done| |].
  - unfold start_storage in Hst. rewrite Hedge in Hst. destruct (w_badger w) as [badger|]; [|done].
    destruct (RestoreEdgeSnapshots _ _ _ _) as [e'|] eqn:E; [|done]. injection Hst as ->.
    apply restore_spec in E as (_ & _ & Hin). exists badger. split; [done|]. by apply Hin.
  - intros now evs c Hi Hr Hq now' subject action resource ctx. eapply absent_run in Hr; [|exact Hq|].
    + unfold loaded in Hr. unfold gc_CheckPermission, gc_GetTenantTrie. by destruct (gc_state (ch_engine c) !! tid) eqn:E; [destruct Hr; eexists|].
    + unfold loaded. cbn. intros [t' Ht']. by apply gc_cycle_unloads_idle in Ht' as [_ ?].
Qed.

(** *** A loaded configuration starts *)

Lemma load_security_rings env sec : load_security env = Ok sec ->
  is_Some (DelegationKeys sec !! DelegationActiveKeyID sec)
  /\ is_Some (ApprovalKeys sec !! ApprovalActiveKeyID sec) /\ map_Forall approval_entry_ok (ApprovalKeys sec)
  /\ is_Some (AuditKeys sec !! AuditActiveKeyID sec) /\ map_Forall (fun k v => k <> ""%string /\ go_len v = 32) (AuditKeys sec).
Proof.
  unfold load_security. cbv zeta. intros Hl.
  destruct (loadDelegationKeyring _ _) as [[[dk dks] de]|] eqn:Ed; [|done]. cbn [rbind] in Hl.
  destruct (loadApprovalKeyring _) as [[[ak aks] ae]|] eqn:Ea; [|done]. cbn [rbind] in Hl.
  destruct (env_duration _ _ _); [|done]. cbn [rbind] in Hl. case_match; [done|].
  destruct (loadAuditKeyring _) as [[[uk uks] ue]|] eqn:Eu; [|done]. cbn [rbind] in Hl. injection Hl as <-.
  cbn [DelegationKeys DelegationActiveKeyID ApprovalKeys ApprovalActiveKeyID AuditKeys AuditActiveKeyID].
  assert (is_Some (dks !! dk)) as Hd.
  { unfold loadDelegationKeyring in Ed. repeat case_match; inv_result; bool_to_prop; try done; rewrite lookup_insert_eq; by eexists. }
  assert (is_Some (aks !! ak) /\ map_Forall approval_entry_ok aks) as [Ha1 Ha2].
  { unfold loadApprovalKeyring in Ea. repeat case_match; inv_result; try (by eapply approval_ring_ok); simplify_eq;
      (split; [rewrite lookup_insert_eq; by eexists|]; apply map_Forall_singleton; by vm_compute). }
  assert (is_Some (uks !! uk) /\ map_Forall (fun k v => k <> ""%string /\ go_len v = 32) uks) as [Hu1 Hu2].
  { unfold loadAuditKeyring in Eu. repeat case_match; inv_result; bool_to_prop;
      try (match goal with E : validateAuditKeyring _ _ = Ok _ |- _ => apply audit_ring_ok in E as [? Hall] end;
           split; [done|]; intros k v Hk; destruct (Hall k v Hk); split; [by apply not_blank_nonempty|done]);
      (split; [rewrite lookup_singleton_eq; by eexists|]; by apply map_Forall_singleton). }
  done.
Qed.

(** The names of the keys of the two signing rings, which the loader leaves to the managers. *)
Definition ring_names_ok (sec : SecurityConfig) : Prop :=
  map_Forall ring_entry_ok (DelegationKeys sec) /\ map_Forall (fun k _ => approvalKeyIDPattern k = true) (ApprovalKeys sec).

(** Everything the node asks for is there, and the revocations are read in time. *)
Definition healthy : Prop :=
  is_Some (w_db w) /\ w_archive_client w = true /\ w_spill_made w = true /\ w_listen w (listener_of (cfg_Server cfg)) = true
  /\ w_tls w = true /\ w_health_port w (HTTPPort (cfg_Server cfg)) = true
  /\ (ERPRevocationURL (cfg_Database cfg) = ""%string \/ is_Some (w_erp w (ERPRevocationURL (cfg_Database cfg))))
  /\ exists now rs, w_watch w = ([SnapshotDelivered now rs], true).

Lemma trimmed_not_blank s t : s = trim_space t -> s <> ""%string -> Config.blank s = false.
Proof. intros -> Hs. apply bool_decide_eq_false. by apply trim_space_not_blank. Qed.

Lemma archive_config_ok env : load_audit env = Ok (cfg_Audit cfg) -> ArchiveBucket (cfg_Audit cfg) <> ""%string ->
  validateS3ArchiveConfig (archive_config (cfg_Audit cfg)) = Ok tt.
Proof.
  intros Hl Hb. pose proof (load_audit_trimmed _ _ Hl) as ((b & Eb) & (pr & Ep) & (r & Er) & (o & Eo)).
  apply load_audit_ok in Hl as (_ & _ & _ & _ & _ & Hv). unfold validateAuditArchiveConfig in Hv.
  rewrite bool_decide_false in Hv by done. inv_result. bool_to_prop.
  assert (Config.blank (ArchiveBucket (cfg_Audit cfg)) = false) as Hn1 by by eapply trimmed_not_blank.
  assert (Config.blank (ArchivePrefix (cfg_Audit cfg)) = false) as Hn2 by by eapply trimmed_not_blank.
  assert (Config.blank (ArchiveRegion (cfg_Audit cfg)) = false) as Hn3 by by eapply trimmed_not_blank.
  assert (Config.blank (ArchiveExpectedBucketOwner (cfg_Audit cfg)) = false) as Hn4.
  { eapply trimmed_not_blank; [exact Eo|]. intros Eow.
    match goal with E : go_len (ArchiveExpectedBucketOwner _) = 12 |- _ => by rewrite Eow in E end. }
  unfold validateS3ArchiveConfig, archive_config. cbn [s3_Bucket s3_Prefix s3_Region s3_ExpectedBucketOwner].
  rewrite Hn1, Hn2, Hn3, Hn4. cbn [orb].
  repeat match goal with E : trim_slashes _ = _ |- _ => rewrite (bool_decide_true _ E); clear E
    | E : contains _ _ = false |- _ => rewrite E; clear E
    | E : go_len _ = 12 |- _ => rewrite E; clear E
    | E : forallb _ _ = true |- _ => rewrite E; clear E end.
  done.
Qed.

Lemma start_audit_total env : load_audit env = Ok (cfg_Audit cfg) -> load_security env = Ok (cfg_Security cfg) ->
  w_archive_client w = true -> w_spill_made w = true -> Config.blank (SpillDir (cfg_Audit cfg)) = false ->
  is_ok (start_audit w cfg) = true.
Proof.
  intros Ha Hs Hc Hm Hdir. pose proof (load_security_rings _ _ Hs) as (_ & _ & _ & [u Hu] & Hall). unfold start_audit. cbv zeta.
  unfold NewEnvelopeCryptoWithKeyring. rewrite (bool_decide_false (AuditActiveKeyID _ = _)) by (by apply (Hall _ u)).
  rewrite Hu, (bool_decide_true (is_Some _)) by by eexists. rewrite (bool_decide_true (map_Forall kek_ok _)) by done. cbn [negb rbind].
  assert (exists archive, (if bool_decide (ArchiveBucket (cfg_Audit cfg) = ""%string) then Ok None
    else match NewS3ArchiveSink (w_archive_client w) (archive_config (cfg_Audit cfg)) with
         | Ok c => Ok (Some c) | Err e => Err (AuditArchive e) end) = Ok archive) as [archive ->].
  { case_bool_decide as Hb; [by eexists|]. unfold NewS3ArchiveSink, newS3ArchiveSink. rewrite (archive_config_ok env Ha Hb), Hc. by eexists. }
  cbn [rbind]. apply load_audit_ok in Ha as ((Hb1 & Hb2) & _ & Hf & Hw & Hmax & _). unfold NewBatchAuditLogger, batch_config.
  cbn [bc_QueueCapacity bc_BatchSize bc_FlushInterval bc_WriteTimeout bc_SpillDir bc_SpillMaxBytes].
  rewrite !(proj2 (Z.leb_gt _ _)), (proj2 (Z.ltb_ge _ _)) by lia. cbn [orb rbind].
  rewrite (bool_decide_false (SpillDir _ = _)) by by apply not_blank_nonempty. unfold NewSpillStore.
  rewrite Hdir, (proj2 (Z.leb_gt _ _)), Hm by lia. done.
Qed.

Lemma StartGRPC_total {DB : Type} tls now rs eng logger (store : option DB) :
  tls = true -> is_ok (newGRPCServerWithSecurity eng logger (cfg_Security cfg) store) = true -> is_Some store ->
  exists s t m, StartGRPCServerWithRevocations tls ([SnapshotDelivered now rs], true) eng logger (cfg_Security cfg) store = Ok (s, t)
  /\ gs_delegation s = Some m /\ RevocationReady m = true /\ gs_store s = store.
Proof.
  intros -> Hok [db ->]. unfold StartGRPCServerWithRevocations.
  destruct (newGRPCServerWithSecurity eng logger (cfg_Security cfg) (Some db)) as [s0|] eqn:E; [|done].
  apply newGRPC_frame in E as (_ & _ & Hst & m & Hm).
  exists (with_delegation s0 (Some (on_snapshot now (SetRevocationReady m false) rs))), (transport_of (cfg_Security cfg)).
  exists (on_snapshot now (SetRevocationReady m false) rs). split_and!; try done.
  destruct (transport_of (cfg_Security cfg)); cbn [negb rbind]; rewrite Hm; done.
Qed.

(** On a healthy world every configuration that loads, outside the edge mode and with key names the managers take, starts: the
    checks of the loader leave nothing for the components to reject, the archive settings and the key material included, and the
    node then has its database, its audit logger and a list of revocations that is ready. *)
Theorem loaded_configuration_starts `{LowerTable} `{Config.RangeOrder} (env : Environment) :
  Load env = Ok cfg -> is_edge cfg = false -> ring_names_ok (cfg_Security cfg) -> Config.blank (SpillDir (cfg_Audit cfg)) = false ->
  healthy ->
  exists p m, start_pdp w cfg = Ok p /\ is_Some (gs_store (dp_server p)) /\ is_Some (dp_audit p) /\ gs_audit (dp_server p) = Some []
  /\ gs_delegation (dp_server p) = Some m /\ RevocationReady m = true.
Proof.
  intros Hload Hcloud [Hring Hnames] Hdir ([db Hdb] & Hcl & Hsp & Hli & Htls & Hport & Hurl & now & rs & Hwatch).
  apply load_ok in Hload as (_ & _ & Hau & Hsec & _).
  pose proof (start_audit_total env Hau Hsec Hcl Hsp Hdir) as Haudit. destruct (start_audit w cfg) as [audit|] eqn:Ea; [|done].
  pose proof (load_security_rings _ _ Hsec) as ([d Hd] & Ha & Happ & _). apply load_security_ok in Hsec.
  assert (exists store, start_fence w cfg (Some db) = Ok (Some store)) as [store Hf].
  { unfold start_fence. case_bool_decide; [by eexists|]. destruct Hurl as [?|[erp ->]]; [done|by eexists]. }
  assert (is_ok (newGRPCServerWithSecurity (NewEngineWithGC (gc_config (cfg_Engine cfg))) (Some []) (cfg_Security cfg) (Some store)) = true) as Hnew.
  { apply newGRPC_total; try done.
    - exact (proj1 (Hring _ _ Hd)).
    - destruct Ha as [a Ha]. exact (Hnames _ _ Ha).
    - intros k v Hk. split; [exact (Hnames _ _ Hk)|exact (proj2 (Happ _ _ Hk))]. }
  destruct (StartGRPC_total (w_tls w) now rs (NewEngineWithGC (gc_config (cfg_Engine cfg))) (Some []) (Some store) Htls Hnew ltac:(by eexists))
    as (s & t & m & Hgrpc & Hm & Hready & Hstore).
  assert (gs_audit s = Some []) as Hlog.
  { apply StartGRPC_ok in Hgrpc as (_ & s0 & m0 & m1 & Hs0 & _ & -> & _). by apply newGRPC_frame in Hs0 as (_ & ? & _). }
  eexists _, m. split.
  { unfold start_pdp, start_storage. rewrite Hcloud, Hdb, Ea. cbn [rbind]. rewrite Hli. cbn [negb]. rewrite Hf. cbn [rbind fmap option_fmap option_map].
    rewrite Hwatch, Hgrpc. cbn [rbind]. rewrite Hport. cbn [negb]. reflexivity. }
  cbn [dp_server dp_audit]. rewrite Hstore, Hlog. split_and!; try done; by eexists.
Qed.
End Start.

(** ** Starting on concrete worlds

    A production environment with everything in place, the same in edge mode,
    and the theorems of the startup at them. *)

Section Samples.
#[local] Instance key_order : Config.RangeOrder := fun m => (map_to_list m).*2.
#[local] Instance ascii_lower : LowerTable := fun r => r.
#[local] Existing Instance ascii_table.
#[local] Existing Instance sorted_range.
#[local] Instance one_token : JwtLibrary := fun _ raw _ _ =>
  if bool_decide (raw = "alice-token"%string)
  then Some (Some {["tenant_id"%string := ClaimString "t"; "sub"%string := ClaimString "user:alice"]}, true)
  else None.

Definition empty_database : Database := mkDatabase ∅ ∅ ∅ ∅ ∅ [] [].
Definition edge_snapshots : BadgerStore :=
  {["t"%string := Some (mkSnapshot 1 "t" [mkSnapPolicy "p" "permit(principal == any, action == any, resource == any);"] [] 5 9)]}.
Definition sample_world : World :=
  mkWorld 0 7 (Some edge_snapshots) (Some empty_database) true true (fun _ => true) (fun _ => None) true
    ([SnapshotDelivered 5 []], true) (fun _ => true).

(** The variables of [ConfigFacts.sample_env], in the two modes. *)
Definition edge_env : Environment := <["STORAGE_MODE"%string := "edge"%string]> sample_env.
Definition cloud_config : Config := loaded sample_env.
Definition edge_config : Config := loaded edge_env.

Lemma cloud_loads : Load sample_env = Ok cloud_config.
Proof. apply Load_loaded. by vm_compute. Qed.
Lemma edge_loads : Load edge_env = Ok edge_config.
Proof. apply Load_loaded. by vm_compute. Qed.
Lemma cloud_is_production : equal_fold (AppEnv cloud_config) "production" = true.
Proof. by vm_compute. Qed.

Lemma cloud_names_ok : ring_names_ok (cfg_Security cloud_config).
Proof. split; apply (bool_decide_unpack _); vm_compute; exact I. Qed.
Lemma sample_world_healthy : healthy sample_world cloud_config.
Proof.
  split; [by eexists|]. do 5 (split; [done|]). split; [left; by vm_compute|by eexists _, _].
Qed.

Lemma loaded_configuration_starts_witness : exists p m, start_pdp sample_world cloud_config = Ok p
  /\ gs_delegation (dp_server p) = Some m /\ RevocationReady m = true.
Proof.
  destruct (loaded_configuration_starts sample_world cloud_config sample_env cloud_loads ltac:(by vm_compute) cloud_names_ok
              ltac:(by vm_compute) sample_world_healthy) as (p & m & Hp & _ & _ & _ & Hm & Hr).
  exists p, m. split; [exact Hp|]. split; [exact Hm|exact Hr].
Defined.

(** A watch that is lost and found again, and the stop. *)
Definition flapping : list SyncerEvent := [SnapshotDelivered 5 []; WatchReturned false; ReconnectTimer; SnapshotDelivered 6 []; WatchReturned true].
Definition flapped : RevocationSyncer :=
  default (syncer_start (NewDelegationManager "")) (run_syncer (syncer_start (NewDelegationManager "")) flapping).
Lemma syncer_reports_once_witness : length (rs_ready flapped) = 1%nat /\ RevocationReady (rs_manager flapped) = false.
Proof.
  destruct (syncer_reports_once (NewDelegationManager "") flapping flapped ltac:(by vm_compute)) as (_ & H & _).
  apply H. reflexivity.
Defined.

Definition started (r : result StartupError DecisionPoint) : DecisionPoint :=
  match r with
  | Ok p => p
  | Err _ => mkDecisionPoint (mkServer (NewEngineWithGC (mkGCConfig false 0 0 0)) None None None None None) Insecure (OnTCP 0) None None
  end.
Lemma started_ok r : is_ok r = true -> r = Ok (started r).
Proof. by destruct r. Qed.

Definition cloud_node : DecisionPoint := started (start_pdp sample_world cloud_config).
Lemma cloud_starts : start_pdp sample_world cloud_config = Ok cloud_node.
Proof. apply started_ok. by vm_compute. Qed.

Lemma production_node_uses_its_configuration_witness : dp_transport cloud_node = MutualTLS
  /\ exists l, dp_audit cloud_node = Some (l, Some (archive_config (cfg_Audit cloud_config))).
Proof.
  destruct (production_node_uses_its_configuration sample_world cloud_config sample_env cloud_node (fun m => reflexivity _)
              cloud_loads cloud_is_production cloud_starts) as (Ht & _ & _ & _ & _ & Ha).
  split; [exact Ht|]. destruct (Ha ltac:(by vm_compute)) as (l & Hl & _). exists l. exact Hl.
Defined.

Definition edge_node : DecisionPoint := started (start_pdp sample_world edge_config).
Lemma edge_starts : start_pdp sample_world edge_config = Ok edge_node.
Proof. apply started_ok. by vm_compute. Qed.

Definition delegated_request : CheckAccessRequest :=
  mkCheckAccess "t" "" "action:READ" "doc:1" {["delegation_grant_id"%string := "g1"%string]}.
Definition quiet_call : CallEnv (TxOutcome * TxOutcome) :=
  mkEnv _ 1 1 1 1 0 false false None (TxCommitted, TxCommitted) (fun e => e) None.
Lemma edge_node_refuses_delegation_witness : exists c,
  (CheckAccess None quiet_call (dp_server edge_node)
     (Some {["authorization"%string := ["Bearer alice-token"%string]]}) None delegated_request).2 = Err c.
Proof.
  destruct (edge_node_refuses_delegation sample_world edge_config edge_node ltac:(by vm_compute) edge_starts) as (_ & _ & m & Hm & H).
  apply (H []); [constructor|exact Hm|by vm_compute].
Defined.

(** A week without a request. *)
Lemma edge_node_forgets_idle_tenants_witness :
  let c := with_collector (with_engine_of (NewCache (gc_config (cfg_Engine edge_config)))
             (runGCCycle (7 * 24 * hour_ns) (gs_engine (dp_server edge_node)))) GcWaiting in
  (gc_CheckPermission None 8 false false (ch_engine c) "t" "user:alice" "action:READ" "doc:1" ∅).2 = deny ReasonGCTenantMissing.
Proof.
  assert (is_Some (gc_state (gs_engine (dp_server edge_node)) !! "t"%string)) as [t Ht] by (apply (bool_decide_unpack _); by vm_compute).
  destruct (edge_node_forgets_idle_tenants sample_world edge_config edge_node "t" t ltac:(by vm_compute) edge_starts Ht) as (_ & _ & H).
  apply (H (7 * 24 * hour_ns) []); [|reflexivity|constructor].
  exists (mkAccess 7 1). split; [by vm_compute|by vm_compute].
Defined.

(** Production requires an archive of the audit records; in edge mode the same configuration starts a node that keeps none. *)
Theorem production_edge_node_keeps_no_audit :
  pdp_main sample_world edge_env = Ok edge_node /\ equal_fold (AppEnv edge_config) "production" = true
  /\ ArchiveBucket (cfg_Audit edge_config) = "bucket"%string /\ dp_audit edge_node = None /\ gs_audit (dp_server edge_node) = None.
Proof. unfold pdp_main. rewrite edge_loads, edge_starts. by vm_compute. Qed.

(** A request without a grant is decided, and leaves no record. *)
Lemma edge_decides : (CheckAccess None quiet_call (dp_server edge_node)
    (Some {["authorization"%string := ["Bearer alice-token"%string]]}) None
    (mkCheckAccess "t" "" "action:READ" "doc:1" ∅)).2
  = Ok (mkCheckAccessResponse Decision.DecisionAllow "p" []
      {["erp.revocation_fence"%string := ""%string; "erp.policy_revision"%string := "5"%string]}).
Proof. vm_compute. reflexivity. Qed.
End Samples.
