(* ===== verification/Shutdown.v ===== *)
(** * Stopping the decision point ([cmd/pdp-server/main.go])

    What [main] does once it has the signal, next to the calls, the worker of
    the audit logger, the revocation syncer and the policy syncer that are
    still at work: it closes the health server, lets the calls end, stops the
    logger, cancels the context of the server and waits for the two syncers.
    A step is one action of [main] or of one of the others; [main] waits where
    the code waits. *)

From S2P Require Import Prelude GoStr GoCrypto Delegation Revocation RevocationSync Ast Dag ParserFacts Trie Engine Sync Storage.
From S2P Require Import Badger AuditCrypto AuditRecord AuditRecordFacts Spill AuditQueue AuditQueueFacts AuditWriters AuditSamples SyncWorkers SyncWorkersFacts.
From S2P Require Import ServerSamples SyncWorkersSamples.
From stdpp Require Import options.
Local Open Scope Z_scope.

(** Where [main] is: before the signal, in [Shutdown] of the health server, in
    [GracefulStop], in the three [Stop]s, at its end. *)
Inductive Phase := Serving | HealthClosing | CallsEnding | AuditStopping | RevocationsStopping | SyncerStopping | Exited.

(** [stopServer] has been called. *)
Definition server_canceled (ph : Phase) : bool := match ph with RevocationsStopping | SyncerStopping | Exited => true | _ => false end.
Definition audit_stopped (ph : Phase) : bool := match ph with AuditStopping => true | _ => server_canceled ph end.

(** The process; a node in edge mode has none of the three components.  [pr_lost] are the records that were given up. *)
Record Process (W : Type) := mkProcess {
  pr_phase : Phase;
  pr_calls : nat;
  pr_logger : option (AuditLogger W);
  pr_lost : list LogEntry;
  pr_revocations : option RevocationSyncer;
  pr_node : option Node
}.
Arguments mkProcess {W}.
Arguments pr_phase {W}.
Arguments pr_calls {W}.
Arguments pr_logger {W}.
Arguments pr_lost {W}.
Arguments pr_revocations {W}.
Arguments pr_node {W}.

(** The context of the syncer's goroutines is done. *)
Definition cancel_node (n : Node) : Node :=
  mkNode (nd_db n) (nd_syncer n) (nd_canceled n || nd_started n) (nd_started n) (nd_stopped n) (nd_workers n) (nd_loads n) (nd_tried n).

(** What [Stop] of each component waits for. *)
Definition audit_returned {W} (l : option (AuditLogger W)) : bool :=
  match l with None => true | Some l => match al_worker l with WorkerRunning => false | _ => true end end.
Definition revocations_returned (s : option RevocationSyncer) : bool :=
  match s with None => true | Some s => match rs_worker s with Finished => true | _ => false end end.
Definition syncer_returned (n : option Node) : bool := match n with None => true | Some n => stop_returns n end.

Section Process.
Context {W Out : Type} `{BatchWriter W Out} (cfg : LoggerConfig).
Context `{UnicodeTable} `{Dag.RangeOrder} `{RowOrder}.
Implicit Types p : Process W.

Definition with_phase p (ph : Phase) : Process W := mkProcess ph (pr_calls p) (pr_logger p) (pr_lost p) (pr_revocations p) (pr_node p).
Definition with_calls p (k : nat) : Process W := mkProcess (pr_phase p) k (pr_logger p) (pr_lost p) (pr_revocations p) (pr_node p).
Definition with_list_of p (s : RevocationSyncer) : Process W :=
  mkProcess (pr_phase p) (pr_calls p) (pr_logger p) (pr_lost p) (Some s) (pr_node p).
Definition with_node p (n : option Node) : Process W :=
  mkProcess (pr_phase p) (pr_calls p) (pr_logger p) (pr_lost p) (pr_revocations p) n.
(** A step of the logger, when there is one. *)
Definition log_step p (ev : LoggerEvent (Out := Out)) : Process W :=
  match pr_logger p with
  | None => p
  | Some l => mkProcess (pr_phase p) (pr_calls p) (Some (logger_step cfg l ev).1) (pr_lost p ++ (logger_step cfg l ev).2)
                (pr_revocations p) (pr_node p)
  end.

Inductive ProcessEvent :=
| PrSignal
| PrHealthClosed
| PrCallBegins
| PrCallLogs (uuid : option string) (rnd : CryptoRandom) (env : SpillEnv) (d : AuditDecision)
| PrCallEnds
| PrCallsEnded
| PrLogger (ev : LoggerEvent (Out := Out))
| PrAuditStopped
| PrRevocations (ev : SyncerEvent)
| PrRevocationsStopped
| PrSyncer (ev : NodeEvent)
| PrSyncerStopped
| PrDatabase (db : Database).

(** The steps of the logger's worker, while it runs. *)
Definition worker_takes (l : AuditLogger W) (ev : LoggerEvent (Out := Out)) : bool :=
  match al_worker l, ev with
  | WorkerRunning, (EvReceive _ | EvTick _ _) => true
  | WorkerRunning, EvDrain _ => al_canceled l
  | _, _ => false
  end.
(** The steps of the list of revocations: what the worker sees of its context, and the calls that use the list. *)
Definition list_takes p (ev : SyncerEvent) : bool :=
  match ev with
  | WatchReturned c => Bool.eqb c (server_canceled (pr_phase p))
  | CanceledWaiting => server_canceled (pr_phase p)
  | CallRevoke _ _ _ _ | CallIsRevoked _ _ _ => (0 <? pr_calls p)%nat
  | _ => true
  end.
(** [Start] and [Stop] are [main]'s; a tenant is loaded on demand by a call. *)
Definition node_takes p (ev : NodeEvent) : bool :=
  match ev with SyncWorkers.EvStart | SyncWorkers.EvStop => false | EvDemand _ _ _ => (0 <? pr_calls p)%nat | _ => true end.

(** [None] for an event that cannot happen in the state. *)
Definition process_event p (ev : ProcessEvent) : option (Process W) :=
  match ev with
  | PrSignal => match pr_phase p with Serving => Some (with_phase p HealthClosing) | _ => None end
  | PrHealthClosed => match pr_phase p with HealthClosing => Some (with_phase p CallsEnding) | _ => None end
  | PrCallBegins => match pr_phase p with Serving | HealthClosing => Some (with_calls p (S (pr_calls p))) | _ => None end
  | PrCallLogs uuid rnd env d => if (0 <? pr_calls p)%nat then Some (log_step p (EvLog uuid rnd env d)) else None
  | PrCallEnds => match pr_calls p with S k => Some (with_calls p k) | O => None end
  | PrCallsEnded =>
      match pr_phase p, pr_calls p with
      | CallsEnding, O => Some (log_step (with_phase p AuditStopping) AuditQueue.EvStop)
      | _, _ => None
      end
  | PrLogger ev =>
      match pr_logger p with
      | Some l => if worker_takes l ev then Some (log_step p ev) else None
      | None => None
      end
  | PrAuditStopped =>
      match pr_phase p with
      | AuditStopping =>
          if audit_returned (pr_logger p)
          then Some (with_node (log_step (with_phase p RevocationsStopping) EvCancelParent) (cancel_node <$> pr_node p))
          else None
      | _ => None
      end
  | PrRevocations ev =>
      match pr_revocations p with
      | Some s => if list_takes p ev then with_list_of p <$> syncer_event s ev else None
      | None => None
      end
  | PrRevocationsStopped =>
      match pr_phase p with
      | RevocationsStopping =>
          if revocations_returned (pr_revocations p) then Some (with_node (with_phase p SyncerStopping) (SyncWorkers.Stop <$> pr_node p)) else None
      | _ => None
      end
  | PrSyncer ev =>
      match pr_node p with
      | Some n => if node_takes p ev then (fun n' => with_node p (Some n')) <$> node_event n ev else None
      | None => None
      end
  | PrSyncerStopped =>
      match pr_phase p with
      | SyncerStopping => if syncer_returned (pr_node p) then Some (with_phase p Exited) else None
      | _ => None
      end
  | PrDatabase db => Some (with_node p ((fun n => set_db n db) <$> pr_node p))
  end.

Fixpoint run_process p (evs : list ProcessEvent) : option (Process W) :=
  match evs with
  | [] => Some p
  | ev :: evs' => p' ← process_event p ev; run_process p' evs'
  end.

(** What an event is to the logger. *)
Definition logger_event (ev : ProcessEvent) : list (LoggerEvent (Out := Out)) :=
  match ev with
  | PrCallLogs uuid rnd env d => [EvLog uuid rnd env d]
  | PrCallsEnded => [AuditQueue.EvStop]
  | PrLogger ev => [ev]
  | PrAuditStopped => [EvCancelParent]
  | _ => []
  end.
Definition logger_events (evs : list ProcessEvent) : list (LoggerEvent (Out := Out)) := evs ≫= logger_event.

(** ** Theorems *)

(** A process that serves: its logger's worker and its goroutines have been started. *)
Record serving p : Prop := {
  sv_phase : pr_phase p = Serving;
  sv_logger : forall l, pr_logger p = Some l -> al_worker l = WorkerRunning /\ al_stopped l = false /\ al_canceled l = false;
  sv_list : forall s, pr_revocations p = Some s -> syncer_inv s;
  sv_node : forall n, pr_node p = Some n -> nd_started n = true /\ nd_stopped n = false
}.

(** What the phase says of the components. *)
Record process_inv p : Prop := {
  pv_calls : audit_stopped (pr_phase p) = true -> pr_calls p = 0%nat;
  pv_logger : forall l, pr_logger p = Some l -> al_worker l <> WorkerNotStarted /\ al_stopped l = audit_stopped (pr_phase p)
    /\ al_canceled l = al_stopped l /\ (al_worker l = WorkerDone -> quiet l);
  pv_audit : server_canceled (pr_phase p) = true -> audit_returned (pr_logger p) = true;
  pv_list : forall s, pr_revocations p = Some s -> syncer_inv s;
  pv_list_done : match pr_phase p with SyncerStopping | Exited => revocations_returned (pr_revocations p) = true | _ => True end;
  pv_node : forall n, pr_node p = Some n -> nd_started n = true
    /\ (server_canceled (pr_phase p) = true -> nd_canceled n = true);
  pv_node_done : pr_phase p = Exited -> syncer_returned (pr_node p) = true
}.

Lemma serving_inv p : serving p -> process_inv p.
Proof.
  intros [Hph Hl Hs Hn]. constructor; rewrite ?Hph; try done.
  - intros l E. destruct (Hl l E) as (-> & -> & ->). by split_and!.
  - intros n E. by destruct (Hn n E).
Qed.

(** What the steps of the logger leave alone: its worker and its flags. *)
Lemma replay_control (env : ReplayEnv Out) (l : AuditLogger W) : same_control l (replay cfg env l).
Proof. unfold replay. repeat case_match; done. Qed.
Lemma spill_control (env : SpillEnv) (l : AuditLogger W) es : same_control l (spillOrDrop cfg env l es).1.
Proof. unfold spillOrDrop. repeat case_match; done. Qed.
Lemma same_control_trans (l1 l2 l3 : AuditLogger W) : same_control l1 l2 -> same_control l2 l3 -> same_control l1 l3.
Proof. unfold same_control. intuition congruence. Qed.
Lemma flush_control (env : FlushEnv (Out := Out)) (l : AuditLogger W) : same_control l (flush cfg env l).1.
Proof.
  unfold flush. destruct (al_batch l) as [|e batch]; [done|]. destruct (insert_batch _ _ _) as [w []]; cbn.
  - match goal with |- same_control _ (with_batch (replay _ ?env ?l0) []) => exact (replay_control env l0) end.
  - match goal with |- context [spillOrDrop cfg ?env ?l0 ?es] => pose proof (spill_control env l0 es) as Hc end.
    by destruct (spillOrDrop _ _ _ _).
Qed.
Lemma receive_control (env : FlushEnv (Out := Out)) (l : AuditLogger W) : same_control l (receive cfg env l).1.
Proof.
  unfold receive. destruct (al_queue l) as [|e queue]; [done|]. case_match; [|done].
  eapply same_control_trans; [|apply flush_control]. done.
Qed.
Lemma drain_control fuel : forall (env : nat -> FlushEnv (Out := Out)) (l : AuditLogger W), same_control l (drain cfg fuel env l).1.
Proof.
  induction fuel as [|fuel IH]; intros env l; cbn [drain]; [apply flush_control|]. destruct (al_queue l) as [|e queue]; [apply flush_control|].
  pose proof (receive_control (env (S fuel)) l) as Hr. destruct (receive _ _ _) as [l1 lost1].
  pose proof (IH env l1) as Hd. destruct (drain _ _ _ _) as [l2 lost2]. by eapply same_control_trans.
Qed.

(** A drain leaves nothing behind. *)
Lemma flush_empties (env : FlushEnv (Out := Out)) (l : AuditLogger W) :
  al_batch (flush cfg env l).1 = [] /\ al_queue (flush cfg env l).1 = al_queue l.
Proof.
  unfold flush. destruct (al_batch l) as [|e batch] eqn:Eb; [done|]. destruct (insert_batch _ _ _) as [w []]; cbn.
  - split; [done|]. unfold replay. by repeat case_match.
  - match goal with |- context [spillOrDrop cfg ?env ?l0 ?es] => assert (al_queue (spillOrDrop cfg env l0 es).1 = al_queue l) as Hq end.
    { unfold spillOrDrop. by repeat case_match. }
    by destruct (spillOrDrop _ _ _ _).
Qed.
Lemma drain_empties fuel : forall (env : nat -> FlushEnv (Out := Out)) (l : AuditLogger W), (length (al_queue l) <= fuel)%nat ->
  al_queue (drain cfg fuel env l).1 = [] /\ al_batch (drain cfg fuel env l).1 = [].
Proof.
  induction fuel as [|fuel IH]; intros env l Hf; cbn [drain].
  { destruct (flush_empties (env 0%nat) l) as [-> ->]. by destruct (al_queue l); [|cbn in Hf; lia]. }
  destruct (al_queue l) as [|e queue] eqn:Eq; [destruct (flush_empties (env (S fuel)) l) as [-> ->]; by rewrite Eq|].
  assert (al_queue (receive cfg (env (S fuel)) l).1 = queue) as Hq.
  { unfold receive. rewrite Eq. case_match; [|done]. by rewrite (proj2 (flush_empties _ _)). }
  destruct (receive _ _ _) as [l1 lost1]. pose proof (IH env l1) as Hd. destruct (drain _ _ _ _) as [l2 lost2]. cbn in *.
  apply Hd. rewrite Hq. lia.
Qed.

Definition is_drain (ev : LoggerEvent (Out := Out)) : bool := match ev with EvDrain _ => true | _ => false end.
(** The steps the calls and the worker take. *)
Lemma logger_step_control (l : AuditLogger W) (ev : LoggerEvent (Out := Out)) :
  match ev with EvLog _ _ _ _ => True | _ => worker_takes l ev = true end ->
  let l' := (logger_step cfg l ev).1 in
  al_stopped l' = al_stopped l /\ al_canceled l' = al_canceled l
  /\ al_worker l' = if is_drain ev then WorkerDone else al_worker l.
Proof.
  unfold worker_takes. destruct ev as [uuid rnd env d|env|env|renv env| | |env]; cbn [logger_step is_drain]; intros Hev.
  1:{ assert (same_control l (Log cfg uuid rnd env l d).1) as (? & ? & ?); [|by split_and!].
      unfold Log. destruct (sealAuditEntry _ _ _ _) as [e|]; [|done]. unfold enqueue. destruct (al_stopped l) eqn:Es; [by split_and!|].
      destruct (_ <? _)%nat; [by split_and!|apply spill_control]. }
  all: destruct (al_worker l) eqn:Ew; try done.
  - by destruct (receive_control env l) as (? & ? & ?); split_and!; rewrite <- ?Ew.
  - destruct (same_control_trans _ _ _ (replay_control renv l) (flush_control env (replay cfg renv l))) as (? & ? & ?).
    by split_and!; rewrite <- ?Ew.
  - rewrite Hev. pose proof (drain_control (length (al_queue l)) env l) as (? & ? & ?).
    destruct (drain _ _ _ _) as [l1 lost]. cbn in *. by split_and!; rewrite <- ?Hev.
Qed.

Lemma log_step_frame p ev : let p' := log_step p ev in
  pr_phase p' = pr_phase p /\ pr_calls p' = pr_calls p /\ pr_revocations p' = pr_revocations p /\ pr_node p' = pr_node p
  /\ pr_logger p' = (fun l => (logger_step cfg l ev).1) <$> pr_logger p.
Proof. unfold log_step. destruct (pr_logger p) eqn:E; cbn; rewrite ?E; by split_and!. Qed.

(** A step that is the logger's only. *)
Lemma log_inv p ev : process_inv p ->
  (forall l, pr_logger p = Some l -> match ev with EvLog _ _ _ _ => True | _ => worker_takes l ev = true end) ->
  process_inv (log_step p ev).
Proof.
  intros [I1 I2 I3 I4 I5 I6 I7] Hev. pose proof (log_step_frame p ev) as (Ep & Ec & Er & En & El). cbv zeta in *.
  constructor; rewrite ?Ep, ?Ec, ?Er, ?En, ?El; try done.
  - intros l' (l & Hl & ->)%fmap_Some. destruct (logger_step_control l ev (Hev l Hl)) as (E1 & E2 & E3).
    destruct (I2 l Hl) as (J1 & J2 & J3 & J4). split_and!; [|congruence|congruence|].
    + rewrite E3. by destruct (is_drain ev).
    + intros Hw. assert (al_worker l = WorkerDone \/ al_worker l <> WorkerDone) as [Hd|Hd] by (destruct (al_worker l); auto); [by apply quiet_step, J4|].
      specialize (Hev l Hl). unfold worker_takes in Hev. rewrite E3 in Hw. destruct ev as [| | | | | |env]; try (by destruct Hd).
      destruct (al_worker l) eqn:Ew; try done. unfold quiet. rewrite E1, E3, <- J3. split; [done|]. split; [done|].
      cbn [logger_step]. rewrite Ew, Hev. pose proof (drain_empties (length (al_queue l)) env l (le_n _)) as [Hq Hb].
      by destruct (drain _ _ _ _).
  - intros Hc. specialize (I3 Hc). destruct (pr_logger p) as [l|] eqn:Hl; [|done]. cbn [fmap option_fmap option_map audit_returned] in *.
    destruct (logger_step_control l ev (Hev l eq_refl)) as (_ & _ & E3). rewrite E3. by destruct (is_drain ev).
Qed.

Lemma syncer_event_finished s ev s' : syncer_event s ev = Some s' -> rs_worker s = Finished -> rs_worker s' = Finished.
Proof. unfold syncer_event. intros Hev Hw. rewrite Hw in Hev. destruct ev; try done; by injection Hev as <-. Qed.

(** A step of the node keeps its goroutines' flags, and what has returned. *)
Lemma node_event_flags n ev n' : node_event n ev = Some n' ->
  (match ev with SyncWorkers.EvStart | SyncWorkers.EvStop => false | _ => true end) = true ->
  nd_started n' = nd_started n /\ nd_canceled n' = nd_canceled n /\ (stop_returns n = true -> stop_returns n' = true).
Proof.
  intros Hev Hok. destruct (is_worker ev) eqn:Hw.
  - split; [by eapply worker_started|]. split; [destruct ev; try done; cbn [node_event] in Hev; repeat case_match; by simplify_eq|].
    intros Hr. by rewrite (returned_no_step n ev Hr Hw) in Hev.
  - destruct ev; try done; cbn [node_event] in Hev; repeat case_match; by simplify_eq.
Qed.

Lemma process_event_inv p ev p' : process_inv p -> process_event p ev = Some p' -> process_inv p'.
Proof.
  intros Hp Hev. pose proof Hp as [I1 I2 I3 I4 I5 I6 I7]. destruct ev; cbn [process_event] in Hev.
  - destruct (pr_phase p) eqn:Eph; try done. injection Hev as <-. constructor; cbn; auto; done.
  - destruct (pr_phase p) eqn:Eph; try done. injection Hev as <-. constructor; cbn; auto; done.
  - destruct (pr_phase p) eqn:Eph; try done; injection Hev as <-; constructor; cbn; rewrite ?Eph; auto; done.
  - destruct (pr_calls p); [done|]. injection Hev as <-. by apply log_inv.
  - destruct (pr_calls p) eqn:Ek; try done. injection Hev as <-. constructor; cbn; try done. intros Ha. by specialize (I1 Ha).
  - destruct (pr_phase p) eqn:Eph; try done. destruct (pr_calls p) eqn:Ek; try done. injection Hev as <-.
    pose proof (log_step_frame (with_phase p AuditStopping) AuditQueue.EvStop) as (Ep & Ec & Er & En & El). cbv zeta in *.
    constructor; rewrite ?Ep, ?Ec, ?Er, ?En, ?El; try done.
    intros l' (l & Hl & ->)%fmap_Some. destruct (I2 l Hl) as (J1 & J2 & J3 & J4). cbn. split_and!; [done|done| |].
    + destruct (al_worker l); [done|apply orb_true_r..].
    + intros Hw. destruct (J4 Hw) as (Hs & _). by rewrite J2 in Hs.
  - destruct (pr_logger p) as [l|] eqn:El; [|done]. destruct (worker_takes l ev) eqn:Et; [|done]. injection Hev as <-. apply log_inv; [done|].
    intros l' Hl'. rewrite El in Hl'. injection Hl' as <-. by destruct ev.
  - destruct (pr_phase p) eqn:Eph; try done. destruct (audit_returned (pr_logger p)) eqn:Ea; [|done]. injection Hev as <-.
    pose proof (log_step_frame (with_phase p RevocationsStopping) EvCancelParent) as (Ep & Ec & Er & En & El). cbv zeta in *.
    constructor; cbn [with_node pr_phase pr_calls pr_logger pr_revocations pr_node]; rewrite ?Ep, ?Ec, ?Er, ?El; try done.
    + intros l' (l & Hl & ->)%fmap_Some. destruct (I2 l Hl) as (J1 & J2 & J3 & J4). cbn. by split_and!; [..|intros Hw; destruct (J4 Hw) as (? & ? & ? & ?); split_and!].
    + intros _. cbn in Ea |- *. by destruct (pr_logger p).
    + intros n' (n & Hn & ->)%fmap_Some. destruct (I6 n Hn) as [J1 J2]. cbn. rewrite J1. split; [done|]. intros _. apply orb_true_r.
  - destruct (pr_revocations p) as [s|] eqn:Es; [|done]. destruct (list_takes p ev) eqn:Et; [|done].
    apply fmap_Some in Hev as (s' & Hs' & ->). constructor; cbn; try done.
    + intros s0 [= <-]. eapply syncer_event_inv; [by apply I4|done].
    + assert (forall ph, match ph with SyncerStopping | Exited => revocations_returned (Some s) = true | _ => True end ->
              match ph with SyncerStopping | Exited => revocations_returned (Some s') = true | _ => True end) as Hph; [|by apply Hph].
      cbn. intros ph. destruct ph; try done; destruct (rs_worker s) eqn:Ew; try done; by rewrite (syncer_event_finished s ev s').
  - destruct (pr_phase p) eqn:Eph; try done. destruct (revocations_returned (pr_revocations p)) eqn:Er; [|done]. injection Hev as <-.
    constructor; cbn; try done; auto. intros n' (n & Hn & ->)%fmap_Some. destruct (I6 n Hn) as [J1 J2]. unfold SyncWorkers.Stop.
    destruct (nd_stopped n); [by split|]. cbn. rewrite J1, orb_true_r. by split.
  - destruct (pr_node p) as [n|] eqn:En; [|done]. destruct (node_takes p ev) eqn:Et; [|done].
    apply fmap_Some in Hev as (n' & Hn' & ->). destruct (node_event_flags n ev n' Hn') as (F1 & F2 & F3); [by destruct ev|].
    constructor; cbn; try done.
    + intros n0 [= <-]. rewrite F1, F2. by apply I6.
    + intros Hx. by apply F3, I7.
  - destruct (pr_phase p) eqn:Eph; try done. destruct (syncer_returned (pr_node p)) eqn:Er; [|done]. injection Hev as <-.
    constructor; cbn; auto; done.
  - injection Hev as <-. constructor; cbn; try done.
    + intros n' (n & Hn & ->)%fmap_Some. by apply (I6 n).
    + intros Hx. specialize (I7 Hx). by destruct (pr_node p).
Qed.

Lemma run_process_inv evs : forall p p', process_inv p -> run_process p evs = Some p' -> process_inv p'.
Proof.
  induction evs as [|ev evs IH]; intros p p' Hp; cbn; [by intros [= <-]|]. destruct (process_event p ev) as [p1|] eqn:E; [|done].
  intros Hr. eapply IH; [|done]. by eapply process_event_inv.
Qed.

(** The logger of a process runs the events the process gives it. *)
Lemma process_event_logger p ev p' l : process_event p ev = Some p' -> pr_logger p = Some l ->
  pr_logger p' = Some (run_logger cfg l (logger_event ev)).1 /\ pr_lost p' = pr_lost p ++ (run_logger cfg l (logger_event ev)).2.
Proof.
  assert (forall q lev, pr_logger q = Some l -> pr_logger (log_step q lev) = Some (run_logger cfg l [lev]).1
            /\ pr_lost (log_step q lev) = pr_lost q ++ (run_logger cfg l [lev]).2) as Hstep.
  { intros q lev Hl. unfold log_step. rewrite Hl. cbn. destruct (logger_step cfg l lev) as [l1 lost1]. cbn. by rewrite app_nil_r. }
  intros Hev Hl. destruct ev; cbn [process_event logger_event] in *;
    repeat (case_match; try done); simplify_eq; try (by apply Hstep);
    try (cbn [run_logger fst snd]; rewrite app_nil_r; done).
  all: try (apply fmap_Some in Hev as (? & _ & ->); cbn [run_logger fst snd]; rewrite app_nil_r; done).
  - exact (Hstep (with_phase p AuditStopping) _ Hl).
  - exact (Hstep (with_phase p RevocationsStopping) _ Hl).
Qed.
Lemma run_process_logger evs : forall p p' l, run_process p evs = Some p' -> pr_logger p = Some l ->
  pr_logger p' = Some (run_logger cfg l (logger_events evs)).1 /\ pr_lost p' = pr_lost p ++ (run_logger cfg l (logger_events evs)).2.
Proof.
  induction evs as [|ev evs IH]; intros p p' l; cbn [run_process].
  { intros [= <-] Hl. cbn. by rewrite app_nil_r. }
  destruct (process_event p ev) as [p1|] eqn:E; [|done]. cbn [mbind option_bind]. intros Hr Hl.
  destruct (process_event_logger p ev p1 l E Hl) as [Hl1 Hlost1]. destruct (IH _ _ _ Hr Hl1) as [-> ->].
  unfold logger_events. cbn [mbind list_bind]. rewrite run_logger_app. cbn [fst snd]. by rewrite Hlost1, app_assoc.
Qed.
(** ** The end is reached *)

(** The actions of [main] that remain, and in its present wait the steps of those it waits for. *)
Definition phases_left (ph : Phase) : nat :=
  match ph with Serving => 6 | HealthClosing => 5 | CallsEnding => 4 | AuditStopping => 3 | RevocationsStopping => 2 | SyncerStopping => 1 | Exited => 0 end.
Definition wait_left p : nat :=
  match pr_phase p with
  | CallsEnding => pr_calls p
  | AuditStopping => if audit_returned (pr_logger p) then 0 else 1
  | RevocationsStopping => match pr_revocations p with
                           | Some s => match rs_worker s with Reconnecting => 2 | Watching => 1 | Finished => 0 end
                           | None => 0
                           end
  | SyncerStopping => match pr_node p with Some n => workers_left n | None => 0 end
  | _ => 0
  end.
Definition closer p' p : Prop :=
  (phases_left (pr_phase p') < phases_left (pr_phase p))%nat
  \/ pr_phase p' = pr_phase p /\ (wait_left p' < wait_left p)%nat.

(** The steps that bring the end closer. *)
Definition advances p (ev : ProcessEvent) : bool :=
  match ev, pr_phase p with
  | PrHealthClosed, HealthClosing => true
  | (PrCallEnds | PrCallsEnded), CallsEnding => true
  | PrLogger (EvDrain _), AuditStopping => true
  | PrAuditStopped, AuditStopping => true
  | PrRevocations (WatchReturned _ | ReconnectTimer | CanceledWaiting), RevocationsStopping => true
  | PrRevocationsStopped, RevocationsStopping => true
  | PrSyncer ev, SyncerStopping => is_worker ev
  | PrSyncerStopped, SyncerStopping => true
  | _, _ => false
  end.
Definition is_round (ev : ProcessEvent) : bool := match ev with PrSyncer ev => is_tick ev | _ => false end.

Lemma log_step_phase p lev : pr_phase (log_step p lev) = pr_phase p.
Proof. apply log_step_frame. Qed.

Lemma advance_closer p ev p' : process_inv p -> process_event p ev = Some p' -> is_round ev = false -> advances p ev = true -> closer p' p.
Proof.
  intros Hp Hev Hr Ha. unfold advances in Ha. unfold closer. destruct ev as [| | |uuid rnd env d| | |ev| |ev| |ev| |db]; try done; cbn [process_event] in Hev.
  - destruct (pr_phase p) eqn:E; try done. injection Hev as <-. left. cbn. lia.
  - destruct (pr_phase p) eqn:E; try done. destruct (pr_calls p) eqn:Ek; [done|]. injection Hev as <-. right.
    unfold wait_left. cbn. rewrite E, Ek. split; [done|lia].
  - destruct (pr_phase p) eqn:E; try done. destruct (pr_calls p); [|done]. injection Hev as <-. left. rewrite log_step_phase. cbn. lia.
  - destruct ev; try done. destruct (pr_phase p) eqn:E; try done. destruct (pr_logger p) as [l|] eqn:El; [|done].
    destruct (worker_takes l _) eqn:Et; [|done]. injection Hev as <-. right. unfold wait_left. rewrite log_step_phase, E. split; [done|].
    destruct (log_step_frame p (EvDrain env)) as (_ & _ & _ & _ & ->). rewrite El. cbn [fmap option_fmap option_map audit_returned].
    destruct (logger_step_control l (EvDrain env) Et) as (_ & _ & ->). cbn [is_drain]. unfold worker_takes in Et.
    destruct (al_worker l); [done|lia|done].
  - destruct (pr_phase p) eqn:E; try done. destruct (audit_returned _); [|done]. injection Hev as <-. left.
    cbn [with_node pr_phase]. rewrite log_step_phase. cbn. lia.
  - destruct (pr_revocations p) as [s|] eqn:Es; [|done]. destruct (list_takes p ev) eqn:Et; [|done].
    apply fmap_Some in Hev as (s' & Hs' & ->). assert (pr_phase p = RevocationsStopping) as E by (destruct ev, (pr_phase p); done).
    right. unfold wait_left. cbn. rewrite E, Es. split; [done|]. unfold list_takes in Et. rewrite E in Et.
    unfold syncer_event in Hs'. destruct ev, (rs_worker s); try done; injection Hs' as <-; cbn; try lia.
    destruct canceled; [cbn; lia|done].
  - destruct (pr_phase p) eqn:E; try done. destruct (revocations_returned _); [|done]. injection Hev as <-. left. cbn. lia.
  - destruct (pr_node p) as [n|] eqn:En; [|done]. destruct (node_takes p ev); [|done].
    apply fmap_Some in Hev as (n' & Hn' & ->). destruct (pr_phase p) eqn:E; try done. right. unfold wait_left. cbn. rewrite E, En.
    split; [done|]. apply (canceled_worker n ev n'); try done. apply (pv_node _ Hp n En). by rewrite E.
  - destruct (pr_phase p) eqn:E; try done. destruct (syncer_returned _); [|done]. injection Hev as <-. left. cbn. lia.
Qed.

(** The others leave [main]'s wait as long as it is. *)
Lemma others_no_further p ev p' : process_inv p -> process_event p ev = Some p' -> is_round ev = false -> advances p ev = false ->
  pr_phase p <> Serving -> pr_phase p' = pr_phase p /\ wait_left p' = wait_left p.
Proof.
  intros Hp Hev Hr Ha Hph. unfold advances in Ha. destruct ev as [| | |uuid rnd env d| | |ev| |ev| |ev| |db]; cbn [process_event] in Hev.
  - by destruct (pr_phase p).
  - by destruct (pr_phase p).
  - destruct (pr_phase p) eqn:E; try done. injection Hev as <-. unfold wait_left. cbn. by rewrite E.
  - destruct (pr_calls p) eqn:Ek; [done|]. injection Hev as <-.
    destruct (log_step_frame p (EvLog uuid rnd env d)) as (Ep & Ec & Er & En & El). unfold wait_left. rewrite Ep, Ec, Er, En, El.
    split; [done|]. destruct (pr_phase p) eqn:E; try done. pose proof (pv_calls _ Hp) as Hc. rewrite E in Hc. by specialize (Hc eq_refl); congruence.
  - destruct (pr_calls p) eqn:Ek; [done|]. injection Hev as <-. unfold wait_left. cbn. by destruct (pr_phase p).
  - destruct (pr_phase p); try done; by destruct (pr_calls p).
  - destruct (pr_logger p) as [l|] eqn:El; [|done]. destruct (worker_takes l ev) eqn:Et; [|done]. injection Hev as <-.
    destruct (log_step_frame p ev) as (Ep & Ec & Er & En & El'). unfold wait_left. rewrite Ep, Ec, Er, En, El', El.
    split; [done|]. destruct (pr_phase p) eqn:E; try done. cbn [fmap option_fmap option_map audit_returned].
    assert (match ev with EvLog _ _ _ _ => True | _ => worker_takes l ev = true end) as Ht by by destruct ev.
    destruct (logger_step_control l ev Ht) as (_ & _ & ->). by destruct ev.
  - by destruct (pr_phase p).
  - destruct (pr_revocations p) as [s|] eqn:Es; [|done]. destruct (list_takes p ev) eqn:Et; [|done].
    apply fmap_Some in Hev as (s' & Hs' & ->). unfold wait_left. cbn. split; [done|]. destruct (pr_phase p) eqn:E; try done.
    rewrite Es. unfold syncer_event in Hs'. destruct ev; try done; destruct (rs_worker s) eqn:Ew; try done; injection Hs' as <-; cbn; by rewrite ?Ew.
  - by destruct (pr_phase p).
  - destruct (pr_node p) as [n|] eqn:En; [|done]. destruct (node_takes p ev) eqn:Et; [|done].
    apply fmap_Some in Hev as (n' & Hn' & ->). unfold wait_left. cbn. split; [done|]. destruct (pr_phase p) eqn:E; try done. rewrite En.
    destruct (pv_node _ Hp n En) as [Hst Hc]. rewrite E in Hc. by apply (canceled_other n ev n' (Hc eq_refl) Hst Ha Hn').
  - by destruct (pr_phase p).
  - injection Hev as <-. unfold wait_left. cbn. split; [done|]. destruct (pr_phase p) eqn:E; try done. by destruct (pr_node p).
Qed.

(** [main] never waits for a step that nobody can take. *)
Lemma advance_enabled `{!Inhabited Out} p : process_inv p -> pr_phase p <> Serving -> pr_phase p <> Exited ->
  exists ev p', is_round ev = false /\ advances p ev = true /\ process_event p ev = Some p'.
Proof.
  intros Hp Hs He. destruct (pr_phase p) eqn:E; try done.
  - exists PrHealthClosed. eexists. unfold advances. cbn [process_event]. rewrite E. by split_and!.
  - destruct (pr_calls p) as [|k] eqn:Ek; [exists PrCallsEnded|exists PrCallEnds]; eexists; unfold advances; cbn [process_event];
      rewrite ?Ek, E; by split_and!.
  - destruct (audit_returned (pr_logger p)) eqn:Ea.
    + exists PrAuditStopped. eexists. unfold advances. cbn [process_event]. rewrite E, Ea. by split_and!.
    + destruct (pr_logger p) as [l|] eqn:El; [|done]. cbn in Ea. destruct (al_worker l) eqn:Ew; try done.
      destruct (pv_logger _ Hp l El) as (_ & Hst & Hcn & _). rewrite E in Hst. cbn in Hst. rewrite Hst in Hcn.
      exists (PrLogger (EvDrain (fun _ => mkFlushEnv inhabitant (mkSpillEnv 0 EmptyString false false)
                                            (mkReplayEnv false (fun _ => false) (fun _ => inhabitant) (fun _ => false))))).
      eexists. unfold advances. cbn [process_event]. rewrite E, El. unfold worker_takes. rewrite Ew, Hcn. by split_and!.
  - destruct (revocations_returned (pr_revocations p)) eqn:Er.
    + exists PrRevocationsStopped. eexists. unfold advances. cbn [process_event]. rewrite E, Er. by split_and!.
    + destruct (pr_revocations p) as [s|] eqn:El; [|done]. cbn in Er.
      destruct (rs_worker s) eqn:Ew; try done;
        [exists (PrRevocations (WatchReturned true))|exists (PrRevocations CanceledWaiting)];
        eexists; unfold advances; cbn [process_event]; rewrite E, El; unfold list_takes, syncer_event; rewrite E, Ew; by split_and!.
  - destruct (syncer_returned (pr_node p)) eqn:Er.
    + exists PrSyncerStopped. eexists. unfold advances. cbn [process_event]. rewrite E, Er. by split_and!.
    + destruct (pr_node p) as [n|] eqn:En; [|done]. destruct (pv_node _ Hp n En) as [_ Hc]. rewrite E in Hc.
      destruct (canceled_progress n (Hc eq_refl) Er) as (ev & n' & Hw & Ht & Hn').
      exists (PrSyncer ev). eexists. unfold advances. cbn [process_event]. rewrite E, En.
      assert (node_takes p ev = true) as -> by by destruct ev. rewrite Hn'. by split_and!.
Qed.

Lemma run_process_cut evs1 evs2 : forall p, run_process p (evs1 ++ evs2) = p1 ← run_process p evs1; run_process p1 evs2.
Proof. induction evs1 as [|ev evs1 IH]; intros p; cbn; [done|]. destruct (process_event p ev); cbn; [apply IH|done]. Qed.
Lemma run_process_next p evs p' k ev : run_process p evs = Some p' -> evs !! k = Some ev ->
  exists q q', run_process p (take k evs) = Some q /\ process_event q ev = Some q' /\ run_process p (take (S k) evs) = Some q'.
Proof.
  intros Hrun Hk. rewrite <- (take_drop (S k) evs), run_process_cut in Hrun. rewrite (take_S_r _ _ _ Hk) in *.
  rewrite run_process_cut in *. destruct (run_process p (take k evs)) as [q|]; [|done]. cbn in *.
  destruct (process_event q ev) as [q'|] eqn:Hq; [|done]. by exists q, q'.
Qed.

Lemma end_reachable `{!Inhabited Out} k : forall m p, (phases_left (pr_phase p) <= k)%nat -> (wait_left p <= m)%nat -> process_inv p ->
  pr_phase p <> Serving -> exists evs p', run_process p evs = Some p' /\ pr_phase p' = Exited.
Proof.
  induction k as [|k IHk]; induction m as [|m IHm]; intros p Hk Hm Hp Hs.
  1,2: exists [], p; split; [done|]; by destruct (pr_phase p); cbn in Hk; try lia.
  all: assert (pr_phase p = Exited \/ pr_phase p <> Exited) as [He|He] by (destruct (pr_phase p); auto); [by exists [], p|].
  all: destruct (advance_enabled p Hp Hs He) as (ev & p1 & Hr & Ha & Hev).
  all: pose proof (process_event_inv p ev p1 Hp Hev) as Hp1; pose proof (advance_closer p ev p1 Hp Hev Hr Ha) as Hc.
  all: assert (pr_phase p1 <> Serving) as Hs1 by (intros E; destruct Hc as [Hc|[Hc _]]; [rewrite E in Hc; destruct (pr_phase p); cbn in Hc; lia|congruence]).
  all: assert (exists evs p2, run_process p1 evs = Some p2 /\ pr_phase p2 = Exited) as (evs & p2 & Hrun & He2);
    [|by exists (ev :: evs), p2; cbn; rewrite Hev].
  - destruct Hc as [Hc|[_ Hc]]; [|lia]. by apply (IHk (wait_left p1)); [lia|..].
  - destruct Hc as [Hc|[Hc1 Hc2]]; [by apply (IHk (wait_left p1)); [lia|..]|]. apply IHm; [by rewrite Hc1|lia|done|done].
Qed.

(** A run without further rounds that goes on until [main] has returned; from then on it may be anything. *)
Definition run_to_exit (f : nat -> Process W) (ev : nat -> ProcessEvent) : Prop :=
  forall n, pr_phase (f n) <> Exited -> process_event (f n) (ev n) = Some (f (S n)) /\ is_round (ev n) = false.
(** Whatever [main] waits for moves some time. *)
Definition moves_on (f : nat -> Process W) (ev : nat -> ProcessEvent) : Prop :=
  forall n, pr_phase (f n) <> Exited -> exists m, (n <= m)%nat /\ advances (f m) (ev m) = true.

Lemma closer_wf : well_founded closer.
Proof.
  assert (forall k m p, phases_left (pr_phase p) = k -> wait_left p = m -> Acc closer p) as Hacc; [|intros p; by eapply Hacc].
  induction k as [k IHk] using lt_wf_ind. induction m as [m IHm] using lt_wf_ind. intros p <- <-. constructor.
  intros p1 [Hc|[Hc1 Hc2]]; [by eapply IHk|]. eapply IHm; [exact Hc2|by rewrite Hc1|done].
Qed.

Lemma step_keeps_stopping p ev p' : process_inv p -> process_event p ev = Some p' -> is_round ev = false ->
  pr_phase p <> Serving -> process_inv p' /\ pr_phase p' <> Serving.
Proof.
  intros Hp Hev Hr Hs. split; [by eapply process_event_inv|]. intros E. destruct (advances p ev) eqn:Ha.
  - destruct (advance_closer p ev p' Hp Hev Hr Ha) as [Hc|[Hc _]]; [rewrite E in Hc; destruct (pr_phase p); cbn in Hc; lia|congruence].
  - destruct (others_no_further p ev p' Hp Hev Hr Ha Hs) as [Hc _]. congruence.
Qed.

Lemma exited_or_not p : pr_phase p = Exited \/ pr_phase p <> Exited.
Proof. destruct (pr_phase p); auto. Qed.

Lemma run_to_exit_ends f ev : run_to_exit f ev -> moves_on f ev -> process_inv (f 0%nat) -> pr_phase (f 0%nat) <> Serving ->
  exists n, pr_phase (f n) = Exited.
Proof.
  intros Hrun Hmove Hinit Hs0.
  assert (forall p n, p = f n -> process_inv (f n) -> pr_phase (f n) <> Serving -> exists n', pr_phase (f n') = Exited) as Hall;
    [|by apply (Hall (f 0%nat) 0%nat)].
  intros p. induction p as [p IH] using (well_founded_induction closer_wf). intros n -> Hp Hs.
  destruct (exited_or_not (f n)) as [He|He]; [by exists n|].
  destruct (Hmove n He) as (m & Hle & Ha). replace m with (n + (m - n))%nat in Ha by lia. revert Ha. generalize (m - n)%nat as d. clear Hle m.
  assert (forall d i, pr_phase (f i) = pr_phase (f n) -> wait_left (f i) = wait_left (f n) -> process_inv (f i) ->
    advances (f (i + d)%nat) (ev (i + d)%nat) = true -> exists n', pr_phase (f n') = Exited) as Hd; [|intros d; by apply Hd].
  induction d as [|d IHd]; intros i Hph Hw Hpi Ha; destruct (Hrun i) as [Hev Hr]; try congruence.
  all: destruct (step_keeps_stopping _ _ _ Hpi Hev Hr) as [Hp1 Hs1]; [congruence|].
  all: destruct (advances (f i) (ev i)) eqn:Hai;
    [apply (IH (f (S i))) with (S i); [unfold closer; rewrite <- Hph, <- Hw; by apply (advance_closer _ (ev i))|done..]|].
  - rewrite Nat.add_0_r in Ha. congruence.
  - destruct (others_no_further _ _ _ Hpi Hev Hr Hai) as [Hph' Hw']; [congruence|].
    apply (IHd (S i)); [by rewrite Hph'|by rewrite Hw'|done|]. by replace (S i + d)%nat with (i + S d)%nat by lia.
Qed.

(** A call in flight finds everything at work: the logger takes its record, its worker runs, and the context of the server is not
    done.  [main] stops nothing before the last call has ended. *)
Theorem calls_in_flight_are_served (p p' : Process W) (evs : list ProcessEvent) : serving p -> run_process p evs = Some p' ->
  pr_calls p' <> 0%nat ->
  server_canceled (pr_phase p') = false
  /\ forall l, pr_logger p' = Some l -> al_stopped l = false /\ al_canceled l = false /\ al_worker l = WorkerRunning.
Proof.
  intros Hserv Hrun Hcalls. pose proof (run_process_inv evs p p' (serving_inv p Hserv) Hrun) as [I1 I2 _ _ _ _ _].
  assert (audit_stopped (pr_phase p') = false) as Ha by (destruct (audit_stopped _); [by destruct Hcalls; apply I1|done]).
  split; [by destruct (pr_phase p')|]. intros l Hl. destruct (I2 l Hl) as (J1 & J2 & J3 & J4). rewrite Ha in J2. rewrite J2 in J3.
  split_and!; [done|done|]. destruct (al_worker l); [done|done|]. destruct (J4 eq_refl) as [Hst _]. congruence.
Qed.

(** C14: Once the signal is there [main] comes to its end, further rounds of the reconciliation apart: there is always a step that
    what it waits for can take, each such step brings the end closer and no other step moves it away, so from every such state a
    run to the exit exists, and every run without such rounds, in which what [main] waits for moves some time, reaches the exit. *)
Theorem shutdown_comes_to_an_end `{!Inhabited Out} (p p' : Process W) (evs : list ProcessEvent) : serving p ->
  run_process p evs = Some p' -> pr_phase p' <> Serving ->
  (pr_phase p' <> Exited -> exists ev p'', is_round ev = false /\ advances p' ev = true /\ process_event p' ev = Some p'')
  /\ (forall ev p'', process_event p' ev = Some p'' -> is_round ev = false ->
       if advances p' ev then closer p'' p' else pr_phase p'' = pr_phase p' /\ wait_left p'' = wait_left p')
  /\ (exists evs2 p2, run_process p' evs2 = Some p2 /\ pr_phase p2 = Exited)
  /\ forall f ev, run_to_exit f ev -> moves_on f ev -> f 0%nat = p' -> exists n, pr_phase (f n) = Exited.
Proof.
  intros Hserv Hrun Hph. pose proof (run_process_inv evs p p' (serving_inv p Hserv) Hrun) as Hp. split_and!.
  - by apply advance_enabled.
  - intros ev p'' Hev Hr. destruct (advances p' ev) eqn:Ha; [by eapply advance_closer|by eapply others_no_further].
  - by eapply end_reachable.
  - intros f ev Hf Hm <-. by eapply run_to_exit_ends.
Qed.
End Process.

Section Exit.
Context {W Out : Type} `{BatchWriterLaws W Out} (cfg : LoggerConfig).
Context `{UnicodeTable} `{Dag.RangeOrder} `{RowOrder}.
Hypothesis crypto_sound : crypto_ok (lc_crypto cfg) /\ utf8_valid (ec_activeKeyID (lc_crypto cfg)) = true.

(** C13: When [main] ends no call is left, every record a call logged is in the database or in a spill file, or was given up and
    counted, and the goroutines of the three components have returned: nothing uses the database after its connection is closed. *)
Theorem exit_leaves_nothing_behind (p p' : Process W) (evs : list (ProcessEvent (Out := Out))) :
  serving p -> (forall l, pr_logger p = Some l -> logger_inv l /\ run_ok cfg l (logger_events evs)) ->
  run_process cfg p evs = Some p' -> pr_phase p' = Exited ->
  pr_calls p' = 0%nat
  /\ (forall l, pr_logger p = Some l -> exists l' lost, pr_logger p' = Some l' /\ pr_lost p' = pr_lost p ++ lost
       /\ al_worker l' = WorkerDone /\ al_queue l' = [] /\ al_batch l' = []
       /\ (forall ev e, ev ∈ logger_events evs -> logs cfg ev e -> durable cfg l' e \/ e ∈ lost)
       /\ st_Dropped (al_stats l) + Z.of_nat (length lost) <= st_Dropped (al_stats l'))
  /\ (forall s, pr_revocations p' = Some s -> rs_worker s = Finished /\ RevocationReady (rs_manager s) = false)
  /\ (forall n ev, pr_node p' = Some n -> is_worker ev = true -> node_event n ev = None).
Proof using All.
  intros Hserv Hok Hrun Hexit. pose proof (run_process_inv cfg evs p p' (serving_inv p Hserv) Hrun) as [I1 I2 I3 I4 I5 _ I7].
  rewrite Hexit in *. split_and!; [by apply I1| | |].
  - intros l Hl. destruct (Hok l Hl) as [Hinv Hrok]. destruct (run_process_logger cfg evs p p' l Hrun Hl) as [Hl' Hlost].
    destruct (run_logger cfg l (logger_events evs)) as [l' lost] eqn:E. cbn [fst snd] in *. exists l', lost.
    destruct (run_logger_ok cfg crypto_sound _ _ _ _ Hinv Hrok E) as [Hs Hin].
    specialize (I3 eq_refl). rewrite Hl' in I3. destruct (I2 l' Hl') as (J1 & _ & _ & J4). cbn in I3.
    assert (al_worker l' = WorkerDone) as Hw by by destruct (al_worker l'). destruct (J4 Hw) as (_ & _ & Hq & Hb).
    split_and!; try done; [|by destruct Hs]. intros ev e Hev Hlog.
    destruct (Hin ev e Hev Hlog) as [[He|[He|He]]|He]; [rewrite Hq in He|rewrite Hb in He|by left|by right]; by apply elem_of_nil in He.
  - intros s Es. rewrite Es in I5. cbn in I5. assert (rs_worker s = Finished) as Hw by by destruct (rs_worker s).
    split; [done|]. destruct (RevocationReady (rs_manager s)) eqn:Er; [|done]. destruct (si_ready _ (I4 s Es) Er). congruence.
  - intros n ev En Hw. apply returned_no_step; [|done]. specialize (I7 eq_refl). by rewrite En in I7.
Qed.
End Exit.

(** ** Witnesses *)

Section Samples.
#[local] Existing Instance all_columns.
#[local] Existing Instance sorted_range.
#[local] Existing Instance ascii_table.
#[local] Existing Instance insertion_order.

(** A node that listens and has its list, and its logger with the database down. *)
Definition running_logger : AuditLogger AuditTable := (logger_step sample_logger_config sample_logger (AuditQueue.EvStart no_replay)).1.
Definition watching_list : RevocationSyncer :=
  mkRevSyncer (on_snapshot 5 (SetRevocationReady (NewDelegationManager "") false) []) Watching true [ReportReady].
Definition sample_process : Process AuditTable := mkProcess Serving 0 (Some running_logger) [] (Some watching_list) (Some listening).

Definition log_call : ProcessEvent (Out := TxOutcome) := PrCallLogs (Some sample_id) sample_random (sample_spill 1) sample_decision.
(** A call is in flight when the signal comes. *)
Definition signaled_events : list (ProcessEvent (Out := TxOutcome)) := [PrCallBegins; PrSignal].
Definition shutdown_events : list (ProcessEvent (Out := TxOutcome)) :=
  signaled_events ++ [log_call; PrHealthClosed; PrCallEnds; PrCallsEnded; PrLogger (EvDrain sample_drain); PrAuditStopped;
    PrRevocations (WatchReturned true); PrRevocationsStopped; PrSyncer (EvSubscriber SubLost); PrSyncer (EvReconciler RecCanceled);
    PrSyncerStopped].
Definition process_after (evs : list (ProcessEvent (Out := TxOutcome))) : Process AuditTable :=
  default sample_process (run_process sample_logger_config sample_process evs).
Definition process_runs (evs : list (ProcessEvent (Out := TxOutcome))) : bool :=
  if run_process sample_logger_config sample_process evs then true else false.
Lemma process_after_run evs : process_runs evs = true -> run_process sample_logger_config sample_process evs = Some (process_after evs).
Proof. unfold process_runs, process_after. by destruct (run_process _ _ evs). Qed.

Lemma shutdown_runs : process_runs shutdown_events = true.
Proof. vm_compute. reflexivity. Qed.

Lemma sample_serving : serving sample_process.
Proof.
  constructor; [done| | |].
  - intros l [= <-]. by split_and!.
  - intros s [= <-]. apply (syncer_event_inv (syncer_start (NewDelegationManager "")) (SnapshotDelivered 5 [])); [apply start_inv|done].
  - intros n [= <-]. split; vm_compute; reflexivity.
Qed.

Definition before_drain : AuditLogger AuditTable :=
  (run_logger sample_logger_config running_logger
     [EvLog (Some sample_id) sample_random (sample_spill 1) sample_decision; AuditQueue.EvStop]).1.
Lemma before_drain_state : al_queue before_drain = [sample_entry] /\ al_dir before_drain = ∅.
Proof.
  unfold before_drain. cbn [run_logger logger_step]. unfold Log. change (lc_crypto sample_logger_config) with sample_crypto.
  rewrite sample_sealed. by split_and!.
Qed.
Lemma shutdown_run_ok : run_ok sample_logger_config running_logger (logger_events shutdown_events).
Proof.
  change (logger_events shutdown_events) with
    ([EvLog (Some sample_id) sample_random (sample_spill 1) sample_decision; AuditQueue.EvStop] ++ [EvDrain sample_drain; EvCancelParent]).
  apply run_ok_app. split.
  - split; [|done]. split_and!; [exact sample_decision_ok|by intros u [= <-]|exact sample_random_ok|apply sample_spill_ok].
  - fold before_drain. split; [|done]. cbn [event_ok]. destruct before_drain_state as [-> ->].
    split; [intros i _; apply sample_spill_ok|]. intros i j Hij.
    assert (i = 0%nat /\ j = 1%nat) as [-> ->] by (cbn in Hij; lia). by vm_compute.
Qed.

Lemma exit_leaves_nothing_behind_witness : exists (l' : AuditLogger AuditTable) (lost : list LogEntry),
  pr_logger (process_after shutdown_events) = Some l'
  /\ (durable (Out := TxOutcome) sample_logger_config l' sample_entry \/ sample_entry ∈ lost)
  /\ forall s, pr_revocations (process_after shutdown_events) = Some s -> rs_worker s = Finished.
Proof.
  destruct (exit_leaves_nothing_behind sample_logger_config sample_crypto_sound sample_process (process_after shutdown_events)
              shutdown_events sample_serving) as (_ & Hl & Hs & _).
  - intros l [= <-]. split; [by split_and!|exact shutdown_run_ok].
  - apply process_after_run. exact shutdown_runs.
  - vm_compute. reflexivity.
  - destruct (Hl running_logger eq_refl) as (l' & lost & Hl' & _ & _ & _ & _ & Hin & _). exists l', lost.
    split; [exact Hl'|]. split; [|intros s Es; exact (proj1 (Hs s Es))].
    apply (Hin (EvLog (Some sample_id) sample_random (sample_spill 1) sample_decision)); [left|exact sample_sealed].
Defined.

Lemma calls_in_flight_are_served_witness : server_canceled (pr_phase (process_after signaled_events)) = false.
Proof.
  apply (calls_in_flight_are_served sample_logger_config sample_process (process_after signaled_events) signaled_events sample_serving).
  - apply process_after_run. vm_compute. reflexivity.
  - vm_compute. discriminate.
Defined.

(** The same shutdown as a run without end. *)
Definition stopping_run (n : nat) : Process AuditTable := process_after (take (S (S n)) shutdown_events).
Definition stopping_event (n : nat) : ProcessEvent (Out := TxOutcome) := nth (S (S n)) shutdown_events PrSignal.

Lemma stopping_run_last n : (11 <= n)%nat -> pr_phase (stopping_run n) = Exited.
Proof. intros Hn. unfold stopping_run. rewrite take_ge by (cbn; lia). vm_compute. reflexivity. Qed.

Lemma process_after_step k ev : shutdown_events !! k = Some ev ->
  process_event sample_logger_config (process_after (take k shutdown_events)) ev = Some (process_after (take (S k) shutdown_events)).
Proof.
  intros Hk. destruct (run_process_next _ _ _ _ _ _ (process_after_run _ shutdown_runs) Hk) as (q & q' & Hq & Hev & Hq').
  unfold process_after. by rewrite Hq, Hq'.
Qed.

Lemma stopping_run_to_exit : run_to_exit sample_logger_config stopping_run stopping_event.
Proof.
  intros n Hn. assert (n < 11)%nat as Hlt by (destruct (Nat.lt_ge_cases n 11) as [?|Hge]; [done|by destruct Hn; apply stopping_run_last]).
  split; [apply process_after_step|]; unfold stopping_event; do 11 (destruct n as [|n]; [reflexivity|]); lia.
Qed.
Lemma stopping_moves_on : moves_on stopping_run stopping_event.
Proof.
  intros n Hn. exists (if bool_decide (n <= 10)%nat then 10%nat else n). case_bool_decide as Hle.
  - split; [done|]. vm_compute. reflexivity.
  - by destruct Hn; apply stopping_run_last; lia.
Qed.

#[local] Instance some_outcome : Inhabited TxOutcome := populate TxFailed.
Lemma shutdown_comes_to_an_end_witness : (exists evs2 p2,
    run_process sample_logger_config (process_after signaled_events) evs2 = Some p2 /\ pr_phase p2 = Exited)
  /\ exists n, pr_phase (stopping_run n) = Exited.
Proof.
  destruct (shutdown_comes_to_an_end sample_logger_config sample_process (process_after signaled_events) signaled_events sample_serving)
    as (_ & _ & Hend & Hall).
  - apply process_after_run. vm_compute. reflexivity.
  - vm_compute. discriminate.
  - split; [exact Hend|]. exact (Hall stopping_run stopping_event stopping_run_to_exit stopping_moves_on eq_refl).
Defined.
End Samples.
